(* ===== verification/_CoqProject ===== *)
-Q . S2P
Prelude.v
Text.v
Instants.v
Json.v
Glare.v
Channel.v
Signaling.v
P2PCrypto.v
Idle.v
P2PState.v
Verify.v
Driver.v
Turn.v
Policy.v
Fabric.v
FabricClaim.v
WorkerExec.v
LauncherExec.v
WorkerBatch.v
WorkerMux.v
SessionEvents.v
Coordinator.v
Liveness.v
WorkerClock.v
WorkerSession.v
WorkerLoop.v
Float64.v
MatrixTypes.v
MultiHs.v
Effects.v
Rest.v
MatrixClient.v
Toys.v
MatrixDelivery.v
MatrixRooms.v
Keychain.v
Trust.v
StateRoom.v
MatrixSession.v
ClientSessions.v
SessionJson.v
RoomEvents.v
ClientProtocol.v
ClientDaemon.v
Config.v
ClientCli.v
ClientDirect.v
P2PIntegration.v
FabricProcess.v
Cleanup.v
PolicyAppservice.v
LauncherTerminal.v
Reencrypt.v
WorkerStart.v
Diagnose.v
KeyStores.v
Secrets.v
WorkerHost.v
FabricCli.v
ChannelBackends.v
WasmChannel.v
WasmClient.v
WasmApi.v
Transports.v
Attach.v
TurnTask.v
FabricMain.v
LauncherRun.v
Programs.v
WebApp.v
DaemonRun.v
ClientMain.v
Redaction.v
