(* ===== verification/Prelude.v ===== *)
(** * mxdx: a verification library for the Rust crates of the repository

    mxdx runs shells and commands on fleets of hosts over Matrix. A client
    posts tasks to an end-to-end encrypted room, a worker on the host
    validates them, runs them in sessions and streams their output back; a
    coordinator routes tasks to workers by capability and watches them; and
    two peers in an interactive session may move its traffic to a WebRTC data
    channel that is signalled over Matrix and authenticated by their device
    keys. The library models the parts of [src/crates] that decide something,
    as pure functions on explicit state, and proves what they promise.

    ** Files, and the code they model

    Shared: [Prelude] (results, time, machine integers, strings as bytes,
    automation), [Text] (the [str] and [Path] functions of the Rust library
    that the code uses, on UTF-8 bytes), [Instants] (clocks and the calendar),
    [Float64] (the [f64] operations that the code uses, on the IEEE numbers of
    the standard library), [Json] (the interface of [serde_json]) and
    [Effects] (computations that talk to the outside, return, raise or panic).

    The peer-to-peer transport, crate [mxdx-p2p]:
    - [Glare] ([signaling/glare.rs]): which of two crossing invites wins.
    - [Channel] ([channel/mod.rs]): the vocabulary of the data channel; the
      class [WebRtcChannel] is what the driver uses of a backend.
    - [ChannelBackends] ([channel/native.rs]) and [WasmChannel]
      ([channel/wasm.rs]): its two backends, over the operations of
      libdatachannel and of the browser.
    - [Signaling] ([signaling/events.rs], [signaling/parse.rs]): the
      [m.call.*] contents, their builders and their parser.
    - [P2PCrypto] ([crypto.rs]): session keys and AES-GCM frames.
    - [Idle] ([transport/idle.rs]): the inactivity watchdog.
    - [P2PState] ([transport/state.rs]): the call state machine; one
      definition per state of the table, [transition] on top.
    - [Verify] ([transport/verify.rs]): transcript, SDP fingerprints, and the
      challenge-response handshake.
    - [Driver] ([transport/driver.rs], [transport/mod.rs]): the task that owns
      the machine: [dispatch] executes the commands of a transition,
      [handle_input] is an arm of the run loop, [select] its biased choice.
    - [Turn] ([turn.rs]): TURN credentials, their fetch and refresh loop;
      [TurnTask] ([turn.rs], [TurnRefreshTask]): the loop as a task beside its
      owner, with the channel between them.

    [Driver] uses [P2PState], [Idle], [P2PCrypto] and [Channel]; [P2PState]
    uses [Signaling] and [Glare].

    Authorisation: [Policy] ([mxdx-policy/policy.rs]), the replay cache and
    the authorised users; [WorkerExec] ([mxdx-worker/executor.rs]) and
    [LauncherExec] ([mxdx-launcher/executor.rs], [config.rs]), the gates a
    command passes before it runs.

    The worker: [SessionEvents] ([mxdx-types/events/session.rs]), what is said
    about sessions; [WorkerSession] ([mxdx-worker/session.rs], [retention.rs],
    [output.rs], [heartbeat.rs]), their life cycle and their output;
    [WorkerClock] ([telemetry.rs], [lib.rs]), timestamps and the check for a
    competing instance; [WorkerLoop] ([lib.rs], [matrix.rs]), the main loop on
    a world that records what was asked of the outside; [WorkerBatch]
    ([batched_sender.rs]), the coalescing of output; [WorkerMux]
    ([session_mux.rs]), the routing of terminal events; [WorkerStart]
    ([lib.rs], [telemetry.rs], [identity.rs]), the start up to the loop and
    the housekeeping of each of its turns: lease, telemetry, trust;
    [WorkerHost] ([tmux.rs], [bin/mxdx_exec.rs], [session_persist.rs],
    [compat.rs]), its sessions in tmux and the way of an exit code.

    Beside Matrix: [P2PIntegration] ([p2p_integration.rs] of worker and
    client, [mxdx-p2p/transport/matrix_signer.rs]), the path a payload takes
    and the keys of the Matrix device in the handshake.

    In the logs: [Redaction] (the [Debug] instances of [mxdx-p2p] and
    [mxdx-matrix]), what is printed of records that hold secrets.

    Matrix, crate [mxdx-matrix]: [MatrixTypes] ([error.rs]); [Rest]
    ([rest.rs]), the requests that bypass the SDK; [MatrixClient]
    ([client.rs]), one homeserver, with its theorems in [MatrixDelivery];
    [MultiHs] ([multi_hs.rs]), several homeservers behind circuit breakers;
    [MatrixRooms] ([rooms.rs]), spaces, discovery and the checks of a state
    room; [MatrixSession] ([session.rs], [backup.rs] and the connecting part
    of [client.rs]), login, restore and key backup; [Reencrypt]
    ([reencrypt.rs]), the replacement of rooms that are not encrypted; [Toys],
    small instances of the interfaces for the witnesses.

    Identity and persistence: [Keychain] ([mxdx-types/identity.rs],
    [keychain_chain.rs]) and [KeyStores] ([keychain_file.rs],
    [keychain_os.rs]), where keys are kept; [Trust] ([mxdx-types/trust.rs] and its owners in
    [mxdx-worker] and [mxdx-client]); [StateRoom] ([mxdx-worker/state_room.rs],
    [mxdx-types/events/state_room.rs] and the set-up in [lib.rs]), where a
    worker keeps its sessions and its lease; [Secrets] ([mxdx-secrets],
    [events/secret.rs]), the store of secrets and its coordinator. [StateRoom]
    uses [MatrixRooms] and [Keychain].

    The fabric: [Fabric] ([mxdx-fabric/coordinator.rs], [failure.rs],
    [capability_index.rs], [mxdx-types/events/fabric.rs]), the coordinator bot
    with its routing loop and watchlist; [FabricClaim] ([worker.rs]), how
    workers claim a task; [FabricProcess] ([worker.rs], [process_worker.rs],
    [sender.rs]), a task at work as a process and a sender that waits;
    [FabricCli] ([mxdx-fabric-cli/main.rs]), tasks from the command line;
    [FabricMain] ([main.rs] of the same crate), from the options to a command,
    and the two that do not end, the coordinator with its restarts and the
    worker. [FabricMain] uses [Fabric], [FabricProcess] and [FabricCli].

    The policy agent and the launcher: [PolicyAppservice]
    ([mxdx-policy/config.rs], [appservice.rs]), the registration with a
    homeserver; [LauncherTerminal] ([mxdx-launcher/terminal/],
    [multi_hs.rs]), terminals in tmux with their buffers, and the choice among
    homeservers; [LauncherRun] ([executor.rs], [config.rs], [multi_hs.rs],
    [telemetry/system.rs], [main.rs] and the registration in
    [mxdx-matrix/client.rs]), commands with the collection of their output and
    the start.

    Client and worker in a room: [SessionJson] ([mxdx-types/events/session.rs],
    the derived serialisers) and [RoomEvents] ([mxdx-worker/matrix.rs],
    [mxdx-client/matrix.rs], [submit.rs], [cancel.rs], [tail.rs]), what each
    side writes and reads, and how a client comes to its room.

    In the browser, crate [mxdx-core-wasm]: [WasmClient] ([lib.rs], the
    methods of its client), sessions, rooms and discovery; [WasmApi] ([lib.rs],
    the free functions), what JavaScript calls of the transport and how its
    values are read. [WasmClient] uses [MatrixRooms] and [MatrixTypes],
    [WasmApi] the transport above.

    The client's daemon: [ClientSessions] ([daemon/sessions.rs],
    [daemon/subscriptions.rs]), [ClientProtocol] ([protocol/]), and
    [ClientDaemon] ([daemon/handler.rs], [daemon/mod.rs],
    [daemon/transport/unix.rs]), the requests of local clients and the tasks
    that follow sessions; [Transports] ([daemon/transport/]), what the reader
    and the forwarder of a client write to a socket, to the standard output
    and to a websocket; [DaemonRun] ([daemon/mod.rs], [daemon/transport/unix.rs]
    and the clean-up of [cli/connect.rs]), the processes of a profile and the
    files they share. [Transports] and [DaemonRun] use [ClientDaemon].

    The command line: [Config] ([mxdx-types/config.rs] and the [config.rs] of
    client and worker), configuration and accounts; [ClientCli] ([main.rs],
    [cli/], [ls.rs], [logs.rs], [reconnect.rs]), commands through the daemon;
    [ClientDirect] ([run_direct]), the same without it; [Cleanup]
    ([cleanup.rs]) and [Diagnose] ([diagnose.rs]), over HTTP alone; [Attach]
    ([attach.rs]), the channel an interactive session goes through;
    [ClientMain] ([main.rs], [cli/format.rs], [daemon/mod.rs]), which way a
    command goes, and how a daemon comes to its connection.

    The coordinator and the client: [Coordinator] ([mxdx-coordinator/router.rs],
    [index.rs], [claim.rs], [watchlist.rs], [failure.rs], with the task and
    worker descriptions of [mxdx-types/events]); [Liveness]
    ([mxdx-client/liveness.rs]), how the client decides from telemetry
    whether a worker is alive and which one can run a command. [Programs]
    ([mxdx-coordinator/lib.rs], [main.rs], [config.rs], [mxdx-worker/main.rs],
    [mxdx-client/identity.rs]): what the programs do with their options.
    [WebApp] ([mxdx-web/]): the list of launchers as a page and as a stream.

    ** How state and effects are rendered

    A Rust struct is a record, an enum an inductive type, a [HashMap] a
    [gmap], an integer a [Z] with its wrap-around written where an operation
    can leave its width. A method that mutates [self] returns the new state,
    [Result] is [result], and a panic is [None] where the code can panic. What
    the code tells the outside is a list of effects; what the outside answers
    is an argument: the clock, the random bytes, the network, the order in
    which a map is iterated. Tasks and their channels are functions of
    the sequence of inputs they handle, so that a statement about every
    sequence covers every interleaving; tasks that write to one stream, or that
    wait for each other, and processes that share files, are step relations
    ([Transports], [TurnTask], [WebApp], [DaemonRun]), and statements are about the states that they reach. Third-party crates (AES-GCM, Ed25519,
    base64, deflate, [serde_json], [lru], [url], the HTTP client) are classes
    whose laws, stated apart, are their documented behaviour; each has a small
    instance with which the witnesses compute.

    Code that is one long conversation with the outside is a computation of a
    monad: [Effects.Io S E A] runs on a state [S] of the outside that is a
    parameter, so that a theorem holds for every server, SDK and keychain that
    keeps the laws it names; the loop of the worker has its own error-state
    monad, whose world records the requests in their order.

    Loops are structural on the data or on the inputs they consume. Fuel is
    used where the code's loop is not: [chunks_from] and [trim_start_fuel] get
    the length of what they shorten, [num_digits] the 20 digits of a 64-bit
    number, [follow_tombstones] the code's own bound of 10, and the wait for
    keys as many rounds as its timeout has nanoseconds, which
    [key_wait_ends] proves enough when the clock moves. Inflation of terminal
    input reads at most its bound plus one byte and gets two steps more than
    that. The main loops of worker and launcher, the polling of the policy
    agent and the waiting of senders consume a list of what the outside hands
    them, or a number of rounds that the theorems quantify over; so do the
    restarts of the fabric's coordinator, which consume its runs, the tasks of
    its worker, the schedule by which the streams of a command are read, which
    [execute_ends] proves to end, and the waits of the browser client, a round
    for each tick of their timeout.

    ** What the theorems show

    - The call: only a verified session opens, a call is never renamed or left
      without its channel being closed, telemetry reports the transition that
      happens, back-off instants lie where they should ([P2PState]).
    - The handshake: the transcript determines all that it binds, two honest
      ends verify each other, a verified outcome means a signature by the known
      key of the peer, fingerprints are canonical ([Verify]); both ends
      resolve glare alike ([Glare]); a key that travels as base64 decrypts
      what it encrypted ([P2PCrypto]).
    - The driver: its invariant, the lock after three failures, the replay
      window, the exactness of the failure rate, delivery of what is queued,
      and what its wiring cannot reach ([Driver]); the watchdog fires at its
      deadline and never before a window has passed ([Idle]); the refresh
      loop follows its schedule and dies with its seed, and the access token
      goes nowhere else ([Turn]); its task loses no trigger and no fetch
      whatever its owner does, and ends within three steps of a shutdown
      unless its outcomes are not read ([TurnTask]).
    - The backends: remote candidates are added in the order of their arrival,
      each when the library has a remote description ([ChannelBackends],
      [WasmChannel]); the answering end of the browser's backend never has a channel to send on
      ([WasmChannel]).
    - Admission: what a command is that passed a gate ([WorkerExec],
      [LauncherExec]); an event is accepted once per TTL, and what every
      evaluation answers ([Policy]).
    - The worker: its loop refines an abstract pool of sessions, runs only
      what was submitted, authorized and validated, and ends by itself only on
      a failed request, a malformed submission, the lease of another worker or
      a clock before the epoch ([WorkerLoop]); sessions are
      claimed, started and completed once, chunked output decodes
      ([WorkerSession]); timestamps are read back, a competing instance is
      noticed outside of leap years ([WorkerClock]); batches conserve the byte
      stream ([WorkerBatch]), rooms and sessions agree ([WorkerMux]), events
      parse back ([Signaling]).
    - Matrix: what is refused for a room that is not encrypted, that a sync
      loses and repeats nothing, that a wait for keys ends, what a client
      takes a worker with encrypted telemetry for ([MatrixDelivery]); when the
      client fails over and to which server, that events of several servers
      are delivered once ([MultiHs]); which rooms pass as a state room and
      which are discovered ([MatrixRooms]).
    - Persistence: a chain of keychains refines one map ([Keychain]), the
      default chain of the system's key store and a file holds one value for
      each sanitized name ([KeyStores]), a secret reaches the requester of an
      authorised scope and nobody else ([Secrets]), trust
      survives a restart ([Trust]), the state room was vetted. In a state room in
      the clear sessions are read back, and the lease is exclusive while
      renewed in time and not read by two before either writes; the worker
      creates its state room with encrypted state, of which its plain requests
      read back nothing, so that no session is recovered and the lease refuses
      nobody ([StateRoom]).
    - The fabric: each task is posted once, respawning is bounded, a check of
      the watchlist is exact, a failed task is lost ([Fabric]); the verdict of
      the claim race under every interleaving ([FabricClaim]); restarts post
      nothing again, and a worker goes on whatever fails ([FabricMain]).
    - The worker's start: the lease that it wrote last stays its own while its
      turns are in time, and how long when renewals fail, what a refused start
      leaves behind, what stops its loop, the identity of a device
      ([WorkerStart]); the rooms of a launcher encrypt when it is done
      ([Reencrypt]); a command is run as it was given and its exit code
      reaches the worker ([WorkerHost]).
    - Beside Matrix: a payload takes one path, device keys are vetted before
      they verify, a device signature is over another message than the one
      that is verified ([P2PIntegration]).
    - In the browser: an exported session restores the same session, waiting
      for an event gives one of the wanted type, a new one when it has an id,
      or ends after its timeout ([WasmClient]); times and strings survive the passage to
      JavaScript and back ([WasmApi]).
    - The client's commands: each request is answered once under its id, a
      task that is run is sent once and its session shown to the end, with
      the daemon and without ([ClientDaemon], [ClientCli], [ClientDirect]);
      lines on the socket are whole and in order, those of the standard output
      may mix ([Transports]); a daemon alone comes to serve within eight calls
      and ends within eleven, whatever files it finds, behind a directory that is closed to others, and two of one profile can leave
      one that nobody reaches ([DaemonRun]), which a command to stop does not
      stop ([ClientMain]);
      which accounts are used and when none is left ([Config]); only what was
      listed is deleted ([Cleanup]); a report always comes, without a login
      when the stored token is good, and what it costs to have it decrypted
      ([Diagnose]).
    - The fabric and the launcher: a process that ran is reported, up to the
      first line that cannot be read ([FabricProcess]); a task is posted once, its timeline is read in at
      most 500 requests, and what history lists is what status would say
      ([FabricCli]); what confirms a registration ([PolicyAppservice]);
      captured output is kept within its bound and replayed in order
      ([LauncherTerminal]); the execution of a command ends with all that it
      wrote unless reading fails, a start on several homeservers is all or
      nothing ([LauncherRun]).
    - The coordinator and the client: the router and the capability index
      agree whatever they are told, a session has one holder ([Coordinator]);
      ISO timestamps are read as the calendar counts its days, up to year
      9999, and the worker chosen for a command is alive and offers it
      ([Liveness]); options win over files, and the coordinator ends at once
      ([Programs]). The dashboard lists each launcher with its last report, a
      client of its stream misses nothing unless it is slow ([WebApp]).

    Some of these theorems state behaviour that the documentation of the code
    does not: the never-opening driver, the glare trap, the lost payload, the
    silent teardown, the refresh loop that expires with fresh credentials, the
    double claim, the lease that two workers hold, the stale read of a chained
    keychain, the worker that is refused and stays online, the passwords that
    are removed and then missed, the signature that never verifies, the backup
    that a diagnosis replaces. The lemmas [transcript_nul_ambiguous], [room_name_ambiguous],
    [cwd_prefix_no_boundary], [readd_leaves_stale_room], [zero_batch_panics],
    [session_key_ambiguous], [alias_ambiguous], [reserved_device_names] and
    [fraction_slice_panics] are smaller observations of the kind.

    ** Bounds

    Sequence numbers and attempt counters are kept at their width where an
    addition could leave it ([u8] attempts, the [u32] failure counter, [u64]
    heartbeat intervals, 16-bit terminal sizes); the [u64] sequence number of
    batches is not wrapped, as 2^64 sends do not happen. [SystemTime] and
    tokio instants overflow in [Turn] only, where a server chooses the
    lifetime that is added.

    ** Not modelled

    The accepting of connections, the port of the web application, the raw
    terminal, logging and the parsers of the options: they are I/O or
    generated by third-party crates. Zeroisation of memory has no functional
    content. The JavaScript packages are another language. *)
From stdpp Require Export base tactics list list_numbers option numbers gmap strings sorting pretty.
From Stdlib Require Import Strings.Byte.
From stdpp Require Import options.

(** ** Results

    Rust's [Result<T, E>], with the [?] operator as a bind. *)
Inductive result (T E : Type) : Type :=
| Ok (x : T)
| Err (e : E).
Arguments Ok {T E} x.
Arguments Err {T E} e.

Declare Scope mxdx_scope.
Delimit Scope mxdx_scope with mxdx.
Open Scope mxdx_scope.

Definition result_bind {T U E} (m : result T E) (k : T → result U E) : result U E :=
  match m with Ok x => k x | Err e => Err e end.

Definition result_map_err {T E F} (f : E → F) (m : result T E) : result T F :=
  match m with Ok x => Ok x | Err e => Err (f e) end.

Definition is_ok {T E} (m : result T E) : bool :=
  match m with Ok _ => true | Err _ => false end.

Notation "'let?' x := m 'in' k" := (result_bind m (fun x => k))
  (at level 10, x name, m at level 100, k at level 200) : mxdx_scope.

Lemma result_bind_ok {T U E} (m : result T E) (k : T → result U E) y :
  result_bind m k = Ok y ↔ ∃ x, m = Ok x ∧ k x = Ok y.
Proof. destruct m; naive_solver. Qed.

Lemma result_bind_assoc {T U V E} (m : result T E) (k : T → result U E) (h : U → result V E) :
  result_bind (result_bind m k) h = result_bind m (λ x, result_bind (k x) h).
Proof. by destruct m. Qed.

(** ** Time

    [std::time::Instant] / [Duration] / [SystemTime]: integers counting
    nanoseconds, so that [Duration / 2] truncates as in the code. *)
Abbreviation Instant := Z (only parsing).
Abbreviation Duration := Z (only parsing).

Definition from_millis (ms : Z) : Duration := (ms * 1000000)%Z.
Definition from_secs (s : Z) : Duration := (s * 1000000000)%Z.

(** A function of the code that calls [Instant::now()] more than once takes a
    [clock]: its [i]-th reading of the time. *)
Abbreviation clock := (nat → Z) (only parsing).
Definition monotone (now : clock) : Prop := ∀ i j : nat, i ≤ j → (now i ≤ now j)%Z.

(** ** Machine integers *)
Definition wrap (w z : Z) : Z := (z mod 2 ^ w)%Z.
Definition as_u8 (z : Z) : Z := wrap 8 z.
Definition as_u16 (z : Z) : Z := wrap 16 z.
Definition u64_max : Z := (2 ^ 64 - 1)%Z.
Definition is_uint (w z : Z) : Prop := (0 ≤ z < 2 ^ w)%Z.
Definition saturating_sub (a b : Z) : Z := Z.max 0 (a - b).

Lemma wrap_small w z : is_uint w z → wrap w z = z.
Proof. intros H. by apply Z.mod_small. Qed.

Lemma wrap_range w z : (0 ≤ w)%Z → is_uint w (wrap w z).
Proof. intros. unfold is_uint, wrap. apply Z.mod_pos_bound. by apply Z.pow_pos_nonneg. Qed.

Lemma saturating_sub_le a b : (0 ≤ b)%Z → (0 ≤ a)%Z → (0 ≤ saturating_sub a b ≤ a)%Z.
Proof. unfold saturating_sub. lia. Qed.

(** ** Strings

    A Rust [String]/[&str] is its UTF-8 byte sequence; [str::cmp] is the
    lexicographic order of the bytes, which is [String.compare]. *)
Definition str_eqb (a b : string) : bool := bool_decide (a = b).

Lemma str_eqb_true a b : str_eqb a b = true ↔ a = b.
Proof. apply bool_decide_eq_true. Qed.
Lemma str_eqb_refl a : str_eqb a a = true.
Proof. by apply str_eqb_true. Qed.
Lemma str_eqb_false a b : str_eqb a b = false ↔ a ≠ b.
Proof. apply bool_decide_eq_false. Qed.

Lemma str_compare_refl s : String.compare s s = Eq.
Proof. induction s as [|c s IH]; simpl; [done|]. unfold Ascii.compare. by rewrite N.compare_refl. Qed.

Lemma str_compare_eq a b : String.compare a b = Eq ↔ a = b.
Proof. split; [apply String.compare_eq_iff | intros ->; apply str_compare_refl]. Qed.

Lemma str_compare_opp a b : String.compare b a = CompOpp (String.compare a b).
Proof. apply String.compare_antisym. Qed.

Lemma str_le_compare a b : String.le a b ↔ String.compare a b ≠ Gt.
Proof.
  unfold String.le, String.leb. destruct (String.compare a b); naive_solver.
Qed.

(** [format!("{}", n)] for an integer, and the pieces of a [format!]. *)
Definition show (z : Z) : string := pretty z.
Definition cat (ss : list string) : string := foldr String.append "" ss.

(** ** Bytes

    [as_bytes] of a Rust string, and byte buffers. *)
Abbreviation byte := Corelib.Init.Byte.byte (only parsing).
Abbreviation Bytes := (list Corelib.Init.Byte.byte) (only parsing).
Definition as_bytes (s : string) : Bytes := String.list_byte_of_string s.
Definition from_bytes (b : Bytes) : string := String.string_of_list_byte b.
#[export] Instance byte_eq_dec : EqDecision Corelib.Init.Byte.byte := Byte.byte_eq_dec.

Lemma from_bytes_as_bytes s : from_bytes (as_bytes s) = s.
Proof. apply String.string_of_list_byte_of_string. Qed.
Lemma as_bytes_from_bytes b : as_bytes (from_bytes b) = b.
Proof. apply String.list_byte_of_string_of_list_byte. Qed.
#[export] Instance as_bytes_inj : Inj (=) (=) as_bytes.
Proof. intros a b H. by rewrite <-(from_bytes_as_bytes a), H, from_bytes_as_bytes. Qed.

Lemma as_bytes_append a b : as_bytes (String.append a b) = as_bytes a ++ as_bytes b.
Proof.
  unfold as_bytes, String.list_byte_of_string. rewrite <-map_app. f_equal.
  induction a as [|c a IH]; [done|].
  change (c :: String.list_ascii_of_string (String.append a b)
          = c :: String.list_ascii_of_string a ++ String.list_ascii_of_string b). by f_equal.
Qed.
Lemma cat_cons s ss : as_bytes (cat (s :: ss)) = as_bytes s ++ as_bytes (cat ss).
Proof. apply as_bytes_append. Qed.

(** ** Lists *)
Section lists.
Context {A : Type}.
Implicit Types l : list A.

Lemma list_filter_all (P : A → Prop) `{∀ x, Decision (P x)} l : Forall P l → filter P l = l.
Proof.
  induction 1; [done|]. by rewrite filter_cons_True; [f_equal|].
Qed.

Lemma list_filter_none (P : A → Prop) `{∀ x, Decision (P x)} l :
  Forall (λ x, ¬ P x) l → filter P l = [].
Proof. induction 1; [done|]. by rewrite filter_cons_False. Qed.

Lemma StronglySorted_filter (R : relation A) (P : A → Prop) `{∀ x, Decision (P x)} l :
  StronglySorted R l → StronglySorted R (filter P l).
Proof.
  induction 1 as [|x l Hs IH Hf]; [constructor|].
  destruct (decide (P x)).
  - rewrite filter_cons_True by done. constructor; [done|].
    apply Forall_forall. intros y [_ Hy]%list_elem_of_filter.
    by apply (proj1 (Forall_forall _ _) Hf).
  - by rewrite filter_cons_False.
Qed.

Lemma StronglySorted_snoc_Forall (R : relation A) l x :
  StronglySorted R (l ++ [x]) → StronglySorted R l ∧ Forall (λ y, R y x) l.
Proof.
  intros (H & Hl & _)%StronglySorted_app. split; [done|].
  apply Forall_forall. intros y Hy. apply H; set_solver.
Qed.
End lists.

(** ** Automation *)
Create HintDb mxdx.
Create Rewrite HintDb mxdx.
#[export] Hint Resolve str_eqb_refl str_compare_refl wrap_small : mxdx.
#[export] Hint Rewrite str_eqb_true str_eqb_false str_eqb_refl : mxdx.

(** Case analysis on every [match] of the goal, innermost scrutinee first. *)
Ltac break_match :=
  repeat match goal with
  | |- context [match ?x with _ => _ end] =>
      lazymatch x with
      | context [match _ with _ => _ end] => fail
      | _ => destruct x eqn:?
      end
  end.
(** The same in a hypothesis. *)
Ltac break_match_hyp H :=
  repeat match type of H with
  | context [match ?x with _ => _ end] =>
      lazymatch x with
      | context [match _ with _ => _ end] => fail
      | _ => destruct x eqn:?
      end
  end.
