(* ===== verification/Text.v ===== *)
(** * Text: the [str] operations of the standard library that the code uses

    On UTF-8 bytes. [char::is_whitespace] is the Unicode [White_Space]
    property; the byte sequences of those characters are listed, so that
    [trim] and [split] are exact on every valid string. *)
From S2P Require Import Prelude.

(** ** Whitespace: one-, two- and three-byte encodings *)
Definition ws1 (a : byte) : bool :=
  match a with
  | Byte.x09 | Byte.x0a | Byte.x0b | Byte.x0c | Byte.x0d | Byte.x20 => true
  | _ => false
  end.

Definition ws2 (a b : byte) : bool :=
  match a, b with
  | Byte.xc2, (Byte.x85 | Byte.xa0) => true
  | _, _ => false
  end.

Definition ws3 (a b c : byte) : bool :=
  match a, b, c with
  | Byte.xe1, Byte.x9a, Byte.x80 => true
  | Byte.xe2, Byte.x80,
      (Byte.x80 | Byte.x81 | Byte.x82 | Byte.x83 | Byte.x84 | Byte.x85 | Byte.x86
      | Byte.x87 | Byte.x88 | Byte.x89 | Byte.x8a | Byte.xa8 | Byte.xa9 | Byte.xaf) => true
  | Byte.xe2, Byte.x81, Byte.x9f => true
  | Byte.xe3, Byte.x80, Byte.x80 => true
  | _, _, _ => false
  end.

(** Drop leading whitespace characters, given the three recognisers. *)
Fixpoint trim_by (w1 : byte → bool) (w2 : byte → byte → bool) (w3 : byte → byte → byte → bool)
    (l : Bytes) : Bytes :=
  match l with
  | a :: l1 =>
      if w1 a then trim_by w1 w2 w3 l1
      else
        match l1 with
        | b :: l2 =>
            if w2 a b then trim_by w1 w2 w3 l2
            else
              match l2 with
              | c :: l3 => if w3 a b c then trim_by w1 w2 w3 l3 else l
              | [] => l
              end
        | [] => l
        end
  | [] => []
  end.

Definition trim_start (l : Bytes) : Bytes := trim_by ws1 ws2 ws3 l.
Definition trim_end (l : Bytes) : Bytes :=
  reverse (trim_by ws1 (λ a b, ws2 b a) (λ a b c, ws3 c b a) (reverse l)).
Definition trim (l : Bytes) : Bytes := trim_end (trim_start l).

(** [splitn(2, char::is_whitespace)]: the text before the first whitespace
    character and, if there is one, the text after it. *)
Fixpoint split_ws (l : Bytes) : Bytes * option Bytes :=
  match l with
  | [] => ([], None)
  | a :: l1 =>
      if ws1 a then ([], Some l1)
      else
        match l1 with
        | b :: l2 =>
            if ws2 a b then ([], Some l2)
            else
              match l2 with
              | c :: l3 =>
                  if ws3 a b c then ([], Some l3)
                  else let '(x, r) := split_ws l1 in (a :: x, r)
              | [] => let '(x, r) := split_ws l1 in (a :: x, r)
              end
        | [] => ([a], None)
        end
  end.

(** [str::lines]. *)
Definition strip_cr (l : Bytes) : Bytes :=
  match reverse l with
  | Byte.x0d :: r => reverse r
  | _ => l
  end.

Fixpoint lines_from (cur l : Bytes) : list Bytes :=
  match l with
  | [] => match cur with [] => [] | _ => [cur] end
  | Byte.x0a :: l => strip_cr cur :: lines_from [] l
  | b :: l => lines_from (cur ++ [b]) l
  end.
Definition lines (l : Bytes) : list Bytes := lines_from [] l.

Fixpoint strip_prefix (p l : Bytes) : option Bytes :=
  match p, l with
  | [], _ => Some l
  | a :: p, b :: l => if bool_decide (a = b) then strip_prefix p l else None
  | _ :: _, [] => None
  end.

(** ASCII case. *)
Definition byte_range (lo hi : N) (b : byte) : bool :=
  (lo <=? Byte.to_N b)%N && (Byte.to_N b <=? hi)%N.
Definition byte_add (b : byte) (d : Z) : byte :=
  default b (Byte.of_N (Z.to_N (Z.of_N (Byte.to_N b) + d))).
Definition to_ascii_uppercase (l : Bytes) : Bytes :=
  (λ b, if byte_range 97 122 b then byte_add b (-32) else b) <$> l.
Definition to_ascii_lowercase (l : Bytes) : Bytes :=
  (λ b, if byte_range 65 90 b then byte_add b 32 else b) <$> l.
Definition eq_ignore_ascii_case (a b : Bytes) : bool :=
  bool_decide (to_ascii_lowercase a = to_ascii_lowercase b).

(** [split(sep)] on a single byte: one more part than separators. *)
Fixpoint split_byte (sep : byte) (l : Bytes) : list Bytes :=
  match l with
  | [] => [[]]
  | b :: l =>
      if bool_decide (b = sep) then [] :: split_byte sep l
      else
        match split_byte sep l with
        | x :: xs => (b :: x) :: xs
        | [] => [[b]]
        end
  end.

(** [join(sep)]. *)
Fixpoint join (sep : Bytes) (ls : list Bytes) : Bytes :=
  match ls with
  | [] => []
  | [x] => x
  | x :: xs => x ++ sep ++ join sep xs
  end.

(** [starts_with], [contains] on a substring, [trim_end_matches] on a byte. *)
Definition starts_with (p l : Bytes) : bool :=
  match strip_prefix p l with Some _ => true | None => false end.
Fixpoint contains (p l : Bytes) : bool :=
  starts_with p l || match l with [] => false | _ :: l => contains p l end.
Fixpoint drop_while_byte (b : byte) (l : Bytes) : Bytes :=
  match l with
  | [] => []
  | a :: l' => if bool_decide (a = b) then drop_while_byte b l' else l
  end.
Definition trim_end_matches (b : byte) (l : Bytes) : Bytes :=
  reverse (drop_while_byte b (reverse l)).

(** A UTF-8 continuation byte. *)
Definition is_continuation (b : byte) : bool := byte_range 128 191 b.

(** [String::from_utf8] accepts these bytes. *)
Fixpoint valid_utf8 (l : Bytes) : bool :=
  match l with
  | [] => true
  | a :: l1 =>
      if byte_range 0 127 a then valid_utf8 l1 else
      match l1 with
      | [] => false
      | b :: l2 =>
          if byte_range 194 223 a then is_continuation b && valid_utf8 l2 else
          match l2 with
          | [] => false
          | c :: l3 =>
              if byte_range 224 239 a then
                (if bool_decide (a = Byte.xe0) then byte_range 160 191 b
                 else if bool_decide (a = Byte.xed) then byte_range 128 159 b
                 else is_continuation b)
                && is_continuation c && valid_utf8 l3
              else
              match l3 with
              | [] => false
              | d :: l4 =>
                  byte_range 240 244 a
                  && (if bool_decide (a = Byte.xf0) then byte_range 144 191 b
                      else if bool_decide (a = Byte.xf4) then byte_range 128 143 b
                      else is_continuation b)
                  && is_continuation c && is_continuation d && valid_utf8 l4
              end
          end
      end
  end.
Definition from_utf8 (l : Bytes) : option string := if valid_utf8 l then Some (from_bytes l) else None.

(** The second byte of a sequence of three or four that starts with [a]. *)
Definition second_of_three (a b : byte) : bool :=
  if bool_decide (a = Byte.xe0) then byte_range 160 191 b
  else if bool_decide (a = Byte.xed) then byte_range 128 159 b
  else is_continuation b.
Definition second_of_four (a b : byte) : bool :=
  if bool_decide (a = Byte.xf0) then byte_range 144 191 b
  else if bool_decide (a = Byte.xf4) then byte_range 128 143 b
  else is_continuation b.

(** [String::from_utf8_lossy]: U+FFFD for each longest beginning of a
    character that does not go on. *)
Definition REPLACEMENT : Bytes := [Byte.xef; Byte.xbf; Byte.xbd].
Fixpoint utf8_lossy (l : Bytes) : Bytes :=
  match l with
  | [] => []
  | a :: l1 =>
      if byte_range 0 127 a then a :: utf8_lossy l1
      else if byte_range 194 223 a then
        match l1 with
        | b :: l2 => if is_continuation b then a :: b :: utf8_lossy l2 else REPLACEMENT ++ utf8_lossy l1
        | [] => REPLACEMENT
        end
      else if byte_range 224 239 a then
        match l1 with
        | b :: l2 =>
            if second_of_three a b then
              match l2 with
              | c :: l3 => if is_continuation c then a :: b :: c :: utf8_lossy l3 else REPLACEMENT ++ utf8_lossy l2
              | [] => REPLACEMENT
              end
            else REPLACEMENT ++ utf8_lossy l1
        | [] => REPLACEMENT
        end
      else if byte_range 240 244 a then
        match l1 with
        | b :: l2 =>
            if second_of_four a b then
              match l2 with
              | c :: l3 =>
                  if is_continuation c then
                    match l3 with
                    | d :: l4 =>
                        if is_continuation d then a :: b :: c :: d :: utf8_lossy l4
                        else REPLACEMENT ++ utf8_lossy l3
                    | [] => REPLACEMENT
                    end
                  else REPLACEMENT ++ utf8_lossy l2
              | [] => REPLACEMENT
              end
            else REPLACEMENT ++ utf8_lossy l1
        | [] => REPLACEMENT
        end
      else REPLACEMENT ++ utf8_lossy l1
  end.
Definition from_utf8_lossy (l : Bytes) : string := from_bytes (utf8_lossy l).

(** [chars().take(n)]. *)
Fixpoint take_chars (n : nat) (l : Bytes) : Bytes :=
  match l with
  | [] => []
  | b :: l =>
      if is_continuation b then b :: take_chars n l
      else match n with O => [] | S n => b :: take_chars n l end
  end.

(** The components of a path: what is between its slashes, empty parts left out. *)
Definition SLASH : byte := Byte.x2f.
Definition path_components (l : Bytes) : list Bytes := filter (λ x, x ≠ []) (split_byte SLASH l).

(** [Path::file_name], as a string: the last component, [.] left out, unless
    it is [..]. *)
Definition file_name (path : string) : option string :=
  c ← last (filter (λ c, c ≠ as_bytes ".") (path_components (as_bytes path)));
  if bool_decide (c = as_bytes "..") then None else Some (from_bytes c).

(** [PathBuf::join] with a relative path. *)
Definition path_join (base p : string) : string :=
  match last (as_bytes base) with
  | Some b => if bool_decide (b = Byte.x2f) then cat [base; p] else cat [base; "/"; p]
  | None => p
  end.

(** ** Lemmas *)
Lemma split_byte_not_nil sep l : split_byte sep l ≠ [].
Proof. destruct l; simpl; repeat case_match; done. Qed.

Lemma split_byte_no_sep sep l x : x ∈ split_byte sep l → sep ∉ x.
Proof.
  revert x. induction l as [|b l IH]; intros x; simpl.
  - intros ->%list_elem_of_singleton. apply not_elem_of_nil.
  - case_bool_decide; [rewrite elem_of_cons; intros [->|H']; [apply not_elem_of_nil|by apply IH]|].
    destruct (split_byte sep l) as [|y ys] eqn:E; [by apply split_byte_not_nil in E|].
    rewrite elem_of_cons. intros [->|H'].
    + apply not_elem_of_cons. split; [done|]. apply IH. set_solver.
    + apply IH. set_solver.
Qed.

Lemma join_split_byte sep l : join [sep] (split_byte sep l) = l.
Proof.
  induction l as [|b l IH]; [done|]. simpl.
  pose proof (split_byte_not_nil sep l) as Hn.
  case_bool_decide as Hb; [subst|].
  - destruct (split_byte sep l) eqn:E; [done|]. simpl in *. by rewrite IH.
  - destruct (split_byte sep l) as [|y ys] eqn:E; [done|].
    destruct ys; simpl in *; by rewrite <-IH.
Qed.

Lemma split_byte_nosep sep x : sep ∉ x → split_byte sep x = [x].
Proof.
  induction x as [|a x IH]; [done|]. intros [H1 H2]%not_elem_of_cons. simpl.
  rewrite bool_decide_eq_false_2 by done. by rewrite IH.
Qed.

Lemma split_byte_app sep x l : sep ∉ x → split_byte sep (x ++ sep :: l) = x :: split_byte sep l.
Proof.
  induction x as [|a x IH]; simpl.
  - by rewrite bool_decide_eq_true_2.
  - intros [H1 H2]%not_elem_of_cons. rewrite bool_decide_eq_false_2 by done. by rewrite IH.
Qed.

Lemma split_byte_join sep ls :
  ls ≠ [] → Forall (λ x, sep ∉ x) ls → split_byte sep (join [sep] ls) = ls.
Proof.
  induction ls as [|x ls IH]; [done|]. intros _ Hf. inversion_clear Hf.
  destruct ls as [|y ls]; [by apply split_byte_nosep|].
  change (join [sep] (x :: y :: ls)) with (x ++ sep :: join [sep] (y :: ls)).
  rewrite split_byte_app by done. by rewrite IH.
Qed.

(** A separator that occurs in neither prefix cuts both sides alike... *)
Lemma sep_inj_front (s : byte) a a' x x' :
  s ∉ a → s ∉ a' → a ++ s :: x = a' ++ s :: x' → a = a' ∧ x = x'.
Proof.
  revert a'. induction a as [|c a IH]; intros [|c' a'] H H' E; simplify_eq/=; try done.
  - set_solver.
  - set_solver.
  - destruct (IH a') as [-> ->]; [set_solver|set_solver|done|done].
Qed.

(** ... and so does the last separator of both. *)
Lemma sep_inj_back (s : byte) x x' b b' :
  s ∉ b → s ∉ b' → x ++ s :: b = x' ++ s :: b' → x = x' ∧ b = b'.
Proof.
  intros H H' E. apply (f_equal reverse) in E.
  rewrite !reverse_app, !reverse_cons, <-!app_assoc in E. simpl in E.
  destruct (sep_inj_front s (reverse b) (reverse b') (reverse x) (reverse x')) as [H1 H2];
    [by rewrite elem_of_reverse|by rewrite elem_of_reverse|done|].
  by apply (inj reverse) in H1, H2.
Qed.

Lemma strip_prefix_Some p l r : strip_prefix p l = Some r ↔ l = p ++ r.
Proof.
  revert l. induction p as [|a p IH]; intros l; simpl; [naive_solver|].
  destruct l as [|b l]; [done|]. case_bool_decide; [|naive_solver].
  rewrite IH. naive_solver.
Qed.

Lemma starts_with_true p l : starts_with p l = true ↔ ∃ r, l = p ++ r.
Proof.
  unfold starts_with. destruct (strip_prefix p l) as [r|] eqn:E.
  - apply strip_prefix_Some in E. naive_solver.
  - split; [done|]. intros [r Hr%strip_prefix_Some]. by rewrite Hr in E.
Qed.

Lemma contains_false p l : contains p l = false → ∀ x y, l ≠ x ++ p ++ y.
Proof.
  intros Hc x. revert l Hc. induction x as [|a x IH]; intros l Hc y ->; simpl in Hc.
  - assert (starts_with p (p ++ y) = true) as Hs by (apply starts_with_true; eauto).
    destruct (p ++ y) eqn:E; simpl in Hc; by rewrite Hs in Hc.
  - apply orb_false_iff in Hc as [_ Hc]. by apply (IH _ Hc y).
Qed.

Lemma split_byte_app_gen sep x l :
  split_byte sep (x ++ sep :: l) = split_byte sep x ++ split_byte sep l.
Proof.
  induction x as [|a x IH]; simpl; [by rewrite bool_decide_eq_true_2|].
  case_bool_decide; [by rewrite IH|]. rewrite IH.
  destruct (split_byte sep x) eqn:E; [by apply split_byte_not_nil in E|done].
Qed.

Lemma path_components_app x l :
  path_components (x ++ SLASH :: l) = path_components x ++ path_components l.
Proof. unfold path_components. by rewrite split_byte_app_gen, filter_app. Qed.

Lemma trim_end_matches_snoc b l : trim_end_matches b (l ++ [b]) = trim_end_matches b l.
Proof.
  unfold trim_end_matches. rewrite reverse_snoc. simpl. by rewrite bool_decide_eq_true_2.
Qed.

Lemma trim_end_matches_other b a l : a ≠ b → trim_end_matches b (l ++ [a]) = l ++ [a].
Proof.
  intros Ha. unfold trim_end_matches. rewrite reverse_snoc. simpl.
  rewrite bool_decide_eq_false_2 by done. by rewrite <-reverse_snoc, reverse_involutive.
Qed.

Lemma path_components_trim l : path_components (trim_end_matches SLASH l) = path_components l.
Proof.
  induction l as [|a l IH] using rev_ind; [done|].
  destruct (decide (a = SLASH)) as [->|Ha].
  - rewrite trim_end_matches_snoc, IH. rewrite path_components_app. by rewrite app_nil_r.
  - by rewrite trim_end_matches_other.
Qed.

(** Text comes through [from_utf8_lossy] as it is. *)
Lemma utf8_lossy_valid l : valid_utf8 l = true → utf8_lossy l = l.
Proof.
  induction l as [l IH] using (induction_ltof1 _ (@length _)); unfold ltof in IH.
  destruct l as [|a l1]; [done|]. cbn [valid_utf8 utf8_lossy].
  destruct (byte_range 0 127 a); [intros Hv; f_equal; apply IH; [simpl; lia|done]|].
  destruct l1 as [|b l2]; [done|]. destruct (byte_range 194 223 a).
  { intros [-> Hv]%andb_true_iff. do 2 f_equal. apply IH; [simpl; lia|done]. }
  destruct l2 as [|c l3]; [done|]. unfold second_of_three, second_of_four.
  destruct (byte_range 224 239 a).
  { intros [[-> ->]%andb_true_iff Hv]%andb_true_iff. do 3 f_equal. apply IH; [simpl; lia|done]. }
  destruct l3 as [|d l4]; [done|]. destruct (byte_range 240 244 a); [|done]. rewrite andb_true_l.
  intros [[[-> ->]%andb_true_iff ->]%andb_true_iff Hv]%andb_true_iff. do 4 f_equal. apply IH; [simpl; lia|done].
Qed.

(** Text without whitespace at its ends. *)
Definition is_graphic (b : byte) : bool := byte_range 33 126 b.
Lemma ws_graphic b c d : is_graphic b = true →
  ws1 b = false ∧ ws2 b c = false ∧ ws3 b c d = false ∧ ws2 c b = false ∧ ws3 d c b = false.
Proof.
  intros Hb. assert (Hlast : ∀ x y z, (ws2 x y = true → is_graphic y = false) ∧ (ws3 x y z = true → is_graphic z = false)).
  { intros x y z. split; destruct x; try discriminate; destruct y; try discriminate; try reflexivity; destruct z; try discriminate; reflexivity. }
  split; [destruct b; done|]. split; [destruct b; done|]. split; [destruct b; done|].
  split; apply not_true_is_false; intros Hw; [apply (proj1 (Hlast c b b)) in Hw|apply (proj2 (Hlast d c b)) in Hw]; congruence.
Qed.
Lemma trim_by_head w1 w2 w3 a l :
  w1 a = false → (∀ c d, w2 a c = false ∧ w3 a c d = false) → trim_by w1 w2 w3 (a :: l) = a :: l.
Proof.
  intros Ha Hc. simpl. rewrite Ha. destruct l as [|c [|d l]]; [done|..]; [by rewrite (proj1 (Hc c c))|].
  by rewrite (proj1 (Hc c d)), (proj2 (Hc c d)).
Qed.
Lemma trim_graphic l : (∀ b, b ∈ l → is_graphic b = true) → trim l = l.
Proof.
  intros Hl. assert (Hs : trim_start l = l).
  { destruct l as [|a l]; [done|]. pose proof (Hl a (list_elem_of_here _ _)) as Ha.
    apply trim_by_head; [apply (ws_graphic a a a Ha)|intros c d]. destruct (ws_graphic a c d Ha) as (_ & ? & ? & _). done. }
  unfold trim. rewrite Hs. unfold trim_end. rewrite <-(reverse_involutive l) at 2. f_equal.
  destruct (reverse l) as [|a r] eqn:Er; [done|].
  assert (Ha : is_graphic a = true) by (apply Hl, elem_of_reverse; rewrite Er; apply list_elem_of_here).
  apply trim_by_head; [apply (ws_graphic a a a Ha)|intros c d]. destruct (ws_graphic a c d Ha) as (_ & _ & _ & ? & ?). done.
Qed.

#[export] Instance path_join_inj base : Inj (=) (=) (path_join base).
Proof.
  intros p q Hp. unfold path_join in Hp. destruct (last (as_bytes base)); [|done].
  apply (f_equal as_bytes) in Hp. apply (inj as_bytes).
  case_bool_decide; rewrite ?cat_cons, ?app_nil_r in Hp; repeat apply (inj (app _)) in Hp; exact Hp.
Qed.
