(* ===== verification/Instants.v ===== *)
(** * Instants: numbers and dates in text

    The parts of [str] that the crates' ISO 8601 parsers and printers use, and
    the reference calendar against which they are proved. *)
From S2P Require Import Prelude Text.

(** ** Numbers in text *)
Definition is_ascii_digit (b : byte) : bool := byte_range 48 57 b.
Definition digits_value (l : Bytes) : Z :=
  foldl (λ acc b, 10 * acc + (Z.of_N (Byte.to_N b) - 48))%Z 0%Z l.

Definition PLUS : byte := Byte.x2b.
Definition MINUS : byte := Byte.x2d.

(** An unsigned number of ASCII digits up to [max]. *)
Definition parse_digits (max : Z) (l : Bytes) : option Z :=
  if bool_decide (l = []) || negb (forallb is_ascii_digit l) then None
  else if decide (digits_value l ≤ max)%Z then Some (digits_value l) else None.

(** [str::parse::<u64>] and [str::parse::<i64>]: one leading sign, [-] only
    on signed types. *)
Definition parse_u64 (l : Bytes) : option Z :=
  match l with
  | b :: l' => if bool_decide (b = PLUS) then parse_digits u64_max l' else parse_digits u64_max l
  | [] => None
  end.
Definition parse_i64 (l : Bytes) : option Z :=
  match l with
  | b :: l' =>
      if bool_decide (b = PLUS) then parse_digits (2 ^ 63 - 1) l'
      else if bool_decide (b = MINUS) then Z.opp <$> parse_digits (2 ^ 63) l'
      else parse_digits (2 ^ 63 - 1) l
  | [] => None
  end.

(** [split_once] on a byte; [splitn(3, _)] as its three parts, if there are. *)
Fixpoint split_once (sep : byte) (l : Bytes) : option (Bytes * Bytes) :=
  match l with
  | [] => None
  | b :: l' =>
      if bool_decide (b = sep) then Some ([], l')
      else '(x, y) ← split_once sep l'; Some (b :: x, y)
  end.
Definition splitn3 (sep : byte) (l : Bytes) : option (Bytes * Bytes * Bytes) :=
  '(a, l) ← split_once sep l; '(b, c) ← split_once sep l; Some (a, b, c).

(** The separators of an ISO 8601 text. *)
Definition CHAR_T : byte := Byte.x54.
Definition CHAR_COLON : byte := Byte.x3a.
Definition CHAR_DOT : byte := Byte.x2e.
Definition ZERO : byte := Byte.x30.
Definition CHAR_Z : byte := Byte.x5a.

(** ** Numbers of a fixed width *)
Definition digit (d : Z) : byte := default ZERO (Byte.of_N (Z.to_N (48 + d))).
Fixpoint print_digits (k : nat) (n : Z) : Bytes :=
  match k with
  | O => []
  | S k => print_digits k (n / 10) ++ [digit (n mod 10)]
  end.

(** ** The reference calendar

    The proleptic Gregorian calendar, day by day from the epoch. *)
Definition is_leap (y : Z) : bool :=
  bool_decide (y mod 4 = 0 ∧ (y mod 100 ≠ 0 ∨ y mod 400 = 0))%Z.
Definition days_in_month (y m : Z) : Z :=
  if decide (m = 2)%Z then (if is_leap y then 29 else 28)%Z
  else if decide (m = 4 ∨ m = 6 ∨ m = 9 ∨ m = 11)%Z then 30%Z else 31%Z.
Definition next_day (date : Z * Z * Z) : Z * Z * Z :=
  let '(y, m, d) := date in
  if decide (d < days_in_month y m)%Z then (y, m, d + 1)%Z
  else if decide (m < 12)%Z then (y, m + 1, 1)%Z else (y + 1, 1, 1)%Z.
(** The [n]-th day after 1970-01-01. *)
Definition civil (n : nat) : Z * Z * Z := Nat.iter n next_day (1970, 1, 1)%Z.

Definition valid_date (date : Z * Z * Z) : Prop :=
  let '(y, m, d) := date in (1970 ≤ y ∧ 1 ≤ m ≤ 12 ∧ 1 ≤ d ≤ days_in_month y m)%Z.

(** ** Lemmas *)
Lemma days_in_month_bound y m : (28 ≤ days_in_month y m ≤ 31)%Z.
Proof. unfold days_in_month. destruct (is_leap y); repeat case_decide; lia. Qed.

Lemma next_day_valid date : valid_date date → valid_date (next_day date).
Proof.
  destruct date as [[y m] d]. simpl. intros (Hy & Hm & Hd).
  pose proof (days_in_month_bound y (m + 1)). pose proof (days_in_month_bound (y + 1) 1).
  repeat case_decide; simpl; lia.
Qed.

Lemma civil_valid n : valid_date (civil n).
Proof.
  induction n as [|n IH]; [by vm_compute; repeat split|].
  by apply next_day_valid.
Qed.

Lemma next_day_year y m d y' m' d' : next_day (y, m, d) = (y', m', d') → (y ≤ y')%Z.
Proof. unfold next_day. repeat case_decide; intros; simplify_eq; lia. Qed.

Lemma digit_spec d :
  (0 ≤ d < 10)%Z → is_ascii_digit (digit d) = true ∧ Z.of_N (Byte.to_N (digit d)) = (48 + d)%Z.
Proof.
  intros Hd. assert (d = 0 ∨ d = 1 ∨ d = 2 ∨ d = 3 ∨ d = 4 ∨ d = 5 ∨ d = 6 ∨ d = 7 ∨ d = 8 ∨ d = 9)%Z
    as Hc by lia. by repeat destruct Hc as [->|Hc]; [..|subst d].
Qed.

Lemma print_digits_all k n : Forall (λ b, is_ascii_digit b = true) (print_digits k n).
Proof.
  revert n. induction k as [|k IH]; intros n; [constructor|]. simpl. apply Forall_app.
  split; [done|]. constructor; [|constructor]. apply digit_spec, Z.mod_pos_bound. lia.
Qed.

Lemma print_digits_length k n : length (print_digits k n) = k.
Proof.
  revert n. induction k as [|k IH]; intros n; [done|]. simpl. rewrite length_app, IH. simpl. lia.
Qed.

Lemma print_digits_value k n :
  (0 ≤ n < 10 ^ Z.of_nat k)%Z → digits_value (print_digits k n) = n.
Proof.
  revert n. induction k as [|k IH]; intros n Hn; [simpl in *; unfold digits_value; simpl; lia|].
  rewrite Nat2Z.inj_succ, Z.pow_succ_r in Hn by lia.
  cbn [print_digits]. unfold digits_value in *. rewrite foldl_app. simpl.
  pose proof (Z.mod_pos_bound n 10 ltac:(lia)) as Hm.
  rewrite IH by (split; [apply Z.div_pos; lia|apply Z.div_lt_upper_bound; lia]).
  destruct (digit_spec (n mod 10) Hm) as [_ ->]. pose proof (Z.div_mod n 10). lia.
Qed.

Lemma parse_print k n max :
  k ≠ 0 → (0 ≤ n < 10 ^ Z.of_nat k)%Z → (n ≤ max)%Z →
  parse_digits max (print_digits k n) = Some n.
Proof.
  intros Hk Hn Hm. unfold parse_digits.
  assert (Hne : print_digits k n ≠ []).
  { intros E. apply (f_equal length) in E. rewrite print_digits_length in E. done. }
  rewrite bool_decide_eq_false_2 by done.
  assert (forallb is_ascii_digit (print_digits k n) = true) as ->.
  { apply forallb_forall. intros b Hb%list_elem_of_In.
    exact (proj1 (Forall_forall _ _) (print_digits_all k n) b Hb). }
  simpl. rewrite print_digits_value by done. by rewrite decide_True.
Qed.

Lemma not_digit b : is_ascii_digit b = false → ∀ k n, b ∉ print_digits k n.
Proof.
  intros Hb k n Hin. pose proof (proj1 (Forall_forall _ _) (print_digits_all k n) b Hin) as Ht.
  simpl in Ht. congruence.
Qed.

Lemma parse_u64_print k n :
  k ≠ 0 → (0 ≤ n < 10 ^ Z.of_nat k)%Z → (n ≤ u64_max)%Z → parse_u64 (print_digits k n) = Some n.
Proof.
  intros Hk Hn Hm. pose proof (parse_print k n u64_max Hk Hn Hm) as Hp.
  pose proof (not_digit PLUS eq_refl k n) as Hplus. unfold parse_u64.
  destruct (print_digits k n) as [|b l]; [done|].
  rewrite bool_decide_eq_false_2; [done|]. intros ->. set_solver.
Qed.

Lemma parse_i64_print k n :
  k ≠ 0 → (0 ≤ n < 10 ^ Z.of_nat k)%Z → (n < 2 ^ 63)%Z → parse_i64 (print_digits k n) = Some n.
Proof.
  intros Hk Hn Hm. pose proof (parse_print k n (2 ^ 63 - 1) Hk Hn ltac:(lia)) as Hp.
  pose proof (not_digit PLUS eq_refl k n) as Hplus.
  pose proof (not_digit MINUS eq_refl k n) as Hminus. unfold parse_i64.
  destruct (print_digits k n) as [|b l]; [done|].
  rewrite !bool_decide_eq_false_2; [done| |]; intros ->; set_solver.
Qed.

Lemma split_once_app sep x y : sep ∉ x → split_once sep (x ++ sep :: y) = Some (x, y).
Proof.
  induction x as [|b x IH]; intros Hs; simpl; [by rewrite bool_decide_eq_true_2|].
  rewrite bool_decide_eq_false_2 by set_solver. by rewrite IH by set_solver.
Qed.

Lemma splitn3_app sep x y z :
  sep ∉ x → sep ∉ y → splitn3 sep (x ++ sep :: y ++ sep :: z) = Some (x, y, z).
Proof.
  intros Hx Hy. unfold splitn3. rewrite split_once_app by done. simpl.
  by rewrite split_once_app.
Qed.

Lemma split_once_none sep x : sep ∉ x → split_once sep x = None.
Proof.
  induction x as [|b x IH]; intros Hs; simpl; [done|].
  rewrite bool_decide_eq_false_2 by set_solver. by rewrite IH by set_solver.
Qed.

(** ** Numbers that are printed as they are *)
Lemma digits_value_snoc l b : digits_value (l ++ [b]) = (10 * digits_value l + (Z.of_N (Byte.to_N b) - 48))%Z.
Proof. unfold digits_value. by rewrite foldl_app. Qed.

Lemma pretty_N_char_digit m : (m < 10)%N →
  is_ascii_digit (Ascii.byte_of_ascii (pretty_N_char m)) = true ∧
  Byte.to_N (Ascii.byte_of_ascii (pretty_N_char m)) = (m + 48)%N.
Proof.
  intros Hm. assert (Hc : m ∈ [0; 1; 2; 3; 4; 5; 6; 7; 8; 9]%N) by (repeat (rewrite elem_of_cons); lia).
  repeat (apply elem_of_cons in Hc as [->|Hc]; [by split|]). by apply elem_of_nil in Hc.
Qed.

Lemma pretty_N_go_digits n : ∀ s, ∃ l, as_bytes (pretty_N_go n s) = l ++ as_bytes s ∧ forallb is_ascii_digit l = true ∧
  digits_value l = Z.of_N n ∧ ((0 < n)%N → l ≠ []).
Proof.
  induction (N.lt_wf_0 n) as [n _ IH]. intros s. destruct (decide (n = 0)%N) as [->|Hn].
  { exists []. rewrite pretty_N_go_0. by split_and!. }
  rewrite pretty_N_go_step by lia. assert (Hm : (n `mod` 10 < 10)%N) by (apply N.mod_lt; lia).
  destruct (pretty_N_char_digit _ Hm) as [Hd Hv].
  destruct (IH (n `div` 10)%N ltac:(apply N.div_lt; lia) (String (pretty_N_char (n `mod` 10)) s)) as (l & Hl & Hall & Hval & _).
  exists (l ++ [Ascii.byte_of_ascii (pretty_N_char (n `mod` 10))]). rewrite Hl. split; [by rewrite <-app_assoc|].
  split; [rewrite forallb_app, Hall; simpl; by rewrite Hd|]. split; [|by destruct l].
  rewrite digits_value_snoc, Hval, Hv. pose proof (N.div_mod n 10 ltac:(lia)). lia.
Qed.

Lemma pretty_N_digits n : forallb is_ascii_digit (as_bytes (pretty n)) = true ∧ digits_value (as_bytes (pretty n)) = Z.of_N n ∧
  as_bytes (pretty n) ≠ [].
Proof.
  unfold pretty, pretty_N. case_decide as Hn; [by subst|]. destruct (pretty_N_go_digits n "") as (l & -> & Hall & Hval & Hne).
  rewrite app_nil_r. split_and!; [done..|]. apply Hne. lia.
Qed.

(** A number reads back as it was printed. *)
Lemma parse_i64_show z : (- 2 ^ 63 ≤ z < 2 ^ 63)%Z → parse_i64 (as_bytes (show z)) = Some z.
Proof.
  intros Hz. assert (Hp : ∀ n max, (Z.of_N n ≤ max)%Z → parse_digits max (as_bytes (pretty n)) = Some (Z.of_N n)).
  { intros n max Hm. destruct (pretty_N_digits n) as (Hall & Hval & Hne). unfold parse_digits.
    rewrite bool_decide_eq_false_2 by done. rewrite Hall, Hval. simpl. by rewrite decide_True. }
  destruct z as [|p|p]; [reflexivity| |].
  - change (show (Z.pos p)) with (pretty (N.pos p)). unfold parse_i64. specialize (Hp (N.pos p) (2 ^ 63 - 1)%Z ltac:(lia)). destruct (pretty_N_digits (N.pos p)) as (Hall & _ & Hne).
    destruct (as_bytes (pretty (N.pos p))) as [|b l]; [done|]. simpl in Hall. apply andb_true_iff in Hall as [Hb _].
    rewrite !bool_decide_eq_false_2; [exact Hp|intros ->; discriminate..].
  - change (show (Z.neg p)) with (String.append "-" (pretty (N.pos p))).
    rewrite as_bytes_append. change (as_bytes "-") with [MINUS]. simpl. rewrite (Hp (N.pos p)) by lia. done.
Qed.
Lemma show_printable z b : b ∈ as_bytes (show z) → is_ascii_digit b = true ∨ b = MINUS.
Proof.
  destruct z as [|p|p]; [by intros ->%list_elem_of_singleton; left| |].
  - change (show (Z.pos p)) with (pretty (N.pos p)). intros Hb. left. destruct (pretty_N_digits (N.pos p)) as (Hall & _ & _). rewrite forallb_forall in Hall. by apply Hall, list_elem_of_In.
  - change (show (Z.neg p)) with (String.append "-" (pretty (N.pos p))).
    rewrite as_bytes_append. intros [Hb|Hb]%elem_of_app; [right; by apply list_elem_of_singleton in Hb|]. left.
    destruct (pretty_N_digits (N.pos p)) as (Hall & _ & _). rewrite forallb_forall in Hall. by apply Hall, list_elem_of_In.
Qed.
