(* ===== verification/Json.v ===== *)
(** * Json: the interface of [serde_json::Value] that the components share

    What the code asks of parsed JSON. The crate is third-party: each class
    is a parameter of the definitions that use it, and the components' toy
    instances show that it can be met. *)
From S2P Require Import Prelude.

(** [from_str], [Value::get], [as_str] and [Value::Null]. *)
Class JsonValue (V : Type) := {
  from_str : string → result V string;
  get : V → string → option V;
  as_str : V → option string;
  json_null : V;
}.

(** [Value::as_u64]. *)
Class JsonU64 (V : Type) := as_u64 : V → option Z.

(** [Value::as_array]; [is_null], or [as_object] absent or empty. *)
Class JsonContainers (V : Type) := {
  as_array : V → option (list V);
  null_or_empty : V → bool;
}.

Section fields.
Context {V : Type} `{JV : JsonValue V}.

(** [get(k).and_then(as_str)] and [get(k).and_then(as_u64)]. *)
Definition get_str (content : V) (k : string) : option string := v ← get content k; as_str v.
Definition get_uint `{JU : JsonU64 V} (content : V) (k : string) : option Z :=
  v ← get content k; as_u64 v.
End fields.
