(* ===== verification/Glare.v ===== *)
(** * Glare: the concurrent-invite resolver ([signaling/glare.rs])

    [resolve] is translated as it is written; [invite_le] is the abstract
    specification (the lexicographic order on (user id, call id)) that it
    refines. *)
From S2P Require Import Prelude.

Inductive GlareResult : Type := WeWin | TheyWin.

#[export] Instance GlareResult_eq_dec : EqDecision GlareResult.
Proof. solve_decision. Defined.

Definition resolve (our_user_id their_user_id our_call_id their_call_id : string) : GlareResult :=
  match String.compare our_user_id their_user_id with
  | Lt => WeWin
  | Gt => TheyWin
  | Eq =>
      match String.compare our_call_id their_call_id with
      | Lt => WeWin
      | Gt => TheyWin
      | Eq => WeWin
      end
  end.

Definition invert (r : GlareResult) : GlareResult :=
  match r with
  | WeWin => TheyWin
  | TheyWin => WeWin
  end.

(** ** Specification: an invite is a (user id, call id) pair. *)
Abbreviation invite := (string * string)%type (only parsing).

Definition invite_le (a b : invite) : Prop :=
  (String.le a.1 b.1 ∧ a.1 ≠ b.1) ∨ (a.1 = b.1 ∧ String.le a.2 b.2).

(** [resolve] seen as a relation on invites: [a]'s owner, facing [b], wins. *)
Definition wins_over (a b : invite) : Prop := resolve a.1 b.1 a.2 b.2 = WeWin.

Lemma resolve_we_win_iff a b : wins_over a b ↔ invite_le a b.
Proof.
  unfold wins_over, invite_le, resolve. destruct a as [u c], b as [v d]; simpl.
  rewrite !str_le_compare.
  destruct (String.compare u v) eqn:Huv.
  - apply str_compare_eq in Huv as ->. destruct (String.compare c d); naive_solver.
  - assert (u ≠ v) by (intros ->; by rewrite str_compare_refl in Huv). naive_solver.
  - assert (u ≠ v) by (intros ->; by rewrite str_compare_refl in Huv). naive_solver.
Qed.

#[export] Instance invite_le_preorder : PreOrder invite_le.
Proof.
  split.
  - intros [u c]. right. naive_solver.
  - intros [u1 c1] [u2 c2] [u3 c3]; unfold invite_le; simpl.
    intros [[H1 N1]|[-> H1]] [[H2 N2]|[-> H2]]; [left|left; done|left; done|right].
    + split; [by etrans|]. intros ->. apply N1. by apply (anti_symm String.le).
    + split; [done|]. by etrans.
Qed.

#[export] Instance invite_le_total : Total invite_le.
Proof.
  intros [u1 c1] [u2 c2]; unfold invite_le; simpl.
  destruct (decide (u1 = u2)) as [->|Hne].
  - destruct (total String.le c1 c2); naive_solver.
  - destruct (total String.le u1 u2); naive_solver.
Qed.

Lemma invite_le_antisym a b : invite_le a b → invite_le b a → a = b.
Proof.
  destruct a as [u1 c1], b as [u2 c2]; unfold invite_le; simpl.
  intros [[H1 N1]|[-> H1]] [[H2 N2]|[E H2]]; try congruence.
  - exfalso. apply N1. by apply (anti_symm String.le).
  - f_equal. by apply (anti_symm String.le).
Qed.

Lemma resolve_cases a b : resolve a.1 b.1 a.2 b.2 = WeWin ∨ resolve a.1 b.1 a.2 b.2 = TheyWin.
Proof. destruct (resolve _ _ _ _); auto. Qed.

(** Both peers of a glare race, each computing [resolve] from its own
    side, reach the same winner: whenever the two invites differ, the results
    are each other's inverse. *)
Theorem resolve_agreement (our_user their_user our_call their_call : string)
    (Hne : (our_user, our_call) ≠ (their_user, their_call)) :
  resolve their_user our_user their_call our_call
  = invert (resolve our_user their_user our_call their_call).
Proof.
  unfold resolve.
  rewrite (str_compare_opp our_user their_user), (str_compare_opp our_call their_call).
  destruct (String.compare our_user their_user) eqn:Hu; simpl; [|done|done].
  apply str_compare_eq in Hu as ->.
  destruct (String.compare our_call their_call) eqn:Hc; simpl; [|done|done].
  apply str_compare_eq in Hc as ->. congruence.
Qed.
