(* ===== verification/Channel.v ===== *)
(** * Channel: the data-channel vocabulary ([channel/mod.rs])

    The types every backend and the state machine share, and the
    [WebRtcChannel] trait as a class: a backend is a carrier with the
    operations that the driver calls on it. *)
From S2P Require Import Prelude.

Definition MAX_INBOUND_FRAME_SIZE : nat := 1024 * 1024.
Definition EVENT_QUEUE_DEPTH : nat := 256.

Record IceServer := mkIceServer {
  urls : list string;
  username : option string;
  credential : option string
}.

Inductive SdpKind : Type := Offer | Answer.

Definition SdpKind_fmt (k : SdpKind) : string :=
  match k with Offer => "offer" | Answer => "answer" end.

Record Sdp := mkSdp { sdp_kind : SdpKind; sdp_sdp : string }.

Record IceCandidate := mkIceCandidate {
  candidate : string;
  sdp_mid : option string;
  sdp_mline_index : option Z
}.

Inductive ChannelEvent : Type :=
| LocalIce (c : IceCandidate)
| Message (b : Bytes)
| Open
| Closed (reason : string)
| Failure (msg : string).

Inductive ChannelError : Type :=
| InvalidSdp (msg : string)
| InvalidCandidate (msg : string)
| IceInitFailed (msg : string)
| RestartIceUnsupported
| FrameTooLarge (max actual : Z)
| ClosedError
| Backend (msg : string).

#[export] Instance IceServer_eq_dec : EqDecision IceServer.
Proof. solve_decision. Defined.
#[export] Instance SdpKind_eq_dec : EqDecision SdpKind.
Proof. solve_decision. Defined.
#[export] Instance Sdp_eq_dec : EqDecision Sdp.
Proof. solve_decision. Defined.
#[export] Instance IceCandidate_eq_dec : EqDecision IceCandidate.
Proof. solve_decision. Defined.

(** The operations of the trait that the transport driver uses. Each returns
    the channel after the call: backends are mutable. [send] takes [&self] but
    a backend may still change internally. *)
Class WebRtcChannel (C : Type) := {
  restart_ice : C → list IceServer → result Sdp ChannelError * C;
  send : C → Bytes → result unit ChannelError * C;
  close : C → string → result unit ChannelError * C;
}.

(** [thiserror]'s [Display] for [ChannelError], as the driver formats it. *)
Definition ChannelError_fmt (e : ChannelError) : string :=
  match e with
  | InvalidSdp m => "invalid SDP: " +:+ m
  | InvalidCandidate m => "invalid ICE candidate: " +:+ m
  | IceInitFailed m => "ICE initialisation failed: " +:+ m
  | RestartIceUnsupported => "restart_ice not supported by this backend"
  | FrameTooLarge max actual =>
      "frame exceeds " +:+ show max +:+ "-byte limit (" +:+ show actual +:+ " bytes)"
  | ClosedError => "channel is closed"
  | Backend m => "backend error: " +:+ m
  end.
