(* ===== verification/Signaling.v ===== *)
(** * Signaling: [m.call.*] events ([signaling/events.rs], [signaling/parse.rs])

    The five event contents and their builders, and the tolerant parser. JSON
    values ([serde_json::Value]) and the derived [Deserialize] are code the
    crate does not contain: they are the classes [JsonValue] and
    [Deserialize], with the documented behaviour that a theorem relies on as
    its laws. *)
From S2P Require Export Json.
From S2P Require Import Prelude.

Definition DEFAULT_INVITE_LIFETIME_MS : Z := 30000.
Definition CALL_VERSION : string := "1".

Record CallSdpField := mkCallSdpField { kind : string; sdp : string }.

Record CallIceCandidate := mkCallIceCandidate {
  cand_candidate : string;
  cand_sdp_mid : option string;
  cand_sdp_mline_index : option Z
}.

Record CallInvite := mkCallInvite {
  inv_call_id : string;
  inv_party_id : string;
  inv_version : string;
  inv_lifetime : Z;
  inv_offer : CallSdpField;
  inv_mxdx_session_key : option string;
  inv_session_uuid : option string
}.

Record CallAnswer := mkCallAnswer {
  ans_call_id : string;
  ans_party_id : string;
  ans_version : string;
  ans_answer : CallSdpField
}.

Record CallCandidates := mkCallCandidates {
  cnd_call_id : string;
  cnd_party_id : string;
  cnd_version : string;
  cnd_candidates : list CallIceCandidate
}.

Record CallHangup := mkCallHangup {
  hup_call_id : string;
  hup_party_id : string;
  hup_version : string;
  hup_reason : option string
}.

Record CallSelectAnswer := mkCallSelectAnswer {
  sel_call_id : string;
  sel_party_id : string;
  sel_version : string;
  sel_selected_party_id : string
}.

(** ** Builders. [build_invite] takes the key already in base64: encoding is
    [P2PCrypto.to_base64]'s, and its only caller-visible output. *)
Definition build_invite (call_id party_id sdp_offer : string)
    (sealed_key_to_base64 : string) (lifetime : Z) (session_uuid : option string) : CallInvite :=
  let mxdx_session_key := Some sealed_key_to_base64 in
  mkCallInvite call_id party_id CALL_VERSION lifetime
    (mkCallSdpField "offer" sdp_offer) mxdx_session_key session_uuid.

Definition build_answer (call_id party_id sdp_answer : string) : CallAnswer :=
  mkCallAnswer call_id party_id CALL_VERSION (mkCallSdpField "answer" sdp_answer).

Definition build_candidates (call_id party_id : string)
    (candidates : list CallIceCandidate) : CallCandidates :=
  mkCallCandidates call_id party_id CALL_VERSION candidates.

Definition build_hangup (call_id party_id : string) (reason : option string) : CallHangup :=
  mkCallHangup call_id party_id CALL_VERSION reason.

Definition build_select_answer (call_id party_id selected_party_id : string) : CallSelectAnswer :=
  mkCallSelectAnswer call_id party_id CALL_VERSION selected_party_id.

(** ** Parsed events *)
Inductive ParsedCallEvent : Type :=
| Invite (e : CallInvite)
| Answer (e : CallAnswer)
| Candidates (e : CallCandidates)
| Hangup (e : CallHangup)
| SelectAnswer (e : CallSelectAnswer)
| Unknown (event_type : string).

Definition event_type (e : ParsedCallEvent) : string :=
  match e with
  | Invite _ => "m.call.invite"
  | Answer _ => "m.call.answer"
  | Candidates _ => "m.call.candidates"
  | Hangup _ => "m.call.hangup"
  | SelectAnswer _ => "m.call.select_answer"
  | Unknown event_type => event_type
  end.

Definition call_id (e : ParsedCallEvent) : option string :=
  match e with
  | Invite e => Some (inv_call_id e)
  | Answer e => Some (ans_call_id e)
  | Candidates e => Some (cnd_call_id e)
  | Hangup e => Some (hup_call_id e)
  | SelectAnswer e => Some (sel_call_id e)
  | Unknown _ => None
  end.

Inductive ParseError : Type :=
| InvalidJson (msg : string)
| NotACallEvent (event_type : string)
| InvalidContent (event_type reason : string).

(** ** Deserialisation *)

(** The derived [T::deserialize], with the error already printed. *)
Class Deserialize (V T : Type) := de : V → result T string.

Class CallDeserialize (V : Type) := {
  #[global] de_invite :: Deserialize V CallInvite;
  #[global] de_answer :: Deserialize V CallAnswer;
  #[global] de_candidates :: Deserialize V CallCandidates;
  #[global] de_hangup :: Deserialize V CallHangup;
  #[global] de_select_answer :: Deserialize V CallSelectAnswer;
}.

Definition is_call_event (event_type : string) : bool := String.prefix "m.call." event_type.

Section parse.
Context {V : Type} `{JV : JsonValue V} `{CD : CallDeserialize V}.

Definition deserialize {T} `{Deserialize V T} (content : V) (event_type : string)
    : result T ParseError :=
  result_map_err (InvalidContent event_type) (de content).

Definition parse_content (event_type : string) (content : V)
    : result ParsedCallEvent ParseError :=
  if negb (is_call_event event_type) then Err (NotACallEvent event_type)
  else if str_eqb event_type "m.call.invite" then
    let? e := deserialize content event_type in Ok (Invite e)
  else if str_eqb event_type "m.call.answer" then
    let? e := deserialize content event_type in Ok (Answer e)
  else if str_eqb event_type "m.call.candidates" then
    let? e := deserialize content event_type in Ok (Candidates e)
  else if str_eqb event_type "m.call.hangup" then
    let? e := deserialize content event_type in Ok (Hangup e)
  else if str_eqb event_type "m.call.select_answer" then
    let? e := deserialize content event_type in Ok (SelectAnswer e)
  else Ok (Unknown event_type).

Definition parse_value (event : V) : result ParsedCallEvent ParseError :=
  match (v ← get event "type"; as_str v) with
  | None => Err (InvalidContent "<unknown>" "event envelope missing `type` field")
  | Some event_type =>
      if negb (is_call_event event_type) then Err (NotACallEvent event_type)
      else
        let content := default json_null (get event "content") in
        parse_content event_type content
  end.

Definition parse_event (json : string) : result ParsedCallEvent ParseError :=
  let? value := result_map_err InvalidJson (from_str json) in
  parse_value value.
End parse.

Definition CALL_EVENT_TYPES : list string :=
  ["m.call.invite"; "m.call.answer"; "m.call.candidates"; "m.call.hangup";
   "m.call.select_answer"].

(** ** What a sender puts on the wire

    The envelope of an event and its content, for a JSON representation with
    object and string constructors. The laws are those of [serde_json] maps
    and of a derived [Serialize]/[Deserialize] pair. *)
Class JsonEnvelope (V : Type) `{JsonValue V, CallDeserialize V} := {
  envelope : string → V → V;
  ser_invite : CallInvite → V;
  ser_answer : CallAnswer → V;
  ser_candidates : CallCandidates → V;
  ser_hangup : CallHangup → V;
  ser_select_answer : CallSelectAnswer → V;
}.

Class JsonEnvelopeLaws (V : Type) `{JsonEnvelope V} := {
  get_type t c : (v ← get (envelope t c) "type"; as_str v) = Some t;
  get_content t c : get (envelope t c) "content" = Some c;
  de_ser_invite e : de (ser_invite e) = Ok e;
  de_ser_answer e : de (ser_answer e) = Ok e;
  de_ser_candidates e : de (ser_candidates e) = Ok e;
  de_ser_hangup e : de (ser_hangup e) = Ok e;
  de_ser_select_answer e : de (ser_select_answer e) = Ok e;
}.

Definition content_of {V} `{JsonEnvelope V} (e : ParsedCallEvent) : V :=
  match e with
  | Invite e => ser_invite e
  | Answer e => ser_answer e
  | Candidates e => ser_candidates e
  | Hangup e => ser_hangup e
  | SelectAnswer e => ser_select_answer e
  | Unknown _ => json_null
  end.

(** ** Properties *)
Lemma recognised_is_call t : t ∈ CALL_EVENT_TYPES → is_call_event t = true.
Proof. unfold CALL_EVENT_TYPES. rewrite !elem_of_cons, elem_of_nil. naive_solver. Qed.

Section properties.
Context {V : Type} `{JV : JsonValue V} `{CD : CallDeserialize V}.

(** What [parse_content] may answer for each event type. *)
Definition content_spec (t : string) (r : result ParsedCallEvent ParseError) : Prop :=
  match r with
  | Ok (Unknown t') => t' = t ∧ is_call_event t = true ∧ t ∉ CALL_EVENT_TYPES
  | Ok e => event_type e = t ∧ t ∈ CALL_EVENT_TYPES
  | Err (NotACallEvent t') => t' = t ∧ is_call_event t = false
  | Err (InvalidContent t' _) => t' = t ∧ t ∈ CALL_EVENT_TYPES
  | Err (InvalidJson _) => False
  end.

Lemma parse_content_spec t (content : V) : content_spec t (parse_content t content).
Proof.
  unfold parse_content, deserialize, content_spec.
  destruct (is_call_event t) eqn:Ec; simpl; [|done].
  repeat (case_match; simplify_eq/=;
    match goal with
    | H : str_eqb _ _ = true |- _ => apply str_eqb_true in H as ->
    | H : str_eqb _ _ = false |- _ => apply str_eqb_false in H
    | _ => idtac
    end); unfold result_bind, result_map_err in *; repeat case_match; simplify_eq/=;
    rewrite ?elem_of_cons, ?elem_of_nil; unfold CALL_EVENT_TYPES; try set_solver.
Qed.

(** The parser never guesses. For an envelope whose [type] is the string
    [t], the result is an event of exactly that type, or [Unknown] only for an
    [m.call.*] type outside the five recognised ones, or an error that names
    [t]: [NotACallEvent] exactly for a foreign type, [InvalidContent] only for
    a recognised one. *)
Theorem parse_value_spec (event : V) t (Ht : (v ← get event "type"; as_str v) = Some t) :
  content_spec t (parse_value event) ∧
  (is_call_event t = false ↔ parse_value event = Err (NotACallEvent t)).
Proof.
  unfold parse_value. rewrite Ht.
  destruct (is_call_event t) eqn:Ec; simpl.
  - pose proof (parse_content_spec t (default json_null (get event "content"))) as H.
    split; [done|]. split; [done|]. intros E. rewrite E in H. destruct H. congruence.
  - split; [done|]. by split.
Qed.

(** What one peer emits the other reads. Parsing the envelope of any of
    the five events, built with its own type, gives back that event. *)
Theorem parse_roundtrip `{JE : !JsonEnvelope V, !JsonEnvelopeLaws V} (e : ParsedCallEvent)
    (He : event_type e ∈ CALL_EVENT_TYPES) (Hk : ∀ t, e ≠ Unknown t) :
  parse_value (envelope (event_type e) (content_of e)) = Ok e.
Proof.
  unfold parse_value. rewrite get_type, get_content.
  rewrite (recognised_is_call _ He). simpl. unfold parse_content.
  rewrite (recognised_is_call _ He). simpl. unfold deserialize.
  destruct e as [e|e|e|e|e|t]; simpl; [| | | | |by destruct (Hk t)].
  - by rewrite de_ser_invite.
  - by rewrite de_ser_answer.
  - by rewrite de_ser_candidates.
  - by rewrite de_ser_hangup.
  - by rewrite de_ser_select_answer.
Qed.
End properties.

(** ** A concrete JSON representation, for the witnesses *)
Inductive toy_json : Type :=
| JNull
| JStr (s : string)
| JEnvelope (t : string) (c : toy_json)
| JContent (e : ParsedCallEvent).

Definition toy_json_value : JsonValue toy_json :=
  {| from_str _ := Err "unsupported";
     get v k := match v with
                | JEnvelope t c =>
                    if str_eqb k "type" then Some (JStr t)
                    else if str_eqb k "content" then Some c else None
                | _ => None
                end;
     as_str v := match v with JStr s => Some s | _ => None end;
     json_null := JNull |}.
Definition toy_de {T} (f : ParsedCallEvent → option T) (v : toy_json) : result T string :=
  match v with
  | JContent e => match f e with Some x => Ok x | None => Err "shape" end
  | _ => Err "shape"
  end.
Definition toy_call_deserialize : CallDeserialize toy_json :=
  {| de_invite := toy_de (λ e, match e with Invite x => Some x | _ => None end);
     de_answer := toy_de (λ e, match e with Answer x => Some x | _ => None end);
     de_candidates := toy_de (λ e, match e with Candidates x => Some x | _ => None end);
     de_hangup := toy_de (λ e, match e with Hangup x => Some x | _ => None end);
     de_select_answer := toy_de (λ e, match e with SelectAnswer x => Some x | _ => None end) |}.
#[local] Existing Instances toy_json_value toy_call_deserialize.
Definition toy_json_envelope : JsonEnvelope toy_json :=
  {| envelope := JEnvelope;
     ser_invite e := JContent (Invite e);
     ser_answer e := JContent (Answer e);
     ser_candidates e := JContent (Candidates e);
     ser_hangup e := JContent (Hangup e);
     ser_select_answer e := JContent (SelectAnswer e) |}.
#[local] Existing Instance toy_json_envelope.
Lemma toy_json_envelope_laws : JsonEnvelopeLaws toy_json.
Proof. by split. Qed.
#[local] Existing Instance toy_json_envelope_laws.
