(* ===== verification/P2PCrypto.v ===== *)
(** * P2PCrypto: the AES-GCM layer of the data channel ([crypto.rs])

    [aes_gcm] and [base64] are third-party crates: the classes [Aead] and
    [Base64], with the documented behaviour (decryption inverts encryption,
    decoding inverts encoding) as separate law classes. Random bytes
    ([OsRng.fill_bytes]) are arguments. *)
From S2P Require Import Prelude.

Class Base64 := {
  b64_encode : Bytes → string;
  b64_decode : string → result Bytes string;
}.
Class Base64Laws `{Base64} := b64_decode_encode b : b64_decode (b64_encode b) = Ok b.

(** [Aes256Gcm] keyed by its 32 bytes; [None] is [aes_gcm::Error]. *)
Class Aead := {
  aead_encrypt : Bytes → Bytes → Bytes → option Bytes;
  aead_decrypt : Bytes → Bytes → Bytes → option Bytes;
}.
Class AeadLaws `{Aead} :=
  aead_decrypt_encrypt k n p c : aead_encrypt k n p = Some c → aead_decrypt k n c = Some p.

Inductive CryptoError : Type :=
| AeadFailure
| InvalidBase64 (field : string) (source : string)
| InvalidIvLength (got : nat)
| InvalidKeyLength (got : nat).

Record EncryptedFrame := mkEncryptedFrame { ciphertext : string; iv : string }.

Record SealedKey := mkSealedKey { sealed_bytes : Bytes }.
Record P2PCrypto := mkP2PCrypto { cipher_key : Bytes }.

Section crypto.
Context `{B64 : Base64} `{AE : Aead}.

(** [SealedKey::random]: 32 bytes drawn from the OS generator. *)
Definition random (raw : Bytes) : SealedKey := mkSealedKey raw.

Definition as_key_bytes (k : SealedKey) : Bytes := sealed_bytes k.

Definition to_base64 (k : SealedKey) : string := b64_encode (as_key_bytes k).

Definition from_base64 (b64 : string) : result SealedKey CryptoError :=
  let? raw := result_map_err (InvalidBase64 "mxdx_session_key") (b64_decode b64) in
  if decide (length raw = 32) then Ok (mkSealedKey raw)
  else Err (InvalidKeyLength (length raw)).

Definition generate (raw : Bytes) : P2PCrypto * SealedKey :=
  let sealed := random raw in
  (mkP2PCrypto (as_key_bytes sealed), sealed).

Definition from_sealed (k : SealedKey) : P2PCrypto := mkP2PCrypto (as_key_bytes k).

(** [iv_bytes]: the 12 random bytes of this call. *)
Definition encrypt (c : P2PCrypto) (iv_bytes : Bytes) (plaintext : Bytes)
    : result EncryptedFrame CryptoError :=
  match aead_encrypt (cipher_key c) iv_bytes plaintext with
  | None => Err AeadFailure
  | Some ct => Ok (mkEncryptedFrame (b64_encode ct) (b64_encode iv_bytes))
  end.

Definition decrypt (c : P2PCrypto) (frame : EncryptedFrame) : result Bytes CryptoError :=
  let? ct := result_map_err (InvalidBase64 "c") (b64_decode (ciphertext frame)) in
  let? iv_bytes := result_map_err (InvalidBase64 "iv") (b64_decode (iv frame)) in
  if decide (length iv_bytes = 12) then
    match aead_decrypt (cipher_key c) iv_bytes ct with
    | None => Err AeadFailure
    | Some plaintext => Ok plaintext
    end
  else Err (InvalidIvLength (length iv_bytes)).
End crypto.

(** A base64 stand-in and a cipher stand-in that satisfy the laws, for the
    witnesses of this and other files. *)
Definition toy_base64 : Base64 :=
  {| b64_encode := from_bytes; b64_decode s := Ok (as_bytes s) |}.
Lemma toy_base64_laws : @Base64Laws toy_base64.
Proof. intros b. simpl. by rewrite as_bytes_from_bytes. Qed.
Definition toy_aead : Aead :=
  {| aead_encrypt k n p := Some (k ++ n ++ p);
     aead_decrypt k n c :=
       if decide (take (length (k ++ n)) c = k ++ n)
       then Some (drop (length (k ++ n)) c) else None |}.
Lemma toy_aead_laws : @AeadLaws toy_aead.
Proof.
  intros k n p c [= <-]. simpl. rewrite app_assoc, take_app_length, drop_app_length.
  by rewrite decide_True.
Qed.
#[local] Existing Instances toy_base64 toy_base64_laws toy_aead toy_aead_laws.

(** ** Properties *)
Section properties.
Context `{B64 : Base64, !Base64Laws} `{AE : Aead, !AeadLaws}.

Lemma from_base64_to_base64 k :
  length (sealed_bytes k) = 32 → from_base64 (to_base64 k) = Ok k.
Proof.
  intros Hl. unfold from_base64, to_base64. rewrite b64_decode_encode. simpl.
  unfold as_key_bytes. rewrite decide_True by done. by destruct k.
Qed.

Lemma decrypt_encrypt c iv_bytes p f :
  length iv_bytes = 12 → encrypt c iv_bytes p = Ok f → decrypt c f = Ok p.
Proof.
  unfold encrypt, decrypt. intros Hl.
  destruct (aead_encrypt _ _ _) as [ct|] eqn:E; intros [= <-]. simpl.
  rewrite !b64_decode_encode. simpl. rewrite decide_True by done.
  by rewrite (aead_decrypt_encrypt _ _ _ _ E).
Qed.

(** A session key survives its transport. The key minted by [generate]
    and carried as base64 in an invite is reconstructed by the peer, and
    every frame the minting side encrypts decrypts to its plaintext on the
    peer's side. *)
Theorem session_key_transport raw iv_bytes p f
    (Hraw : length raw = 32) (Hiv : length iv_bytes = 12)
    (He : encrypt (generate raw).1 iv_bytes p = Ok f) :
  ∃ k, from_base64 (to_base64 (generate raw).2) = Ok k ∧ decrypt (from_sealed k) f = Ok p.
Proof.
  exists (random raw). split; [by apply from_base64_to_base64|].
  exact (decrypt_encrypt (generate raw).1 iv_bytes p f Hiv He).
Qed.

End properties.
