(* ===== verification/Idle.v ===== *)
(** * Idle: the idle-timeout watchdog ([transport/idle.rs])

    The spawned task and its handle share the control queue (depth 8). [poll]
    is one turn of the task's loop: the biased [select!] looks at the control
    queue before the sleep; taking a [Reset] re-creates the sleep at the time
    of that turn. *)
From S2P Require Import Prelude.

Inductive Control : Type := Reset | Shutdown.

Record IdleWatchdog := mkIdleWatchdog {
  window : Duration;
  control_q : list Control;
  deadline : Instant;
  running : bool;
  ticks_sent : nat
}.

Definition CONTROL_DEPTH : nat := 8.

Definition spawn (window : Duration) (now : Instant) : IdleWatchdog :=
  mkIdleWatchdog window [] (now + window)%Z true 0.

(** [try_send] on the control queue: refused when the task has exited or the
    queue is full. *)
Definition try_control (c : Control) (w : IdleWatchdog) : IdleWatchdog :=
  if running w && bool_decide (length (control_q w) < CONTROL_DEPTH)
  then mkIdleWatchdog (window w) (control_q w ++ [c]) (deadline w) (running w) (ticks_sent w)
  else w.

Definition reset (w : IdleWatchdog) : IdleWatchdog := try_control Reset w.

(** [shutdown]: the awaited send of [Shutdown], then the join: the task drains
    the queue up to it and returns without a tick. *)
Definition shutdown (w : IdleWatchdog) : IdleWatchdog :=
  mkIdleWatchdog (window w) [] (deadline w) false (ticks_sent w).

Definition poll (now : Instant) (w : IdleWatchdog) : IdleWatchdog :=
  if negb (running w) then w
  else
    match control_q w with
    | Reset :: q => mkIdleWatchdog (window w) q (now + window w)%Z true (ticks_sent w)
    | Shutdown :: q => mkIdleWatchdog (window w) q (deadline w) false (ticks_sent w)
    | [] =>
        if (deadline w <=? now)%Z
        then mkIdleWatchdog (window w) [] (deadline w) false (S (ticks_sent w))
        else w
    end.

(** ** Histories: polls and control sends at non-decreasing times *)
Inductive op : Type := OpPoll | OpControl (c : Control).

Definition apply_op (now : Instant) (o : op) (w : IdleWatchdog) : IdleWatchdog :=
  match o with
  | OpPoll => poll now w
  | OpControl c => try_control c w
  end.

Fixpoint run (h : list (Instant * op)) (w : IdleWatchdog) : IdleWatchdog :=
  match h with
  | [] => w
  | (now, o) :: h => run h (apply_op now o w)
  end.

Fixpoint ordered (from : Instant) (h : list (Instant * op)) : Prop :=
  match h with
  | [] => True
  | (now, _) :: h => (from <= now)%Z ∧ ordered now h
  end.

(** The sleep was armed no later than [now]. *)
Definition armed (now : Instant) (w : IdleWatchdog) : Prop := (deadline w <= now + window w)%Z.

(** The watchdog cannot tick before [t]: it is stopped, or its sleep ends at
    [t] at the earliest, or a control message is still to be handled and
    handling it re-arms the sleep past [t]. *)
Definition safe_until (t now : Instant) (w : IdleWatchdog) : Prop :=
  running w = false ∨ (t <= deadline w)%Z ∨
  (control_q w ≠ [] ∧ (t <= now + window w)%Z).

Lemma window_apply_op now o w : window (apply_op now o w) = window w.
Proof. destruct o; simpl; unfold poll, try_control; repeat case_match; done. Qed.

Lemma try_control_armed now now' c w :
  (now <= now')%Z → armed now w → armed now' (try_control c w).
Proof. unfold try_control, armed. case_match; simpl; lia. Qed.

Lemma poll_armed now now' w :
  (now <= now')%Z → armed now w → armed now' (poll now' w).
Proof. unfold poll, armed. repeat case_match; simpl; lia. Qed.

Lemma try_control_safe t now now' c w :
  (now <= now')%Z → safe_until t now w → safe_until t now' (try_control c w).
Proof.
  unfold try_control, safe_until. intros Hle Hs.
  case_match; simpl; [|destruct Hs as [|[|[]]]; auto; right; right; split; [done|lia]].
  destruct Hs as [|[|[]]]; auto. right; right. split; [by destruct (control_q w)|lia].
Qed.

Lemma poll_safe t now now' w :
  (now <= now')%Z → (now' < t)%Z → armed now w → safe_until t now w →
  safe_until t now' (poll now' w) ∧ ticks_sent (poll now' w) = ticks_sent w.
Proof.
  unfold poll, safe_until, armed. intros Hle Hlt Ha Hs.
  destruct (running w) eqn:Er; simpl; [|auto].
  destruct (control_q w) as [|[] q] eqn:Eq; simpl.
  - destruct Hs as [|[H|[]]]; [done| |done].
    destruct (Z.leb_spec (deadline w) now'); simpl; [lia|auto].
  - split; [|done]. destruct Hs as [|[H|[_ H]]]; [done| |]; right; left; lia.
  - auto.
Qed.

Lemma run_safe t h now w :
  ordered now h → Forall (λ x, (x.1 < t)%Z) h → armed now w → safe_until t now w →
  ticks_sent (run h w) = ticks_sent w.
Proof.
  revert now w. induction h as [|[n o] h IH]; intros now w; [done|].
  intros [Hle Ho] Hf Ha Hs. inversion_clear Hf as [|?? Hlt Hf']; simpl in *.
  destruct o as [|c]; simpl.
  - destruct (poll_safe t now n w Hle Hlt Ha Hs) as [Hs' <-].
    eapply IH; eauto using poll_armed.
  - rewrite (IH n); eauto using try_control_armed, try_control_safe.
    unfold try_control. by case_match.
Qed.

Lemma ticks_run_le h w :
  ticks_sent w + (if running w then 1 else 0) ≤ 1 →
  ticks_sent (run h w) + (if running (run h w) then 1 else 0) ≤ 1.
Proof.
  revert w. induction h as [|[n o] h IH]; intros w Hw; [done|]. simpl. apply IH.
  destruct o; simpl; unfold poll, try_control; repeat case_match; simpl in *;
    repeat match goal with H : running _ = _ |- _ => rewrite H in * end; simpl in *; try lia.
Qed.

(** ** Properties *)

(** Traffic keeps the session alive. After a [reset] at [t0] the watchdog
    does not tick before [t0 + window], whatever polls and control messages
    follow, even when the control queue was full and the reset itself was
    dropped. *)
Theorem reset_postpones t0 w h
    (Ha : armed t0 w) (Ho : ordered t0 h)
    (Ht : Forall (λ x, (x.1 < t0 + window w)%Z) h) :
  ticks_sent (run h (reset w)) = ticks_sent w.
Proof.
  rewrite (run_safe (t0 + window w) h t0 (reset w)); try done.
  - unfold reset, try_control. by case_match.
  - apply (try_control_armed t0 t0); [lia|done].
  - unfold reset, try_control, safe_until. case_match eqn:E; simpl.
    + right; right. split; [by destruct (control_q w)|lia].
    + destruct (running w); simpl in E; [|by left]. right; right. split; [|lia].
      apply bool_decide_eq_false in E. unfold CONTROL_DEPTH in E.
      by destruct (control_q w); simpl in *; [lia|].
Qed.

(** A watchdog ticks at most once in its life, and it does tick: a poll at
    or after the deadline of a running watchdog whose queue is empty sends the
    tick and ends the task. *)
Theorem ticks_once_and_fires window t0 h now :
  let w := run h (spawn window t0) in
  ticks_sent w ≤ 1 ∧
  (running w = true → control_q w = [] → (deadline w <= now)%Z →
   ticks_sent (poll now w) = 1 ∧ running (poll now w) = false).
Proof.
  intros w. pose proof (ticks_run_le h (spawn window t0)) as Hle. simpl in Hle.
  specialize (Hle ltac:(lia)). fold w in Hle. split; [lia|]. intros Hr Hq Hd.
  unfold poll. rewrite Hr, Hq in *. simpl. rewrite (proj2 (Z.leb_le _ _) Hd). simpl. lia.
Qed.
