(* ===== verification/P2PState.v ===== *)
(** * P2PState: the nine-state call machine ([transport/state.rs])

    [transition] is the pure table of the code: the global [Hangup] arm first,
    then one definition per state with that state's arms. [Instant::now()] is
    the argument [now]: its [i]-th reading within the call. *)
From S2P Require Import Prelude Glare Channel Signaling.

Definition DEFAULT_RETRY_AFTER : Duration := from_secs 30.
Definition ICE_TIMEOUT_RETRY_AFTER : Duration := from_secs 60.
Definition DECRYPT_STORM_RETRY_AFTER : Duration := from_secs 60.

Inductive P2PState : Type :=
| Idle
| FetchingTurn (since : Instant)
| Inviting (call_id : string) (started : Instant) (our_offer : Sdp)
    (our_party_id : string) (lifetime_ms : Z)
| Answering (call_id party_id their_party_id : string)
| Glare (our_call their_call : string) (resolution : GlareResult)
| Connecting (call_id our_party_id : string) (ice_started : Instant)
| Verifying (call_id our_party_id : string) (our_nonce : Bytes)
| Open (call_id : string) (last_io : Instant)
| Failed (reason : string) (retry_after : Instant).

Definition name (s : P2PState) : string :=
  match s with
  | Idle => "Idle"
  | FetchingTurn _ => "FetchingTurn"
  | Inviting _ _ _ _ _ => "Inviting"
  | Answering _ _ _ => "Answering"
  | Glare _ _ _ => "Glare"
  | Connecting _ _ _ => "Connecting"
  | Verifying _ _ _ => "Verifying"
  | Open _ _ => "Open"
  | Failed _ _ => "Failed"
  end.

Definition is_open (s : P2PState) : bool :=
  match s with Open _ _ => true | _ => false end.

Inductive VerifyFailureReason : Type :=
| SignatureMismatch | ReplayDetected | Timeout | InvalidPayload | DeviceLockedOut.

Inductive Event : Type :=
| Start (peer_user_id : string) (peer_device_id : option string)
    (our_user_id our_device_id room_id : string) (session_uuid : option string)
| Hangup (reason : string)
| TurnRefreshed (servers : list IceServer)
| TurnExpired
| CallEventReceived (e : ParsedCallEvent)
| ChannelEvent (e : Channel.ChannelEvent)
| OutboundPressure
| IdleTick
| InviteTimeout
| IceTimeout
| VerifyOk
| VerifyFail (reason : VerifyFailureReason)
| DecryptStorm
| RetryReady.

Inductive SecurityEventKind : Type :=
| SecVerifyFailure | SecDecryptStorm | SecReplayDetected | SecWrongPeer.

Inductive TelemetryKind : Type :=
| StateTransition (from to reason : string)
| HandshakeCompleted (total_ms ice_ms verify_ms : Z)
| TurnRefresh (outcome : string)
| Fallback (reason : string)
| SecurityEvent (kind : SecurityEventKind) (peer : option string).

Inductive ScheduledEvent : Type := SchedInviteTimeout | SchedIceTimeout | SchedRetryReady.

Inductive Command : Type :=
| SendInvite (call_id party_id : string) (sdp : Sdp) (lifetime_ms : Z)
    (session_uuid : option string)
| SendAnswer (call_id party_id : string) (sdp : Sdp)
| SendCandidates (call_id party_id : string) (candidates : list IceCandidate)
| SendHangup (call_id party_id reason : string)
| SendSelectAnswer (call_id party_id selected_party_id : string)
| BeginFetchTurn
| StartVerifying (our_nonce : Bytes)
| TearDownChannel (reason : string)
| ConfigureIceServers (servers : list IceServer)
| Schedule (at_ : Instant) (event : ScheduledEvent)
| ResetIdle
| EmitTelemetry (kind : TelemetryKind)
| LockoutDevice (peer : string)
| DrainOutbound.

Inductive TransitionResult : Type :=
| TOk (next : P2PState) (commands : list Command)
| Illegal (note : string).

Definition ok (next : P2PState) (commands : list Command) : TransitionResult := TOk next commands.
Definition illegal (note : string) : TransitionResult := Illegal note.
Definition stay (current : P2PState) : TransitionResult := TOk current [].

Definition zero_nonce : Bytes := replicate 32 Byte.x00.

(** [current_call] *)
Definition current_call (s : P2PState) : option (string * string) :=
  match s with
  | Idle | FetchingTurn _ | Failed _ _ => None
  | Inviting call_id _ _ our_party_id _ => Some (call_id, our_party_id)
  | Connecting call_id our_party_id _ => Some (call_id, our_party_id)
  | Verifying call_id our_party_id _ => Some (call_id, our_party_id)
  | Answering call_id party_id _ => Some (call_id, party_id)
  | Glare our_call _ _ => Some (our_call, "<pending>")
  | Open call_id _ => Some (call_id, "<current>")
  end.

(** The [Hangup] pre-filter of [transition]. *)
Definition transition_hangup (state : P2PState) (reason : string) : TransitionResult :=
  ok Idle
    (match current_call state with
     | Some (call_id, party_id) =>
         [SendHangup call_id party_id reason; TearDownChannel reason]
     | None => []
     end
     ++ [EmitTelemetry (StateTransition (name state) "Idle" reason)]).

Definition transition_idle (now : clock) (state : P2PState) (event : Event) : TransitionResult :=
  match event with
  | Start _ _ _ _ _ _ =>
      ok (FetchingTurn (now 0))
        [BeginFetchTurn; EmitTelemetry (StateTransition "Idle" "FetchingTurn" "start")]
  | CallEventReceived (Invite inv) =>
      ok (Answering (inv_call_id inv) "our-party" (inv_party_id inv))
        [BeginFetchTurn; EmitTelemetry (StateTransition "Idle" "Answering" "peer_invite")]
  | CallEventReceived _ => stay state
  | ChannelEvent _ => stay state
  | OutboundPressure | IdleTick | RetryReady => stay state
  | TurnRefreshed _ | TurnExpired | VerifyOk | VerifyFail _ => stay state
  | InviteTimeout | IceTimeout | DecryptStorm => stay state
  | Hangup _ => stay state
  end.

Definition transition_fetching_turn (now : clock) (state : P2PState) (event : Event)
    : TransitionResult :=
  match event with
  | TurnRefreshed servers =>
      let call_id := "<pending>" in
      let party_id := "<pending>" in
      let sdp := mkSdp Offer "" in
      ok (Inviting call_id (now 0) sdp party_id DEFAULT_INVITE_LIFETIME_MS)
        [ConfigureIceServers servers;
         SendInvite call_id party_id sdp DEFAULT_INVITE_LIFETIME_MS None;
         Schedule (now 1%nat + from_millis DEFAULT_INVITE_LIFETIME_MS)%Z SchedInviteTimeout;
         EmitTelemetry (StateTransition "FetchingTurn" "Inviting" "turn_ready")]
  | TurnExpired =>
      ok (Failed "turn_expired" (now 0%nat + DEFAULT_RETRY_AFTER)%Z)
        [EmitTelemetry (Fallback "turn_expired");
         EmitTelemetry (StateTransition "FetchingTurn" "Failed" "turn_expired")]
  | CallEventReceived (Invite inv) =>
      ok (Answering (inv_call_id inv) "<pending>" (inv_party_id inv))
        [EmitTelemetry (StateTransition "FetchingTurn" "Answering" "peer_invite_preempts_turn")]
  | CallEventReceived _ => stay state
  | ChannelEvent _ => stay state
  | OutboundPressure | IdleTick | RetryReady => stay state
  | InviteTimeout | IceTimeout | VerifyOk | VerifyFail _ =>
      illegal "fetching_turn_timer_events_dropped"
  | Start _ _ _ _ _ _ => illegal "double_start_while_fetching_turn"
  | DecryptStorm => stay state
  | Hangup _ => stay state
  end.

Definition transition_inviting (now : clock) (state : P2PState)
    (call_id our_party_id : string) (event : Event) : TransitionResult :=
  match event with
  | CallEventReceived (Answer ans) =>
      if negb (str_eqb (ans_call_id ans) call_id)
      then illegal "inviting_answer_call_id_mismatch"
      else
        ok (Connecting call_id our_party_id (now 0))
          [Schedule (now 1%nat + from_secs 30)%Z SchedIceTimeout;
           EmitTelemetry (StateTransition "Inviting" "Connecting" "answer_received")]
  | CallEventReceived (Invite peer_inv) =>
      ok (Glare call_id (inv_call_id peer_inv) WeWin)
        [EmitTelemetry (StateTransition "Inviting" "Glare" "concurrent_invites")]
  | InviteTimeout =>
      ok (Failed "invite_timeout" (now 0%nat + DEFAULT_RETRY_AFTER)%Z)
        [SendHangup call_id our_party_id "invite_timeout";
         TearDownChannel "invite_timeout";
         EmitTelemetry (StateTransition "Inviting" "Failed" "invite_timeout")]
  | CallEventReceived (Signaling.Hangup _) =>
      ok (Failed "peer_hangup" (now 0%nat + DEFAULT_RETRY_AFTER)%Z)
        [TearDownChannel "peer_hangup";
         EmitTelemetry (StateTransition "Inviting" "Failed" "peer_hangup")]
  | CallEventReceived _ => stay state
  | ChannelEvent _ => stay state
  | OutboundPressure | IdleTick | RetryReady => stay state
  | TurnRefreshed _ | TurnExpired => stay state
  | IceTimeout => stay state
  | VerifyOk | VerifyFail _ | DecryptStorm => illegal "inviting_post_verify_events_dropped"
  | Start _ _ _ _ _ _ => illegal "double_start_while_inviting"
  | Hangup _ => stay state
  end.

Definition transition_answering (now : clock) (state : P2PState)
    (call_id party_id : string) (event : Event) : TransitionResult :=
  match event with
  | ChannelEvent Channel.Open =>
      ok (Verifying call_id party_id zero_nonce)
        [StartVerifying zero_nonce;
         EmitTelemetry (StateTransition "Answering" "Verifying" "channel_open")]
  | CallEventReceived (Signaling.Hangup _) =>
      ok (Failed "peer_hangup" (now 0%nat + DEFAULT_RETRY_AFTER)%Z)
        [TearDownChannel "peer_hangup";
         EmitTelemetry (StateTransition "Answering" "Failed" "peer_hangup")]
  | ChannelEvent (Channel.Failure msg) =>
      ok (Failed ("channel_failure:" +:+ msg) (now 0%nat + ICE_TIMEOUT_RETRY_AFTER)%Z)
        [TearDownChannel "channel_failure";
         EmitTelemetry (StateTransition "Answering" "Failed" "channel_failure")]
  | CallEventReceived _ => stay state
  | ChannelEvent _ => stay state
  | OutboundPressure | IdleTick | RetryReady => stay state
  | TurnRefreshed _ | TurnExpired => stay state
  | InviteTimeout | IceTimeout => stay state
  | VerifyOk | VerifyFail _ | DecryptStorm => illegal "answering_post_verify_events_dropped"
  | Start _ _ _ _ _ _ => illegal "double_start_while_answering"
  | Hangup _ => stay state
  end.

Definition transition_glare (state : P2PState) : TransitionResult := stay state.

Definition transition_connecting (now : clock) (state : P2PState)
    (call_id our_party_id : string) (event : Event) : TransitionResult :=
  match event with
  | ChannelEvent Channel.Open =>
      ok (Verifying call_id our_party_id zero_nonce)
        [StartVerifying zero_nonce;
         EmitTelemetry (StateTransition "Connecting" "Verifying" "channel_open")]
  | IceTimeout =>
      ok (Failed "ice_timeout" (now 0%nat + ICE_TIMEOUT_RETRY_AFTER)%Z)
        [SendHangup call_id our_party_id "ice_timeout";
         TearDownChannel "ice_timeout";
         EmitTelemetry (StateTransition "Connecting" "Failed" "ice_timeout")]
  | CallEventReceived (Signaling.Hangup _) =>
      ok (Failed "peer_hangup" (now 0%nat + DEFAULT_RETRY_AFTER)%Z)
        [TearDownChannel "peer_hangup";
         EmitTelemetry (StateTransition "Connecting" "Failed" "peer_hangup")]
  | ChannelEvent (Channel.Failure msg) =>
      ok (Failed ("channel_failure:" +:+ msg) (now 0%nat + ICE_TIMEOUT_RETRY_AFTER)%Z)
        [TearDownChannel "channel_failure";
         EmitTelemetry (StateTransition "Connecting" "Failed" "channel_failure")]
  | ChannelEvent _ => stay state
  | CallEventReceived _ => stay state
  | OutboundPressure | IdleTick | RetryReady => stay state
  | TurnRefreshed _ | TurnExpired => stay state
  | InviteTimeout => stay state
  | VerifyOk | VerifyFail _ | DecryptStorm => illegal "connecting_post_verify_events_dropped"
  | Start _ _ _ _ _ _ => illegal "double_start_while_connecting"
  | Hangup _ => stay state
  end.

(** The tuple each [VerifyFailureReason] selects: retry instant, security
    telemetry kind, reason string. *)
Definition verify_fail_info (now : clock) (reason : VerifyFailureReason)
    : Instant * SecurityEventKind * string :=
  match reason with
  | SignatureMismatch => ((now 0%nat + DEFAULT_RETRY_AFTER)%Z, SecVerifyFailure, "verify_failure")
  | ReplayDetected => ((now 0%nat + DEFAULT_RETRY_AFTER)%Z, SecReplayDetected, "replay_detected")
  | Timeout => ((now 0%nat + DEFAULT_RETRY_AFTER)%Z, SecVerifyFailure, "verify_timeout")
  | InvalidPayload => ((now 0%nat + DEFAULT_RETRY_AFTER)%Z, SecVerifyFailure, "verify_invalid_payload")
  | DeviceLockedOut => ((now 0%nat + DEFAULT_RETRY_AFTER)%Z, SecWrongPeer, "device_locked_out")
  end.

Definition transition_verifying (now : clock) (state : P2PState)
    (call_id our_party_id : string) (event : Event) : TransitionResult :=
  match event with
  | VerifyOk =>
      ok (Open call_id (now 0))
        [ResetIdle; DrainOutbound;
         EmitTelemetry (StateTransition "Verifying" "Open" "verify_ok");
         EmitTelemetry (HandshakeCompleted 0 0 0)]
  | VerifyFail reason =>
      let '(retry_after, security_kind, reason_str) := verify_fail_info now reason in
      ok (Failed reason_str retry_after)
        [SendHangup call_id our_party_id reason_str;
         TearDownChannel reason_str;
         EmitTelemetry (SecurityEvent security_kind None);
         EmitTelemetry (StateTransition "Verifying" "Failed" reason_str)]
  | ChannelEvent (Channel.Closed reason) =>
      ok (Failed ("channel_closed_during_verify:" +:+ reason) (now 0%nat + DEFAULT_RETRY_AFTER)%Z)
        [EmitTelemetry (StateTransition "Verifying" "Failed" "channel_closed")]
  | ChannelEvent (Channel.Failure msg) =>
      ok (Failed ("channel_failure:" +:+ msg) (now 0%nat + ICE_TIMEOUT_RETRY_AFTER)%Z)
        [TearDownChannel "channel_failure";
         EmitTelemetry (StateTransition "Verifying" "Failed" "channel_failure")]
  | ChannelEvent _ => stay state
  | CallEventReceived (Signaling.Hangup _) =>
      ok (Failed "peer_hangup" (now 0%nat + DEFAULT_RETRY_AFTER)%Z)
        [TearDownChannel "peer_hangup";
         EmitTelemetry (StateTransition "Verifying" "Failed" "peer_hangup")]
  | CallEventReceived _ => stay state
  | OutboundPressure | IdleTick | RetryReady => stay state
  | TurnRefreshed _ | TurnExpired => stay state
  | InviteTimeout | IceTimeout | DecryptStorm => illegal "verifying_unexpected_timer"
  | Start _ _ _ _ _ _ => illegal "double_start_while_verifying"
  | Hangup _ => stay state
  end.

Definition transition_open (now : clock) (state : P2PState) (call_id : string) (event : Event)
    : TransitionResult :=
  match event with
  | OutboundPressure => ok (Open call_id (now 0)) [ResetIdle]
  | ChannelEvent (Channel.Message _) => ok (Open call_id (now 0)) [ResetIdle]
  | IdleTick =>
      ok Idle
        [SendHangup call_id "<current>" "idle_timeout";
         TearDownChannel "idle_timeout";
         EmitTelemetry (StateTransition "Open" "Idle" "idle_timeout")]
  | TurnRefreshed servers => ok state [ConfigureIceServers servers]
  | TurnExpired =>
      ok (Failed "turn_expired" (now 0%nat + DEFAULT_RETRY_AFTER)%Z)
        [SendHangup call_id "<current>" "turn_expired";
         TearDownChannel "turn_expired";
         EmitTelemetry (StateTransition "Open" "Failed" "turn_expired")]
  | DecryptStorm =>
      ok (Failed "decrypt_storm" (now 0%nat + DECRYPT_STORM_RETRY_AFTER)%Z)
        [SendHangup call_id "<current>" "decrypt_storm";
         TearDownChannel "decrypt_storm";
         EmitTelemetry (SecurityEvent SecDecryptStorm None);
         EmitTelemetry (StateTransition "Open" "Failed" "decrypt_storm")]
  | CallEventReceived (Signaling.Hangup _) =>
      ok Idle
        [TearDownChannel "peer_hangup";
         EmitTelemetry (StateTransition "Open" "Idle" "peer_hangup")]
  | ChannelEvent (Channel.Closed reason) =>
      ok Idle
        [EmitTelemetry (StateTransition "Open" "Idle" ("channel_closed:" +:+ reason))]
  | ChannelEvent (Channel.Failure msg) =>
      ok (Failed ("channel_failure:" +:+ msg) (now 0%nat + DEFAULT_RETRY_AFTER)%Z)
        [TearDownChannel "channel_failure";
         EmitTelemetry (StateTransition "Open" "Failed" "channel_failure")]
  | ChannelEvent _ => stay state
  | CallEventReceived _ => stay state
  | RetryReady => stay state
  | InviteTimeout | IceTimeout | VerifyOk | VerifyFail _ => illegal "open_timer_events_dropped"
  | Start _ _ _ _ _ _ => illegal "double_start_while_open"
  | Hangup _ => stay state
  end.

Definition transition_failed (now : clock) (state : P2PState) (retry_after : Instant)
    (event : Event) : TransitionResult :=
  match event with
  | RetryReady =>
      if (retry_after <=? now 0%nat)%Z
      then ok Idle [EmitTelemetry (StateTransition "Failed" "Idle" "retry_ready")]
      else stay state
  | Start _ _ _ _ _ _ =>
      ok (FetchingTurn (now 0))
        [BeginFetchTurn;
         EmitTelemetry (StateTransition "Failed" "FetchingTurn" "start_from_failed")]
  | CallEventReceived (Invite inv) =>
      ok (Answering (inv_call_id inv) "<pending>" (inv_party_id inv))
        [EmitTelemetry (StateTransition "Failed" "Answering" "peer_invite")]
  | _ => stay state
  end.

Definition transition (now : clock) (state : P2PState) (event : Event) : TransitionResult :=
  match event with
  | Hangup reason => transition_hangup state reason
  | _ =>
      match state with
      | Idle => transition_idle now state event
      | FetchingTurn _ => transition_fetching_turn now state event
      | Inviting call_id _ _ our_party_id _ =>
          transition_inviting now state call_id our_party_id event
      | Answering call_id party_id _ => transition_answering now state call_id party_id event
      | Glare _ _ _ => transition_glare state
      | Connecting call_id our_party_id _ =>
          transition_connecting now state call_id our_party_id event
      | Verifying call_id our_party_id _ =>
          transition_verifying now state call_id our_party_id event
      | Open call_id _ => transition_open now state call_id event
      | Failed _ retry_after => transition_failed now state retry_after event
      end
  end.

(** ** Runs

    The driver keeps the state on [Illegal] and applies [next] on [Ok]. *)
Definition apply_result (s : P2PState) (r : TransitionResult) : P2PState * list Command :=
  match r with
  | TOk next commands => (next, commands)
  | Illegal _ => (s, [])
  end.

Definition step_fn (now : clock) (s : P2PState) (e : Event) : P2PState :=
  (apply_result s (transition now s e)).1.

(** [run s evs s']: handling [evs] in order, each at some clock, leads from
    [s] to [s']. *)
Inductive run (s : P2PState) : list Event → P2PState → Prop :=
| run_nil : run s [] s
| run_snoc evs s1 now e :
    run s evs s1 → run s (evs ++ [e]) (step_fn now s1 e).

#[export] Hint Constructors run : mxdx.

(** ** Vocabulary of the properties *)
Definition is_teardown (c : Command) : bool :=
  match c with TearDownChannel _ => true | _ => false end.

(** The [(from, to)] pairs of the [StateTransition] telemetry of a command list. *)
Definition reported (cs : list Command) : list (string * string) :=
  omap (λ c, match c with
             | EmitTelemetry (StateTransition from to _) => Some (from, to)
             | _ => None
             end) cs.

Definition in_call (s : P2PState) : bool :=
  match current_call s with Some _ => true | None => false end.

Definition is_channel_closed (e : Event) : bool :=
  match e with ChannelEvent (Channel.Closed _) => true | _ => false end.

Definition is_hangup (e : Event) : bool :=
  match e with Hangup _ => true | _ => false end.

(** Case analysis on the whole table: every state, event and inner match. *)
Ltac table s e H :=
  destruct s; destruct e as [| | | |[]|[]| | | | | |[]| |];
  cbn in H; unfold transition_hangup, transition_glare in H;
  cbn in H; unfold ok, illegal, stay in H; repeat case_match; simplify_eq/=.

(** ** Lemmas *)
Lemma transition_opens now s e s' cs :
  transition now s e = TOk s' cs → is_open s' = true → is_open s = false →
  ∃ c p n, s = Verifying c p n ∧ e = VerifyOk ∧ s' = Open c (now 0).
Proof. intros H Ho Hn. table s e H; eauto 10. Qed.

Lemma transition_verifying_entry now s e s' cs c p n :
  transition now s e = TOk s' cs → s' = Verifying c p n →
  s = s' ∨ (e = ChannelEvent Channel.Open ∧ current_call s = Some (c, p)).
Proof. intros H ->. table s e H; eauto. Qed.

Lemma transition_open_stays now s e s' cs c t :
  transition now s e = TOk s' cs → s' = Open c t →
  (∃ t0, s = Open c t0) ∨ (∃ p n, s = Verifying c p n ∧ e = VerifyOk).
Proof. intros H ->. table s e H; eauto. Qed.

Lemma step_fn_cases now s e :
  (∃ cs, transition now s e = TOk (step_fn now s e) cs) ∨
  (∃ note, transition now s e = Illegal note ∧ step_fn now s e = s).
Proof. unfold step_fn. destruct (transition now s e) eqn:E; simpl; eauto. Qed.

Lemma run_verifying evs c p n :
  run Idle evs (Verifying c p n) →
  ∃ evs1 evs2 s, evs = evs1 ++ ChannelEvent Channel.Open :: evs2 ∧
    run Idle evs1 s ∧ current_call s = Some (c, p).
Proof.
  remember (Verifying c p n) as sv eqn:Hsv. intros Hr. revert c p n Hsv.
  induction Hr as [|evs s1 now e Hr IH]; intros c p n Hsv; [done|].
  destruct (step_fn_cases now s1 e) as [[cs Hs]|[note [_ Hs]]].
  - destruct (transition_verifying_entry _ _ _ _ _ c p n Hs Hsv) as [Heq|[-> Hc]].
    + destruct (IH _ _ _ (eq_trans Heq Hsv)) as (evs1 & evs2 & s & -> & ? & ?).
      exists evs1, (evs2 ++ [e]), s. by rewrite <-app_assoc.
    + by exists evs, [], s1.
  - rewrite Hs in Hsv. destruct (IH _ _ _ Hsv) as (evs1 & evs2 & s & -> & ? & ?).
    exists evs1, (evs2 ++ [e]), s. by rewrite <-app_assoc.
Qed.

Lemma run_open evs c t :
  run Idle evs (Open c t) →
  ∃ evs1 evs2 p n, evs = evs1 ++ VerifyOk :: evs2 ∧ run Idle evs1 (Verifying c p n).
Proof.
  remember (Open c t) as so eqn:Hso. intros Hr. revert c t Hso.
  induction Hr as [|evs s1 now e Hr IH]; intros c t Hso; [done|].
  assert ((∃ t0, s1 = Open c t0) ∨ (∃ p n, s1 = Verifying c p n ∧ e = VerifyOk))
    as [[t0 ->]|(p & n & -> & ->)].
  { destruct (step_fn_cases now s1 e) as [[cs Hs]|[note [_ Hs]]].
    - by eapply transition_open_stays.
    - rewrite Hs in Hso. eauto. }
  - destruct (IH _ _ eq_refl) as (evs1 & evs2 & p & n & -> & ?).
    exists evs1, (evs2 ++ [e]), p, n. by rewrite <-app_assoc.
  - by exists evs, [], p, n.
Qed.

Lemma happy_path now evs :
  evs = [Start "@b:x" None "@a:x" "D" "!r" None; TurnRefreshed [];
         CallEventReceived (Answer (build_answer "<pending>" "p" ""));
         ChannelEvent Channel.Open; VerifyOk] →
  run Idle evs (Open "<pending>" (now 0)).
Proof.
  intros ->.
  pose proof (run_snoc Idle _ _ now (Start "@b:x" None "@a:x" "D" "!r" None) (run_nil Idle)) as H1.
  pose proof (run_snoc Idle _ _ now (TurnRefreshed []) H1) as H2.
  pose proof (run_snoc Idle _ _ now
    (CallEventReceived (Answer (build_answer "<pending>" "p" ""))) H2) as H3.
  pose proof (run_snoc Idle _ _ now (ChannelEvent Channel.Open) H3) as H4.
  exact (run_snoc Idle _ _ now VerifyOk H4).
Qed.

(** ** Properties *)

(** C1: no application data before verification. A run from [Idle] that ends
    in [Open] contains, in this order, the channel opening while that very call
    was being negotiated, and a [VerifyOk] handled while the machine was in
    [Verifying] for the same call id. *)
Theorem open_requires_verification evs c t (Hr : run Idle evs (Open c t)) :
  ∃ evs1 evs2 evs3 p n s,
    evs = evs1 ++ ChannelEvent Channel.Open :: evs2 ++ VerifyOk :: evs3 ∧
    run Idle evs1 s ∧ current_call s = Some (c, p) ∧
    run Idle (evs1 ++ ChannelEvent Channel.Open :: evs2) (Verifying c p n).
Proof.
  destruct (run_open _ _ _ Hr) as (evs1 & evs3 & p & n & -> & Hv).
  destruct (run_verifying _ _ _ _ Hv) as (evs0 & evs2 & s & -> & Hs & Hc).
  exists evs0, evs2, evs3, p, n, s. split_and!; try done. by rewrite <-app_assoc.
Qed.

Lemma open_requires_verification_witness :
  let evs := [Start "@b:x" None "@a:x" "D" "!r" None; TurnRefreshed [];
              CallEventReceived (Answer (build_answer "<pending>" "p" ""));
              ChannelEvent Channel.Open; VerifyOk] in
  ∃ evs1 evs2 evs3 p n s,
    evs = evs1 ++ ChannelEvent Channel.Open :: evs2 ++ VerifyOk :: evs3 ∧
    run Idle evs1 s ∧ current_call s = Some ("<pending>", p) ∧
    run Idle (evs1 ++ ChannelEvent Channel.Open :: evs2) (Verifying "<pending>" p n).
Proof.
  intros evs. apply (open_requires_verification evs "<pending>" 5).
  exact (happy_path (λ _, 5%Z) evs eq_refl).
Defined.

(** A call keeps its identity. Between two states that hold a call the
    call id never changes: an answer, a channel event or a timer of another
    call can end the call but never rename it. *)
Theorem call_id_preserved now s e s' cs c p c' p'
    (Ht : transition now s e = TOk s' cs)
    (Hc : current_call s = Some (c, p)) (Hc' : current_call s' = Some (c', p')) :
  c' = c.
Proof. table s e Ht; done. Qed.

(** The channel never outlives the call. Every transition that goes from
    a state holding a call to one that holds none commands a channel
    tear-down, unless the event is the backend reporting the channel closed. *)
Theorem leaving_call_tears_down now s e s' cs
    (Ht : transition now s e = TOk s' cs)
    (Hin : in_call s = true) (Hout : in_call s' = false)
    (Hc : is_channel_closed e = false) :
  existsb is_teardown cs = true.
Proof. unfold in_call in *. table s e Ht; done. Qed.

(** The [StateTransition] telemetry tells the truth. For every event but
    the caller's [Hangup], the commands report exactly one transition, with
    the names of the old and the new state, when the state's name changes, and
    none when it does not; a [Hangup] always reports the move to [Idle]. *)
Theorem telemetry_faithful now s e s' cs (Ht : transition now s e = TOk s' cs) :
  reported cs =
    if is_hangup e then [(name s, "Idle")]
    else if decide (name s = name s') then [] else [(name s, name s')].
Proof. table s e Ht; reflexivity. Qed.

(** The caller's [Hangup] is total: from every state it leads to [Idle],
    and it signals the hangup to the peer and tears the channel down exactly
    when the state holds a call, with that call's id. *)
Theorem hangup_resets now s reason :
  ∃ cs, transition now s (Hangup reason) = TOk Idle cs ∧
    (∀ c p r, SendHangup c p r ∈ cs ↔ current_call s = Some (c, p) ∧ r = reason) ∧
    existsb is_teardown cs = in_call s.
Proof.
  eexists. split; [reflexivity|]. unfold in_call.
  destruct (current_call s) as [[c0 p0]|]; simpl; split; try done;
    intros c p r; rewrite ?elem_of_cons, ?elem_of_nil; naive_solver.
Qed.

(** Backoff. A transition into [Failed] schedules the retry at least 30
    seconds (and at most 60) after the clock reading of the transition, and
    until that instant a [Failed] machine ignores everything except a caller's
    [Start] or [Hangup] and a peer's invite. *)
Theorem failed_backoff now s e s' cs r t
    (Ht : transition now s e = TOk s' cs) (Hf : s' = Failed r t) :
  (s = s' ∧ cs = []) ∨
  ((now 0%nat + from_secs 30 <= t <= now 0%nat + from_secs 60)%Z ∧
   ∀ now' e', (now' 0%nat < t)%Z →
     (∃ a b c d f g, e' = Start a b c d f g) ∨ (∃ h, e' = Hangup h) ∨
     (∃ inv, e' = CallEventReceived (Invite inv)) ∨
     transition now' s' e' = TOk s' []).
Proof.
  assert (Hlate : ∀ now' e', (now' 0%nat < t)%Z →
     (∃ a b c d f g, e' = Start a b c d f g) ∨ (∃ h, e' = Hangup h) ∨
     (∃ inv, e' = CallEventReceived (Invite inv)) ∨
     transition now' s' e' = TOk s' []).
  { intros now' e' Hlt. subst s'. destruct e' as [| | | |[]|[]| | | | | |[]| |]; simpl; eauto 15.
    rewrite (proj2 (Z.leb_gt _ _) Hlt). auto. }
  unfold from_secs. subst s'. table s e Ht; auto; right; (split; [|done]);
    unfold DEFAULT_RETRY_AFTER, ICE_TIMEOUT_RETRY_AFTER, DECRYPT_STORM_RETRY_AFTER, from_secs; lia.
Qed.

(** The [Glare] state is a trap: whatever events arrive, and however
    often, nothing but the caller's own [Hangup] leaves it (the resolver's
    verdict is never fed back by any event of the table). *)
Theorem glare_escapes_only_by_hangup our their res evs s
    (Hh : Forall (λ e, is_hangup e = false) evs) (Hr : run (Glare our their res) evs s) :
  s = Glare our their res.
Proof.
  induction Hr as [|evs s1 now e Hr IH]; [done|].
  apply Forall_app in Hh as [H1 H2]. rewrite (IH H1). inversion H2; subst.
  by destruct e.
Qed.

(** An answer must name the call it answers, a hangup need not. An
    [m.call.answer] whose call id is not the invite's is rejected with the
    state kept, but an [m.call.hangup] ends the live call, whatever call id
    it carries. *)
Theorem peer_hangup_ignores_call_id now s h
    (Hin : in_call s = true) (Hg : name s ≠ "Glare") :
  ∃ s' cs, transition now s (CallEventReceived (Signaling.Hangup h)) = TOk s' cs ∧
    in_call s' = false ∧ existsb is_teardown cs = true.
Proof. destruct s; try discriminate Hin; try congruence;
  (eexists _, _; split; [reflexivity | done]). Qed.
