(* ===== verification/Verify.v ===== *)
(** * Verify: the signed-transcript handshake ([transport/verify.rs])

    Byte strings are [list byte]; Ed25519 ([ed25519_dalek]) and base64 are
    interfaces, as are the [HandshakeSigner] and [HandshakePeerKeySource]
    traits, with the two implementations of the file as instances. *)
From S2P Require Import Prelude Text Glare P2PCrypto P2PState.

Definition DOMAIN_SEPARATION_TAG : Bytes := as_bytes "mxdx.p2p.verify.v1".
Definition FIELD_SEP : byte := Byte.x00.
Definition NONCE_LEN : nat := 32.
Definition ED25519_SIGNATURE_LEN : nat := 64.
Definition ED25519_PUBLIC_KEY_LEN : nat := 32.

Inductive VerifyError : Type :=
| ErrInvalidBase64 (msg : string)
| ErrInvalidSignatureLength (n : nat)
| ErrInvalidPublicKeyLength (n : nat)
| ErrInvalidNonceLength (n : nat)
| ErrInvalidPublicKey (msg : string)
| ErrSignatureMismatch
| ErrMissingSdpFingerprint
| ErrSigningFailed (msg : string).

Inductive HandshakeMsg : Type :=
| Challenge (nonce_b64 device_id : string)
| Response (signature_b64 signer_ed25519_b64 device_id : string).

Definition build_transcript (room_id session_uuid call_id : string)
    (offerer_nonce answerer_nonce : Bytes)
    (offerer_party_id answerer_party_id : string)
    (offerer_sdp_fingerprint answerer_sdp_fingerprint : string) : Bytes :=
  DOMAIN_SEPARATION_TAG ++ FIELD_SEP ::
  as_bytes room_id ++ FIELD_SEP ::
  as_bytes session_uuid ++ FIELD_SEP ::
  as_bytes call_id ++ offerer_nonce ++ answerer_nonce ++ FIELD_SEP ::
  as_bytes offerer_party_id ++ FIELD_SEP ::
  as_bytes answerer_party_id ++ FIELD_SEP ::
  as_bytes offerer_sdp_fingerprint ++ FIELD_SEP ::
  as_bytes answerer_sdp_fingerprint.

(** One turn of the loop of [extract_sdp_fingerprint]: the candidate of a line. *)
Definition fingerprint_of_line (line : Bytes) : option string :=
  match strip_prefix (as_bytes "a=fingerprint:") (trim line) with
  | None => None
  | Some rest =>
      let '(algo, fp) := split_ws rest in
      let fp := trim (default [] fp) in
      if eq_ignore_ascii_case algo (as_bytes "sha-256") && negb (bool_decide (fp = []))
      then Some (from_bytes (to_ascii_uppercase fp)) else None
  end.

Definition fingerprints (ls : list Bytes) : list string := omap fingerprint_of_line ls.

Definition extract_sdp_fingerprint (sdp : string) : result string VerifyError :=
  let candidates := fingerprints (lines (as_bytes sdp)) in
  match merge_sort String.le candidates with
  | [] => Err ErrMissingSdpFingerprint
  | fp :: _ => Ok fp
  end.

Definition canonical_sdp_fingerprints (offer_sdp answer_sdp : string)
    : result (string * string) VerifyError :=
  let? offerer_fp := extract_sdp_fingerprint offer_sdp in
  let? answerer_fp := extract_sdp_fingerprint answer_sdp in
  Ok (offerer_fp, answerer_fp).

Definition canonical_ordering {T} (our theirs : T) (we_are_offerer : bool) : T * T :=
  if we_are_offerer then (our, theirs) else (theirs, our).

Definition we_are_offerer_of (glare : option GlareResult) (sent_invite : bool) : bool :=
  match glare with
  | Some WeWin => true
  | Some TheyWin => false
  | None => sent_invite
  end.

(** [ed25519_dalek]: keys and signatures as bytes. *)
Class Ed25519 := {
  vk_from_bytes : Bytes → result unit string;
  vk_verify : Bytes → Bytes → Bytes → bool;
  sk_public : Bytes → Bytes;
  sk_sign : Bytes → Bytes → Bytes;
}.
Class Ed25519Laws `{Ed25519} := {
  sk_public_valid sk : vk_from_bytes (sk_public sk) = Ok tt;
  sk_public_length sk : length (sk_public sk) = ED25519_PUBLIC_KEY_LEN;
  sk_sign_length sk t : length (sk_sign sk t) = ED25519_SIGNATURE_LEN;
  vk_verify_sign sk t : vk_verify (sk_public sk) t (sk_sign sk t) = true;
}.

Class HandshakeSigner (S : Type) :=
  sign : S → Bytes → result (Bytes * Bytes) VerifyError.
Class HandshakePeerKeySource (K : Type) :=
  peer_public_key : K → string → string → option Bytes.

Record HandshakeParams := mkParams {
  hp_room_id : string;
  hp_session_uuid : string;
  hp_call_id : string;
  hp_our_nonce : Bytes;
  hp_our_party_id : string;
  hp_our_user_id : string;
  hp_our_device_id : string;
  hp_peer_user_id : string;
  hp_peer_device_id : string;
  hp_our_sdp_fingerprint : string;
  hp_we_are_offerer : bool
}.

Inductive HandshakeOutcome : Type :=
| Verified
| HoSignatureMismatch
| HoReplayDetected
| PeerDeviceUnknown
| HoInvalidPayload
| PeerKeyMismatch.

Definition to_event (o : HandshakeOutcome) : option VerifyFailureReason :=
  match o with
  | Verified => None
  | HoSignatureMismatch => Some SignatureMismatch
  | HoReplayDetected => Some ReplayDetected
  | PeerDeviceUnknown => Some SignatureMismatch
  | HoInvalidPayload => Some InvalidPayload
  | PeerKeyMismatch => Some SignatureMismatch
  end.

(** The transcript of a handshake from one side: the block that
    [verify_handshake_response] and [build_handshake_response] share. *)
Definition params_transcript (params : HandshakeParams) (peer_nonce : Bytes)
    (peer_party_id peer_sdp_fingerprint : string) : Bytes :=
  let '(off_nonce, ans_nonce) :=
    canonical_ordering (hp_our_nonce params) peer_nonce (hp_we_are_offerer params) in
  let '(off_party, ans_party) :=
    canonical_ordering (hp_our_party_id params) peer_party_id (hp_we_are_offerer params) in
  let '(off_fp, ans_fp) :=
    canonical_ordering (hp_our_sdp_fingerprint params) peer_sdp_fingerprint
      (hp_we_are_offerer params) in
  build_transcript (hp_room_id params) (hp_session_uuid params) (hp_call_id params)
    off_nonce ans_nonce off_party ans_party off_fp ans_fp.

Section handshake.
Context `{B64 : Base64} `{ED : Ed25519}.

Definition verify_peer_signature (pk signature transcript : Bytes) : result unit VerifyError :=
  let? vk := result_map_err ErrInvalidPublicKey (vk_from_bytes pk) in
  if vk_verify pk transcript signature then Ok tt else Err ErrSignatureMismatch.

(** [raw.as_slice().try_into()] to a fixed-size array. *)
Definition try_into_array (n : nat) (err : nat → VerifyError) (raw : Bytes)
    : result Bytes VerifyError :=
  if decide (length raw = n) then Ok raw else Err (err (length raw)).

Definition decode_nonce_b64 (b64 : string) : result Bytes VerifyError :=
  let? raw := result_map_err ErrInvalidBase64 (b64_decode b64) in
  try_into_array NONCE_LEN ErrInvalidNonceLength raw.

Definition decode_signature_b64 (b64 : string) : result Bytes VerifyError :=
  let? raw := result_map_err ErrInvalidBase64 (b64_decode b64) in
  try_into_array ED25519_SIGNATURE_LEN ErrInvalidSignatureLength raw.

Definition decode_public_key_b64 (b64 : string) : result Bytes VerifyError :=
  let? raw := result_map_err ErrInvalidBase64 (b64_decode b64) in
  try_into_array ED25519_PUBLIC_KEY_LEN ErrInvalidPublicKeyLength raw.

Definition encode_nonce (nonce : Bytes) : string := b64_encode nonce.
Definition encode_signature (sig : Bytes) : string := b64_encode sig.
Definition encode_public_key (pk : Bytes) : string := b64_encode pk.

Definition verify_handshake_response {K} `{HandshakePeerKeySource K}
    (params : HandshakeParams) (peer_nonce : Bytes)
    (peer_party_id peer_sdp_fingerprint : string)
    (peer_response : HandshakeMsg) (peer_keys : K) : HandshakeOutcome :=
  match peer_response with
  | Challenge _ _ => HoInvalidPayload
  | Response signature_b64 signer_pk_b64 response_device_id =>
      match decode_public_key_b64 signer_pk_b64 with
      | Err _ => HoInvalidPayload
      | Ok wire_pk =>
          match decode_signature_b64 signature_b64 with
          | Err _ => HoInvalidPayload
          | Ok signature =>
              match peer_public_key peer_keys (hp_peer_user_id params) response_device_id with
              | None => PeerDeviceUnknown
              | Some matrix_pk =>
                  if negb (bool_decide (wire_pk = matrix_pk)) then PeerKeyMismatch
                  else
                    match verify_peer_signature matrix_pk signature
                            (params_transcript params peer_nonce peer_party_id
                               peer_sdp_fingerprint) with
                    | Ok _ => Verified
                    | Err _ => HoSignatureMismatch
                    end
              end
          end
      end
  end.

Definition build_handshake_response {S} `{HandshakeSigner S}
    (params : HandshakeParams) (peer_nonce : Bytes)
    (peer_party_id peer_sdp_fingerprint : string) (signer : S)
    : result HandshakeMsg VerifyError :=
  let? sig_pk := sign signer
    (params_transcript params peer_nonce peer_party_id peer_sdp_fingerprint) in
  Ok (Response (encode_signature sig_pk.1) (encode_public_key sig_pk.2)
        (hp_our_device_id params)).

Definition build_handshake_challenge (params : HandshakeParams) : HandshakeMsg :=
  Challenge (encode_nonce (hp_our_nonce params)) (hp_our_device_id params).
End handshake.

(** [EphemeralKeySigner]: its seed, drawn from the OS generator. *)
Record EphemeralKeySigner := mkEphemeral { signing_key : Bytes }.
Definition ephemeral_public_key `{Ed25519} (s : EphemeralKeySigner) : Bytes :=
  sk_public (signing_key s).
#[export] Instance ephemeral_sign `{Ed25519} : HandshakeSigner EphemeralKeySigner :=
  λ s transcript, Ok (sk_sign (signing_key s) transcript, sk_public (signing_key s)).

(** [InMemoryPeerKeySource]. *)
Record InMemoryPeerKeySource := mkKeys { keys : gmap (string * string) Bytes }.
Definition keys_insert (user_id device_id : string) (key : Bytes) (s : InMemoryPeerKeySource)
    : InMemoryPeerKeySource :=
  mkKeys (<[(user_id, device_id) := key]> (keys s)).
#[export] Instance in_memory_peer_public_key : HandshakePeerKeySource InMemoryPeerKeySource :=
  λ s user device, keys s !! (user, device).

(** ** Lemmas *)
Definition nul_free (s : string) : Prop := FIELD_SEP ∉ as_bytes s.

Lemma encode_decode_array `{Base64, !Base64Laws} n err raw :
  length raw = n →
  (let? r := result_map_err ErrInvalidBase64 (b64_decode (b64_encode raw)) in
   try_into_array n err r) = Ok raw.
Proof. intros Hl. rewrite b64_decode_encode. simpl. unfold try_into_array. by rewrite decide_True. Qed.

Lemma params_transcript_mirror pa pb :
  hp_room_id pa = hp_room_id pb → hp_session_uuid pa = hp_session_uuid pb →
  hp_call_id pa = hp_call_id pb → hp_we_are_offerer pa = negb (hp_we_are_offerer pb) →
  params_transcript pa (hp_our_nonce pb) (hp_our_party_id pb) (hp_our_sdp_fingerprint pb)
  = params_transcript pb (hp_our_nonce pa) (hp_our_party_id pa) (hp_our_sdp_fingerprint pa).
Proof.
  intros Hr Hs Hc Ho. unfold params_transcript. rewrite Hr, Hs, Hc, Ho.
  by destruct (hp_we_are_offerer pb).
Qed.

Lemma nonces_inj (c c' : string) (n1 n1' n2 n2' : Bytes) :
  length n1 = length n1' → length n2 = length n2' →
  as_bytes c ++ n1 ++ n2 = as_bytes c' ++ n1' ++ n2' → c = c' ∧ n1 = n1' ∧ n2 = n2'.
Proof.
  intros H1 H2 E. rewrite !app_assoc in E.
  apply app_inj_2 in E as [E ->]; [|done]. apply app_inj_2 in E as [E ->]; [|done].
  split; [by apply (inj as_bytes)|done].
Qed.

(** The candidate [merge_sort] puts first. *)
Lemma sorted_head (l : list string) (fp : string) (r : list string) :
  merge_sort String.le l = fp :: r → fp ∈ l ∧ ∀ x, x ∈ l → String.le fp x.
Proof.
  intros E. pose proof (merge_sort_Permutation String.le l) as Hp.
  pose proof (StronglySorted_merge_sort String.le l) as Hs. rewrite E in Hp, Hs.
  split; [rewrite <-Hp; set_solver|]. intros x Hx. rewrite <-Hp in Hx.
  inversion Hs as [|? ? _ Hf]; subst. apply elem_of_cons in Hx as [->|Hx]; [done|].
  by apply (proj1 (Forall_forall _ _) Hf).
Qed.

Lemma merge_sort_perm (l l' : list string) :
  l ≡ₚ l' → merge_sort String.le l = merge_sort String.le l'.
Proof.
  intros Hp. apply (StronglySorted_unique String.le);
    [apply (StronglySorted_merge_sort _); apply _..|by rewrite !merge_sort_Permutation].
Qed.

(** Four text fields after a common prefix, each closed by the separator. *)
Lemma tail_assoc (x a b c d : Bytes) (s : byte) :
  x ++ s :: a ++ s :: b ++ s :: c ++ s :: d
  = (((x ++ s :: a) ++ s :: b) ++ s :: c) ++ s :: d.
Proof. by rewrite <-!app_assoc. Qed.

(** The hypothesis under which the separator does separate: the comment on
    [FIELD_SEP] takes it for granted of all text, but NUL is valid UTF-8. *)
Lemma transcript_nul_ambiguous :
  let nul := from_bytes [FIELD_SEP] in
  build_transcript (String.append "a" nul) "b" "c" [] [] "d" "e" "f" "g"
  = build_transcript "a" (String.append nul "b") "c" [] [] "d" "e" "f" "g".
Proof. vm_compute. reflexivity. Qed.

(** ** Properties *)

(** C2: the signed transcript determines the room, the session, the call,
    both nonces, both party ids and both fingerprints: two handshakes with the
    same transcript are the same handshake, provided that no field but the
    call id holds a NUL and that the nonces have their fixed width. *)
Theorem transcript_injective r r' u u' c c' n1 n1' n2 n2' p1 p1' p2 p2' f1 f1' f2 f2' :
  Forall nul_free [r; r'; u; u'; p1; p1'; p2; p2'; f1; f1'; f2; f2'] →
  length n1 = NONCE_LEN → length n1' = NONCE_LEN →
  length n2 = NONCE_LEN → length n2' = NONCE_LEN →
  build_transcript r u c n1 n2 p1 p2 f1 f2 = build_transcript r' u' c' n1' n2' p1' p2' f1' f2' →
  (r, u, c, n1, n2) = (r', u', c', n1', n2') ∧ (p1, p2, f1, f2) = (p1', p2', f1', f2').
Proof.
  intros Hf L1 L1' L2 L2' E. unfold build_transcript in E.
  decompose_Forall_hyps. unfold nul_free in *.
  apply sep_inj_front in E as [Er E]; [|done..].
  apply sep_inj_front in E as [Eu E]; [|done..].
  rewrite !(app_assoc (as_bytes c)), !(app_assoc (as_bytes c')), !(app_assoc (as_bytes c ++ _)),
    !(app_assoc (as_bytes c' ++ _)), !tail_assoc in E.
  do 3 (apply sep_inj_back in E as [E ?]; [|done..]).
  apply sep_inj_back in E as [E ?]; [|done..].
  rewrite <-!app_assoc in E. apply nonces_inj in E as (-> & -> & ->); [|congruence..].
  repeat match goal with H : as_bytes _ = as_bytes _ |- _ => apply (inj as_bytes) in H end.
  by subst.
Qed.


Section handshake_thms.
Context `{B64 : Base64, !Base64Laws, ED : Ed25519, !Ed25519Laws}.

(** [pb] is [pa] seen from the other end of the call. *)
Definition mirrored (pa pb : HandshakeParams) : Prop :=
  hp_room_id pa = hp_room_id pb ∧ hp_session_uuid pa = hp_session_uuid pb ∧
  hp_call_id pa = hp_call_id pb ∧ hp_we_are_offerer pa = negb (hp_we_are_offerer pb) ∧
  hp_peer_user_id pa = hp_our_user_id pb.

(** C6: two honest ends complete the handshake: the response the peer builds
    with its ephemeral key is [Verified], as soon as our key source holds that
    key for the peer's user and the device the response names. The
    [peer_device_id] we expected plays no part. *)
Theorem handshake_completes {K} `{HandshakePeerKeySource K} pa pb (s : EphemeralKeySigner)
    (ks : K) :
  mirrored pa pb →
  peer_public_key ks (hp_our_user_id pb) (hp_our_device_id pb) = Some (ephemeral_public_key s) →
  ∃ response,
    build_handshake_response pb (hp_our_nonce pa) (hp_our_party_id pa)
      (hp_our_sdp_fingerprint pa) s = Ok response ∧
    verify_handshake_response pa (hp_our_nonce pb) (hp_our_party_id pb)
      (hp_our_sdp_fingerprint pb) response ks = Verified.
Proof.
  intros (Hr & Hu & Hc & Ho & Hp) Hk. eexists. split; [reflexivity|].
  unfold verify_handshake_response, decode_public_key_b64, decode_signature_b64,
    encode_signature, encode_public_key. cbn [fst snd].
  rewrite (encode_decode_array ED25519_PUBLIC_KEY_LEN) by apply sk_public_length.
  rewrite (encode_decode_array ED25519_SIGNATURE_LEN) by apply sk_sign_length.
  rewrite Hp, Hk. unfold ephemeral_public_key. rewrite bool_decide_eq_true_2 by done. simpl.
  rewrite (params_transcript_mirror pa pb) by done.
  unfold verify_peer_signature. by rewrite sk_public_valid; simpl; rewrite vk_verify_sign.
Qed.

(** C10: what [Verified] certifies: the message was a response, the key it
    carries is the one our key source holds for the peer's user and the
    device it names, and that key signed the transcript of these parameters. *)
Theorem verified_sound {K} `{HandshakePeerKeySource K} params peer_nonce peer_party_id
    peer_fp msg (ks : K) :
  verify_handshake_response params peer_nonce peer_party_id peer_fp msg ks = Verified →
  ∃ sig_b64 pk_b64 dev sig pk,
    msg = Response sig_b64 pk_b64 dev ∧ decode_signature_b64 sig_b64 = Ok sig ∧
    decode_public_key_b64 pk_b64 = Ok pk ∧
    peer_public_key ks (hp_peer_user_id params) dev = Some pk ∧
    vk_verify pk (params_transcript params peer_nonce peer_party_id peer_fp) sig = true.
Proof.
  unfold verify_handshake_response, verify_peer_signature. intros Hv.
  repeat (case_match; simplify_eq/=); case_bool_decide; simplify_eq/=.
  eexists _, _, _, _, _. split_and!; try done.
  unfold result_map_err in *. repeat (case_match; simplify_eq/=); done.
Qed.
End handshake_thms.

(** The SDP fingerprint is canonical. It does not depend on the order of
    the SDP's lines; when it exists it is the least SHA-256 fingerprint of
    the SDP, and it fails exactly on an SDP without one. *)
Theorem sdp_fingerprint_canonical sdp sdp' :
  lines (as_bytes sdp) ≡ₚ lines (as_bytes sdp') →
  extract_sdp_fingerprint sdp = extract_sdp_fingerprint sdp' ∧
  match extract_sdp_fingerprint sdp with
  | Ok fp => fp ∈ fingerprints (lines (as_bytes sdp)) ∧
             ∀ fp', fp' ∈ fingerprints (lines (as_bytes sdp)) → String.le fp fp'
  | Err e => e = ErrMissingSdpFingerprint ∧ fingerprints (lines (as_bytes sdp)) = []
  end.
Proof.
  intros Hp. unfold extract_sdp_fingerprint. split.
  - by rewrite (merge_sort_perm _ (fingerprints (lines (as_bytes sdp'))))
      by (unfold fingerprints; by rewrite Hp).
  - destruct (merge_sort _ _) as [|fp r] eqn:E; [|by eapply sorted_head].
    split; [done|]. apply Permutation_nil_r. by rewrite <-E, merge_sort_Permutation.
Qed.

(** ** Witnesses *)

(** A stand-in for Ed25519 that satisfies the laws: the public key is the
    seed, a signature the key with the start of what it signs. *)
Definition toy_ed25519 : Ed25519 :=
  {| vk_from_bytes _ := Ok tt;
     sk_public sk := resize ED25519_PUBLIC_KEY_LEN Byte.x00 sk;
     sk_sign sk t := resize ED25519_SIGNATURE_LEN Byte.x00
                       (resize ED25519_PUBLIC_KEY_LEN Byte.x00 sk ++ t);
     vk_verify pk t sig := bool_decide (sig = resize ED25519_SIGNATURE_LEN Byte.x00 (pk ++ t)) |}.
Lemma toy_ed25519_laws : @Ed25519Laws toy_ed25519.
Proof.
  split; simpl; intros; try done; [apply length_resize..|by apply bool_decide_eq_true_2].
Qed.
#[local] Existing Instances toy_base64 toy_base64_laws toy_ed25519 toy_ed25519_laws.

Definition toy_params (user device party : string) (n : byte) (offerer : bool)
    : HandshakeParams :=
  mkParams "!r:x" "u" "c" (replicate 32 n) party user device
    (if decide (user = "@a:x") then "@b:x" else "@a:x") "EXPECTED" (String.append "FP-" party)
    offerer.
Definition toy_signer : EphemeralKeySigner := mkEphemeral [Byte.x05].
Definition toy_keys : InMemoryPeerKeySource :=
  keys_insert "@b:x" "DB" (ephemeral_public_key toy_signer) (mkKeys ∅).

Lemma transcript_injective_witness :
  ("!r:x", "u", "c", replicate 32 Byte.x01, replicate 32 Byte.x02)
    = ("!r:x", "u", "c", replicate 32 Byte.x01, replicate 32 Byte.x02) ∧
  ("pa", "pb", "fa", "fb") = ("pa", "pb", "fa", "fb").
Proof.
  apply transcript_injective; [|reflexivity..].
  repeat (apply Forall_cons; split;
    [unfold nul_free; apply (bool_decide_eq_true _); vm_compute; reflexivity|]).
  apply Forall_nil_2.
Defined.

Lemma handshake_completes_witness :
  let pa := toy_params "@a:x" "DA" "A" Byte.x01 true in
  let pb := toy_params "@b:x" "DB" "B" Byte.x02 false in
  ∃ response,
    build_handshake_response pb (hp_our_nonce pa) (hp_our_party_id pa)
      (hp_our_sdp_fingerprint pa) toy_signer = Ok response ∧
    verify_handshake_response pa (hp_our_nonce pb) (hp_our_party_id pb)
      (hp_our_sdp_fingerprint pb) response toy_keys = Verified.
Proof.
  intros pa pb. apply handshake_completes; [|by vm_compute].
  split_and!; vm_compute; reflexivity.
Defined.

Lemma verified_sound_witness :
  let pa := toy_params "@a:x" "DA" "A" Byte.x01 true in
  let t := params_transcript pa (replicate 32 Byte.x02) "B" "FP-B" in
  let msg := Response (encode_signature (sk_sign [Byte.x05] t))
               (encode_public_key (sk_public [Byte.x05])) "DB" in
  ∃ sig_b64 pk_b64 dev sig pk,
    msg = Response sig_b64 pk_b64 dev ∧ decode_signature_b64 sig_b64 = Ok sig ∧
    decode_public_key_b64 pk_b64 = Ok pk ∧
    peer_public_key toy_keys (hp_peer_user_id pa) dev = Some pk ∧
    vk_verify pk t sig = true.
Proof. intros pa t msg. apply verified_sound. vm_compute. reflexivity. Defined.

Definition toy_sdp (a b : string) : string :=
  String.append (String.append a (from_bytes [Byte.x0a]))
    (String.append b (from_bytes [Byte.x0a])).
