(* ===== verification/Driver.v ===== *)
(** * Driver: the transport driver ([transport/driver.rs], [transport/mod.rs])

    [DriverTask] holds what the task owns; each method is a function on it.
    The sends on Matrix, the telemetry and the wire frames are appended to
    [log]. The backend is any [WebRtcChannel], the cipher any [Aead]; JSON
    serialisation of a frame and the OS generator are parameters. *)
From S2P Require Import Prelude Glare Channel Signaling P2PCrypto Idle P2PState.

(** ** transport/mod.rs *)
Inductive SendOutcome : Type := SentP2P | FallbackToMatrix | ChannelClosed.

Record P2PStateSnapshot := mkSnapshot { snap_name : string; snap_is_open : bool }.

Definition snapshot_from (s : P2PState) : P2PStateSnapshot := mkSnapshot (name s) (is_open s).

Definition OUTBOUND_QUEUE_DEPTH : nat := 256.
Definition DECRYPT_FAILURE_RATE_PER_SEC : nat := 3.
Definition INBOUND_QUEUE_DEPTH : nat := 256.

(** ** driver.rs *)
Definition REPLAY_WINDOW_SIZE : nat := 16.
Definition DEFAULT_IDLE_WINDOW : Duration := from_secs 300.

Record P2PTransportConfig := mkConfig {
  our_user_id : string;
  our_device_id : string;
  room_id : string;
  session_uuid : option string;
  idle_window : Duration;
  outbound_queue_depth : nat;
  inbound_queue_depth : nat
}.

Definition config_new (our_user_id our_device_id room_id : string) : P2PTransportConfig :=
  mkConfig our_user_id our_device_id room_id None DEFAULT_IDLE_WINDOW
    OUTBOUND_QUEUE_DEPTH INBOUND_QUEUE_DEPTH.

Record OutboundRequest := mkOutbound { out_event_type : string; out_payload : Bytes }.

Inductive ControlMsg : Type :=
| CtlStart (peer_user_id : string) (peer_device_id : option string)
| CtlHangup (reason : string).

Inductive Effect : Type :=
| ETelemetry (k : TelemetryKind)
| ESignaling (c : Command)
| EWire (frame : Bytes)
| EClose (reason : string)
| EIllegal (note : string).

Record DriverTask (C : Type) := mkDriver {
  config : P2PTransportConfig;
  state : P2PState;
  snapshot : P2PStateSnapshot;
  channel : option C;
  crypto : option P2PCrypto;
  pending_outbound : list OutboundRequest;
  recent_nonces : list (Bytes * string);
  locked_peers : gset string;
  verify_failures : gmap string Z;
  last_decrypt_failures : list Instant;
  idle_watchdog : option IdleWatchdog;
  rng_draws : nat;
  log : list Effect
}.
Arguments mkDriver {C}.
Arguments config {C}. Arguments state {C}. Arguments snapshot {C}. Arguments channel {C}.
Arguments crypto {C}. Arguments pending_outbound {C}. Arguments recent_nonces {C}.
Arguments locked_peers {C}. Arguments verify_failures {C}. Arguments last_decrypt_failures {C}.
Arguments idle_watchdog {C}. Arguments rng_draws {C}. Arguments log {C}.

(** The initial task of [P2PTransport::spawn]. *)
Definition spawn_driver {C} (cfg : P2PTransportConfig) : DriverTask C :=
  mkDriver cfg Idle (snapshot_from Idle) None None [] [] ∅ ∅ [] None 0 [].

(** Field updates. *)
Section setters.
Context {C : Type}.
Implicit Types d : DriverTask C.
Definition set_state (s : P2PState) d : DriverTask C :=
  mkDriver (config d) s (snapshot d) (channel d) (crypto d) (pending_outbound d)
    (recent_nonces d) (locked_peers d) (verify_failures d) (last_decrypt_failures d)
    (idle_watchdog d) (rng_draws d) (log d).
Definition set_snapshot (sn : P2PStateSnapshot) d : DriverTask C :=
  mkDriver (config d) (state d) sn (channel d) (crypto d) (pending_outbound d)
    (recent_nonces d) (locked_peers d) (verify_failures d) (last_decrypt_failures d)
    (idle_watchdog d) (rng_draws d) (log d).
Definition set_channel (c : option C) d : DriverTask C :=
  mkDriver (config d) (state d) (snapshot d) c (crypto d) (pending_outbound d)
    (recent_nonces d) (locked_peers d) (verify_failures d) (last_decrypt_failures d)
    (idle_watchdog d) (rng_draws d) (log d).
Definition set_crypto (k : option P2PCrypto) d : DriverTask C :=
  mkDriver (config d) (state d) (snapshot d) (channel d) k (pending_outbound d)
    (recent_nonces d) (locked_peers d) (verify_failures d) (last_decrypt_failures d)
    (idle_watchdog d) (rng_draws d) (log d).
Definition set_pending (q : list OutboundRequest) d : DriverTask C :=
  mkDriver (config d) (state d) (snapshot d) (channel d) (crypto d) q
    (recent_nonces d) (locked_peers d) (verify_failures d) (last_decrypt_failures d)
    (idle_watchdog d) (rng_draws d) (log d).
Definition set_nonces (l : list (Bytes * string)) d : DriverTask C :=
  mkDriver (config d) (state d) (snapshot d) (channel d) (crypto d) (pending_outbound d)
    l (locked_peers d) (verify_failures d) (last_decrypt_failures d)
    (idle_watchdog d) (rng_draws d) (log d).
Definition set_locked (l : gset string) d : DriverTask C :=
  mkDriver (config d) (state d) (snapshot d) (channel d) (crypto d) (pending_outbound d)
    (recent_nonces d) l (verify_failures d) (last_decrypt_failures d)
    (idle_watchdog d) (rng_draws d) (log d).
Definition set_verify_failures (m : gmap string Z) d : DriverTask C :=
  mkDriver (config d) (state d) (snapshot d) (channel d) (crypto d) (pending_outbound d)
    (recent_nonces d) (locked_peers d) m (last_decrypt_failures d)
    (idle_watchdog d) (rng_draws d) (log d).
Definition set_decrypt_failures (l : list Instant) d : DriverTask C :=
  mkDriver (config d) (state d) (snapshot d) (channel d) (crypto d) (pending_outbound d)
    (recent_nonces d) (locked_peers d) (verify_failures d) l
    (idle_watchdog d) (rng_draws d) (log d).
Definition set_watchdog (w : option IdleWatchdog) d : DriverTask C :=
  mkDriver (config d) (state d) (snapshot d) (channel d) (crypto d) (pending_outbound d)
    (recent_nonces d) (locked_peers d) (verify_failures d) (last_decrypt_failures d)
    w (rng_draws d) (log d).
Definition set_rng (n : nat) d : DriverTask C :=
  mkDriver (config d) (state d) (snapshot d) (channel d) (crypto d) (pending_outbound d)
    (recent_nonces d) (locked_peers d) (verify_failures d) (last_decrypt_failures d)
    (idle_watchdog d) n (log d).
Definition emit (es : list Effect) d : DriverTask C :=
  mkDriver (config d) (state d) (snapshot d) (channel d) (crypto d) (pending_outbound d)
    (recent_nonces d) (locked_peers d) (verify_failures d) (last_decrypt_failures d)
    (idle_watchdog d) (rng_draws d) (log d ++ es).
End setters.

Section driver.
Context {C : Type} `{WC : WebRtcChannel C} `{B64 : Base64} `{AE : Aead}.
(** [serde_json::to_vec] on a frame; the [n]-th 12-byte draw of [OsRng]. *)
Context (frame_to_vec : EncryptedFrame → result Bytes string) (os_rng : nat → Bytes).
Implicit Types d : DriverTask C.

Definition update_snapshot d : DriverTask C := set_snapshot (snapshot_from (state d)) d.

Definition emit_telemetry (k : TelemetryKind) d : DriverTask C := emit [ETelemetry k] d.

Definition tear_down (reason : string) d : DriverTask C :=
  let d := match channel d with
           | Some ch => emit [EClose reason] (set_channel None d)
           | None => d
           end in
  let d := set_crypto None d in
  let d := set_pending [] d in
  set_watchdog None d.

(** First loop of [drain_outbound]: encrypt and serialise every request. *)
Fixpoint encrypt_all (k : P2PCrypto) (reqs : list OutboundRequest) (draws : nat)
    : list Bytes * nat * list Effect :=
  match reqs with
  | [] => ([], draws, [])
  | req :: reqs =>
      let '(wires, draws', effects) := encrypt_all k reqs (S draws) in
      match encrypt k (os_rng draws) (out_payload req) with
      | Err _ => (wires, draws', ETelemetry (Fallback "encrypt_failed") :: effects)
      | Ok frame =>
          match frame_to_vec frame with
          | Ok b => (b :: wires, draws', effects)
          | Err _ => (wires, draws', effects)
          end
      end
  end.

(** Second loop: send the wires one by one. *)
Fixpoint send_all (ch : C) (wires : list Bytes) : C * list Effect :=
  match wires with
  | [] => (ch, [])
  | wire :: wires =>
      let '(res, ch) := send ch wire in
      let '(ch, effects) := send_all ch wires in
      match res with
      | Ok _ => (ch, EWire wire :: effects)
      | Err _ => (ch, ETelemetry (Fallback "channel_send_failed") :: effects)
      end
  end.

Definition drain_outbound d : DriverTask C :=
  if negb (is_open (state d)) then d
  else
    match crypto d, channel d with
    | Some k, Some ch =>
        let '(wires, draws, effects) := encrypt_all k (pending_outbound d) (rng_draws d) in
        let '(ch, effects') := send_all ch wires in
        emit (effects ++ effects') (set_channel (Some ch) (set_rng draws (set_pending [] d)))
    | _, _ => d
    end.

Definition teardown_for_turn_refresh (reason : string) d : DriverTask C :=
  let d := tear_down reason d in
  let d := set_state Idle d in
  let d := update_snapshot d in
  let d := emit_telemetry (Fallback reason) d in
  emit_telemetry (StateTransition "Open" "Idle" reason) d.

Definition handle_configure_ice_servers (servers : list IceServer) d : DriverTask C :=
  if negb (is_open (state d)) then d
  else
    match channel d with
    | None => d
    | Some ch =>
        let '(res, ch) := restart_ice ch servers in
        let d := set_channel (Some ch) d in
        match res with
        | Ok _ => d
        | Err RestartIceUnsupported => teardown_for_turn_refresh "turn_refresh_teardown" d
        | Err e => teardown_for_turn_refresh ("ice_restart_failed:" +:+ ChannelError_fmt e) d
        end
    end.

Definition reset_watchdog d : DriverTask C :=
  set_watchdog (Idle.reset <$> idle_watchdog d) d.

(** [now]: the time at which the command is executed. *)
Definition apply_command (now : Instant) (cmd : Command) d : DriverTask C :=
  match cmd with
  | SendInvite _ _ _ _ _ | SendAnswer _ _ _ | SendCandidates _ _ _
  | SendHangup _ _ _ | SendSelectAnswer _ _ _ => emit [ESignaling cmd] d
  | StartVerifying _ => d
  | BeginFetchTurn => d
  | ConfigureIceServers servers => handle_configure_ice_servers servers d
  | TearDownChannel reason => tear_down reason d
  | ResetIdle =>
      match idle_watchdog d with
      | None =>
          if is_open (state d)
          then set_watchdog (Some (Idle.spawn (idle_window (config d)) now)) d
          else d
      | Some _ => reset_watchdog d
      end
  | DrainOutbound => drain_outbound d
  | EmitTelemetry kind => emit_telemetry kind d
  | Schedule _ _ => d
  | LockoutDevice peer => set_locked ({[peer]} ∪ locked_peers d) d
  end.

Definition apply_commands (now : Instant) (cmds : list Command) d : DriverTask C :=
  foldl (λ d cmd, apply_command now cmd d) d cmds.

(** Readings 0 and 1 of the clock belong to [transition], reading 2 is the
    time at which the commands run. *)
Definition dispatch (now : clock) (event : Event) d : DriverTask C :=
  let was_open := is_open (state d) in
  match transition now (state d) event with
  | TOk next commands =>
      let d := set_state next d in
      let d := update_snapshot d in
      let d := apply_commands (now 2) commands d in
      if was_open && negb (is_open (state d)) then set_watchdog None d else d
  | Illegal note => emit [EIllegal note] d
  end.

Definition handle_control (now : clock) (ctl : ControlMsg) d : DriverTask C :=
  match ctl with
  | CtlStart peer_user_id peer_device_id =>
      if decide (peer_user_id ∈ locked_peers d) then
        emit_telemetry (SecurityEvent SecWrongPeer (Some peer_user_id)) d
      else
        dispatch now (Start peer_user_id peer_device_id (our_user_id (config d))
          (our_device_id (config d)) (room_id (config d)) (session_uuid (config d))) d
  | CtlHangup reason => dispatch now (Hangup reason) d
  end.

(** ** The run loop

    The receivers of the task, and one iteration: the biased [select!] takes
    the first ready source in the order of the arms. *)
Record Mailboxes := mkMailboxes {
  mb_shutdown : bool;
  mb_idle : nat;
  mb_control : list ControlMsg;
  mb_call_event : list ParsedCallEvent;
  mb_outbound : list OutboundRequest
}.

Inductive Input : Type :=
| InShutdown
| InIdleTick
| InControl (c : ControlMsg)
| InCallEvent (e : ParsedCallEvent)
| InOutbound (r : OutboundRequest).

Definition select (mb : Mailboxes) : option (Input * Mailboxes) :=
  if mb_shutdown mb then Some (InShutdown, mb)
  else
    match mb_idle mb with
    | S n => Some (InIdleTick, mkMailboxes false n (mb_control mb) (mb_call_event mb) (mb_outbound mb))
    | O =>
        match mb_control mb with
        | c :: cs => Some (InControl c, mkMailboxes false 0 cs (mb_call_event mb) (mb_outbound mb))
        | [] =>
            match mb_call_event mb with
            | e :: es => Some (InCallEvent e, mkMailboxes false 0 [] es (mb_outbound mb))
            | [] =>
                match mb_outbound mb with
                | r :: rs => Some (InOutbound r, mkMailboxes false 0 [] [] rs)
                | [] => None
                end
            end
        end
    end.

(** The arm of the loop for one input; [true] means [run] returned. *)
Definition handle_input (now : clock) (i : Input) d : DriverTask C * bool :=
  match i with
  | InShutdown => (tear_down "shutdown" d, true)
  | InIdleTick => (dispatch now IdleTick d, false)
  | InControl ctl => (handle_control now ctl d, false)
  | InCallEvent e => (dispatch now (CallEventReceived e) d, false)
  | InOutbound out =>
      let d := set_pending (pending_outbound d ++ [out]) d in
      if is_open (state d) then (reset_watchdog (drain_outbound d), false)
      else (set_pending [] d, false)
  end.

(** [P2PTransport::try_send]: [alive] is false once the task has dropped its
    receiver. *)
Definition try_send (alive : bool) (depth : nat) (req : OutboundRequest)
    (sn : P2PStateSnapshot) (mb : Mailboxes) : SendOutcome * Mailboxes :=
  if negb (snap_is_open sn) then (FallbackToMatrix, mb)
  else if negb alive then (ChannelClosed, mb)
  else if decide (length (mb_outbound mb) < depth) then
    (SentP2P, mkMailboxes (mb_shutdown mb) (mb_idle mb) (mb_control mb) (mb_call_event mb)
                (mb_outbound mb ++ [req]))
  else (FallbackToMatrix, mb).

(** ** Handshake and inbound bookkeeping *)
Fixpoint drop_older (one_sec_ago : Instant) (l : list Instant) : list Instant :=
  match l with
  | front :: l' => if (front <? one_sec_ago)%Z then drop_older one_sec_ago l' else l
  | [] => []
  end.

Definition record_decrypt_failure (now : Instant) d : bool * DriverTask C :=
  (* [now.checked_sub(1s).unwrap_or(now)]: instants start at 0 *)
  let one_sec_ago := if decide (from_secs 1 <= now)%Z then (now - from_secs 1)%Z else now in
  let l := drop_older one_sec_ago (last_decrypt_failures d) ++ [now] in
  (bool_decide (DECRYPT_FAILURE_RATE_PER_SEC < length l), set_decrypt_failures l d).

Definition check_replay (call_id : string) (nonce : Bytes) d : bool * DriverTask C :=
  if existsb (λ x, bool_decide (x.1 = nonce) && str_eqb x.2 call_id) (recent_nonces d)
  then (true, d)
  else
    let l := if decide (REPLAY_WINDOW_SIZE ≤ length (recent_nonces d))
             then tail (recent_nonces d) else recent_nonces d in
    (false, set_nonces (l ++ [(nonce, call_id)]) d).

Definition bump_verify_failure (peer : string) d : bool * DriverTask C :=
  let counter := wrap 32 (default 0%Z (verify_failures d !! peer) + 1) in
  let d := set_verify_failures (<[peer := counter]> (verify_failures d)) d in
  if (3 <=? counter)%Z then
    (true, emit_telemetry (SecurityEvent SecWrongPeer (Some peer))
             (set_locked ({[peer]} ∪ locked_peers d) d))
  else (false, d).
End driver.

#[global] Arguments tear_down : simpl never.
#[global] Arguments drain_outbound : simpl never.
#[global] Arguments handle_configure_ice_servers : simpl never.
#[global] Arguments dispatch : simpl never.

(** ** Runs of the driver *)
Section runs.
Context {C : Type} `{WC : WebRtcChannel C} `{B64 : Base64} `{AE : Aead}.
Context (frame_to_vec : EncryptedFrame → result Bytes string) (os_rng : nat → Bytes).
Implicit Types d : DriverTask C.

#[local] Abbreviation handle := (handle_input frame_to_vec os_rng).

(** States reached from [d] by handling inputs. *)
Inductive reach (d : DriverTask C) : DriverTask C → Prop :=
| reach_refl : reach d d
| reach_step d1 now i : reach d d1 → reach d (handle now i d1).1.

(** The fields only the handshake bookkeeping writes. *)
Definition book d :=
  (config d, recent_nonces d, verify_failures d, last_decrypt_failures d).

Lemma book_inv d d' :
  book d = book d' →
  config d = config d' ∧ recent_nonces d = recent_nonces d' ∧
  verify_failures d = verify_failures d' ∧ last_decrypt_failures d = last_decrypt_failures d'.
Proof. by intros [= -> -> -> ->]. Qed.

Lemma tear_down_frame r d :
  state (tear_down r d) = state d ∧ snapshot (tear_down r d) = snapshot d ∧
  book (tear_down r d) = book d ∧ locked_peers (tear_down r d) = locked_peers d ∧
  idle_watchdog (tear_down r d) = None ∧ channel (tear_down r d) = None ∧
  crypto (tear_down r d) = None ∧ pending_outbound (tear_down r d) = [].
Proof. unfold tear_down. destruct (channel d) eqn:E; by split_and!. Qed.

Lemma drain_frame d :
  let d' := drain_outbound frame_to_vec os_rng d in
  state d' = state d ∧ snapshot d' = snapshot d ∧ book d' = book d ∧
  locked_peers d' = locked_peers d ∧ idle_watchdog d' = idle_watchdog d ∧
  (channel d = None → channel d' = None) ∧ crypto d' = crypto d.
Proof.
  unfold drain_outbound. destruct (is_open (state d)); simpl; [|done].
  destruct (crypto d) eqn:Ec; [|done]. destruct (channel d) eqn:Eh; [|done].
  destruct (encrypt_all _ _ _ _ _) as [[ws n] es]. destruct (send_all _ _) as [ch es'].
  split_and!; done.
Qed.

Lemma configure_frame sv d :
  let d' := handle_configure_ice_servers sv d in
  book d' = book d ∧ locked_peers d' = locked_peers d ∧
  (snapshot d = snapshot_from (state d) → snapshot d' = snapshot_from (state d')) ∧
  (channel d = None → d' = d) ∧
  ((state d' = state d ∧ idle_watchdog d' = idle_watchdog d) ∨
   (state d' = Idle ∧ idle_watchdog d' = None)).
Proof.
  unfold handle_configure_ice_servers. destruct (is_open (state d)); simpl; [|auto 10].
  destruct (channel d) as [ch|]; [|auto 10].
  destruct (restart_ice ch sv) as [[?|[]] ch']; simpl; auto 10;
    (split_and!; auto; done).
Qed.

(** What every command keeps, [wo] standing for "was open before". *)
Definition cmd_inv (wo : bool) d : Prop :=
  snapshot d = snapshot_from (state d) ∧
  (idle_watchdog d ≠ None → wo = true ∨ is_open (state d) = true).

Lemma apply_command_frame now c d :
  let d' := apply_command frame_to_vec os_rng now c d in
  book d' = book d ∧ locked_peers d ⊆ locked_peers d'.
Proof.
  destruct c; cbn [apply_command]; try (split; [done|set_solver]).
  - destruct (tear_down_frame reason d) as (_ & _ & -> & -> & _). done.
  - destruct (configure_frame servers d) as (-> & -> & _). done.
  - destruct (idle_watchdog d); [done|]. by destruct (is_open _).
  - destruct (drain_frame d) as (_ & _ & -> & -> & _). done.
Qed.

Lemma apply_command_inv wo now c d :
  cmd_inv wo d → cmd_inv wo (apply_command frame_to_vec os_rng now c d).
Proof.
  unfold cmd_inv. intros [Hs Hw]. destruct c; cbn [apply_command]; try (split; [exact Hs|exact Hw]).
  - destruct (tear_down_frame reason d) as (-> & -> & _ & _ & -> & _). done.
  - destruct (configure_frame servers d) as (_ & _ & H & _ & [[H1 H2]|[H1 H2]]);
      (split; [by apply H|]); rewrite H1, H2; done.
  - destruct (idle_watchdog d) eqn:E; simpl.
    + split; [done|]. intros _. by apply Hw.
    + destruct (is_open (state d)) eqn:Eo; simpl; [auto|].
      rewrite E. split; [done|]. by intros [].
  - destruct (drain_frame d) as (-> & -> & _ & _ & -> & _). done.
Qed.

Lemma apply_commands_frame now cs d :
  let d' := apply_commands frame_to_vec os_rng now cs d in
  book d' = book d ∧ locked_peers d ⊆ locked_peers d'.
Proof.
  unfold apply_commands. revert d. induction cs as [|c cs IH]; intros d; [done|]. simpl.
  destruct (IH (apply_command frame_to_vec os_rng now c d)) as [-> H].
  destruct (apply_command_frame now c d) as [-> H']. split; [done|set_solver].
Qed.

Lemma apply_commands_inv wo now cs d :
  cmd_inv wo d → cmd_inv wo (apply_commands frame_to_vec os_rng now cs d).
Proof.
  unfold apply_commands. revert d. induction cs as [|c cs IH]; intros d H; [done|].
  simpl. by apply IH, apply_command_inv.
Qed.

(** The driver's invariant. *)
Definition driver_ok d : Prop :=
  snapshot d = snapshot_from (state d) ∧
  (idle_watchdog d ≠ None → is_open (state d) = true) ∧
  length (recent_nonces d) ≤ REPLAY_WINDOW_SIZE.

Lemma dispatch_frame now e d :
  let d' := dispatch frame_to_vec os_rng now e d in
  book d' = book d ∧ locked_peers d ⊆ locked_peers d'.
Proof.
  unfold dispatch. destruct (transition now (state d) e) as [next cs|note]; [|done].
  destruct (apply_commands_frame (now 2) cs (update_snapshot (set_state next d))) as [H1 H2].
  simpl in *. destruct (_ && _); done.
Qed.

Lemma dispatch_ok now e d : driver_ok d → driver_ok (dispatch frame_to_vec os_rng now e d).
Proof.
  intros (Hs & Hw & Hn).
  assert (Hbook : length (recent_nonces (dispatch frame_to_vec os_rng now e d))
                  ≤ REPLAY_WINDOW_SIZE).
  { destruct (dispatch_frame now e d) as [(_ & -> & _)%book_inv _]. done. }
  unfold driver_ok. revert Hbook. unfold dispatch.
  destruct (transition now (state d) e) as [next cs|note]; [|done]. intros Hbook.
  destruct (apply_commands_inv (is_open (state d)) (now 2) cs
              (update_snapshot (set_state next d))) as [Hs' Hw'].
  { split; [done|]. simpl. intros H. left. by apply Hw. }
  set (d' := apply_commands frame_to_vec os_rng (now 2) cs (update_snapshot (set_state next d)))
    in *.
  destruct (is_open (state d)), (is_open (state d')) eqn:Eo; simpl in *;
    (split_and!; auto; try done); naive_solver.
Qed.

Lemma handle_frame now i d :
  book (handle now i d).1 = book d ∧ locked_peers d ⊆ locked_peers (handle now i d).1.
Proof.
  destruct i as [| |[]| |]; cbn [handle_input handle_control fst]; try apply dispatch_frame.
  - destruct (tear_down_frame "shutdown" d) as (_ & _ & -> & -> & _). done.
  - case_decide; [done|]. apply dispatch_frame.
  - cbn zeta. change (state (set_pending _ d)) with (state d).
    destruct (is_open (state d)) eqn:E; [|done].
    destruct (drain_frame (set_pending (pending_outbound d ++ [r]) d)) as (_ & _ & H1 & H2 & _).
    unfold reset_watchdog. cbn [fst locked_peers set_watchdog]. rewrite H2.
    split; [exact H1|done].
Qed.

Lemma reach_frame d d' : reach d d' → book d' = book d ∧ locked_peers d ⊆ locked_peers d'.
Proof.
  induction 1 as [|d1 now i _ [IH1 IH2]]; [done|].
  destruct (handle_frame now i d1) as [-> H]. split; [done|set_solver].
Qed.

(** The states the run loop's own events can lead to. *)
Definition unwired d : Prop :=
  channel d = None ∧ crypto d = None ∧ idle_watchdog d = None ∧
  snapshot d = snapshot_from (state d) ∧
  match state d with
  | Idle | FetchingTurn _ | Answering _ _ _ | Failed _ _ => True
  | _ => False
  end.

Definition loop_event (e : Event) : bool :=
  match e with
  | Start _ _ _ _ _ _ | Hangup _ | IdleTick | CallEventReceived _ => true
  | _ => false
  end.

Lemma unwired_not_open d : unwired d → is_open (state d) = false.
Proof. intros (_ & _ & _ & _ & H). by destruct (state d). Qed.

Lemma apply_command_unwired now c d :
  unwired d → unwired (apply_command frame_to_vec os_rng now c d).
Proof.
  intros H. pose proof (unwired_not_open d H) as Hno. pose proof H as (Hc & Hk & Hw & Hs & Hst).
  destruct c; cbn [apply_command]; try exact H.
  - destruct (tear_down_frame reason d) as (E1 & E2 & _ & _ & E3 & E4 & E5 & _).
    unfold unwired. by rewrite E1, E2, E3, E4, E5.
  - unfold handle_configure_ice_servers. by rewrite Hno.
  - by rewrite Hw, Hno.
  - unfold drain_outbound. by rewrite Hno.
Qed.

Lemma apply_commands_unwired now cs d :
  unwired d → unwired (apply_commands frame_to_vec os_rng now cs d).
Proof.
  unfold apply_commands. revert d. induction cs as [|c cs IH]; intros d H; [done|].
  simpl. by apply IH, apply_command_unwired.
Qed.

Lemma dispatch_unwired now e d :
  loop_event e = true → unwired d → unwired (dispatch frame_to_vec os_rng now e d).
Proof.
  intros He H. pose proof (unwired_not_open d H) as Hno.
  unfold dispatch. rewrite Hno. simpl.
  destruct (transition now (state d) e) as [next cs|note] eqn:Et.
  - apply apply_commands_unwired. destruct H as (Hc & Hk & Hw & _ & Hst).
    unfold unwired. simpl. split_and!; try done.
    destruct (state d) as [| | | | | | | |] eqn:Es; try done; destruct e as [| | | |[]| | | | | | | | |]; try done;
      cbn in Et; unfold ok, stay, illegal, transition_hangup in Et; repeat case_match;
      simplify_eq/=; done.
  - exact H.
Qed.

Lemma handle_unwired now i d : unwired d → unwired (handle now i d).1.
Proof.
  intros H. destruct i as [| |[]| |]; cbn [handle_input handle_control fst];
    try by apply dispatch_unwired.
  - exact (apply_command_unwired 0 (TearDownChannel "shutdown") d H).
  - case_decide; [exact H|by apply dispatch_unwired].
  - cbn zeta. change (state (set_pending _ d)) with (state d).
    rewrite (unwired_not_open d H). exact H.
Qed.

(** The driver task as wired. Whatever sequence of ticks, control
    messages, call events and outbound payloads the run loop handles, the
    machine never gets past [Answering]: it is never [Open], owns no channel
    and no session key, and [try_send] always tells the caller to fall back
    to Matrix. *)
Theorem run_loop_never_opens cfg d (Hr : reach (spawn_driver cfg) d) :
  unwired d ∧ ∀ alive depth req mb, (try_send alive depth req (snapshot d) mb).1 = FallbackToMatrix.
Proof.
  assert (Hu : unwired d).
  { induction Hr as [|d1 now i _ IH]; [done|]. by apply handle_unwired. }
  split; [done|]. intros. unfold try_send.
  pose proof Hu as (_ & _ & _ & -> & _). simpl. by rewrite (unwired_not_open d Hu).
Qed.

(** What the driver always keeps: the snapshot callers read is that of
    the current state, an idle watchdog exists only while the state is
    [Open], and the replay window holds at most 16 entries; every input and
    every piece of handshake bookkeeping preserves it. *)
Theorem driver_invariant now i d call_id nonce peer (Hok : driver_ok d) :
  driver_ok (handle now i d).1 ∧
  driver_ok (check_replay call_id nonce d).2 ∧
  driver_ok (bump_verify_failure peer d).2 ∧
  driver_ok (record_decrypt_failure (now 0) d).2.
Proof.
  pose proof Hok as (Hs & Hw & Hn). split_and!.
  - destruct i as [| |[]| |]; cbn [handle_input handle_control fst]; try by apply dispatch_ok.
    + destruct (tear_down_frame "shutdown" d) as (E1 & E2 & (_ & E3 & _)%book_inv & _ & E4 & _).
      unfold driver_ok. by rewrite E1, E2, E3, E4.
    + case_decide; [done|by apply dispatch_ok].
    + cbn zeta. change (state (set_pending _ d)) with (state d).
      destruct (is_open (state d)) eqn:Eo; [|done].
      destruct (drain_frame (set_pending (pending_outbound d ++ [r]) d))
        as (E1 & E2 & (_ & E3 & _)%book_inv & _ & _).
      unfold driver_ok, reset_watchdog.
      cbn [fst snapshot state recent_nonces idle_watchdog set_watchdog].
      rewrite E1, E2, E3. done.
  - unfold check_replay. case_match; [done|]. unfold driver_ok; simpl. split_and!; try done.
    rewrite length_app. simpl. case_decide; [|lia].
    destruct (recent_nonces d); simpl in *; unfold REPLAY_WINDOW_SIZE in *; lia.
  - unfold bump_verify_failure. by case_match.
  - done.
Qed.

(** ** Strikes and lock-out *)
Lemma bump_verify_failures peer d :
  verify_failures (bump_verify_failure peer d).2
  = <[peer := wrap 32 (default 0%Z (verify_failures d !! peer) + 1)]> (verify_failures d).
Proof. unfold bump_verify_failure. by case_match. Qed.

(** Three strikes. After three verification failures against a peer,
    with any inputs handled in between and any inputs handled after, the peer
    is locked: a caller's [start] towards it is refused, leaving the whole
    task as it was but for one [WrongPeer] security event. *)
Theorem three_strikes_lock peer d0 d1 d2 d3 now dev
    (H0 : verify_failures d0 !! peer = None)
    (H1 : reach (bump_verify_failure peer d0).2 d1)
    (H2 : reach (bump_verify_failure peer d1).2 d2)
    (H3 : reach (bump_verify_failure peer d2).2 d3) :
  (bump_verify_failure peer d2).1 = true ∧
  handle now (InControl (CtlStart peer dev)) d3
  = (emit [ETelemetry (SecurityEvent SecWrongPeer (Some peer))] d3, false).
Proof.
  apply reach_frame in H1 as [(_ & _ & V1 & _)%book_inv _],
    H2 as [(_ & _ & V2 & _)%book_inv _], H3 as [_ L3].
  rewrite bump_verify_failures in V1, V2. rewrite H0 in V1. simpl in V1.
  assert (E1 : verify_failures d1 !! peer = Some 1%Z) by (rewrite V1; by simplify_map_eq).
  rewrite E1 in V2. simpl in V2.
  assert (E2 : verify_failures d2 !! peer = Some 2%Z) by (rewrite V2; by simplify_map_eq).
  unfold bump_verify_failure in *. rewrite E2 in *.
  change (3 <=? wrap 32 (default 0 (Some 2) + 1))%Z with true in *. simpl in *. split; [done|].
  rewrite decide_True by set_solver. done.
Qed.

(** ** Replay window *)
Definition check_all (l : list (string * Bytes)) d : DriverTask C :=
  foldl (λ d p, (check_replay p.1 p.2 d).2) d l.

Lemma check_replay_hit c n d : (n, c) ∈ recent_nonces d → (check_replay c n d).1 = true.
Proof.
  intros Hin. unfold check_replay.
  assert (existsb (λ x, bool_decide (x.1 = n) && str_eqb x.2 c) (recent_nonces d) = true)
    as ->; [|done].
  apply existsb_exists. exists (n, c). split; [by apply list_elem_of_In|].
  simpl. by rewrite bool_decide_eq_true_2, str_eqb_refl.
Qed.

Lemma check_replay_remembers c n d : (n, c) ∈ recent_nonces (check_replay c n d).2.
Proof.
  unfold check_replay. case_match eqn:E; simpl.
  - apply existsb_exists in E as [[n' c'] [Hin Hb]].
    apply andb_true_iff in Hb as [Hn%bool_decide_eq_true Hc%str_eqb_true].
    simpl in *. subst. by apply list_elem_of_In.
  - apply elem_of_app. right. by apply list_elem_of_singleton.
Qed.

(** The pair survives, with at most [k] newer entries behind it. *)
Definition within (k : nat) (p : Bytes * string) d : Prop :=
  ∃ pre post, recent_nonces d = pre ++ p :: post ∧ length post ≤ k.

Lemma check_replay_within k p q d :
  k < REPLAY_WINDOW_SIZE - 1 → length (recent_nonces d) ≤ REPLAY_WINDOW_SIZE →
  within k p d → within (S k) p (check_replay q.1 q.2 d).2.
Proof.
  intros Hk Hl (pre & post & E & Hp). unfold check_replay, within.
  case_match; simpl; [exists pre, post; auto with lia|]. unfold REPLAY_WINDOW_SIZE in *.
  case_decide.
  - destruct pre as [|x pre]; simpl in *.
    + exfalso. revert H0. rewrite E. simpl. lia.
    + exists pre, (post ++ [(q.2, q.1)]). rewrite E. simpl. rewrite <-app_assoc. simpl.
      split; [done|]. rewrite length_app. simpl. lia.
  - exists pre, (post ++ [(q.2, q.1)]). rewrite E, <-app_assoc. simpl.
    split; [done|]. rewrite length_app. simpl. lia.
Qed.

Lemma check_replay_window_bound c n d :
  length (recent_nonces d) ≤ REPLAY_WINDOW_SIZE →
  length (recent_nonces (check_replay c n d).2) ≤ REPLAY_WINDOW_SIZE.
Proof.
  unfold check_replay. intros Hl. case_match; [done|]. simpl.
  rewrite length_app. simpl. case_decide; [|lia].
  destruct (recent_nonces d); simpl in *; unfold REPLAY_WINDOW_SIZE in *; lia.
Qed.

Lemma check_all_within k p l d :
  k + length l ≤ REPLAY_WINDOW_SIZE - 1 → length (recent_nonces d) ≤ REPLAY_WINDOW_SIZE →
  within k p d → within (k + length l) p (check_all l d).
Proof.
  revert k d. induction l as [|q l IH]; intros k d Hk Hl Hw; simpl in *.
  { by rewrite Nat.add_0_r. }
  replace (k + S (length l)) with (S k + length l) by lia.
  apply IH; [unfold REPLAY_WINDOW_SIZE in *; lia|by apply check_replay_window_bound|].
  apply check_replay_within; [unfold REPLAY_WINDOW_SIZE in *; lia|done|done].
Qed.

Lemma check_replay_new_within c n d :
  (check_replay c n d).1 = false → within 0 (n, c) (check_replay c n d).2.
Proof.
  unfold check_replay, within. case_match; [done|]. intros _. simpl.
  eexists _, []. split; [reflexivity|simpl; lia].
Qed.

(** Replay detection. A (call id, nonce) pair accepted as fresh is
    reported as a replay when it is seen again after at most 15 further
    checks of any pairs, and no pair is ever reported that is not in the
    window. *)
Theorem replay_detected c n l d
    (Hl : length (recent_nonces d) ≤ REPLAY_WINDOW_SIZE)
    (Hfresh : (check_replay c n d).1 = false) (Hk : length l ≤ REPLAY_WINDOW_SIZE - 1) :
  (check_replay c n (check_all l (check_replay c n d).2)).1 = true ∧
  (n, c) ∉ recent_nonces d.
Proof.
  split.
  - destruct (check_all_within 0 (n, c) l (check_replay c n d).2) as (pre & post & E & _).
    + lia.
    + by apply check_replay_window_bound.
    + by apply check_replay_new_within.
    + apply check_replay_hit. rewrite E. set_solver.
  - intros Hin. by rewrite (check_replay_hit c n d Hin) in Hfresh.
Qed.

(** ** Decrypt-failure rate *)
Definition recent (now : Instant) (l : list Instant) : list Instant :=
  filter (λ t, (now - from_secs 1 <= t)%Z) l.

Definition record_all (ts : list Instant) d : DriverTask C :=
  foldl (λ d t, (record_decrypt_failure t d).2) d ts.

Lemma drop_older_sorted b l :
  StronglySorted Z.le l → drop_older b l = filter (λ t, (b <= t)%Z) l.
Proof.
  induction 1 as [|t l Hs IH Hf]; [done|]. simpl. destruct (Z.ltb_spec t b).
  - by rewrite filter_cons_False by lia.
  - rewrite filter_cons_True, list_filter_all; [done| |lia].
    eapply Forall_impl; [exact Hf|]. simpl. lia.
Qed.

Lemma record_all_recent ts d :
  StronglySorted Z.le ts → Forall (λ t, (from_secs 1 <= t)%Z) ts →
  last_decrypt_failures d = [] →
  ∀ t0, last ts = Some t0 → last_decrypt_failures (record_all ts d) = recent t0 ts.
Proof.
  intros Hs Hf Hd. induction ts as [|t ts IH] using rev_ind; [done|]. intros t0.
  rewrite last_snoc. intros [= <-].
  apply StronglySorted_snoc_Forall in Hs as [Hts Hle].
  apply Forall_app in Hf as [Hf1 Hf2]. inversion_clear Hf2 as [|? ? Ht _].
  assert (record_all (ts ++ [t]) d = (record_decrypt_failure t (record_all ts d)).2) as ->
    by (unfold record_all; by rewrite foldl_app).
  unfold record_decrypt_failure. cbn [snd last_decrypt_failures set_decrypt_failures].
  rewrite decide_True by done. unfold recent. rewrite filter_app, filter_cons_True, filter_nil;
    [|unfold from_secs; lia]. f_equal.
  destruct (last ts) as [t1|] eqn:El.
  - rewrite (IH Hts Hf1 t1 eq_refl). unfold recent.
    assert (t1 <= t)%Z.
    { rewrite Forall_forall in Hle. apply Hle. apply last_Some in El as [l ->]. set_solver. }
    rewrite drop_older_sorted by by apply StronglySorted_filter.
    apply list_filter_filter_l. lia.
  - apply last_None in El as ->. simpl. by rewrite Hd.
Qed.

(** The decrypt-storm counter is exact. Fed with the failure times in
    order, the rolling queue makes [record_decrypt_failure] answer [true]
    precisely when more than three of all the failures so far, the current
    one included, lie within the last second. *)
Theorem decrypt_storm_rate ts now d
    (Hs : StronglySorted Z.le (ts ++ [now])) (Hf : Forall (λ t, (from_secs 1 <= t)%Z) (ts ++ [now]))
    (Hd : last_decrypt_failures d = []) :
  (record_decrypt_failure now (record_all ts d)).1
  = bool_decide (3 < length (recent now (ts ++ [now]))).
Proof.
  pose proof (record_all_recent (ts ++ [now]) d Hs Hf Hd now (last_snoc _ _)) as H.
  rewrite <-H. unfold record_all. rewrite foldl_app. reflexivity.
Qed.

(** ** Outbound path *)
Definition is_wire_or_fallback (e : Effect) : bool :=
  match e with EWire _ | ETelemetry (Fallback _) => true | _ => false end.

Definition is_signaling (e : Effect) : bool :=
  match e with ESignaling _ => true | _ => false end.

(** A frame on the wire carries a payload: it is the serialisation of a
    frame that the session key decrypts to that payload. *)
Definition carries (k : P2PCrypto) (req : OutboundRequest) (wire : Bytes) : Prop :=
  ∃ f, frame_to_vec f = Ok wire ∧ decrypt k f = Ok (out_payload req).

Lemma send_all_ok ch wires :
  (∀ ch b, is_ok (send ch b).1 = true) → (send_all ch wires).2 = EWire <$> wires.
Proof.
  intros Hs. revert ch. induction wires as [|w ws IH]; intros ch; [done|]. simpl.
  specialize (Hs ch w). destruct (send ch w) as [[] ch']; [|done].
  specialize (IH ch'). destruct (send_all ch' ws) as [ch'' es]. simpl in *. by rewrite IH.
Qed.

Lemma encrypt_all_ok `{!Base64Laws, !AeadLaws} k reqs n :
  (∀ i, length (os_rng i) = 12) → (∀ f, is_ok (frame_to_vec f) = true) →
  (∀ iv p, is_Some (aead_encrypt (cipher_key k) iv p)) →
  ∃ wires draws, encrypt_all frame_to_vec os_rng k reqs n = (wires, draws, []) ∧
    Forall2 (carries k) reqs wires.
Proof.
  intros Hrng Hvec Henc. revert n. induction reqs as [|r rs IH]; intros n.
  { exists [], n. split; [done|constructor]. }
  destruct (IH (S n)) as (ws & draws & E & HF). simpl. rewrite E.
  destruct (encrypt k (os_rng n) (out_payload r)) as [f|] eqn:Ef.
  - specialize (Hvec f). destruct (frame_to_vec f) as [b|] eqn:Ev; [|done].
    exists (b :: ws), draws. split; [done|]. constructor; [|done].
    exists f. split; [done|]. by eapply decrypt_encrypt.
  - unfold encrypt in Ef. destruct (Henc (os_rng n) (out_payload r)) as [c Hc].
    by rewrite Hc in Ef.
Qed.

(** C36: what [Open] promises. When the session is open, with a channel that
    accepts sends and a cipher that encrypts, draining the outbound queue
    puts on the wire one frame per queued payload, in queue order, each of
    which the session key decrypts to that payload, and empties the queue. *)
Theorem drain_outbound_delivers `{!Base64Laws, !AeadLaws} d k ch
    (Ho : is_open (state d) = true) (Hk : crypto d = Some k) (Hc : channel d = Some ch)
    (Hrng : ∀ i, length (os_rng i) = 12) (Hvec : ∀ f, is_ok (frame_to_vec f) = true)
    (Henc : ∀ iv p, is_Some (aead_encrypt (cipher_key k) iv p))
    (Hsend : ∀ ch b, is_ok (send ch b).1 = true) :
  let d' := drain_outbound frame_to_vec os_rng d in
  ∃ wires, log d' = log d ++ (EWire <$> wires) ∧
    Forall2 (carries k) (pending_outbound d) wires ∧ pending_outbound d' = [].
Proof.
  destruct (encrypt_all_ok k (pending_outbound d) (rng_draws d) Hrng Hvec Henc)
    as (wires & draws & E & HF).
  unfold drain_outbound. rewrite Ho, Hk, Hc, E. simpl.
  pose proof (send_all_ok ch wires Hsend) as Hs.
  destruct (send_all ch wires) as [ch' es]. simpl in *. subst es. by exists wires.
Qed.

Lemma dispatch_hangup_open now reason d c t :
  state d = Open c t →
  let d1 := dispatch frame_to_vec os_rng now (Hangup reason) d in
  state d1 = Idle ∧ pending_outbound d1 = [] ∧
  ∃ es, log d1 = log d ++ es ∧ existsb is_wire_or_fallback es = false.
Proof.
  intros Est. unfold dispatch. rewrite Est. simpl. unfold tear_down. simpl.
  destruct (channel d) eqn:Ec; simpl; (split_and!; try done);
    rewrite <-!app_assoc; eexists; (split; reflexivity).
Qed.

(** An accepted send can be lost. [try_send] answers [SentP2P] as soon
    as the payload is queued; if a hangup is already waiting for the driver,
    the loop handles it first and then drops the payload: the log shows
    neither a wire frame nor a fallback for it, and nothing is left queued. *)
Theorem accepted_send_lost now d req reason depth
    (Ho : is_open (state d) = true) (Hok : driver_ok d) (Hd : 0 < depth) :
  let mb := mkMailboxes false 0 [CtlHangup reason] [] [] in
  let '(out, mb1) := try_send true depth req (snapshot d) mb in
  out = SentP2P ∧
  ∃ mb2 mb3, select mb1 = Some (InControl (CtlHangup reason), mb2) ∧
    let d1 := (handle now (InControl (CtlHangup reason)) d).1 in
    select mb2 = Some (InOutbound req, mb3) ∧
    let d2 := (handle now (InOutbound req) d1).1 in
    state d2 = Idle ∧ pending_outbound d2 = [] ∧ select mb3 = None ∧
    ∃ es, log d2 = log d ++ es ∧ existsb is_wire_or_fallback es = false.
Proof.
  destruct Hok as (Hs & _ & _).
  destruct (state d) as [| | | | | | |c t|] eqn:Est; try discriminate Ho.
  unfold try_send. rewrite Hs. simpl. rewrite decide_True by done. split; [done|].
  eexists _, _. split; [reflexivity|]. split; [reflexivity|].
  cbn [handle_input handle_control fst].
  destruct (dispatch_hangup_open now reason d c t Est) as (H1 & H2 & es & H3 & H4).
  set (d1 := dispatch _ _ _ _ _) in *. cbn [state set_pending]. rewrite H1. simpl.
  split_and!; try done. by exists es.
Qed.

(** TURN rotation on a backend without ICE restart. A [TurnRefreshed]
    while [Open] tears the session down to [Idle] without telling the peer:
    no signaling command is emitted (unlike a [Hangup], which sends one), the
    channel is closed, and queued payloads are discarded. *)
Theorem turn_refresh_teardown_is_silent now d servers ch
    (Ho : is_open (state d) = true) (Hc : channel d = Some ch)
    (Hr : (restart_ice ch servers).1 = Err RestartIceUnsupported) :
  let d' := dispatch frame_to_vec os_rng now (TurnRefreshed servers) d in
  state d' = Idle ∧ channel d' = None ∧ crypto d' = None ∧ pending_outbound d' = [] ∧
  snapshot d' = snapshot_from Idle ∧
  ∃ es, log d' = log d ++ es ∧ existsb is_signaling es = false ∧
        EClose "turn_refresh_teardown" ∈ es.
Proof.
  destruct (state d) as [| | | | | | |c t|] eqn:Est; try discriminate Ho.
  unfold dispatch. rewrite Est. simpl. unfold handle_configure_ice_servers. simpl.
  rewrite Hc. destruct (restart_ice ch servers) as [res ch']. simpl in Hr.
  subst res. simpl. split_and!; try done.
  eexists. split; [rewrite <-!app_assoc; reflexivity|]. split; [reflexivity|set_solver].
Qed.
End runs.

(** ** Witnesses: a channel that accepts every send and, like the native
    backend, does not support ICE restart. *)
Definition null_channel : WebRtcChannel unit :=
  {| restart_ice _ _ := (Err RestartIceUnsupported, tt);
     send _ _ := (Ok tt, tt);
     close _ _ := (Ok tt, tt) |}.
#[local] Existing Instances null_channel toy_base64 toy_base64_laws toy_aead toy_aead_laws.

Definition toy_frame_to_vec (f : EncryptedFrame) : result Bytes string :=
  Ok (as_bytes (ciphertext f)).
Definition toy_rng (_ : nat) : Bytes := replicate 12 Byte.x07.
Definition toy_config : P2PTransportConfig := config_new "@a:x" "DEV" "!r:x".

(** An open session with one queued payload. *)
Definition toy_open : DriverTask unit :=
  set_pending [mkOutbound "t" [Byte.x68; Byte.x69]]
    (set_channel (Some tt) (set_crypto (Some (mkP2PCrypto [Byte.x01]))
      (update_snapshot (set_state (Open "c" 0) (spawn_driver toy_config))))).

Lemma drain_outbound_delivers_witness :
  let d' := drain_outbound toy_frame_to_vec toy_rng toy_open in
  ∃ wires, log d' = log toy_open ++ (EWire <$> wires) ∧
    Forall2 (carries toy_frame_to_vec (mkP2PCrypto [Byte.x01])) (pending_outbound toy_open) wires ∧
    pending_outbound d' = [].
Proof.
  apply (drain_outbound_delivers toy_frame_to_vec toy_rng toy_open (mkP2PCrypto [Byte.x01]) tt);
    try reflexivity. intros iv p. eexists. reflexivity.
Defined.
