(* ===== verification/Turn.v ===== *)
(** * Turn: TURN credentials and their refresh task ([turn.rs], native target)

    [url::Url] and the HTTP exchange of [reqwest] are interfaces. A
    [SystemTime] and a tokio [Instant] both panic when an addition leaves the
    range of 64-bit seconds, which the additions below make explicit: [None]
    is the panic. *)
From S2P Require Import Prelude.

Definition LOOPBACK_HOSTS : list string := ["localhost"; "127.0.0.1"; "::1"; "[::1]"].
Definition TURN_ENDPOINT_PATH : string := "/_matrix/client/v3/voip/turnServer".

(** [time + duration]: [None] is the panic on overflow. *)
Definition add_duration (t : Z) (d : Duration) : option Z :=
  if decide (t + d < from_secs (2 ^ 63))%Z then Some (t + d)%Z else None.
(** [a.duration_since(b).unwrap_or(0)], [a.saturating_duration_since(b)]. *)
Definition duration_since_or_zero (a b : Z) : Duration := Z.max 0 (a - b).

Record TurnCredentials := mkTurnCredentials {
  uris : list string;
  username : string;
  password : string;
  ttl : Duration;
  fetched_at : Z
}.
Definition expires_at (c : TurnCredentials) : option Z := add_duration (fetched_at c) (ttl c).
Definition refresh_at (c : TurnCredentials) : option Z :=
  add_duration (fetched_at c) (ttl c / 2)%Z.
Definition is_expired (c : TurnCredentials) (now : Z) : option bool :=
  e ← expires_at c; Some (bool_decide (e ≤ now)%Z).

(** ** Fetching *)
Record TurnResponse := mkTurnResponse {
  r_uris : list string; r_username : string; r_password : string; r_ttl : Z
}.

(** [url::Url]. *)
Class UrlOps (U : Type) := {
  scheme : U → string;
  host_str : U → option string;
  set_path : U → string → U;
}.
Class UrlLaws (U : Type) `{UrlOps U} := {
  scheme_set_path u p : scheme (set_path u p) = scheme u;
  host_set_path u p : host_str (set_path u p) = host_str u;
}.

(** What [reqwest] answers to one bearer-authenticated GET: the client could
    not be built, the request failed, or a response arrived whose body does
    or does not parse. *)
Inductive HttpReply : Type :=
| SendFailed
| Reply (success : bool) (json : option TurnResponse).

Inductive TurnError : Type := Http (e : string).

Section fetch.
Context {U : Type} `{UrlOps U}.

Definition is_safe_scheme (url : U) : bool :=
  if str_eqb (scheme url) "https" then true
  else if str_eqb (scheme url) "http" then
    bool_decide (default "" (host_str url) ∈ LOOPBACK_HOSTS)
  else false.

(** The result, and the requests sent on the way: endpoint and bearer token.
    [build] is [Client::builder()...build()], [http] the exchange, [now] the
    [SystemTime] once the body has been read. *)
Definition fetch_turn_credentials (build : result unit string) (http : U → string → HttpReply)
    (now : Z) (homeserver : U) (access_token : string)
    : result (option TurnCredentials) TurnError * list (U * string) :=
  if negb (is_safe_scheme homeserver) then (Ok None, []) else
  let endpoint := set_path homeserver TURN_ENDPOINT_PATH in
  match build with
  | Err e => (Err (Http e), [])
  | Ok _ =>
      let sent := [(endpoint, access_token)] in
      match http endpoint access_token with
      | SendFailed => (Ok None, sent)
      | Reply success json =>
          if negb success then (Ok None, sent) else
          match json with
          | None => (Ok None, sent)
          | Some body =>
              if bool_decide (r_uris body = []) then (Ok None, sent)
              else (Ok (Some (mkTurnCredentials (r_uris body) (r_username body)
                                (r_password body) (from_secs (r_ttl body)) now)), sent)
          end
      end
  end.
End fetch.

(** ** The refresh loop *)
Inductive TurnRefreshOutcome : Type :=
| Refreshed (c : TurnCredentials)
| RetryPending
| Expired.

Definition REFRESH_BACKOFF_SECS : list Z := [5; 10; 20; 40; 60]%Z.

(** The locals of [run_refresh_loop] that live across iterations. *)
Record RefreshLoop := mkLoop {
  hard_expiry : Instant;
  next_wake : Instant;
  backoff_idx : nat
}.

Definition refresh_start (seed : TurnCredentials) (now_tokio seed_now_wall : Z)
    : option RefreshLoop :=
  e ← expires_at seed;
  r ← refresh_at seed;
  hard ← add_duration now_tokio (duration_since_or_zero e seed_now_wall);
  wake ← add_duration now_tokio (duration_since_or_zero r seed_now_wall);
  Some (mkLoop hard wake 0).

(** One turn of the loop as the runtime sees it: the clock at its top, which
    arms of the [select!] are ready when it is polled and the clock then, what
    the fetch returns and both clocks afterwards, and whether the receiver of
    the outcomes is still there. *)
Record Turn := mkTurn {
  t_top : Instant;
  t_shutdown : bool;
  t_trigger : bool;
  t_now : Instant;
  t_fetch : result (option TurnCredentials) TurnError;
  t_wall : Z;
  t_done : Instant;
  t_receiver : bool
}.

Inductive SelectArm := ArmShutdown | ArmTrigger | ArmTimer.

(** The biased [select!]: the first ready arm, [None] when none is. *)
Definition refresh_select (l : RefreshLoop) (t : Turn) : option SelectArm :=
  let sleep_for := duration_since_or_zero (next_wake l) (t_top t) in
  if t_shutdown t then Some ArmShutdown
  else if t_trigger t then Some ArmTrigger
  else if decide (t_top t + sleep_for ≤ t_now t)%Z then Some ArmTimer
  else None.

(** What is left of the loop after a turn. *)
Inductive LoopStatus : Type :=
| Continues (l : RefreshLoop)
| Exited
| Panicked.

Definition fetch_outcome (l : RefreshLoop) (t : Turn)
    : option (TurnRefreshOutcome * RefreshLoop) :=
  match t_fetch t with
  | Ok (Some new_creds) =>
      r ← refresh_at new_creds;
      wake ← add_duration (t_done t) (duration_since_or_zero r (t_wall t));
      Some (Refreshed new_creds, mkLoop (hard_expiry l) wake 0)
  | Ok None | Err _ =>
      secs ← REFRESH_BACKOFF_SECS !! backoff_idx l;
      candidate_wake ← add_duration (t_done t) (from_secs secs);
      Some (RetryPending,
            mkLoop (hard_expiry l)
              (if decide (hard_expiry l ≤ candidate_wake)%Z then hard_expiry l
               else candidate_wake)
              (Nat.min (S (backoff_idx l)) (length REFRESH_BACKOFF_SECS - 1)))
  end.

(** One turn: the outcomes that reach the receiver and what is left. *)
Definition refresh_turn (l : RefreshLoop) (t : Turn) : list TurnRefreshOutcome * LoopStatus :=
  match refresh_select l t with
  | None => ([], Continues l)
  | Some ArmShutdown => ([], Exited)
  | Some _ =>
      if decide (hard_expiry l ≤ t_now t)%Z then
        (if t_receiver t then [Expired] else [], Exited)
      else
        match fetch_outcome l t with
        | None => ([], Panicked)
        | Some (outcome, l') =>
            if t_receiver t then ([outcome], Continues l') else ([], Exited)
        end
  end.

Fixpoint refresh_run (l : RefreshLoop) (ts : list Turn) : list TurnRefreshOutcome * LoopStatus :=
  match ts with
  | [] => ([], Continues l)
  | t :: ts =>
      match refresh_turn l t with
      | (out, Continues l') => let '(out', s) := refresh_run l' ts in (out ++ out', s)
      | (out, s) => (out, s)
      end
  end.

(** ** Lemmas *)
Lemma refresh_run_app l ts ts' :
  refresh_run l (ts ++ ts') =
  match refresh_run l ts with
  | (out, Continues l') => let '(out', s) := refresh_run l' ts' in (out ++ out', s)
  | (out, s) => (out, s)
  end.
Proof.
  revert l. induction ts as [|t ts IH]; intros l; simpl; [by destruct (refresh_run l ts')|].
  destruct (refresh_turn l t) as [out [l1| |]]; [|done..].
  rewrite IH. destruct (refresh_run l1 ts) as [out1 [l2| |]]; [|done..].
  destruct (refresh_run l2 ts'). by rewrite app_assoc.
Qed.

Lemma refresh_run_snoc_inv l ts t out l' :
  refresh_run l (ts ++ [t]) = (out, Continues l') →
  ∃ out1 l1 out2, refresh_run l ts = (out1, Continues l1) ∧
    refresh_turn l1 t = (out2, Continues l') ∧ out = out1 ++ out2.
Proof.
  rewrite refresh_run_app. destruct (refresh_run l ts) as [out1 [l1| |]]; [|done..].
  simpl. destruct (refresh_turn l1 t) as [out2 [l2| |]] eqn:E; simpl; intros [= <- <-].
  eexists _, _, _. by rewrite app_nil_r.
Qed.

(** The length of the run of failures a list of outcomes ends with. *)
Fixpoint leading_retries (out : list TurnRefreshOutcome) : nat :=
  match out with RetryPending :: out => S (leading_retries out) | _ => 0 end.
Definition trailing_retries (out : list TurnRefreshOutcome) : nat :=
  leading_retries (reverse out).

(** The wait after the [n]-th failure in a row, counted from 1. *)
Definition backoff_secs (n : nat) : Z := nth (Nat.min (n - 1) 4) REFRESH_BACKOFF_SECS 0%Z.

Lemma backoff_secs_S n : backoff_secs (S n) = nth (Nat.min n 4) REFRESH_BACKOFF_SECS 0%Z.
Proof. unfold backoff_secs. by rewrite Nat.sub_succ, Nat.sub_0_r. Qed.

Lemma backoff_secs_le i s : REFRESH_BACKOFF_SECS !! i = Some s → (s ≤ 60)%Z.
Proof.
  intros Hs%list_elem_of_lookup_2. unfold REFRESH_BACKOFF_SECS in Hs.
  rewrite !elem_of_cons, elem_of_nil in Hs. lia.
Qed.

Definition backoff_ok (ts : list Turn) (out : list TurnRefreshOutcome) (hard : Instant)
    (l : RefreshLoop) : Prop :=
  hard_expiry l = hard ∧ backoff_idx l = Nat.min (trailing_retries out) 4 ∧
  (last out = Some RetryPending →
   ∃ t, t ∈ ts ∧ next_wake l =
     Z.min hard (t_done t + from_secs (backoff_secs (trailing_retries out)))%Z).

Lemma backoff_ok_weaken ts t out hard l :
  backoff_ok ts out hard l → backoff_ok (ts ++ [t]) out hard l.
Proof.
  intros (H1 & H2 & H3). split_and!; [done..|]. intros Hl.
  destruct (H3 Hl) as (t' & Ht & E). exists t'. split; [set_solver|done].
Qed.

Lemma fetch_outcome_backoff l t ts out hard o l' :
  backoff_ok ts out hard l → fetch_outcome l t = Some (o, l') →
  backoff_ok (ts ++ [t]) (out ++ [o]) hard l'.
Proof.
  intros (Hh & Hi & _) Hf. unfold backoff_ok, trailing_retries in *. unfold fetch_outcome in Hf.
  rewrite reverse_app, last_app. simpl.
  destruct (t_fetch t) as [[c|]|e].
  { apply bind_Some in Hf as (r & _ & Hf). apply bind_Some in Hf as (w & _ & [= <- <-]). done. }
  all: apply bind_Some in Hf as (s & Hs & Hf); apply bind_Some in Hf as (w & Hw & [= <- <-]);
    simpl; split_and!; [done|lia|]; intros _; exists t; (split; [set_solver|]);
    unfold add_duration in Hw; case_decide; simplify_eq;
    rewrite backoff_secs_S, <-Hi;
    apply (nth_lookup_Some _ _ 0%Z) in Hs; rewrite Hs;
    case_decide; lia.
Qed.

Lemma refresh_turn_inv l t out l' :
  refresh_turn l t = (out, Continues l') →
  (out = [] ∧ l' = l) ∨
  (∃ o, out = [o] ∧ fetch_outcome l t = Some (o, l') ∧ (t_now t < hard_expiry l)%Z).
Proof.
  unfold refresh_turn. destruct (refresh_select l t) as [[]|]; simplify_eq/=; intros Hr;
    simplify_eq; [right..|by left].
  all: case_decide; [done|]; destruct (fetch_outcome l t) as [[o l1]|]; [|done];
    destruct (t_receiver t); simplify_eq; eexists; split_and!; done || lia.
Qed.

Lemma refresh_run_backoff l ts out l' hard :
  hard_expiry l = hard → backoff_idx l = 0 →
  refresh_run l ts = (out, Continues l') → backoff_ok ts out hard l'.
Proof.
  intros Hh Hi. revert out l'. induction ts as [|t ts IH] using rev_ind; intros out l' Hr.
  { simplify_eq/=. split_and!; [done|done|]. discriminate. }
  apply refresh_run_snoc_inv in Hr as (out1 & l1 & out2 & H1 & H2 & ->).
  apply IH in H1. apply refresh_turn_inv in H2 as [[-> ->]|(o & -> & Hf & _)].
  - rewrite app_nil_r. by apply backoff_ok_weaken.
  - by eapply fetch_outcome_backoff.
Qed.

Lemma refresh_start_loop seed now wall l :
  refresh_start seed now wall = Some l → backoff_idx l = 0.
Proof.
  unfold refresh_start. intros H.
  repeat (apply bind_Some in H as (? & _ & H)). by simplify_eq.
Qed.

(** The additions of a turn stay in the range of the clocks: the current time
    and the lifetime the server grants are not astronomical. *)
Definition turn_in_range (t : Turn) : Prop :=
  (t_done t + from_secs 60 < from_secs (2 ^ 63))%Z ∧
  match t_fetch t with
  | Ok (Some c) =>
      (fetched_at c + ttl c / 2 < from_secs (2 ^ 63))%Z ∧
      (t_done t + duration_since_or_zero (fetched_at c + ttl c / 2) (t_wall t)
       < from_secs (2 ^ 63))%Z
  | _ => True
  end.

Lemma fetch_outcome_total l t :
  backoff_idx l < length REFRESH_BACKOFF_SECS → turn_in_range t → is_Some (fetch_outcome l t).
Proof.
  intros [s Hs]%lookup_lt_is_Some_2 (Hd & Hf).
  unfold fetch_outcome, refresh_at, add_duration. rewrite Hs. apply backoff_secs_le in Hs.
  destruct (t_fetch t) as [[c|]|e]; [destruct Hf|..]; simpl;
    repeat (rewrite decide_True by (done || unfold from_secs in *; lia); simpl); eauto.
Qed.

Lemma refresh_turn_no_panic l t :
  backoff_idx l < length REFRESH_BACKOFF_SECS → turn_in_range t →
  (refresh_turn l t).2 ≠ Panicked.
Proof.
  intros Hi Ht. destruct (fetch_outcome_total l t Hi Ht) as [[o l'] E].
  unfold refresh_turn. rewrite E. by repeat case_match.
Qed.

Lemma refresh_run_no_panic l ts :
  backoff_idx l = 0 → Forall turn_in_range ts → (refresh_run l ts).2 ≠ Panicked.
Proof.
  intros Hi. induction ts as [|t ts IH] using rev_ind; [done|].
  intros [Hts Ht]%Forall_app; apply Forall_inv in Ht. specialize (IH Hts).
  rewrite refresh_run_app. destruct (refresh_run l ts) as [out [l1| |]] eqn:E; [|done..].
  apply (refresh_run_backoff _ _ _ _ _ eq_refl Hi) in E as (_ & Hb & _).
  simpl. pose proof (refresh_turn_no_panic l1 t) as Hp.
  destruct (refresh_turn l1 t) as [out2 [l2| |]]; try done.
  exfalso. apply Hp; [rewrite Hb; change (length REFRESH_BACKOFF_SECS) with 5; lia|done|done].
Qed.

(** A request that carries the token where it may go. *)
Definition request_confined `{UrlOps U} (homeserver : U) (token : string)
    (request : U * string) : Prop :=
  let '(u, tok) := request in
  tok = token ∧ scheme u = scheme homeserver ∧ host_str u = host_str homeserver ∧
  (scheme u = "https" ∨
   scheme u = "http" ∧ ∃ h, h ∈ LOOPBACK_HOSTS ∧ host_str u = Some h).

Lemma safe_request_confined `{UrlLaws U} (homeserver : U) token path :
  is_safe_scheme homeserver = true →
  request_confined homeserver token (set_path homeserver path, token).
Proof.
  intros Hs. unfold request_confined. rewrite scheme_set_path, host_set_path.
  split_and!; [done..|]. unfold is_safe_scheme in Hs.
  destruct (str_eqb _ "https") eqn:E1; [left; by apply str_eqb_true|].
  destruct (str_eqb _ "http") eqn:E2; [right|done]. apply str_eqb_true in E2.
  split; [done|]. destruct (host_str homeserver) as [h|]; [|by vm_compute in Hs].
  exists h. by apply bool_decide_eq_true in Hs.
Qed.

(** ** Properties *)

(** The bearer token is confined. A fetch sends at most one request, to
    the homeserver's own scheme and host, and only over https or to a
    loopback host over http; credentials are only ever returned from such a
    request, with at least one URI and the lifetime the server stated. *)
Theorem fetch_token_confined `{UrlLaws U} build http now (homeserver : U) token res sent :
  fetch_turn_credentials build http now homeserver token = (res, sent) →
  length sent ≤ 1 ∧ Forall (request_confined homeserver token) sent ∧
  (∀ c, res = Ok (Some c) → ∃ u body, sent = [(u, token)] ∧
     http u token = Reply true (Some body) ∧ r_uris body ≠ [] ∧
     c = mkTurnCredentials (r_uris body) (r_username body) (r_password body)
           (from_secs (r_ttl body)) now).
Proof.
  unfold fetch_turn_credentials. destruct (is_safe_scheme homeserver) eqn:Hs; simpl;
    [|intros [= <- <-]; split_and!; [simpl; lia|constructor|done]].
  apply (safe_request_confined homeserver token TURN_ENDPOINT_PATH) in Hs as Hsafe.
  repeat (case_match; simplify_eq/=); intros [= <- <-];
    (split_and!; [simpl; lia|apply Forall_nil_2 || by apply Forall_singleton|]); try done.
  intros c [= <-]. apply negb_false_iff in H2 as ->.
  eapply bool_decide_eq_false in H3. eexists _, _.
  by split_and!.
Qed.

(** The retry schedule. While the clocks stay in range the loop never
    panics (in particular it never reads past the backoff table), and if it
    ends its latest fetches with [n] failures in a row, then it sleeps until
    5, 10, 20, 40, then always 60 seconds after the last of them, or until
    the seed's expiry if that comes first. *)
Theorem refresh_schedule seed now_tokio wall l ts :
  refresh_start seed now_tokio wall = Some l → Forall turn_in_range ts →
  (refresh_run l ts).2 ≠ Panicked ∧
  ∀ out l', refresh_run l ts = (out, Continues l') →
    hard_expiry l' = hard_expiry l ∧
    (last out = Some RetryPending → ∃ t, t ∈ ts ∧ next_wake l' =
       Z.min (hard_expiry l) (t_done t + from_secs (backoff_secs (trailing_retries out)))%Z).
Proof.
  intros Hl%refresh_start_loop Hts. split; [by apply refresh_run_no_panic|].
  intros out l' Hr. by destruct (refresh_run_backoff _ _ _ _ _ eq_refl Hl Hr) as (? & _ & ?).
Qed.

(** The loop dies with the seed's lifetime. Whatever was fetched
    before, even if every refresh succeeded and the credentials in use are
    fresh, the first time the loop is woken at or after the expiry of the
    credentials it was started with, it reports [Expired] and exits. *)
Theorem refresh_dies_with_seed seed now_tokio wall l ts out l' t :
  refresh_start seed now_tokio wall = Some l →
  refresh_run l ts = (out, Continues l') →
  t_shutdown t = false → t_receiver t = true →
  (t_top t ≤ t_now t)%Z → (next_wake l' ≤ t_now t)%Z ∨ t_trigger t = true →
  (hard_expiry l ≤ t_now t)%Z →
  refresh_run l (ts ++ [t]) = (out ++ [Expired], Exited).
Proof.
  intros Hl%refresh_start_loop Hr Hs Hrx Htop Hw Hh.
  destruct (refresh_run_backoff _ _ _ _ _ eq_refl Hl Hr) as (Hhard & _).
  rewrite refresh_run_app, Hr. simpl. unfold refresh_turn, refresh_select.
  rewrite Hs, Hrx, Hhard. destruct (t_trigger t); [by rewrite decide_True|].
  rewrite decide_True by (unfold duration_since_or_zero; destruct Hw; done || lia).
  by rewrite decide_True.
Qed.

(** ** Witnesses *)
Record toy_url := mkUrl { u_scheme : string; u_host : option string; u_path : string }.
Definition toy_url_ops : UrlOps toy_url :=
  {| scheme := u_scheme; host_str := u_host;
     set_path u p := mkUrl (u_scheme u) (u_host u) p |}.
#[local] Existing Instance toy_url_ops.
Lemma toy_url_laws : UrlLaws toy_url.
Proof. by split. Qed.
#[local] Existing Instance toy_url_laws.
Definition toy_body : TurnResponse := mkTurnResponse ["turn:h"] "u" "p" 100%Z.

(** A seed of 100 s at time 0, refreshed at half-life for 100 s more. *)
Definition toy_creds (at_ : Z) : TurnCredentials :=
  mkTurnCredentials ["turn:h"] "u" "p" (from_secs 100) (from_secs at_).
Definition toy_turn (at_ : Z) (f : result (option TurnCredentials) TurnError) : Turn :=
  mkTurn (from_secs at_) false false (from_secs at_) f (from_secs at_) (from_secs at_) true.
Definition toy_loop : RefreshLoop := mkLoop (from_secs 100) (from_secs 50) 0.
