(* ===== verification/Policy.v ===== *)
(** * Policy: replay protection and authorisation ([mxdx-policy/policy.rs])

    The replay cache is the [lru] crate's [LruCache], an interface whose laws
    state its documented behaviour on its entries, most recently used first. *)
From S2P Require Import Prelude.

Definition DEFAULT_CACHE_CAPACITY : nat := 10 * 1000.
Definition DEFAULT_TTL : Duration := from_secs 3600.

(** ** [LruCache<String, Instant>] *)
Abbreviation Entries := (list (string * Instant)) (only parsing).
Fixpoint entry_lookup (k : string) (l : Entries) : option Instant :=
  match l with
  | [] => None
  | (k', t) :: l => if decide (k' = k) then Some t else entry_lookup k l
  end.
Definition entry_remove (k : string) (l : Entries) : Entries := filter (λ kv, kv.1 ≠ k) l.

Class Lru (C : Type) := {
  lru_new : nat → C;
  lru_get : string → C → option Instant * C;
  lru_pop : string → C → C;
  lru_put : string → Instant → C → C;
}.
Class LruLaws (C : Type) `{Lru C} := {
  lru_entries : C → Entries;
  lru_cap : C → nat;
  lru_new_entries n : lru_entries (lru_new n) = [];
  lru_new_cap n : lru_cap (lru_new n) = n;
  lru_get_value k c : (lru_get k c).1 = entry_lookup k (lru_entries c);
  lru_get_entries k c : lru_entries (lru_get k c).2 =
    match entry_lookup k (lru_entries c) with
    | Some t => (k, t) :: entry_remove k (lru_entries c)
    | None => lru_entries c
    end;
  lru_get_cap k c : lru_cap (lru_get k c).2 = lru_cap c;
  lru_pop_entries k c : lru_entries (lru_pop k c) = entry_remove k (lru_entries c);
  lru_pop_cap k c : lru_cap (lru_pop k c) = lru_cap c;
  lru_put_entries k t c : lru_entries (lru_put k t c) =
    take (lru_cap c) ((k, t) :: entry_remove k (lru_entries c));
  lru_put_cap k t c : lru_cap (lru_put k t c) = lru_cap c;
}.

(** ** The engine *)
Inductive PolicyRejection : Type := Replay | Unauthorized.
Definition PolicyRejection_fmt (r : PolicyRejection) : string :=
  match r with
  | Replay => "replayed event rejected"
  | Unauthorized => "unauthorized user rejected"
  end.

Record PolicyEngine (C : Type) := mkEngine {
  replay_cache : C;
  ttl : Duration;
  authorized_users : gset string
}.
Arguments mkEngine {C} _ _ _.
Arguments replay_cache {C} _.
Arguments ttl {C} _.
Arguments authorized_users {C} _.

(** [seen_at.elapsed()], at [now]. *)
Definition elapsed (seen_at now : Instant) : Duration := Z.max 0 (now - seen_at).

Section engine.
Context {C : Type} `{Lru C}.
Implicit Types e : PolicyEngine C.

Definition policy_new : PolicyEngine C :=
  mkEngine (lru_new DEFAULT_CACHE_CAPACITY) DEFAULT_TTL ∅.

(** [None] is the panic on a capacity of 0. *)
Definition with_capacity_and_ttl (capacity : nat) (ttl : Duration) : option (PolicyEngine C) :=
  if decide (capacity = 0) then None else Some (mkEngine (lru_new capacity) ttl ∅).

Definition authorize_user (user_id : string) e : PolicyEngine C :=
  mkEngine (replay_cache e) (ttl e) ({[user_id]} ∪ authorized_users e).
Definition revoke_user (user_id : string) e : PolicyEngine C :=
  mkEngine (replay_cache e) (ttl e) (authorized_users e ∖ {[user_id]}).

Definition set_cache (c : C) e : PolicyEngine C := mkEngine c (ttl e) (authorized_users e).

Definition check_replay (event_id : string) (now : Instant) e : bool * PolicyEngine C :=
  let '(seen, c) := lru_get event_id (replay_cache e) in
  match seen with
  | Some seen_at =>
      if decide (elapsed seen_at now < ttl e)%Z then (true, set_cache c e)
      else (false, set_cache (lru_pop event_id c) e)
  | None => (false, set_cache c e)
  end.

Definition mark_seen (event_id : string) (now : Instant) e : PolicyEngine C :=
  set_cache (lru_put event_id now (replay_cache e)) e.

Definition is_authorized (user_id action : string) e : bool :=
  bool_decide (user_id ∈ authorized_users e).

(** The clock is read once to check and once to mark. *)
Definition evaluate (event_id user_id action : string) (t_check t_mark : Instant) e
    : result unit PolicyRejection * PolicyEngine C :=
  let '(replayed, e) := check_replay event_id t_check e in
  if replayed then (Err Replay, e)
  else if negb (is_authorized user_id action e) then (Err Unauthorized, e)
  else (Ok tt, mark_seen event_id t_mark e).

(** Any use of the engine. *)
Inductive PolicyOp : Type :=
| OpEvaluate (event_id user_id action : string) (t_check t_mark : Instant)
| OpAuthorize (user_id : string)
| OpRevoke (user_id : string).

Definition policy_op e (op : PolicyOp) : PolicyEngine C :=
  match op with
  | OpEvaluate ev u a tc tm => (evaluate ev u a tc tm e).2
  | OpAuthorize u => authorize_user u e
  | OpRevoke u => revoke_user u e
  end.
Definition policy_run (ops : list PolicyOp) e : PolicyEngine C := foldl policy_op e ops.
End engine.

(** ** Lemmas *)
Lemma entry_lookup_app k a b :
  k ∉ a.*1 → entry_lookup k (a ++ b) = entry_lookup k b.
Proof.
  induction a as [|[k' t] a IH]; [done|]. simpl. intros Hk.
  rewrite decide_False by set_solver. apply IH. set_solver.
Qed.

Lemma entry_lookup_remove k k' l :
  entry_lookup k (entry_remove k' l) = if decide (k = k') then None else entry_lookup k l.
Proof.
  induction l as [|[k1 t] l IH]; [by destruct (decide _)|].
  unfold entry_remove in *. rewrite filter_cons. simpl.
  repeat case_decide; subst; simpl; rewrite ?IH; repeat case_decide; congruence.
Qed.

Lemma entry_remove_cons k t l : entry_remove k ((k, t) :: l) = entry_remove k l.
Proof. unfold entry_remove. rewrite filter_cons_False; [done|]. simpl. naive_solver. Qed.

(** [k] was stored at [t] and has at most [n] more recently used entries. *)
Definition ranked (k : string) (t : Instant) (n : nat) (l : Entries) : Prop :=
  ∃ a b, l = a ++ (k, t) :: b ∧ k ∉ a.*1 ∧ length a ≤ n.

Lemma ranked_lookup k t n l : ranked k t n l → entry_lookup k l = Some t.
Proof.
  intros (a & b & -> & Ha & _). rewrite entry_lookup_app by done. simpl. by rewrite decide_True.
Qed.

Lemma ranked_le k t n m l : n ≤ m → ranked k t n l → ranked k t m l.
Proof. intros ? (a & b & ? & ? & ?). exists a, b. split_and!; [done..|lia]. Qed.

Lemma ranked_front k t n l : ranked k t n ((k, t) :: l).
Proof. exists [], l. split_and!; [done|set_solver|simpl; lia]. Qed.

Lemma ranked_remove k k' t n l : k ≠ k' → ranked k t n l → ranked k t n (entry_remove k' l).
Proof.
  intros Hk (a & b & -> & Ha & Hn). exists (entry_remove k' a), (entry_remove k' b).
  unfold entry_remove. rewrite filter_app, filter_cons_True by done.
  split_and!; [done| |by etrans; [apply length_filter|]].
  intros (kv & E & Hkv)%list_elem_of_fmap. apply list_elem_of_filter in Hkv as [_ Hkv].
  apply Ha, list_elem_of_fmap. eauto.
Qed.

Lemma ranked_cons k k' t t' n l : k ≠ k' → ranked k t n l → ranked k t (S n) ((k', t') :: l).
Proof.
  intros Hk (a & b & -> & Ha & Hn). exists ((k', t') :: a), b.
  split_and!; [done|set_solver|simpl; lia].
Qed.

Lemma ranked_take k t n m l : n < m → ranked k t n l → ranked k t n (take m l).
Proof.
  intros Hm (a & b & -> & Ha & Hn). exists a, (take (m - S (length a)) b).
  split_and!; [|done..]. rewrite take_app_ge by lia. f_equal.
  replace (m - length a) with (S (m - S (length a))) by lia. done.
Qed.

Section engine_lemmas.
Context {C : Type} `{LruLaws C}.
Implicit Types e : PolicyEngine C.

Abbreviation entries e := (lru_entries (replay_cache e)).
Abbreviation capacity e := (lru_cap (replay_cache e)).

Lemma check_replay_entries ev now e :
  check_replay ev now e =
    (match entry_lookup ev (entries e) with
     | Some t => bool_decide (elapsed t now < ttl e)%Z
     | None => false
     end, (check_replay ev now e).2).
Proof.
  unfold check_replay. destruct (lru_get ev (replay_cache e)) as [o c] eqn:E.
  rewrite <-lru_get_value, E. simpl. destruct o as [t|]; [|done].
  case_decide; [by rewrite bool_decide_eq_true_2|by rewrite bool_decide_eq_false_2].
Qed.

Lemma check_replay_frame ev now e :
  ttl (check_replay ev now e).2 = ttl e ∧
  authorized_users (check_replay ev now e).2 = authorized_users e ∧
  capacity (check_replay ev now e).2 = capacity e.
Proof.
  unfold check_replay. pose proof (lru_get_cap ev (replay_cache e)) as Hc.
  destruct (lru_get ev (replay_cache e)) as [[t|] c]; [case_decide|]; simpl in *;
    rewrite ?lru_pop_cap; done.
Qed.

(** What the cache holds after a check: a live entry moves to the front, an
    expired one is gone. *)
Lemma check_replay_cache ev now e :
  entries (check_replay ev now e).2 =
  match entry_lookup ev (entries e) with
  | Some t => if decide (elapsed t now < ttl e)%Z then (ev, t) :: entry_remove ev (entries e)
              else entry_remove ev (entry_remove ev (entries e))
  | None => entries e
  end.
Proof.
  unfold check_replay. pose proof (lru_get_entries ev (replay_cache e)) as Hc.
  pose proof (lru_get_value ev (replay_cache e)) as Hv.
  destruct (lru_get ev (replay_cache e)) as [o c]. simpl in *. rewrite <-Hv in Hc |- *.
  destruct o as [t|]; [case_decide|]; simpl; [done| |done]. by rewrite lru_pop_entries, Hc, entry_remove_cons.
Qed.

Lemma evaluate_frame ev u a tc tm e :
  ttl (evaluate ev u a tc tm e).2 = ttl e ∧
  capacity (evaluate ev u a tc tm e).2 = capacity e.
Proof.
  unfold evaluate. destruct (check_replay_frame ev tc e) as (Ht & _ & Hc).
  destruct (check_replay ev tc e) as [r e1]. simpl in *.
  destruct r; [done|]. destruct (negb _); [done|]. simpl. by rewrite lru_put_cap.
Qed.

(** Evaluating another event pushes [ev] back by at most one place. *)
Lemma evaluate_other ev ev' u a tc tm t n e :
  ev' ≠ ev → ranked ev t n (entries e) → S n < capacity e →
  ranked ev t (S n) (entries (evaluate ev' u a tc tm e).2).
Proof.
  intros Hne Hr Hcap. pose proof (ranked_le _ _ _ _ _ (Nat.le_succ_diag_r n) Hr) as Hr'.
  unfold evaluate. pose proof (check_replay_cache ev' tc e) as Hc.
  destruct (check_replay_frame ev' tc e) as (_ & _ & Hcap').
  rewrite (check_replay_entries ev' tc e) in *.
  destruct (check_replay ev' tc e) as [r e1]. simpl in *.
  assert (Hr1 : ranked ev t (S n) (entries e1)).
  { rewrite Hc. destruct (entry_lookup ev' _) as [t'|]; [|done].
    case_decide; [apply ranked_cons|apply (ranked_le _ _ n); [lia|]; apply ranked_remove];
      try done; by apply ranked_remove. }
  destruct (entry_lookup ev' (entries e)) as [t'|];
    [case_bool_decide as Hl; [done|rewrite decide_False in Hc by done]|];
    (destruct (negb _); [done|]); simpl; rewrite lru_put_entries, Hcap';
    apply ranked_take; try done; apply ranked_cons; try done; apply ranked_remove; try done;
    rewrite Hc; [|done].
  by do 2 (apply ranked_remove; [done|]).
Qed.

Lemma evaluate_marked ev u a tc tm t n e :
  ranked ev t n (entries e) → (elapsed t tc < ttl e)%Z →
  (evaluate ev u a tc tm e).1 = Err Replay ∧
  ranked ev t n (entries (evaluate ev u a tc tm e).2).
Proof.
  intros Hr Hl. unfold evaluate. pose proof (check_replay_cache ev tc e) as Hc.
  rewrite (check_replay_entries ev tc e). rewrite (ranked_lookup _ _ _ _ Hr) in *.
  rewrite decide_True in Hc by done. rewrite bool_decide_eq_true_2 by done. simpl.
  split; [done|]. rewrite Hc. apply ranked_front.
Qed.

Lemma evaluate_ok_inv ev u a tc tm e e1 :
  evaluate ev u a tc tm e = (Ok tt, e1) → 0 < capacity e → ranked ev tm 0 (entries e1).
Proof.
  unfold evaluate. destruct (check_replay_frame ev tc e) as (_ & _ & Hcap).
  destruct (check_replay ev tc e) as [r e2]. simpl in *.
  destruct r; [done|]. destruct (negb _); [done|]. intros [= <-] H1. simpl.
  rewrite lru_put_entries. apply ranked_take; [lia|]. apply ranked_front.
Qed.

(** The evaluations of other events among [ops]. *)
Definition is_other (ev : string) (op : PolicyOp) : Prop :=
  match op with OpEvaluate ev' _ _ _ _ => ev' ≠ ev | _ => False end.
#[export] Instance is_other_dec ev op : Decision (is_other ev op).
Proof. destruct op; apply _. Defined.
Definition others (ev : string) (ops : list PolicyOp) : nat := length (filter (is_other ev) ops).

(** Every check of [ev] among [ops] comes before [t + d]. *)
Definition before (ev : string) (t : Instant) (d : Duration) (op : PolicyOp) : Prop :=
  match op with OpEvaluate ev' _ _ tc _ => ev' = ev → (elapsed t tc < d)%Z | _ => True end.

Lemma policy_run_ranked ev t ops n e :
  ranked ev t n (entries e) → n + others ev ops < capacity e →
  Forall (before ev t (ttl e)) ops →
  ranked ev t (n + others ev ops) (entries (policy_run ops e)) ∧
  ttl (policy_run ops e) = ttl e.
Proof.
  revert n e. unfold others. induction ops as [|op ops IH]; intros n e Hr Hc Hb; simpl.
  { by rewrite Nat.add_0_r. }
  inversion_clear Hb as [|? ? Hop Hops]. rewrite filter_cons in *.
  destruct op as [ev' u a tc tm|u|u]; simpl in *.
  - destruct (evaluate_frame ev' u a tc tm e) as [Ht Hcap].
    case_decide as Hd; simpl in *.
    + rewrite <-Nat.add_succ_comm in *. rewrite <-Ht in Hops |- *.
      apply IH; [apply evaluate_other; [done|done|lia]|by rewrite Hcap|done].
    + subst ev'. rewrite <-Ht in Hops |- *.
      apply IH; [|by rewrite Hcap|done]. apply evaluate_marked; [done|]. by apply Hop.
  - by apply (IH n (authorize_user u e)).
  - by apply (IH n (revoke_user u e)).
Qed.

(** ** Properties *)

(** A command event is accepted at most once per TTL. After an accepted
    evaluation, whatever is evaluated, authorised or revoked next, a second
    evaluation of the same event within the TTL is rejected as a replay,
    provided that fewer other events than the cache's capacity have been
    evaluated in between. *)
Theorem accepted_once ev u a tc tm e e1 ops u' a' tc' tm' :
  evaluate ev u a tc tm e = (Ok tt, e1) →
  others ev ops < capacity e →
  Forall (before ev tm (ttl e)) ops → (elapsed tm tc' < ttl e)%Z →
  (evaluate ev u' a' tc' tm' (policy_run ops e1)).1 = Err Replay.
Proof.
  intros He Ho Hb Hl. pose proof (evaluate_frame ev u a tc tm e) as [Ht Hcap].
  pose proof (evaluate_ok_inv _ _ _ _ _ _ _ He ltac:(lia)) as Hr.
  rewrite He in Ht, Hcap. simpl in *. rewrite <-Ht in *. rewrite <-Hcap in *.
  destruct (policy_run_ranked ev tm ops 0 e1) as [Hr' Ht']; [done..|].
  eapply evaluate_marked; [done|]. by rewrite Ht'.
Qed.

(** The verdict on every branch. An event seen less than a TTL ago is a
    replay, whoever sends it; otherwise an unauthorised user is rejected
    and the event stays unseen, so that the rejection does not use it up;
    otherwise it is accepted and recorded at the time of the decision. *)
Theorem evaluate_spec ev u a tc tm e :
  let seen := match entry_lookup ev (entries e) with
              | Some t => bool_decide (elapsed t tc < ttl e)%Z
              | None => false
              end in
  0 < capacity e →
  match evaluate ev u a tc tm e with
  | (Err Replay, e') =>
      seen = true ∧ ∀ k, entry_lookup k (entries e') = entry_lookup k (entries e)
  | (Err Unauthorized, e') =>
      seen = false ∧ u ∉ authorized_users e ∧ entry_lookup ev (entries e') = None ∧
      ∀ k, k ≠ ev → entry_lookup k (entries e') = entry_lookup k (entries e)
  | (Ok _, e') =>
      seen = false ∧ u ∈ authorized_users e ∧ entry_lookup ev (entries e') = Some tm
  end.
Proof.
  intros seen Hcap. destruct (evaluate ev u a tc tm e) as [[[]|r] e'] eqn:E.
  - pose proof (evaluate_ok_inv _ _ _ _ _ _ _ E Hcap) as Hr%ranked_lookup.
    unfold evaluate, is_authorized in E. rewrite (check_replay_entries ev tc e) in E.
    destruct (check_replay_frame ev tc e) as (_ & Ha & _). fold seen in E. rewrite Ha in E.
    destruct seen; [done|]. by case_bool_decide.
  - unfold evaluate, is_authorized in E. rewrite (check_replay_entries ev tc e) in E.
    destruct (check_replay_frame ev tc e) as (_ & Ha & _). fold seen in E. rewrite Ha in E.
    pose proof (check_replay_cache ev tc e) as Hc. subst seen.
    destruct (entry_lookup ev (entries e)) as [t|] eqn:El;
      [destruct (bool_decide_reflect (elapsed t tc < ttl e)%Z);
       [rewrite decide_True in Hc by done|rewrite decide_False in Hc by done]|];
      [|case_bool_decide..]; simplify_eq/=; rewrite Hc; split_and!; try done.
    + intros k. simpl. case_decide; [by subst|].
      rewrite entry_lookup_remove. by rewrite decide_False.
    + rewrite entry_lookup_remove. by rewrite decide_True.
    + intros k Hk. by rewrite !entry_lookup_remove, !decide_False.
Qed.
End engine_lemmas.

(** ** Witnesses, with a list as the cache *)
Record list_lru := mkLru { ll_cap : nat; ll_entries : list (string * Instant) }.
Definition list_lru_ops : Lru list_lru :=
  {| lru_new n := mkLru n [];
     lru_get k c := (entry_lookup k (ll_entries c),
       match entry_lookup k (ll_entries c) with
       | Some t => mkLru (ll_cap c) ((k, t) :: entry_remove k (ll_entries c))
       | None => c
       end);
     lru_pop k c := mkLru (ll_cap c) (entry_remove k (ll_entries c));
     lru_put k t c := mkLru (ll_cap c)
       (take (ll_cap c) ((k, t) :: entry_remove k (ll_entries c))) |}.
#[local] Existing Instance list_lru_ops.
Definition list_lru_laws : LruLaws list_lru.
Proof.
  refine {| lru_entries := ll_entries; lru_cap := ll_cap |}; try done;
    intros; simpl; by destruct (entry_lookup _ _).
Defined.
#[local] Existing Instance list_lru_laws.

(** Three places, ten nanoseconds, one authorised user. *)
Definition toy_engine : PolicyEngine list_lru :=
  authorize_user "@a:x" (mkEngine (lru_new 3) 10%Z ∅).
