(* ===== verification/Fabric.v ===== *)
(** * Fabric: the coordinator bot of [mxdx-fabric]

    [coordinator.rs], [failure.rs], [capability_index.rs] and the events of
    [mxdx-types/events/fabric.rs]. A handler is a function from the state of
    the bot to its next state and the Matrix requests it makes; what the
    requests answer is the argument [net]. Payloads are [serde_json] values,
    an interface. [HashMap] iteration order is an argument. *)
From stdpp Require Import relations.
From S2P Require Import Prelude Text.

(** ** Events *)
Inductive FailurePolicy : Type :=
| Escalate
| Respawn (max_retries : Z)
| RespawnWithContext
| Abandon.

Inductive RoutingMode : Type := Direct | Brokered | Auto.
Inductive TaskStatus : Type := Success | Failed | Timeout | Cancelled.

Record TaskEvent (V : Type) := mkTask {
  uuid : string;
  sender_id : string;
  required_capabilities : list string;
  estimated_cycles : option Z;
  timeout_seconds : Z;
  heartbeat_interval_seconds : Z;
  on_timeout : FailurePolicy;
  on_heartbeat_miss : FailurePolicy;
  routing_mode : RoutingMode;
  p2p_stream : bool;
  payload : V;
  plan : option string
}.
Arguments mkTask {V} _ _ _ _ _ _ _ _ _ _ _ _.
Arguments uuid {V} _.
Arguments sender_id {V} _.
Arguments required_capabilities {V} _.
Arguments estimated_cycles {V} _.
Arguments timeout_seconds {V} _.
Arguments heartbeat_interval_seconds {V} _.
Arguments on_timeout {V} _.
Arguments on_heartbeat_miss {V} _.
Arguments routing_mode {V} _.
Arguments p2p_stream {V} _.
Arguments payload {V} _.
Arguments plan {V} _.

Record ClaimEvent := mkClaim { claim_task : string; claim_worker : string; claimed_at_secs : Z }.
Record HeartbeatEvent := mkHeartbeat {
  hb_task : string; hb_worker : string; hb_progress : option string; hb_timestamp : Z
}.
Record TaskResultEvent (V : Type) := mkResult {
  res_task : string; res_worker : string; res_status : TaskStatus;
  res_output : option V; res_error : option string; res_duration : Z
}.
Arguments mkResult {V} _ _ _ _ _ _.
Arguments res_task {V} _.

(** ** JSON payloads: [as_object_mut] and [insert], [json!({k: n})], and
    [get(k).and_then(as_u64)] *)
Class Payload (V : Type) := {
  insert_field : string → Z → V → option V;
  object_with : string → Z → V;
  get_u64 : string → V → option Z;
}.
Class PayloadLaws (V : Type) `{Payload V} := {
  get_insert k n v v' : is_uint 64 n → insert_field k n v = Some v' → get_u64 k v' = Some n;
  get_object k n : is_uint 64 n → get_u64 k (object_with k n) = Some n;
  get_u64_range k v n : get_u64 k v = Some n → is_uint 64 n;
}.

(** ** The requests a handler makes, and their answers *)
Inductive FabricEffect (V : Type) : Type :=
| FxCreateRoom (name topic : string)
| FxInvite (room user : string)
| FxPostTask (room : string) (task : TaskEvent V)
| FxMessage (room body : string).
Arguments FxCreateRoom {V} _ _.
Arguments FxInvite {V} _ _.
Arguments FxPostTask {V} _ _.
Arguments FxMessage {V} _ _.

Record Net (V : Type) := mkNet {
  net_create_room : string → result string string;
  net_request : FabricEffect V → result unit string;
  net_valid_user_id : string → bool
}.
Arguments mkNet {V} _ _ _.
Arguments net_create_room {V} _ _.
Arguments net_request {V} _ _.
Arguments net_valid_user_id {V} _ _.

(** ** [FailurePolicy] *)
Record FailureContext (V : Type) := mkCtx {
  ctx_task : TaskEvent V;
  ctx_reason : string;
  ctx_attempt : Z;
  ctx_last_progress : option string
}.
Arguments mkCtx {V} _ _ _ _.
Arguments ctx_task {V} _.
Arguments ctx_reason {V} _.
Arguments ctx_attempt {V} _.
Arguments ctx_last_progress {V} _.

Section failure.
Context {V : Type} `{Payload V}.
Implicit Types (t : TaskEvent V) (ctx : FailureContext V) (net : Net V).

(** A fresh task from [t]: uuid, payload and plan replaced. *)
Definition with_retry t (uuid' : string) (payload' : V) (plan' : option string) : TaskEvent V :=
  mkTask uuid' (sender_id t) (required_capabilities t) (estimated_cycles t) (timeout_seconds t)
    (heartbeat_interval_seconds t) (on_timeout t) (on_heartbeat_miss t) (routing_mode t)
    (p2p_stream t) payload' plan'.

(** The payload with the attempt number set, an object in any case. *)
Definition set_attempt (new_attempt : Z) (v : V) : V :=
  match insert_field "attempt" new_attempt v with
  | Some v' => v'
  | None => object_with "attempt" new_attempt
  end.

Definition retry_uuid t (new_attempt : Z) : string :=
  cat [uuid t; "-retry-"; show new_attempt].

(** [attempt + 1] on a [u8]. *)
Definition next_attempt (attempt : Z) : Z := as_u8 (attempt + 1).

Definition send_plain_message net (room body : string) : result unit string * list (FabricEffect V) :=
  (net_request net (FxMessage room body), [FxMessage room body]).

Definition escalate net ctx (room : string) : result unit string * list (FabricEffect V) :=
  send_plain_message net room
    (cat ["⚠️ Task "; uuid (ctx_task ctx); " stalled: "; ctx_reason ctx; ". Plan: ";
          default "(no plan)" (plan (ctx_task ctx)); ". Last progress: ";
          default "none" (ctx_last_progress ctx)]).

(** [send(...).await?; Ok(None)]. *)
Definition then_none (r : result unit string * list (FabricEffect V))
    : result (option (TaskEvent V)) string * list (FabricEffect V) :=
  (let? _ := r.1 in Ok None, r.2).

Definition apply_policy (policy : FailurePolicy) ctx net (sender_room : string)
    : result (option (TaskEvent V)) string * list (FabricEffect V) :=
  let t := ctx_task ctx in
  let new_attempt := next_attempt (ctx_attempt ctx) in
  match policy with
  | Escalate => then_none (escalate net ctx sender_room)
  | Respawn max_retries =>
      if decide (ctx_attempt ctx < max_retries)%Z then
        (Ok (Some (with_retry t (retry_uuid t new_attempt)
                     (set_attempt new_attempt (payload t)) (plan t))), [])
      else then_none (escalate net ctx sender_room)
  | RespawnWithContext =>
      if decide (ctx_attempt ctx < 3)%Z then
        let new_plan :=
          cat ["Previous attempt failed: "; ctx_reason ctx; ". Last progress: ";
               default "none" (ctx_last_progress ctx); ". Original plan: ";
               default "(no plan)" (plan t)] in
        (Ok (Some (with_retry t (retry_uuid t new_attempt)
                     (set_attempt new_attempt (payload t)) (Some new_plan))), [])
      else then_none (escalate net ctx sender_room)
  | Abandon =>
      then_none (send_plain_message net sender_room
        (cat ["❌ Task "; uuid t; " abandoned: "; ctx_reason ctx]))
  end.
End failure.

(** ** [CapabilityIndex] *)
Definition DOT : byte := Byte.x2e.
Definition capability_room_name (caps : list string) : string :=
  String.append "workers."
    (from_bytes (join [DOT] (as_bytes <$> merge_sort String.le caps))).

Definition find_room (index : gmap string string) (caps : list string) : option string :=
  index !! capability_room_name caps.

Section coordinator.
Context {V : Type} `{Payload V}.
Implicit Types (t : TaskEvent V) (net : Net V).

Definition get_or_create_room net (index : gmap string string) (caps : list string)
    : result string string * gmap string string * list (FabricEffect V) :=
  match find_room index caps with
  | Some room_id => (Ok room_id, index, [])
  | None =>
      let room_name := capability_room_name caps in
      let topic := String.append "org.mxdx.fabric.workers:" room_name in
      match net_create_room net room_name with
      | Err e => (Err e, index, [FxCreateRoom room_name topic])
      | Ok room_id => (Ok room_id, <[room_name := room_id]> index, [FxCreateRoom room_name topic])
      end
  end.

(** [populate_from_server]: the joined rooms, by name and id. *)
Definition populate_from_server (joined : list (string * string)) (index : gmap string string)
    : gmap string string :=
  foldl (λ m '(name, room_id),
    if String.prefix "workers." name then <[name := room_id]> m else m) index joined.

(** ** [CoordinatorBot] *)
Record WatchEntry := mkWatch {
  w_task : TaskEvent V;
  w_claimed_at : option Instant;
  w_last_heartbeat : Instant;
  w_attempt : Z;
  w_last_progress : option string
}.

Record CoordinatorBot := mkBot {
  index : gmap string string;
  coordinator_room_id : string;
  watchlist : gmap string WatchEntry;
  seen_task_uuids : gset string;
  last_backstop_check : Instant
}.

Definition bot_new (room : string) (now : Instant) : CoordinatorBot := mkBot ∅ room ∅ ∅ now.
Definition set_index (i : gmap string string) (b : CoordinatorBot) : CoordinatorBot :=
  mkBot i (coordinator_room_id b) (watchlist b) (seen_task_uuids b) (last_backstop_check b).
Definition set_watchlist (w : gmap string WatchEntry) (b : CoordinatorBot) : CoordinatorBot :=
  mkBot (index b) (coordinator_room_id b) w (seen_task_uuids b) (last_backstop_check b).
Definition mark_task_seen (u : string) (b : CoordinatorBot) : CoordinatorBot :=
  mkBot (index b) (coordinator_room_id b) (watchlist b) ({[u]} ∪ seen_task_uuids b)
    (last_backstop_check b).

Definition route_direct net t (worker_room : string) : result unit string * list (FabricEffect V) :=
  if net_valid_user_id net (sender_id t) then
    (result_map_err (String.append "invite_user failed: ")
       (net_request net (FxInvite worker_room (sender_id t))),
     [FxInvite worker_room (sender_id t)])
  else (Err "invalid sender_id in task event", []).

Definition route_brokered net t (worker_room : string) : result unit string * list (FabricEffect V) :=
  (net_request net (FxPostTask worker_room t), [FxPostTask worker_room t]).

Definition effective_mode t : RoutingMode :=
  match routing_mode t with
  | Auto => if decide (timeout_seconds t < 30)%Z then Direct else Brokered
  | other => other
  end.

Definition task_attempt t : Z := as_u8 (default 0%Z (get_u64 "attempt" (payload t))).

Definition handle_task_event net (now : Instant) t (b : CoordinatorBot)
    : result unit string * CoordinatorBot * list (FabricEffect V) :=
  if decide (uuid t ∈ seen_task_uuids b) then (Ok tt, b, []) else
  let b := mark_task_seen (uuid t) b in
  let '(room, i, fx) := get_or_create_room net (index b) (required_capabilities t) in
  let b := set_index i b in
  match room with
  | Err e => (Err e, b, fx)
  | Ok worker_room =>
      let '(routed, fx') :=
        match effective_mode t with
        | Direct => route_direct net t worker_room
        | _ => route_brokered net t worker_room
        end in
      match routed with
      | Err e => (Err e, b, fx ++ fx')
      | Ok _ =>
          (Ok tt, set_watchlist (<[uuid t := mkWatch t None now (task_attempt t) None]> (watchlist b)) b,
           fx ++ fx')
      end
  end.

Definition handle_claim_event (now : Instant) (claim : ClaimEvent) (b : CoordinatorBot)
    : CoordinatorBot :=
  set_watchlist (alter (λ e, mkWatch (w_task e) (Some now) (w_last_heartbeat e) (w_attempt e)
                               (w_last_progress e)) (claim_task claim) (watchlist b)) b.

Definition handle_heartbeat_event (now : Instant) (hb : HeartbeatEvent) (b : CoordinatorBot)
    : CoordinatorBot :=
  set_watchlist (alter (λ e, mkWatch (w_task e) (w_claimed_at e) now (w_attempt e)
      (match hb_progress hb with Some p => Some p | None => w_last_progress e end))
      (hb_task hb) (watchlist b)) b.

Definition handle_result_event (res : TaskResultEvent V) (b : CoordinatorBot) : CoordinatorBot :=
  set_watchlist (delete (res_task res) (watchlist b)) b.

(** The policy a watch entry is due for at [now], with its reason.
    [heartbeat_interval_seconds * 2] wraps on [u64] (a release build). *)
Definition overdue (now : Instant) (e : WatchEntry) : option (FailurePolicy * string) :=
  let t := w_task e in
  let since := Z.max 0 (now - w_last_heartbeat e) in
  match w_claimed_at e with
  | None =>
      if decide (from_secs (timeout_seconds t) < since)%Z then
        Some (on_timeout t, cat ["unclaimed for "; show (timeout_seconds t); "s"])
      else None
  | Some _ =>
      if decide (from_secs (wrap 64 (heartbeat_interval_seconds t * 2)) < since)%Z then
        Some (on_heartbeat_miss t, "heartbeat overdue")
      else None
  end.

(** One entry of the loop of [check_watchlist]: whether it is to be removed
    and the task to re-post. *)
Definition check_entry net (room : string) (now : Instant) (e : WatchEntry)
    : bool * option (TaskEvent V) * list (FabricEffect V) :=
  match overdue now e with
  | None => (false, None, [])
  | Some (policy, reason) =>
      let ctx := mkCtx (w_task e) reason (w_attempt e) (w_last_progress e) in
      match apply_policy policy ctx net room with
      | (Ok new_task, fx) => (true, new_task, fx)
      | (Err _, fx) => (false, None, fx)
      end
  end.

Definition check_entries net (room : string) (now : string → Instant)
    (entries : list (string * WatchEntry))
    : list string * list (TaskEvent V) * list (FabricEffect V) :=
  foldr (λ '(u, e) '(rm, post, fx),
    let '(drop, new_task, fx1) := check_entry net room (now u) e in
    ((if drop then u :: rm else rm), option_list new_task ++ post, fx1 ++ fx)) ([], [], []) entries.

(** Re-posting swallows the errors of [handle_task_event]. *)
Definition repost net (t_now : Instant) (posts : list (TaskEvent V)) (b : CoordinatorBot)
    : CoordinatorBot * list (FabricEffect V) :=
  foldl (λ '(b, fx) t, let '(_, b', fx') := handle_task_event net t_now t b in (b', fx ++ fx'))
    (b, []) posts.

(** [entries] is the order in which the map is iterated, [now] the clock when
    an entry is looked at. *)
Definition check_watchlist net (now : string → Instant) (t_repost : Instant)
    (entries : list (string * WatchEntry)) (b : CoordinatorBot)
    : CoordinatorBot * list (FabricEffect V) :=
  let '(to_remove, to_repost, fx) := check_entries net (coordinator_room_id b) now entries in
  let b := set_watchlist (foldr delete (watchlist b) to_remove) b in
  let '(b, fx') := repost net t_repost to_repost b in
  (b, fx ++ fx').

(** ** The loop of [run] *)
Inductive FabricEvent : Type :=
| EvTask (t : TaskEvent V)
| EvClaim (c : ClaimEvent)
| EvHeartbeat (hb : HeartbeatEvent)
| EvResult (r : TaskResultEvent V).

(** A synced event: its type, if it is a string, and its content, if any. *)
Record RoomEvent := mkRoomEvent { ev_type : option string; ev_content : option V }.

Class FabricDeserialize := {
  de_task : V → option (TaskEvent V);
  de_claim : V → option ClaimEvent;
  de_heartbeat : V → option HeartbeatEvent;
  de_result : V → option (TaskResultEvent V);
}.

Definition parse_fabric_event `{FabricDeserialize} (ev : RoomEvent) : option FabricEvent :=
  content ← ev_content ev;
  let event_type := default "" (ev_type ev) in
  if str_eqb event_type "org.mxdx.fabric.task" then EvTask <$> de_task content
  else if str_eqb event_type "org.mxdx.fabric.claim" then EvClaim <$> de_claim content
  else if str_eqb event_type "org.mxdx.fabric.heartbeat" then EvHeartbeat <$> de_heartbeat content
  else if str_eqb event_type "org.mxdx.fabric.result" then EvResult <$> de_result content
  else None.

Definition handle_event net (now : Instant) (ev : FabricEvent) (b : CoordinatorBot)
    : result unit string * CoordinatorBot * list (FabricEffect V) :=
  match ev with
  | EvTask t => handle_task_event net now t b
  | EvClaim c => (Ok tt, handle_claim_event now c b, [])
  | EvHeartbeat hb => (Ok tt, handle_heartbeat_event now hb b, [])
  | EvResult r => (Ok tt, handle_result_event r b, [])
  end.

(** The events of one sync. The [?] on a task makes an error leave [run]. *)
Fixpoint handle_events net (now : Instant) (evs : list FabricEvent) (b : CoordinatorBot)
    : result unit string * CoordinatorBot * list (FabricEffect V) :=
  match evs with
  | [] => (Ok tt, b, [])
  | ev :: evs =>
      match handle_event net now ev b with
      | (Ok _, b, fx) =>
          let '(r, b, fx') := handle_events net now evs b in (r, b, fx ++ fx')
      | (Err e, b, fx) => (Err e, b, fx)
      end
  end.

(** One turn of the loop: what the sync brought, the time, and the order and
    clock of a check of the watchlist. *)
Record LoopTurn := mkLoopTurn {
  lt_events : list FabricEvent;
  lt_now : Instant;
  lt_entries : gmap string WatchEntry → list (string * WatchEntry);
  lt_clock : string → Instant
}.

Definition bot_turn net (lt : LoopTurn) (b : CoordinatorBot)
    : result unit string * CoordinatorBot * list (FabricEffect V) :=
  match handle_events net (lt_now lt) (lt_events lt) b with
  | (Err e, b, fx) => (Err e, b, fx)
  | (Ok _, b, fx) =>
      if decide (from_secs 10 ≤ Z.max 0 (lt_now lt - last_backstop_check b))%Z then
        let '(b, fx') :=
          check_watchlist net (lt_clock lt) (lt_now lt) (lt_entries lt (watchlist b)) b in
        (Ok tt, mkBot (index b) (coordinator_room_id b) (watchlist b) (seen_task_uuids b) (lt_now lt),
         fx ++ fx')
      else (Ok tt, b, fx)
  end.

(** [run]: until a turn fails. The network answers differently each turn. *)
Fixpoint bot_run (turns : list (Net V * LoopTurn)) (b : CoordinatorBot)
    : result unit string * CoordinatorBot * list (FabricEffect V) :=
  match turns with
  | [] => (Ok tt, b, [])
  | (net, lt) :: turns =>
      match bot_turn net lt b with
      | (Ok _, b, fx) => let '(r, b, fx') := bot_run turns b in (r, b, fx ++ fx')
      | (Err e, b, fx) => (Err e, b, fx)
      end
  end.
End coordinator.
Arguments WatchEntry : clear implicits.
Arguments CoordinatorBot : clear implicits.
Arguments LoopTurn : clear implicits.

(** ** Invariant *)
Section coordinator_lemmas.
Context {V : Type} `{PayloadLaws V}.
Implicit Types (t : TaskEvent V) (net : Net V) (b : CoordinatorBot V).

(** The uuids posted to worker rooms. *)
Definition posted (fx : list (FabricEffect V)) : list string :=
  omap (λ f, match f with FxPostTask _ t => Some (uuid t) | _ => None end) fx.

Definition entry_ok (u : string) (e : WatchEntry V) : Prop :=
  uuid (w_task e) = u ∧ is_uint 8 (w_attempt e).

(** Everything watched was seen; a watch entry is filed under its task. *)
Definition bot_ok b : Prop :=
  (∀ u e, watchlist b !! u = Some e → u ∈ seen_task_uuids b ∧ entry_ok u e).

(** A step that posts each of its tasks for the first time. *)
Definition posts_fresh b (r : CoordinatorBot V * list (FabricEffect V)) : Prop :=
  bot_ok r.1 ∧ seen_task_uuids b ⊆ seen_task_uuids r.1 ∧ NoDup (posted r.2) ∧
  (∀ u, u ∈ posted r.2 → u ∉ seen_task_uuids b ∧ u ∈ seen_task_uuids r.1).

Lemma posted_app fx fx' : posted (fx ++ fx') = posted fx ++ posted fx'.
Proof. apply omap_app. Qed.

Lemma posts_fresh_nil b : bot_ok b → posts_fresh b (b, []).
Proof. intros Hb. split_and!; [done|done|constructor|]. simpl. set_solver. Qed.

(** Steps that post nothing and see nothing new. *)
Lemma posts_fresh_quiet b b' fx :
  bot_ok b' → seen_task_uuids b' = seen_task_uuids b → posted fx = [] → posts_fresh b (b', fx).
Proof.
  intros Hb Hs Hp. unfold posts_fresh. simpl. rewrite Hp, Hs.
  split_and!; [done|done|constructor|set_solver].
Qed.

Lemma posts_fresh_app b b1 fx1 b2 fx2 :
  posts_fresh b (b1, fx1) → posts_fresh b1 (b2, fx2) → posts_fresh b (b2, fx1 ++ fx2).
Proof.
  intros (_ & S1 & N1 & P1) (O2 & S2 & N2 & P2). unfold posts_fresh in *. simpl in *.
  rewrite posted_app. split_and!; [done|set_solver| |].
  - apply NoDup_app. split_and!; [done| |done]. intros u H1' H2'.
    destruct (P1 u H1'), (P2 u H2'). done.
  - intros u [Hu|Hu]%elem_of_app; [destruct (P1 u Hu)|destruct (P2 u Hu)]; set_solver.
Qed.

Lemma apply_policy_posts policy ctx net room : posted (apply_policy policy ctx net room).2 = [].
Proof. destruct policy; simpl; try case_decide; done. Qed.

Lemma create_room_posts net i caps : posted (get_or_create_room net i caps).2 = [].
Proof.
  unfold get_or_create_room. destruct (find_room i caps); [done|].
  by destruct (net_create_room net _).
Qed.

Lemma task_attempt_u8 t : is_uint 8 (task_attempt t).
Proof. apply wrap_range. lia. Qed.

Lemma handle_task_fresh net now t b :
  bot_ok b → posts_fresh b ((handle_task_event net now t b).1.2, (handle_task_event net now t b).2).
Proof.
  intros Hb. unfold handle_task_event. case_decide as Hs; [by apply posts_fresh_nil|].
  pose proof (create_room_posts net (index b) (required_capabilities t)) as Hp.
  simpl. destruct (get_or_create_room net (index b) (required_capabilities t)) as [[room i] fx].
  simpl in *. assert (Hb' : ∀ i', bot_ok (set_index i' (mark_task_seen (uuid t) b))).
  { intros i' u e Hu. destruct (Hb u e Hu). simpl. set_solver. }
  destruct room as [room|e].
  2:{ split_and!; simpl; [apply Hb'|set_solver|rewrite Hp; constructor|rewrite Hp; set_solver]. }
  assert (Hr : ∀ routed fx', (match effective_mode t with
      | Direct => route_direct net t room
      | _ => route_brokered net t room
      end) = (routed, fx') → posted fx' = [] ∨ posted fx' = [uuid t]).
  { intros routed fx'. destruct (effective_mode t); unfold route_direct, route_brokered;
      try destruct (net_valid_user_id _ _); naive_solver. }
  destruct (match effective_mode t with Direct => _ | _ => _ end) as [routed fx'] eqn:E.
  specialize (Hr routed fx' eq_refl).
  assert (Hq : NoDup (posted (fx ++ fx')) ∧ ∀ u, u ∈ posted (fx ++ fx') → u = uuid t).
  { rewrite posted_app, Hp. simpl. destruct Hr as [-> | ->];
      (split; [repeat constructor; set_solver|set_solver]). }
  destruct Hq as [Hn Hu].
  destruct routed; split_and!; simpl; try done; try set_solver;
    try (intros u ->%Hu; set_solver).
  intros u e. simpl. rewrite lookup_insert_Some. intros [[<- <-]|[Hne Hue]].
  - split; [set_solver|]. split; [done|apply task_attempt_u8].
  - destruct (Hb u e Hue). simpl. set_solver.
Qed.

Lemma alter_bot_ok b u (f : WatchEntry V → WatchEntry V) :
  bot_ok b → (∀ e, w_task (f e) = w_task e ∧ w_attempt (f e) = w_attempt e) →
  bot_ok (set_watchlist (alter f u (watchlist b)) b).
Proof.
  intros Hb Hf u' e. simpl. rewrite lookup_alter_Some.
  intros [(-> & e0 & H1 & ->)|[_ H1]]; [|by apply Hb].
  destruct (Hb _ _ H1) as [? [Hu Ha]]. split; [done|]. unfold entry_ok.
  by destruct (Hf e0) as [-> ->].
Qed.

Lemma foldr_delete_lookup (us : list string) (m : gmap string (WatchEntry V)) u :
  foldr delete m us !! u = if decide (u ∈ us) then None else m !! u.
Proof.
  induction us as [|x us IH]; [by case_decide; [set_solver|]|]. cbn [foldr].
  destruct (decide (x = u)) as [->|Hne].
  - rewrite lookup_delete_eq. by rewrite decide_True by set_solver.
  - rewrite lookup_delete_ne, IH by done. by repeat case_decide; set_solver.
Qed.

Lemma delete_bot_ok b us : bot_ok b → bot_ok (set_watchlist (foldr delete (watchlist b) us) b).
Proof.
  intros Hb u e. simpl. rewrite foldr_delete_lookup. case_decide; [done|]. apply Hb.
Qed.

Lemma handle_event_fresh net now ev b :
  bot_ok b → posts_fresh b ((handle_event net now ev b).1.2, (handle_event net now ev b).2).
Proof.
  intros Hb. destruct ev as [t|c|hb|r]; simpl; [by apply handle_task_fresh|..];
    (apply posts_fresh_quiet; [|done|done]).
  - by apply alter_bot_ok.
  - by apply alter_bot_ok.
  - apply (delete_bot_ok b [res_task r] Hb).
Qed.

Lemma handle_events_fresh net now evs b :
  bot_ok b → posts_fresh b ((handle_events net now evs b).1.2, (handle_events net now evs b).2).
Proof.
  revert b. induction evs as [|ev evs IH]; intros b Hb; simpl; [by apply posts_fresh_nil|].
  pose proof (handle_event_fresh net now ev b Hb) as He.
  destruct (handle_event net now ev b) as [[[u|e] b1] fx1]; [|done]. simpl in He.
  specialize (IH b1 (proj1 He)). destruct (handle_events net now evs b1) as [[r b2] fx2].
  simpl in *. by eapply posts_fresh_app.
Qed.

Lemma repost_app_fx net now posts b fx :
  foldl (λ '(b, fx) t, let '(_, b', fx') := handle_task_event net now t b in (b', fx ++ fx'))
    (b, fx) posts
  = ((repost net now posts b).1, fx ++ (repost net now posts b).2).
Proof.
  unfold repost. revert b fx. induction posts as [|t posts IH]; intros b fx; simpl.
  { by rewrite app_nil_r. }
  destruct (handle_task_event net now t b) as [[r b1] fx1].
  rewrite (IH b1 (fx ++ fx1)), (IH b1 fx1). simpl.
  by rewrite app_assoc.
Qed.

Lemma repost_cons net now t posts b :
  repost net now (t :: posts) b =
  let '(_, b1, fx1) := handle_task_event net now t b in
  ((repost net now posts b1).1, fx1 ++ (repost net now posts b1).2).
Proof.
  unfold repost at 1. simpl. destruct (handle_task_event net now t b) as [[r b1] fx1].
  by rewrite repost_app_fx.
Qed.

Lemma repost_fresh net now posts b : bot_ok b → posts_fresh b (repost net now posts b).
Proof.
  revert b. induction posts as [|t posts IH]; intros b Hb; [by apply posts_fresh_nil|].
  rewrite repost_cons. pose proof (handle_task_fresh net now t b Hb) as Ht.
  destruct (handle_task_event net now t b) as [[r b1] fx1]. simpl in *.
  eapply posts_fresh_app; [done|].
  specialize (IH b1 (proj1 Ht)). by destruct (repost net now posts b1).
Qed.

Lemma check_entries_posts net room now entries :
  posted (check_entries net room now entries).2 = [].
Proof.
  induction entries as [|[u e] entries IH]; [done|]. simpl.
  destruct (check_entries net room now entries) as [[rm post] fx]. simpl in IH.
  unfold check_entry. destruct (overdue (now u) e) as [[p reason]|]; [|done].
  pose proof (apply_policy_posts p (mkCtx (w_task e) reason (w_attempt e) (w_last_progress e))
    net room) as Hp.
  destruct (apply_policy p _ net room) as [[nt|err] fx1]; simpl in *; by rewrite posted_app, Hp.
Qed.

Lemma check_watchlist_fresh net now t_repost entries b :
  bot_ok b → posts_fresh b (check_watchlist net now t_repost entries b).
Proof.
  intros Hb. unfold check_watchlist.
  pose proof (check_entries_posts net (coordinator_room_id b) now entries) as Hp.
  destruct (check_entries _ _ _ _) as [[rm post] fx]. simpl in Hp.
  pose proof (delete_bot_ok b rm Hb) as Hd.
  pose proof (repost_fresh net t_repost post _ Hd) as Hr.
  destruct (repost net t_repost post _) as [b2 fx2].
  eapply posts_fresh_app; [|done]. by apply posts_fresh_quiet.
Qed.

Lemma bot_turn_fresh net lt b :
  bot_ok b → posts_fresh b ((bot_turn net lt b).1.2, (bot_turn net lt b).2).
Proof.
  intros Hb. unfold bot_turn.
  pose proof (handle_events_fresh net (lt_now lt) (lt_events lt) b Hb) as He.
  destruct (handle_events _ _ _ _) as [[[u|e] b1] fx1]; [|done]. simpl in He.
  case_decide; [|done].
  pose proof (check_watchlist_fresh net (lt_clock lt) (lt_now lt) (lt_entries lt (watchlist b1))
    b1 (proj1 He)) as Hc.
  destruct (check_watchlist _ _ _ _ _) as [b2 fx2]. simpl.
  by apply (posts_fresh_app _ _ _ _ _ He Hc).
Qed.

(** ** Respawning *)
Definition policy_limit (p : FailurePolicy) : Z :=
  match p with Respawn max_retries => max_retries | RespawnWithContext => 3 | _ => 0 end.
Definition respawn_limit t : Z :=
  Z.max (policy_limit (on_timeout t)) (policy_limit (on_heartbeat_miss t)).

(** [max_retries] is a [u8]. *)
Definition task_u8 t : Prop :=
  (policy_limit (on_timeout t) < 2 ^ 8)%Z ∧ (policy_limit (on_heartbeat_miss t) < 2 ^ 8)%Z.

(** A watched task [t] at attempt [a] fails and its policy gives [t'], which
    is then watched at the attempt its payload says. *)
Inductive respawns : TaskEvent V * Z → TaskEvent V * Z → Prop :=
| respawns_intro t a policy reason progress net room t' fx :
    policy = on_timeout t ∨ policy = on_heartbeat_miss t →
    apply_policy policy (mkCtx t reason a progress) net room = (Ok (Some t'), fx) →
    respawns (t, a) (t', task_attempt t').

Lemma task_attempt_set n v : is_uint 8 n → default 0%Z (get_u64 "attempt" (set_attempt n v)) = n.
Proof.
  intros Hn. assert (is_uint 64 n) by (unfold is_uint in *; lia).
  unfold set_attempt. destruct (insert_field _ _ v) as [v'|] eqn:E.
  - by erewrite get_insert.
  - by rewrite get_object.
Qed.

Lemma then_none_no_task (r : result unit string * list (FabricEffect V)) t fx :
  then_none r = (Ok (Some t), fx) → False.
Proof. unfold then_none. by destruct r as [[]]. Qed.

(** One respawn: a fresh uuid, one more attempt, everything else the task's. *)
Lemma apply_policy_respawn policy ctx net room t' fx :
  (policy_limit policy < 2 ^ 8)%Z → (0 ≤ ctx_attempt ctx)%Z →
  apply_policy policy ctx net room = (Ok (Some t'), fx) →
  fx = [] ∧ (ctx_attempt ctx < policy_limit policy)%Z ∧
  task_attempt t' = (ctx_attempt ctx + 1)%Z ∧
  uuid t' = cat [uuid (ctx_task ctx); "-retry-"; show (ctx_attempt ctx + 1)] ∧
  t' = with_retry (ctx_task ctx) (uuid t') (payload t') (plan t').
Proof.
  intros Hl Ha. assert (Hn : ∀ m, (ctx_attempt ctx < m)%Z → (m < 2 ^ 8)%Z →
    next_attempt (ctx_attempt ctx) = (ctx_attempt ctx + 1)%Z ∧ is_uint 8 (ctx_attempt ctx + 1)).
  { intros m H1 H2. split; [apply wrap_small|]; unfold is_uint in *; lia. }
  destruct policy as [|m| |]; simpl; [by intros ?%then_none_no_task| | |by intros ?%then_none_no_task];
    case_decide as Hlt; try (by intros ?%then_none_no_task); intros [= <- <-];
    (destruct (Hn _ Hlt) as [-> Hu]; [done || lia|]); unfold retry_uuid, task_attempt; cbn [payload uuid plan with_retry];
    rewrite task_attempt_set by done; (split_and!; [done|done|by apply wrap_small|done|done]).
Qed.

Lemma respawns_step t a t' a' :
  task_u8 t → (0 ≤ a)%Z → respawns (t, a) (t', a') →
  a' = (a + 1)%Z ∧ (a < respawn_limit t)%Z ∧ task_u8 t' ∧ respawn_limit t' = respawn_limit t.
Proof.
  intros [Hu1 Hu2] Ha Hr. inversion Hr as [? ? p reason prog net room ? fx Hp Hap]; subst.
  apply apply_policy_respawn in Hap as (_ & Hlt & Hatt & _ & Ht');
    [|destruct Hp as [->| ->]; done|done].
  simpl in *. rewrite Hatt. unfold task_u8, respawn_limit. rewrite Ht'. simpl.
  split_and!; [done|destruct Hp as [->| ->]; lia|done..].
Qed.

(** ** The check of the watchlist *)
Lemma handle_task_seen net now t b :
  uuid t ∈ seen_task_uuids b → handle_task_event net now t b = (Ok tt, b, []).
Proof. intros Hs. unfold handle_task_event. by rewrite decide_True. Qed.

Lemma handle_task_watchlist net now t b u :
  u ≠ uuid t → watchlist (handle_task_event net now t b).1.2 !! u = watchlist b !! u.
Proof.
  intros Hu. unfold handle_task_event. case_decide; [done|]. simpl.
  destruct (get_or_create_room _ _ _) as [[[room|e] i] fx]; [|done].
  destruct (match effective_mode t with Direct => _ | _ => _ end) as [[]]; [|done].
  simpl. by rewrite lookup_insert_ne.
Qed.

Lemma repost_watchlist net now posts b u :
  bot_ok b → u ∈ seen_task_uuids b →
  watchlist (repost net now posts b).1 !! u = watchlist b !! u.
Proof.
  revert b. induction posts as [|t posts IH]; intros b Hb Hu; [done|].
  rewrite repost_cons. pose proof (handle_task_fresh net now t b Hb) as (Hb1 & Hs & _).
  destruct (decide (uuid t = u)) as [E|Hne].
  - rewrite handle_task_seen in * by (by rewrite E). simpl. by apply IH.
  - pose proof (handle_task_watchlist net now t b u (not_eq_sym Hne)) as Hw.
    destruct (handle_task_event net now t b) as [[r b1] fx1]. simpl in *.
    rewrite IH; [done|done|set_solver].
Qed.

Lemma check_entries_remove net room now entries u :
  u ∈ (check_entries net room now entries).1.1 ↔
  ∃ e, (u, e) ∈ entries ∧ (check_entry net room (now u) e).1.1 = true.
Proof.
  induction entries as [|[u' e] entries IH]; simpl; [set_solver|].
  destruct (check_entries net room now entries) as [[rm post] fx]. simpl in IH.
  destruct (check_entry net room (now u') e) as [[drop nt] fx1] eqn:E. simpl.
  destruct drop; rewrite ?elem_of_cons, IH; split.
  - intros [->|(e' & H1' & H2')]; [exists e; rewrite E; set_solver|exists e'; set_solver].
  - intros (e' & [[= -> ->]|H1']%elem_of_cons & H2'); [by left|right; eauto].
  - intros (e' & H1' & H2'). exists e'. set_solver.
  - intros (e' & [[= -> ->]|H1']%elem_of_cons & H2'); [by rewrite E in H2'|eauto].
Qed.

(** ** Properties *)

Lemma bot_run_fresh turns b :
  bot_ok b → posts_fresh b ((bot_run turns b).1.2, (bot_run turns b).2).
Proof.
  revert b. induction turns as [|[net lt] turns IH]; intros b Hb; simpl; [by apply posts_fresh_nil|].
  pose proof (bot_turn_fresh net lt b Hb) as Ht.
  destruct (bot_turn net lt b) as [[[u|e] b1] fx1]; [|done]. simpl in Ht.
  specialize (IH b1 (proj1 Ht)). destruct (bot_run turns b1) as [[r b2] fx2].
  by eapply posts_fresh_app.
Qed.

(** A task is posted at most once. Whatever events arrive, duplicated
    or reordered, whatever the network answers, and whatever the watchlist's
    policies re-post, a run of the bot from its start posts each task uuid to
    a worker room at most once, and never forgets what it has seen: everything
    on the watchlist is under the uuid of its task and has been seen. *)
Theorem tasks_posted_once room now turns :
  let '(_, b, fx) := bot_run turns (bot_new room now) in
  NoDup (posted fx) ∧ bot_ok b ∧ ∀ u, u ∈ posted fx → u ∈ seen_task_uuids b.
Proof.
  destruct (bot_run_fresh turns (bot_new room now)) as (Hb & _ & Hn & Hp); [intros u e; simpl; by rewrite lookup_empty|].
  destruct (bot_run turns (bot_new room now)) as [[r b] fx]. simpl in *.
  split_and!; [done|done|]. intros u Hu. by apply Hp.
Qed.

(** What becomes of a new task. If it is routed, it is watched, and the
    last request was the invitation of its sender or its post to the room of
    its capabilities, as its mode (or, for [Auto], its timeout) asks; if any
    step fails, the task is not watched but its uuid is marked as seen, so
    that posting it again, at any time and over a working network, is
    silently ignored. *)
Theorem task_event_outcome net now t b :
  uuid t ∉ seen_task_uuids b →
  match handle_task_event net now t b with
  | (Ok _, b', fx) =>
      watchlist b' = <[uuid t := mkWatch t None now (task_attempt t) None]> (watchlist b) ∧
      ∃ room, find_room (index b') (required_capabilities t) = Some room ∧
        last fx = Some (match effective_mode t with
                        | Direct => FxInvite room (sender_id t)
                        | _ => FxPostTask room t
                        end)
  | (Err _, b', _) =>
      watchlist b' = watchlist b ∧
      ∀ net' now', handle_task_event net' now' t b' = (Ok tt, b', [])
  end.
Proof.
  intros Hs. unfold handle_task_event at 1. rewrite decide_False by done. simpl.
  destruct (get_or_create_room _ _ _) as [[[room|e] i] fx] eqn:Er.
  2:{ split; [done|]. intros. apply handle_task_seen. simpl. set_solver. }
  assert (Hi : find_room i (required_capabilities t) = Some room).
  { unfold get_or_create_room in Er. destruct (find_room (index b) _) eqn:Ef; [by simplify_eq|].
    destruct (net_create_room _ _); simplify_eq. apply lookup_insert_eq. }
  destruct (match effective_mode t with Direct => _ | _ => _ end) as [[u|e] fx'] eqn:Ed.
  2:{ split; [done|]. intros. apply handle_task_seen. simpl. set_solver. }
  split; [done|]. exists room. split; [done|]. rewrite last_app.
  revert Ed. unfold route_direct, route_brokered.
  destruct (effective_mode t); try destruct (net_valid_user_id _ _); intros; simplify_eq; done.
Qed.

(** Respawning ends. In any chain of [n] respawns of a task, by either of
    its policies, the attempt number (a [u8] that goes through the JSON
    payload and back) grows by exactly one each time without wrapping, and it
    never passes the limit of the task's policies: there are at most that
    many respawns in all. *)
Theorem respawn_bounded n t a t' a' :
  task_u8 t → (0 ≤ a)%Z → nsteps respawns n (t, a) (t', a') →
  a' = (a + Z.of_nat n)%Z ∧ (n = 0 ∨ (a + Z.of_nat n ≤ respawn_limit t)%Z).
Proof.
  intros Ht Ha Hn. remember (t, a) as x eqn:Ex. remember (t', a') as y eqn:Ey.
  revert t a Ht Ha Ex. induction Hn as [x|n x [t1 a1] z Hr Hn IH]; intros t a Ht Ha ->.
  - simplify_eq. split; [lia|by left].
  - destruct (respawns_step _ _ _ _ Ht Ha Hr) as (-> & Hlt & Ht1 & Hl).
    destruct (IH Ey t1 (a + 1)%Z) as [-> H2]; [done|lia|done|].
    split; [lia|right]. rewrite Hl in H2. lia.
Qed.

(** A check of the watchlist is exact, in whatever order the map is
    walked: afterwards an entry is gone if and only if it was overdue and its
    policy could be carried out; an entry that is not overdue, or whose
    escalation message could not be sent, is still there, unchanged. *)
Theorem check_watchlist_exact net now t_repost entries b u e :
  bot_ok b → entries ≡ₚ map_to_list (watchlist b) → watchlist b !! u = Some e →
  watchlist (check_watchlist net now t_repost entries b).1 !! u =
  match overdue (now u) e with
  | Some (policy, reason) =>
      match apply_policy policy (mkCtx (w_task e) reason (w_attempt e) (w_last_progress e))
              net (coordinator_room_id b) with
      | (Ok _, _) => None
      | (Err _, _) => Some e
      end
  | None => Some e
  end.
Proof.
  intros Hb Hperm Hu. unfold check_watchlist.
  pose proof (check_entries_remove net (coordinator_room_id b) now entries u) as Hrm.
  destruct (check_entries _ _ _ _) as [[rm post] fx]. simpl in Hrm.
  pose proof (repost_watchlist net t_repost post _ u (delete_bot_ok b rm Hb)
    (proj1 (Hb u e Hu))) as Hw.
  destruct (repost _ _ _ _) as [b2 fx2]. simpl in *. rewrite Hw, foldr_delete_lookup, Hu.
  assert (Hiff : u ∈ rm ↔ (check_entry net (coordinator_room_id b) (now u) e).1.1 = true).
  { rewrite Hrm. setoid_rewrite Hperm. setoid_rewrite elem_of_map_to_list. split; [|eauto].
    intros (e' & He' & ?). by simplify_eq. }
  unfold check_entry in Hiff. destruct (overdue (now u) e) as [[policy reason]|].
  - destruct (apply_policy policy _ net _) as [[nt|err] fx1];
      [rewrite decide_True by by apply Hiff|rewrite decide_False by by intros ?%Hiff]; done.
  - by rewrite decide_False by by intros ?%Hiff.
Qed.
End coordinator_lemmas.

(** A dot in a capability is indistinguishable from the separator: workers
    and tasks with different requirements share a room. *)
Lemma room_name_ambiguous : capability_room_name ["a.b"] = capability_room_name ["b"; "a"].
Proof. vm_compute. reflexivity. Qed.

(** ** Witnesses *)
Inductive toy_payload : Type := PObject (attempt : option Z) | PNull.
Definition toy_payload_ops : Payload toy_payload :=
  {| insert_field _ n v := match v with PObject _ => Some (PObject (Some n)) | PNull => None end;
     object_with _ n := PObject (Some n);
     get_u64 _ v := match v with
                    | PObject (Some n) => if decide (0 ≤ n < 2 ^ 64)%Z then Some n else None
                    | _ => None
                    end |}.
#[local] Existing Instance toy_payload_ops.
Lemma toy_payload_laws : PayloadLaws toy_payload.
Proof.
  split; simpl; unfold is_uint.
  - intros k n [a|] v' Hn [= <-]. by rewrite decide_True.
  - intros k n Hn. by rewrite decide_True.
  - intros k [[m|]|] n; try done. by case_decide; intros [= <-].
Qed.
#[local] Existing Instance toy_payload_laws.

Definition toy_task (u : string) : TaskEvent toy_payload :=
  mkTask u "@s:x" ["rust"; "linux"] None 10 5 (Respawn 2) RespawnWithContext Auto false PNull None.
Definition toy_net : Net toy_payload := mkNet (λ n, Ok n) (λ _, Ok tt) (λ _, true).
Definition down_net : Net toy_payload := mkNet (λ n, Ok n) (λ _, Err "down") (λ _, true).
