(* ===== verification/FabricClaim.v ===== *)
(** * FabricClaim: how fabric workers claim tasks ([mxdx-fabric/worker.rs])

    A claim is a state event that the worker writes and then reads back from
    the homeserver, where the last writer of a state key wins. Several workers
    race for one task by interleaving these two requests. *)
From S2P Require Import Prelude Fabric.

(** ** One worker *)
Definition claim_state_key (task_uuid : string) : string := cat ["task/"; task_uuid; "/claim"].

(** [try_claim]: the answers of the write, the sync and the read; the last is
    the [worker_id] of the state event, if it has one that is a string. *)
Definition try_claim (worker_id : string) (sent synced : result unit string)
    (state : result (option string) string) : result bool string :=
  let? _ := sent in
  let? _ := synced in
  let? winner := state in
  Ok (str_eqb (default "" winner) worker_id).

Section watch.
Context {V : Type}.

Definition has_caps (my_caps : list string) (t : TaskEvent V) : bool :=
  forallb (λ cap, bool_decide (cap ∈ my_caps)) (required_capabilities t).

(** [watch_and_claim] on the synced events: of each, the task if it is one
    that parses, and its event id. [claim] is the outcome of [try_claim]. *)
Fixpoint watch_and_claim (my_caps : list string) (claim : TaskEvent V → result bool string)
    (events : list (option (TaskEvent V) * option string))
    : result (option (TaskEvent V * string)) string :=
  match events with
  | [] => Ok None
  | (None, _) :: events => watch_and_claim my_caps claim events
  | (Some task, event_id) :: events =>
      if negb (has_caps my_caps task) then watch_and_claim my_caps claim events
      else
        let? won := claim task in
        if won : bool then Ok (Some (task, default "" event_id))
        else watch_and_claim my_caps claim events
  end.
End watch.

(** ** Several workers, one task

    The homeserver's state event under the task's key, and the workers'
    requests in the order in which it serves them. *)
Inductive ClaimStep : Type :=
| SendClaim (worker : string)
| ReadClaim (worker : string).

(** The state event after a step, and the verdict a read leads to. *)
Definition claim_step (register : option string) (s : ClaimStep)
    : option string * list (string * result bool string) :=
  match s with
  | SendClaim w => (Some w, [])
  | ReadClaim w => (register, [(w, try_claim w (Ok tt) (Ok tt) (Ok register))])
  end.

Fixpoint claim_run (register : option string) (steps : list ClaimStep)
    : option string * list (string * result bool string) :=
  match steps with
  | [] => (register, [])
  | s :: steps =>
      let '(register, out) := claim_step register s in
      let '(register, out') := claim_run register steps in
      (register, out ++ out')
  end.

Definition is_send (s : ClaimStep) : bool :=
  match s with SendClaim _ => true | ReadClaim _ => false end.

(** ** Lemmas *)
Lemma claim_run_app r s s' :
  claim_run r (s ++ s') =
  ((claim_run (claim_run r s).1 s').1, (claim_run r s).2 ++ (claim_run (claim_run r s).1 s').2).
Proof.
  revert r. induction s as [|x s IH]; intros r; simpl; [by destruct (claim_run r s')|].
  destruct (claim_step r x) as [r1 out]. rewrite IH. destruct (claim_run r1 s) as [r2 out'].
  simpl. by rewrite app_assoc.
Qed.

(** The register holds the last worker to have written it. *)
Lemma claim_run_register r s :
  (claim_run r s).1 = match last (filter is_send s) with Some (SendClaim w) => Some w | _ => r end.
Proof.
  induction s as [|x s IH] using rev_ind; [done|].
  rewrite claim_run_app, filter_app. simpl. destruct x as [w|w]; simpl.
  - by rewrite last_app.
  - by rewrite app_nil_r.
Qed.

Lemma last_filter_send s x : last (filter is_send s) = Some x → ∃ w, x = SendClaim w ∧ x ∈ s.
Proof.
  intros Hx%last_Some_elem_of%list_elem_of_filter. destruct Hx as [Hs Hx].
  destruct x; [eauto|done].
Qed.

(** ** Property *)

(** The verdict of the claim race. Whatever came before it, and whatever
    the other workers do between its write and its read, a worker wins
    exactly if none of them has written in between. So the last writer always
    wins, but a worker whose read precedes the next write wins as well: the
    protocol does not keep a task from being claimed twice. *)
Theorem claim_verdict before w between :
  SendClaim w ∉ between →
  let steps := before ++ SendClaim w :: between ++ [ReadClaim w] in
  last (claim_run None steps).2 = Some (w, Ok (negb (existsb is_send between))) ∧
  ∀ w', (claim_run None (steps ++ [SendClaim w'; ReadClaim w'])).2
        = (claim_run None steps).2 ++ [(w', Ok true)].
Proof.
  intros Hw steps. split.
  - unfold steps. rewrite claim_run_app. simpl. rewrite claim_run_app. simpl.
    rewrite app_assoc, last_snoc, claim_run_register. do 2 f_equal. unfold try_claim. simpl. f_equal.
    destruct (last (filter is_send between)) as [x|] eqn:El.
    + apply last_filter_send in El as (w' & -> & Hin). simpl.
      assert (existsb is_send between = true) as ->.
      { apply existsb_exists. exists (SendClaim w'). by rewrite <-list_elem_of_In. }
      simpl. apply str_eqb_false. intros ->. done.
    + simpl. rewrite str_eqb_refl. destruct (existsb is_send between) eqn:Ee; [|done].
      apply existsb_exists in Ee as (x & Hx%list_elem_of_In & Hs).
      apply last_None in El. assert (x ∈ filter is_send between) as Hf.
      { apply list_elem_of_filter. split; [by rewrite Hs|done]. }
      rewrite El in Hf. by apply not_elem_of_nil in Hf.
  - intros w'. rewrite claim_run_app. simpl. unfold try_claim. simpl. by rewrite str_eqb_refl.
Qed.
