(* ===== verification/WorkerExec.v ===== *)
(** * WorkerExec: the command gate of the worker ([mxdx-worker/executor.rs])

    What has to hold of a command before the worker runs it. The two
    questions asked of the file system, [Path::exists] and [Path::is_dir],
    are arguments. *)
From S2P Require Import Prelude Text.

Record ValidatedCommand := mkValidated {
  v_bin : string; v_args : list string; v_env : gmap string string; v_cwd : option string
}.

(** [;|&$`(){}<>], line feed and carriage return: all ASCII, so that [contains]
    on characters is [contains] on bytes. *)
Definition SHELL_METACHARACTERS : list byte :=
  [Byte.x3b; Byte.x7c; Byte.x26; Byte.x24; Byte.x60; Byte.x28; Byte.x29; Byte.x7b; Byte.x7d;
   Byte.x3c; Byte.x3e; Byte.x0a; Byte.x0d].

Inductive ExecError : Type :=
| BinEmpty
| BinMetacharacters (bin : string)
| BinSpaces (bin : string)
| ArgNull (i : nat)
| CwdNotAbsolute (cwd : string)
| CwdTraversal (cwd : string)
| CwdNotDirectory (cwd : string)
| EnvKey (key : string)
| AllowlistEmpty
| NotAllowed (bin : string)
| CwdAllowlistEmpty
| CwdNotAllowed (cwd : string)
| CwdRequired.

Definition has_metacharacter (l : Bytes) : bool :=
  existsb (λ b, bool_decide (b ∈ SHELL_METACHARACTERS)) l.

Definition validate_bin (exists_ : string → bool) (bin : string) : result unit ExecError :=
  if str_eqb bin "" then Err BinEmpty
  else if has_metacharacter (as_bytes bin) then Err (BinMetacharacters bin)
  else if bool_decide (Byte.x20 ∈ as_bytes bin) && negb (exists_ bin) then Err (BinSpaces bin)
  else Ok tt.

Definition has_nul (arg : string) : bool := bool_decide (Byte.x00 ∈ as_bytes arg).

Definition validate_args (args : list string) : result unit ExecError :=
  match list_find (λ arg, has_nul arg = true) args with
  | Some (i, _) => Err (ArgNull i)
  | None => Ok tt
  end.

Definition validate_cwd (is_dir : string → bool) (cwd : string) : result unit ExecError :=
  if negb (starts_with [SLASH] (as_bytes cwd)) then Err (CwdNotAbsolute cwd)
  else if contains (as_bytes "..") (as_bytes cwd) then Err (CwdTraversal cwd)
  else if negb (is_dir cwd) then Err (CwdNotDirectory cwd)
  else Ok tt.

Definition is_upper (b : byte) : bool := byte_range 65 90 b.
Definition is_digit (b : byte) : bool := byte_range 48 57 b.
Definition UNDERSCORE : byte := Byte.x5f.

Definition is_valid_env_key (key : string) : bool :=
  match as_bytes key with
  | [] => false
  | first :: rest =>
      (is_upper first || bool_decide (first = UNDERSCORE)) &&
      forallb (λ b, is_upper b || is_digit b || bool_decide (b = UNDERSCORE)) rest
  end.

(** [keys] is the order in which the map's keys are visited. *)
Definition validate_env (keys : list string) : result unit ExecError :=
  match list_find (λ k, is_valid_env_key k = false) keys with
  | Some (_, k) => Err (EnvKey k)
  | None => Ok tt
  end.

Definition validate_allowlist (bin : string) (allowed : list string) : result unit ExecError :=
  if bool_decide (allowed = []) then Err AllowlistEmpty
  else if negb (existsb (λ a, str_eqb a bin) allowed) then Err (NotAllowed bin)
  else Ok tt.

(** [cwd] is the allowed directory or below it. *)
Definition cwd_under (cwd : string) (prefix : string) : bool :=
  str_eqb cwd prefix
  || starts_with (trim_end_matches SLASH (as_bytes prefix) ++ [SLASH]) (as_bytes cwd).

Definition validate_cwd_allowlist (cwd : string) (allowed : list string) : result unit ExecError :=
  if bool_decide (allowed = []) then Err CwdAllowlistEmpty
  else if negb (existsb (cwd_under cwd) allowed) then Err (CwdNotAllowed cwd)
  else Ok tt.

Section gate.
Variables exists_ is_dir : string → bool.
Variable env_keys : gmap string string → list string.

Definition validate_command (bin : string) (args : list string)
    (env : option (gmap string string)) (cwd : option string)
    (allowed_commands allowed_cwd : list string) : result ValidatedCommand ExecError :=
  let? _ := validate_allowlist bin allowed_commands in
  let? _ := match cwd with
            | Some c => validate_cwd_allowlist c allowed_cwd
            | None => if negb (bool_decide (allowed_cwd = [])) then Err CwdRequired else Ok tt
            end in
  let? _ := validate_bin exists_ bin in
  let? _ := validate_args args in
  let? _ := match env with Some e => validate_env (env_keys e) | None => Ok tt end in
  let? _ := match cwd with Some c => validate_cwd is_dir c | None => Ok tt end in
  Ok (mkValidated bin args (default ∅ env) cwd).
End gate.

(** ** Lemmas *)
Lemma cwd_under_components cwd prefix :
  cwd_under cwd prefix = true →
  ∃ rest, path_components (as_bytes cwd) = path_components (as_bytes prefix) ++ rest.
Proof.
  unfold cwd_under. intros [->%str_eqb_true|(r & E)%starts_with_true]%orb_true_iff.
  { exists []. by rewrite app_nil_r. }
  exists (path_components r). rewrite E, <-app_assoc. simpl.
  by rewrite path_components_app, path_components_trim.
Qed.

Lemma component_infix l c : c ∈ split_byte SLASH l → ∃ x y, l = x ++ c ++ y.
Proof.
  revert c. induction l as [|a l IH]; intros c; simpl.
  { intros ->%list_elem_of_singleton. by exists [], []. }
  case_bool_decide.
  - rewrite elem_of_cons. intros [->|(x & y & ->)%IH]; [by exists [], (a :: l)|].
    by exists (a :: x), y.
  - destruct (split_byte SLASH l) as [|p ps] eqn:E; [by apply split_byte_not_nil in E|].
    rewrite elem_of_cons. intros [->|Hc].
    + assert (Hpre : ∃ y, l = p ++ y).
      { clear IH. rewrite <-(join_split_byte SLASH l), E. destruct ps; simpl; [exists []|eexists];
          [by rewrite app_nil_r|done]. }
      destruct Hpre as [y ->]. by exists [], y.
    + destruct (IH c) as (x & y & ->); [set_solver|]. by exists (a :: x), y.
Qed.

Lemma no_dotdot_component l :
  contains (as_bytes "..") l = false → as_bytes ".." ∉ path_components l.
Proof.
  intros Hc [_ (x & y & E)%component_infix]%list_elem_of_filter.
  by apply (contains_false _ _ Hc x y).
Qed.

Lemma list_find_None_Forall {A} (P : A → Prop) `{∀ x, Decision (P x)} (l : list A) :
  list_find P l = None → Forall (λ x, ¬ P x) l.
Proof. apply list_find_None. Qed.

Lemma validate_bin_ok ex bin :
  validate_bin ex bin = Ok tt →
  bin ≠ "" ∧ (∀ b, b ∈ as_bytes bin → b ∉ SHELL_METACHARACTERS) ∧
  (Byte.x20 ∈ as_bytes bin → ex bin = true).
Proof.
  unfold validate_bin. destruct (str_eqb bin "") eqn:E1; [done|].
  destruct (has_metacharacter _) eqn:E2; [done|].
  destruct (bool_decide (Byte.x20 ∈ as_bytes bin) && negb (ex bin)) eqn:E3; [done|]. intros _.
  split_and!; [by apply str_eqb_false| |].
  - intros b Hb Hm. apply not_true_iff_false in E2. apply E2, existsb_exists.
    exists b. split; [by apply list_elem_of_In|by apply bool_decide_eq_true_2].
  - intros Hs. rewrite bool_decide_eq_true_2 in E3 by done. by destruct (ex bin).
Qed.

Lemma validate_allowlist_ok bin allowed :
  validate_allowlist bin allowed = Ok tt → bin ∈ allowed.
Proof.
  unfold validate_allowlist. case_bool_decide; [done|].
  destruct (existsb _ _) eqn:E; [|done]. intros _.
  apply existsb_exists in E as (a & Ha%list_elem_of_In & ->%str_eqb_true). done.
Qed.

Lemma validate_cwd_allowlist_ok cwd allowed :
  validate_cwd_allowlist cwd allowed = Ok tt → ∃ a, a ∈ allowed ∧ cwd_under cwd a = true.
Proof.
  unfold validate_cwd_allowlist. case_bool_decide; [done|].
  destruct (existsb _ _) eqn:E; [|done]. intros _.
  apply existsb_exists in E as (a & Ha%list_elem_of_In & Hu). eauto.
Qed.

Lemma validate_cwd_ok is_dir cwd :
  validate_cwd is_dir cwd = Ok tt →
  starts_with [SLASH] (as_bytes cwd) = true ∧ as_bytes ".." ∉ path_components (as_bytes cwd) ∧
  is_dir cwd = true.
Proof.
  unfold validate_cwd. destruct (starts_with _ _); [|done]. simpl.
  destruct (contains _ _) eqn:Ec; [done|]. destruct (is_dir cwd); [|done].
  intros _. split_and!; [done|by apply no_dotdot_component|done].
Qed.

(** ** Property *)
Section gate_thms.
Variables exists_ is_dir : string → bool.
Variable env_keys : gmap string string → list string.
Hypothesis env_keys_all : ∀ e k, is_Some (e !! k) → k ∈ env_keys e.

(** What a command that passed the gate is. It is the command asked for,
    unchanged; its binary is on the allowlist and free of shell
    metacharacters, no argument has a NUL, every environment key is valid;
    and its working directory, which may only be missing if no directory is
    allowed, is an existing absolute path without parent components, whose
    components start with those of an allowed directory (so that [/tmpevil]
    is not taken to be under [/tmp]). *)
Theorem validate_command_sound bin args env cwd allowed_commands allowed_cwd v :
  validate_command exists_ is_dir env_keys bin args env cwd allowed_commands allowed_cwd = Ok v →
  v = mkValidated bin args (default ∅ env) cwd ∧
  bin ∈ allowed_commands ∧ bin ≠ "" ∧ (∀ b, b ∈ as_bytes bin → b ∉ SHELL_METACHARACTERS) ∧
  Forall (λ arg, Byte.x00 ∉ as_bytes arg) args ∧
  (∀ k x, v_env v !! k = Some x → is_valid_env_key k = true) ∧
  match cwd with
  | None => allowed_cwd = []
  | Some c =>
      is_dir c = true ∧ starts_with [SLASH] (as_bytes c) = true ∧
      as_bytes ".." ∉ path_components (as_bytes c) ∧
      ∃ a, a ∈ allowed_cwd ∧ path_components (as_bytes a) `prefix_of` path_components (as_bytes c)
  end.
Proof.
  unfold validate_command.
  intros ([] & Ha%validate_allowlist_ok & H)%result_bind_ok.
  apply result_bind_ok in H as ([] & Hc & H).
  apply result_bind_ok in H as ([] & (Hb1 & Hb2 & _)%validate_bin_ok & H).
  apply result_bind_ok in H as ([] & Hargs & H).
  apply result_bind_ok in H as ([] & Henv & H).
  apply result_bind_ok in H as ([] & Hd & [= <-]).
  split_and!; try done.
  - unfold validate_args in Hargs. destruct (list_find _ _) as [[]|] eqn:E; [done|].
    apply list_find_None_Forall in E. eapply Forall_impl; [exact E|]. simpl.
    intros arg Hn Hin. apply Hn. unfold has_nul. by apply bool_decide_eq_true_2.
  - intros k x. simpl. destruct env as [e|]; simpl; [|by rewrite lookup_empty].
    intros Hk. unfold validate_env in Henv. destruct (list_find _ _) as [[]|] eqn:E; [done|].
    apply list_find_None_Forall in E. apply not_false_iff_true.
    apply (proj1 (Forall_forall _ _) E). apply env_keys_all. eauto.
  - destruct cwd as [c|]; [|by case_bool_decide].
    apply validate_cwd_ok in Hd as (Habs & Hdots & Hdir).
    apply validate_cwd_allowlist_ok in Hc as (a & Hin & (rest & E)%cwd_under_components).
    split_and!; [done..|]. exists a. split; [done|]. by exists rest.
Qed.
End gate_thms.
