(* ===== verification/LauncherExec.v ===== *)
(** * LauncherExec: the command gate of the launcher ([mxdx-launcher/executor.rs])

    The lexical path normalisation, the blocked argument patterns and
    [validate_command]. *)
From S2P Require Import Prelude Text.

Inductive CapabilityMode : Type := Allowlist | Denylist.

Record CapabilitiesConfig := mkCapabilities {
  mode : CapabilityMode;
  allowed_commands : list string;
  allowed_cwd_prefixes : list string;
  max_sessions : Z
}.

Record ValidatedCommand := mkValidated { cmd : string; args : list string; cwd : option string }.

Inductive ExecutorError : Type :=
| CommandNotPermitted (cmd : string)
| CwdNotPermitted (normalized : string)
| GitConfigBlocked (arg : string)
| GitSubmoduleForeachBlocked
| DockerComposeFileBlocked
| EnvBlocked.

Definition DOTDOT : Bytes := as_bytes "..".
Definition DOT1 : Bytes := as_bytes ".".

(** One part of the path; the components are kept last first. *)
Definition normalize_part (is_absolute : bool) (components : list Bytes) (part : Bytes)
    : list Bytes :=
  if bool_decide (part = [] ∨ part = DOT1) then components
  else if bool_decide (part = DOTDOT) then
    if is_absolute then tail components
    else match components with
         | [] => DOTDOT :: components
         | c :: rest => if bool_decide (c = DOTDOT) then DOTDOT :: components else rest
         end
  else part :: components.

Definition normalize_components (is_absolute : bool) (path : Bytes) : list Bytes :=
  reverse (foldl (normalize_part is_absolute) [] (split_byte SLASH path)).

Definition is_absolute_path (path : Bytes) : bool := starts_with [SLASH] path.

Definition normalize_path (path : Bytes) : Bytes :=
  let components := normalize_components (is_absolute_path path) path in
  if is_absolute_path path then SLASH :: join [SLASH] components else join [SLASH] components.

Fixpoint git_args (args : list string) : result unit ExecutorError :=
  match args with
  | [] => Ok tt
  | arg :: rest =>
      if str_eqb arg "-c" || str_eqb arg "--config" then Err (GitConfigBlocked arg)
      else if str_eqb arg "submodule" &&
              match rest with next :: _ => str_eqb next "foreach" | [] => false end
      then Err GitSubmoduleForeachBlocked
      else git_args rest
  end.

Fixpoint docker_args (args : list string) : result unit ExecutorError :=
  match args with
  | [] => Ok tt
  | arg :: rest =>
      if str_eqb arg "compose" && existsb (λ a, str_eqb a "-f" || str_eqb a "--file") rest
      then Err DockerComposeFileBlocked
      else docker_args rest
  end.

Definition validate_args (cmd : string) (args : list string) : result unit ExecutorError :=
  if str_eqb cmd "git" then git_args args
  else if str_eqb cmd "docker" then docker_args args
  else if str_eqb cmd "env" then Err EnvBlocked
  else Ok tt.

Definition resolve_cwd (config : CapabilitiesConfig) (cwd : option string)
    : result (option string) ExecutorError :=
  match cwd with
  | None => Ok None
  | Some cwd_str =>
      let normalized := normalize_path (as_bytes cwd_str) in
      if existsb (λ prefix, starts_with (as_bytes prefix) normalized) (allowed_cwd_prefixes config)
      then Ok (Some (from_bytes normalized))
      else Err (CwdNotPermitted (from_bytes normalized))
  end.

Definition validate_command (config : CapabilitiesConfig) (cmd : string) (args : list string)
    (cwd : option string) : result ValidatedCommand ExecutorError :=
  if match mode config with Allowlist => true | Denylist => false end
     && negb (bool_decide (cmd ∈ allowed_commands config))
  then Err (CommandNotPermitted cmd)
  else
    let? resolved_cwd := resolve_cwd config cwd in
    let? _ := validate_args cmd args in
    Ok (mkValidated cmd args resolved_cwd).

(** ** Lemmas *)
Definition clean (c : Bytes) : Prop := c ≠ [] ∧ c ≠ DOT1 ∧ c ≠ DOTDOT ∧ SLASH ∉ c.

(** A stack of components in normal form, last component first: an absolute
    path has no parent components, a relative one only at its start. *)
Definition normal_stack (is_absolute : bool) (st : list Bytes) : Prop :=
  ∃ k names, st = names ++ replicate k DOTDOT ∧ Forall clean names ∧
             (is_absolute = true → k = 0).

Lemma slash_not_dotdot : SLASH ∉ DOTDOT.
Proof. apply (bool_decide_eq_false _). reflexivity. Qed.

Lemma normalize_part_normal abs st part :
  SLASH ∉ part → normal_stack abs st → normal_stack abs (normalize_part abs st part).
Proof.
  intros Hs (k & names & -> & Hn & Hk). unfold normalize_part.
  case_bool_decide as Hskip; [by exists k, names|].
  case_bool_decide as Hdd.
  - destruct abs.
    + rewrite (Hk eq_refl), app_nil_r. exists 0, (tail names). rewrite app_nil_r.
      split_and!; [done| |done]. destruct names; [done|]. by inversion Hn.
    + destruct names as [|c names]; simpl.
      * destruct k as [|k]; [by exists 1, []|by exists (S (S k)), []].
      * inversion_clear Hn as [|? ? Hc Hn']. rewrite bool_decide_eq_false_2 by apply Hc.
        by exists k, names.
  - exists k, (part :: names). split_and!; [done| |done]. constructor; [|done].
    split_and!; naive_solver.
Qed.

Lemma normalize_fold_normal abs parts st :
  Forall (λ p, SLASH ∉ p) parts → normal_stack abs st →
  normal_stack abs (foldl (normalize_part abs) st parts).
Proof.
  intros Hp. revert st. induction Hp as [|p parts Hp _ IH]; intros st Hst; [done|].
  simpl. apply IH. by apply normalize_part_normal.
Qed.

Lemma normalize_components_normal abs path :
  normal_stack abs (reverse (normalize_components abs path)).
Proof.
  unfold normalize_components. rewrite reverse_involutive. apply normalize_fold_normal.
  - apply Forall_forall. intros p. apply split_byte_no_sep.
  - by exists 0, [].
Qed.

(** Walking a normal form rebuilds it. *)
Lemma normalize_fold_clean abs names st :
  Forall clean names → foldl (normalize_part abs) st names = reverse names ++ st.
Proof.
  intros Hn. revert st. induction Hn as [|c names Hc _ IH]; intros st; [done|].
  simpl. rewrite IH, reverse_cons, <-app_assoc. simpl. f_equal. unfold normalize_part.
  destruct Hc as (H1 & H2 & H3 & _). by rewrite !bool_decide_eq_false_2 by naive_solver.
Qed.

Lemma normalize_fold_parents k j :
  foldl (normalize_part false) (replicate j DOTDOT) (replicate k DOTDOT)
  = replicate (k + j) DOTDOT.
Proof.
  revert j. induction k as [|k IH]; intros j; [done|]. simpl.
  assert (normalize_part false (replicate j DOTDOT) DOTDOT = replicate (S j) DOTDOT) as ->.
  { unfold normalize_part. rewrite bool_decide_eq_false_2 by naive_solver.
    rewrite bool_decide_eq_true_2 by done. by destruct j. }
  rewrite IH. by rewrite Nat.add_succ_r.
Qed.

Lemma normalize_fold_id abs comps :
  normal_stack abs (reverse comps) →
  foldl (normalize_part abs) [] comps = reverse comps.
Proof.
  intros (k & names & E & Hn & Hk). apply (f_equal reverse) in E.
  rewrite reverse_involutive, reverse_app, reverse_replicate in E. subst comps.
  rewrite foldl_app, reverse_app, reverse_replicate, reverse_involutive.
  rewrite (normalize_fold_clean _ (reverse names)) by by apply Forall_reverse.
  rewrite reverse_involutive. f_equal. destruct abs; [by rewrite (Hk eq_refl)|].
  change [] with (replicate 0 DOTDOT). by rewrite normalize_fold_parents, Nat.add_0_r.
Qed.

Lemma normal_stack_parts abs st :
  normal_stack abs st → Forall (λ c, c ≠ [] ∧ SLASH ∉ c) st.
Proof.
  intros (k & names & -> & Hn & _). apply Forall_app. split.
  - eapply Forall_impl; [exact Hn|]. intros c (H1 & _ & _ & H2). done.
  - apply Forall_replicate. split; [done|apply slash_not_dotdot].
Qed.

Lemma join_relative comps :
  Forall (λ c, c ≠ [] ∧ SLASH ∉ c) comps → is_absolute_path (join [SLASH] comps) = false.
Proof.
  intros Hf. apply not_true_iff_false. intros (r & E)%starts_with_true. simpl in E.
  destruct comps as [|c comps]; [done|]. inversion_clear Hf as [|? ? [Hc Hs] _].
  destruct c as [|a c]; [done|]. destruct comps; simpl in E; simplify_eq; set_solver.
Qed.

Lemma split_join_comps comps :
  comps ≠ [] → Forall (λ c, c ≠ [] ∧ SLASH ∉ c) comps →
  split_byte SLASH (join [SLASH] comps) = comps.
Proof.
  intros Hn Hf. apply split_byte_join; [done|]. eapply Forall_impl; [exact Hf|]. naive_solver.
Qed.

Lemma normalize_join abs comps :
  normal_stack abs (reverse comps) →
  normalize_components abs (join [SLASH] comps) = comps ∧
  path_components (join [SLASH] comps) = comps.
Proof.
  intros Hst. pose proof (normal_stack_parts _ _ Hst) as Hp%Forall_reverse.
  rewrite reverse_involutive in Hp. unfold normalize_components, path_components.
  destruct comps as [|c comps]; [done|]. rewrite split_join_comps by done. split.
  - by rewrite normalize_fold_id, reverse_involutive.
  - apply list_filter_all. eapply Forall_impl; [exact Hp|]. naive_solver.
Qed.

Lemma normalize_components_slash l :
  normalize_components true (SLASH :: l) = normalize_components true l.
Proof. done. Qed.

(** The normal form is a fixed point, and what its components are. *)
Lemma normalize_path_normal p :
  normalize_path (normalize_path p) = normalize_path p ∧
  (is_absolute_path p = true →
   is_absolute_path (normalize_path p) = true ∧
   Forall clean (path_components (normalize_path p))).
Proof.
  pose proof (normalize_components_normal (is_absolute_path p) p) as Hst.
  pose proof (normal_stack_parts _ _ Hst) as Hp%Forall_reverse.
  destruct (normalize_join _ _ Hst) as [Hj Hc]. rewrite reverse_involutive in Hp.
  unfold normalize_path. destruct (is_absolute_path p).
  - split.
    + change (is_absolute_path (SLASH :: _)) with true. cbn iota.
      by rewrite normalize_components_slash, Hj.
    + intros _. split; [done|].
      change (SLASH :: ?l) with ([] ++ SLASH :: l). rewrite path_components_app, Hc.
      destruct Hst as (k & names & E & Hn & Hk). rewrite (Hk eq_refl), app_nil_r in E.
      simpl. rewrite <-(reverse_involutive (normalize_components true p)), E.
      by apply Forall_reverse.
  - split; [|done]. rewrite join_relative by done. by rewrite Hj.
Qed.

Lemma git_args_ok args :
  git_args args = Ok tt →
  "-c" ∉ args ∧ "--config" ∉ args ∧ (∀ x y, args ≠ x ++ "submodule" :: "foreach" :: y).
Proof.
  induction args as [|arg rest IH]; simpl.
  { intros _. split_and!; [set_solver|set_solver|]. by intros [|? []]. }
  destruct (str_eqb arg "-c" || str_eqb arg "--config") eqn:E1; [done|].
  apply orb_false_iff in E1 as [E1%str_eqb_false E2%str_eqb_false].
  destruct (_ && _) eqn:E3; [done|]. intros (H1 & H2 & H3)%IH.
  split_and!; [set_solver|set_solver|].
  intros [|a x] y E; simplify_eq/=; by apply (H3 x y).
Qed.

Lemma docker_args_ok args x y :
  docker_args args = Ok tt → args = x ++ "compose" :: y → "-f" ∉ y ∧ "--file" ∉ y.
Proof.
  revert x. induction args as [|arg rest IH]; simpl; intros x; [by destruct x|].
  destruct (str_eqb arg "compose" && _) eqn:E1; [done|].
  intros Hd E. destruct x as [|a x]; simplify_eq/=; [|by eapply IH].
  split; intros Hin;
    (apply not_true_iff_false in E1; apply E1, existsb_exists;
     eexists; split; [by apply list_elem_of_In|]; by rewrite str_eqb_refl, ?orb_true_r).
Qed.

(** The prefixes are compared as strings, not as paths: a sibling directory
    whose name continues an allowed one is let through. *)
Lemma cwd_prefix_no_boundary :
  let config := mkCapabilities Allowlist ["ls"] ["/tmp"] 5 in
  validate_command config "ls" [] (Some "/tmpevil/x")
  = Ok (mkValidated "ls" [] (Some "/tmpevil/x")).
Proof. vm_compute. reflexivity. Qed.

(** ** Property *)

(** C38: what a command that passed the launcher's gate is. The command and
    its arguments are those asked for; in allowlist mode the command is
    listed; [env] never passes, nor does [git] with [-c], [--config] or
    [submodule foreach], nor [docker compose] with a file option; and a
    working directory is the normal form of the one asked for, starts with
    an allowed prefix, is a fixed point of the normalisation and, if
    absolute, has no empty, [.] or [..] component left. *)
Theorem launcher_gate_sound config c a d v :
  validate_command config c a d = Ok v →
  cmd v = c ∧ args v = a ∧
  (mode config = Allowlist → c ∈ allowed_commands config) ∧ c ≠ "env" ∧
  (c = "git" → "-c" ∉ a ∧ "--config" ∉ a ∧ ∀ x y, a ≠ x ++ "submodule" :: "foreach" :: y) ∧
  (c = "docker" → ∀ x y, a = x ++ "compose" :: y → "-f" ∉ y ∧ "--file" ∉ y) ∧
  match d with
  | None => cwd v = None
  | Some dir =>
      let n := normalize_path (as_bytes dir) in
      cwd v = Some (from_bytes n) ∧ normalize_path n = n ∧
      (∃ p, p ∈ allowed_cwd_prefixes config ∧ starts_with (as_bytes p) n = true) ∧
      (is_absolute_path (as_bytes dir) = true →
       is_absolute_path n = true ∧ Forall clean (path_components n))
  end.
Proof.
  unfold validate_command. destruct (_ && _) eqn:Ea; [done|].
  intros (rc & Hrc & (t & Hargs & [= <-])%result_bind_ok)%result_bind_ok. simpl. destruct t.
  unfold validate_args in Hargs. split_and!; [done|done| | | | |].
  - intros Hm. rewrite Hm in Ea. simpl in Ea. by case_bool_decide.
  - intros ->. done.
  - intros ->. by apply git_args_ok.
  - intros -> x y. by apply docker_args_ok.
  - unfold resolve_cwd in Hrc. destruct d as [dir|]; [|by simplify_eq].
    simpl. destruct (existsb _ _) eqn:Ep; [|done]. simplify_eq.
    destruct (normalize_path_normal (as_bytes dir)) as [Hi Hc].
    split_and!; [done|done| |done]. apply existsb_exists in Ep as (p & Hp%list_elem_of_In & Hs).
    eauto.
Qed.

Lemma launcher_gate_sound_witness :
  let config := mkCapabilities Allowlist ["git"] ["/workspace"] 5 in
  let v := mkValidated "git" ["status"] (Some "/workspace/b") in
  validate_command config "git" ["status"] (Some "/workspace/./a/../b/") = Ok v ∧
  "git" ∈ allowed_commands config.
Proof.
  intros config v. split; [vm_compute; reflexivity|].
  refine (proj1 (proj2 (proj2 (launcher_gate_sound config "git" ["status"]
    (Some "/workspace/./a/../b/") v _))) eq_refl).
  vm_compute. reflexivity.
Defined.
