(* ===== verification/WorkerBatch.v ===== *)
(** * WorkerBatch: coalescing of session output ([mxdx-worker/batched_sender.rs])

    The loop of [BatchedSender] as a function of what its channel yields.
    [flate2] is an interface; the outcome of each send is an argument. *)
From S2P Require Import Prelude Text Instants.

Definition DEFAULT_BATCH_WINDOW : Duration := from_millis 200.
Definition P2P_OPEN_BATCH_WINDOW : Duration := from_millis 10.

Record BatchConfig := mkBatchConfig {
  batch_window : Duration;
  compression_threshold : nat;
  session_id : option string
}.
Definition batch_config_default : BatchConfig := mkBatchConfig DEFAULT_BATCH_WINDOW 32 None.

(** [DeflateEncoder]; [None] is an encoder error. [inflate] is the receiver's. *)
Class Deflate := {
  deflate : Bytes → option Bytes;
  inflate : Bytes → option Bytes;
}.
Class DeflateLaws `{Deflate} := inflate_deflate b c : deflate b = Some c → inflate c = Some b.

Definition maybe_compress `{Deflate} (data : Bytes) (threshold : nat) : Bytes * bool :=
  if decide (length data < threshold) then (data, false)
  else match deflate data with
       | Some compressed =>
           if decide (length compressed < length data) then (compressed, true) else (data, false)
       | None => (data, false)
       end.

(** ** [parse_retry_after] *)
(** [split(|c| !c.is_ascii_digit())]. *)
Fixpoint digit_words (l : Bytes) : list Bytes :=
  match l with
  | [] => [[]]
  | b :: l =>
      if is_ascii_digit b then
        match digit_words l with x :: xs => (b :: x) :: xs | [] => [[b]] end
      else [] :: digit_words l
  end.

(** The text from the first occurrence of [p] on. *)
Fixpoint find_from (p l : Bytes) : option Bytes :=
  if starts_with p l then Some l
  else match l with [] => None | _ :: l => find_from p l end.

Definition parse_retry_after (error_msg : string) : option Z :=
  rest ← find_from (as_bytes "retry_after_ms") (as_bytes error_msg);
  head (omap (λ word, ms ← parse_u64 word; if decide (0 < ms)%Z then Some ms else None)
          (digit_words rest)).

(** ** The loop *)

(** What a wait on the channel yields: data, the end of the channel or, when
    the wait has a deadline, its timeout. *)
Inductive Recv : Type :=
| Got (data : Bytes)
| ChannelClosed
| TimedOut.

Inductive BatchEffect : Type :=
| Sleep (wait_ms : Z)
| Send (payload : Bytes) (seq : Z) (compressed : bool).

Record BatchState := mkBatch { seq : Z; buffer : Bytes; backoff : option Z }.
Definition batch_init : BatchState := mkBatch 0 [] None.

Section loop.
Context `{Deflate}.
Variable config : BatchConfig.
(** [send_fn]'s result for the batch of a given number. *)
Variable send_result : Z → result unit string.

(** The wait after a failed send. *)
Definition backoff_after (r : result unit string) : option Z :=
  match r with
  | Ok _ => None
  | Err e =>
      if contains (as_bytes "429") (as_bytes e) then Some (default 5000%Z (parse_retry_after e))
      else None
  end.

Definition send_batch (st : BatchState) : BatchState * list BatchEffect :=
  let '(payload, compressed) := maybe_compress (buffer st) (compression_threshold config) in
  let n := (seq st + 1)%Z in
  (mkBatch n [] (backoff_after (send_result n)), [Send payload n compressed]).

(** One turn: [None] is the [break]. A wait with an empty buffer has no
    deadline, so it cannot time out. *)
Definition batch_turn (st : BatchState) (r : Recv) : option BatchState * list BatchEffect :=
  let slept := match backoff st with Some ms => [Sleep ms] | None => [] end in
  let st := mkBatch (seq st) (buffer st) None in
  match buffer st, r with
  | _, Got data => (Some (mkBatch (seq st) (buffer st ++ data) None), slept)
  | [], ChannelClosed => (None, slept)
  | [], TimedOut => (Some st, slept)
  | _ :: _, _ => let '(st, fx) := send_batch st in (Some st, slept ++ fx)
  end.

(** The turns, then the draining of what is left. *)
Fixpoint batch_loop (st : BatchState) (rs : list Recv) : option BatchState * list BatchEffect :=
  match rs with
  | [] => (Some st, [])
  | r :: rs =>
      match batch_turn st r with
      | (None, fx) =>
          (None, fx ++ match buffer st with [] => [] | _ => (send_batch st).2 end)
      | (Some st, fx) => let '(st, fx') := batch_loop st rs in (st, fx ++ fx')
      end
  end.
End loop.

(** [flush]: the sender is dropped, and the loop sees the end of the channel. *)
Definition flushed (rs : list Recv) : list Recv := rs ++ [ChannelClosed; ChannelClosed].

(** ** Lemmas *)

(** What the receiver of the events recovers from them. *)
Definition decode_batch `{Deflate} (e : BatchEffect) : Bytes :=
  match e with
  | Sleep _ => []
  | Send p _ compressed => if compressed then default [] (inflate p) else p
  end.
Definition decoded `{Deflate} (fx : list BatchEffect) : Bytes := concat (decode_batch <$> fx).
Definition seq_of (e : BatchEffect) : option Z :=
  match e with Sleep _ => None | Send _ n _ => Some n end.
Definition received (rs : list Recv) : Bytes :=
  concat ((λ r, match r with Got d => d | _ => [] end) <$> rs).

Section loop_lemmas.
Context `{Deflate, !DeflateLaws}.
Variables (config : BatchConfig) (send_result : Z → result unit string).
Abbreviation turn := (batch_turn config send_result).
Abbreviation loop := (batch_loop config send_result).

Lemma decoded_app fx fx' : decoded (fx ++ fx') = decoded fx ++ decoded fx'.
Proof. unfold decoded. by rewrite fmap_app, concat_app. Qed.

Lemma maybe_compress_decodes b t n :
  decode_batch (Send (maybe_compress b t).1 n (maybe_compress b t).2) = b.
Proof.
  unfold maybe_compress. case_decide; [done|]. destruct (deflate b) as [c|] eqn:E; [|done].
  case_decide; [|done]. simpl. by rewrite (inflate_deflate _ _ E).
Qed.

Lemma send_batch_spec st :
  let '(st', fx) := send_batch config send_result st in
  buffer st' = [] ∧ seq st' = (seq st + 1)%Z ∧ decoded fx = buffer st ∧
  omap seq_of fx = [(seq st + 1)%Z].
Proof.
  unfold send_batch, decoded.
  pose proof (maybe_compress_decodes (buffer st) (compression_threshold config) (seq st + 1)) as Hd.
  destruct (maybe_compress _ _) as [p c]. split_and!; try done.
  cbn [fmap list_fmap concat]. simpl in *. by rewrite Hd, app_nil_r.
Qed.

(** A turn moves what it receives into the buffer or the buffer into the
    next batch; it only ends the loop with an empty buffer. *)
Lemma turn_spec st r :
  match turn st r with
  | (Some st', fx) =>
      decoded fx ++ buffer st' = buffer st ++ received [r] ∧
      (seq st ≤ seq st')%Z ∧ omap seq_of fx = seqZ (seq st + 1) (seq st' - seq st)
  | (None, fx) => r = ChannelClosed ∧ buffer st = [] ∧ decoded fx = [] ∧ omap seq_of fx = []
  end.
Proof.
  unfold turn, received.
  set (slept := match backoff st with Some ms => [Sleep ms] | None => [] end).
  assert (Hs : decoded slept = [] ∧ omap seq_of slept = []) by (subst slept; by destruct (backoff st)).
  destruct Hs as [Hs1 Hs2].
  pose proof (send_batch_spec (mkBatch (seq st) (buffer st) None)) as Hb.
  destruct (send_batch _ _ _) as [st1 fx1]. simpl in *.
  destruct Hb as (B1 & B2 & B3 & B4).
  destruct (buffer st) as [|x b] eqn:Eb; destruct r as [d| |]; simpl;
    rewrite ?decoded_app, ?omap_app, ?Hs1, ?Hs2, ?B1, ?B2, ?B3, ?B4, ?app_nil_r, ?Z.sub_diag;
    split_and!; try done; try lia.
  all: by replace (seq st + 1 - seq st)%Z with 1%Z by lia.
Qed.

Lemma loop_spec st rs :
  match loop st rs with
  | (Some st', fx) =>
      decoded fx ++ buffer st' = buffer st ++ received rs ∧
      (seq st ≤ seq st')%Z ∧ omap seq_of fx = seqZ (seq st + 1) (seq st' - seq st)
  | (None, fx) =>
      ∃ rs1 rs2, rs = rs1 ++ ChannelClosed :: rs2 ∧ decoded fx = buffer st ++ received rs1 ∧
      ∃ n, (0 ≤ n)%Z ∧ omap seq_of fx = seqZ (seq st + 1) n
  end.
Proof.
  revert st. induction rs as [|r rs IH]; intros st; simpl.
  { unfold received. simpl. rewrite app_nil_r, Z.sub_diag. split_and!; [done|lia|done]. }
  pose proof (turn_spec st r) as Ht. destruct (turn st r) as [[st1|] fx1].
  - destruct Ht as (T1 & T2 & T3). specialize (IH st1).
    destruct (loop st1 rs) as [[st2|] fx2].
    + destruct IH as (I1 & I2 & I3). rewrite decoded_app, omap_app, T3, I3.
      split_and!; [|lia|].
      * rewrite <-app_assoc, I1, app_assoc, T1, <-app_assoc. f_equal.
        unfold received. simpl. by rewrite app_nil_r.
      * replace (seq st2 - seq st)%Z with ((seq st1 - seq st) + (seq st2 - seq st1))%Z by lia.
        rewrite seqZ_app by lia. do 2 f_equal. lia.
    + destruct IH as (rs1 & rs2 & -> & I1 & n & Hn & I3). exists (r :: rs1), rs2.
      rewrite decoded_app, I1, omap_app, T3, I3. split_and!; [done| |].
      * rewrite app_assoc, T1, <-app_assoc. f_equal. unfold received. simpl. by rewrite app_nil_r.
      * exists ((seq st1 - seq st) + n)%Z. split; [lia|]. rewrite seqZ_app by lia. do 2 f_equal. lia.
  - destruct Ht as (-> & -> & T1 & T2). exists [], rs. rewrite app_nil_r. split_and!; [done|done|].
    exists 0%Z. by rewrite T2.
Qed.

Lemma loop_app st rs rs' st1 fx :
  loop st rs = (Some st1, fx) →
  loop st (rs ++ rs') = ((loop st1 rs').1, fx ++ (loop st1 rs').2).
Proof.
  revert st fx. induction rs as [|r rs IH]; intros st fx; simpl.
  { intros [= <- <-]. by destruct (loop st rs'). }
  destruct (turn st r) as [[st2|] fx1]; [|done].
  destruct (loop st2 rs) as [o fx2] eqn:E. intros [= -> <-].
  rewrite (IH _ _ E). by rewrite app_assoc.
Qed.

Lemma loop_closed st : (loop st [ChannelClosed; ChannelClosed]).1 = None.
Proof.
  simpl. pose proof (turn_spec st ChannelClosed) as H1.
  destruct (turn st ChannelClosed) as [[st1|] fx1] eqn:E; [|done].
  destruct H1 as (_ & _ & _).
  assert (Hb : buffer st1 = []).
  { revert E. unfold turn. simpl.
    pose proof (send_batch_spec (mkBatch (seq st) (buffer st) None)) as Hb.
    destruct (send_batch _ _ _) as [st2 fx2]. simpl in *.
    destruct (buffer st); [done|]. intros [= <- _]. apply Hb. }
  assert (Ht : (turn st1 ChannelClosed).1 = None) by (unfold batch_turn; simpl; by rewrite Hb).
  destruct (turn st1 ChannelClosed) as [o fx2]. simpl in Ht. by subst o.
Qed.

(** ** Property *)

(** C37: the loop neither loses, duplicates nor reorders output on its own.
    At any point, what its batches decode to followed by what is buffered is
    what it has received, whatever the timing, and the batches carry the
    sequence numbers 1, 2, 3, ...; after a flush the loop ends with everything
    handed to [send_fn]. Each batch is handed over once: when its send fails,
    also with a 429, the loop waits and goes on with the next batch, so the
    receiver sees a gap in the sequence numbers. *)
Theorem batches_conserve_output rs :
  Forall (λ r, r ≠ ChannelClosed) rs →
  (∃ st fx, loop batch_init rs = (Some st, fx) ∧ decoded fx ++ buffer st = received rs ∧
     omap seq_of fx = seqZ 1 (seq st)) ∧
  (∃ fx n, loop batch_init (flushed rs) = (None, fx) ∧ decoded fx = received rs ∧
     omap seq_of fx = seqZ 1 n).
Proof.
  intros Hrs. pose proof (loop_spec batch_init rs) as Hl.
  destruct (loop batch_init rs) as [[st|] fx] eqn:E.
  2:{ destruct Hl as (rs1 & rs2 & -> & _). apply Forall_app in Hrs as [_ Hrs].
      by inversion Hrs. }
  destruct Hl as (H1 & _ & H3). simpl in *. rewrite Z.sub_0_r in H3. split.
  { exists st, fx. done. }
  pose proof (loop_closed st) as Hc. pose proof (loop_spec batch_init (flushed rs)) as Hf.
  unfold flushed in *. rewrite (loop_app _ _ _ _ _ E) in *. rewrite Hc in *.
  destruct Hf as (rs1 & rs2 & Hsplit & Hd & n & _ & Hn).
  exists (fx ++ (loop st [ChannelClosed; ChannelClosed]).2), n. split; [done|]. split; [|done].
  rewrite Hd. simpl. assert (rs1 = rs ∨ rs1 = rs ++ [ChannelClosed]) as [->| ->].
  { apply app_eq_inv in Hsplit as [(k & -> & Hk)|(k & -> & Hk)].
    - destruct k as [|k0 k]; [by left; rewrite app_nil_r|]. simplify_eq/=.
      apply Forall_app in Hrs as [_ Hrs]. by inversion Hrs.
    - destruct k as [|k0 k]; simplify_eq/=; [by left; rewrite app_nil_r|].
      destruct k; simplify_eq/=; [by right|]. by destruct k. }
  - done.
  - unfold received. by rewrite fmap_app, concat_app, app_nil_r.
Qed.
End loop_lemmas.

(** ** Witness: nothing compresses, and the second send is rate-limited. *)
Definition toy_deflate : Deflate := {| deflate _ := None; inflate _ := None |}.
#[local] Existing Instance toy_deflate.
Lemma toy_deflate_laws : DeflateLaws.
Proof. intros b c. done. Qed.
#[local] Existing Instance toy_deflate_laws.

Lemma batches_conserve_output_witness :
  let send n := if decide (n = 1)%Z then Err "429 retry_after_ms: 250" else Ok tt in
  let rs := [Got [Byte.x61]; Got [Byte.x62]; TimedOut; Got [Byte.x63]; TimedOut] in
  let run := batch_loop batch_config_default send batch_init rs in
  run.2 = [Send [Byte.x61; Byte.x62] 1 false; Sleep 250; Send [Byte.x63] 2 false] ∧
  ∃ st fx, run = (Some st, fx) ∧ decoded fx ++ buffer st = received rs ∧
    omap seq_of fx = seqZ 1 (seq st).
Proof.
  intros send rs run. split; [vm_compute; reflexivity|].
  refine (proj1 (batches_conserve_output batch_config_default send rs _)).
  repeat constructor; discriminate.
Defined.
