(* ===== verification/WorkerMux.v ===== *)
(** * WorkerMux: routing of terminal events to sessions ([mxdx-worker/session_mux.rs]) *)
From S2P Require Import Prelude Json.

Record SessionMuxEntry := mkMuxEntry {
  e_session_id : string; dm_room_id : string; client_user_id : string
}.
Record SessionMux := mkMux {
  sessions : gmap string SessionMuxEntry;
  room_sessions : gmap string (list string)
}.

Inductive MuxAction : Type :=
| ForwardInput (session_id data : string)
| Resize (session_id : string) (cols rows : Z)
| Signal (session_id signal : string)
| NoMatch.

Definition mux_new : SessionMux := mkMux ∅ ∅.

Definition add_session (session_id room_id user_id : string) (m : SessionMux) : SessionMux :=
  mkMux (<[session_id := mkMuxEntry session_id room_id user_id]> (sessions m))
    (<[room_id := default [] (room_sessions m !! room_id) ++ [session_id]]> (room_sessions m)).

Definition remove_session (session_id : string) (m : SessionMux) : SessionMux :=
  match sessions m !! session_id with
  | None => m
  | Some entry =>
      mkMux (delete session_id (sessions m))
        match room_sessions m !! dm_room_id entry with
        | None => room_sessions m
        | Some ids =>
            let ids := filter (λ id, id ≠ session_id) ids in
            if bool_decide (ids = []) then delete (dm_room_id entry) (room_sessions m)
            else <[dm_room_id entry := ids]> (room_sessions m)
        end
  end.

Definition sessions_in_room (room_id : string) (m : SessionMux) : list string :=
  default [] (room_sessions m !! room_id).
Definition has_session (session_id : string) (m : SessionMux) : bool :=
  bool_decide (is_Some (sessions m !! session_id)).
Definition session_count (m : SessionMux) : nat := size (sessions m).

Section route.
Context {V : Type} `{JV : JsonValue V} `{JU : JsonU64 V}.

Definition route_event (event_type content_json : string) (m : SessionMux) : MuxAction :=
  match from_str (V := V) content_json with
  | Err _ => NoMatch
  | Ok content =>
      match get_str content "session_uuid" with
      | None => NoMatch
      | Some session_id =>
          if negb (has_session session_id m) then NoMatch
          else if str_eqb event_type "org.mxdx.session.input" then
            ForwardInput session_id (default "" (get_str content "data"))
          else if str_eqb event_type "org.mxdx.session.resize" then
            Resize session_id (as_u16 (default 80%Z (get_uint content "cols")))
              (as_u16 (default 24%Z (get_uint content "rows")))
          else if str_eqb event_type "org.mxdx.session.signal" then
            Signal session_id (default "SIGTERM" (get_str content "signal"))
          else NoMatch
      end
  end.
End route.

Definition action_session (a : MuxAction) : option string :=
  match a with
  | ForwardInput s _ | Resize s _ _ | Signal s _ => Some s
  | NoMatch => None
  end.

(** ** The two maps *)
Inductive MuxOp : Type :=
| OpAdd (session_id room_id user_id : string)
| OpRemove (session_id : string).

Definition mux_op (m : SessionMux) (op : MuxOp) : SessionMux :=
  match op with
  | OpAdd s r u => add_session s r u m
  | OpRemove s => remove_session s m
  end.

(** Session ids are fresh: none is added while it is registered. *)
Fixpoint fresh_ops (m : SessionMux) (ops : list MuxOp) : Prop :=
  match ops with
  | [] => True
  | op :: ops =>
      match op with OpAdd s _ _ => has_session s m = false | OpRemove _ => True end ∧
      fresh_ops (mux_op m op) ops
  end.

(** A room lists exactly the sessions registered in it, once each. *)
Definition mux_ok (m : SessionMux) : Prop :=
  (∀ r ids, room_sessions m !! r = Some ids → ids ≠ []) ∧
  (∀ r, NoDup (sessions_in_room r m)) ∧
  (∀ r s, s ∈ sessions_in_room r m ↔ ∃ e, sessions m !! s = Some e ∧ dm_room_id e = r) ∧
  (∀ s e, sessions m !! s = Some e → e_session_id e = s).

Lemma has_session_false s m : has_session s m = false ↔ sessions m !! s = None.
Proof. unfold has_session. rewrite bool_decide_eq_false, <-eq_None_not_Some. done. Qed.

Lemma mux_new_ok : mux_ok mux_new.
Proof.
  unfold mux_ok, sessions_in_room. simpl. split_and!.
  - intros r ids. by rewrite lookup_empty.
  - intros r. rewrite lookup_empty. constructor.
  - intros r s. rewrite lookup_empty. simpl. split; [set_solver|]. intros (e & He & _).
    by rewrite lookup_empty in He.
  - intros s e. by rewrite lookup_empty.
Qed.

Lemma sessions_in_room_add s r u r' m :
  sessions_in_room r' (add_session s r u m) =
  if decide (r' = r) then sessions_in_room r m ++ [s] else sessions_in_room r' m.
Proof.
  unfold sessions_in_room, add_session. simpl. case_decide; subst.
  - by rewrite lookup_insert_eq.
  - by rewrite lookup_insert_ne.
Qed.

Lemma add_session_ok s r u m :
  mux_ok m → has_session s m = false → mux_ok (add_session s r u m).
Proof.
  intros (Hne & Hnd & Hin & Hid) Hs%has_session_false.
  assert (Hnot : ∀ r', s ∉ sessions_in_room r' m).
  { intros r' (e & He & _)%Hin. by rewrite Hs in He. }
  split_and!.
  - intros r' ids. simpl. rewrite lookup_insert_Some. intros [[_ <-]|[_ H]]; [|by eapply Hne].
    by destruct (default [] _).
  - intros r'. rewrite sessions_in_room_add. case_decide; [|done].
    apply NoDup_app. split_and!; [done| |apply NoDup_singleton].
    intros x Hx ->%list_elem_of_singleton. by apply (Hnot r).
  - intros r' s'. rewrite sessions_in_room_add. simpl. setoid_rewrite lookup_insert_Some.
    case_decide; subst; rewrite ?elem_of_app, ?list_elem_of_singleton, Hin; split.
    + intros [(e & He & Hr)| ->]; [|naive_solver]. exists e. split; [right|done].
      split; [|done]. intros <-. by rewrite Hs in He.
    + intros (e & [[<- <-]|[Hn He]] & Hr); naive_solver.
    + intros (e & He & Hr). exists e. split; [right|done]. split; [|done].
      intros <-. by rewrite Hs in He.
    + intros (e & [[<- <-]|[Hn He]] & Hr); naive_solver.
  - intros s' e. simpl. rewrite lookup_insert_Some. intros [[<- <-]|[_ H]]; [done|by apply Hid].
Qed.

Lemma sessions_in_room_remove s e r' m :
  sessions m !! s = Some e → mux_ok m →
  sessions_in_room r' (remove_session s m) = filter (λ id, id ≠ s) (sessions_in_room r' m).
Proof.
  intros He (Hne & Hnd & Hin & Hid).
  assert (Hother : ∀ r, r ≠ dm_room_id e →
    filter (λ id, id ≠ s) (sessions_in_room r m) = sessions_in_room r m).
  { intros r Hr. apply list_filter_all, Forall_forall. intros x Hx ->.
    apply Hin in Hx as (e' & He' & <-). by simplify_eq. }
  assert (Hroom : s ∈ sessions_in_room (dm_room_id e) m) by (apply Hin; eauto).
  unfold sessions_in_room in *. unfold remove_session. rewrite He. simpl.
  destruct (room_sessions m !! dm_room_id e) as [ids|] eqn:Er; [|set_solver].
  destruct (decide (r' = dm_room_id e)) as [->|Hr].
  - rewrite Er. simpl. case_bool_decide as Hf;
      [by rewrite lookup_delete_eq, Hf|by rewrite lookup_insert_eq].
  - rewrite (Hother r' Hr).
    case_bool_decide; [by rewrite lookup_delete_ne by done|by rewrite lookup_insert_ne by done].
Qed.

Lemma remove_session_ok s m : mux_ok m → mux_ok (remove_session s m).
Proof.
  intros Hm. pose proof Hm as (Hne & Hnd & Hin & Hid).
  destruct (sessions m !! s) as [e|] eqn:He; [|unfold remove_session; by rewrite He].
  split_and!.
  - intros r ids. unfold remove_session. rewrite He. simpl.
    destruct (room_sessions m !! dm_room_id e) as [ids'|]; [|apply Hne].
    case_bool_decide; [intros [_ H']%lookup_delete_Some; by eapply Hne|].
    rewrite lookup_insert_Some. intros [[_ <-]|[_ H']]; [done|by eapply Hne].
  - intros r. rewrite (sessions_in_room_remove s e) by done. by apply NoDup_filter.
  - intros r s'. rewrite (sessions_in_room_remove s e), list_elem_of_filter, Hin by done.
    unfold remove_session. rewrite He. simpl. setoid_rewrite lookup_delete_Some. naive_solver.
  - intros s' e'. unfold remove_session. rewrite He. simpl.
    intros [_ H']%lookup_delete_Some. by apply Hid.
Qed.

Lemma mux_run_ok m ops : mux_ok m → fresh_ops m ops → mux_ok (foldl mux_op m ops).
Proof.
  revert m. induction ops as [|op ops IH]; intros m Hm; [done|]. intros [Hf Hops].
  simpl. apply IH; [|done]. destruct op; [by apply add_session_ok|by apply remove_session_ok].
Qed.

(** Re-adding a registered id under another room leaves it listed in the
    first room for good. *)
Lemma readd_leaves_stale_room :
  sessions_in_room "!a:x"
    (foldl mux_op mux_new [OpAdd "s" "!a:x" "u"; OpAdd "s" "!b:x" "u"; OpRemove "s"]) = ["s"].
Proof. vm_compute. reflexivity. Qed.

(** ** Property *)

(** Registration and routing agree. As long as no id is added while it is
    registered, a room lists exactly the sessions registered in it, once
    each, and empty rooms are forgotten; and an event is only ever routed to
    a registered session, the one its content names, with terminal
    dimensions that fit 16 bits (a larger number is cut, not rejected). *)
Theorem mux_consistent `{JV : JsonValue V, JU : JsonU64 V} ops :
  fresh_ops mux_new ops →
  let m := foldl mux_op mux_new ops in
  mux_ok m ∧
  ∀ event_type json s,
    action_session (route_event (V := V) event_type json m) = Some s →
    (∃ content, from_str (V := V) json = Ok content ∧ get_str content "session_uuid" = Some s) ∧
    (∃ e, sessions m !! s = Some e ∧ s ∈ sessions_in_room (dm_room_id e) m) ∧
    (∀ cols rows, route_event (V := V) event_type json m = Resize s cols rows →
       is_uint 16 cols ∧ is_uint 16 rows).
Proof.
  intros Hf m. pose proof (mux_run_ok _ _ mux_new_ok Hf) as Hm. split; [done|].
  intros et json s. unfold route_event. destruct (from_str json) as [content|]; [|done].
  destruct (get_str content "session_uuid") as [s'|] eqn:Es; [|done].
  destruct (has_session s' m) eqn:Hs; [|done]. simpl.
  apply bool_decide_eq_true in Hs as [e He]. destruct Hm as (_ & _ & Hin & _).
  intros Ha. assert (s' = s) as -> by by repeat case_match; simplify_eq/=.
  split_and!; [by eauto|exists e; split; [done|apply Hin; by eauto]|].
  intros cols rows Hr. repeat case_match; simplify_eq/=. split; by apply wrap_range.
Qed.

Inductive toy_value : Type := TStr (s : string) | TNum (n : Z) | TNull.
Definition toy_value_json : JsonValue toy_value :=
  {| from_str s := Ok (TStr s);
     get v k := if decide (k = "session_uuid") then Some v
                else if decide (k = "cols") then Some (TNum 65616) else None;
     as_str v := match v with TStr s => Some s | _ => None end;
     json_null := TNull |}.
Definition toy_value_u64 : JsonU64 toy_value :=
  λ v, match v with TNum n => Some n | _ => None end.
#[local] Existing Instances toy_value_json toy_value_u64.
