(* ===== verification/SessionEvents.v ===== *)
(** * SessionEvents: the events of a session ([mxdx-types/events/session.rs])

    The contents that clients, workers and coordinators exchange about a
    session. *)
From S2P Require Import Prelude Fabric.

Record SessionTask := mkSessionTask {
  st_uuid : string; st_sender_id : string; bin : string; args : list string;
  env : option (gmap string string); cwd : option string;
  interactive : bool; no_room_output : bool;
  st_timeout_seconds : option Z; st_heartbeat_interval_seconds : Z; st_plan : option string;
  st_required_capabilities : list string; st_routing_mode : option RoutingMode;
  st_on_timeout : option FailurePolicy; st_on_heartbeat_miss : option FailurePolicy
}.

Inductive OutputStream : Type := Stdout | Stderr.
Inductive SessionStatus : Type := Success | Failed | Timeout | Cancelled.

Record SessionStart := mkStart {
  start_session : string; start_worker : string; start_tmux : option string;
  start_pid : option Z; start_at : Z; start_dm_room : option string
}.
Record SessionOutput := mkOutput {
  out_session : string; out_worker : string; out_stream : OutputStream; out_data : string;
  out_seq : Z; out_timestamp : Z
}.
Record SessionHeartbeat := mkSessionHeartbeat {
  shb_session : string; shb_worker : string; shb_timestamp : Z; shb_progress : option string
}.
Record SessionResult := mkSessionResult {
  sr_session : string; sr_worker : string; sr_status : SessionStatus; sr_exit_code : option Z;
  sr_duration : Z; sr_tail : option string
}.

(** The state events [session/{uuid}/active] and [session/{uuid}/completed]. *)
Record ActiveSessionState := mkActive {
  act_bin : string; act_args : list string; act_pid : option Z; act_start_time : Z;
  act_client : string; act_interactive : bool; act_worker : string
}.
Record CompletedSessionState := mkCompleted {
  cpl_exit_code : option Z; cpl_duration : Z; cpl_time : Z
}.

(** What a client says to a session. *)
Record SessionSignal := mkSignal { sig_session : string; sig_signal : string }.
Record SessionCancel := mkCancel {
  can_session : string; can_reason : option string; can_grace_seconds : option Z }.

(** ** Event types *)
Definition SESSION_TASK : string := "org.mxdx.session.task".
Definition SESSION_START : string := "org.mxdx.session.start".
Definition SESSION_OUTPUT : string := "org.mxdx.session.output".
Definition SESSION_HEARTBEAT : string := "org.mxdx.session.heartbeat".
Definition SESSION_RESULT : string := "org.mxdx.session.result".
Definition SESSION_INPUT : string := "org.mxdx.session.input".
Definition SESSION_SIGNAL : string := "org.mxdx.session.signal".
Definition SESSION_RESIZE : string := "org.mxdx.session.resize".
Definition SESSION_CANCEL : string := "org.mxdx.session.cancel".
