(* ===== verification/Coordinator.v ===== *)
(** * Coordinator: routing, claims and watching of sessions ([mxdx-coordinator])

    [router.rs] and [index.rs], two views of the known workers; [claim.rs],
    [watchlist.rs] and [failure.rs]; and the worker
    descriptions of [mxdx-types/events/worker_info.rs] and [capability.rs]. *)
From S2P Require Import Prelude Fabric SessionEvents.

(** ** Data *)
Record SchemaProperty := mkSchemaProperty { sp_type : string; sp_description : string }.
Record InputSchema := mkInputSchema {
  is_type : string; properties : gmap string SchemaProperty; required : list string
}.
Record WorkerTool := mkTool {
  tool_name : string; version : option string; description : string; healthy : bool;
  input_schema : InputSchema
}.
Record WorkerInfo := mkInfo {
  worker_id : string; host : string; os : string; arch : string;
  cpu_count : Z; memory_total_mb : Z; disk_available_mb : Z;
  tools : list WorkerTool; capabilities : list string; updated_at : Z
}.

(** ** [Router] *)
Record WorkerEntry := mkEntry { room_id : string; info : WorkerInfo }.
Abbreviation Router := (list WorkerEntry) (only parsing).
Definition router_new : Router := [].

Fixpoint update_worker (room : string) (i : WorkerInfo) (r : Router) : Router :=
  match r with
  | [] => [mkEntry room i]
  | w :: r =>
      if str_eqb (worker_id (info w)) (worker_id i) then mkEntry room i :: r
      else w :: update_worker room i r
  end.

Definition remove_worker (id : string) (r : Router) : Router :=
  filter (λ w, worker_id (info w) ≠ id) r.

(** [capabilities.contains(req) || tools.iter().any(...)]. *)
Definition offers (i : WorkerInfo) (req : string) : bool :=
  bool_decide (req ∈ capabilities i)
  || existsb (λ t, str_eqb (tool_name t) req && healthy t) (tools i).

Definition route (caps : list string) (r : Router) : option WorkerEntry :=
  if bool_decide (caps = []) then head r
  else head (filter (λ w, forallb (offers (info w)) caps = true) r).

Definition route_task (t : SessionTask) (r : Router) : option WorkerEntry :=
  route (st_required_capabilities t) r.

(** ** [CapabilityIndex] *)
Record CapabilityIndex := mkIndex {
  by_capability : gmap string (list string);
  workers : gmap string WorkerInfo
}.
Definition index_new : CapabilityIndex := mkIndex ∅ ∅.

Definition push_worker (cap id : string) (m : gmap string (list string))
    : gmap string (list string) :=
  <[cap := default [] (m !! cap) ++ [id]]> m.

Definition index_remove (id : string) (x : CapabilityIndex) : CapabilityIndex :=
  mkIndex (filter (λ kv, kv.2 ≠ []) (filter (λ w, w ≠ id) <$> by_capability x))
    (delete id (workers x)).

Definition index_update (i : WorkerInfo) (x : CapabilityIndex) : CapabilityIndex :=
  let id := worker_id i in
  let x := index_remove id x in
  let m := foldl (λ m cap, push_worker cap id m) (by_capability x) (capabilities i) in
  let m := foldl (λ m t, if healthy t then push_worker (tool_name t) id m else m) m (tools i) in
  mkIndex m (<[id := i]> (workers x)).

Definition workers_with_capability (cap : string) (x : CapabilityIndex) : list string :=
  default [] (by_capability x !! cap).

(** [keys] is the order in which the map of workers is iterated. *)
Definition workers_with_all (keys : gmap string WorkerInfo → list string) (caps : list string)
    (x : CapabilityIndex) : list string :=
  match caps with
  | [] => keys (workers x)
  | _ =>
      default [] (foldl (λ acc cap,
        let ws := workers_with_capability cap x in
        Some (match acc with
              | None => ws
              | Some prev => filter (λ id, id ∈ ws) prev
              end)) None caps)
  end.

Definition get_worker (id : string) (x : CapabilityIndex) : option WorkerInfo := workers x !! id.
Definition worker_count (x : CapabilityIndex) : nat := size (workers x).

(** ** [ClaimTracker] *)
Record ClaimRecord := mkClaimRecord {
  cr_session : string; cr_worker : string; cr_claimed_at : Z
}.
Abbreviation ClaimTracker := (gmap string ClaimRecord) (only parsing).

Definition record_claim (now : Z) (session worker : string) (c : ClaimTracker)
    : bool * ClaimTracker :=
  match c !! session with
  | Some _ => (false, c)
  | None => (true, <[session := mkClaimRecord session worker now]> c)
  end.
Definition get_claim (session : string) (c : ClaimTracker) : option ClaimRecord := c !! session.
Definition release_claim (session : string) (c : ClaimTracker) : ClaimTracker := delete session c.
Definition is_claimed (session : string) (c : ClaimTracker) : bool :=
  bool_decide (is_Some (c !! session)).

(** ** [Watchlist] *)
Record WatchedSession := mkWatched {
  ws_session : string; ws_worker : string; ws_room : string;
  started_at : Z; last_heartbeat : Z; heartbeat_interval : Z; timeout : option Z
}.
Inductive WatchAlert : Type :=
| HeartbeatMiss (session worker : string) (seconds_since_last : Z)
| TimeoutAlert (session worker : string) (elapsed_seconds : Z).

Abbreviation Watchlist := (gmap string WatchedSession) (only parsing).
Definition watch (s : WatchedSession) (w : Watchlist) : Watchlist := <[ws_session s := s]> w.
Definition unwatch (session : string) (w : Watchlist) : Watchlist := delete session w.
Definition record_heartbeat (now : Z) (session : string) (w : Watchlist) : Watchlist :=
  alter (λ s, mkWatched (ws_session s) (ws_worker s) (ws_room s) (started_at s) now
                (heartbeat_interval s) (timeout s)) session w.

(** The alerts of one session; the doubled interval wraps on [u64]. *)
Definition session_alerts (now : Z) (s : WatchedSession) : list WatchAlert :=
  let since_last := saturating_sub now (last_heartbeat s) in
  (if decide (wrap 64 (heartbeat_interval s * 2) < since_last)%Z
   then [HeartbeatMiss (ws_session s) (ws_worker s) since_last] else [])
  ++ match timeout s with
     | Some t =>
         let elapsed := saturating_sub now (started_at s) in
         if decide (t < elapsed)%Z then [TimeoutAlert (ws_session s) (ws_worker s) elapsed] else []
     | None => []
     end.

(** [values] is the order in which the map is iterated. *)
Definition check_at (values : Watchlist → list WatchedSession) (now : Z) (w : Watchlist)
    : list WatchAlert :=
  mjoin (session_alerts now <$> values w).

(** ** Failure policy *)
Inductive FailureAction : Type :=
| ActEscalate (session reason : string)
| ActRespawn (task : SessionTask) (attempt max_retries : Z)
| ActRespawnWithContext (task : SessionTask) (context : option string)
| ActAbandon.

Definition apply_policy (policy : FailurePolicy) (t : SessionTask) (reason : string) (attempt : Z)
    : FailureAction :=
  match policy with
  | Escalate => ActEscalate (st_uuid t) reason
  | Respawn max_retries =>
      if decide (max_retries ≤ attempt)%Z then
        ActEscalate (st_uuid t)
          (cat ["max retries ("; show max_retries; ") exceeded: "; reason])
      else ActRespawn t (as_u8 (attempt + 1)) max_retries
  | RespawnWithContext => ActRespawnWithContext t (st_plan t)
  | Abandon => ActAbandon
  end.

(** ** What router, index and claims are told *)
Inductive WorkerOp : Type :=
| WorkerUpdate (room : string) (i : WorkerInfo)
| WorkerRemove (id : string).

Definition router_op (r : Router) (op : WorkerOp) : Router :=
  match op with
  | WorkerUpdate room i => update_worker room i r
  | WorkerRemove id => remove_worker id r
  end.
Definition index_op (x : CapabilityIndex) (op : WorkerOp) : CapabilityIndex :=
  match op with
  | WorkerUpdate _ i => index_update i x
  | WorkerRemove id => index_remove id x
  end.

Inductive ClaimOp : Type :=
| OpClaim (now : Z) (session worker : string)
| OpRelease (session : string).
Definition claim_op (c : ClaimTracker) (op : ClaimOp) : ClaimTracker :=
  match op with
  | OpClaim now s w => (record_claim now s w c).2
  | OpRelease s => release_claim s c
  end.

(** ** Lemmas on the index *)
Abbreviation at_cap m c := (default [] (m !! c)) (only parsing).

Lemma elem_push_worker (m : gmap string (list string)) cap id c id' :
  id' ∈ at_cap (push_worker cap id m) c ↔ id' ∈ at_cap m c ∨ (c = cap ∧ id' = id).
Proof.
  unfold push_worker. destruct (decide (c = cap)) as [->|Hc].
  - rewrite lookup_insert_eq. simpl. rewrite elem_of_app, list_elem_of_singleton. naive_solver.
  - rewrite lookup_insert_ne by done. naive_solver.
Qed.

Lemma elem_push_caps caps (m : gmap string (list string)) id c id' :
  id' ∈ at_cap (foldl (λ m cap, push_worker cap id m) m caps) c
  ↔ id' ∈ at_cap m c ∨ (c ∈ caps ∧ id' = id).
Proof.
  revert m. induction caps as [|cap caps IH]; intros m; simpl; [set_solver|].
  rewrite IH, elem_push_worker, elem_of_cons. naive_solver.
Qed.

Lemma elem_push_tools ts (m : gmap string (list string)) id c id' :
  id' ∈ at_cap (foldl (λ m t, if healthy t then push_worker (tool_name t) id m else m) m ts) c
  ↔ id' ∈ at_cap m c ∨ (existsb (λ t, str_eqb (tool_name t) c && healthy t) ts = true ∧ id' = id).
Proof.
  revert m. induction ts as [|t ts IH]; intros m; simpl; [naive_solver|].
  rewrite IH. destruct (healthy t); rewrite ?andb_true_r, ?andb_false_r; [|done].
  rewrite elem_push_worker, orb_true_iff, str_eqb_true. naive_solver.
Qed.

Lemma elem_index_remove id x c id' :
  id' ∈ workers_with_capability c (index_remove id x)
  ↔ id' ∈ workers_with_capability c x ∧ id' ≠ id.
Proof.
  unfold workers_with_capability, index_remove. simpl.
  rewrite map_lookup_filter, lookup_fmap. destruct (by_capability x !! c) as [ws|]; simpl.
  - destruct (decide (filter (λ w, w ≠ id) ws = [])) as [E|Hne].
    + rewrite option_guard_False by naive_solver. simpl. split; [set_solver|].
      intros [H1 H2]. assert (id' ∈ filter (λ w, w ≠ id) ws) as Hin
        by by apply list_elem_of_filter. rewrite E in Hin. set_solver.
    + rewrite option_guard_True by done. simpl. rewrite list_elem_of_filter. naive_solver.
  - set_solver.
Qed.

(** The index lists under a capability exactly the workers that offer it. *)
Definition index_ok (x : CapabilityIndex) : Prop :=
  (∀ id cap, id ∈ workers_with_capability cap x ↔
             ∃ i, workers x !! id = Some i ∧ offers i cap = true) ∧
  (∀ id i, workers x !! id = Some i → worker_id i = id).

Lemma index_remove_ok id x : index_ok x → index_ok (index_remove id x).
Proof.
  intros [H1 H2]. split.
  - intros id' cap. rewrite elem_index_remove, H1. simpl.
    setoid_rewrite lookup_delete_Some. naive_solver.
  - intros id' i. simpl. intros [_ Hi]%lookup_delete_Some. by apply H2.
Qed.

Lemma index_update_ok i x : index_ok x → index_ok (index_update i x).
Proof.
  intros Hx. pose proof (index_remove_ok (worker_id i) x Hx) as [H1 H2]. split.
  - intros id' cap. set (x' := index_remove (worker_id i) x) in *.
    assert (Hl : id' ∈ workers_with_capability cap (index_update i x) ↔
      (id' ∈ workers_with_capability cap x' ∨ cap ∈ capabilities i ∧ id' = worker_id i) ∨
      existsb (λ t, str_eqb (tool_name t) cap && healthy t) (tools i) = true ∧ id' = worker_id i).
    { unfold workers_with_capability. cbn [by_capability index_update].
      by rewrite elem_push_tools, elem_push_caps. }
    rewrite Hl, H1. cbn [workers index_update]. fold x'.
    assert (Hn : workers x' !! worker_id i = None) by apply lookup_delete_eq.
    assert (Ho : offers i cap = true ↔ cap ∈ capabilities i ∨
      existsb (λ t, str_eqb (tool_name t) cap && healthy t) (tools i) = true).
    { unfold offers. by rewrite orb_true_iff, bool_decide_eq_true. }
    destruct (decide (id' = worker_id i)) as [->|Hid].
    + rewrite lookup_insert_eq, Hn. naive_solver.
    + rewrite lookup_insert_ne by done. naive_solver.
  - intros id' j. cbn [workers index_update]. rewrite lookup_insert_Some.
    intros [[<- <-]|[_ Hj]]; [done|by apply H2].
Qed.

Lemma elem_workers_with_all keys cap caps x id :
  id ∈ workers_with_all keys (cap :: caps) x ↔
  ∀ c, c ∈ cap :: caps → id ∈ workers_with_capability c x.
Proof.
  unfold workers_with_all. simpl. revert cap. generalize (workers_with_capability) as wc.
  intros wc cap. assert (Hf : ∀ prev, id ∈ default [] (foldl (λ acc c,
      Some match acc with
           | None => wc c x
           | Some prev => filter (λ id, id ∈ wc c x) prev
           end) (Some prev) caps) ↔ id ∈ prev ∧ ∀ c, c ∈ caps → id ∈ wc c x).
  { induction caps as [|c caps IH]; intros prev; simpl; [set_solver|].
    rewrite IH, list_elem_of_filter. set_solver. }
  rewrite Hf. set_solver.
Qed.

(** ** Lemmas on the router *)
Abbreviation ids r := ((λ w, worker_id (info w)) <$> r).

(** Router and index know the same workers, each once. *)
Definition in_step (r : Router) (x : CapabilityIndex) : Prop :=
  NoDup (ids r) ∧ ∀ i, (∃ w, w ∈ r ∧ info w = i) ↔ workers x !! worker_id i = Some i.

Lemma elem_ids (r : Router) id : id ∈ ids r ↔ ∃ w, w ∈ r ∧ worker_id (info w) = id.
Proof. rewrite list_elem_of_fmap. naive_solver. Qed.

Lemma elem_update_worker room i r w :
  NoDup (ids r) →
  w ∈ update_worker room i r ↔
  w = mkEntry room i ∨ (w ∈ r ∧ worker_id (info w) ≠ worker_id i).
Proof.
  induction r as [|w' r IH]; intros Hnd; simpl; [set_solver|].
  apply NoDup_cons in Hnd as [Hni Hnd]. rewrite elem_ids in Hni.
  destruct (str_eqb (worker_id (info w')) (worker_id i)) eqn:E.
  - apply str_eqb_true in E. rewrite !elem_of_cons. split; [|naive_solver].
    intros [->|Hw]; [by left|right]. split; [by right|]. intros E'. apply Hni.
    exists w. split; [done|]. congruence.
  - apply str_eqb_false in E. rewrite !elem_of_cons, IH by done. naive_solver.
Qed.

Lemma NoDup_update_worker room i r : NoDup (ids r) → NoDup (ids (update_worker room i r)).
Proof.
  induction r as [|w r IH]; intros Hnd; simpl; [repeat constructor; set_solver|].
  pose proof Hnd as Hnd0. apply NoDup_cons in Hnd as [Hni Hnd].
  destruct (str_eqb (worker_id (info w)) (worker_id i)) eqn:E; simpl.
  - apply str_eqb_true in E. by rewrite <-E.
  - apply str_eqb_false in E. apply NoDup_cons. split; [|by apply IH].
    rewrite elem_ids. intros (w' & Hw' & E'). apply elem_update_worker in Hw'; [|done].
    destruct Hw' as [->|[Hw' _]]; [done|]. apply Hni, elem_ids. eauto.
Qed.

Lemma in_step_update room i r x :
  in_step r x → in_step (update_worker room i r) (index_update i x).
Proof.
  intros [Hnd Hi]. split; [by apply NoDup_update_worker|]. intros j.
  setoid_rewrite (elem_update_worker room i r); [|done]. cbn [workers index_update index_remove].
  rewrite lookup_insert_Some, lookup_delete_Some. split.
  - intros (w & [->|[Hw Hne]] & <-); [by left|]. right. split; [done|].
    split; [done|]. apply Hi. eauto.
  - intros [[_ <-]|(Hne & _ & Hj)]; [exists (mkEntry room i); by auto|].
    apply Hi in Hj as (w & Hw & <-). exists w. naive_solver.
Qed.

Lemma in_step_remove id r x : in_step r x → in_step (remove_worker id r) (index_remove id x).
Proof.
  intros [Hnd Hi]. unfold remove_worker. split.
  - clear Hi. induction r as [|w r IH]; [done|]. apply NoDup_cons in Hnd as [Hni Hnd].
    rewrite filter_cons. case_decide; [|by apply IH]. simpl. apply NoDup_cons.
    split; [|by apply IH]. rewrite elem_ids in *. intros (w' & [_ Hw']%list_elem_of_filter & E).
    apply Hni. eauto.
  - intros j. setoid_rewrite list_elem_of_filter. simpl. rewrite lookup_delete_Some, <-Hi.
    naive_solver.
Qed.

Lemma ops_ok ops r x :
  in_step r x → index_ok x →
  in_step (foldl router_op r ops) (foldl index_op x ops) ∧ index_ok (foldl index_op x ops).
Proof.
  revert r x. induction ops as [|op ops IH]; intros r x Hs Hx; [done|]. simpl. apply IH.
  - destruct op; [by apply in_step_update|by apply in_step_remove].
  - destruct op; [by apply index_update_ok|by apply index_remove_ok].
Qed.

Lemma start_ok : in_step router_new index_new ∧ index_ok index_new.
Proof.
  split; [split|split].
  - constructor.
  - intros i. unfold router_new, index_new. simpl. rewrite lookup_empty. set_solver.
  - intros id cap. unfold workers_with_capability, index_new. simpl. rewrite lookup_empty. simpl.
    setoid_rewrite lookup_empty. set_solver.
  - intros id i. unfold index_new. simpl. by rewrite lookup_empty.
Qed.

Lemma elem_workers_with_all_ok keys caps x id :
  (∀ m k, k ∈ keys m ↔ is_Some (m !! k)) → index_ok x →
  id ∈ workers_with_all keys caps x ↔
  ∃ i, get_worker id x = Some i ∧ forallb (offers i) caps = true.
Proof.
  intros Hk [Hx _]. unfold get_worker. destruct caps as [|cap caps].
  - simpl. rewrite Hk. unfold is_Some. naive_solver.
  - rewrite elem_workers_with_all. split.
    + intros Hall. destruct (proj1 (Hx id cap)) as (i & Hi & _); [apply Hall; set_solver|].
      exists i. split; [done|]. apply forallb_forall. intros c Hc%list_elem_of_In.
      destruct (proj1 (Hx id c) (Hall c Hc)) as (j & Hj & Ho). by simplify_eq.
    + intros (i & Hi & Hall) c Hc. apply Hx. exists i. split; [done|].
      rewrite forallb_forall in Hall. by apply Hall, list_elem_of_In.
Qed.

(** ** Watching and failing *)
Lemma elem_session_alerts now s al :
  al ∈ session_alerts now s ↔
  (al = HeartbeatMiss (ws_session s) (ws_worker s) (saturating_sub now (last_heartbeat s)) ∧
   (wrap 64 (heartbeat_interval s * 2) < saturating_sub now (last_heartbeat s))%Z) ∨
  (∃ t, timeout s = Some t ∧
   al = TimeoutAlert (ws_session s) (ws_worker s) (saturating_sub now (started_at s)) ∧
   (t < saturating_sub now (started_at s))%Z).
Proof.
  unfold session_alerts. rewrite elem_of_app.
  destruct (timeout s); repeat case_decide;
    rewrite ?list_elem_of_singleton, ?elem_of_nil; naive_solver.
Qed.

(** A check reports each watched session that is late or out of time, and
    nothing else. *)
Lemma check_at_exact values now w al :
  (∀ w s, s ∈ values w ↔ ∃ k, w !! k = Some s) →
  al ∈ check_at values now w ↔ ∃ k s, w !! k = Some s ∧ al ∈ session_alerts now s.
Proof.
  intros Hv. unfold check_at. rewrite list_elem_of_join. split.
  - intros (l & Hal & Hl). apply list_elem_of_fmap in Hl as (s & -> & Hs).
    apply Hv in Hs as [k Hk]. eauto.
  - intros (k & s & Hk & Hal). exists (session_alerts now s). split; [done|].
    apply list_elem_of_fmap. exists s. split; [done|]. apply Hv. eauto.
Qed.

(** A heartbeat that has just been recorded is not missed. *)
Lemma heartbeat_not_missed now session s w al :
  w !! session = Some s → (0 ≤ heartbeat_interval s)%Z →
  record_heartbeat now session w !! session
    = Some (mkWatched (ws_session s) (ws_worker s) (ws_room s) (started_at s) now
              (heartbeat_interval s) (timeout s)) ∧
  (∀ s', record_heartbeat now session w !! session = Some s' →
         al ∈ session_alerts now s' → ∃ e, al = TimeoutAlert (ws_session s) (ws_worker s) e).
Proof.
  intros Hw Hh. unfold record_heartbeat. rewrite lookup_alter_eq, Hw. simpl. split; [done|].
  intros s' [= <-]. rewrite elem_session_alerts. simpl. unfold saturating_sub.
  pose proof (wrap_range 64 (heartbeat_interval s * 2) ltac:(lia)) as [Hb _].
  intros [[_ Hlt]|(t & _ & -> & _)]; [|by eauto]. lia.
Qed.

(** A respawn counts up to the limit without wrapping, and past it the
    failure is escalated. *)
Lemma respawn_counts n t reason attempt :
  (0 ≤ attempt)%Z → (n ≤ 255)%Z →
  apply_policy (Respawn n) t reason attempt
  = if decide (attempt < n)%Z then ActRespawn t (attempt + 1) n
    else ActEscalate (st_uuid t) (cat ["max retries ("; show n; ") exceeded: "; reason]).
Proof.
  intros Ha Hn. simpl. case_decide; case_decide; try lia; [done|].
  unfold as_u8. by rewrite wrap_small by (unfold is_uint; lia).
Qed.

(** ** Properties *)

(** The router and the capability index agree. Told of the same workers,
    in whatever order they come, change and go, the index answers with exactly
    the workers that offer every required capability, by name or as a
    healthy tool, and the router picks one of them, with the same description,
    or none if and only if there is none. *)
Theorem router_index_agree keys ops t :
  (∀ m k, k ∈ keys m ↔ is_Some (m !! k)) →
  let r := foldl router_op router_new ops in
  let x := foldl index_op index_new ops in
  let caps := st_required_capabilities t in
  (∀ id, id ∈ workers_with_all keys caps x ↔
     ∃ i, get_worker id x = Some i ∧ forallb (offers i) caps = true) ∧
  match route_task t r with
  | Some w => worker_id (info w) ∈ workers_with_all keys caps x ∧
              get_worker (worker_id (info w)) x = Some (info w)
  | None => workers_with_all keys caps x = []
  end.
Proof.
  intros Hk r x caps. destruct start_ok as [Hs0 Hx0].
  destruct (ops_ok ops _ _ Hs0 Hx0) as [[_ Hs] Hx]. fold r x in Hs, Hx.
  assert (Hall := λ id, elem_workers_with_all_ok keys caps x id Hk Hx). split; [done|].
  assert (Hr : route_task t r = head (filter (λ w, forallb (offers (info w)) caps = true) r)).
  { unfold route_task, route. fold caps. case_bool_decide as Hc; [|done]. rewrite Hc.
    by rewrite list_filter_all by by apply Forall_true. }
  rewrite Hr. destruct (filter _ r) as [|w ws] eqn:E; simpl.
  - destruct (workers_with_all keys caps x) as [|id l] eqn:El; [done|].
    destruct (proj1 (Hall id)) as (i & Hi & Ho); [set_solver|]. exfalso.
    destruct Hx as [_ Hid]. pose proof (Hid _ _ Hi) as <-.
    apply Hs in Hi as (w & Hw & <-).
    assert (w ∈ filter (λ w, forallb (offers (info w)) caps = true) r) as Hf
      by by apply list_elem_of_filter.
    rewrite E in Hf. by apply not_elem_of_nil in Hf.
  - assert (w ∈ filter (λ w, forallb (offers (info w)) caps = true) r) as Hf
      by (rewrite E; set_solver).
    apply list_elem_of_filter in Hf as [Ho Hw].
    assert (workers x !! worker_id (info w) = Some (info w)) as Hi by (apply Hs; eauto).
    split; [|done]. apply Hall. eauto.
Qed.

Lemma claim_kept ops s r (c : ClaimTracker) :
  c !! s = Some r → OpRelease s ∉ ops → foldl claim_op c ops !! s = Some r.
Proof.
  revert c. induction ops as [|op ops IH]; intros c Hc Hn; [done|]. simpl.
  apply IH; [|set_solver]. destruct op as [now s' w|s']; simpl.
  - unfold record_claim. destruct (c !! s') eqn:E; [done|]. simpl.
    rewrite lookup_insert_ne; [done|]. intros ->. by rewrite Hc in E.
  - unfold release_claim. rewrite lookup_delete_ne; [done|]. intros ->. set_solver.
Qed.

(** A session has one holder. Once a claim is recorded, and until it is
    released, whatever else is claimed and released, every further claim of
    that session is refused and the record still names the first worker and
    the time of its claim; a release makes the session claimable again. *)
Theorem claim_exclusive now s w c c1 ops :
  record_claim now s w c = (true, c1) → OpRelease s ∉ ops →
  let c2 := foldl claim_op c1 ops in
  get_claim s c2 = Some (mkClaimRecord s w now) ∧
  (∀ now' w', record_claim now' s w' c2 = (false, c2)) ∧
  (∀ now' w', (record_claim now' s w' (release_claim s c2)).1 = true).
Proof.
  intros Hr Hn c2. unfold record_claim in Hr. destruct (c !! s) eqn:E; simplify_eq/=.
  assert (c2 !! s = Some (mkClaimRecord s w now)) as H2
    by (apply claim_kept; [apply lookup_insert_eq|done]).
  split_and!; [done|..]; intros now' w'; unfold record_claim; [by rewrite H2|].
  unfold release_claim. by rewrite lookup_delete_eq.
Qed.

(** ** Witnesses *)
Definition toy_info (id : string) (caps : list string) (ts : list (string * bool)) : WorkerInfo :=
  mkInfo id "h" "linux" "x86_64" 4 1024 1024
    ((λ '(n, ok), mkTool n None "" ok (mkInputSchema "object" ∅ [])) <$> ts) caps 0.
Definition toy_session (caps : list string) : SessionTask :=
  mkSessionTask "t" "@s:x" "ls" [] None None false false None 30 None caps None None None.
Definition map_keys (m : gmap string WorkerInfo) : list string := (map_to_list m).*1.
Lemma map_keys_all m k : k ∈ map_keys m ↔ is_Some (m !! k).
Proof.
  unfold map_keys. rewrite list_elem_of_fmap. split.
  - intros ([k' i] & -> & Hki%elem_of_map_to_list). eauto.
  - intros [i Hi]. exists (k, i). by rewrite elem_of_map_to_list.
Qed.
