(* ===== verification/Liveness.v ===== *)
(** * Liveness: is a worker alive? ([mxdx-client/liveness.rs])

    The telemetry state event of a worker, the ISO 8601 timestamps in it and
    what the client concludes from them. Slicing a string off a character
    boundary panics: [None] at the outside of an [option (option _)]. Integer
    arithmetic wraps, as in a release build. *)
From S2P Require Import Prelude Text Instants Json.

(** ** Civil dates *)
Definition as_u64 (z : Z) : Z := wrap 64 z.
Definition as_i64 (z : Z) : Z := wrap 64 (z + 2 ^ 63) - 2 ^ 63.

Definition days_from_civil (year month day : Z) : Z :=
  (let y := if decide (month ≤ 2) then as_i64 (year - 1) else year in
   let era := Z.quot (if decide (0 ≤ y) then y else as_i64 (y - 399)) 400 in
   let yoe := as_u64 (y - as_i64 (era * 400)) in
   let doy := if decide (2 < month)
              then (153 * (month - 3) + 2) / 5 + day - 1
              else (153 * (month + 9) + 2) / 5 + day - 1 in
   let doe := yoe * 365 + yoe / 4 - yoe / 100 + doy in
   as_i64 (as_i64 (as_i64 (era * 146097) + doe) - 719468))%Z.

Definition strip_suffix (suffix l : Bytes) : option Bytes :=
  reverse <$> strip_prefix (reverse suffix) (reverse l).

(** ** [parse_iso8601_to_epoch_ms] *)

(** Slicing before a continuation byte panics. *)
Definition slice_to (n : nat) (l : Bytes) : option Bytes :=
  match drop n l with
  | b :: _ => if is_continuation b then None else Some (take n l)
  | [] => Some (take n l)
  end.

(** [format!("{:0<3}", s)]; the padding counts characters, which differs from
    bytes only on text that is no number anyway. *)
Definition pad_right3 (l : Bytes) : Bytes := l ++ replicate (3 - length l) ZERO.

(** The milliseconds after the dot: [None] is the panic. *)
Definition parse_fraction (frac : Bytes) : option (option Z) :=
  frac_str ← slice_to (Nat.min (length frac) 3) frac;
  Some (parse_u64 (pad_right3 frac_str)).

Definition parse_date (date_part : Bytes) : option (Z * Z * Z) :=
  '(y, m, d) ← splitn3 MINUS date_part;
  year ← parse_i64 y;
  month ← parse_u64 m;
  day ← parse_u64 d;
  if decide (1 ≤ month ≤ 12 ∧ 1 ≤ day ≤ 31)%Z then Some (year, month, day) else None.

Definition parse_clock (time_main : Bytes) : option (Z * Z * Z) :=
  '(h, mi, s) ← splitn3 CHAR_COLON time_main;
  hour ← parse_u64 h;
  minute ← parse_u64 mi;
  second ← parse_u64 s;
  if decide (hour ≤ 23 ∧ minute ≤ 59 ∧ second ≤ 60)%Z then Some (hour, minute, second) else None.

Definition epoch_ms (date clock : Z * Z * Z) (frac_ms : Z) : Z :=
  let '(year, month, day) := date in
  let '(hour, minute, second) := clock in
  as_u64 (as_u64 (days_from_civil year month day) * 86400000
          + hour * 3600000 + minute * 60000 + second * 1000 + frac_ms)%Z.

(** The suffix [Z] or [+00:00], the parts around [T], the date, the time. *)
Definition parse_iso8601_to_epoch_ms (s : Bytes) : option (option Z) :=
  let stripped := match strip_suffix (as_bytes "Z") s with
                  | Some r => Some r
                  | None => strip_suffix (as_bytes "+00:00") s
                  end in
  match s' ← stripped; split_once CHAR_T s' with
  | None => Some None
  | Some (date_part, time_part) =>
      match parse_date date_part with
      | None => Some None
      | Some date =>
          match split_once CHAR_DOT time_part with
          | None => Some (clock ← parse_clock time_part; Some (epoch_ms date clock 0))
          | Some (main, frac) =>
              ms ← parse_fraction frac;
              Some (frac_ms ← ms; clock ← parse_clock main; Some (epoch_ms date clock frac_ms))
          end
      end
  end.

(** ** The verdict on a worker *)
Inductive LivenessStatus : Type :=
| Online (capabilities : list string)
| Stale (age : Duration)
| Offline
| NoWorker.

Section liveness.
Context {V : Type} `{JV : JsonValue V} `{JU : JsonU64 V} `{JC : JsonContainers V}.

(** [now_ms]: [now_epoch_ms] at this call. *)
Definition check_worker_liveness (now_ms : Z) (telemetry : V) : option LivenessStatus :=
  if null_or_empty telemetry then Some NoWorker else
  match get_str telemetry "status" with
  | None => Some NoWorker
  | Some status =>
      match get_str telemetry "timestamp" with
      | None => Some NoWorker
      | Some timestamp =>
          let heartbeat_interval_ms := default 60000%Z (get_uint telemetry "heartbeat_interval_ms") in
          if str_eqb status "offline" then Some Offline else
          parsed ← parse_iso8601_to_epoch_ms (as_bytes timestamp);
          match parsed with
          | None => Some NoWorker
          | Some event_ts =>
              let age_ms := saturating_sub now_ms event_ts in
              if decide (as_u64 (2 * heartbeat_interval_ms) < age_ms)%Z
              then Some (Stale (from_millis age_ms))
              else
                let arr : option (list V) := v ← get telemetry "capabilities"; as_array v in
                Some (Online (default [] ((λ l : list V, omap as_str l) <$> arr)))
          end
      end
  end.

(** [now] is the clock at each event. *)
Fixpoint find_capable_worker (command : string) (now : nat → Z)
    (events : list (string * V)) : option (option (list string)) :=
  match events with
  | [] => Some None
  | (_, telemetry) :: events =>
      let cmd_basename := default command (file_name command) in
      status ← check_worker_liveness (now 0) telemetry;
      match status with
      | Online capabilities =>
          if bool_decide (capabilities = [])
             || existsb (λ c, str_eqb c command || str_eqb c cmd_basename) capabilities
          then Some (Some capabilities)
          else find_capable_worker command (now ∘ S) events
      | _ => find_capable_worker command (now ∘ S) events
      end
  end.

Record WorkerLivenessSummary := mkSummary {
  online : Z; stale_details : option Duration; offline : Z; no_worker : Z
}.
Definition summary_add (s : WorkerLivenessSummary) (st : LivenessStatus) : WorkerLivenessSummary :=
  match st with
  | Online _ => mkSummary (online s + 1) (stale_details s) (offline s) (no_worker s)
  | Stale d =>
      mkSummary (online s)
        (match stale_details s with
         | Some prev => if decide (d < prev)%Z then Some d else Some prev
         | None => Some d
         end) (offline s) (no_worker s)
  | Offline => mkSummary (online s) (stale_details s) (offline s + 1) (no_worker s)
  | NoWorker => mkSummary (online s) (stale_details s) (offline s) (no_worker s + 1)
  end.
Fixpoint summarize_from (s : WorkerLivenessSummary) (now : nat → Z) (events : list (string * V))
    : option WorkerLivenessSummary :=
  match events with
  | [] => Some s
  | (_, telemetry) :: events =>
      status ← check_worker_liveness (now 0) telemetry;
      summarize_from (summary_add s status) (now ∘ S) events
  end.
Definition summarize_worker_liveness : (nat → Z) → list (string * V) → option WorkerLivenessSummary :=
  summarize_from (mkSummary 0 None 0 0).
End liveness.

(** ** Lemmas *)
Lemma as_i64_small z : (- 2 ^ 63 ≤ z < 2 ^ 63)%Z → as_i64 z = z.
Proof. intros Hz. unfold as_i64. rewrite wrap_small; [lia|]. unfold is_uint. lia. Qed.
Lemma as_u64_small z : (0 ≤ z < 2 ^ 64)%Z → as_u64 z = z.
Proof. intros Hz. unfold as_u64. by apply wrap_small. Qed.

(** The number of the day, without the wrapping: the year starts in March. *)
Definition march_year (y m : Z) : Z := if decide (m ≤ 2)%Z then (y - 1)%Z else y.
Definition march_day (m d : Z) : Z :=
  (if decide (2 < m)%Z then (153 * (m - 3) + 2) / 5 + d - 1
   else (153 * (m + 9) + 2) / 5 + d - 1)%Z.
Definition year_start (y : Z) : Z :=
  (y / 400 * 146097 + (y mod 400 * 365 + y mod 400 / 4 - y mod 400 / 100) - 719468)%Z.

Lemma days_from_civil_unwrapped y m d :
  (1 ≤ y ≤ 10 ^ 9)%Z → (1 ≤ m ≤ 12)%Z → (1 ≤ d ≤ 31)%Z →
  days_from_civil y m d = (year_start (march_year y m) + march_day m d)%Z.
Proof.
  intros Hy Hm Hd. unfold days_from_civil.
  assert (Hmy : (if decide (m ≤ 2)%Z then as_i64 (y - 1) else y) = march_year y m).
  { unfold march_year. case_decide; [apply as_i64_small; lia|done]. }
  rewrite Hmy. assert (Hr : (0 ≤ march_year y m ≤ 10 ^ 9)%Z)
    by (unfold march_year; case_decide; lia).
  revert Hr. generalize (march_year y m) as y'. intros y' Hr. clear Hmy.
  assert (Hmd : (0 ≤ march_day m d ≤ 400)%Z)
    by (unfold march_day; case_decide; Z.to_euclidean_division_equations; lia).
  fold (march_day m d). revert Hmd. generalize (march_day m d) as doy. intros doy Hdoy.
  rewrite decide_True by lia. rewrite Z.quot_div_nonneg by lia.
  assert (Hera : (0 ≤ y' / 400 ≤ 10 ^ 9)%Z) by (Z.to_euclidean_division_equations; lia).
  assert (Hmod : (y' - y' / 400 * 400 = y' mod 400)%Z) by (Z.to_euclidean_division_equations; lia).
  pose proof (Z.mod_pos_bound y' 400) as Hb.
  rewrite (as_i64_small (y' / 400 * 400)) by lia. rewrite Hmod, as_u64_small by lia.
  unfold year_start. generalize dependent (y' / 400)%Z. generalize dependent (y' mod 400)%Z.
  intros r Hb q Hq _. specialize (Hb ltac:(lia)).
  assert (0 ≤ r / 4 ≤ 100)%Z by (Z.to_euclidean_division_equations; lia).
  assert (0 ≤ r / 100 ≤ 4)%Z by (Z.to_euclidean_division_equations; lia).
  rewrite (as_i64_small (q * 146097)) by lia.
  rewrite (as_i64_small (q * 146097 + _)) by lia. rewrite as_i64_small by lia. lia.
Qed.

Lemma year_start_le y : (0 ≤ y ≤ 9999)%Z → (year_start y ≤ 4 * 10 ^ 6)%Z.
Proof. intros Hy. unfold year_start. Z.to_euclidean_division_equations. lia. Qed.

Lemma days_from_civil_le y m d :
  (1 ≤ y ≤ 9999)%Z → (1 ≤ m ≤ 12)%Z → (1 ≤ d ≤ 31)%Z → (days_from_civil y m d ≤ 10 ^ 7)%Z.
Proof.
  intros Hy Hm Hd. rewrite days_from_civil_unwrapped by lia.
  pose proof (year_start_le (march_year y m)) as Hs.
  assert (0 ≤ march_year y m ≤ 9999)%Z as Hr by (unfold march_year; case_decide; lia).
  assert (march_day m d ≤ 400)%Z
    by (unfold march_day; case_decide; Z.to_euclidean_division_equations; lia).
  specialize (Hs Hr). lia.
Qed.

Lemma year_start_next y :
  (0 ≤ y)%Z → (year_start (y + 1) = year_start y + 365 + (if is_leap (y + 1) then 1 else 0))%Z.
Proof.
  intros Hy. unfold year_start, is_leap.
  case_bool_decide as Hl; Z.to_euclidean_division_equations; lia.
Qed.

Lemma month_cases m :
  (1 ≤ m ≤ 12)%Z → m = 1%Z ∨ m = 2%Z ∨ m = 3%Z ∨ m = 4%Z ∨ m = 5%Z ∨ m = 6%Z ∨ m = 7%Z ∨
                   m = 8%Z ∨ m = 9%Z ∨ m = 10%Z ∨ m = 11%Z ∨ m = 12%Z.
Proof. lia. Qed.

(** The last day of a month and the first of the next one, within a year
    that starts in March. *)
Lemma march_day_next y m :
  (1 ≤ m ≤ 11)%Z → m ≠ 2%Z →
  march_day (m + 1) 1 = (march_day m (days_in_month y m) + 1)%Z ∧
  march_year y (m + 1) = march_year y m.
Proof.
  intros Hm H2. assert (1 ≤ m ≤ 12)%Z as Hc%month_cases by lia.
  repeat (destruct Hc as [->|Hc]; [first [split; reflexivity | lia]|]). subst. lia.
Qed.

Lemma march_day_succ m d : march_day m (d + 1) = (march_day m d + 1)%Z.
Proof. unfold march_day. case_decide; lia. Qed.

Lemma march_consts y :
  march_year y (2 + 1) = y ∧ march_year y 2 = (y - 1)%Z ∧ march_day (2 + 1) 1 = 0%Z ∧
  march_day 2 28 = 364%Z ∧ march_day 2 29 = 365%Z ∧ march_year (y + 1) 1 = (y + 1 - 1)%Z ∧
  march_year y 12 = y ∧ march_day 1 1 = 306%Z ∧ march_day 12 31 = 305%Z.
Proof. by split_and!. Qed.

(** One day later, on the unwrapped number. *)
Lemma march_next y m d y' m' d' :
  valid_date (y, m, d) → next_day (y, m, d) = (y', m', d') →
  (year_start (march_year y' m') + march_day m' d'
   = year_start (march_year y m) + march_day m d + 1)%Z.
Proof.
  intros (Hy & Hm & Hd) E. destruct (march_consts y) as (C1 & C2 & C3 & C4 & C5 & C6 & C7 & C8 & C9).
  unfold next_day in E. case_decide as Hlt; [|case_decide as H12]; injection E as <- <- <-.
  - rewrite march_day_succ. lia.
  - assert (d = days_in_month y m) as -> by lia. destruct (decide (m = 2)%Z) as [->|H2].
    + pose proof (year_start_next (y - 1) ltac:(lia)) as Hs.
      replace (y - 1 + 1)%Z with y in Hs by lia. rewrite C1, C2, C3, Hs.
      unfold days_in_month. rewrite decide_True by done.
      destruct (is_leap y); rewrite ?C4, ?C5; lia.
    + destruct (march_day_next y m) as [-> ->]; [lia|done|]. lia.
  - assert (m = 12%Z) as -> by lia.
    assert (d = 31%Z) as -> by (unfold days_in_month in *; repeat case_decide; lia).
    rewrite C6, C7, C8, C9. replace (y + 1 - 1)%Z with y by lia. lia.
Qed.

(** The algorithm numbers the days as the calendar does. *)
Lemma days_civil n y m d :
  civil n = (y, m, d) → (y ≤ 10 ^ 9)%Z → days_from_civil y m d = Z.of_nat n.
Proof.
  revert y m d. induction n as [|n IH]; intros y' m' d'.
  { intros [= <- <- <-] _. vm_compute. reflexivity. }
  intros E Hy'. change (civil (S n)) with (next_day (civil n)) in E.
  pose proof (civil_valid n) as Hv. destruct (civil n) as [[y m] d].
  pose proof (next_day_valid _ Hv) as Hv'. rewrite E in Hv'.
  pose proof (march_next _ _ _ _ _ _ Hv E) as Hn. pose proof (next_day_year _ _ _ _ _ _ E).
  specialize (IH y m d eq_refl ltac:(lia)). destruct Hv as (Hy & Hm & Hd), Hv' as (? & Hm' & Hd').
  pose proof (days_in_month_bound y m). pose proof (days_in_month_bound y' m').
  rewrite days_from_civil_unwrapped in IH |- * by lia. lia.
Qed.

(** ** The text of an instant, as [toISOString] prints it *)
Definition iso_text (date : Z * Z * Z) (h mi s ms : Z) : Bytes :=
  let '(y, m, d) := date in
  (print_digits 4 y ++ MINUS :: print_digits 2 m ++ MINUS :: print_digits 2 d)
  ++ CHAR_T :: ((print_digits 2 h ++ CHAR_COLON :: print_digits 2 mi ++ CHAR_COLON :: print_digits 2 s)
  ++ CHAR_DOT :: print_digits 3 ms) ++ [CHAR_Z].

Lemma strip_suffix_snoc b l : strip_suffix [b] (l ++ [b]) = Some l.
Proof.
  unfold strip_suffix. rewrite reverse_snoc, reverse_singleton. simpl.
  rewrite bool_decide_eq_true_2 by done. simpl. by rewrite reverse_involutive.
Qed.

Lemma parse_date_print y m d :
  (0 ≤ y ≤ 9999)%Z → (1 ≤ m ≤ 12)%Z → (1 ≤ d ≤ 31)%Z →
  parse_date (print_digits 4 y ++ MINUS :: print_digits 2 m ++ MINUS :: print_digits 2 d)
  = Some (y, m, d).
Proof.
  intros Hy Hm Hd. unfold parse_date. rewrite splitn3_app by by apply not_digit.
  cbn [mbind option_bind]. rewrite parse_i64_print by (done || lia). cbn [mbind option_bind].
  rewrite !parse_u64_print by (done || unfold u64_max; lia). cbn [mbind option_bind].
  by rewrite decide_True.
Qed.

Lemma parse_clock_print h mi s :
  (0 ≤ h ≤ 23)%Z → (0 ≤ mi ≤ 59)%Z → (0 ≤ s ≤ 60)%Z →
  parse_clock (print_digits 2 h ++ CHAR_COLON :: print_digits 2 mi ++ CHAR_COLON :: print_digits 2 s)
  = Some (h, mi, s).
Proof.
  intros Hh Hmi Hs. unfold parse_clock. rewrite splitn3_app by by apply not_digit.
  cbn [mbind option_bind]. rewrite !parse_u64_print by (done || unfold u64_max; lia).
  cbn [mbind option_bind]. rewrite decide_True; [done|lia].
Qed.

Lemma parse_fraction_print ms :
  (0 ≤ ms ≤ 999)%Z → parse_fraction (print_digits 3 ms) = Some (Some ms).
Proof.
  intros Hms. pose proof (parse_u64_print 3 ms) as Hp. pose proof (print_digits_length 3 ms) as Hl.
  destruct (print_digits 3 ms) as [|a [|b [|c [|? ?]]]]; try discriminate Hl.
  change (parse_fraction [a; b; c]) with (Some (parse_u64 [a; b; c])).
  by rewrite Hp by (done || unfold u64_max; lia).
Qed.

(** The parts of an ISO text do not contain the separator that ends them. *)
Lemma not_in_date b x y z :
  is_ascii_digit b = false → b ≠ MINUS →
  b ∉ print_digits 4 x ++ MINUS :: print_digits 2 y ++ MINUS :: print_digits 2 z.
Proof.
  intros Hb Hm. rewrite elem_of_app, elem_of_cons, elem_of_app, elem_of_cons.
  intros [Hi|[Hi|[Hi|[Hi|Hi]]]]; by try apply (not_digit b Hb) in Hi.
Qed.
Lemma not_in_clock b x y z :
  is_ascii_digit b = false → b ≠ CHAR_COLON →
  b ∉ print_digits 2 x ++ CHAR_COLON :: print_digits 2 y ++ CHAR_COLON :: print_digits 2 z.
Proof.
  intros Hb Hm. rewrite elem_of_app, elem_of_cons, elem_of_app, elem_of_cons.
  intros [Hi|[Hi|[Hi|[Hi|Hi]]]]; by try apply (not_digit b Hb) in Hi.
Qed.

(** The parser on a text cut into its parts. *)
Lemma parse_iso_parts date_part main frac date clock ms :
  CHAR_T ∉ date_part → CHAR_DOT ∉ main → parse_date date_part = Some date →
  parse_clock main = Some clock → parse_fraction frac = Some (Some ms) →
  parse_iso8601_to_epoch_ms (date_part ++ CHAR_T :: (main ++ CHAR_DOT :: frac) ++ [CHAR_Z])
  = Some (Some (epoch_ms date clock ms)).
Proof.
  intros HT HD Hdate Hclock Hfrac. unfold parse_iso8601_to_epoch_ms.
  assert (strip_suffix (as_bytes "Z")
    (date_part ++ CHAR_T :: (main ++ CHAR_DOT :: frac) ++ [CHAR_Z])
    = Some (date_part ++ CHAR_T :: (main ++ CHAR_DOT :: frac))) as ->.
  { rewrite app_comm_cons, app_assoc. apply strip_suffix_snoc. }
  cbn [mbind option_bind]. rewrite split_once_app, Hdate by done.
  rewrite split_once_app, Hfrac by done. cbn [mbind option_bind]. by rewrite Hclock.
Qed.

(** The same without a fraction. *)
Lemma parse_iso_whole date_part main date clock :
  CHAR_T ∉ date_part → CHAR_DOT ∉ main → parse_date date_part = Some date →
  parse_clock main = Some clock →
  parse_iso8601_to_epoch_ms (date_part ++ CHAR_T :: main ++ [CHAR_Z])
  = Some (Some (epoch_ms date clock 0)).
Proof.
  intros HT HD Hdate Hclock. unfold parse_iso8601_to_epoch_ms.
  assert (strip_suffix (as_bytes "Z") (date_part ++ CHAR_T :: main ++ [CHAR_Z])
    = Some (date_part ++ CHAR_T :: main)) as ->.
  { rewrite app_comm_cons, app_assoc. apply strip_suffix_snoc. }
  cbn [mbind option_bind]. rewrite split_once_app, Hdate by done.
  rewrite split_once_none by done. cbn [mbind option_bind]. by rewrite Hclock.
Qed.

Lemma epoch_ms_small y m d h mi s ms days :
  days_from_civil y m d = days → (0 ≤ days ≤ 10 ^ 7)%Z →
  (0 ≤ h ≤ 23)%Z → (0 ≤ mi ≤ 59)%Z → (0 ≤ s ≤ 60)%Z → (0 ≤ ms ≤ 999)%Z →
  epoch_ms (y, m, d) (h, mi, s) ms
  = (days * 86400000 + h * 3600000 + mi * 60000 + s * 1000 + ms)%Z.
Proof.
  intros Hdays Hr Hh Hmi Hs Hms. unfold epoch_ms. rewrite Hdays.
  rewrite (as_u64_small days) by lia. by rewrite as_u64_small by lia.
Qed.

Lemma iso_text_parses y m d days h mi s ms :
  valid_date (y, m, d) → (y ≤ 9999)%Z → days_from_civil y m d = days → (0 ≤ days)%Z →
  (0 ≤ h ≤ 23)%Z → (0 ≤ mi ≤ 59)%Z → (0 ≤ s ≤ 60)%Z → (0 ≤ ms ≤ 999)%Z →
  parse_iso8601_to_epoch_ms (iso_text (y, m, d) h mi s ms)
  = Some (Some (days * 86400000 + h * 3600000 + mi * 60000 + s * 1000 + ms)%Z).
Proof.
  intros (Hy & Hm & Hd) Hyear Hdays H0 Hh Hmi Hs Hms. pose proof (days_in_month_bound y m).
  pose proof (days_from_civil_le y m d ltac:(lia) Hm ltac:(lia)) as Hle. rewrite Hdays in Hle.
  unfold iso_text.
  rewrite (parse_iso_parts _ _ _ (y, m, d) (h, mi, s) ms);
    [|by apply not_in_date|by apply not_in_clock|apply parse_date_print; lia
     |by apply parse_clock_print|by apply parse_fraction_print].
  by rewrite (epoch_ms_small y m d h mi s ms days).
Qed.

(** ** Properties *)

(** Timestamps are read right. For every day of the Gregorian calendar
    from 1970 to 9999, counted one by one, and every time of day, parsing the
    text of the instant gives the milliseconds from the epoch to it. *)
Theorem iso8601_epoch n h mi s ms :
  ((civil n).1.1 ≤ 9999)%Z → (0 ≤ h ≤ 23)%Z → (0 ≤ mi ≤ 59)%Z → (0 ≤ s ≤ 60)%Z →
  (0 ≤ ms ≤ 999)%Z →
  parse_iso8601_to_epoch_ms (iso_text (civil n) h mi s ms)
  = Some (Some (Z.of_nat n * 86400000 + h * 3600000 + mi * 60000 + s * 1000 + ms)%Z).
Proof.
  intros Hyear. pose proof (civil_valid n) as Hv. pose proof (days_civil n) as Hn.
  destruct (civil n) as [[y m] d]. cbn [fst] in Hyear.
  specialize (Hn y m d eq_refl ltac:(lia)). apply iso_text_parses; [done|done|exact Hn|lia].
Qed.

(** A fraction whose third byte is inside a character makes the client
    panic: here [ab] followed by an e with an acute accent. *)
Lemma fraction_slice_panics :
  parse_iso8601_to_epoch_ms
    (as_bytes "2026-01-01T00:00:00.ab" ++ [Byte.xc3; Byte.xa9] ++ as_bytes "Z") = None.
Proof. vm_compute. reflexivity. Qed.

Section liveness_thms.
Context {V : Type} `{JV : JsonValue V} `{JU : JsonU64 V} `{JC : JsonContainers V}.

(** What makes a telemetry event that of a live worker at [now_ms]. *)
Definition live (now_ms : Z) (telemetry : V) : Prop :=
  null_or_empty telemetry = false ∧
  ∃ status timestamp ts,
    get_str telemetry "status" = Some status ∧ status ≠ "offline" ∧
    get_str telemetry "timestamp" = Some timestamp ∧
    parse_iso8601_to_epoch_ms (as_bytes timestamp) = Some (Some ts) ∧
    (now_ms - ts ≤ as_u64 (2 * default 60000 (get_uint telemetry "heartbeat_interval_ms")))%Z.

Lemma online_live now_ms telemetry caps :
  check_worker_liveness now_ms telemetry = Some (Online caps) → live now_ms telemetry.
Proof.
  unfold check_worker_liveness, live. destruct (null_or_empty telemetry); [done|].
  destruct (get_str telemetry "status") as [status|]; [|done].
  destruct (get_str telemetry "timestamp") as [timestamp|] eqn:Et; [|done].
  destruct (str_eqb status "offline") eqn:Eo; [done|].
  destruct (parse_iso8601_to_epoch_ms _) as [[ts|]|] eqn:Ep; try done.
  cbn [mbind option_bind]. case_decide as Ha; [done|]. intros _.
  split; [done|]. exists status, timestamp, ts. apply str_eqb_false in Eo.
  split_and!; try done. unfold saturating_sub in Ha. lia.
Qed.

(** The event at [i] is a live worker's that allows the command, and the
    first of its kind. *)
Definition first_capable (command : string) (now : nat → Z)
    (events : list (string * V)) (caps : list string) (i : nat) : Prop :=
  ∃ key telemetry,
    events !! i = Some (key, telemetry) ∧ live (now i) telemetry ∧
    check_worker_liveness (now i) telemetry = Some (Online caps) ∧
    (caps = [] ∨ command ∈ caps ∨ default command (file_name command) ∈ caps) ∧
    ∀ j key' telemetry' caps', j < i → events !! j = Some (key', telemetry') →
      check_worker_liveness (now j) telemetry' = Some (Online caps') →
      caps' ≠ [] ∧ command ∉ caps'.

Lemma first_capable_S command now key v events caps i :
  (∀ caps', check_worker_liveness (now 0) v = Some (Online caps') →
            caps' ≠ [] ∧ command ∉ caps') →
  first_capable command (now ∘ S) events caps i →
  first_capable command now ((key, v) :: events) caps (S i).
Proof.
  intros Hst (key' & v' & Hi & Hl & Hc & Hm & Hfirst). exists key', v'. split_and!; try done.
  intros [|j] k'' v'' caps' Hj Hv Hcheck; simplify_eq/=; [by apply Hst|].
  apply (Hfirst j k'' v''); [lia|done|done].
Qed.

(** A worker the client settles on is alive and able. Its event was the
    first to qualify; it is not reported offline, its timestamp parses and is
    at most two heartbeat intervals old at the time it was looked at, and the
    capabilities returned are empty (everything is allowed) or hold the
    command or its file name. *)
Theorem capable_worker_sound command now events caps :
  find_capable_worker command now events = Some (Some caps) →
  ∃ i, first_capable command now events caps i.
Proof.
  revert now. induction events as [|[key v] events IH]; intros now; simpl; [done|].
  destruct (check_worker_liveness (now 0) v) as [st|] eqn:Ec; [|done].
  cbn [mbind option_bind].
  assert (Hrec : (∀ caps', st = Online caps' → caps' ≠ [] ∧ command ∉ caps') →
    find_capable_worker command (now ∘ S) events = Some (Some caps) →
    ∃ i, first_capable command now ((key, v) :: events) caps i).
  { intros Hst [i Hi]%IH. exists (S i). apply first_capable_S; [|done].
    rewrite Ec. intros caps' [= ->]. by apply Hst. }
  destruct st as [caps0| | |]; try (apply Hrec; naive_solver).
  destruct (bool_decide (caps0 = []) || _) eqn:Eq.
  - intros [= <-]. exists 0, key, v. split_and!; try done.
    + by eapply online_live.
    + apply orb_true_iff in Eq as [->%bool_decide_eq_true|Hex]; [by left|right].
      apply existsb_exists in Hex as (c & Hc%list_elem_of_In & Hor).
      apply orb_true_iff in Hor as [->%str_eqb_true| <-%str_eqb_true]; auto.
    + intros j ? ? ? Hj. lia.
  - apply orb_false_iff in Eq as [Hne%bool_decide_eq_false Hex]. apply Hrec.
    intros caps' [= <-]. split; [done|]. intros Hin. apply not_true_iff_false in Hex.
    apply Hex, existsb_exists. exists command. split; [by apply list_elem_of_In|].
    by rewrite str_eqb_refl.
Qed.
End liveness_thms.

(** Telemetry as an association list of strings. *)
Inductive toy_json : Type := JText (s : string) | JList (l : list toy_json)
| JObj (l : list (string * toy_json)).
Definition toy_get (v : toy_json) (k : string) : option toy_json :=
  match v with JObj l => snd <$> head (filter (λ kv, kv.1 = k) l) | _ => None end.
Definition toy_json_value : JsonValue toy_json :=
  {| from_str s := Ok (JText s); get := toy_get;
     as_str v := match v with JText s => Some s | _ => None end; json_null := JObj [] |}.
Definition toy_json_u64 : JsonU64 toy_json := λ _, None.
Definition toy_json_containers : JsonContainers toy_json :=
  {| as_array v := match v with JList l => Some l | _ => None end;
     null_or_empty v := match v with JObj (_ :: _) => false | _ => true end |}.
#[local] Existing Instances toy_json_value toy_json_u64 toy_json_containers.
