(* ===== verification/WorkerClock.v ===== *)
(** * WorkerClock: the worker's timestamps ([mxdx-worker/telemetry.rs], [lib.rs])

    The text of the time that the worker puts in its telemetry, the parser
    with which a starting worker reads it back, and the check for a competing
    instance that uses the two. The telemetry event is that of
    [mxdx-types/events/telemetry.rs]. A panic is [None] at the outside of an
    [option (option _)]. *)
From S2P Require Import Prelude Text Instants Liveness.

(** ** Printing *)

(** [format!("{:0k}", n)] for an integer below 2^64, which has at most 20
    digits. *)
Fixpoint num_digits (fuel : nat) (n : Z) : nat :=
  match fuel with
  | O => O
  | S fuel => if decide (n < 10)%Z then 1 else S (num_digits fuel (n / 10))
  end.
Definition format_padded (k : nat) (n : Z) : Bytes := print_digits (Nat.max k (num_digits 20 n)) n.

(** The number of days comes from a [u64] of seconds: nothing here leaves
    its width. *)
Definition days_to_ymd (days : Z) : Z * Z * Z :=
  (let z := days + 719468 in
   let era := Z.quot (if decide (0 ≤ z) then z else z - 146096) 146097 in
   let doe := z - era * 146097 in
   let yoe := (doe - doe / 1460 + doe / 36524 - doe / 146096) / 365 in
   let y := yoe + era * 400 in
   let doy := doe - (365 * yoe + yoe / 4 - yoe / 100) in
   let mp := (5 * doy + 2) / 153 in
   let d := doy - (153 * mp + 2) / 5 + 1 in
   let m := if decide (mp < 10) then mp + 3 else mp - 9 in
   (if decide (m ≤ 2) then y + 1 else y, m, d))%Z.

Definition iso8601_now (secs : Z) : Bytes :=
  let days := (secs / 86400)%Z in
  let time_of_day := (secs mod 86400)%Z in
  let hours := (time_of_day / 3600)%Z in
  let minutes := (time_of_day mod 3600 / 60)%Z in
  let seconds := (time_of_day mod 60)%Z in
  let '(year, month, day) := days_to_ymd days in
  (format_padded 4 year ++ MINUS :: format_padded 2 month ++ MINUS :: format_padded 2 day)
  ++ CHAR_T
  :: (format_padded 2 hours ++ CHAR_COLON :: format_padded 2 minutes
      ++ CHAR_COLON :: format_padded 2 seconds) ++ [CHAR_Z].

(** ** Parsing: [parse_iso8601] *)
Definition month_days : list Z := [0; 31; 59; 90; 120; 151; 181; 212; 243; 273; 304; 334]%Z.

(** [month - 1] as an index: out of range, and for month 0 wrapped around,
    it panics. *)
Definition days_before_month (month : Z) : option Z :=
  if decide (1 ≤ month ≤ 12)%Z then month_days !! Z.to_nat (month - 1) else None.

Definition approximate_days (year before day : Z) : Z :=
  as_u64 (as_u64 (year - 1970) * 365 + as_u64 (year - 1969) / 4 + before + day - 1).

Definition parse_iso8601 (ts : Bytes) : option (option Z) :=
  let ts := trim_end_matches CHAR_Z ts in
  match split_once CHAR_T ts with
  | None => Some None
  | Some (date, time) =>
      match split_byte MINUS date with
      | [y; m; d] =>
          match parse_u64 y, parse_u64 m, parse_u64 d with
          | Some year, Some month, Some day =>
              match split_byte CHAR_COLON time with
              | [h; mi; s] =>
                  let s := default [ZERO] (head (split_byte CHAR_DOT s)) in
                  match parse_u64 h, parse_u64 mi, parse_u64 s with
                  | Some hour, Some min, Some sec =>
                      before ← days_before_month month;
                      let days := approximate_days year before day in
                      let epoch_secs := as_u64 (days * 86400 + hour * 3600 + min * 60 + sec) in
                      Some (Some (as_u64 (epoch_secs * 1000)))
                  | _, _, _ => Some None
                  end
              | _ => Some None
              end
          | _, _, _ => Some None
          end
      | _ => Some None
      end
  end.

(** ** The competing instance *)
Record WorkerTelemetryState := mkTelemetry {
  timestamp : string; heartbeat_interval_ms : Z; worker_uuid : option string;
  hostname : string; platform : string; tm_arch : string; cpus : option Z;
  total_memory_mb : option Z; free_memory_mb : option Z; status : string;
  tm_capabilities : list string; session_count : option Z;
  tmux_available : bool; session_persistence : bool
}.

Inductive StartVerdict : Type :=
| RefuseStart (existing_uuid : string) (age_ms : Z)
| ProceedStart.

(** [existing]: the telemetry event under this worker's name, if there is one
    and it parses. *)
Definition competing_instance (our_uuid : string) (now_ms : Z)
    (existing : option WorkerTelemetryState) : option StartVerdict :=
  match existing with
  | None => Some ProceedStart
  | Some e =>
      match str_eqb (status e) "online", worker_uuid e with
      | true, Some existing_uuid =>
          if str_eqb existing_uuid our_uuid then Some ProceedStart else
          parsed ← parse_iso8601 (as_bytes (timestamp e));
          match parsed with
          | None => Some ProceedStart
          | Some existing_ts =>
              let stale_threshold := as_u64 (heartbeat_interval_ms e * 2) in
              let age_ms := saturating_sub now_ms existing_ts in
              Some (if decide (age_ms < stale_threshold)%Z then RefuseStart existing_uuid age_ms
                    else ProceedStart)
          end
      | _, _ => Some ProceedStart
      end
  end.

(** ** Lemmas on dates *)

(** The year of an era from its day, on the day's decomposition. *)
Lemma era_year c q r doy :
  (0 ≤ c ≤ 3)%Z → (0 ≤ q ≤ 24)%Z → (0 ≤ r ≤ 3)%Z → (0 ≤ doy ≤ 365)%Z →
  (doy = 365 → r = 3 ∧ (q < 24 ∨ c = 3))%Z →
  let doe := (36524 * c + 1461 * q + 365 * r + doy)%Z in
  ((doe - doe / 1460 + doe / 36524 - doe / 146096) / 365 = 100 * c + 4 * q + r)%Z.
Proof.
  intros Hc Hq Hr Hd Hl doe. subst doe.
  assert (c = 0 ∨ c = 1 ∨ c = 2 ∨ c = 3)%Z as Hcc by lia.
  assert (r = 0 ∨ r = 1 ∨ r = 2 ∨ r = 3)%Z as Hrr by lia. clear Hc Hr.
  repeat destruct Hcc as [->|Hcc]; [..|subst c];
    (repeat destruct Hrr as [->|Hrr]; [..|subst r]);
    Z.to_euclidean_division_equations; lia.
Qed.

(** The month and the day from the day of a year that starts in March. *)
Lemma month_of_day m d :
  (1 ≤ m ≤ 12)%Z → (1 ≤ d ≤ (if decide (m = 4 ∨ m = 6 ∨ m = 9 ∨ m = 11) then 30 else 31))%Z →
  (m = 2 → d ≤ 29)%Z →
  let doy := march_day m d in
  let mp := ((5 * doy + 2) / 153)%Z in
  (doy - (153 * mp + 2) / 5 + 1 = d)%Z ∧ (if decide (mp < 10) then mp + 3 else mp - 9)%Z = m.
Proof.
  intros Hm Hd H2 doy mp.
  assert (Hmp : mp = if decide (2 < m)%Z then (m - 3)%Z else (m + 9)%Z).
  { subst mp doy. unfold march_day. apply month_cases in Hm.
    destruct Hm as [->|[->|[->|[->|[->|[->|[->|[->|[->|[->|[->| ->]]]]]]]]]]];
      simpl in *; Z.to_euclidean_division_equations; lia. }
  rewrite Hmp. subst doy. unfold march_day. split; repeat case_decide;
    Z.to_euclidean_division_equations; lia.
Qed.

(** Day 365 of such a year is the 29th of February. *)
Lemma march_day_bound m d :
  (1 ≤ m ≤ 12)%Z → (1 ≤ d ≤ (if decide (m = 4 ∨ m = 6 ∨ m = 9 ∨ m = 11) then 30 else 31))%Z →
  (m = 2 → d ≤ 29)%Z →
  (0 ≤ march_day m d ≤ 365)%Z ∧ (march_day m d = 365 → m = 2 ∧ d = 29)%Z.
Proof.
  intros Hm Hd H2. unfold march_day. apply month_cases in Hm.
  destruct Hm as [->|[->|[->|[->|[->|[->|[->|[->|[->|[->|[->| ->]]]]]]]]]]];
    simpl in *; Z.to_euclidean_division_equations; lia.
Qed.

(** The algorithm on the day [doy] of the year [Y]. *)
Definition month_and_day (doy : Z) : Z * Z :=
  (let mp := (5 * doy + 2) / 153 in
   (if decide (mp < 10) then mp + 3 else mp - 9, doy - (153 * mp + 2) / 5 + 1))%Z.

Lemma days_to_ymd_march Y doy :
  (1969 ≤ Y)%Z → (0 ≤ doy ≤ 365)%Z → (doy = 365%Z → is_leap (Y + 1) = true) →
  days_to_ymd (year_start Y + doy) =
  let '(m, d) := month_and_day doy in (if decide (m ≤ 2)%Z then Y + 1 else Y, m, d)%Z.
Proof.
  intros HY Hd Hl. set (r := (Y mod 400)%Z). set (era := (Y / 400)%Z).
  assert (Hera : (0 ≤ era)%Z) by (subst era; Z.to_euclidean_division_equations; lia).
  assert (HYr : (Y = 400 * era + r ∧ 0 ≤ r < 400)%Z)
    by (subst r era; Z.to_euclidean_division_equations; lia).
  set (c := (r / 100)%Z). set (q := (r mod 100 / 4)%Z). set (s := (r mod 4)%Z).
  assert (Hr : (r = 100 * c + 4 * q + s ∧ 0 ≤ c ≤ 3 ∧ 0 ≤ q ≤ 24 ∧ 0 ≤ s ≤ 3)%Z)
    by (subst c q s; clearbody r; Z.to_euclidean_division_equations; lia).
  assert (Hys : (year_start Y + doy + 719468
                 = 146097 * era + (36524 * c + 1461 * q + 365 * s + doy))%Z).
  { unfold year_start. fold r era. clearbody c q s r era.
    assert (r / 4 = 25 * c + q)%Z as -> by (Z.to_euclidean_division_equations; lia).
    assert (r / 100 = c)%Z as -> by (Z.to_euclidean_division_equations; lia). lia. }
  assert (Hleap : (doy = 365 → s = 3 ∧ (q < 24 ∨ c = 3))%Z).
  { intros E. specialize (Hl E). unfold is_leap in Hl. apply bool_decide_eq_true in Hl.
    clearbody c q s r era. clear Hys E Hd. destruct Hl as [H4 Hor].
    assert (s = 3)%Z by (Z.to_euclidean_division_equations; lia). split; [done|].
    destruct (decide (q < 24)%Z) as [|Hq]; [by left|right].
    assert (q = 24)%Z by lia. subst q s. clear H4.
    assert (Y + 1 = (4 * era + c + 1) * 100)%Z as E by lia. rewrite E in Hor.
    rewrite Z.mod_mul in Hor by done. destruct Hor as [?|H400]; [done|].
    clear HY HYr E Hera. destruct Hr as (_ & Hc & _).
    Z.to_euclidean_division_equations; lia. }
  pose proof (era_year c q s doy ltac:(lia) ltac:(lia) ltac:(lia) Hd Hleap) as Hyoe.
  clearbody c q s r era. cbv zeta in Hyoe. clear Hleap Hl.
  remember (36524 * c + 1461 * q + 365 * s + doy)%Z as doe eqn:Edoe.
  assert (Hdoe : (0 ≤ doe < 146097)%Z) by lia.
  assert (Hq : (Z.quot (if decide (0 ≤ 146097 * era + doe) then 146097 * era + doe
                        else 146097 * era + doe - 146096) 146097 = era)%Z).
  { rewrite decide_True by lia. rewrite Z.quot_div_nonneg by lia.
    clear Hyoe Edoe. Z.to_euclidean_division_equations. lia. }
  unfold days_to_ymd. rewrite Hys. cbv zeta. rewrite Hq.
  assert ((146097 * era + doe - era * 146097 = doe)%Z) as -> by lia. rewrite Hyoe.
  assert ((doe - (365 * (100 * c + 4 * q + s) + (100 * c + 4 * q + s) / 4
           - (100 * c + 4 * q + s) / 100) = doy)%Z) as ->
    by (clear Hyoe Hys; Z.to_euclidean_division_equations; lia).
  unfold month_and_day. assert ((100 * c + 4 * q + s + era * 400 = Y)%Z) as -> by lia. done.
Qed.

(** The printed date is that of the calendar. *)
Lemma days_to_ymd_civil n : ((civil n).1.1 ≤ 10 ^ 9)%Z → days_to_ymd (Z.of_nat n) = civil n.
Proof.
  intros Hyear. pose proof (civil_valid n) as Hv. pose proof (days_civil n) as Hn.
  destruct (civil n) as [[y m] d]. cbn [fst] in Hyear. specialize (Hn y m d eq_refl Hyear).
  destruct Hv as (Hy & Hm & Hd). pose proof (days_in_month_bound y m) as Hdm.
  rewrite days_from_civil_unwrapped in Hn by lia. rewrite <-Hn.
  assert (Hd' : (1 ≤ d ≤ if decide (m = 4 ∨ m = 6 ∨ m = 9 ∨ m = 11) then 30 else 31)%Z)
    by (unfold days_in_month in Hd; repeat case_decide; destruct (is_leap y); lia).
  assert (H2 : (m = 2 → d ≤ 29)%Z)
    by (intros ->; unfold days_in_month in Hd; simpl in Hd; destruct (is_leap y); lia).
  destruct (march_day_bound m d Hm Hd' H2) as [Hb Hl].
  rewrite days_to_ymd_march.
  - unfold month_and_day. destruct (month_of_day m d Hm Hd' H2) as [-> ->].
    unfold march_year. destruct (decide (m ≤ 2)%Z); [|done]. by replace (y - 1 + 1)%Z with y by lia.
  - unfold march_year. destruct (decide (m ≤ 2)%Z); lia.
  - done.
  - intros [-> ->]%Hl. unfold march_year. rewrite decide_True by done.
    replace (y - 1 + 1)%Z with y by lia. unfold days_in_month in Hd. simpl in Hd.
    destruct (is_leap y); [done|lia].
Qed.

(** The days of the worker's parser, against the calendar: the leap day of the
    current year is never counted. *)
Definition leap_skew (y m : Z) : Z := if is_leap y && bool_decide (2 < m)%Z then 1%Z else 0%Z.

Lemma approximate_days_skew y m d :
  valid_date (y, m, d) → (y ≤ 2100)%Z →
  ∃ before, days_before_month m = Some before ∧
    approximate_days y before d
    = (year_start (march_year y m) + march_day m d - leap_skew y m)%Z.
Proof.
  intros (Hy & Hm & Hd) Hyear. pose proof (days_in_month_bound y m) as Hdm.
  assert (Hs : ∀ before, (0 ≤ before ≤ 334)%Z → approximate_days y before d
    = ((y - 1970) * 365 + (y - 1969) / 4 + before + d - 1)%Z).
  { intros before Hb. unfold approximate_days.
    assert (0 ≤ (y - 1969) / 4 ≤ 100)%Z by (Z.to_euclidean_division_equations; lia).
    rewrite (as_u64_small (y - 1970)), (as_u64_small (y - 1969)) by lia.
    by rewrite as_u64_small by lia. }
  assert (Hn : (year_start y = (y - 1970) * 365 + (y - 1969) / 4 + 59
                + (if is_leap y then 1 else 0))%Z).
  { assert (Hall : Forall (λ y, year_start y = (y - 1970) * 365 + (y - 1969) / 4 + 59
                                + (if is_leap y then 1 else 0))%Z (seqZ 1970 131))
      by (apply (bool_decide_unpack _); vm_compute; reflexivity).
    apply (proj1 (Forall_forall _ _) Hall), elem_of_seqZ. lia. }
  pose proof (year_start_next (y - 1) ltac:(lia)) as Hp.
  replace (y - 1 + 1)%Z with y in Hp by lia. apply month_cases in Hm.
  destruct Hm as [->|[->|[->|[->|[->|[->|[->|[->|[->|[->|[->| ->]]]]]]]]]]];
    (eexists; split; [reflexivity|]; rewrite Hs by lia; unfold leap_skew, march_year, march_day;
     revert Hn Hp; simpl; destruct (is_leap y); simpl; intros;
     generalize dependent ((y - 1969) / 4)%Z; intros; Z.to_euclidean_division_equations; lia).
Qed.

(** ** Lemmas on text *)
Lemma num_digits_le fuel k n :
  (0 ≤ n < 10 ^ Z.of_nat k)%Z → k ≠ 0 → num_digits fuel n ≤ k.
Proof.
  revert k n. induction fuel as [|fuel IH]; intros k n Hn Hk; [simpl; lia|]. simpl.
  case_decide; [lia|]. destruct k as [|[|k]]; [done|simpl in Hn; lia|].
  rewrite Nat2Z.inj_succ, Z.pow_succ_r in Hn by lia.
  pose proof (IH (S k) (n / 10)%Z) as Hle.
  assert (0 ≤ n / 10 < 10 ^ Z.of_nat (S k))%Z
    by (split; [apply Z.div_pos; lia|apply Z.div_lt_upper_bound; lia]).
  specialize (Hle ltac:(done) ltac:(done)). lia.
Qed.

Lemma format_padded_small k n :
  (0 ≤ n < 10 ^ Z.of_nat k)%Z → k ≠ 0 → format_padded k n = print_digits k n.
Proof.
  intros Hn Hk. unfold format_padded. by rewrite Nat.max_l by by apply num_digits_le.
Qed.

(** The printed text, on the reference calendar. *)
Definition time_text (h mi s : Z) : Bytes :=
  print_digits 2 h ++ CHAR_COLON :: print_digits 2 mi ++ CHAR_COLON :: print_digits 2 s.
Definition date_text (date : Z * Z * Z) : Bytes :=
  print_digits 4 date.1.1 ++ MINUS :: print_digits 2 date.1.2 ++ MINUS :: print_digits 2 date.2.

Lemma iso8601_now_text n h mi s :
  ((civil n).1.1 ≤ 9999)%Z → (0 ≤ h ≤ 23)%Z → (0 ≤ mi ≤ 59)%Z → (0 ≤ s ≤ 59)%Z →
  iso8601_now (Z.of_nat n * 86400 + h * 3600 + mi * 60 + s)
  = date_text (civil n) ++ CHAR_T :: time_text h mi s ++ [CHAR_Z].
Proof.
  intros Hyear Hh Hmi Hs. unfold iso8601_now. set (secs := (_ + s)%Z).
  assert (secs / 86400 = Z.of_nat n)%Z as -> by (subst secs; Z.to_euclidean_division_equations; lia).
  assert (secs mod 86400 = h * 3600 + mi * 60 + s)%Z as ->
    by (subst secs; Z.to_euclidean_division_equations; lia). clear secs.
  assert ((h * 3600 + mi * 60 + s) / 3600 = h)%Z as ->
    by (Z.to_euclidean_division_equations; lia).
  assert ((h * 3600 + mi * 60 + s) mod 3600 / 60 = mi)%Z as ->
    by (Z.to_euclidean_division_equations; lia).
  assert ((h * 3600 + mi * 60 + s) mod 60 = s)%Z as ->
    by (Z.to_euclidean_division_equations; lia).
  rewrite days_to_ymd_civil by lia. pose proof (civil_valid n) as Hv.
  destruct (civil n) as [[y m] d]. destruct Hv as (Hy & Hm & Hd). cbn [fst snd] in *.
  pose proof (days_in_month_bound y m).
  unfold date_text, time_text. cbn [fst snd]. by rewrite !format_padded_small by (done || lia).
Qed.

Lemma trim_end_matches_last b a x :
  a ≠ b → trim_end_matches b ((x ++ [a]) ++ [b]) = x ++ [a].
Proof.
  intros Hab. unfold trim_end_matches. rewrite reverse_snoc. simpl.
  rewrite bool_decide_eq_true_2 by done. rewrite reverse_snoc. simpl.
  rewrite bool_decide_eq_false_2 by done. by rewrite reverse_cons, reverse_involutive.
Qed.

Lemma trim_digits x k n :
  trim_end_matches CHAR_Z ((x ++ print_digits (S k) n) ++ [CHAR_Z]) = x ++ print_digits (S k) n.
Proof.
  cbn [print_digits]. rewrite (app_assoc x). apply trim_end_matches_last.
  destruct (digit_spec (n mod 10)) as [Hdig _]; [apply Z.mod_pos_bound; lia|].
  intros E. rewrite E in Hdig. discriminate.
Qed.

Lemma trim_text date h mi s :
  trim_end_matches CHAR_Z (date_text date ++ CHAR_T :: time_text h mi s ++ [CHAR_Z])
  = date_text date ++ CHAR_T :: time_text h mi s.
Proof.
  pose proof (trim_digits (date_text date ++ CHAR_T :: print_digits 2 h ++ CHAR_COLON ::
    print_digits 2 mi ++ [CHAR_COLON]) 1 s) as Ht.
  unfold time_text. rewrite <-!app_assoc, <-!app_comm_cons, <-!app_assoc, <-!app_comm_cons,
    <-!app_assoc in Ht. rewrite <-!app_assoc, <-!app_comm_cons, <-!app_assoc. exact Ht.
Qed.

Lemma split_text sep k1 k2 k3 a b c :
  is_ascii_digit sep = false →
  split_byte sep (print_digits k1 a ++ sep :: print_digits k2 b ++ sep :: print_digits k3 c)
  = [print_digits k1 a; print_digits k2 b; print_digits k3 c].
Proof.
  intros Hs. rewrite split_byte_app by by apply not_digit.
  rewrite split_byte_app by by apply not_digit. by rewrite split_byte_nosep by by apply not_digit.
Qed.

(** The parser on a date, a time and their values. *)
Lemma parse_iso8601_text date h mi s before :
  valid_date date → (date.1.1 ≤ 2100)%Z →
  (0 ≤ h ≤ 23)%Z → (0 ≤ mi ≤ 59)%Z → (0 ≤ s ≤ 59)%Z →
  days_before_month date.1.2 = Some before →
  parse_iso8601 (date_text date ++ CHAR_T :: time_text h mi s ++ [CHAR_Z])
  = Some (Some (as_u64 (as_u64 (approximate_days date.1.1 before date.2 * 86400
                                + h * 3600 + mi * 60 + s) * 1000))).
Proof.
  destruct date as [[y m] d]. cbn [fst snd]. intros (Hy & Hm & Hd) Hyear Hh Hmi Hs Hb.
  pose proof (days_in_month_bound y m). unfold parse_iso8601. rewrite trim_text.
  unfold date_text, time_text. cbn [fst snd].
  rewrite split_once_app by by apply not_in_date.
  rewrite !split_text by done. rewrite (split_byte_nosep CHAR_DOT) by by apply not_digit.
  cbn [head from_option id]. rewrite !parse_u64_print by (done || unfold u64_max; lia).
  rewrite Hb. reflexivity.
Qed.

(** What the worker reads of a printed instant. *)
Lemma parse_iso8601_now n h mi s y m d :
  civil n = (y, m, d) → (y ≤ 2100)%Z →
  (0 ≤ h ≤ 23)%Z → (0 ≤ mi ≤ 59)%Z → (0 ≤ s ≤ 59)%Z → (1 ≤ n) →
  parse_iso8601 (iso8601_now (Z.of_nat n * 86400 + h * 3600 + mi * 60 + s))
  = Some (Some (((Z.of_nat n - leap_skew y m) * 86400 + h * 3600 + mi * 60 + s) * 1000)%Z).
Proof.
  intros E Hyear Hh Hmi Hs Hn1. pose proof (civil_valid n) as Hv.
  pose proof (days_civil n y m d E ltac:(lia)) as Hn.
  rewrite iso8601_now_text by (rewrite ?E; simpl; lia). rewrite E in Hv |- *.
  destruct (approximate_days_skew y m d Hv Hyear) as (before & Hb & Ha).
  rewrite (parse_iso8601_text _ _ _ _ before) by done. cbn [fst snd]. rewrite Ha.
  destruct Hv as (Hy & Hm & Hd). pose proof (days_in_month_bound y m).
  pose proof (days_from_civil_le y m d ltac:(lia) Hm ltac:(lia)) as Hle.
  rewrite Hn in Hle. rewrite days_from_civil_unwrapped in Hn by lia. rewrite Hn.
  assert (0 ≤ leap_skew y m ≤ 1)%Z by (unfold leap_skew; case_match; lia).
  by rewrite (as_u64_small (_ + s)), as_u64_small by lia.
Qed.

(** Seconds as a day and a time of day. *)
Lemma split_secs secs :
  (0 ≤ secs)%Z → ∃ h mi s,
    secs = (Z.of_nat (Z.to_nat (secs / 86400)) * 86400 + h * 3600 + mi * 60 + s)%Z ∧
    (0 ≤ h ≤ 23)%Z ∧ (0 ≤ mi ≤ 59)%Z ∧ (0 ≤ s ≤ 59)%Z.
Proof.
  intros Hs. exists (secs mod 86400 / 3600)%Z, (secs mod 3600 / 60)%Z, (secs mod 60)%Z.
  rewrite Z2Nat.id by (apply Z.div_pos; lia). Z.to_euclidean_division_equations. lia.
Qed.

(** The date at an instant. *)
Definition date_at (secs : Z) : Z * Z * Z := civil (Z.to_nat (secs / 86400)).

(** ** Properties *)

(** A worker's timestamp is understood by the client. Whatever the
    second, up to the year 9999, at which a worker prints its telemetry, the
    text parses on the client's side to that very instant. *)
Theorem telemetry_time_roundtrip secs :
  (0 ≤ secs)%Z → ((date_at secs).1.1 ≤ 9999)%Z →
  parse_iso8601_to_epoch_ms (iso8601_now secs) = Some (Some (secs * 1000)%Z).
Proof.
  intros H0 Hyear. destruct (split_secs secs H0) as (h & mi & s & E & Hh & Hmi & Hs).
  unfold date_at in Hyear. set (n := Z.to_nat _) in *. clearbody n. subst secs.
  rewrite iso8601_now_text by done. pose proof (civil_valid n) as Hv.
  pose proof (days_civil n) as Hn. destruct (civil n) as [[y m] d].
  destruct Hv as (Hy & Hm & Hd). cbn [fst] in Hyear. specialize (Hn y m d eq_refl ltac:(lia)).
  pose proof (days_in_month_bound y m). unfold date_text, time_text. cbn [fst snd].
  pose proof (days_from_civil_le y m d ltac:(lia) Hm ltac:(lia)) as Hle. rewrite Hn in Hle.
  rewrite (parse_iso_whole _ _ (y, m, d) (h, mi, s));
    [|by apply not_in_date|by apply not_in_clock|apply parse_date_print; lia
     |apply parse_clock_print; lia].
  rewrite (epoch_ms_small y m d h mi s 0 (Z.of_nat n)) by (done || lia).
  do 2 f_equal. lia.
Qed.

(** When a competing instance is noticed, up to the year 2100. The
    worker reads the last telemetry of an online instance of another uuid
    exactly, and refuses to start while it is younger than two intervals, but
    from March to December of a leap year it reads it as a day old: then no
    instance whose interval is at most twelve hours is ever noticed, however
    recent its telemetry. *)
Theorem competing_instance_noticed ours theirs now_ms e secs :
  status e = "online" → worker_uuid e = Some theirs → theirs ≠ ours →
  (86400 ≤ secs)%Z → timestamp e = from_bytes (iso8601_now secs) →
  (0 ≤ heartbeat_interval_ms e ≤ 2 ^ 62)%Z →
  let '(y, m, _) := date_at secs in
  (y ≤ 2100)%Z →
  if is_leap y && bool_decide (2 < m)%Z then
    (secs * 1000 ≤ now_ms)%Z → (heartbeat_interval_ms e ≤ 43200000)%Z →
    competing_instance ours now_ms (Some e) = Some ProceedStart
  else
    let age := saturating_sub now_ms (secs * 1000) in
    competing_instance ours now_ms (Some e)
    = Some (if decide (age < 2 * heartbeat_interval_ms e)%Z then RefuseStart theirs age
            else ProceedStart).
Proof.
  intros Hst Hu Hne Hday Hts Hiv.
  destruct (split_secs secs ltac:(lia)) as (h & mi & s & E & Hh & Hmi & Hs).
  unfold date_at. set (n := Z.to_nat _) in *.
  assert (Hn : 1 ≤ n) by (subst n; Z.to_euclidean_division_equations; lia). clearbody n.
  destruct (civil n) as [[y m] d] eqn:Ec. intros Hyear. unfold competing_instance.
  rewrite Hst, Hu, Hts, as_bytes_from_bytes, E. rewrite str_eqb_refl.
  assert (str_eqb theirs ours = false) as -> by by apply str_eqb_false.
  rewrite (parse_iso8601_now n h mi s y m d) by done. cbn [mbind option_bind].
  rewrite (as_u64_small (heartbeat_interval_ms e * 2)) by lia.
  unfold leap_skew. destruct (is_leap y && bool_decide (2 < m)%Z).
  - intros Hnow Hint. rewrite decide_False; [done|]. unfold saturating_sub. lia.
  - rewrite Z.sub_0_r, (Z.mul_comm _ 2). done.
Qed.

(** On the 1st of March 2028 a second instance starts while the first one,
    whose telemetry is a second old, is alive. *)
Definition toy_telemetry (secs : Z) : WorkerTelemetryState :=
  mkTelemetry (from_bytes (iso8601_now secs)) 60000 (Some "first") "h" "linux" "x86_64" None None
    None "online" [] None true true.
