(* ===== verification/WorkerSession.v ===== *)
(** * WorkerSession: the worker's sessions and their output

    [mxdx-worker/session.rs], the life cycle of a session;
    [retention.rs]; [output.rs], chunks of output; [heartbeat.rs]. *)
From S2P Require Import Prelude P2PCrypto SessionEvents.

(** ** [SessionManager] *)
Inductive SessionState : Type := Claimed | Running | Completed.
#[export] Instance session_state_eq_dec : EqDecision SessionState.
Proof. solve_decision. Defined.
Definition SessionState_fmt (s : SessionState) : string :=
  match s with Claimed => "Claimed" | Running => "Running" | Completed => "Completed" end.

(** Of [tmux.rs], the handle. *)
Record TmuxSession := mkTmux {
  session_name : string; socket_path : string; exit_notify_path : string
}.
Record Session := mkSession {
  s_uuid : string; task : SessionTask; s_state : SessionState; tmux : option TmuxSession;
  s_started_at : Z; s_worker : string; pid : option Z
}.
Record SessionManager := mkManager { managed : gmap string Session; manager_worker : string }.

Definition manager_new (worker : string) : SessionManager := mkManager ∅ worker.
Definition set_session (uuid : string) (s : Session) (m : SessionManager) : SessionManager :=
  mkManager (<[uuid := s]> (managed m)) (manager_worker m).

Definition contains_session (uuid : string) (m : SessionManager) : bool :=
  bool_decide (is_Some (managed m !! uuid)).

Definition claim (now : Z) (t : SessionTask) (m : SessionManager)
    : result ActiveSessionState string * SessionManager :=
  let uuid := st_uuid t in
  if contains_session uuid m then (Err (cat ["session "; uuid; " already exists"]), m)
  else
    (Ok (mkActive (bin t) (args t) None now (st_sender_id t) (interactive t) (manager_worker m)),
     set_session uuid (mkSession uuid t Claimed None now (manager_worker m) None) m).

Definition mark_running (uuid : string) (p : option Z) (tm : TmuxSession) (m : SessionManager)
    : result unit string * SessionManager :=
  match managed m !! uuid with
  | None => (Err (cat ["session "; uuid; " not found"]), m)
  | Some s =>
      if decide (s_state s = Claimed) then
        (Ok tt, set_session uuid
                  (mkSession (s_uuid s) (task s) Running (Some tm) (s_started_at s) (s_worker s) p) m)
      else (Err (cat ["session "; uuid; " is not in Claimed state (current: ";
                      SessionState_fmt (s_state s); ")"]), m)
  end.

Definition complete (now : Z) (uuid : string) (status : SessionStatus) (exit_code : option Z)
    (m : SessionManager) : result CompletedSessionState string * SessionManager :=
  match managed m !! uuid with
  | None => (Err (cat ["session "; uuid; " not found"]), m)
  | Some s =>
      if decide (s_state s = Completed) then
        (Err (cat ["session "; uuid; " already completed"]), m)
      else
        (Ok (mkCompleted exit_code (saturating_sub now (s_started_at s)) now),
         set_session uuid
           (mkSession (s_uuid s) (task s) Completed (tmux s) (s_started_at s) (s_worker s) (pid s)) m)
  end.

(** [values] is the order in which the map is iterated. *)
Definition active_sessions (values : gmap string Session → list Session) (m : SessionManager)
    : list Session :=
  filter (λ s, s_state s ≠ Completed) (values (managed m)).
Definition get_session (uuid : string) (m : SessionManager) : option Session := managed m !! uuid.
Definition remove (uuid : string) (m : SessionManager) : option Session * SessionManager :=
  (managed m !! uuid, mkManager (delete uuid (managed m)) (manager_worker m)).

(** ** [RetentionSweeper]: the product of days wraps on [u64] *)
Definition is_expired (retention_days now : Z) (c : CompletedSessionState) : bool :=
  bool_decide (wrap 64 (retention_days * 24 * 60 * 60) < saturating_sub now (cpl_time c))%Z.
Definition find_expired (retention_days : Z) (now : clock)
    (sessions : list (string * CompletedSessionState)) : list string :=
  (imap (λ i kc, (is_expired retention_days (now i) kc.2, kc.1)) sessions)
  ≫= λ '(e, k), if (e : bool) then [k] else [].

(** ** [HeartbeatPoster] *)
Definition create_heartbeat (now : Z) (session worker : string) (progress : option string)
    : SessionHeartbeat :=
  mkSessionHeartbeat session worker now progress.

(** ** [OutputRouter] *)
Record OutputRouter := mkOutputRouter {
  batch_window_ms : Z; batch_size_bytes : nat; or_seq : Z; or_no_room_output : bool
}.
Definition output_router_new (suppress : bool) : OutputRouter := mkOutputRouter 200 4096 0 suppress.
Definition with_batch_settings (window_ms : Z) (size_bytes : nat) (r : OutputRouter) : OutputRouter :=
  mkOutputRouter window_ms size_bytes (or_seq r) (or_no_room_output r).

(** [slice::chunks]; it panics on size zero. *)
Fixpoint chunks_from (fuel n : nat) (l : Bytes) : list Bytes :=
  match fuel, l with
  | O, _ | _, [] => []
  | S fuel, _ => take n l :: chunks_from fuel n (drop n l)
  end.
Definition chunks (n : nat) (l : Bytes) : option (list Bytes) :=
  if decide (n = 0) then None else Some (chunks_from (length l) n l).

Section output.
Context `{B64 : Base64}.
Variables (session_uuid worker_id : string) (stream : OutputStream).

Definition create_output_event (now : Z) (data : Bytes) (r : OutputRouter)
    : option SessionOutput * OutputRouter :=
  if or_no_room_output r then (None, r)
  else
    (Some (mkOutput session_uuid worker_id stream (b64_encode data) (or_seq r) now),
     mkOutputRouter (batch_window_ms r) (batch_size_bytes r) (wrap 64 (or_seq r + 1))
       (or_no_room_output r)).

Fixpoint output_events (now : clock) (cs : list Bytes) (r : OutputRouter)
    : list SessionOutput * OutputRouter :=
  match cs with
  | [] => ([], r)
  | c :: cs =>
      let '(e, r) := create_output_event (now 0) c r in
      let '(es, r) := output_events (λ i, now (S i)) cs r in
      (option_list e ++ es, r)
  end.

(** [None] is the panic. *)
Definition create_chunked_output (now : clock) (data : Bytes) (r : OutputRouter)
    : option (list SessionOutput * OutputRouter) :=
  if or_no_room_output r then Some ([], r)
  else cs ← chunks (batch_size_bytes r) data; Some (output_events now cs r).
End output.

(** ** A run of the session manager *)
Inductive SessionOp : Type :=
| OpClaim (now : Z) (t : SessionTask)
| OpRunning (uuid : string) (p : option Z) (tm : TmuxSession)
| OpComplete (now : Z) (uuid : string) (status : SessionStatus) (exit_code : option Z)
| OpRemove (uuid : string).

Definition op_session (op : SessionOp) : string :=
  match op with
  | OpClaim _ t => st_uuid t
  | OpRunning u _ _ | OpComplete _ u _ _ | OpRemove u => u
  end.

(** Whether the operation succeeds, and the state after it. *)
Definition session_op (m : SessionManager) (op : SessionOp) : bool * SessionManager :=
  match op with
  | OpClaim now t => let '(r, m) := claim now t m in (is_ok r, m)
  | OpRunning u p tm => let '(r, m) := mark_running u p tm m in (is_ok r, m)
  | OpComplete now u status code => let '(r, m) := complete now u status code m in (is_ok r, m)
  | OpRemove u => let '(s, m) := remove u m in (bool_decide (is_Some s), m)
  end.

(** The operations that succeed, in order, and the final state. *)
Fixpoint session_run (m : SessionManager) (ops : list SessionOp) : list SessionOp * SessionManager :=
  match ops with
  | [] => ([], m)
  | op :: ops =>
      let '(ok, m) := session_op m op in
      let '(done, m) := session_run m ops in
      (if ok then op :: done else done, m)
  end.

(** ** Lemmas *)

(** What has succeeded for a session in a given state. *)
Inductive lived (u : string) : option SessionState → list SessionOp → Prop :=
| lived_none : lived u None []
| lived_claimed now t : st_uuid t = u → lived u (Some Claimed) [OpClaim now t]
| lived_running now t p tm :
    st_uuid t = u → lived u (Some Running) [OpClaim now t; OpRunning u p tm]
| lived_completed h s now status code :
    lived u (Some s) h → s ≠ Completed →
    lived u (Some Completed) (h ++ [OpComplete now u status code]).

Definition state_of (u : string) (m : SessionManager) : option SessionState :=
  s_state <$> managed m !! u.
Definition about (u : string) (op : SessionOp) : Prop := op_session op = u.
#[export] Instance about_dec u op : Decision (about u op).
Proof. unfold about. apply _. Defined.

Lemma session_op_other m op u :
  op_session op ≠ u → managed (session_op m op).2 !! u = managed m !! u.
Proof.
  intros Hu. destruct op as [now t|u' p tm|now u' st c|u']; simpl in *;
    unfold claim, mark_running, complete, remove; repeat case_match; simplify_eq/=;
    rewrite ?lookup_insert_ne, ?lookup_delete_ne; done.
Qed.

Lemma session_op_same m op u h :
  op_session op = u → (∀ v, op ≠ OpRemove v) → lived u (state_of u m) h →
  let '(ok, m') := session_op m op in
  lived u (state_of u m') (if ok then h ++ [op] else h).
Proof.
  intros <- Hr Hl. unfold state_of in *.
  destruct op as [now t|u p tm|now u st c|u]; [| | |by destruct (Hr u)]; simpl in *.
  - unfold claim, contains_session. case_bool_decide as Hs; simpl; [done|].
    apply eq_None_not_Some in Hs. rewrite Hs in Hl. rewrite lookup_insert_eq. simpl.
    inversion Hl; subst. by constructor.
  - unfold mark_running. destruct (managed m !! u) as [s|] eqn:E; simpl; [|by rewrite E].
    case_decide as Hs; simpl; [|by rewrite E]. rewrite lookup_insert_eq. simpl in *.
    rewrite Hs in Hl. inversion Hl; subst. by constructor.
  - unfold complete. destruct (managed m !! u) as [s|] eqn:E; simpl; [|by rewrite E].
    case_decide as Hs; simpl; [by rewrite E|]. rewrite lookup_insert_eq. simpl in *.
    by eapply lived_completed.
Qed.

Lemma session_run_lived ops u m h :
  OpRemove u ∉ ops → lived u (state_of u m) h →
  let '(done, m') := session_run m ops in
  lived u (state_of u m') (h ++ filter (about u) done).
Proof.
  revert m h. induction ops as [|op ops IH]; intros m h Hr Hl; simpl; [by rewrite app_nil_r|].
  apply not_elem_of_cons in Hr as [Hop Hr].
  pose proof (session_op_other m op u) as Hoth. pose proof (session_op_same m op u h) as Hsame.
  destruct (session_op m op) as [ok m1]. simpl in Hoth.
  destruct (decide (about u op)) as [Ha|Ha].
  - assert (Hl1 : lived u (state_of u m1) (if ok then h ++ [op] else h)).
    { apply Hsame; [done| |done]. intros v ->. by rewrite <-Ha in Hop. }
    specialize (IH m1 _ Hr Hl1). destruct (session_run m1 ops) as [dn m2].
    destruct ok; [|done]. rewrite filter_cons_True by done. by rewrite <-app_assoc in IH.
  - assert (Hl1 : lived u (state_of u m1) h) by (unfold state_of in *; by rewrite Hoth).
    specialize (IH m1 _ Hr Hl1). destruct (session_run m1 ops) as [dn m2].
    destruct ok; [by rewrite filter_cons_False by done|done].
Qed.

Lemma chunks_from_spec fuel n l :
  n ≠ 0 → length l ≤ fuel →
  concat (chunks_from fuel n l) = l ∧
  Forall (λ c, 0 < length c ≤ n) (chunks_from fuel n l).
Proof.
  revert l. induction fuel as [|fuel IH]; intros l Hn Hl.
  { destruct l; [by split|simpl in Hl; lia]. }
  destruct l as [|b l]; [by split|]. cbn [chunks_from concat].
  destruct (IH (drop n (b :: l)) Hn) as [H1 H2].
  { rewrite length_drop. simpl in *. lia. }
  rewrite H1, take_drop. split; [done|]. constructor; [|done].
  rewrite length_take. simpl. lia.
Qed.

(** Events numbered without gaps from [n]. *)
Fixpoint numbered (n : Z) (es : list SessionOutput) : Prop :=
  match es with [] => True | e :: es => out_seq e = n ∧ numbered (wrap 64 (n + 1)) es end.

Section output_lemmas.
Context `{B64 : Base64, !Base64Laws}.
Variables (session_uuid worker_id : string) (stream : OutputStream).
Abbreviation events := (output_events session_uuid worker_id stream).

(** The bytes the receiver decodes. *)
Definition decoded (es : list SessionOutput) : list (result Bytes string) :=
  (λ e, b64_decode (out_data e)) <$> es.

Lemma output_events_spec now cs r :
  or_no_room_output r = false →
  decoded (events now cs r).1 = Ok <$> cs ∧
  numbered (or_seq r) (events now cs r).1 ∧
  Forall (λ e, out_session e = session_uuid ∧ out_stream e = stream) (events now cs r).1.
Proof.
  revert now r. induction cs as [|c cs IH]; intros now r Hs; [by repeat split|].
  cbn [output_events]. unfold create_output_event. rewrite Hs.
  set (r' := mkOutputRouter _ _ _ _).
  specialize (IH (λ i, now (S i)) r' eq_refl).
  destruct (events (λ i, now (S i)) cs r') as [es r''].
  destruct IH as (H1 & H2 & H3). simpl in *. rewrite b64_decode_encode, H1.
  split_and!; [done..|]. by constructor.
Qed.
End output_lemmas.

(** ** Properties *)

(** A session is lived once. From a manager that does not know it, and
    until it is removed, whatever is asked of whichever sessions, the
    operations that succeed for one session are, in this order, one claim, at
    most one start and one completion, none of them before the claim and none
    after the completion; and they determine the state it is in. *)
Theorem session_lifecycle u m ops :
  contains_session u m = false → OpRemove u ∉ ops →
  let '(done, m') := session_run m ops in
  let h := filter (about u) done in
  lived u (state_of u m') h ∧
  (h = [] ∨ ∃ now t rest, h = OpClaim now t :: rest ∧ st_uuid t = u ∧ length rest ≤ 2 ∧
     ∀ now' t', OpClaim now' t' ∉ rest) ∧
  (∀ pre now s c post, h = pre ++ OpComplete now u s c :: post →
     post = [] ∧ state_of u m' = Some Completed).
Proof.
  intros Hc Hr. apply bool_decide_eq_false, eq_None_not_Some in Hc.
  assert (Hl : lived u (state_of u m) []) by (unfold state_of; rewrite Hc; constructor).
  pose proof (session_run_lived ops u m [] Hr Hl) as H.
  destruct (session_run m ops) as [dn m']. cbn [app] in H. split; [done|].
  destruct H as [|now t Ht|now t p tm Ht|h s now st c Hh Hs].
  - split; [by left|]. by intros [|??].
  - split; [right; exists now, t, []; split_and!; [done..|simpl; lia|set_solver]|].
    intros [|? pre] ???? E; simplify_eq/=. by destruct pre.
  - split; [right; exists now, t, [OpRunning u p tm]; split_and!; [done..|simpl; lia|set_solver]|].
    intros [|? [|? pre]] ???? E; simplify_eq/=. by destruct pre.
  - inversion Hh; subst; [| |done].
    + split; [right; eexists _, _, [_]; split_and!; [done..|simpl; lia|set_solver]|].
      intros [|? [|? pre]] ???? E; simplify_eq/=; [done|]. by destruct pre.
    + split; [right; eexists _, _, [_; _]; split_and!; [done..|simpl; lia|set_solver]|].
      intros [|? [|? [|? pre]]] ???? E; simplify_eq/=; [done|]. by destruct pre.
Qed.

(** Chunked output loses nothing. Unless the output is suppressed, data
    cut into events of at most the batch size, which is not zero, decodes to
    the data, chunk after chunk; no event is empty, they are numbered without
    gaps from the router's counter, and all name the session and the stream. *)
Theorem output_chunks_roundtrip `{B64 : Base64, !Base64Laws} session worker stream now data r :
  or_no_room_output r = false → batch_size_bytes r ≠ 0 →
  ∃ es r' cs,
    create_chunked_output session worker stream now data r = Some (es, r') ∧
    decoded es = Ok <$> cs ∧ concat cs = data ∧
    Forall (λ c, 0 < length c ≤ batch_size_bytes r) cs ∧
    numbered (or_seq r) es ∧
    Forall (λ e, out_session e = session ∧ out_stream e = stream) es.
Proof.
  intros Hs Hn. unfold create_chunked_output, chunks. rewrite Hs, decide_False by done.
  destruct (chunks_from_spec (length data) (batch_size_bytes r) data) as [H1 H2]; [done..|].
  set (cs := chunks_from _ _ _) in *.
  destruct (output_events_spec session worker stream now cs r Hs) as (H3 & H4 & H5).
  simpl. destruct (output_events _ _ _ _ _ _) as [es r']. by exists es, r', cs.
Qed.

(** A batch size of zero is a panic on the first output, empty or not. *)
Lemma zero_batch_panics `{B64 : Base64} session worker stream now data r :
  or_no_room_output r = false →
  create_chunked_output session worker stream now data (with_batch_settings 200 0 r) = None.
Proof. intros Hs. unfold create_chunked_output. simpl. by rewrite Hs. Qed.

(** ** Witnesses *)
Definition toy_task (u sender command : string) : SessionTask :=
  mkSessionTask u sender command [] None None false false None 30 None [] None None None.
Definition toy_tmux (u : string) : TmuxSession := mkTmux u "/tmp/s" "/tmp/n".

#[local] Existing Instances toy_base64 toy_base64_laws.
