(* ===== verification/WorkerLoop.v ===== *)
(** * WorkerLoop: the main loop of the worker ([mxdx-worker/lib.rs])

    What the worker does with the events of its room: admission of tasks,
    their execution in tmux, cancellation, and the completion of sessions
    whose process is gone. The loop is a program in an error-state monad. Its
    requests to Matrix and to tmux are effects, and what they answer is the
    argument [Outside], indexed by the number of questions asked so far; a
    failing request ends the worker, as the [?] of the code does. The set-up
    before the loop, the telemetry and the state room that it refreshes, and
    the offline notice at shutdown are those of [WorkerStart]. *)
From S2P Require Import Prelude Text P2PCrypto WorkerExec SessionEvents WorkerSession WorkerMux.

(** ** Data *)

(** Of the configuration, what the loop reads. *)
Record WorkerConfig := mkWorkerConfig {
  max_sessions : Z; allowed_commands : list string; allowed_cwd : list string;
  authorized_users : list string
}.

Inductive IncomingEvent (V : Type) : Type :=
| TaskSubmission (event_id : string) (content : V)
| InSessionInput (session_uuid : string) (content : V)
| InSessionSignal (session_uuid : string) (content : V)
| InSessionResize (session_uuid : string) (content : V)
| InSessionCancel (session_uuid : string) (content : V).
Arguments TaskSubmission {V} _ _.
Arguments InSessionInput {V} _ _.
Arguments InSessionSignal {V} _ _.
Arguments InSessionResize {V} _ _.
Arguments InSessionCancel {V} _ _.

(** Of [session_persist.rs]. *)
Record PersistedSession := mkPersisted {
  ps_uuid : string; ps_tmux : string; ps_bin : string; ps_args : list string;
  ps_started_at : string; ps_thread_root : option string
}.

(** [SyncBackoff]. *)
Record SyncBackoff := mkBackoff { bo_current : Duration; bo_min : Duration; bo_max : Duration }.
Definition backoff_new : SyncBackoff := mkBackoff (from_secs 1) (from_secs 1) (from_secs 30).
Definition backoff_fail (b : SyncBackoff) : Duration * SyncBackoff :=
  (bo_current b, mkBackoff (Z.min (bo_current b * 2) (bo_max b)) (bo_min b) (bo_max b)).
Definition backoff_success (b : SyncBackoff) : SyncBackoff :=
  mkBackoff (bo_min b) (bo_min b) (bo_max b).

(** What the worker asks of the outside. *)
Inductive WorkerEffect : Type :=
| EPostResult (thread : string) (r : SessionResult)
| EPostStart (thread : string) (s : SessionStart)
| EPostOutput (thread : string) (o : SessionOutput)
| EWriteActive (uuid : string) (a : ActiveSessionState)
| EWriteCompleted (uuid : string) (c : CompletedSessionState)
| ERemoveActive (uuid : string)
| ETmuxCreate (uuid : string) (v : ValidatedCommand)
| ETmuxKill (session_name : string)
| EPersist (sessions : list PersistedSession)
| ESleep (d : Duration).

Record Outside := mkOutside {
  room_answer : nat → result unit string;
  tmux_answer : nat → result TmuxSession string;
  alive_answer : nat → result bool string;
  capture_answer : nat → result string string;
  exit_code_answer : nat → option Z;
  (** an error is a clock before the epoch *)
  time_answer : nat → result Z string
}.

(** [thread_roots] maps a task to the event that submitted it. *)
Record World := mkWorld {
  manager : SessionManager; mux : SessionMux; thread_roots : gmap string string;
  backoff : SyncBackoff; log : list WorkerEffect; asked : nat
}.

(** How the worker can end other than by a signal. *)
Inductive Stop : Type := StopError (message : string) | StopPanic.

(** ** The monad *)
Definition M (A : Type) : Type := World → result A Stop * World.
#[export] Instance M_ret : MRet M := λ A x w, (Ok x, w).
#[export] Instance M_bind : MBind M := λ A B f m w,
  let '(r, w) := m w in match r with Ok x => f x w | Err e => (Err e, w) end.

Definition fail_with {A} (e : Stop) : M A := λ w, (Err e, w).
Definition reading {A} (f : World → A) : M A := λ w, (Ok (f w), w).
Definition set_manager (m : SessionManager) : M () := λ w,
  (Ok (), mkWorld m (mux w) (thread_roots w) (backoff w) (log w) (asked w)).
Definition set_mux (x : SessionMux) : M () := λ w,
  (Ok (), mkWorld (manager w) x (thread_roots w) (backoff w) (log w) (asked w)).
Definition set_backoff (b : SyncBackoff) : M () := λ w,
  (Ok (), mkWorld (manager w) (mux w) (thread_roots w) b (log w) (asked w)).
Definition add_thread_root (uuid event_id : string) : M () := λ w,
  (Ok (), mkWorld (manager w) (mux w) (<[uuid := event_id]> (thread_roots w)) (backoff w) (log w)
            (asked w)).
Definition emit (e : WorkerEffect) : M () := λ w,
  (Ok (), mkWorld (manager w) (mux w) (thread_roots w) (backoff w) (log w ++ [e]) (asked w)).

(** The answer to the next question. *)
Definition ask {A} (f : nat → A) : M A := λ w,
  (Ok (f (asked w)), mkWorld (manager w) (mux w) (thread_roots w) (backoff w) (log w) (S (asked w))).
(** The [?] operator. *)
Definition try {A} (r : result A string) : M A :=
  match r with Ok x => mret x | Err e => fail_with (StopError e) end.
Definition when (b : bool) (m : M ()) : M () := if b then m else mret ().

Section worker.
Context {V : Type} `{B64 : Base64}.
Variable outside : Outside.
(** [serde_json::from_value::<SessionTask>]. *)
Variable task_from_value : V → result SessionTask string.
(** The file system and the orders of iteration. *)
Variables exists_ is_dir : string → bool.
Variable env_keys : gmap string string → list string.
Variable values : gmap string Session → list Session.
(** What a validation error prints. *)
Variable exec_error_fmt : ExecError → string.

Variable config : WorkerConfig.
Variables device_id room_id : string.

(** A request to the room, a question to tmux. *)
Definition request (e : WorkerEffect) : M () :=
  emit e ;; r ← ask (room_answer outside); try r.
Definition tmux_create (uuid : string) (v : ValidatedCommand) : M TmuxSession :=
  emit (ETmuxCreate uuid v) ;; r ← ask (tmux_answer outside); try r.
Definition is_alive : M bool := r ← ask (alive_answer outside); try r.
(** [SystemTime::now().duration_since(UNIX_EPOCH)?]. *)
Definition get_time : M Z := r ← ask (time_answer outside); try r.

Definition is_authorized (sender : string) : bool :=
  bool_decide (authorized_users config = [])
  || existsb (λ u, str_eqb u sender) (authorized_users config).

Definition reject (event_id : string) (t : SessionTask) (tail : string) : M () :=
  request (EPostResult event_id
    (mkSessionResult (st_uuid t) device_id Failed (Some 1%Z) 0 (Some tail))).

Definition persist_active_sessions : M () :=
  active ← reading (λ w, active_sessions values (manager w));
  roots ← reading thread_roots;
  emit (EPersist ((λ s, mkPersisted (s_uuid s) (s_uuid s) (bin (task s)) (args (task s))
                          (show (s_started_at s)) (roots !! s_uuid s)) <$> active)).

(** From the claim on. The clock that [claim] and [complete] read is asked for
    before their call: the check that they make first never fails here. *)
Definition start_session (event_id : string) (t : SessionTask) (v : ValidatedCommand) : M () :=
  claimed_at ← get_time;
  m ← reading manager;
  let '(claimed, m) := claim claimed_at t m in
  set_manager m ;;
  active_state ← try claimed;
  request (EWriteActive (st_uuid t) active_state) ;;
  now ← get_time;
  request (EPostStart event_id (mkStart (st_uuid t) device_id (Some (st_uuid t)) None now None)) ;;
  add_thread_root (st_uuid t) event_id ;;
  tm ← tmux_create (st_uuid t) v;
  m ← reading manager;
  let '(running, m) := mark_running (st_uuid t) None tm m in
  set_manager m ;;
  try running ;;
  persist_active_sessions ;;
  when (interactive t)
    (x ← reading mux; set_mux (add_session (st_uuid t) room_id (st_sender_id t) x)).

Definition handle_task (event_id : string) (content : V) : M () :=
  t ← try (task_from_value content);
  if negb (is_authorized (st_sender_id t)) then reject event_id t "Unauthorized sender" else
  active_count ← reading (λ w, length (active_sessions values (manager w)));
  if decide (max_sessions config ≤ Z.of_nat active_count)%Z then
    reject event_id t (cat ["Session limit reached ("; show (max_sessions config); " max)"])
  else
  match validate_command exists_ is_dir env_keys (bin t) (args t) (env t) (cwd t)
          (allowed_commands config) (allowed_cwd config) with
  | Err e => reject event_id t (cat ["Command validation failed: "; exec_error_fmt e])
  | Ok v =>
      seen ← reading (λ w, contains_session (st_uuid t) (manager w)
                           || bool_decide (is_Some (thread_roots w !! st_uuid t)));
      if (seen : bool) then mret () else start_session event_id t v
  end.

Definition handle_cancel (session_uuid : string) : M () :=
  s ← reading (λ w, get_session session_uuid (manager w));
  match s ≫= tmux with
  | Some tm => emit (ETmuxKill (session_name tm))
  | None => mret ()
  end.

Definition handle_event (e : IncomingEvent V) : M () :=
  match e with
  | TaskSubmission event_id content => handle_task event_id content
  | InSessionCancel session_uuid _ => handle_cancel session_uuid
  | _ => mret ()
  end.

Fixpoint handle_events (es : list (IncomingEvent V)) : M () :=
  match es with
  | [] => mret ()
  | e :: es => handle_event e ;; handle_events es
  end.

(** [sessions.get(uuid).unwrap()]. *)
Definition get_unwrap (uuid : string) : M Session :=
  s ← reading (λ w, get_session uuid (manager w));
  match s with Some s => mret s | None => fail_with StopPanic end.

(** A session whose process is gone. *)
Definition finish_session (uuid : string) : M () :=
  s ← get_unwrap uuid;
  final_output ← match tmux s with
                 | Some _ => r ← ask (capture_answer outside);
                             mret (match r with Ok text => text | Err _ => "" end)
                 | None => mret ""
                 end;
  roots ← reading thread_roots;
  match bool_decide (trim (as_bytes final_output) = []), roots !! uuid with
  | false, Some root =>
      now ← get_time;
      request (EPostOutput root
        (mkOutput uuid device_id Stdout (b64_encode (as_bytes final_output)) 0 now))
  | _, _ => mret ()
  end ;;
  s ← get_unwrap uuid;
  read ← match tmux s with Some _ => ask (exit_code_answer outside) | None => mret None end;
  let exit_code := match (read : option Z) with Some c => Some c | None => Some 0%Z end in
  let status := if decide (exit_code = Some 0%Z) then Success else Failed in
  now ← get_time;
  m ← reading manager;
  let '(completed, m) := complete now uuid status exit_code m in
  set_manager m ;;
  completed ← try completed;
  match roots !! uuid with
  | Some root =>
      request (EPostResult root
        (mkSessionResult uuid device_id status exit_code (cpl_duration completed)
           (Some (from_bytes (take_chars 1024 (as_bytes final_output))))))
  | None => mret ()
  end ;;
  request (EWriteCompleted uuid completed) ;;
  request (ERemoveActive uuid) ;;
  x ← reading mux;
  set_mux (remove_session uuid x) ;;
  persist_active_sessions.

Definition check_session (uuid : string) : M () :=
  s ← get_unwrap uuid;
  is_dead ← match tmux s with
            | Some _ => alive ← is_alive; mret (negb alive)
            | None => mret false
            end;
  when is_dead (finish_session uuid).

Fixpoint check_sessions (uuids : list string) : M () :=
  match uuids with
  | [] => mret ()
  | uuid :: uuids => check_session uuid ;; check_sessions uuids
  end.

Definition check_completed : M () :=
  active ← reading (λ w, active_sessions values (manager w));
  check_sessions (s_uuid <$> active).

(** A turn of the loop: what [select!] yields, or that the set-up at the head
    of the first turn ([setup_state_room], which [WorkerStart] runs there) finds
    the lease of another worker. *)
Inductive WorkerTurn : Type :=
| Synced (events : list (IncomingEvent V))
| SyncFailed
| Signalled
| LeaseRefused.
Definition LEASE_REFUSED : string := "another worker holds the state room lock; refusing to start a second instance".

(** [true] to go on. *)
Definition worker_turn (turn : WorkerTurn) : M bool :=
  match turn with
  | Synced events =>
      b ← reading backoff; set_backoff (backoff_success b) ;;
      handle_events events ;; check_completed ;; mret true
  | SyncFailed =>
      b ← reading backoff;
      let '(wait, b) := backoff_fail b in
      set_backoff b ;; emit (ESleep wait) ;; mret true
  | Signalled => mret false
  | LeaseRefused => fail_with (StopError LEASE_REFUSED)
  end.

Fixpoint worker_loop (turns : list WorkerTurn) : M () :=
  match turns with
  | [] => mret ()
  | turn :: turns =>
      go_on ← worker_turn turn;
      if (go_on : bool) then worker_loop turns else mret ()
  end.

(** [recovered]: the thread roots that the state room remembers. *)
Definition world_init (recovered : gmap string string) : World :=
  mkWorld (manager_new device_id) mux_new recovered backoff_new [] 0.
End worker.

(** ** The pool of sessions: an abstract specification

    What the worker promises about the tasks it runs, whatever else it says
    and however its requests fail. A pool has the tasks that run and those that
    are over or remembered from an earlier incarnation. *)
Record Pool := mkPool { running : gset string; over : gset string }.
Inductive PoolEvent : Type := PStart (uuid : string) | PFinish (uuid : string).

(** A start needs a new task and room for it, a finish a running one. *)
Definition pool_step (limit : nat) (p : Pool) (e : PoolEvent) : option Pool :=
  match e with
  | PStart u =>
      if decide (u ∉ running p ∧ u ∉ over p ∧ size (running p) < limit)
      then Some (mkPool ({[u]} ∪ running p) (over p)) else None
  | PFinish u =>
      if decide (u ∈ running p) then Some (mkPool (running p ∖ {[u]}) ({[u]} ∪ over p)) else None
  end.
Fixpoint pool_run (limit : nat) (p : Pool) (es : list PoolEvent) : option Pool :=
  match es with
  | [] => Some p
  | e :: es => p ← pool_step limit p e; pool_run limit p es
  end.
Definition pool_init (recovered : gmap string string) : Pool := mkPool ∅ (dom recovered).

(** What of the worker's effects concerns the pool. *)
Definition pool_event (e : WorkerEffect) : option PoolEvent :=
  match e with
  | ETmuxCreate u _ => Some (PStart u)
  | EWriteCompleted u _ => Some (PFinish u)
  | _ => None
  end.
Definition pool_trace (l : list WorkerEffect) : list PoolEvent := omap pool_event l.

(** ** Triples

    [hoare P m Q E]: from a world in [P], [m] returns in [Q] or stops in [E]. *)
Definition hoare {A} (P : World → Prop) (m : M A) (Q : A → World → Prop)
    (E : Stop → World → Prop) : Prop :=
  ∀ w, P w → match m w with (Ok x, w') => Q x w' | (Err e, w') => E e w' end.

Lemma hoare_ret {A} (P : World → Prop) (x : A) Q E : (∀ w, P w → Q x w) → hoare P (mret x) Q E.
Proof. intros H w Hw. by apply H. Qed.

Lemma hoare_bind {A B} P (m : M A) (k : A → M B) R Q E :
  hoare P m R E → (∀ x, hoare (R x) (k x) Q E) → hoare P (x ← m; k x) Q E.
Proof.
  intros Hm Hk w Hw. specialize (Hm w Hw). unfold mbind, M_bind.
  destruct (m w) as [[x|e] w']; [|done]. by apply Hk.
Qed.

Lemma hoare_pre {A} (P P' : World → Prop) (m : M A) Q E :
  (∀ w, P w → P' w) → hoare P' m Q E → hoare P m Q E.
Proof. intros HP Hm w Hw. by apply Hm, HP. Qed.

Lemma hoare_post {A} (P : World → Prop) (m : M A) Q Q' E :
  hoare P m Q' E → (∀ x w, Q' x w → Q x w) → hoare P m Q E.
Proof. intros Hm HQ w Hw. specialize (Hm w Hw). destruct (m w) as [[]]; auto. Qed.

(** A state operation: the world it leads to. *)
Lemma hoare_step {A} (P : World → Prop) (f : World → A) (g : World → World) Q E :
  (∀ w, P w → Q (f w) (g w)) → hoare P (λ w, (Ok (f w), g w)) Q E.
Proof. intros H w Hw. by apply H. Qed.

Lemma hoare_try {A} (P : World → Prop) (r : result A string) Q (E : Stop → World → Prop) :
  (∀ x w, r = Ok x → P w → Q x w) → (∀ e w, r = Err e → P w → E (StopError e) w) →
  hoare P (try r) Q E.
Proof. intros HQ HE w Hw. destruct r as [x|e]; simpl; [by apply HQ|by apply HE]. Qed.

(** A step of the code that cannot fail here. *)
Lemma try_ok {A} (P : World → Prop) (r : result A string) Q E :
  (∀ x w, r = Ok x → P w → Q x w) →
  hoare (λ w, P w ∧ is_ok r = true) (try r) Q E.
Proof. intros HQ w [Hw Hr]. destruct r as [x|]; [|done]. by apply HQ. Qed.

Lemma hoare_when (P : World → Prop) (b : bool) (m : M ()) Q E :
  (b = true → hoare P m Q E) → (b = false → ∀ w, P w → Q () w) → hoare P (when b m) Q E.
Proof. destruct b; intros H1 H2; [by apply H1|]. apply hoare_ret. auto. Qed.

(** A property of the manager, the thread roots and the pool's effects is kept
    by everything that leaves them alone. *)
Definition pool_effects (l : list WorkerEffect) : list WorkerEffect :=
  filter (λ e, is_Some (pool_event e)) l.
Definition pool_view (w : World) : SessionManager * gmap string string * list WorkerEffect :=
  (manager w, thread_roots w, pool_effects (log w)).
Class ViewOnly (P : World → Prop) := view_only w w' : pool_view w = pool_view w' → P w → P w'.

Lemma pool_trace_effects l : pool_trace (pool_effects l) = pool_trace l.
Proof.
  induction l as [|e l IH]; [done|]. unfold pool_effects, pool_trace in *. rewrite filter_cons.
  case_decide as He; csimpl; [by rewrite IH|]. apply eq_None_not_Some in He. by rewrite He.
Qed.

Lemma pool_trace_snoc l e : pool_trace (l ++ [e]) = pool_trace l ++ option_list (pool_event e).
Proof. unfold pool_trace. rewrite omap_app. simpl. by destruct (pool_event e). Qed.

Section kept.
Context (P : World → Prop) `{!ViewOnly P}.

Lemma hoare_emit e E : pool_event e = None → hoare P (emit e) (λ _, P) E.
Proof.
  intros He. apply hoare_step. intros w. apply view_only. unfold pool_view, pool_effects. simpl.
  rewrite filter_app, filter_cons_False, filter_nil, app_nil_r; [done|].
  rewrite He. by intros [? ?].
Qed.
Lemma hoare_ask {A} (f : nat → A) E : hoare P (ask f) (λ _, P) E.
Proof. apply hoare_step. intros w. by apply view_only. Qed.
Lemma hoare_set_backoff b E : hoare P (set_backoff b) (λ _, P) E.
Proof. apply hoare_step. intros w. by apply view_only. Qed.
Lemma hoare_set_mux x E : hoare P (set_mux x) (λ _, P) E.
Proof. apply hoare_step. intros w. by apply view_only. Qed.
Lemma hoare_reading {A} (f : World → A) E : hoare P (reading f) (λ x w, P w ∧ f w = x) E.
Proof. by apply hoare_step. Qed.
Lemma hoare_asked {A} (f : nat → result A string) (E : Stop → World → Prop) :
  (∀ i e w, f i = Err e → P w → E (StopError e) w) → hoare P (r ← ask f; try r) (λ _, P) E.
Proof.
  intros HE w Hw. unfold mbind, M_bind, ask. simpl. destruct (f (asked w)) as [x|e] eqn:Hf; simpl.
  - by refine (view_only _ _ _ Hw).
  - apply (HE (asked w)); [done|]. by refine (view_only _ _ _ Hw).
Qed.
Lemma hoare_request o e (E : Stop → World → Prop) :
  pool_event e = None → (∀ i e w, room_answer o i = Err e → P w → E (StopError e) w) →
  hoare P (request o e) (λ _, P) E.
Proof.
  intros He HE. eapply hoare_bind; [by apply hoare_emit|]. intros []. by apply hoare_asked.
Qed.
End kept.

(** ** Lemmas on the sessions *)
Abbreviation live m :=
  (filter (λ kv : string * Session, s_state kv.2 ≠ Completed) (m : gmap string Session)).
Abbreviation dead m :=
  (filter (λ kv : string * Session, s_state kv.2 = Completed) (m : gmap string Session)).

Lemma length_filter_values (P : Session → Prop) `{∀ s, Decision (P s)} (m : gmap string Session) :
  length (filter P (map_to_list m).*2) = size (filter (λ kv, P kv.2) m).
Proof.
  induction m as [|k s m Hk IH] using map_ind; [done|].
  rewrite map_to_list_insert by done. rewrite fmap_cons, filter_cons. cbn [snd].
  destruct (decide (P s)).
  - rewrite map_filter_insert_True by done. rewrite map_size_insert_None; [simpl; by rewrite IH|].
    apply map_lookup_filter_None. by left.
  - rewrite map_filter_insert_False by done. by rewrite delete_id.
Qed.

Lemma active_count values (m : SessionManager) :
  values (managed m) ≡ₚ (map_to_list (managed m)).*2 →
  length (active_sessions values m) = size (dom (live (managed m))).
Proof.
  intros Hv. unfold active_sessions. rewrite Hv, length_filter_values. by rewrite size_dom.
Qed.

(** The sessions as a pool; each is stored under its uuid. *)
Record matches (recovered : gmap string string) (m : gmap string Session) (p : Pool) : Prop := {
  match_running : running p = dom (live m);
  match_over : over p = dom recovered ∪ dom (dead m);
  match_keys : ∀ k s, m !! k = Some s → s_uuid s = k
}.

Lemma matches_claim recovered m p u s :
  matches recovered m p → m !! u = None → s_state s ≠ Completed → s_uuid s = u →
  matches recovered (<[u := s]> m) (mkPool ({[u]} ∪ running p) (over p)).
Proof.
  intros [Hr Ho Hk] Hu Hs Hid. split; simpl.
  - by rewrite map_filter_insert_True, dom_insert_L, Hr by done.
  - rewrite map_filter_insert_False, delete_id by done. done.
  - intros k s'. rewrite lookup_insert_Some. intros [[<- <-]|[_ H]]; [done|by apply Hk].
Qed.

Lemma matches_update recovered m p u s0 s :
  matches recovered m p → m !! u = Some s0 → s_state s0 ≠ Completed → s_state s ≠ Completed →
  s_uuid s = u → matches recovered (<[u := s]> m) p.
Proof.
  intros [Hr Ho Hk] Hu Hs0 Hs Hid. split.
  - rewrite map_filter_insert_True, dom_insert_L, Hr by done.
    assert (u ∈ dom (live m)) by (apply elem_of_dom; exists s0; by apply map_lookup_filter_Some).
    set_solver.
  - rewrite map_filter_insert_False by done. rewrite map_filter_delete, delete_id; [done|].
    apply map_lookup_filter_None. right. intros s' H. simpl. by simplify_eq.
  - intros k s'. rewrite lookup_insert_Some. intros [[<- <-]|[_ H]]; [done|by apply Hk].
Qed.

Lemma matches_finish recovered m p u s0 s :
  matches recovered m p → m !! u = Some s0 → s_state s0 ≠ Completed → s_state s = Completed →
  s_uuid s = u →
  u ∈ running p ∧
  matches recovered (<[u := s]> m) (mkPool (running p ∖ {[u]}) ({[u]} ∪ over p)).
Proof.
  intros [Hr Ho Hk] Hu Hs0 Hs Hid. split; [|split; simpl].
  - rewrite Hr. apply elem_of_dom. exists s0. by apply map_lookup_filter_Some.
  - rewrite map_filter_insert_False by (simpl; rewrite Hs; by intros []).
    by rewrite map_filter_delete, dom_delete_L, Hr.
  - rewrite map_filter_insert_True, dom_insert_L, Ho by done. set_solver.
  - intros k s'. rewrite lookup_insert_Some. intros [[<- <-]|[_ H]]; [done|by apply Hk].
Qed.

Lemma pool_run_snoc limit p es e :
  pool_run limit p (es ++ [e]) = (p' ← pool_run limit p es; pool_step limit p' e).
Proof.
  revert p. induction es as [|e' es IH]; intros p; cbn [pool_run app mbind option_bind].
  - by destruct (pool_step limit p e).
  - destruct (pool_step limit p e') as [p'|]; [apply IH|done].
Qed.

(** ** The worker keeps to the pool *)
Section refinement.
Context {V : Type} `{B64 : Base64}.
Variable outside : Outside.
Variable task_from_value : V → result SessionTask string.
Variables exists_ is_dir : string → bool.
Variable env_keys : gmap string string → list string.
Variable values : gmap string Session → list Session.
Variable exec_error_fmt : ExecError → string.
Variable config : WorkerConfig.
Variables device_id room_id : string.
Variable recovered : gmap string string.
Hypothesis values_all : ∀ m, values m ≡ₚ (map_to_list m).*2.

Definition validated (t : SessionTask) (v : ValidatedCommand) : Prop :=
  validate_command exists_ is_dir env_keys (bin t) (args t) (env t) (cwd t)
    (allowed_commands config) (allowed_cwd config) = Ok v.

(** A task that was submitted, by a sender that is authorized, and whose
    command passed the gate. *)
Definition admitted (events : list (IncomingEvent V)) (u : string) (v : ValidatedCommand) : Prop :=
  ∃ event_id content t,
    TaskSubmission event_id content ∈ events ∧ task_from_value content = Ok t ∧ st_uuid t = u ∧
    is_authorized config (st_sender_id t) = true ∧ validated t v.

Variable events : list (IncomingEvent V).
(** Whether the set-up of a turn finds the lease of another worker. *)
Variable refusable : Prop.
Definition all_admitted (l : list WorkerEffect) : Prop :=
  ∀ u v, ETmuxCreate u v ∈ l → admitted events u v.

Definition limit : nat := Z.to_nat (max_sessions config).

(** The effects so far are those of a pool, and the pool, the sessions and
    the thread roots are in [φ]. *)
Definition at_pool (φ : Pool → gmap string Session → gmap string string → Prop) (w : World) : Prop :=
  all_admitted (log w) ∧
  ∃ p, pool_run limit (pool_init recovered) (pool_trace (log w)) = Some p ∧
       φ p (managed (manager w)) (thread_roots w).

#[local] Instance at_pool_view φ : ViewOnly (at_pool φ).
Proof.
  intros w w' [= Hm Hr Hl] [Ha (p & Hp & Hφ)]. split.
  - intros u v Hin. apply Ha.
    assert (ETmuxCreate u v ∈ pool_effects (log w')) as Hin'
      by (apply list_elem_of_filter; by split).
    rewrite <-Hl in Hin'. by apply list_elem_of_filter in Hin' as [_ ?].
  - exists p. rewrite <-Hm, <-Hr. split; [|done].
    by rewrite <-pool_trace_effects, <-Hl, pool_trace_effects.
Qed.

Definition known (roots : gmap string string) : Prop := dom recovered ⊆ dom roots.

(** Between events, when the sessions [us] are live; before a claim, between
    the claim and the start; and between the completion and its report. *)
Definition inv (us : list string) : World → Prop := at_pool (λ p m r,
  matches recovered m p ∧ known r ∧ ∀ u, u ∈ us → u ∈ dom (live m)).
Definition ready (u : string) : World → Prop := at_pool (λ p m r,
  matches recovered m p ∧ known r ∧ m !! u = None ∧ u ∉ dom recovered ∧ size (running p) < limit).
Definition claimed (u : string) : World → Prop := at_pool (λ p m r,
  ∃ m0 s, matches recovered m0 p ∧ known r ∧ m0 !! u = None ∧ u ∉ dom recovered ∧
    size (running p) < limit ∧ m = <[u := s]> m0 ∧ s_state s = Claimed ∧ s_uuid s = u).
Definition started (u : string) : World → Prop := at_pool (λ p m r,
  matches recovered m p ∧ known r ∧ ∃ s, m !! u = Some s ∧ s_state s = Claimed).
Definition finishing (us : list string) (u : string) : World → Prop := at_pool (λ p m r,
  ∃ m0 s0 s, matches recovered m0 p ∧ (known r ∧ ∀ u, u ∈ us → u ∈ dom (live m)) ∧ m0 !! u = Some s0 ∧ s_state s0 ≠ Completed ∧
    m = <[u := s]> m0 ∧ s_state s = Completed ∧ s_uuid s = u).
Definition valid : World → Prop := at_pool (λ _ _ _, True).

(** What can end the worker: a request that failed, a clock before the epoch,
    a submission that is not a task, the lease of another worker. *)
Definition blamed (e : string) : Prop :=
  (∃ i, room_answer outside i = Err e) ∨ (∃ i, tmux_answer outside i = Err e) ∨
  (∃ i, alive_answer outside i = Err e) ∨ (∃ i, time_answer outside i = Err e) ∨
  (∃ event_id content, TaskSubmission event_id content ∈ events ∧ task_from_value content = Err e) ∨
  (refusable ∧ e = LEASE_REFUSED).
Definition stopped (e : Stop) (w : World) : Prop :=
  valid w ∧ ∃ message, e = StopError message ∧ blamed message.

#[local] Instance inv_view us : ViewOnly (inv us) := at_pool_view _.
#[local] Instance ready_view u : ViewOnly (ready u) := at_pool_view _.
#[local] Instance claimed_view u : ViewOnly (claimed u) := at_pool_view _.
#[local] Instance started_view u : ViewOnly (started u) := at_pool_view _.
#[local] Instance finishing_view us u : ViewOnly (finishing us u) := at_pool_view _.

Lemma stopped_by φ e w : at_pool φ w → blamed e → stopped (StopError e) w.
Proof. intros [Ha (p & Hp & _)] He. split; [|by exists e]. split; [done|]. eauto. Qed.
Ltac blame := solve [apply _|done|intros; eapply stopped_by; [eassumption|unfold blamed; eauto 10]].

Lemma hoare_persist φ :
  hoare (at_pool φ) (persist_active_sessions values) (λ _, at_pool φ) stopped.
Proof.
  intros w Hw. unfold persist_active_sessions. simpl.
  refine (hoare_emit (at_pool φ) _ stopped _ w Hw). done.
Qed.

Lemma hoare_claim u t now m :
  st_uuid t = u →
  hoare (λ w, ready u w ∧ manager w = m) (set_manager (claim now t m).2)
    (λ _ w, claimed u w ∧ is_ok (claim now t m).1 = true) stopped.
Proof.
  intros Hu. apply hoare_step. intros w [[Ha (p & Hp & Hm & Hk & Hn & Hrec & Hlt)] <-].
  unfold claim, contains_session. rewrite Hu, Hn, bool_decide_eq_false_2 by by intros [? ?].
  split; [|done]. split; [done|]. exists p. split; [done|]. simpl. eexists _, _.
  split_and!; try done.
Qed.

Lemma hoare_create u v :
  admitted events u v →
  hoare (claimed u) (tmux_create outside u v) (λ _, started u) stopped.
Proof.
  intros Hv. eapply hoare_bind.
  - apply (hoare_step _ _ _ (λ _, started u)).
    intros w [Ha (p & Hp & m0 & s & Hm & Hk & Hn & Hrec & Hlt & Em & Hs & Hid)]. split; simpl.
    + intros u' v' [Hin|E%list_elem_of_singleton]%elem_of_app; [by apply Ha|]. by simplify_eq.
    + exists (mkPool ({[u]} ∪ running p) (over p)). rewrite pool_trace_snoc. simpl.
      rewrite pool_run_snoc, Hp. simpl. rewrite decide_True.
      * split; [done|]. rewrite Em. split; [|split; [done|]].
        -- apply matches_claim; [done..| |done]. by rewrite Hs.
        -- exists s. by rewrite lookup_insert_eq.
      * destruct Hm as [Hr Ho _]. split_and!; [| |done].
        -- rewrite Hr. intros [s' [H _]%map_lookup_filter_Some]%elem_of_dom. simplify_eq.
        -- rewrite Ho. intros [?|[s' [H _]%map_lookup_filter_Some]%elem_of_dom]%elem_of_union;
             [done|simplify_eq].
  - intros []. apply hoare_asked; blame.
Qed.

Lemma hoare_running u p tm m :
  hoare (λ w, started u w ∧ manager w = m) (set_manager (mark_running u p tm m).2)
    (λ _ w, inv [] w ∧ is_ok (mark_running u p tm m).1 = true) stopped.
Proof.
  apply hoare_step. intros w [[Ha (q & Hq & Hm & Hk & s & Hs & Hst)] <-].
  unfold mark_running. rewrite Hs, decide_True by done. split; [|done]. split; [done|].
  exists q. split; [done|]. split; [|split; [done|intros ? []%not_elem_of_nil]]. simpl.
  eapply matches_update; [done|done|by rewrite Hst|done|]. simpl. by eapply match_keys.
Qed.

Lemma hoare_start event_id t v :
  admitted events (st_uuid t) v →
  hoare (ready (st_uuid t)) (start_session outside values device_id room_id event_id t v)
    (λ _, inv []) stopped.
Proof.
  intros Hv. unfold start_session.
  eapply hoare_bind; [apply hoare_asked; blame|]. intros now.
  eapply hoare_bind; [apply hoare_reading|]. intros m.
  pose proof (hoare_claim (st_uuid t) t now m eq_refl) as Hc.
  destruct (claim now t m) as [r m']. simpl in Hc.
  eapply hoare_bind; [exact Hc|]. intros [].
  eapply hoare_bind; [apply (try_ok _ _ (λ _, claimed (st_uuid t))); done|]. intros active_state.
  eapply hoare_bind; [apply hoare_request; blame|]. intros [].
  eapply hoare_bind; [apply hoare_asked; blame|]. intros now'.
  eapply hoare_bind; [apply hoare_request; blame|]. intros [].
  eapply hoare_bind.
  { apply (hoare_step _ _ _ (λ _, claimed (st_uuid t))).
    intros w [Ha (p & Hp & m0 & s & Hm & Hk & Hrest)]. split; [done|].
    exists p. split; [done|]. exists m0, s. split; [done|]. split; [|done].
    unfold known in *. simpl. set_solver. }
  intros []. eapply hoare_bind; [by apply hoare_create|]. intros tm.
  eapply hoare_bind; [apply hoare_reading|]. intros m2.
  pose proof (hoare_running (st_uuid t) None tm m2) as Hr.
  destruct (mark_running (st_uuid t) None tm m2) as [r2 m2']. simpl in Hr.
  eapply hoare_bind; [exact Hr|]. intros [].
  eapply hoare_bind; [apply (try_ok _ _ (λ _, inv [])); done|]. intros [].
  eapply hoare_bind; [apply hoare_persist|]. intros [].
  apply hoare_when; [|done]. intros _.
  eapply hoare_bind; [apply hoare_reading|]. intros x.
  eapply hoare_pre; [by intros w [Hw _]|]. apply hoare_set_mux, _.
Qed.

Lemma hoare_reject event_id t tail :
  hoare (inv []) (reject outside device_id event_id t tail) (λ _, inv []) stopped.
Proof. apply hoare_request; blame. Qed.

Lemma hoare_task event_id content :
  TaskSubmission event_id content ∈ events →
  hoare (inv []) (handle_task outside task_from_value exists_ is_dir env_keys values exec_error_fmt
               config device_id room_id event_id content) (λ _, inv []) stopped.
Proof.
  intros Hin. unfold handle_task. eapply hoare_bind.
  { apply (hoare_try _ _ (λ t w, inv [] w ∧ task_from_value content = Ok t)); [by auto|blame]. }
  intros t. destruct (is_authorized config (st_sender_id t)) eqn:Hauth; simpl;
    [|eapply hoare_pre; [by intros w [Hw _]|]; apply hoare_reject].
  eapply hoare_bind; [apply hoare_reading|]. intros n.
  case_decide as Hlim; [eapply hoare_pre; [by intros w [[Hw _] _]|]; apply hoare_reject|].
  destruct (validate_command _ _ _ _ _ _ _ _ _) as [v|e] eqn:Hv;
    [|eapply hoare_pre; [by intros w [[Hw _] _]|]; apply hoare_reject].
  eapply hoare_bind; [apply hoare_reading|]. intros seen.
  destruct seen.
  { apply hoare_ret. by intros w [[[Hw _] _] _]. }
  intros w [[[Hw Ht] Hn] Hs].
  apply (hoare_start event_id t v); [by exists event_id, content, t|].
  destruct Hw as [Ha (p & Hp & Hm & Hk & _)]. split; [done|]. exists p.
  apply orb_false_iff in Hs as [Hs1%bool_decide_eq_false Hs2%bool_decide_eq_false].
  apply eq_None_not_Some in Hs1, Hs2. split_and!; try done.
  - intros Hu%Hk. by apply not_elem_of_dom in Hs2.
  - rewrite active_count in Hn by apply values_all. rewrite (match_running _ _ _ Hm).
    unfold limit. lia.
Qed.

Lemma hoare_cancel u : hoare (inv []) (handle_cancel u) (λ _, inv []) stopped.
Proof.
  unfold handle_cancel. eapply hoare_bind; [apply hoare_reading|]. intros s.
  eapply hoare_pre; [by intros w [Hw _]|].
  destruct (s ≫= tmux); [by apply (hoare_emit (inv []))|by apply hoare_ret].
Qed.

Lemma hoare_events es :
  (∀ e, e ∈ es → e ∈ events) →
  hoare (inv []) (handle_events outside task_from_value exists_ is_dir env_keys values exec_error_fmt
               config device_id room_id es) (λ _, inv []) stopped.
Proof.
  induction es as [|e es IH]; intros Hes; [by apply hoare_ret|]. simpl.
  eapply (hoare_bind _ _ _ (λ _, inv [])); [|intros []; apply IH; set_solver].
  assert (He : e ∈ events) by (apply Hes; left).
  destruct e; simpl; [by apply hoare_task|by apply hoare_ret..|apply hoare_cancel].
Qed.

Section check.
Variables (u : string) (us : list string).

Lemma hoare_unwrap : hoare (inv (u :: us)) (get_unwrap u) (λ _, inv (u :: us)) stopped.
Proof.
  unfold get_unwrap. eapply hoare_bind; [apply hoare_reading|]. intros [s|].
  - apply hoare_ret. by intros w [Hw _].
  - intros w [[_ (p & _ & _ & _ & Hall)] Hs]. specialize (Hall u ltac:(left)).
    apply elem_of_dom in Hall as [s [Hs' _]%map_lookup_filter_Some].
    unfold get_session in Hs. congruence.
Qed.

Lemma hoare_complete now status code m :
  u ∉ us →
  hoare (λ w, inv (u :: us) w ∧ manager w = m) (set_manager (complete now u status code m).2)
    (λ _ w, finishing us u w ∧ is_ok (complete now u status code m).1 = true) stopped.
Proof.
  intros Hu. apply hoare_step. intros w [[Ha (p & Hp & Hm & Hk & Hall)] <-]. unfold complete.
  pose proof (Hall u ltac:(left)) as Hl.
  apply elem_of_dom in Hl as [s0 [Es Hs]%map_lookup_filter_Some]. rewrite Es, decide_False by done.
  split; [|done]. split; [done|]. exists p. split; [done|].
  eexists _, s0, _. split_and!; try done.
  - intros u' Hu'. simpl. rewrite map_filter_insert_False by (simpl; naive_solver).
    rewrite map_filter_delete, dom_delete_L. set_solver.
  - simpl. exact (match_keys _ _ _ Hm _ _ Es).
Qed.

(** The report of a completion is when the pool hears of it. *)
Lemma hoare_report c :
  hoare (finishing us u) (request outside (EWriteCompleted u c)) (λ _, inv us) stopped.
Proof.
  eapply hoare_bind.
  - apply (hoare_step _ _ _ (λ _, inv us)).
    intros w [Ha (p & Hp & m0 & s0 & s & Hm & [Hk Hall] & H0 & Hs0 & Em & Hs & Hid)].
    destruct (matches_finish _ _ _ u s0 s Hm H0 Hs0 Hs Hid) as [Hin Hm']. split.
    + intros u' v' [Hl|E%list_elem_of_singleton]%elem_of_app; [by apply Ha|done].
    + eexists. simpl. rewrite pool_trace_snoc. simpl.
      rewrite pool_run_snoc, Hp. simpl. rewrite decide_True by done.
      split; [done|]. split; [by rewrite Em|done].
  - intros []. apply hoare_asked; blame.
Qed.

Lemma hoare_finish :
  u ∉ us →
  hoare (inv (u :: us)) (finish_session outside values device_id u) (λ _, inv us) stopped.
Proof.
  intros Hu. unfold finish_session. eapply hoare_bind; [by apply hoare_unwrap|]. intros s.
  eapply (hoare_bind _ _ _ (λ _, inv (u :: us))).
  { destruct (tmux s); [|by apply hoare_ret].
    eapply hoare_bind; [apply hoare_ask, _|]. intros r. by apply hoare_ret. }
  intros final_output. eapply hoare_bind; [apply hoare_reading|]. intros roots.
  eapply hoare_pre; [by intros w [Hw _]|]. eapply (hoare_bind _ _ _ (λ _, inv (u :: us))).
  { destruct (bool_decide _), (roots !! u); try by apply hoare_ret.
    eapply hoare_bind; [apply hoare_asked; blame|]. intros now. apply hoare_request; blame. }
  intros []. eapply hoare_bind; [by apply hoare_unwrap|]. intros s2.
  eapply (hoare_bind _ _ _ (λ _, inv (u :: us))).
  { destruct (tmux s2); [apply hoare_ask, _|by apply hoare_ret]. }
  intros read. eapply hoare_bind; [apply hoare_asked; blame|]. intros now.
  eapply hoare_bind; [apply hoare_reading|]. intros m.
  match goal with |- context [complete now u ?st ?code m] =>
    pose proof (hoare_complete now st code m Hu) as Hc; destruct (complete now u st code m) as [r m']
  end.
  simpl in Hc. eapply hoare_bind; [exact Hc|]. intros [].
  eapply hoare_bind; [apply (try_ok _ _ (λ _, finishing us u)); done|]. intros completed.
  eapply (hoare_bind _ _ _ (λ _, finishing us u)).
  { destruct (roots !! u); [|by apply hoare_ret]. apply hoare_request; blame. }
  intros []. eapply hoare_bind; [apply hoare_report|]. intros [].
  eapply hoare_bind; [apply hoare_request; blame|]. intros [].
  eapply hoare_bind; [apply hoare_reading|]. intros x.
  eapply hoare_pre; [by intros w [Hw _]|].
  eapply hoare_bind; [apply hoare_set_mux, _|]. intros []. apply hoare_persist.
Qed.

Lemma inv_cons w : inv (u :: us) w → inv us w.
Proof. intros [Ha (p & Hp & Hm & Hk & Hall)]. split; [done|]. exists p. set_solver. Qed.

Lemma hoare_check :
  u ∉ us →
  hoare (inv (u :: us)) (check_session outside values device_id u) (λ _, inv us) stopped.
Proof.
  intros Hu. unfold check_session. eapply hoare_bind; [by apply hoare_unwrap|]. intros s.
  eapply (hoare_bind _ _ _ (λ _, inv (u :: us))).
  { destruct (tmux s); [|by apply hoare_ret].
    eapply (hoare_bind _ _ _ (λ _, inv (u :: us))); [|intros alive; by apply hoare_ret].
    apply hoare_asked; blame. }
  intros is_dead. apply hoare_when; [intros _; by apply hoare_finish|].
  intros _ w. apply inv_cons.
Qed.
End check.

Lemma hoare_checks us :
  NoDup us → hoare (inv us) (check_sessions outside values device_id us) (λ _, inv []) stopped.
Proof.
  induction us as [|u us IH]; intros Hnd; [by apply hoare_ret|]. simpl.
  apply NoDup_cons in Hnd as [Hu Hnd].
  eapply hoare_bind; [by apply hoare_check|]. intros []. by apply IH.
Qed.

(** The sessions that a check looks at, each once. *)
Lemma active_uuids m p :
  matches recovered (managed m) p →
  NoDup (s_uuid <$> active_sessions values m) ∧
  ∀ u, u ∈ s_uuid <$> active_sessions values m → u ∈ dom (live (managed m)).
Proof.
  intros [_ _ Hk]. unfold active_sessions.
  assert (Hall : ∀ s, s ∈ values (managed m) → managed m !! s_uuid s = Some s).
  { intros s Hs. rewrite values_all in Hs.
    apply list_elem_of_fmap in Hs as ([k s'] & -> & Hks%elem_of_map_to_list). simpl.
    by rewrite (Hk _ _ Hks). }
  split.
  - assert (Hnd : NoDup (s_uuid <$> values (managed m))).
    { rewrite values_all, <-list_fmap_compose.
      assert (s_uuid ∘ snd <$> map_to_list (managed m) = (map_to_list (managed m)).*1) as ->.
      { apply list_fmap_ext. intros i [k s] Hi%list_elem_of_lookup_2%elem_of_map_to_list.
        simpl. by apply Hk. }
      apply NoDup_fst_map_to_list. }
    revert Hnd. generalize (values (managed m)) as l. clear. intros l Hnd.
    induction l as [|s l IH]; [constructor|]. rewrite fmap_cons in Hnd.
    apply NoDup_cons in Hnd as [Hs Hnd]. rewrite filter_cons. case_decide; [|by apply IH].
    rewrite fmap_cons. apply NoDup_cons. split; [|by apply IH].
    intros (s' & E & [_ Hin]%list_elem_of_filter)%list_elem_of_fmap.
    apply Hs, list_elem_of_fmap. eauto.
  - intros u (s & -> & [Hs Hin]%list_elem_of_filter)%list_elem_of_fmap.
    apply elem_of_dom. exists s. apply map_lookup_filter_Some. auto.
Qed.

Lemma hoare_check_completed :
  hoare (inv []) (check_completed outside values device_id) (λ _, inv []) stopped.
Proof.
  unfold check_completed. eapply hoare_bind; [apply hoare_reading|]. intros active w [Hw <-].
  pose proof Hw as [Ha (p & Hp & Hm & Hk & _)]. destruct (active_uuids _ _ Hm) as [Hnd Hlive].
  apply hoare_checks; [done|]. split; [done|]. exists p. auto.
Qed.

Definition turn_events (turn : WorkerTurn (V := V)) : list (IncomingEvent V) :=
  match turn with Synced es => es | _ => [] end.

Lemma hoare_turn turn :
  (∀ e, e ∈ turn_events turn → e ∈ events) → (turn = LeaseRefused → refusable) →
  hoare (inv []) (worker_turn outside task_from_value exists_ is_dir env_keys values exec_error_fmt
                    config device_id room_id turn) (λ _, inv []) stopped.
Proof.
  intros He Href. destruct turn as [es| | |]; simpl; [| |by apply hoare_ret|].
  - eapply hoare_bind; [apply hoare_reading|]. intros b. eapply hoare_pre; [by intros w [Hw _]|].
    eapply hoare_bind; [apply hoare_set_backoff, _|]. intros [].
    eapply hoare_bind; [by apply hoare_events|]. intros [].
    eapply (hoare_bind _ _ _ (λ _, inv [])); [|intros []; by apply hoare_ret].
    apply hoare_check_completed.
  - eapply hoare_bind; [apply hoare_reading|]. intros b. eapply hoare_pre; [by intros w [Hw _]|].
    eapply hoare_bind; [apply hoare_set_backoff, _|]. intros [].
    eapply hoare_bind; [by apply (hoare_emit (inv []))|]. intros []. by apply hoare_ret.
  - intros w Hw. refine (stopped_by _ _ _ Hw _). unfold blamed. naive_solver.
Qed.

Lemma hoare_loop turns :
  (∀ e, e ∈ (turns ≫= turn_events) → e ∈ events) → (LeaseRefused ∈ turns → refusable) →
  hoare (inv []) (worker_loop outside task_from_value exists_ is_dir env_keys values exec_error_fmt
                    config device_id room_id turns) (λ _, inv []) stopped.
Proof.
  induction turns as [|turn turns IH]; intros He Href; [by apply hoare_ret|]. simpl.
  eapply hoare_bind; [apply hoare_turn; set_solver|]. intros [].
  - apply IH; set_solver.
  - by apply hoare_ret.
Qed.

Lemma inv_init : inv [] (world_init device_id recovered).
Proof.
  split; [intros u v H; by apply not_elem_of_nil in H|].
  exists (pool_init recovered). split; [done|]. split_and!; [split|by unfold known|]; simpl.
  - by rewrite map_filter_empty, dom_empty_L.
  - rewrite map_filter_empty, dom_empty_L. set_solver.
  - intros k s. by rewrite lookup_empty.
  - by intros u Hu%not_elem_of_nil.
Qed.
End refinement.

(** ** Properties *)
Section properties.
Context {V : Type} `{B64 : Base64}.
Variable outside : Outside.
Variable task_from_value : V → result SessionTask string.
Variables exists_ is_dir : string → bool.
Variable env_keys : gmap string string → list string.
Variable values : gmap string Session → list Session.
Variable exec_error_fmt : ExecError → string.
Variable config : WorkerConfig.
Variables device_id room_id : string.
Variable recovered : gmap string string.

(** The worker from its start, over the turns of its loop. *)
Definition run_worker (turns : list (WorkerTurn (V := V))) : result () Stop * World :=
  worker_loop outside task_from_value exists_ is_dir env_keys values exec_error_fmt config
    device_id room_id turns (world_init device_id recovered).

Abbreviation submitted turns := (turns ≫= turn_events).

Lemma run_worker_ok turns :
  (∀ m, values m ≡ₚ (map_to_list m).*2) →
  match run_worker turns with
  | (Ok _, w) => inv task_from_value exists_ is_dir env_keys config recovered (submitted turns) [] w
  | (Err e, w) =>
      stopped outside task_from_value exists_ is_dir env_keys config recovered (submitted turns)
        (LeaseRefused ∈ turns) e w
  end.
Proof.
  intros Hv. apply (hoare_loop outside task_from_value exists_ is_dir env_keys values exec_error_fmt
    config device_id room_id recovered Hv (submitted turns)); [done..|]. eapply inv_init; exact Hv.
Qed.

(** C3: the worker refines the abstract pool. Whatever arrives, whatever the
    outside answers and wherever a failing request stops the loop, the worker
    does not panic, and its effects are a run of the pool: a task is started
    at most once, never if an earlier incarnation has seen it, only while fewer
    than [max_sessions] tasks run, and reported as completed at most once,
    after its start. While the loop runs, the sessions it holds are those of
    the pool. *)
Theorem worker_refines_pool turns :
  (∀ m, values m ≡ₚ (map_to_list m).*2) →
  let '(res, w) := run_worker turns in
  res ≠ Err StopPanic ∧
  ∃ p, pool_run (limit config) (pool_init recovered) (pool_trace (log w)) = Some p ∧
       (res = Ok () → matches recovered (managed (manager w)) p).
Proof.
  intros Hv. pose proof (run_worker_ok turns Hv) as H.
  destruct (run_worker turns) as [[[]|e] w].
  - destruct H as [_ (p & Hp & Hm & _)]. split; [done|]. exists p. done.
  - destruct H as [[_ (p & Hp & _)] (msg & -> & _)]. split; [done|]. exists p. done.
Qed.

(** C7: nothing runs that was not admitted. Every command the worker starts
    is that of a task submitted to it, from an authorized sender (or any, if
    no sender is listed), exactly as the command gate let it through. *)
Theorem only_admitted_run turns u v :
  (∀ m, values m ≡ₚ (map_to_list m).*2) →
  ETmuxCreate u v ∈ log (run_worker turns).2 →
  ∃ event_id content t,
    TaskSubmission event_id content ∈ submitted turns ∧
    task_from_value content = Ok t ∧ st_uuid t = u ∧
    is_authorized config (st_sender_id t) = true ∧
    validate_command exists_ is_dir env_keys (bin t) (args t) (env t) (cwd t)
      (allowed_commands config) (allowed_cwd config) = Ok v.
Proof.
  intros Hv. pose proof (run_worker_ok turns Hv) as H.
  destruct (run_worker turns) as [[[]|e] w]; simpl.
  - destruct H as [Ha _]. apply Ha.
  - destruct H as [[Ha _] _]. apply Ha.
Qed.
(** C19: the worker goes on. It stops by itself only when the set-up of its
    first turn finds the lease of another worker, when a request to the room or
    to tmux failed, when the clock is before the epoch, or when an event
    submitted as a task did not parse, and then with that very error: no unwrap,
    no claim, start or completion of a session ever fails. (A submission that is
    no task does end the worker. What is done between the turns, telemetry and
    the renewal of the lease, is modelled in [WorkerStart], with what can stop
    the worker there.) *)
Theorem worker_stops_only_on_failure turns e :
  (∀ m, values m ≡ₚ (map_to_list m).*2) →
  (run_worker turns).1 = Err e →
  ∃ message, e = StopError message ∧
    ((∃ i, room_answer outside i = Err message) ∨ (∃ i, tmux_answer outside i = Err message) ∨
     (∃ i, alive_answer outside i = Err message) ∨ (∃ i, time_answer outside i = Err message) ∨
     (∃ event_id content, TaskSubmission event_id content ∈ submitted turns ∧
        task_from_value content = Err message) ∨
     (LeaseRefused ∈ turns ∧ message = LEASE_REFUSED)).
Proof.
  intros Hv. pose proof (run_worker_ok turns Hv) as H.
  destruct (run_worker turns) as [[[]|e'] w]; [done|]. intros [= ->]. by destruct H as [_ H].
Qed.

Lemma bind_ok {A B} (m : M A) (k : A → M B) w x w' : m w = (Ok x, w') → (x ← m; k x) w = k x w'.
Proof. intros Hm. unfold mbind, M_bind. by rewrite Hm. Qed.
Lemma bind_to {A B} (m : M A) (k : A → M B) w x w' r :
  m w = (Ok x, w') → k x w' = r → (x ← m; k x) w = r.
Proof. intros Hm Hk. by rewrite (bind_ok _ _ _ _ _ Hm). Qed.

(** The primitives on an explicit world. *)
Lemma ask_eq {A} (f : nat → A) m x r b l n :
  ask f (mkWorld m x r b l n) = (Ok (f n), mkWorld m x r b l (S n)).
Proof. done. Qed.
Lemma reading_eq {A} (f : World → A) w : reading f w = (Ok (f w), w).
Proof. done. Qed.
Lemma set_manager_eq m' m x r b l n :
  set_manager m' (mkWorld m x r b l n) = (Ok (), mkWorld m' x r b l n).
Proof. done. Qed.
Lemma set_mux_eq x' m x r b l n : set_mux x' (mkWorld m x r b l n) = (Ok (), mkWorld m x' r b l n).
Proof. done. Qed.
Lemma request_ok e m x r b l n :
  (∀ i, room_answer outside i = Ok ()) →
  request outside e (mkWorld m x r b l n) = (Ok (), mkWorld m x r b (l ++ [e]) (S n)).
Proof. intros H. unfold request, mbind, M_bind, emit, ask. simpl. by rewrite H. Qed.
Lemma get_time_eq clock m x r b l n :
  (∀ i, time_answer outside i = Ok (clock i)) →
  get_time outside (mkWorld m x r b l n) = (Ok (clock n), mkWorld m x r b l (S n)).
Proof. intros H. unfold get_time, mbind, M_bind, ask. simpl. by rewrite H. Qed.
Lemma persist_eq m x r b l n :
  persist_active_sessions values (mkWorld m x r b l n)
  = (Ok (), mkWorld m x r b (l ++ [EPersist ((λ s, mkPersisted (s_uuid s) (s_uuid s) (bin (task s))
      (args (task s)) (show (s_started_at s)) (r !! s_uuid s)) <$> active_sessions values m)]) n).
Proof. done. Qed.
Lemma get_unwrap_eq u s m x r b l n :
  managed m !! u = Some s → get_unwrap u (mkWorld m x r b l n) = (Ok s, mkWorld m x r b l n).
Proof. intros Hs. unfold get_unwrap, reading, mbind, M_bind, get_session. simpl. by rewrite Hs. Qed.

Lemma removed_session u x : has_session u (remove_session u x) = false.
Proof.
  apply has_session_false. unfold remove_session. destruct (sessions x !! u) eqn:E; [|done].
  apply lookup_delete_eq.
Qed.

(** From the reading of the exit code on. *)
Lemma finish_tail clock u s tm tail root w :
  (∀ i, room_answer outside i = Ok ()) → (∀ i, time_answer outside i = Ok (clock i)) →
  managed (manager w) !! u = Some s → s_state s ≠ Completed → tmux s = Some tm →
  ∃ i r c ps w',
    (s ← get_unwrap u;
     read ← match tmux s with Some _ => ask (exit_code_answer outside) | None => mret None end;
     let exit_code := match (read : option Z) with Some c => Some c | None => Some 0%Z end in
     let status := if decide (exit_code = Some 0%Z) then Success else Failed in
     now ← get_time outside;
     m ← reading manager;
     let '(completed, m) := complete now u status exit_code m in
     set_manager m ;;
     completed ← try completed;
     request outside (EPostResult root
       (mkSessionResult u device_id status exit_code (cpl_duration completed) (tail : option string))) ;;
     request outside (EWriteCompleted u completed) ;;
     request outside (ERemoveActive u) ;;
     x ← reading mux;
     set_mux (remove_session u x) ;;
     persist_active_sessions values) w = (Ok (), w') ∧
    log w' = log w ++ [EPostResult root r; EWriteCompleted u c; ERemoveActive u; EPersist ps] ∧
    sr_session r = u ∧
    sr_exit_code r = Some (default 0%Z (exit_code_answer outside i)) ∧
    sr_status r = (if decide (default 0%Z (exit_code_answer outside i) = 0%Z) then Success else Failed) ∧
    state_of u (manager w') = Some Completed ∧ has_session u (mux w') = false.
Proof.
  destruct w as [mg x rt b l n]. cbn [manager log]. intros Hroom Htime Hs Hst Htm. exists n.
  do 4 eexists. split.
  - eapply bind_to; [by apply get_unwrap_eq|]. rewrite Htm. eapply bind_to; [apply ask_eq|].
    cbn zeta. eapply bind_to; [by apply get_time_eq|]. eapply bind_to; [apply reading_eq|].
    unfold complete. cbn [manager]. rewrite Hs, decide_False by done.
    eapply bind_to; [apply set_manager_eq|]. eapply bind_to; [reflexivity|].
    do 3 (eapply bind_to; [by apply request_ok|]).
    eapply bind_to; [apply reading_eq|]. eapply bind_to; [apply set_mux_eq|]. apply persist_eq.
  - cbn [log manager mux sr_session sr_exit_code sr_status].
    rewrite <-!app_assoc. split; [reflexivity|].
    split_and!; [done|by destruct (exit_code_answer outside n)| | |apply removed_session].
    + destruct (exit_code_answer outside n); simpl; repeat case_decide; congruence.
    + unfold state_of. simpl. by rewrite lookup_insert_eq.
Qed.

(** How a completion is reported. When the process of a session is gone
    and the room answers, the worker posts at most one event of final output
    and then exactly one result, in the thread of the task; the session is
    completed, its state event rewritten and its terminal unregistered. The
    result carries the exit code if one was left, and an unknown exit code,
    which is what a cancelled session leaves, counts as success. *)
Theorem completion_report clock u s root w :
  (∀ i, room_answer outside i = Ok ()) → (∀ i, time_answer outside i = Ok (clock i)) →
  managed (manager w) !! u = Some s → s_state s ≠ Completed → is_Some (tmux s) →
  thread_roots w !! u = Some root →
  ∃ i out r c ps w',
    finish_session outside values device_id u w = (Ok (), w') ∧
    log w' = log w ++ option_list out ++
             [EPostResult root r; EWriteCompleted u c; ERemoveActive u; EPersist ps] ∧
    (out = None ∨ ∃ o, out = Some (EPostOutput root o) ∧ out_session o = u) ∧
    sr_session r = u ∧
    sr_exit_code r = Some (default 0%Z (exit_code_answer outside i)) ∧
    sr_status r = (if decide (default 0%Z (exit_code_answer outside i) = 0%Z) then Success else Failed) ∧
    state_of u (manager w') = Some Completed ∧ has_session u (mux w') = false.
Proof.
  destruct w as [mg x rt b l n]. cbn [manager log thread_roots].
  intros Hroom Htime Hs Hst [tm Htm] Hroot. unfold finish_session.
  erewrite bind_ok by by apply get_unwrap_eq. rewrite Htm.
  erewrite bind_ok by (eapply bind_to; [apply ask_eq|reflexivity]).
  set (text := match capture_answer outside n with Ok t => t | _ => _ end).
  erewrite bind_ok by apply reading_eq. cbn [thread_roots]. rewrite Hroot.
  destruct (bool_decide (trim (as_bytes text) = [])).
  - erewrite bind_ok by reflexivity. destruct (finish_tail clock u s tm
      (Some (from_bytes (take_chars 1024 (as_bytes text)))) root (mkWorld mg x rt b l (S n)))
      as (i & r & c & ps & w' & H1 & H2 & H3); [done..|].
    exists i, None, r, c, ps, w'. split; [exact H1|]. split; [exact H2|]. auto.
  - erewrite bind_ok by (eapply bind_to; [by apply get_time_eq|by apply request_ok]).
    match goal with |- context [(get_unwrap u ≫= _) ?w0] =>
      destruct (finish_tail clock u s tm (Some (from_bytes (take_chars 1024 (as_bytes text)))) root w0)
        as (i & r & c & ps & w' & H1 & H2 & H3); [done..|]
    end.
    eexists i, (Some _), r, c, ps, w'. split; [exact H1|].
    split; [by rewrite H2; simpl; rewrite <-app_assoc|].
    split; [right; eexists; split; [reflexivity|done]|done].
Qed.

(** A redelivered event fails a running task. The room delivers events
    again after a reconnection, and the limit on sessions is checked before
    the guard against duplicates: when as many sessions run as may, the
    submission of one of them, delivered again, is answered with a failed
    result in its own thread, while the session goes on running. *)
Theorem redelivery_fails_running_task event_id content t s w :
  task_from_value content = Ok t → is_authorized config (st_sender_id t) = true →
  managed (manager w) !! st_uuid t = Some s → s_state s = Running →
  (max_sessions config ≤ Z.of_nat (length (active_sessions values (manager w))))%Z →
  ∃ r,
    let '(_, w') := handle_task outside task_from_value exists_ is_dir env_keys values
                      exec_error_fmt config device_id room_id event_id content w in
    log w' = log w ++ [EPostResult event_id r] ∧
    sr_session r = st_uuid t ∧ sr_status r = Failed ∧
    state_of (st_uuid t) (manager w') = Some Running.
Proof.
  intros Ht Ha Hs Hst Hmax. unfold handle_task. rewrite Ht.
  erewrite bind_ok; [|reflexivity]. rewrite Ha. simpl. erewrite bind_ok; [|reflexivity].
  rewrite decide_True by done. unfold reject, request, mbind, M_bind, emit, ask. simpl.
  eexists. destruct (room_answer outside (asked w)) as [[]|e]; simpl;
    (split; [reflexivity|]; split_and!; [done..|]; unfold state_of; by rewrite Hs; simpl; rewrite Hst).
Qed.
End properties.

(** ** Witnesses: tmux answers, processes end at once, and a submission is a
    task or does not parse *)
#[local] Existing Instances toy_base64.
Definition toy_outside (alive : bool) : Outside :=
  mkOutside (λ _, Ok ()) (λ _, Ok (toy_tmux "t")) (λ _, Ok alive) (λ _, Ok "done") (λ _, None)
    (λ i, Ok (Z.of_nat i)).
Definition toy_from_value (v : option SessionTask) : result SessionTask string :=
  match v with Some t => Ok t | None => Err "missing field" end.
Definition toy_values (m : gmap string Session) : list Session := (map_to_list m).*2.
Definition toy_keys (e : gmap string string) : list string := (map_to_list e).*1.
Definition toy_config : WorkerConfig := mkWorkerConfig 1 ["ls"] [] ["@a:x"].
Abbreviation toy_run alive turns :=
  (run_worker (toy_outside alive) toy_from_value (λ _, false) (λ _, true) toy_keys toy_values
    (λ _, "") toy_config "D" "!r:x" ∅ turns).
Definition toy_submit (e u sender : string) : IncomingEvent (option SessionTask) :=
  TaskSubmission e (Some (toy_task u sender "ls")).
Lemma toy_values_all m : toy_values m ≡ₚ (map_to_list m).*2.
Proof. done. Qed.

Lemma worker_refines_pool_witness :
  let turns := [Synced [toy_submit "$1" "u" "@a:x"; toy_submit "$2" "v" "@b:x"; toy_submit "$1" "u" "@a:x"];
                Synced [toy_submit "$1" "u" "@a:x"; toy_submit "$3" "v" "@a:x"]] in
  pool_trace (log (toy_run false turns).2) = [PStart "u"; PFinish "u"; PStart "v"; PFinish "v"] ∧
  let '(res, w) := toy_run false turns in
  res ≠ Err StopPanic ∧
  ∃ p, pool_run (limit toy_config) (pool_init ∅) (pool_trace (log w)) = Some p ∧
       (res = Ok () → matches ∅ (managed (manager w)) p).
Proof.
  intros turns. split; [vm_compute; reflexivity|].
  pose proof (worker_refines_pool (toy_outside false) toy_from_value (λ _, false) (λ _, true) toy_keys
    toy_values (λ _, "") toy_config "D" "!r:x" ∅ turns toy_values_all) as H. exact H.
Defined.

Lemma only_admitted_run_witness :
  let turns := [Synced [toy_submit "$1" "u" "@a:x"]] in
  ∃ event_id content t,
    TaskSubmission event_id content ∈ (turns ≫= turn_events) ∧
    toy_from_value content = Ok t ∧ st_uuid t = "u" ∧
    is_authorized toy_config (st_sender_id t) = true ∧
    validate_command (λ _, false) (λ _, true) toy_keys (bin t) (args t) (env t) (cwd t)
      ["ls"] [] = Ok (mkValidated "ls" [] ∅ None).
Proof.
  intros turns.
  refine (only_admitted_run (toy_outside false) toy_from_value (λ _, false) (λ _, true) toy_keys
           toy_values (λ _, "") toy_config "D" "!r:x" ∅ turns "u" (mkValidated "ls" [] ∅ None)
           toy_values_all _).
  vm_compute. repeat first [apply list_elem_of_here|apply list_elem_of_further].
Defined.

Lemma worker_stops_only_on_failure_witness :
  let turns := [Synced [TaskSubmission "$1" None]] in
  ∃ message, StopError "missing field" = StopError message ∧
    ((∃ i, room_answer (toy_outside true) i = Err message) ∨
     (∃ i, tmux_answer (toy_outside true) i = Err message) ∨
     (∃ i, alive_answer (toy_outside true) i = Err message) ∨ (∃ i, time_answer (toy_outside true) i = Err message) ∨
     (∃ event_id content, TaskSubmission event_id content ∈ (turns ≫= turn_events) ∧
        toy_from_value content = Err message) ∨
     (LeaseRefused ∈ turns ∧ message = LEASE_REFUSED)).
Proof.
  intros turns.
  exact (worker_stops_only_on_failure (toy_outside true) toy_from_value (λ _, false) (λ _, true)
           toy_keys toy_values (λ _, "") toy_config "D" "!r:x" ∅ turns _ toy_values_all eq_refl).
Defined.

(** The world after the start of one session that does not end. *)
Definition toy_world : World := (toy_run true [Synced [toy_submit "$1" "u" "@a:x"]]).2.
