(* ===== verification/Float64.v ===== *)
(** * Float64: [f64] as far as the code compares them

    A double is a [spec_float] of the standard library: a NaN, an infinity, a
    zero or sign, mantissa and exponent. Nothing is computed with them: a
    latency is measured, stored and compared. *)
From Stdlib Require Export Floats.SpecFloat.
From S2P Require Import Prelude.
From stdpp Require Import options.

Abbreviation f64 := spec_float (only parsing).

Definition partial_cmp (x y : f64) : option comparison := SFcompare x y.
Definition flt (x y : f64) : bool := SFltb x y.
Definition f64_MAX : f64 := S754_finite false 9007199254740991 971.
Definition is_nan (x : f64) : bool := match x with S754_nan => true | _ => false end.

(** An order on the non-NaN doubles. *)
Definition fle (x y : f64) : Prop := partial_cmp x y ≠ Some Gt.

Lemma flt_cmp x y : flt x y = true ↔ partial_cmp x y = Some Lt.
Proof. unfold flt, SFltb, partial_cmp. destruct (SFcompare x y) as [[]|]; naive_solver. Qed.

Lemma partial_cmp_nan x y : partial_cmp x y = None ↔ is_nan x = true ∨ is_nan y = true.
Proof.
  unfold partial_cmp, SFcompare. destruct x as [?|[]| |[] ??], y as [?|[]| |[] ??]; simpl;
    repeat case_match; naive_solver.
Qed.

Lemma partial_cmp_antisym x y : partial_cmp y x = CompOpp <$> partial_cmp x y.
Proof.
  unfold partial_cmp, SFcompare. destruct x as [?|[]| |[] m1 e1], y as [?|[]| |[] m2 e2]; simpl;
    try done; rewrite (Z.compare_antisym e1 e2);
    destruct (Z.compare e1 e2); simpl; try done;
    rewrite (Pos.compare_cont_antisym m1 m2 Eq); simpl; by destruct (Pos.compare_cont _ _ _).
Qed.

(** A double by class, signed exponent and signed mantissa: the order of
    doubles is lexicographic in these. *)
Definition rank (x : f64) : Z * Z * Z :=
  match x with
  | S754_nan => (3, 0, 0)
  | S754_infinity s => (if s then -2 else 2, 0, 0)
  | S754_zero _ => (0, 0, 0)
  | S754_finite s m e =>
      if s then (-1, -e, Z.neg m) else (1, e, Z.pos m)
  end%Z.

Definition rank_lt (a b : Z * Z * Z) : Prop :=
  let '(a1, a2, a3) := a in let '(b1, b2, b3) := b in
  (a1 < b1 ∨ a1 = b1 ∧ (a2 < b2 ∨ a2 = b2 ∧ a3 < b3))%Z.

Lemma flt_rank x y : flt x y = true ↔ is_nan x = false ∧ is_nan y = false ∧ rank_lt (rank x) (rank y).
Proof.
  rewrite flt_cmp. unfold partial_cmp, SFcompare, rank_lt.
  destruct x as [?|[]| |[] m1 e1], y as [?|[]| |[] m2 e2]; simpl;
    try change (Pos.compare_cont Eq m1 m2) with (Pos.compare m1 m2);
    try (split; [intros [= ?] || intros ?; lia || done | intros (? & ? & ?); lia || done]);
    destruct (Z.compare_spec e1 e2), (Pos.compare_spec m1 m2); simpl;
    (split; [intros [= ]; try done; repeat split; lia | intros (_ & _ & ?); try done; lia]).
Qed.

Lemma flt_trans x y z : flt x y = true → flt y z = true → flt x z = true.
Proof.
  rewrite !flt_rank. unfold rank_lt. destruct (rank x) as [[??]?], (rank y) as [[??]?], (rank z) as [[??]?].
  intros (? & ? & ?) (? & ? & ?). repeat split; [done..|]. lia.
Qed.

Lemma flt_irrefl x : flt x x = false.
Proof.
  apply not_true_iff_false. rewrite flt_rank. unfold rank_lt. destruct (rank x) as [[??]?]. lia.
Qed.

Lemma partial_cmp_gt x y : partial_cmp x y = Some Gt ↔ flt y x = true.
Proof.
  rewrite flt_cmp, (partial_cmp_antisym x y). destruct (partial_cmp x y) as [[]|]; naive_solver.
Qed.
