(* ===== verification/MatrixTypes.v ===== *)
(** * MatrixTypes: the error type of [mxdx-matrix] ([error.rs]) and
    [short_hash] ([client.rs]) *)
From S2P Require Import Prelude.
From stdpp Require Import options.

(** ** Errors of the Matrix client; those of the SDK are parameters. *)
Inductive MatrixClientError (Sdk_ Http_ Any : Type) : Type :=
| Sdk (e : Sdk_)
| Http (e : Http_)
| Registration (e : string)
| RoomNotFound (id : string)
| KeyExchangeTimeout (msg : string)
| RoomCreationTimeout (msg : string)
| StateRoomRejected (msg : string)
| Other (e : Any).
Arguments Sdk {_ _ _} e.
Arguments Http {_ _ _} e.
Arguments Registration {_ _ _} e.
Arguments RoomNotFound {_ _ _} id.
Arguments KeyExchangeTimeout {_ _ _} msg.
Arguments RoomCreationTimeout {_ _ _} msg.
Arguments StateRoomRejected {_ _ _} msg.
Arguments Other {_ _ _} e.

Definition MatrixClientError_fmt {Sdk_ Http_ Any} (sdk : Sdk_ → string) (http : Http_ → string)
    (any : Any → string) (e : MatrixClientError Sdk_ Http_ Any) : string :=
  match e with
  | Sdk e => cat ["Matrix SDK error: "; sdk e]
  | Http e => cat ["Matrix HTTP error: "; http e]
  | Registration e => cat ["Registration error: "; e]
  | RoomNotFound id => cat ["Room not found: "; id]
  | KeyExchangeTimeout msg => cat ["Key exchange timeout: "; msg]
  | RoomCreationTimeout msg =>
      cat ["Room creation timeout (server may be rate-limiting): "; msg]
  | StateRoomRejected msg => cat ["State room rejected: "; msg]
  | Other e => any e
  end.

(** ** [short_hash]: FNV-1a in 64 bits, printed as 16 hexadecimal digits *)
Definition fnv_step (hash : Z) (b : byte) : Z :=
  wrap 64 (Z.lxor hash (Z.of_N (Byte.to_N b)) * 1099511628211).
Definition hex_digit (d : Z) : string :=
  default "" (["0";"1";"2";"3";"4";"5";"6";"7";"8";"9";"a";"b";"c";"d";"e";"f"] !! Z.to_nat d).
Fixpoint hex_padded (n : nat) (z : Z) : string :=
  match n with
  | 0 => ""
  | S n => hex_padded n (z / 16) +:+ hex_digit (z mod 16)
  end.
Definition short_hash (input : string) : string :=
  hex_padded 16 (foldl fnv_step 14695981039346656037%Z (as_bytes input)).
