(* ===== verification/MultiHs.v ===== *)
(** * MultiHs: several homeservers behind one client ([mxdx-matrix/multi_hs.rs])

    The circuit breaker and fail-over between homeservers, the deduplication
    of what they deliver, and the synchronisation of trust. What the client of
    one homeserver answers is an argument of each operation; the clock is one
    too. A panic is [None]. *)
From S2P Require Import Prelude Text Float64 MatrixTypes.
From stdpp Require Import options.

(** ** Data *)
Definition FAIL_WINDOW : Duration := from_secs (5 * 60).
Definition FAIL_THRESHOLD : nat := 5.
Definition MAX_SEEN_EVENTS : nat := Z.to_nat 10000.
Definition EVICT_BATCH : nat := Z.to_nat 2000.
#[global] Arguments FAIL_THRESHOLD : simpl never.
#[global] Arguments MAX_SEEN_EVENTS : simpl never.
#[global] Arguments EVICT_BATCH : simpl never.

Record ServerAccount := mkAccount {
  homeserver : string; username : string; account_password : string;
  danger_accept_invalid_certs : bool }.

Record ServerEntry (Client : Type) := mkEntry {
  client : Client; server : string; password : string; latency_ms : f64 }.
Arguments mkEntry {_} client server password latency_ms.
Arguments client {_} s.
Arguments server {_} s.
Arguments password {_} s.
Arguments latency_ms {_} s.

Inductive ServerStatus : Type := Healthy | Down.
#[export] Instance ServerStatus_eq_dec : EqDecision ServerStatus.
Proof. solve_decision. Defined.

Record CircuitBreaker := mkBreaker { failures : list Instant; status : ServerStatus }.
Definition breaker_new : CircuitBreaker := mkBreaker [] Healthy.

Record ServerHealth := mkHealth {
  sh_server : string; sh_status : ServerStatus; sh_latency_ms : f64 }.

(** [on_preferred_change] is whether a callback is registered; [notified] are
    the calls it got, as [(new, old)]. *)
Record MultiHsClient (Client : Type) := mkMulti {
  entries : list (ServerEntry Client);
  preferred_index : nat;
  preferred_override : option string;
  breakers : gmap string CircuitBreaker;
  seen_events : gmap string Instant;
  seen_order : list string;
  on_preferred_change : bool;
  notified : list (string * string) }.
Arguments mkMulti {_} entries preferred_index preferred_override breakers seen_events seen_order
  on_preferred_change notified.
Arguments entries {_} m.
Arguments preferred_index {_} m.
Arguments preferred_override {_} m.
Arguments breakers {_} m.
Arguments seen_events {_} m.
Arguments seen_order {_} m.
Arguments on_preferred_change {_} m.
Arguments notified {_} m.

Section multi_hs.
Context {Client : Type}.
Implicit Types (c : MultiHsClient Client) (e : ServerEntry Client).

Definition set_breakers (b : gmap string CircuitBreaker) c : MultiHsClient Client :=
  mkMulti (entries c) (preferred_index c) (preferred_override c) b (seen_events c) (seen_order c)
    (on_preferred_change c) (notified c).
Definition set_seen (m : gmap string Instant) (l : list string) c : MultiHsClient Client :=
  mkMulti (entries c) (preferred_index c) (preferred_override c) (breakers c) m l
    (on_preferred_change c) (notified c).
Definition set_preferred (i : nat) (calls : list (string * string)) c : MultiHsClient Client :=
  mkMulti (entries c) i (preferred_override c) (breakers c) (seen_events c) (seen_order c)
    (on_preferred_change c) (notified c ++ calls).
Definition register_callback c : MultiHsClient Client :=
  mkMulti (entries c) (preferred_index c) (preferred_override c) (breakers c) (seen_events c)
    (seen_order c) true (notified c).

(** ** Construction *)
(** [min_by] with [partial_cmp(..).unwrap()]: the first least element. *)
Fixpoint min_by_latency (best : nat * f64) (i : nat) (es : list (ServerEntry Client))
    : option nat :=
  match es with
  | [] => Some best.1
  | e :: es =>
      match partial_cmp best.2 (latency_ms e) with
      | None => None
      | Some Gt => min_by_latency (i, latency_ms e) (S i) es
      | Some _ => min_by_latency best (S i) es
      end
  end.

Fixpoint position (name : string) (es : list (ServerEntry Client)) : option nat :=
  match es with
  | [] => None
  | e :: es => if str_eqb (server e) name then Some 0 else S <$> position name es
  end.

Definition select_preferred (es : list (ServerEntry Client)) (preferred_server : option string)
    : option nat :=
  match preferred_server with
  | Some override_server => Some (default 0 (position override_server es))
  | None =>
      match es with
      | [] => Some 0
      | e :: es => min_by_latency (0, latency_ms e) 1 es
      end
  end.

Definition init_breakers (es : list (ServerEntry Client)) : gmap string CircuitBreaker :=
  foldl (λ m e, <[server e := breaker_new]> m) ∅ es.

Definition multi_of (es : list (ServerEntry Client)) (preferred_server : option string)
    : option (MultiHsClient Client) :=
  i ← select_preferred es preferred_server;
  Some (mkMulti es i preferred_server (init_breakers es) ∅ [] false []).

Definition from_clients (clients : list (string * Client * f64)) (preferred_server : option string)
    : option (MultiHsClient Client) :=
  multi_of ((λ '(s, cl, l), mkEntry cl s "" l) <$> clients) preferred_server.

(** *** Connecting *)
Section connect.
Context {Sdk_ Http_ Any : Type} (anyhow : string → Any).
Local Notation Error := (MatrixClientError Sdk_ Http_ Any).
(** The three ways of logging in; [connect_with_session] also says whether it
    logged in afresh. [elapsed i] is the latency measured for account [i]. *)
Context (login_persistent : ServerAccount → string → result Client Error)
  (login : ServerAccount → result Client Error)
  (connect_with_session : ServerAccount → string → bool → result (Client * bool) Error)
  (first_sync : Client → result () Error) (elapsed : nat → f64).

Definition store_path (base : string) (a : ServerAccount) : string :=
  path_join base (short_hash (cat [username a; "@"; homeserver a])).

Definition connected_entry (i : nat) (a : ServerAccount) (cl : Client) : ServerEntry Client :=
  mkEntry cl (homeserver a) (account_password a)
    (match first_sync cl with Ok _ => elapsed i | Err _ => f64_MAX end).

Fixpoint connect_entries (store_base_path : option string) (i : nat) (accounts : list ServerAccount)
    : result (list (ServerEntry Client)) Error :=
  match accounts with
  | [] => Ok []
  | a :: accounts =>
      let? cl := match store_base_path with
                 | Some base => login_persistent a (store_path base a)
                 | None => login a
                 end in
      let? es := connect_entries store_base_path (S i) accounts in
      Ok (connected_entry i a cl :: es)
  end.

Definition connect (accounts : list ServerAccount) (preferred_server store_base_path : option string)
    : option (result (MultiHsClient Client) Error) :=
  if bool_decide (accounts = []) then
    Some (Err (Other (anyhow "MultiHsClient::connect requires at least one server account")))
  else
    match connect_entries store_base_path 0 accounts with
    | Err e => Some (Err e)
    | Ok es => Ok <$> multi_of es preferred_server
    end.

Fixpoint connect_keychain_entries (store_base_path : option string) (keychain force_new_device : bool)
    (i : nat) (accounts : list ServerAccount)
    : result (list (ServerEntry Client) * list bool) Error :=
  match accounts with
  | [] => Ok ([], [])
  | a :: accounts =>
      let? x := match store_base_path, keychain with
                | Some base, true => connect_with_session a (store_path base a) force_new_device
                | Some base, false =>
                    let? cl := login_persistent a (store_path base a) in Ok (cl, true)
                | _, _ => let? cl := login a in Ok (cl, true)
                end in
      let? r := connect_keychain_entries store_base_path keychain force_new_device (S i) accounts in
      Ok (connected_entry i a x.1 :: r.1, x.2 :: r.2)
  end.

Definition connect_with_keychain (accounts : list ServerAccount)
    (preferred_server store_base_path : option string) (keychain force_new_device : bool)
    : option (result (MultiHsClient Client * list bool) Error) :=
  if bool_decide (accounts = []) then
    Some (Err (Other (anyhow
      "MultiHsClient::connect_with_keychain requires at least one server account")))
  else
    match connect_keychain_entries store_base_path keychain force_new_device 0 accounts with
    | Err e => Some (Err e)
    | Ok (es, fresh_logins) =>
        (λ c, Ok (c, fresh_logins)) <$> multi_of es preferred_server
    end.
End connect.

(** ** Accessors; indexing panics out of range *)
Definition preferred c : option Client := client <$> entries c !! preferred_index c.
Definition preferred_server c : option string := server <$> entries c !! preferred_index c.
Definition server_count c : nat := length (entries c).
Definition is_single_server c : bool := length (entries c) <=? 1.

Definition status_of (name : string) c : ServerStatus :=
  match breakers c !! name with Some b => status b | None => Healthy end.
Definition is_down (name : string) c : bool := bool_decide (status_of name c = Down).

Definition server_health c : list ServerHealth :=
  (λ e, mkHealth (server e) (status_of (server e) c) (latency_ms e)) <$> entries c.

(** ** Circuit breaker *)
Fixpoint best_healthy c (best : option nat * f64) (i : nat) (es : list (ServerEntry Client))
    : option nat * f64 :=
  match es with
  | [] => best
  | e :: es =>
      if bool_decide (i = preferred_index c) then best_healthy c best (S i) es
      else if is_down (server e) c then best_healthy c best (S i) es
      else if flt (latency_ms e) best.2 then best_healthy c (Some i, latency_ms e) (S i) es
      else best_healthy c best (S i) es
  end.

Definition trigger_failover c : option (MultiHsClient Client) :=
  match (best_healthy c (None, f64_MAX) 0 (entries c)).1 with
  | None => Some c
  | Some new_idx =>
      old_server ← preferred_server c;
      new_server ← server <$> entries c !! new_idx;
      Some (set_preferred new_idx
              (if on_preferred_change c then [(new_server, old_server)] else []) c)
  end.

Definition failing c e : bool :=
  match breakers c !! server e with
  | Some b => bool_decide (status b = Down) || (FAIL_THRESHOLD <=? length (failures b))
  | None => false
  end.

Definition record_failure (now : Instant) (server_index : nat) c : option (MultiHsClient Client) :=
  if is_single_server c then Some c else
  e ← entries c !! server_index;
  match breakers c !! server e with
  | None => Some c
  | Some b =>
      let recent_failures := filter (λ t, (saturating_sub now t < FAIL_WINDOW)%Z) (failures b) ++ [now] in
      let c := set_breakers (<[server e := mkBreaker recent_failures (status b)]> (breakers c)) c in
      if FAIL_THRESHOLD <=? length recent_failures then
        if forallb (failing c) (entries c) then
          Some (set_breakers ((λ _, mkBreaker [] Healthy) <$> breakers c) c)
        else
          let c := set_breakers (<[server e := mkBreaker recent_failures Down]> (breakers c)) c in
          if bool_decide (server_index = preferred_index c) then trigger_failover c else Some c
      else Some c
  end.

Definition record_success (server_index : nat) c : option (MultiHsClient Client) :=
  if is_single_server c then Some c else
  e ← entries c !! server_index;
  match breakers c !! server e with
  | None => Some c
  | Some b => Some (set_breakers (<[server e := mkBreaker [] Healthy]> (breakers c)) c)
  end.

(** ** Deduplication *)
Definition is_duplicate (now : Instant) (event_id : string) c : option (bool * MultiHsClient Client) :=
  if is_single_server c then Some (false, c) else
  if bool_decide (is_Some (seen_events c !! event_id)) then Some (true, c) else
  let m := <[event_id := now]> (seen_events c) in
  let l := seen_order c ++ [event_id] in
  if MAX_SEEN_EVENTS <? size m then
    if length l <? EVICT_BATCH then None else
    Some (false, set_seen (foldl (λ m key, delete key m) m (take EVICT_BATCH l)) (drop EVICT_BATCH l) c)
  else Some (false, set_seen m l c).

(** ** Sending, through the preferred server *)
Section api.
Context {Error : Type}.

(** A call of the preferred client, whose outcome the breaker records. *)
Definition via_preferred {T} (call : Client → result T Error) (now : Instant) c
    : option (result T Error * MultiHsClient Client) :=
  let idx := preferred_index c in
  e ← entries c !! idx;
  match call (client e) with
  | Ok x => c ← record_success idx c; Some (Ok x, c)
  | Err err => c ← record_failure now idx c; Some (Err err, c)
  end.

Context {RoomId Value Topology : Type}.

Definition send_event (call : Client → RoomId → Value → result string Error)
    (now : Instant) (room_id : RoomId) (payload : Value) c :=
  via_preferred (λ cl, call cl room_id payload) now c.
Definition send_threaded_event
    (call : Client → RoomId → string → string → Value → result string Error)
    (now : Instant) (room_id : RoomId) (event_type thread_root : string) (content : Value) c :=
  via_preferred (λ cl, call cl room_id event_type thread_root content) now c.
Definition send_state_event
    (call : Client → RoomId → string → string → Value → result () Error)
    (now : Instant) (room_id : RoomId) (event_type state_key : string) (content : Value) c :=
  via_preferred (λ cl, call cl room_id event_type state_key content) now c.
Definition get_or_create_launcher_space (call : Client → string → result Topology Error)
    (now : Instant) (name : string) c :=
  via_preferred (λ cl, call cl name) now c.
Definition sync_once (call : Client → result () Error) (now : Instant) c :=
  via_preferred call now c.
Definition sync_full_state (call : Client → result () Error) (now : Instant) c :=
  via_preferred call now c.
Definition join_room (call : Client → RoomId → result () Error) (now : Instant)
    (room_id : RoomId) c :=
  via_preferred (λ cl, call cl room_id) now c.
Definition wait_for_key_exchange (call : Client → RoomId → Duration → result () Error)
    (now : Instant) (room_id : RoomId) (timeout : Duration) c :=
  via_preferred (λ cl, call cl room_id timeout) now c.

(** ** Receiving, from every server that is not down

    The clock has a reading per server and event. *)
Fixpoint find_space_from (call : Client → result (option Topology) Error) (now : clock) (i n : nat) c
    : option (option Topology * MultiHsClient Client) :=
  match n with
  | 0 => Some (None, c)
  | S n =>
      e ← entries c !! i;
      if is_down (server e) c then find_space_from call now (S i) n c else
      match call (client e) with
      | Ok (Some topology) => c ← record_success i c; Some (Some topology, c)
      | Ok None => c ← record_success i c; find_space_from call now (S i) n c
      | Err _ => c ← record_failure (now i) i c; find_space_from call now (S i) n c
      end
  end.

Definition find_launcher_space (call : Client → result (option Topology) Error) (now : clock) c
    : option (result (option Topology) Error * MultiHsClient Client) :=
  if is_single_server c then
    e ← entries c !! 0; Some (call (client e), c)
  else
    '(found, c) ← find_space_from call now 0 (length (entries c)) c; Some (Ok found, c).

Context {Event : Type} (event_id : Event → option string).

Fixpoint keep_new (now : clock) (k : nat) (events : list Event) c
    : option (list Event * MultiHsClient Client) :=
  match events with
  | [] => Some ([], c)
  | event :: events =>
      match event_id event with
      | Some id =>
          '(duplicate, c) ← is_duplicate (now k) id c;
          '(kept, c) ← keep_new now (S k) events c;
          Some (if duplicate : bool then kept else event :: kept, c)
      | None =>
          '(kept, c) ← keep_new now (S k) events c; Some (event :: kept, c)
      end
  end.

Fixpoint collect_from (call : Client → result (list Event) Error) (now : nat → clock) (i n : nat) c
    : option (list Event * MultiHsClient Client) :=
  match n with
  | 0 => Some ([], c)
  | S n =>
      e ← entries c !! i;
      if is_down (server e) c then collect_from call now (S i) n c else
      match call (client e) with
      | Ok events =>
          c ← record_success i c;
          '(kept, c) ← keep_new (now i) 0 events c;
          '(rest, c) ← collect_from call now (S i) n c;
          Some (kept ++ rest, c)
      | Err _ => c ← record_failure (now i 0) i c; collect_from call now (S i) n c
      end
  end.

Definition sync_and_collect_events (call : Client → result (list Event) Error)
    (now : nat → clock) c : option (result (list Event) Error * MultiHsClient Client) :=
  if is_single_server c then
    e ← entries c !! 0; Some (call (client e), c)
  else
    '(all_events, c) ← collect_from call now 0 (length (entries c)) c; Some (Ok all_events, c).
End api.

(** ** Trust across servers *)
Section trust.
Context {UserId Error : Type} (parse_user_id : string → option UserId)
  (localpart server_name : UserId → string) (user_id : Client → UserId)
  (bootstrap : Client → option string → result () Error) (verify_own_identity : Client → result () Error)
  (get_verified : Client → result (list UserId) Error) (is_user_verified : Client → UserId → result bool Error)
  (** the order in which the set of localparts is iterated *)
  (set_order : gset string → list string).

Definition all_user_ids c : list UserId := user_id ∘ client <$> entries c.

Definition bootstrap_entry e : option (string * Error) :=
  let password := if bool_decide (password e = "") then None else Some (password e) in
  match bootstrap (client e) password with
  | Err err => Some (server e, err)
  | Ok _ =>
      match verify_own_identity (client e) with
      | Err err => Some (server e, err)
      | Ok _ => None
      end
  end.

Definition bootstrap_all_cross_signing c : result () (list (string * Error)) :=
  if bool_decide (length (entries c) = 0) then Ok () else
  let errors := omap bootstrap_entry (entries c) in
  if bool_decide (length errors = length (entries c)) then Err errors else Ok ().

Definition verified_localparts c : gset string :=
  foldl (λ s e, match get_verified (client e) with
                | Ok users => foldl (λ s uid, {[localpart uid]} ∪ s) s users
                | Err _ => s
                end) ∅ (entries c).

(** [verify_user] calls: the client that is told, and the user it verifies. *)
Definition cross_verify (part : string) e : option (Client * UserId) :=
  match parse_user_id (cat ["@"; part; ":"; server_name (user_id (client e))]) with
  | None => None
  | Some target_uid =>
      match is_user_verified (client e) target_uid with
      | Ok false => Some (client e, target_uid)
      | Ok true | Err _ => None
      end
  end.

Definition sync_trust c : list (Client * UserId) :=
  if is_single_server c then [] else
  part ← set_order (verified_localparts c);
  omap (cross_verify part) (entries c).

Definition bootstrap_and_sync_trust c : result () (list (string * Error)) * list (Client * UserId) :=
  (bootstrap_all_cross_signing c, sync_trust c).
End trust.
End multi_hs.

(** ** The invariant *)
Section theory.
Context {Client : Type}.
Implicit Types (c : MultiHsClient Client) (e ej : ServerEntry Client)
  (es : list (ServerEntry Client)).

Record multi_inv c : Prop := {
  inv_preferred : preferred_index c < length (entries c);
  inv_breakers e : e ∈ entries c → is_Some (breakers c !! server e);
  inv_healthy name b : breakers c !! name = Some b → status b = Healthy →
    length (failures b) < FAIL_THRESHOLD;
  inv_order : NoDup (seen_order c);
  inv_seen : dom (seen_events c) = list_to_set (seen_order c);
  inv_bound : length (seen_order c) ≤ MAX_SEEN_EVENTS }.

(** Which entries the operations talk to. *)
Definition usable (i : nat) c : Prop :=
  i = preferred_index c ∨ ∃ e, entries c !! i = Some e ∧ is_down (server e) c = false.

(** What an operation does to the state, one record at a time. *)
Inductive hs_step c : MultiHsClient Client → Prop :=
| step_success i c' : usable i c → record_success i c = Some c' → hs_step c c'
| step_failure now i c' : usable i c → record_failure now i c = Some c' → hs_step c c'
| step_seen now id d c' : is_duplicate now id c = Some (d, c') → hs_step c c'.

Lemma status_insert name b c other :
  status_of other (set_breakers (<[name := b]> (breakers c)) c) =
    if decide (other = name) then status b else status_of other c.
Proof.
  unfold status_of. simpl. destruct (decide (other = name)) as [->|].
  - by rewrite lookup_insert_eq.
  - by rewrite lookup_insert_ne.
Qed.

Lemma status_reset other c :
  status_of other (set_breakers ((λ _, mkBreaker [] Healthy) <$> breakers c) c) = Healthy.
Proof. unfold status_of. simpl. rewrite lookup_fmap. by destruct (breakers c !! other). Qed.

Lemma is_down_true name c : is_down name c = true ↔ status_of name c = Down.
Proof. apply bool_decide_eq_true. Qed.

(** Replacing a breaker by one that respects the threshold. *)
Lemma inv_set_breaker name b c :
  multi_inv c → (status b = Healthy → length (failures b) < FAIL_THRESHOLD) →
  multi_inv (set_breakers (<[name := b]> (breakers c)) c).
Proof.
  intros [] Hb. split; simpl; auto.
  - intros e He. destruct (decide (name = server e)) as [->|].
    + rewrite lookup_insert_eq. eauto.
    + rewrite lookup_insert_ne by done. auto.
  - intros other b' H. destruct (decide (name = other)) as [->|].
    + rewrite lookup_insert_eq in H. by simplify_eq.
    + rewrite lookup_insert_ne in H by done. eauto.
Qed.

Lemma inv_reset c : multi_inv c → multi_inv (set_breakers ((λ _, mkBreaker [] Healthy) <$> breakers c) c).
Proof.
  intros []. split; simpl; auto.
  - intros e He. rewrite lookup_fmap. destruct (inv_breakers0 e He) as [? ->]. eauto.
  - intros name b H. rewrite lookup_fmap in H. destruct (breakers c !! name); simplify_eq/=.
    unfold FAIL_THRESHOLD. lia.
Qed.

(** *** Fail-over *)
(** An entry that a fail-over can choose. *)
Definition candidate c (i : nat) e : Prop :=
  entries c !! i = Some e ∧ i ≠ preferred_index c ∧ is_down (server e) c = false ∧
  flt (latency_ms e) f64_MAX = true.

Lemma best_healthy_spec c es : ∀ i best r,
  drop i (entries c) = es →
  (∀ j e, j < i → candidate c j e → flt (latency_ms e) best.2 = false) →
  match best.1 with
  | Some k => ∃ e, candidate c k e ∧ best.2 = latency_ms e
  | None => best.2 = f64_MAX
  end →
  best_healthy c best i es = r →
  match r.1 with
  | Some k => ∃ e, candidate c k e ∧ ∀ j e', candidate c j e' → flt (latency_ms e') (latency_ms e) = false
  | None => ∀ j e, ¬ candidate c j e
  end.
Proof.
  induction es as [|e es IH]; intros i best r Hes Hleast Hbest <-; simpl.
  - assert (length (entries c) ≤ i) as Hlen.
    { rewrite <-Nat.sub_0_le, <-length_drop. by rewrite Hes. }
    assert (∀ j e, candidate c j e → flt (latency_ms e) best.2 = false) as Hall.
    { intros j e Hc. apply (Hleast j); [|done]. destruct Hc as (Hj%lookup_lt_Some & _). lia. }
    destruct best as [[k|] l]; simpl in *.
    + destruct Hbest as (e & ? & ->). eauto.
    + subst l. intros j e Hc. pose proof (Hall _ _ Hc) as Hf.
      destruct Hc as (_ & _ & _ & Ht). congruence.
  - assert (entries c !! i = Some e) as He.
    { by rewrite <-(Nat.add_0_r i), <-lookup_drop, Hes. }
    assert (drop (S i) (entries c) = es) as Hdrop.
    { by rewrite <-Nat.add_1_r, <-drop_drop, Hes. }
    assert (∀ best', flt best'.2 best.2 = true ∨ best' = best →
      (¬ candidate c i e ∨ flt (latency_ms e) best'.2 = false) →
      ∀ j e', j < S i → candidate c j e' → flt (latency_ms e') best'.2 = false) as Hstep.
    { intros best' Hb' Hi j e' Hj Hc. destruct (decide (j = i)) as [->|].
      - assert (e' = e) as -> by (destruct Hc as (He' & _); congruence). by destruct Hi.
      - destruct Hb' as [Hlt | ->]; [|apply (Hleast j); [lia|done]].
        apply not_true_iff_false. intros Ht. pose proof (flt_trans _ _ _ Ht Hlt).
        rewrite (Hleast j e') in H by (lia || done). done. }
    case_bool_decide as Hp; [|destruct (is_down (server e) c) eqn:Hd; [|destruct (flt _ _) eqn:Hf]].
    + eapply (IH (S i) best); [done| |done..]. apply Hstep; [by right|]. left. by intros (_ & ? & _).
    + eapply (IH (S i) best); [done| |done..]. apply Hstep; [by right|]. left. intros (_ & _ & ? & _). congruence.
    + eapply (IH (S i) (Some i, latency_ms e)); [done|apply Hstep; [by left|right; simpl; apply flt_irrefl]| |done].
      exists e. split; [|done]. unfold candidate. split_and!; [done..|].
      destruct best as [[k|] l]; simpl in *; [|by subst].
      destruct Hbest as (e' & (_ & _ & _ & ?) & ->). by eapply flt_trans.
    + eapply (IH (S i) best); [done| |done..]. apply Hstep; [by right|by right].
Qed.

Lemma trigger_failover_spec c :
  preferred_index c < length (entries c) →
  ∃ c', trigger_failover c = Some c' ∧
    ((∃ i e calls, c' = set_preferred i calls c ∧ candidate c i e ∧
        (∀ j e', candidate c j e' → flt (latency_ms e') (latency_ms e) = false)) ∨
     (c' = c ∧ ∀ j e, ¬ candidate c j e)).
Proof.
  intros [old Hold]%lookup_lt_is_Some_2. unfold trigger_failover.
  pose proof (best_healthy_spec c (entries c) 0 (None, f64_MAX) _ eq_refl ltac:(lia) eq_refl eq_refl) as H.
  destruct (best_healthy _ _ _ _).1 as [i|].
  - destruct H as (e & Hc & Hl). destruct Hc as (He & ?). unfold preferred_server.
    rewrite Hold, He. simpl. eexists. split; [done|]. left. do 3 eexists. split; [done|].
    split; [by split|done].
  - eauto.
Qed.

(** What the breaker leaves alone. *)
Definition frame c c' : Prop :=
  entries c' = entries c ∧ seen_events c' = seen_events c ∧ seen_order c' = seen_order c.

Definition recent_failures (now : Instant) (b : CircuitBreaker) : list Instant :=
  filter (λ t, (saturating_sub now t < FAIL_WINDOW)%Z) (failures b) ++ [now].
Definition with_failures (name : string) (l : list Instant) (st : ServerStatus) c :=
  set_breakers (<[name := mkBreaker l st]> (breakers c)) c.
Definition reset_breakers c := set_breakers ((λ _, mkBreaker [] Healthy) <$> breakers c) c.

Lemma record_failure_unfold now i c e b :
  is_single_server c = false → entries c !! i = Some e → breakers c !! server e = Some b →
  let c1 := with_failures (server e) (recent_failures now b) (status b) c in
  let c2 := with_failures (server e) (recent_failures now b) Down c in
  record_failure now i c =
    if FAIL_THRESHOLD <=? length (recent_failures now b) then
      if forallb (failing c1) (entries c) then Some (reset_breakers c1)
      else if bool_decide (i = preferred_index c) then trigger_failover c2 else Some c2
    else Some c1.
Proof.
  intros Hs He Hb c1 c2. unfold record_failure. rewrite Hs, He. cbn [mbind option_bind]. rewrite Hb.
  cbv zeta. change (filter _ (failures b) ++ [now]) with (recent_failures now b).
  change (set_breakers (<[server e := mkBreaker (recent_failures now b) (status b)]> (breakers c)) c) with c1.
  change (entries c1) with (entries c). change (preferred_index c1) with (preferred_index c).
  change (preferred_index c2) with (preferred_index c).
  destruct (FAIL_THRESHOLD <=? length (recent_failures now b)); [|done].
  destruct (forallb (failing c1) (entries c)); [done|].
  assert (set_breakers (<[server e:=mkBreaker (recent_failures now b) Down]> (breakers c1)) c1 = c2) as ->; [|done].
  unfold c2, c1, with_failures, set_breakers. simpl. by rewrite insert_insert_eq.
Qed.

Lemma inv_set_preferred i e calls c :
  multi_inv c → candidate c i e → multi_inv (set_preferred i calls c).
Proof. intros [] (He%lookup_lt_Some & _). by split. Qed.

(** A failure, when the state is well formed: to one of four states. *)
Lemma record_failure_spec now i c e :
  multi_inv c → is_single_server c = false → entries c !! i = Some e →
  ∃ b c', breakers c !! server e = Some b ∧ record_failure now i c = Some c' ∧
    multi_inv c' ∧ frame c c' ∧
    let c1 := with_failures (server e) (recent_failures now b) (status b) c in
    let c2 := with_failures (server e) (recent_failures now b) Down c in
    (length (recent_failures now b) < FAIL_THRESHOLD ∧ c' = c1
     ∨ FAIL_THRESHOLD ≤ length (recent_failures now b) ∧ forallb (failing c1) (entries c) = true ∧ c' = reset_breakers c1
     ∨ FAIL_THRESHOLD ≤ length (recent_failures now b) ∧ forallb (failing c1) (entries c) = false ∧
       (i = preferred_index c ∧
          (∃ j ej calls, c' = set_preferred j calls c2 ∧ candidate c2 j ej ∧
            ∀ k ek, candidate c2 k ek → flt (latency_ms ek) (latency_ms ej) = false)
        ∨ i = preferred_index c ∧ c' = c2 ∧ (∀ k ek, ¬ candidate c2 k ek)
        ∨ i ≠ preferred_index c ∧ c' = c2)).
Proof.
  intros Hinv Hs He. destruct (inv_breakers _ Hinv e) as [b Hb].
  { by eapply list_elem_of_lookup_2. }
  exists b. rewrite (record_failure_unfold now i c e b) by done.
  set (c1 := with_failures _ _ _ _). set (c2 := with_failures _ _ _ _).
  assert (multi_inv c2) as Hc2 by (by apply inv_set_breaker).
  destruct (Nat.leb_spec FAIL_THRESHOLD (length (recent_failures now b))) as [Hlen|Hlen].
  - destruct (forallb (failing c1) (entries c)) eqn:Hall.
    + exists (reset_breakers c1). split_and!; [done|done| |done|auto 10].
      assert (reset_breakers c1 = reset_breakers c2) as ->; [|by apply inv_reset].
      unfold reset_breakers, c1, c2, with_failures, set_breakers. simpl. f_equal. by rewrite !fmap_insert.
    + case_bool_decide as Hi.
      * destruct (trigger_failover_spec c2) as (c' & -> & H); [apply Hc2|].
        exists c'. destruct H as [(j & ej & calls & -> & Hj & Hl) | [-> Hno]].
        -- split_and!; [done|done|by eapply inv_set_preferred|done|]. right; right. eauto 15.
        -- split_and!; [done..|]. right; right. auto 10.
      * exists c2. split_and!; [done..|]. right; right. auto 10.
  - exists c1. split_and!; [done|done| |done|auto]. by apply inv_set_breaker.
Qed.

Lemma record_success_spec i c e :
  multi_inv c → is_single_server c = false → entries c !! i = Some e →
  ∃ c', record_success i c = Some c' ∧ multi_inv c' ∧ frame c c' ∧
    c' = with_failures (server e) [] Healthy c.
Proof.
  intros Hinv Hs He. destruct (inv_breakers _ Hinv e) as [b Hb].
  { by eapply list_elem_of_lookup_2. }
  eexists. unfold record_success. rewrite Hs, He. simpl. rewrite Hb.
  split_and!; [done| |done|done]. apply inv_set_breaker; [done|]. simpl. unfold FAIL_THRESHOLD. lia.
Qed.

(** *** Deduplication *)
Lemma dom_delete_all (l : list string) (m : gmap string Instant) :
  dom (foldl (λ m key, delete key m) m l) = dom m ∖ list_to_set l.
Proof.
  revert m. induction l as [|k l IH]; intros m; simpl; [set_solver|].
  rewrite IH, dom_delete_L. set_solver.
Qed.

Lemma NoDup_drop_set (l : list string) n :
  NoDup l → (list_to_set l : gset string) ∖ list_to_set (take n l) = list_to_set (drop n l).
Proof.
  intros Hn. rewrite <-(take_drop n l) in Hn at 1. apply NoDup_app in Hn as (_ & Hd & _).
  rewrite <-(take_drop n l) at 1. rewrite list_to_set_app_L. set_solver.
Qed.

(** How many ids remain after an eviction, beside the new one. *)
Definition remembered : nat := MAX_SEEN_EVENTS - EVICT_BATCH.
#[local] Arguments remembered : simpl never.

(** A new id goes to the end of the order, of which the front may be cut. *)
Lemma is_duplicate_spec now id c :
  multi_inv c → is_single_server c = false →
  ∃ d c', is_duplicate now id c = Some (d, c') ∧ multi_inv c' ∧ entries c' = entries c ∧
    preferred_index c' = preferred_index c ∧ breakers c' = breakers c ∧
    (d = true ↔ id ∈ seen_order c) ∧
    if d : bool then c' = c else
      ∃ n, seen_order c' = drop n (seen_order c ++ [id]) ∧
        (n = 0 ∨ remembered < length (seen_order c')).
Proof.
  intros Hinv Hs. unfold is_duplicate. rewrite Hs. destruct Hinv as [Hp Hb Hh Ho Hd Hl].
  assert (is_Some (seen_events c !! id) ↔ id ∈ seen_order c) as Hseen.
  { by rewrite <-elem_of_dom, Hd, elem_of_list_to_set. }
  case_bool_decide as Hid.
  { exists true, c. split_and!; try done. by apply Hseen in Hid. }
  rewrite Hseen in Hid.
  assert (NoDup (seen_order c ++ [id])) as Hn.
  { apply NoDup_app. split_and!; [done|set_solver|apply NoDup_singleton]. }
  set (m := <[id:=now]> (seen_events c)).
  assert (dom m = list_to_set (seen_order c ++ [id])) as Hm.
  { unfold m. rewrite dom_insert_L, Hd, list_to_set_app_L. set_solver. }
  assert (size m = length (seen_order c) + 1) as ->.
  { rewrite <-(size_dom (D := gset string)), Hm, size_list_to_set by done. by rewrite length_app. }
  rewrite length_app. simpl.
  destruct (Nat.ltb_spec MAX_SEEN_EVENTS (length (seen_order c) + 1)) as [Hmax|Hmax].
  - assert (1 ≤ EVICT_BATCH ≤ MAX_SEEN_EVENTS) as Hle by (split; apply Nat.leb_le; vm_compute; done).
    rewrite (proj2 (Nat.ltb_ge _ _)) by lia.
    eexists false, _. split; [done|].
    assert (remembered < length (drop EVICT_BATCH (seen_order c ++ [id]))) as Hlong.
    { unfold remembered. rewrite length_drop, length_app. cbn [length]. lia. }
    split_and!; [|done|done|done|done|eauto].
    split; simpl; try done.
    + rewrite <-(take_drop EVICT_BATCH (_ ++ _)) in Hn. by apply NoDup_app in Hn as (_ & _ & ?).
    + by rewrite dom_delete_all, Hm, NoDup_drop_set.
    + rewrite length_drop, length_app. cbn [length]. lia.
  - eexists false, _. split; [done|]. split_and!; [|done|done|done|done|exists 0; auto].
    split; simpl; try done. rewrite length_app. simpl. lia.
Qed.

(** What was recorded last stays recorded. *)
Lemma is_duplicate_suffix now id c c' l :
  multi_inv c → is_single_server c = false → is_duplicate now id c = Some (false, c') →
  l `suffix_of` seen_order c → length l ≤ remembered →
  l ++ [id] `suffix_of` seen_order c'.
Proof.
  intros Hinv Hs Hdup [l0 Hl] Hlen. destruct (is_duplicate_spec now id c) as (d & c2 & Hdup' & _ & _ & _ & _ & _ & H); [done..|].
  rewrite Hdup in Hdup'. simplify_eq. destruct H as (n & Hc' & Hn). rewrite Hl, <-app_assoc in Hc'.
  destruct (decide (n ≤ length l0)) as [Hle|Hgt].
  - rewrite drop_app_le in Hc' by lia. rewrite Hc'. by eexists.
  - destruct Hn as [->|Hn]; [lia|]. exfalso. rewrite Hc', drop_app_ge, length_drop, length_app in Hn by lia.
    cbn [length] in Hn. lia.
Qed.

(** *** The operations as sequences of steps *)
Lemma step_inv c c' : multi_inv c → hs_step c c' → multi_inv c' ∧ entries c' = entries c.
Proof.
  intros Hinv Hstep. destruct (is_single_server c) eqn:Hs.
  { destruct Hstep as [i c' _ H|now i c' _ H|now id d c' H]; revert H;
      unfold record_success, record_failure, is_duplicate; rewrite Hs; intros ?; by simplify_eq. }
  destruct Hstep as [i c' _ H|now i c' _ H|now id d c' H].
  - destruct (entries c !! i) as [e|] eqn:He; [|by unfold record_success in H; rewrite Hs, He in H].
    destruct (record_success_spec i c e) as (c2 & H2 & ? & (? & _) & _); [done..|].
    rewrite H in H2. by simplify_eq.
  - destruct (entries c !! i) as [e|] eqn:He; [|by unfold record_failure in H; rewrite Hs, He in H].
    destruct (record_failure_spec now i c e) as (b & c2 & _ & H2 & ? & (? & _) & _); [done..|].
    rewrite H in H2. by simplify_eq.
  - destruct (is_duplicate_spec now id c) as (d2 & c2 & H2 & ? & ? & _); [done..|].
    rewrite H in H2. by simplify_eq.
Qed.

Lemma steps_inv c c' : rtc hs_step c c' → multi_inv c → multi_inv c' ∧ entries c' = entries c.
Proof.
  induction 1 as [|c1 c2 c3 H _ IH]; [done|]. intros Hinv.
  destruct (step_inv c1 c2) as [? <-]; [done..|]. auto.
Qed.

Lemma via_preferred_step {Error T} (call : Client → result T Error) now c r c' :
  via_preferred call now c = Some (r, c') → hs_step c c'.
Proof.
  unfold via_preferred. intros (e & _ & H)%bind_Some.
  destruct (call (client e)); apply bind_Some in H as (c2 & H & [= <- <-]).
  - eapply step_success; [by left|done].
  - eapply step_failure; [by left|done].
Qed.

Lemma usable_entry i c e : entries c !! i = Some e → is_down (server e) c = false → usable i c.
Proof. right. eauto. Qed.
Local Hint Resolve usable_entry step_success step_failure step_seen rtc_l rtc_refl : core.

Lemma find_from_steps {Error Topology} (call : Client → result (option Topology) Error) now n :
  ∀ i c r c', find_space_from call now i n c = Some (r, c') → rtc hs_step c c'.
Proof.
  induction n as [|n IH]; intros i c r c' H; simplify_eq/=; [done|].
  apply bind_Some in H as (e & He & H). destruct (is_down (server e) c) eqn:Hd; [eauto|].
  destruct (call (client e)) as [[t|]|]; apply bind_Some in H as (c2 & H1 & H2); simplify_eq; eauto 6.
Qed.

Lemma keep_new_steps {Event} (event_id : Event → option string) now events :
  ∀ k c r c', keep_new event_id now k events c = Some (r, c') → rtc hs_step c c'.
Proof.
  induction events as [|ev events IH]; intros k c r c' H; simplify_eq/=; [done|].
  destruct (event_id ev) as [id|].
  - apply bind_Some in H as ([d c1] & H1 & H). apply bind_Some in H as ([kept c2] & H2 & [= <- <-]). eauto.
  - apply bind_Some in H as ([kept c2] & H2 & [= <- <-]). eauto.
Qed.

Lemma keep_new_breakers {Event} (event_id : Event → option string) now events :
  ∀ k c r c', keep_new event_id now k events c = Some (r, c') → breakers c' = breakers c.
Proof.
  induction events as [|ev events IH]; intros k c r c' H; simplify_eq/=; [done|].
  destruct (event_id ev) as [id|].
  - apply bind_Some in H as ([d c1] & H1 & H). apply bind_Some in H as ([kept c2] & H2 & [= <- <-]).
    rewrite (IH _ _ _ _ H2). revert H1. unfold is_duplicate.
    repeat case_match; intros ?; by simplify_eq.
  - apply bind_Some in H as ([kept c2] & H2 & [= <- <-]). eauto.
Qed.

Lemma collect_from_steps {Error Event} (event_id : Event → option string)
    (call : Client → result (list Event) Error) now n :
  ∀ i c r c', collect_from event_id call now i n c = Some (r, c') → rtc hs_step c c'.
Proof.
  induction n as [|n IH]; intros i c r c' H; simplify_eq/=; [done|].
  apply bind_Some in H as (e & He & H). destruct (is_down (server e) c) eqn:Hd; [eauto|].
  destruct (call (client e)) as [events|].
  - apply bind_Some in H as (c1 & H1 & H). apply bind_Some in H as ([kept c2] & H2 & H).
    apply bind_Some in H as ([rest c3] & H3 & [= <- <-]).
    eapply rtc_l; [by eauto|]. etrans; [by eapply keep_new_steps|eauto].
  - apply bind_Some in H as (c1 & H1 & H). eauto.
Qed.

(** The operations of the client, as relations on its state. *)
Inductive api_step c c' : Prop :=
| api_preferred {Error T} (call : Client → result T Error) now r :
    via_preferred call now c = Some (r, c') → api_step c c'
| api_find {Error Topology} (call : Client → result (option Topology) Error) now r :
    find_launcher_space call now c = Some (r, c') → api_step c c'
| api_collect {Error Event} (event_id : Event → option string)
    (call : Client → result (list Event) Error) now r :
    sync_and_collect_events event_id call now c = Some (r, c') → api_step c c'
| api_duplicate now id d :
    is_duplicate now id c = Some (d, c') → api_step c c'.

Lemma api_step_steps c c' : api_step c c' → rtc hs_step c c'.
Proof.
  intros [Error T call now r H|Error Topology call now r H|Error Event event_id call now r H|now id d H].
  - apply rtc_once. by eapply via_preferred_step.
  - unfold find_launcher_space in H. destruct (is_single_server c).
    + by apply bind_Some in H as (? & _ & [= _ <-]).
    + apply bind_Some in H as ([f c2] & H & [= _ <-]). by eapply find_from_steps.
  - unfold sync_and_collect_events in H. destruct (is_single_server c).
    + by apply bind_Some in H as (? & _ & [= _ <-]).
    + apply bind_Some in H as ([f c2] & H & [= _ <-]). by eapply collect_from_steps.
  - apply rtc_once. eauto.
Qed.

Lemma api_steps c c' : rtc api_step c c' → rtc hs_step c c'.
Proof. induction 1; [done|]. etrans; [by apply api_step_steps|done]. Qed.

(** A server that is down and not preferred. *)
Definition benched (name : string) c : Prop :=
  status_of name c = Down ∧ preferred_server c ≠ Some name.

Lemma with_failures_status name l st c other :
  status_of other (with_failures name l st c) = if decide (other = name) then st else status_of other c.
Proof. apply (status_insert name (mkBreaker l st)). Qed.

Lemma usable_not_benched i c e name :
  usable i c → entries c !! i = Some e → benched name c → server e ≠ name.
Proof.
  intros Hu He [Hd Hp] <-. destruct Hu as [->|(e' & He' & Hn)].
  - apply Hp. unfold preferred_server. by rewrite He.
  - assert (e' = e) as -> by congruence. apply is_down_true in Hd. congruence.
Qed.

Lemma benched_step name c c' :
  multi_inv c → is_single_server c = false → hs_step c c' → benched name c →
  benched name c' ∨ ∀ other, status_of other c' = Healthy.
Proof.
  intros Hinv Hs Hstep Hb. pose proof Hb as [Hd Hp].
  assert (∀ other l st, other ≠ name → benched name (with_failures other l st c)) as Hframe.
  { intros other l st Hne. split; [|done]. rewrite with_failures_status, decide_False; done. }
  destruct Hstep as [i c' Hu H|now i c' Hu H|now id d c' H].
  - destruct (entries c !! i) as [e|] eqn:He; [|by unfold record_success in H; rewrite Hs, He in H].
    destruct (record_success_spec i c e) as (c2 & H2 & _ & _ & ->); [done..|].
    rewrite H in H2. simplify_eq. left. apply Hframe. by eapply usable_not_benched.
  - destruct (entries c !! i) as [e|] eqn:He; [|by unfold record_failure in H; rewrite Hs, He in H].
    assert (server e ≠ name) as Hne by (by eapply usable_not_benched).
    destruct (record_failure_spec now i c e) as (b & c2 & _ & H2 & _ & _ & Hcases); [done..|].
    rewrite H in H2. simplify_eq.
    destruct Hcases as [(_ & ->)|[(_ & _ & ->)|(_ & _ & Hcases)]]; [left; auto|right; intros ?; apply status_reset|].
    left. destruct Hcases as [(_ & j & ej & calls & -> & (Hj & _ & Hdj & _) & _)|[(_ & -> & _)|(_ & ->)]]; [|auto..].
    destruct (Hframe (server e) (recent_failures now b) Down Hne) as [Hd2 _].
    split; [done|]. unfold preferred_server. simpl in *. rewrite Hj. intros [= <-].
    apply is_down_true in Hd2. congruence.
  - destruct (is_duplicate_spec now id c) as (d2 & c2 & H2 & _ & He & Hpi & Hbr & _); [done..|].
    rewrite H in H2. simplify_eq. left. unfold benched, status_of, preferred_server.
    by rewrite He, Hpi, Hbr.
Qed.

(** A server that failed is not asked again. Whatever operations follow,
    in whatever order and with whatever answers, a server that is marked down
    and is not the preferred one stays so, and is never made the preferred
    one, until at some point every breaker is reset at once because all
    servers fail: no operation probes it, so it does not recover by itself. *)
Theorem down_until_reset name c c' :
  multi_inv c → is_single_server c = false → rtc api_step c c' →
  status_of name c = Down → preferred_server c ≠ Some name →
  (status_of name c' = Down ∧ preferred_server c' ≠ Some name) ∨
  ∃ c1, rtc hs_step c c1 ∧ rtc hs_step c1 c' ∧ ∀ other, status_of other c1 = Healthy.
Proof.
  intros Hinv Hs Hrun%api_steps Hd Hp. assert (benched name c) as Hb by done. clear Hd Hp.
  induction Hrun as [|c c1 c2 Hstep Hrun IH]; [by left|].
  destruct (step_inv c c1) as [Hinv1 He]; [done..|].
  destruct (benched_step name c c1) as [Hb1|Hall]; [done..| |].
  - destruct IH as [|(c3 & ? & ? & ?)]; [done| |done|by left|].
    + unfold is_single_server. by rewrite He.
    + right. exists c3. eauto.
  - right. exists c1. eauto.
Qed.

(** *** Fail-over, exactly *)
Lemma failing_others c c1 e now b :
  c1 = with_failures (server e) (recent_failures now b) (status b) c →
  FAIL_THRESHOLD ≤ length (recent_failures now b) →
  forallb (failing c1) (entries c) = true ↔
  ∀ e', e' ∈ entries c → server e' ≠ server e → failing c e' = true.
Proof.
  intros -> Hlen. rewrite forallb_forall. unfold failing, with_failures.
  cbn [breakers set_breakers].
  split; intros H e' He'.
  - intros Hne. specialize (H e' (proj1 (list_elem_of_In _ _) He')). by rewrite lookup_insert_ne in H.
  - destruct (decide (server e = server e')) as [->|Hne].
    + rewrite lookup_insert_eq. cbn [failures status]. rewrite (proj2 (Nat.leb_le _ _) Hlen). apply orb_true_r.
    + rewrite lookup_insert_ne by done. apply H; [by apply list_elem_of_In|congruence].
Qed.

(** A server the fail-over of [e] can choose: another one that is up and
    answered its first sync. *)
Definition eligible c e (j : nat) ej : Prop :=
  entries c !! j = Some ej ∧ server ej ≠ server e ∧ is_down (server ej) c = false ∧
  flt (latency_ms ej) f64_MAX = true.

Lemma candidate_eligible c e l j ej :
  entries c !! preferred_index c = Some e →
  candidate (with_failures (server e) l Down c) j ej ↔ eligible c e j ej.
Proof.
  intros He. unfold candidate, eligible, is_down. simpl.
  rewrite with_failures_status. split.
  - intros (Hj & _ & Hd & Hl). destruct (decide (server ej = server e)); [|done].
    by rewrite bool_decide_eq_true_2 in Hd.
  - intros (Hj & Hne & Hd & Hl). rewrite decide_False by done. split_and!; try done.
    intros ->. congruence.
Qed.

(** C20: fail-over. When a call of the preferred server fails on a well-formed
    client of several servers, the failure is counted with those of the last
    five minutes. Below five, nothing changes. At five, if every other server
    fails too, all are reset and the preferred one stays; else this server is
    marked down, and the preferred server becomes the one of least latency
    among those that are up, or stays as it is when there is none, which is
    also the case when the ones that are up failed their first sync. *)
Theorem failover_to_best {Error T} (call : Client → result T Error) now c c' err e b :
  multi_inv c → is_single_server c = false →
  entries c !! preferred_index c = Some e → breakers c !! server e = Some b →
  via_preferred call now c = Some (Err err, c') →
  let others_fail := ∀ e', e' ∈ entries c → server e' ≠ server e → failing c e' = true in
  (length (recent_failures now b) < FAIL_THRESHOLD →
     preferred_index c' = preferred_index c ∧ ∀ name, status_of name c' = status_of name c) ∧
  (FAIL_THRESHOLD ≤ length (recent_failures now b) → others_fail →
     preferred_index c' = preferred_index c ∧ ∀ name, status_of name c' = Healthy) ∧
  (FAIL_THRESHOLD ≤ length (recent_failures now b) → ¬ others_fail →
     status_of (server e) c' = Down ∧
     ((∃ ej, eligible c e (preferred_index c') ej ∧
         ∀ k ek, eligible c e k ek → flt (latency_ms ek) (latency_ms ej) = false) ∨
      (preferred_index c' = preferred_index c ∧ ∀ k ek, ¬ eligible c e k ek))).
Proof.
  intros Hinv Hs He Hb Hcall others_fail.
  assert (record_failure now (preferred_index c) c = Some c') as H.
  { unfold via_preferred in Hcall. rewrite He in Hcall. simpl in Hcall.
    destruct (call (client e)); by apply bind_Some in Hcall as (? & ? & [= ]); subst. }
  destruct (record_failure_spec now (preferred_index c) c e) as (b' & c2 & Hb' & H2 & _ & _ & Hcases); [done..|].
  rewrite H in H2. rewrite Hb in Hb'. simplify_eq.
  assert (∀ name, status_of name (with_failures (server e) (recent_failures now b') (status b') c) = status_of name c) as Hsame.
  { intros name. rewrite with_failures_status. case_decide; [|done]. subst. unfold status_of. by rewrite Hb. }
  assert (∀ l, status_of (server e) (with_failures (server e) l Down c) = Down) as Hdown.
  { intros l. by rewrite with_failures_status, decide_True. }
  destruct Hcases as [(Hlen & ->)|[(Hlen & Hall & ->)|(Hlen & Hall & Hcases)]].
  - split; [done|]. split; intros; lia.
  - rewrite failing_others in Hall by done. split_and!; [intros; lia|intros; split; [done|intros ?; apply status_reset]|done].
  - apply not_true_iff_false in Hall. rewrite failing_others in Hall by done.
    split_and!; [intros; lia|done|intros _ _].
    destruct Hcases as [(_ & j & ej & calls & -> & Hj & Hl)|[(_ & -> & Hno)|(? & _)]]; [| |done].
    + split; [apply Hdown|]. left. exists ej. rewrite candidate_eligible in Hj by done. split; [done|].
      intros k ek Hk. apply (Hl k). by apply candidate_eligible.
    + split; [apply Hdown|]. right. split; [done|]. intros k ek Hk. apply (Hno k ek).
      by apply candidate_eligible.
Qed.

(** *** Deduplication over time *)
Fixpoint see (ids : list (Instant * string)) c : option (list bool * MultiHsClient Client) :=
  match ids with
  | [] => Some ([], c)
  | (now, id) :: ids =>
      '(d, c) ← is_duplicate now id c; '(ds, c) ← see ids c; Some (d :: ds, c)
  end.

Definition count_new (ds : list bool) : nat := length (filter (λ d, d = false) ds).
Lemma count_new_cons d ds : count_new (d :: ds) = (if d : bool then 0 else 1) + count_new ds.
Proof. by destruct d. Qed.

Lemma is_duplicate_grows now id d c c' :
  multi_inv c → is_single_server c = false → is_duplicate now id c = Some (d, c') →
  multi_inv c' ∧ is_single_server c' = false ∧ (d = true ↔ id ∈ seen_order c) ∧
  (d = true → c' = c) ∧ ∀ x, x ∈ seen_order c' → x ∈ seen_order c ∨ x = id.
Proof.
  intros Hinv Hs Hdup.
  destruct (is_duplicate_spec now id c) as (d2 & c2 & H2 & Hinv2 & He & _ & _ & Hd & Hcase); [done..|].
  rewrite Hdup in H2. simplify_eq. split_and!; [done| |done| |].
  - unfold is_single_server. by rewrite He.
  - by intros ->.
  - destruct d2; [subst; auto|]. destruct Hcase as (n & -> & _). intros x Hx.
    apply (subseteq_drop n) in Hx. set_solver.
Qed.

Lemma see_suffix ids : ∀ c ds c' l,
  multi_inv c → is_single_server c = false → see ids c = Some (ds, c') →
  l `suffix_of` seen_order c → length l + count_new ds ≤ S (remembered) →
  multi_inv c' ∧ is_single_server c' = false ∧ (∃ l', l ++ l' `suffix_of` seen_order c') ∧
  ∀ x, x ∈ seen_order c' → x ∈ seen_order c ∨ x ∈ ids.*2.
Proof.
  induction ids as [|[now id] ids IH]; intros c ds c' l Hinv Hs H Hl Hlen; simplify_eq/=.
  { split_and!; [done..|exists []; by rewrite app_nil_r|auto]. }
  apply bind_Some in H as ([d c1] & Hd & H). apply bind_Some in H as ([ds' c2] & Hds & [= <- <-]).
  destruct (is_duplicate_grows now id d c c1) as (Hinv1 & Hs1 & _ & Hsame & Hsub); [done..|].
  rewrite count_new_cons in Hlen. destruct d; cbn iota in Hlen.
  - rewrite Hsame in Hds by done.
    destruct (IH c ds' c2 l) as (? & ? & ? & Hx); [done..|]. split_and!; [done..|].
    intros x [?|?]%Hx; [by left|right; by apply list_elem_of_further].
  - destruct (IH c1 ds' c2 (l ++ [id])) as (? & ? & [l' Hl'] & Hx); [done..| | |].
    + apply (is_duplicate_suffix now id c c1); [done..|]. lia.
    + rewrite length_app. cbn [length]. lia.
    + split_and!; [done..| |].
      * exists (id :: l'). by rewrite <-app_assoc in Hl'.
      * intros x [[?| ->]%Hsub|?]%Hx; [by left|right; apply list_elem_of_here|right; by apply list_elem_of_further].
Qed.

(** The window of the deduplication. An event id that was new is
    recognised as a duplicate as long as at most 8,000 other new ids were
    recorded since, whatever the arrivals; and an id that was neither recorded
    nor presented is never taken for a duplicate. *)
Theorem dedup_window now now' id other ids ds c c1 c2 :
  multi_inv c → is_single_server c = false →
  is_duplicate now id c = Some (false, c1) → see ids c1 = Some (ds, c2) →
  count_new ds ≤ 8000 →
  is_duplicate now' id c2 = Some (true, c2) ∧
  (other ∉ seen_order c → other ≠ id → other ∉ ids.*2 →
   ∃ c3, is_duplicate now' other c2 = Some (false, c3)).
Proof.
  intros Hinv Hs Hdup Hsee Hnew.
  assert (remembered = 8000) as Hwindow by (vm_compute; done).
  destruct (is_duplicate_grows now id false c c1) as (Hinv1 & Hs1 & _ & _ & Hsub); [done..|].
  destruct (see_suffix ids c1 ds c2 [id]) as (Hinv2 & Hs2 & [l' Hl'] & Hsub2); [done..| | |].
  { apply (is_duplicate_suffix now id c c1 []); [done..|by eexists (seen_order c); rewrite app_nil_r|cbn; lia]. }
  { cbn [length]. lia. }
  destruct (is_duplicate_spec now' id c2) as (d & c3 & H3 & _ & _ & _ & _ & Hd & Hcase); [done..|].
  destruct (is_duplicate_spec now' other c2) as (d' & c4 & H4 & _ & _ & _ & _ & Hd' & _); [done..|].
  split.
  - assert (d = true) as ->; [|by rewrite H3, Hcase].
    apply Hd. destruct Hl' as [l0 ->]. rewrite !elem_of_app, list_elem_of_singleton. by right; left.
  - intros H1 H2 H5. destruct d'; [|eauto]. exfalso.
    destruct (Hsub2 other) as [[?|?]%Hsub|?]; [by apply Hd'|done..].
Qed.

(** *** What is delivered *)
Section delivery.
Context {Error Event : Type} (event_id : Event → option string)
  (call : Client → result (list Event) Error).

Definition answer e : list Event := match call (client e) with Ok events => events | Err _ => [] end.
(** An event that is delivered, or whose id is known. *)
Definition accounted (kept : list Event) c (ev : Event) : Prop :=
  ev ∈ kept ∨ ∃ id, event_id ev = Some id ∧ (id ∈ seen_order c ∨ id ∈ omap event_id kept).

Lemma keep_new_spec now events : ∀ k c kept c' new,
  multi_inv c → is_single_server c = false → keep_new event_id now k events c = Some (kept, c') →
  new `suffix_of` seen_order c → length new + length events ≤ S (remembered) →
  multi_inv c' ∧ is_single_server c' = false ∧ new ++ omap event_id kept `suffix_of` seen_order c' ∧
  kept `sublist_of` events ∧ (∀ ev, ev ∈ events → accounted kept c ev) ∧
  ∀ x, x ∈ seen_order c' → x ∈ seen_order c ∨ x ∈ omap event_id kept.
Proof.
  induction events as [|ev events IH]; intros k c kept c' new Hinv Hs H Hnew Hlen; simplify_eq/=.
  { rewrite app_nil_r. split_and!; [done..|by intros ? ?%elem_of_nil|auto]. }
  destruct (event_id ev) as [id|] eqn:Hid.
  - apply bind_Some in H as ([d c1] & Hd & H). apply bind_Some in H as ([kept1 c2] & Hk & [= <- <-]).
    destruct (is_duplicate_grows (now k) id d c c1) as (Hinv1 & Hs1 & Hdt & Hsame & Hsub); [done..|].
    destruct d.
    + rewrite Hsame in Hk by done.
      destruct (IH (S k) c kept1 c2 new) as (? & ? & ? & Hsl & Hacc & ?); [done..|lia|].
      split_and!; [done..|by constructor| |done].
      intros ev' [->|?]%elem_of_cons; [right; exists id; split; [done|left; by apply Hdt]|auto].
    + destruct (IH (S k) c1 kept1 c2 (new ++ [id])) as (? & ? & Hsuf & Hsl & Hacc & Hx); [done..| | |].
      * apply (is_duplicate_suffix (now k) id c c1); [done..|lia].
      * rewrite length_app. cbn. lia.
      * cbn. rewrite Hid. split_and!; [done..|by rewrite <-app_assoc in Hsuf|by constructor| |].
        -- intros ev' [->|Hev']%elem_of_cons; [left; apply list_elem_of_here|].
           destruct (Hacc ev' Hev') as [?|(id' & ? & Hin)]; [left; by apply list_elem_of_further|].
           right. exists id'. split; [done|]. cbn. rewrite Hid.
           destruct Hin as [[?| ->]%Hsub|?];
             [by left|right; apply list_elem_of_here|right; by apply list_elem_of_further].
        -- intros x [[?| ->]%Hsub|?]%Hx;
             [by left|right; apply list_elem_of_here|right; by apply list_elem_of_further].
  - apply bind_Some in H as ([kept1 c2] & Hk & [= <- <-]).
    destruct (IH (S k) c kept1 c2 new) as (? & ? & ? & Hsl & Hacc & ?); [done..|lia|].
    cbn. rewrite Hid. split_and!; [done..|by constructor| |done].
    intros ev' [->|Hev']%elem_of_cons; [left; apply list_elem_of_here|].
    destruct (Hacc ev' Hev') as [?|(id' & ? & Hin)]; [left; by apply list_elem_of_further|].
    right. exists id'. cbn. by rewrite Hid.
Qed.

(** A record at entry [i] leaves the entries of other servers up. *)
Lemma record_keeps_up i now c c' e ej :
  multi_inv c → is_single_server c = false → entries c !! i = Some e → server ej ≠ server e →
  is_down (server ej) c = false →
  record_success i c = Some c' ∨ record_failure now i c = Some c' →
  is_down (server ej) c' = false.
Proof.
  intros Hinv Hs He Hne Hup Hrec. apply not_true_iff_false. apply not_true_iff_false in Hup.
  contradict Hup. apply is_down_true. apply is_down_true in Hup.
  destruct Hrec as [H|H].
  - destruct (record_success_spec i c e) as (c2 & H2 & _ & _ & ->); [done..|].
    rewrite H in H2. simplify_eq. by rewrite with_failures_status, decide_False in Hup.
  - destruct (record_failure_spec now i c e) as (b & c2 & _ & H2 & _ & _ & Hcases); [done..|].
    rewrite H in H2. simplify_eq.
    assert (∀ l st, status_of (server ej) (with_failures (server e) l st c) = Down →
              status_of (server ej) c = Down) as Hother.
    { intros l st. by rewrite with_failures_status, decide_False. }
    destruct Hcases as [(_ & ->)|[(_ & _ & ->)|(_ & _ & Hcases)]]; [by eapply Hother| |].
    + pose proof (status_reset (server ej) (with_failures (server e) (recent_failures now b) (status b) c)) as Hr.
      unfold reset_breakers in Hup. congruence.
    + destruct Hcases as [(_ & j & ejj & calls & -> & _)|[(_ & -> & _)|(_ & ->)]];
        by apply (Hother (recent_failures now b) Down).
Qed.

Lemma omap_short l : length (omap event_id l) ≤ length l.
Proof. induction l as [|x l IH]; cbn; [done|]. destruct (event_id x); simpl; lia. Qed.

Lemma accounted_l kept rest c ev : accounted kept c ev → accounted (kept ++ rest) c ev.
Proof.
  intros [?|(id & ? & [?|?])]; [left; set_solver|right; eauto|].
  right. exists id. split; [done|]. right. rewrite omap_app. set_solver.
Qed.

Lemma accounted_r kept rest c c1 ev :
  (∀ x, x ∈ seen_order c1 → x ∈ seen_order c ∨ x ∈ omap event_id kept) →
  accounted rest c1 ev → accounted (kept ++ rest) c ev.
Proof.
  intros Hsub [?|(id & ? & Hin)]; [left; set_solver|]. right. exists id. split; [done|].
  rewrite omap_app, elem_of_app. naive_solver.
Qed.

Lemma collect_from_spec now es : ∀ i c kept c' new,
  drop i (entries c) = es → multi_inv c → is_single_server c = false → NoDup (server <$> entries c) →
  collect_from event_id call now i (length es) c = Some (kept, c') →
  new `suffix_of` seen_order c → length new + length (concat (answer <$> es)) ≤ S remembered →
  multi_inv c' ∧ new ++ omap event_id kept `suffix_of` seen_order c' ∧
  kept `sublist_of` concat (answer <$> es) ∧
  ∀ e events ev, e ∈ es → is_down (server e) c = false → call (client e) = Ok events → ev ∈ events →
    accounted kept c ev.
Proof.
  induction es as [|e es IH]; intros i c kept c' new Hes Hinv Hs Hnd H Hnew Hlen; simplify_eq/=.
  { rewrite app_nil_r. split_and!; [done..|]. by intros ??? ?%elem_of_nil. }
  rewrite length_app in Hlen.
  assert (entries c !! i = Some e) as He.
  { by rewrite <-(Nat.add_0_r i), <-lookup_drop, Hes. }
  assert (∀ c1, entries c1 = entries c → drop (S i) (entries c1) = es ∧ is_single_server c1 = false ∧
            NoDup (server <$> entries c1)) as Hnext.
  { intros c1 Hc1. unfold is_single_server. rewrite Hc1. split_and!; [|done..].
    by rewrite <-Nat.add_1_r, <-drop_drop, Hes. }
  assert (∀ ej, ej ∈ es → server ej ≠ server e) as Hothers.
  { intros ej Hej Heq. rewrite <-(take_drop i (entries c)), fmap_app, Hes, fmap_cons in Hnd.
    apply NoDup_app in Hnd as (_ & _ & [Hnot _]%NoDup_cons). apply Hnot. rewrite <-Heq.
    by apply list_elem_of_fmap_2. }
  rewrite He in H. cbn [mbind option_bind] in H.
  destruct (is_down (server e) c) eqn:Hd.
  { destruct (Hnext c eq_refl) as (Hes1 & _).
    destruct (IH (S i) c kept c' new) as (? & ? & Hsl & Hacc); [done..|lia|].
    split_and!; [done..|by apply sublist_inserts_l|].
    intros ej events ev [->|Hej]%elem_of_cons ? ? ?; [congruence|eauto]. }
  destruct (call (client e)) as [events|err] eqn:Hcall.
  - apply bind_Some in H as (c1 & H1 & H). apply bind_Some in H as ([kept1 c2] & H2 & H).
    apply bind_Some in H as ([rest c3] & H3 & [= <- <-]).
    destruct (record_success_spec i c e) as (c1' & H1' & Hinv1 & (He1 & _ & Ho1) & _); [done..|].
    rewrite H1 in H1'. simplify_eq. destruct (Hnext c1' He1) as (_ & Hs1 & _).
    assert (answer e = events) as Hans by (unfold answer; by rewrite Hcall).
    rewrite Hans in Hlen |- *.
    destruct (keep_new_spec (now i) events 0 c1' kept1 c2 new)
      as (Hinv2 & Hs2 & Hsuf2 & Hsl2 & Hacc2 & Hsub2); [done..|by rewrite Ho1|lia|].
    pose proof (keep_new_steps _ _ _ _ _ _ _ H2) as Hsteps.
    destruct (steps_inv _ _ Hsteps Hinv1) as [_ He2].
    destruct (Hnext c2) as (Hes2 & _ & Hnd2); [congruence|].
    assert (length (omap event_id kept1) ≤ length events) as Hshort.
    { etrans; [apply omap_short|by apply sublist_length]. }
    destruct (IH (S i) c2 rest c3 (new ++ omap event_id kept1)) as (? & Hsuf3 & Hsl3 & Hacc3);
      [done..|rewrite length_app; lia|].
    rewrite Ho1 in Hsub2.
    split_and!; [done| |by apply sublist_app|].
    + rewrite omap_app. by rewrite <-app_assoc in Hsuf3.
    + intros ej events' ev [->|Hej]%elem_of_cons Hup Hc Hev.
      * apply accounted_l. rewrite Hcall in Hc. simplify_eq.
        destruct (Hacc2 ev Hev) as [?|(id & ? & Hin)]; [by left|]. rewrite Ho1 in Hin. right. eauto.
      * apply (accounted_r _ _ c c2); [done|]. eapply Hacc3; [done| |done..].
        unfold is_down, status_of. rewrite (keep_new_breakers _ _ _ _ _ _ _ H2).
        eapply (record_keeps_up i 0%Z c c1' e ej); auto.
  - apply bind_Some in H as (c1 & H1 & H).
    destruct (record_failure_spec (now i 0) i c e) as (b & c1' & _ & H1' & Hinv1 & (He1 & _ & Ho1) & _); [done..|].
    rewrite H1 in H1'. simplify_eq. destruct (Hnext c1' He1) as (Hes1 & Hs1 & Hnd1).
    destruct (IH (S i) c1' kept c' new) as (? & ? & Hsl & Hacc); [done..|by rewrite Ho1|lia|].
    split_and!; [done..|by apply sublist_inserts_l|].
    intros ej events ev [->|Hej]%elem_of_cons Hup Hc Hev; [congruence|].
    assert (accounted kept c1' ev) as [?|(id & ? & Hin)].
    { eapply Hacc; [done| |done..]. eapply (record_keeps_up i _ c c1' e ej); eauto. }
    + by left.
    + rewrite Ho1 in Hin. right. eauto.
Qed.

(** Delivery. On a well-formed client of distinct servers that together
    answer at most 8,000 events, one collection returns events that the
    servers answered, in their order and each id once; and every event
    answered by a server that was up is returned, unless its id was seen
    before or another copy of it is returned. *)
Theorem collect_delivers_once now c events c' :
  multi_inv c → is_single_server c = false → NoDup (server <$> entries c) →
  length (concat (answer <$> entries c)) ≤ 8000 →
  sync_and_collect_events event_id call now c = Some (Ok events, c') →
  NoDup (omap event_id events) ∧ events `sublist_of` concat (answer <$> entries c) ∧
  ∀ e answered ev, e ∈ entries c → is_down (server e) c = false →
    call (client e) = Ok answered → ev ∈ answered →
    ev ∈ events ∨
    ∃ id, event_id ev = Some id ∧ (id ∈ seen_order c ∨ id ∈ omap event_id events).
Proof.
  intros Hinv Hs Hnd Hlen H. unfold sync_and_collect_events in H. rewrite Hs in H.
  apply bind_Some in H as ([kept c2] & H & [= <- <-]).
  destruct (collect_from_spec now (entries c) 0 c kept c2 []) as (Hinv2 & Hsuf & Hsl & Hacc); try done.
  - exists (seen_order c). by rewrite app_nil_r.
  - assert (remembered = 8000) as -> by (vm_compute; done). cbn [length]. lia.
  - split_and!; [|done|done]. destruct Hsuf as [l Hl]. pose proof (inv_order _ Hinv2) as Ho.
    rewrite Hl in Ho. by apply NoDup_app in Ho as (_ & _ & ?).
Qed.
End delivery.

(** *** Well-formedness *)
Lemma record_success_total i c :
  multi_inv c → i < length (entries c) → ∃ c', record_success i c = Some c' ∧ multi_inv c' ∧ entries c' = entries c.
Proof.
  intros Hinv [e He]%lookup_lt_is_Some_2. destruct (is_single_server c) eqn:Hs.
  - exists c. unfold record_success. by rewrite Hs.
  - destruct (record_success_spec i c e) as (c' & ? & ? & (? & _) & _); eauto.
Qed.

Lemma record_failure_total now i c :
  multi_inv c → i < length (entries c) → ∃ c', record_failure now i c = Some c' ∧ multi_inv c' ∧ entries c' = entries c.
Proof.
  intros Hinv [e He]%lookup_lt_is_Some_2. destruct (is_single_server c) eqn:Hs.
  - exists c. unfold record_failure. by rewrite Hs.
  - destruct (record_failure_spec now i c e) as (b & c' & ? & ? & ? & (? & _) & _); eauto.
Qed.

Lemma is_duplicate_total now id c :
  multi_inv c → ∃ d c', is_duplicate now id c = Some (d, c') ∧ multi_inv c' ∧ entries c' = entries c.
Proof.
  intros Hinv. destruct (is_single_server c) eqn:Hs.
  - exists false, c. unfold is_duplicate. by rewrite Hs.
  - destruct (is_duplicate_spec now id c) as (d & c' & ? & ? & ? & _); eauto.
Qed.

Lemma via_preferred_total {Error T} (call : Client → result T Error) now c :
  multi_inv c → ∃ r c', via_preferred call now c = Some (r, c') ∧ multi_inv c' ∧ entries c' = entries c.
Proof.
  intros Hinv. destruct (lookup_lt_is_Some_2 _ _ (inv_preferred _ Hinv)) as [e He].
  unfold via_preferred. rewrite He. simpl. destruct (call (client e)) as [x|err].
  - destruct (record_success_total (preferred_index c) c) as (c' & -> & ? & ?); [done|apply Hinv|]. eauto.
  - destruct (record_failure_total now (preferred_index c) c) as (c' & -> & ? & ?); [done|apply Hinv|]. eauto.
Qed.

Lemma find_from_total {Error Topology} (call : Client → result (option Topology) Error) now n :
  ∀ i c, multi_inv c → i + n ≤ length (entries c) →
  ∃ r c', find_space_from call now i n c = Some (r, c') ∧ multi_inv c'.
Proof.
  induction n as [|n IH]; intros i c Hinv Hlen; simpl; [eauto|].
  destruct (lookup_lt_is_Some_2 (entries c) i ltac:(lia)) as [e ->]. simpl.
  destruct (is_down (server e) c); [apply IH; [done|lia]|].
  destruct (record_success_total i c) as (c1 & Hok & Hinv1 & He1); [done|lia|].
  destruct (record_failure_total (now i) i c) as (c2 & Herr & Hinv2 & He2); [done|lia|].
  destruct (call (client e)) as [[t|]|err]; rewrite ?Hok, ?Herr; simpl; [eauto|..];
    apply IH; (done || (rewrite ?He1, ?He2; lia)).
Qed.

Lemma keep_new_total {Event} (event_id : Event → option string) now events :
  ∀ k c, multi_inv c → ∃ r c', keep_new event_id now k events c = Some (r, c') ∧ multi_inv c' ∧ entries c' = entries c.
Proof.
  induction events as [|ev events IH]; intros k c Hinv; simpl; [eauto|].
  destruct (event_id ev) as [id|].
  - destruct (is_duplicate_total (now k) id c) as (d & c1 & -> & Hinv1 & <-); [done|]. simpl.
    destruct (IH (S k) c1 Hinv1) as (r & c2 & -> & ? & ?). simpl. eauto.
  - destruct (IH (S k) c Hinv) as (r & c2 & -> & ? & ?). simpl. eauto.
Qed.

Lemma collect_from_total {Error Event} (event_id : Event → option string)
    (call : Client → result (list Event) Error) now n :
  ∀ i c, multi_inv c → i + n ≤ length (entries c) →
  ∃ r c', collect_from event_id call now i n c = Some (r, c') ∧ multi_inv c'.
Proof.
  induction n as [|n IH]; intros i c Hinv Hlen; simpl; [eauto|].
  destruct (lookup_lt_is_Some_2 (entries c) i ltac:(lia)) as [e ->]. simpl.
  destruct (is_down (server e) c); [apply IH; [done|lia]|].
  destruct (call (client e)) as [events|err].
  - destruct (record_success_total i c) as (c1 & -> & Hinv1 & He1); [done|lia|]. simpl.
    destruct (keep_new_total event_id (now i) events 0 c1 Hinv1) as (kept & c2 & -> & Hinv2 & He2). simpl.
    destruct (IH (S i) c2 Hinv2) as (rest & c3 & -> & ?); [rewrite He2, He1; lia|]. simpl. eauto.
  - destruct (record_failure_total (now i 0) i c) as (c2 & -> & Hinv2 & He2); [done|lia|]. simpl.
    apply IH; [done|]. rewrite He2. lia.
Qed.

Lemma min_by_latency_some es : ∀ best i,
  is_nan best.2 = false → (∀ e, e ∈ es → is_nan (latency_ms e) = false) → best.1 < i + length es →
  best.1 < i →
  ∃ k, min_by_latency best i es = Some k ∧ k < i + length es.
Proof.
  induction es as [|e es IH]; intros best i Hb Hes Hlen Hi; simpl in *; [eauto|].
  destruct (partial_cmp best.2 (latency_ms e)) as [[]|] eqn:Hc.
  1-3: rewrite Nat.add_succ_r; apply (IH _ (S i)); simpl; try lia; auto using list_elem_of_further, list_elem_of_here.
  apply partial_cmp_nan in Hc. rewrite Hb, (Hes e) in Hc by apply list_elem_of_here. naive_solver.
Qed.

Lemma init_breakers_all es e : e ∈ es → init_breakers es !! server e = Some breaker_new.
Proof.
  unfold init_breakers. generalize (∅ : gmap string CircuitBreaker) as m. revert e.
  assert (∀ es (m : gmap string CircuitBreaker) name, m !! name = Some breaker_new →
    foldl (λ m e, <[server e := breaker_new]> m) m es !! name = Some breaker_new) as Hkeep.
  { clear. induction es as [|e es IH]; intros m name Hm; simpl; [done|]. apply IH.
    cbn beta.
    destruct (decide (server e = name)) as [Heq|]; [by rewrite Heq, lookup_insert_eq|].
    by rewrite lookup_insert_ne. }
  induction es as [|e' es IH]; intros e m; [by intros ?%elem_of_nil|].
  intros [->|He]%elem_of_cons; simpl; [|by apply IH]. apply Hkeep. by rewrite lookup_insert_eq.
Qed.

Lemma init_breakers_new es name b : init_breakers es !! name = Some b → b = breaker_new.
Proof.
  unfold init_breakers.
  assert (∀ (m : gmap string CircuitBreaker), (∀ b, m !! name = Some b → b = breaker_new) →
    ∀ b, foldl (λ m e, <[server e := breaker_new]> m) m es !! name = Some b → b = breaker_new) as H.
  { induction es as [|e es IH]; intros m Hm; [done|]. apply IH. intros b' Hb'.
    cbn beta in Hb'. destruct (decide (server e = name)) as [Heq|].
    - rewrite Heq, lookup_insert_eq in Hb'. by simplify_eq.
    - rewrite lookup_insert_ne in Hb' by done. auto. }
  apply H. intros b'. by rewrite lookup_empty.
Qed.

Lemma multi_of_inv es pref :
  es ≠ [] → (∀ e, e ∈ es → is_nan (latency_ms e) = false) →
  ∃ c, multi_of es pref = Some c ∧ multi_inv c ∧ entries c = es.
Proof.
  intros Hne Hnan. unfold multi_of.
  assert (∃ i, select_preferred es pref = Some i ∧ i < length es) as (i & -> & Hi).
  { destruct pref as [name|]; simpl.
    - eexists. split; [done|]. destruct (position name es) as [k|] eqn:Hk; simpl.
      + revert k Hk. clear. induction es as [|e es IH]; intros k Hk; simplify_eq/=.
        destruct (str_eqb _ _); simplify_eq; [lia|]. destruct (position name es); simplify_eq/=.
        specialize (IH _ eq_refl). lia.
      + destruct es; [done|simpl; lia].
    - destruct es as [|e es]; [done|].
      destruct (min_by_latency_some es (0, latency_ms e) 1) as (k & ? & ?); simpl; try lia;
        auto using list_elem_of_here, list_elem_of_further. eauto. }
  eexists. split; [done|]. split; [|done]. split; simpl; try done.
  - intros e He. rewrite init_breakers_all by done. eauto.
  - intros name b ->%init_breakers_new _. cbn. unfold FAIL_THRESHOLD. lia.
  - constructor.
  - lia.
Qed.

Lemma connect_entries_latency {Sdk_ Http_ Any}
    (login_persistent : ServerAccount → string → result Client (MatrixClientError Sdk_ Http_ Any))
    login (first_sync : Client → result () (MatrixClientError Sdk_ Http_ Any)) (elapsed : nat → f64)
    base accounts : ∀ i es,
  (∀ k, is_nan (elapsed k) = false) →
  connect_entries login_persistent login first_sync elapsed base i accounts = Ok es →
  length es = length accounts ∧ ∀ e, e ∈ es → is_nan (latency_ms e) = false.
Proof.
  induction accounts as [|a accounts IH]; intros i es Hel H; simplify_eq/=.
  { split; [done|]. by intros e ?%elem_of_nil. }
  apply result_bind_ok in H as (cl & _ & H). apply result_bind_ok in H as (es1 & H1 & [= <-]).
  destruct (IH _ _ Hel H1) as [Hlen Hall]. split; [simpl; lia|].
  intros e [->|He]%elem_of_cons; [|auto]. simpl. by destruct (first_sync cl).
Qed.

(** C21: a connected client is well formed, stays so and never panics.
    [connect] with measured latencies that are numbers returns an error or a
    client whose preferred index, breakers and memory of events are in order;
    on such a client every call through the preferred server, every search
    and every collection returns, whatever the servers answer and the clock
    shows, and leaves a client of the same kind. *)
Theorem multi_well_formed {Sdk_ Http_ Any} (anyhow : string → Any)
    (login_persistent : ServerAccount → string → result Client (MatrixClientError Sdk_ Http_ Any))
    login first_sync (elapsed : nat → f64) :
  (∀ k, is_nan (elapsed k) = false) →
  (∀ accounts pref base, ∃ r,
     connect anyhow login_persistent login first_sync elapsed accounts pref base = Some r ∧
     ∀ c, r = Ok c → multi_inv c) ∧
  (∀ c, multi_inv c →
     (∀ Error T (call : Client → result T Error) now,
        ∃ r c', via_preferred call now c = Some (r, c') ∧ multi_inv c') ∧
     (∀ Error Topology (call : Client → result (option Topology) Error) now,
        ∃ r c', find_launcher_space call now c = Some (r, c') ∧ multi_inv c') ∧
     (∀ Error Event event_id (call : Client → result (list Event) Error) now,
        ∃ r c', sync_and_collect_events event_id call now c = Some (r, c') ∧ multi_inv c')).
Proof.
  intros Hel. split.
  - intros accounts pref base. unfold connect. case_bool_decide as Hne; [by eexists|].
    destruct (connect_entries _ _ _ _ _ _ _) as [es|err] eqn:Hes; [|by eexists].
    destruct (connect_entries_latency _ _ _ _ _ _ _ _ Hel Hes) as [Hlen Hnan].
    destruct (multi_of_inv es pref) as (c & -> & Hinv & _); [by intros ->; destruct accounts|done|].
    simpl. eexists. split; [done|]. intros c'. by intros [= <-].
  - intros c Hinv. split_and!.
    + intros. destruct (via_preferred_total call now c Hinv) as (r & c' & ? & ? & _). eauto.
    + intros. unfold find_launcher_space. destruct (is_single_server c).
      * destruct (lookup_lt_is_Some_2 (entries c) 0) as [e ->]; [|simpl; eauto].
        pose proof (inv_preferred _ Hinv). lia.
      * destruct (find_from_total call now (length (entries c)) 0 c) as (r & c' & -> & ?); [done..|]. simpl. eauto.
    + intros. unfold sync_and_collect_events. destruct (is_single_server c).
      * destruct (lookup_lt_is_Some_2 (entries c) 0) as [e ->]; [|simpl; eauto].
        pose proof (inv_preferred _ Hinv). lia.
      * destruct (collect_from_total event_id call now (length (entries c)) 0 c) as (r & c' & -> & ?); [done..|].
        simpl. eauto.
Qed.

(** *** Trust *)
Section trust_theory.
Context {UserId Error : Type} (parse_user_id : string → option UserId)
  (localpart server_name : UserId → string) (user_id : Client → UserId)
  (get_verified : Client → result (list UserId) Error)
  (is_user_verified : Client → UserId → result bool Error) (set_order : gset string → list string).

Lemma verified_localparts_spec c part :
  part ∈ verified_localparts localpart get_verified c ↔
  ∃ e users uid, e ∈ entries c ∧ get_verified (client e) = Ok users ∧ uid ∈ users ∧ localpart uid = part.
Proof.
  clear parse_user_id server_name user_id is_user_verified set_order. unfold verified_localparts.
  assert (∀ users (s : gset string), part ∈ foldl (λ s uid, {[localpart uid]} ∪ s) s users ↔
    part ∈ s ∨ ∃ uid, uid ∈ users ∧ localpart uid = part) as Husers.
  { induction users as [|u users IH]; intros s; simpl; [set_solver|]. rewrite IH. set_solver. }
  assert (∀ es (s : gset string),
    part ∈ foldl (λ s e, match get_verified (client e) with
                | Ok users => foldl (λ s uid, {[localpart uid]} ∪ s) s users
                | Err _ => s
                end) s es ↔
    part ∈ s ∨ ∃ e users uid, e ∈ es ∧ get_verified (client e) = Ok users ∧ uid ∈ users ∧ localpart uid = part)
    as H; [|rewrite H; set_solver].
  induction es as [|e es IH]; intros s; simpl; [set_solver|]. rewrite IH. clear IH.
  destruct (get_verified (client e)) as [users|err] eqn:Hg; [rewrite Husers|]; split.
  - intros [[?|(uid & ? & ?)]|(e' & us & uid & ? & ?)]; [by left|right|right].
    + exists e, users, uid. split; [apply list_elem_of_here|done].
    + exists e', us, uid. split; [by apply list_elem_of_further|done].
  - intros [?|(e' & us & uid & [->|?]%elem_of_cons & Hg' & ? & ?)];
      [auto|rewrite Hg in Hg'; simplify_eq; eauto|right; eauto 10].
  - intros [?|(e' & us & uid & ? & ?)]; [by left|right].
    exists e', us, uid. split; [by apply list_elem_of_further|done].
  - intros [?|(e' & us & uid & [->|?]%elem_of_cons & Hg' & ?)];
      [auto|rewrite Hg in Hg'; simplify_eq|right; eauto 10].
Qed.

(** Trust spreads by localpart. On a client of several servers,
    [sync_trust] verifies a user with one of its clients exactly when a user
    of the same localpart, of whatever server, is verified with one of them,
    and the user of that localpart on the server of this client is not
    verified yet: a user of another server that took the name of one here
    makes that one trusted. *)
Theorem sync_trust_exact c cl target :
  (∀ s, set_order s ≡ₚ elements s) →
  (cl, target) ∈ sync_trust parse_user_id localpart server_name user_id get_verified
                   is_user_verified set_order c ↔
  1 < length (entries c) ∧
  ∃ e e' users uid, e ∈ entries c ∧ get_verified (client e) = Ok users ∧ uid ∈ users ∧
    e' ∈ entries c ∧ cl = client e' ∧
    parse_user_id (cat ["@"; localpart uid; ":"; server_name (user_id cl)]) = Some target ∧
    is_user_verified cl target = Ok false.
Proof.
  intros Horder. unfold sync_trust, is_single_server.
  destruct (Nat.leb_spec (length (entries c)) 1) as [Hlen|Hlen].
  { split; [by intros ?%elem_of_nil|intros [? _]; lia]. }
  assert (∀ part e', cross_verify parse_user_id server_name user_id is_user_verified part e' = Some (cl, target) ↔
    cl = client e' ∧ parse_user_id (cat ["@"; part; ":"; server_name (user_id cl)]) = Some target ∧
    is_user_verified cl target = Ok false) as Hcross.
  { intros part e'. unfold cross_verify. split.
    - destruct (parse_user_id _) as [t|] eqn:Hp; [|done].
      destruct (is_user_verified _ _) as [[]|] eqn:Hv; intros [= <- <-]; done.
    - intros (-> & -> & ->). done. }
  rewrite list_elem_of_bind. split.
  - intros (part & (e' & He' & Hc)%list_elem_of_omap & Hpart).
    rewrite (Horder _), elem_of_elements, verified_localparts_spec in Hpart.
    destruct Hpart as (e & users & uid & ? & ? & ? & <-). apply Hcross in Hc as (? & ? & ?).
    split; [lia|]. exists e, e', users, uid. done.
  - intros (_ & e & e' & users & uid & ? & ? & ? & ? & Hc). exists (localpart uid).
    rewrite list_elem_of_omap, (Horder _), elem_of_elements, verified_localparts_spec.
    split; [|by exists e, users, uid]. exists e'. split; [done|]. by apply Hcross.
Qed.
End trust_theory.
End theory.

(** ** Witnesses: a server that answers in 1 ms, one in 2 ms, one whose first
    sync failed; a client is the number of its server. *)
Abbreviation toy_one := (S754_finite false 4503599627370496 (-52)).
Abbreviation toy_two := (S754_finite false 4503599627370496 (-51)).
Definition toy_multi (pref : nat) (st : ServerStatus) (fails : list Instant) : MultiHsClient nat :=
  mkMulti [mkEntry 0 "a" "" toy_one; mkEntry 1 "b" "" toy_two; mkEntry 2 "c" "" f64_MAX] pref None
    (<["a" := mkBreaker fails st]> (<["b" := breaker_new]> (<["c" := breaker_new]> ∅)))
    ∅ [] true [].

Lemma toy_multi_inv pref st fails : pref < 3 → length fails < 5 → multi_inv (toy_multi pref st fails).
Proof.
  intros Hp Hf. split; simpl; try done; [|intros name b| by constructor|lia].
  - intros e He. repeat (apply elem_of_cons in He as [->|He]; [by eexists|]). by apply elem_of_nil in He.
  - rewrite !lookup_insert_Some, lookup_empty. unfold FAIL_THRESHOLD, breaker_new.
    intros Hb _. naive_solver lia.
Qed.

Definition toy_fail : nat → result () string := λ _, Err "down".
Definition toy_now : Instant := from_secs 100.

Lemma failover_to_best_witness :
  ∃ c', via_preferred toy_fail toy_now (toy_multi 0 Healthy [0; 1; 2; 3]%Z) = Some (Err "down", c') ∧
    status_of "a" c' = Down ∧ preferred_index c' = 1.
Proof.
  destruct (via_preferred toy_fail toy_now (toy_multi 0 Healthy [0; 1; 2; 3]%Z)) as [[r c']|] eqn:H;
    [|by vm_compute in H].
  exists c'. assert (r = Err "down") as -> by (vm_compute in H; congruence). split; [done|].
  destruct (failover_to_best toy_fail toy_now (toy_multi 0 Healthy [0; 1; 2; 3]%Z) c' "down"
              (mkEntry 0 "a" "" toy_one) (mkBreaker [0; 1; 2; 3]%Z Healthy)) as (_ & _ & Htrip);
    [apply toy_multi_inv; simpl; lia|done|done|done|exact H|].
  destruct Htrip as [Hd Hp].
  - vm_compute. lia.
  - intros Hall. assert (failing (toy_multi 0 Healthy [0; 1; 2; 3]%Z) (mkEntry 1 "b" "" toy_two) = true) as Hf.
    { refine (Hall _ _ _); [apply list_elem_of_further, list_elem_of_here|done]. }
    by vm_compute in Hf.
  - split; [exact Hd|]. destruct Hp as [(ej & (Hj & Hne & Hup & Hl) & _)|[_ Hno]].
    + destruct (preferred_index c') as [|[|[|k]]]; simplify_eq/=; done.
    + exfalso. apply (Hno 1 (mkEntry 1 "b" "" toy_two)). by vm_compute.
Defined.

Definition toy_answers (cl : nat) : result (list string) string :=
  match cl with 0 => Ok ["$1"; "$2"] | 1 => Ok ["$2"; "$3"] | _ => Err "down" end.

Lemma multi_well_formed_witness :
  (∃ r, connect (Sdk_ := ()) (Http_ := ()) (λ s, s) (λ a _, Ok 0) (λ a, Ok 0) (λ _, Ok ()) (λ _, toy_one)
          [mkAccount "h" "u" "p" false] None None = Some r ∧ ∀ c, r = Ok c → multi_inv c) ∧
  ∃ r c', via_preferred toy_fail toy_now (toy_multi 0 Healthy []) = Some (r, c') ∧ multi_inv c'.
Proof.
  destruct (multi_well_formed (Sdk_ := ()) (Http_ := ()) (λ s : string, s) (λ a _, Ok 0) (λ a, Ok 0)
              (λ _, Ok ()) (λ _, toy_one)) as [Hconnect Hops]; [done|].
  split; [apply Hconnect|].
  apply (Hops (toy_multi 0 Healthy [])). apply toy_multi_inv; simpl; lia.
Defined.

Definition toy_verified (cl : nat) : result (list string) string :=
  match cl with 0 => Ok ["eve"] | _ => Ok [] end.
