(* ===== verification/Effects.v ===== *)
(** * Effects: computations that talk to the outside and can fail

    [Io S E A]: from a state [S] of the outside to an outcome and the state
    that is left. A computation returns, raises a value of [E] ([Err] with the
    [?] operator), or panics; a panic is not caught. *)
From S2P Require Import Prelude.
From stdpp Require Import options.

Inductive outcome (A E : Type) : Type :=
| Returns (x : A)
| Raises (e : E)
| Panics.
Arguments Returns {A E} x.
Arguments Raises {A E} e.
Arguments Panics {A E}.

Definition Io (S E A : Type) : Type := S → outcome A E * S.

Section io.
Context {S E : Type}.

#[export] Instance Io_ret : MRet (Io S E) := λ A x s, (Returns x, s).
#[export] Instance Io_bind : MBind (Io S E) := λ A B k m s,
  match m s with
  | (Returns x, s') => k x s'
  | (Raises e, s') => (Raises e, s')
  | (Panics, s') => (Panics, s')
  end.

Definition raise {A} (e : E) : Io S E A := λ s, (Raises e, s).
Definition panic {A} : Io S E A := λ s, (Panics, s).
(** [?] on a value. *)
Definition of_result {A} (r : result A E) : Io S E A :=
  match r with Ok x => mret x | Err e => raise e end.
(** [match m.await { Ok(x) => .., Err(e) => .. }] *)
Definition attempt {A} (m : Io S E A) : Io S E (result A E) := λ s,
  match m s with
  | (Returns x, s') => (Returns (Ok x), s')
  | (Raises e, s') => (Returns (Err e), s')
  | (Panics, s') => (Panics, s')
  end.
Definition observe {A} (f : S → A) : Io S E A := λ s, (Returns (f s), s).

(** A [for] loop that can stop early through [?] only. *)
Fixpoint for_each {A} (f : A → Io S E ()) (l : list A) : Io S E () :=
  match l with
  | [] => mret ()
  | x :: l => f x ;; for_each f l
  end.

Lemma io_bind_returns {A B} (m : Io S E A) (k : A → Io S E B) s y s' :
  (x ← m; k x) s = (Returns y, s') ↔ ∃ x s1, m s = (Returns x, s1) ∧ k x s1 = (Returns y, s').
Proof.
  unfold mbind, Io_bind. destruct (m s) as [[x|e|] s1]; split; try done;
    [eauto|..]; intros (? & ? & ? & ?); by simplify_eq.
Qed.

(** One step of a computation. *)
Lemma io_bind_observe {A B} (f : S → A) (k : A → Io S E B) s : (x ← observe f; k x) s = k (f s) s.
Proof. done. Qed.
Lemma io_bind_mret {A B} (x : A) (k : A → Io S E B) s : (y ← mret x; k y) s = k x s.
Proof. done. Qed.
Lemma io_bind_step {A B} (m : Io S E A) (k : A → Io S E B) s x s' :
  m s = (Returns x, s') → (y ← m; k y) s = k x s'.
Proof. intros Hm. unfold mbind, Io_bind. by rewrite Hm. Qed.

(** What ends a sequence: its first part, or its second after the first. *)
Lemma io_bind_inv {A B} (m : Io S E A) (k : A → Io S E B) s o s' :
  (x ← m; k x) s = (o, s') →
  (∃ x s1, m s = (Returns x, s1) ∧ k x s1 = (o, s')) ∨
  (∃ e, o = Raises e ∧ m s = (Raises e, s')) ∨ (o = Panics ∧ m s = (Panics, s')).
Proof.
  unfold mbind, Io_bind. destruct (m s) as [[x|e|] s1]; [eauto|intros [= <- <-]..]; eauto.
Qed.

(** Reading does not change the outside. *)
Definition reads {A} (m : Io S E A) : Prop := ∀ s, (m s).2 = s.

Lemma reads_ret {A} (x : A) : reads (mret x).
Proof. done. Qed.
Lemma reads_raise {A} (e : E) : reads (A := A) (raise e).
Proof. done. Qed.
Lemma reads_of_result {A} (r : result A E) : reads (of_result r).
Proof. by destruct r. Qed.
Lemma reads_bind {A B} (m : Io S E A) (k : A → Io S E B) :
  reads m → (∀ x, reads (k x)) → reads (x ← m; k x).
Proof.
  intros Hm Hk s. unfold mbind, Io_bind. specialize (Hm s).
  destruct (m s) as [[x|e|] s']; simpl in *; subst; [apply Hk|done..].
Qed.

(** The outcome of a reading computation. *)
Definition outcome_at {A} (m : Io S E A) (s : S) : outcome A E := (m s).1.

Lemma reads_run {A} (m : Io S E A) s : reads m → m s = (outcome_at m s, s).
Proof. intros Hm. specialize (Hm s). unfold outcome_at. by destruct (m s); simpl in *; subst. Qed.
End io.
#[export] Hint Resolve reads_ret reads_raise reads_of_result : mxdx.

(** Another error type: [map_err]. *)
Definition io_map_err {S E F A} (f : E → F) (m : Io S E A) : Io S F A := λ s,
  match m s with
  | (Returns x, s') => (Returns x, s')
  | (Raises e, s') => (Raises (f e), s')
  | (Panics, s') => (Panics, s')
  end.

Lemma reads_map_err {S E F A} (f : E → F) (m : Io S E A) : reads m → reads (io_map_err f m).
Proof. intros Hm s. unfold io_map_err. specialize (Hm s). by destruct (m s) as [[x|e|] s']. Qed.

Lemma io_map_err_inv {S E F A} (f : E → F) (m : Io S E A) s o s' :
  io_map_err f m s = (o, s') →
  ∃ o', m s = (o', s') ∧ match o' with Returns x => o = Returns x | Raises e => o = Raises (f e) | Panics => o = Panics end.
Proof. unfold io_map_err. destruct (m s) as [[x|e|] s1]; intros [= <- <-]; by eexists. Qed.

(** [match] on the outcome of an operation with errors of another type. *)
Definition catch {S E F A} (m : Io S E A) : Io S F (result A E) := λ s,
  match m s with
  | (Returns x, s') => (Returns (Ok x), s')
  | (Raises e, s') => (Returns (Err e), s')
  | (Panics, s') => (Panics, s')
  end.

(** ** What a computation leaves alone
    [undisturbed view m]: however [m] ends, the part [view] of the state is what it
    was. *)
Definition undisturbed {S E A X} (view : S → X) (m : Io S E A) : Prop := ∀ s, view (m s).2 = view s.

Section undisturbed.
Context {S X : Type} (view : S → X).

Lemma undisturbed_reads {E A} (m : Io S E A) : reads m → undisturbed view m.
Proof. intros Hm s. by rewrite Hm. Qed.
Lemma undisturbed_ret {E A} (x : A) : undisturbed view (mret x : Io S E A).
Proof. done. Qed.
Lemma undisturbed_raise {E A} (e : E) : undisturbed view (raise e : Io S E A).
Proof. done. Qed.
Lemma undisturbed_panic {E A} : undisturbed view (panic : Io S E A).
Proof. done. Qed.
Lemma undisturbed_observe {E A} (f : S → A) : undisturbed view (observe f : Io S E A).
Proof. done. Qed.
Lemma undisturbed_bind {E A B} (m : Io S E A) (k : A → Io S E B) :
  undisturbed view m → (∀ x, undisturbed view (k x)) → undisturbed view (x ← m; k x).
Proof.
  intros Hm Hk s. unfold mbind, Io_bind. specialize (Hm s).
  destruct (m s) as [[x|e|] s1]; simpl in *; [|done..]. by rewrite (Hk x s1).
Qed.
Lemma undisturbed_attempt {E A} (m : Io S E A) : undisturbed view m → undisturbed view (attempt m).
Proof. intros Hm s. specialize (Hm s). unfold attempt. by destruct (m s) as [[]]. Qed.
Lemma undisturbed_catch {E F A} (m : Io S E A) : undisturbed view m → undisturbed view (catch (F := F) m).
Proof. intros Hm s. specialize (Hm s). unfold catch. by destruct (m s) as [[]]. Qed.
Lemma undisturbed_map_err {E F A} (f : E → F) (m : Io S E A) : undisturbed view m → undisturbed view (io_map_err f m).
Proof. intros Hm s. specialize (Hm s). unfold io_map_err. by destruct (m s) as [[]]. Qed.
End undisturbed.
#[export] Hint Resolve undisturbed_ret undisturbed_raise undisturbed_panic undisturbed_observe undisturbed_attempt undisturbed_catch undisturbed_map_err : mxdx.
