(* ===== verification/Rest.v ===== *)
(** * Rest: the Matrix client-server API over HTTP ([mxdx-matrix/rest.rs])

    Requests are sent to an abstract server whose state they may change; JSON,
    room identifiers and percent-encoding by [urlencoding] are interfaces. An
    [anyhow::Error] is the message it prints. *)
From S2P Require Import Prelude Text Json Effects.
From stdpp Require Import options.

Inductive HttpMethod : Type := GET | PUT | POST | DELETE.

Record Request (V : Type) := mkRequest {
  method : HttpMethod; url : string; bearer_auth : string; json : option V }.
Arguments mkRequest {V} method url bearer_auth json.
Arguments method {V} r.
Arguments url {V} r.
Arguments bearer_auth {V} r.
Arguments json {V} r.

Record Response := mkResponse { status : Z; text : string }.
Definition is_success (r : Response) : bool := bool_decide (200 ≤ status r < 300)%Z.

(** What the server does with a request: a response, or a failure to get one. *)
Class HttpServer (S V : Type) := http_send : Request V → S → result Response string * S.

(** Documented behaviour of HTTP: a GET changes nothing. *)
Class HttpLaws (S V : Type) `{HttpServer S V} : Prop :=
  http_get_safe (r : Request V) (s : S) : method r = GET → (http_send r s).2 = s.

(** More of [serde_json]: building values, [as_bool], the keys of an object. *)
Class JsonBuild (V : Type) := {
  json_string : string → V;
  json_array : list V → V;
  json_object : list (string * V) → V;
  as_bool : V → option bool;
  object_keys : V → option (list string);
}.

(** [ruma]: [RoomId::parse]; [urlencoding::encode]; how a status is printed;
    the message of [serde] for a value of the wrong type. *)
Class RestExternals := {
  parse_room_id : string → result string string;
  url_encode : string → string;
  show_status : Z → string;
  serde_type_error : string;
}.

Record RestClient := mkRest { homeserver : string; access_token : string }.

Record EncryptionState := mkEncryption { algorithm : string; encrypt_state_events : bool }.

Section rest.
Context {S V : Type} `{HttpServer S V} `{JsonValue V} `{JsonContainers V} `{JsonBuild V} `{RestExternals}.
Local Notation M := (Io S string).

Definition rest_new (homeserver access_token : string) : RestClient :=
  mkRest (from_bytes (trim_end_matches SLASH (as_bytes homeserver))) access_token.

Definition http (r : Request V) : M Response := λ s,
  match http_send r s with
  | (Ok resp, s') => (Returns resp, s')
  | (Err e, s') => (Raises e, s')
  end.
Definition get_url (c : RestClient) (url : string) : M Response :=
  http (mkRequest GET url (access_token c) None).
(** [resp.json()]. *)
Definition json_body (resp : Response) : M V := of_result (from_str (text resp)).

Definition bail_unless_success (what : string) (resp : Response) : M () :=
  if is_success resp then mret () else raise (cat [what; ": HTTP "; show_status (status resp)]).

Definition state_url (c : RestClient) (room event_type : string) : string :=
  cat [homeserver c; "/_matrix/client/v3/rooms/"; url_encode room; "/state/"; event_type; "/"].

(** The shape that the getters of state events share: [None] for a 404. *)
Definition get_state (what : string) (c : RestClient) (room event_type : string) : M (option V) :=
  resp ← get_url c (state_url c room event_type);
  if bool_decide (status resp = 404%Z) then mret None else
  bail_unless_success what resp ;;
  v ← json_body resp;
  mret (Some v).

Definition list_joined_rooms (joined_rooms : V → result (list string) string) (c : RestClient)
    : M (list string) :=
  resp ← get_url c (cat [homeserver c; "/_matrix/client/v3/joined_rooms"]);
  bail_unless_success "list_joined_rooms" resp ;;
  v ← json_body resp;
  ids ← of_result (joined_rooms v);
  of_result (foldr (λ s acc, match parse_room_id s with
                             | Err _ => Err "invalid room id"
                             | Ok id => match acc with Err e => Err e | Ok ids => Ok (id :: ids) end
                             end) (Ok []) ids).

Definition get_room_topic (c : RestClient) (room : string) : M (option string) :=
  v ← get_state "get_room_topic" c room "m.room.topic";
  mret (v ≫= λ v, get_str v "topic").

Definition get_room_create (c : RestClient) (room : string) : M (option V) :=
  get_state "get_room_create" c room "m.room.create".

Definition get_room_name (c : RestClient) (room : string) : M (option string) :=
  v ← get_state "get_room_name" c room "m.room.name";
  mret (v ≫= λ v, get_str v "name").

Definition get_room_encryption (c : RestClient) (room : string) : M (option EncryptionState) :=
  v ← get_state "get_room_encryption" c room "m.room.encryption";
  mret ((λ v, mkEncryption (default "" (get_str v "algorithm"))
                (default false
                   (match get v "encrypt_state_events" ≫= as_bool with
                    | Some b => Some b
                    | None => get v "io.element.msc4362.encrypt_state_events" ≫= as_bool
                    end))) <$> v).

Definition put_state_event (c : RestClient) (room event_type state_key : string) (content : V) : M () :=
  resp ← http (mkRequest PUT
           (cat [homeserver c; "/_matrix/client/v3/rooms/"; url_encode room; "/state/"; event_type; "/";
                 url_encode state_key]) (access_token c) (Some content));
  if is_success resp then mret () else
  raise (cat ["put_state_event("; event_type; "): HTTP "; show_status (status resp); ": "; text resp]).

Definition get_room_tombstone (c : RestClient) (room : string) : M (option string) :=
  v ← get_state "get_room_tombstone" c room "m.room.tombstone";
  match v ≫= λ v, get_str v "replacement_room" with
  | Some s => id ← of_result (parse_room_id s); mret (Some id)
  | None => mret None
  end.

Definition get_room_full_state (c : RestClient) (room : string) : M (list V) :=
  resp ← get_url c (cat [homeserver c; "/_matrix/client/v3/rooms/"; url_encode room; "/state"]);
  bail_unless_success "get_room_full_state" resp ;;
  v ← json_body resp;
  match as_array v with
  | Some events => mret events
  | None => raise serde_type_error
  end.

Definition leave_room (c : RestClient) (room : string) : M () :=
  resp ← http (mkRequest POST (cat [homeserver c; "/_matrix/client/v3/rooms/"; url_encode room; "/leave"])
           (access_token c) (Some (json_object [])));
  if is_success resp then mret () else
  raise (cat ["leave_room: HTTP "; show_status (status resp); ": "; text resp]).

Definition list_invited_rooms (c : RestClient) : M (list string) :=
  resp ← get_url c (cat [homeserver c; "/_matrix/client/v3/sync?timeout=0"]);
  bail_unless_success "list_invited_rooms (sync)" resp ;;
  v ← json_body resp;
  mret (omap (λ rid, match parse_room_id rid with Ok id => Some id | Err _ => None end)
          (default [] (rooms ← get v "rooms"; invite ← get rooms "invite"; object_keys invite))).

(** ** The getters only read *)
Lemma reads_http `{!HttpLaws S V} r : method r = GET → reads (http r).
Proof.
  intros Hm s. unfold http. pose proof (http_get_safe r s Hm) as Hs.
  destruct (http_send r s) as [[resp|e] s']; done.
Qed.

Lemma reads_get_url `{!HttpLaws S V} c u : reads (get_url c u).
Proof. by apply reads_http. Qed.

Lemma reads_bail what resp : reads (bail_unless_success what resp).
Proof. unfold bail_unless_success. by case_match. Qed.

Hint Resolve reads_get_url reads_bail : mxdx.

Lemma reads_get_state `{!HttpLaws S V} what c room ty : reads (get_state what c room ty).
Proof.
  apply reads_bind; [auto with mxdx|]. intros resp. case_match; [done|].
  apply reads_bind; [auto with mxdx|]. intros _. apply reads_bind; [apply reads_of_result|done].
Qed.

Lemma reads_tombstone `{!HttpLaws S V} c room : reads (get_room_tombstone c room).
Proof.
  apply reads_bind; [apply reads_get_state|]. intros v. case_match; [|done].
  apply reads_bind; [apply reads_of_result|done].
Qed.

Lemma reads_joined_rooms `{!HttpLaws S V} f c : reads (list_joined_rooms f c).
Proof.
  apply reads_bind; [auto with mxdx|]. intros resp. apply reads_bind; [auto with mxdx|]. intros _.
  apply reads_bind; [apply reads_of_result|]. intros v.
  apply reads_bind; intros; apply reads_of_result.
Qed.

Lemma reads_invited `{!HttpLaws S V} c : reads (list_invited_rooms c).
Proof.
  apply reads_bind; [auto with mxdx|]. intros resp. apply reads_bind; [auto with mxdx|]. intros _.
  apply reads_bind; [apply reads_of_result|done].
Qed.
End rest.
#[export] Hint Resolve reads_get_state reads_tombstone reads_joined_rooms reads_invited : mxdx.
