(* ===== verification/MatrixClient.v ===== *)
(** * MatrixClient: the client of one homeserver ([mxdx-matrix/client.rs])

    Sending, receiving and looking up through the Matrix SDK, which is an
    interface here: each of its operations may change its state and fail with
    a message. What is modelled is what the crate adds: which checks precede a
    send, what a sync delivers, how telemetry that cannot be decrypted is
    reported, which keys of a peer are accepted. Login, the store directories
    and the export of sessions are left to the SDK. *)
From S2P Require Import Prelude Text Json Instants P2PCrypto MatrixTypes Effects Rest WorkerClock.
From stdpp Require Import options.

Abbreviation MxError := (MatrixClientError string string string) (only parsing).

Inductive InitialState : Type :=
| Encryption            (* recommended defaults, with encrypted state *)
| HistoryVisibilityJoined
| Topic (topic : string).

Record CreateRoomRequest (V : Type) := mkCreateRoom {
  cr_name : option string; cr_alias : option string; cr_invite : list string; cr_is_direct : bool;
  cr_initial_state : list InitialState; cr_creation_content : option V }.
Arguments mkCreateRoom {V}.
Arguments cr_name {V} c.
Arguments cr_alias {V} c.
Arguments cr_invite {V} c.
Arguments cr_is_direct {V} c.
Arguments cr_initial_state {V} c.
Arguments cr_creation_content {V} c.

(** A device of a user, as the SDK describes it. *)
Record Device := mkDevice { dev_id : string; cross_signed_by_owner : bool; dev_ed25519 : option Bytes }.

(** A state event in the store: complete, or stripped in an invited room. *)
Inductive RawState : Type := RawSync (json : string) | RawStripped (json : string).

Record SyncSettings := mkSync { sync_timeout : Duration; full_state : bool }.

(** [matrix_sdk::Client] and [Room]. Reading the local cache is a function of
    the state; [create_room] answers [None] when it takes longer than the
    timeout it is given. *)
Class MatrixSdk (S V : Type) := {
  sdk_user_id : S → option string;
  sdk_device_id : S → option string;
  sdk_server_name : S → string;
  sdk_access_token : S → option string;
  sdk_homeserver : S → string;
  sdk_get_room : string → S → bool;
  sdk_is_encrypted : string → S → bool;
  sdk_joined_members_count : string → S → Z;
  sdk_joined_rooms : S → list (string * option string);
  sdk_now_ms : S → Z;
  sdk_instant : S → Z;
  sdk_create_room : Duration → CreateRoomRequest V → Io S string (option string);
  sdk_join_room_by_id : string → Io S string ();
  sdk_invite_user_by_id : string → string → Io S string ();
  sdk_leave : string → Io S string ();
  sdk_forget : string → Io S string ();
  sdk_send_raw : string → string → V → Io S string string;
  sdk_send_state_event_raw : string → string → string → V → Io S string ();
  sdk_send_encrypted : string → Bytes → Io S string string;
  (** the joined rooms of a sync with the events of their timelines *)
  sdk_sync_once : SyncSettings → Io S string (list (string * list string));
  sdk_messages : string → Io S string (list string);
  sdk_get_state_events : string → string → Io S string (list RawState);
  sdk_decrypt_event : string → string → Io S string string;
  sdk_sync_members : string → Io S string ();
  sdk_members : string → Io S string (list string);
  sdk_user_devices : string → Io S string (list Device);
  (** whether the identity of a user, if it has one, is verified *)
  sdk_user_identity : string → Io S string (option bool);
  sdk_verify_identity : string → Io S string ();
  sdk_encrypt_room_event : string → string → V → Io S string Bytes;
  sdk_olm_ready : S → bool;
  sdk_parse_encrypted : Bytes → result Bytes string;
}.

(** More of [serde_json]. *)
Class JsonNumbers (V : Type) := {
  json_number : Z → V;
  json_bool : bool → V;
  as_object : V → option (list (string * V));
  is_null : V → bool;
}.

(** ** Classification of events *)
Inductive SyncFilterDecision : Type := Encrypted | InfraIgnored | Deliver.
#[export] Instance SyncFilterDecision_eq_dec : EqDecision SyncFilterDecision.
Proof. solve_decision. Defined.

Definition classify_sync_event (event_type : option string) (is_state : bool) : SyncFilterDecision :=
  match event_type with
  | Some t =>
      if str_eqb t "m.room.encrypted" then if is_state then InfraIgnored else Encrypted
      else if str_eqb t "m.room.encryption" || str_eqb t "m.room.member" || str_eqb t "m.room.power_levels"
      then InfraIgnored
      else Deliver
  | None => Deliver
  end.

(** ** The date of a server timestamp *)
Definition rest_timestamp (origin_ts : Z) : Bytes :=
  let secs := (origin_ts / 1000)%Z in
  let millis := (origin_ts mod 1000)%Z in
  let day_secs := (secs mod 86400)%Z in
  let hour := (day_secs / 3600)%Z in
  let minute := (day_secs mod 3600 / 60)%Z in
  let second := (day_secs mod 60)%Z in
  let days := (secs / 86400)%Z in
  let '(y, m, d) := days_to_ymd days in
  (format_padded 4 y ++ MINUS :: format_padded 2 m ++ MINUS :: format_padded 2 d)
  ++ CHAR_T
  :: (format_padded 2 hour ++ CHAR_COLON :: format_padded 2 minute
      ++ CHAR_COLON :: format_padded 2 second)
  ++ CHAR_DOT :: format_padded 3 millis ++ [CHAR_Z].

(** ** The client *)
Record MatrixClient := mkMatrixClient {
  room_creation_delay : option Duration; room_creation_timeout : Duration }.

Section client.
Context {W V : Type} `{MatrixSdk W V} `{JsonValue V} `{JsonU64 V} `{JsonBuild V} `{JsonContainers V}
  `{JsonNumbers V} `{HttpServer W V} `{RestExternals} `{Base64}.
Local Notation M := (Io W MxError).
Local Abbreviation sdk := (io_map_err (S := W) (F := MxError) Sdk).
Local Abbreviation other := (io_map_err (S := W) (F := MxError) Other).
Local Notation other_error msg := (Other (Sdk_ := string) (Http_ := string) msg).

(** [expect]: a client that is not logged in panics. *)
Definition user_id : M string :=
  u ← observe sdk_user_id; match u with Some u => mret u | None => panic end.

(** [self.client.get_room(room_id).ok_or_else(..)?]. *)
Definition need_room (room_id : string) : M () :=
  known ← observe (sdk_get_room room_id);
  if known : bool then mret () else raise (RoomNotFound room_id).

(** The refusal to write to a room that is not encrypted. *)
Definition need_encrypted (refusal : string) (room_id : string) : M () :=
  encrypted ← observe (sdk_is_encrypted room_id);
  if encrypted : bool then mret () else raise (other_error refusal).

(** *** Rooms *)
Definition create_room_with_timeout (c : MatrixClient) (request : CreateRoomRequest V) : M string :=
  created ← sdk (sdk_create_room (room_creation_timeout c) request);
  match created with
  | Some room_id => mret room_id
  | None =>
      raise (RoomCreationTimeout
        (cat ["Room creation timed out after "; show (room_creation_timeout c / 1000000000)%Z;
              "s — server may be rate-limiting"]))
  end.

Definition create_encrypted_room (c : MatrixClient) (invite : list string) : M string :=
  create_room_with_timeout c (mkCreateRoom None None invite false [Encryption] None).
Definition create_dm (c : MatrixClient) (user : string) : M string :=
  create_room_with_timeout c (mkCreateRoom None None [user] true [Encryption] None).

Definition join_room (room_id : string) : M () := sdk (sdk_join_room_by_id room_id).
Definition invite_user (room_id user : string) : M () :=
  need_room room_id ;; sdk (sdk_invite_user_by_id room_id user).

Definition leave_and_forget_room (room_id : string) : M () :=
  known ← observe (sdk_get_room room_id);
  if known : bool then
    attempt (sdk (sdk_leave room_id)) ;; attempt (sdk (sdk_forget room_id)) ;; mret ()
  else mret ().

(** *** Sending *)
Definition send_event (room_id : string) (payload : V) : M string :=
  need_room room_id ;;
  let event_type := default "org.mxdx.unknown" (get_str payload "type") in
  let content := default json_null (get payload "content") in
  sdk (sdk_send_raw room_id event_type content).

Definition send_call_event (room_id event_type : string) (content : V) : M string :=
  if negb (starts_with (as_bytes "m.call.") (as_bytes event_type)) then
    raise (other_error (cat ["send_call_event refused: event type `"; event_type; "` is not an m.call.* type"]))
  else
  need_room room_id ;;
  need_encrypted (cat ["send_call_event refused: room "; room_id;
    " is not E2EE — cardinal rule requires encrypted rooms"]) room_id ;;
  sdk (sdk_send_raw room_id event_type content).

Definition encrypt_for_room (room_id event_type : string) (content : V) : M Bytes :=
  need_room room_id ;;
  need_encrypted (cat ["encrypt_for_room refused: room "; room_id;
    " is not E2EE — cardinal rule requires encrypted rooms"]) room_id ;;
  other (sdk_sync_members room_id) ;;
  ready ← observe sdk_olm_ready;
  if ready : bool then
    io_map_err (λ e, other_error (cat ["Megolm encrypt: "; e]))
      (sdk_encrypt_room_event room_id event_type content)
  else raise (other_error "OlmMachine not initialized — E2EE not ready").

(** The type that is passed is not used: the payload is ciphertext. *)
Definition send_megolm (room_id event_type : string) (payload : Bytes) : M string :=
  need_room room_id ;;
  need_encrypted (cat ["send_megolm refused: room "; room_id;
    " is not E2EE — cardinal rule requires encrypted rooms"]) room_id ;;
  content ← of_result (result_map_err (λ e, other_error (cat ["parse encrypted payload: "; e]))
                         (sdk_parse_encrypted payload));
  other (sdk_send_encrypted room_id content).

(** [Map::insert]. *)
Definition object_insert (k : string) (v : V) (fields : list (string * V)) : list (string * V) :=
  filter (λ kv, kv.1 ≠ k) fields ++ [(k, v)].

Definition send_threaded_event (room_id event_type in_reply_to_event_id : string) (content : V) : M string :=
  need_room room_id ;;
  let body := default [] (as_object content) in
  let body := object_insert "m.relates_to"
    (json_object [("rel_type", json_string "m.thread"); ("event_id", json_string in_reply_to_event_id)]) body in
  sdk (sdk_send_raw room_id event_type (json_object body)).

Definition send_state_event (room_id event_type state_key : string) (content : V) : M () :=
  need_room room_id ;; sdk (sdk_send_state_event_raw room_id event_type state_key content).

(** *** Syncing *)
Definition sync_once : M () :=
  sdk (sdk_sync_once (mkSync (from_secs 1) false)) ;; mret ().
Definition sync_full_state : M () :=
  sdk (sdk_sync_once (mkSync (from_secs 2) true)) ;; mret ().

Definition is_state_event (json : V) : bool := bool_decide (is_Some (get json "state_key")).
Definition decision (json : V) : SyncFilterDecision :=
  classify_sync_event (get_str json "type") (is_state_event json).

(** The first pass, over the timeline of the sync: what is collected, the ids
    seen, and whether an event could not be decrypted. *)
Record Collected := mkCollected {
  collected : list V; seen_ids : gset string; saw_encrypted : bool }.

Definition collect_inline (acc : Collected) (raw : string) : Collected :=
  match from_str raw with
  | Err _ => acc
  | Ok json =>
      match decision json with
      | Encrypted => mkCollected (collected acc) (seen_ids acc) true
      | InfraIgnored => acc
      | Deliver =>
          mkCollected (collected acc ++ [json])
            (match get_str json "event_id" with
             | Some eid => {[eid]} ∪ seen_ids acc
             | None => seen_ids acc
             end) (saw_encrypted acc)
      end
  end.

(** The second pass, over the messages of the room. *)
Definition collect_fallback (acc : Collected) (raw : string) : Collected :=
  match from_str raw with
  | Err _ => acc
  | Ok json =>
      match decision json with
      | Encrypted | InfraIgnored => acc
      | Deliver =>
          match get_str json "event_id" with
          | Some eid =>
              if decide (eid ∈ seen_ids acc) then acc
              else mkCollected (collected acc ++ [json]) ({[eid]} ∪ seen_ids acc) (saw_encrypted acc)
          | None => mkCollected (collected acc ++ [json]) (seen_ids acc) (saw_encrypted acc)
          end
      end
  end.

Definition timeline (room_id : string) (joined : list (string * list string)) : list string :=
  match list_find (λ r, r.1 = room_id) joined with Some (_, r) => r.2 | None => [] end.

Definition sync_and_collect_events (room_id : string) (timeout : Duration) : M (list V) :=
  joined ← sdk (sdk_sync_once (mkSync timeout false));
  let first := foldl collect_inline (mkCollected [] ∅ false) (timeline room_id joined) in
  if saw_encrypted first then
    attempt (sdk (sdk_sync_once (mkSync (from_secs 2) false))) ;;
    known ← observe (sdk_get_room room_id);
    if known : bool then
      messages ← attempt (sdk (sdk_messages room_id));
      match messages with
      | Ok chunk => mret (collected (foldl collect_fallback first chunk))
      | Err _ => mret (collected first)
      end
    else mret (collected first)
  else mret (collected first).

(** *** State events *)
Definition raw_json (r : RawState) : string := match r with RawSync j | RawStripped j => j end.

(** [(state_key, content)] of an event envelope. *)
Definition key_and_content (value : V) : string * V :=
  (default "" (get_str value "state_key"), default json_null (get value "content")).

Definition direct_events (raws : list RawState) : list (string * V) :=
  omap (λ raw, match from_str (raw_json raw) with
               | Ok value => Some (key_and_content value)
               | Err _ => None
               end) raws.

(** An event of the store of encrypted state, if it is of the wanted type. *)
Definition inner_event (event_type : string) (json : string) : option (string * V) :=
  match from_str json with
  | Err _ => None
  | Ok value =>
      if str_eqb (default "" (get_str value "type")) event_type then Some (key_and_content value) else None
  end.

Fixpoint decrypted_events (room_id event_type : string) (raws : list RawState) : M (list (string * V)) :=
  match raws with
  | [] => mret []
  | RawSync json :: raws =>
      decrypted ← attempt (sdk (sdk_decrypt_event room_id json));
      rest ← decrypted_events room_id event_type raws;
      mret (match decrypted with
            | Ok inner => option_list (inner_event event_type inner) ++ rest
            | Err _ => rest
            end)
  | RawStripped json :: raws =>
      rest ← decrypted_events room_id event_type raws;
      mret (option_list (inner_event event_type json) ++ rest)
  end.

Definition get_state_events_cached (room_id event_type : string) : M (list (string * V)) :=
  need_room room_id ;;
  raws ← other (sdk_get_state_events room_id event_type);
  let results := direct_events raws in
  if bool_decide (results ≠ []) then mret results else
  encrypted_raws ← other (sdk_get_state_events room_id "m.room.encrypted");
  decrypted_events room_id event_type encrypted_raws.

(** *** Telemetry over REST *)
Definition synthetic_telemetry (origin_ts : Z) : V :=
  json_object [("timestamp", json_string (from_bytes (rest_timestamp origin_ts)));
               ("heartbeat_interval_ms", json_number 60000);
               ("status", json_string "online");
               ("capabilities", json_array []);
               ("_encrypted", json_bool true)].

Definition telemetry_event (event_type : string) (event : V) : option (string * V) :=
  let ev_type := default "" (get_str event "type") in
  let state_key := default "" (get_str event "state_key") in
  if str_eqb ev_type event_type then Some (state_key, default json_null (get event "content")) else
  match strip_prefix (as_bytes (cat [event_type; ":"])) (as_bytes state_key) with
  | Some key =>
      if str_eqb ev_type "m.room.encrypted" then
        let origin_ts := default 0%Z (get_uint event "origin_server_ts") in
        if decide (origin_ts = 0%Z) then None else Some (from_bytes key, synthetic_telemetry origin_ts)
      else None
  | None => None
  end.

Definition get_telemetry_via_rest (room_id event_type : string) : M (list (string * V)) :=
  homeserver ← observe sdk_homeserver;
  token ← observe sdk_access_token;
  access_token ← match token with Some t => mret t | None => raise (other_error "not logged in") end;
  all_state ← other (get_room_full_state (rest_new homeserver access_token) room_id);
  mret (omap (telemetry_event event_type) all_state).

(** *** Keys and identities *)
Fixpoint all_have_devices (users : list string) : M bool :=
  match users with
  | [] => mret true
  | u :: users =>
      devices ← other (sdk_user_devices u);
      if bool_decide (devices = []) then mret false else all_have_devices users
  end.

Definition has_cached_keys_for_room (room_id : string) : M bool :=
  known ← observe (sdk_get_room room_id);
  if negb known then mret false else
  encrypted ← observe (sdk_is_encrypted room_id);
  if negb encrypted then
    member_count ← observe (sdk_joined_members_count room_id);
    mret (bool_decide (member_count ≤ 1)%Z)
  else
  members ← other (sdk_members room_id);
  if length members <=? 1 then mret true else all_have_devices members.

(** The loop until [deadline]; [None] when the fuel is used up. *)
Fixpoint wait_loop (fuel : nat) (room_id : string) (deadline : Z) : M (option ()) :=
  match fuel with
  | 0 => mret None
  | S fuel =>
      now ← observe sdk_instant;
      if decide (now < deadline)%Z then
        sync_once ;;
        ready ← has_cached_keys_for_room room_id;
        if ready : bool then mret (Some ()) else wait_loop fuel room_id deadline
      else raise (KeyExchangeTimeout (cat ["Timed out waiting for key exchange in room "; room_id]))
  end.

Definition wait_for_key_exchange (fuel : nat) (room_id : string) (timeout : Duration) : M (option ()) :=
  ready ← has_cached_keys_for_room room_id;
  if ready : bool then mret (Some ()) else
  now ← observe sdk_instant;
  wait_loop fuel room_id (now + timeout).

(** [get_user_identity(..).ok_or_else(..)?.verify()]. *)
Definition verify_identity (missing user : string) : M () :=
  identity ← other (sdk_user_identity user);
  match identity with
  | None => raise (other_error missing)
  | Some _ => other (sdk_verify_identity user)
  end.
Definition verify_own_identity : M () :=
  user ← user_id;
  verify_identity "No identity found — bootstrap cross-signing first" user.
Definition verify_user (user : string) : M () :=
  verify_identity (cat ["No identity found for "; user;
    " — they may not have bootstrapped cross-signing"]) user.

Definition is_user_verified (user : string) : M bool :=
  identity ← other (sdk_user_identity user);
  mret (default false identity).

Fixpoint verified_among (users : list string) : M (list string) :=
  match users with
  | [] => mret []
  | u :: users =>
      verified ← is_user_verified u;
      rest ← verified_among users;
      mret (if verified : bool then u :: rest else rest)
  end.

Definition get_verified_user_ids_in_room (room_id : string) : M (list string) :=
  need_room room_id ;;
  members ← other (sdk_members room_id);
  verified_among members.

(** The device of a peer, unless its owner has not cross-signed it. *)
Definition trusted_device (user device_id : string) : M (option Device) :=
  devices ← other (sdk_user_devices user);
  mret (match list_find (λ d, dev_id d = device_id) devices with
        | Some (_, d) => if cross_signed_by_owner d then Some d else None
        | None => None
        end).

Definition get_peer_device_ed25519 (user device_id : string) : M (option Bytes) :=
  device ← trusted_device user device_id;
  mret (device ≫= dev_ed25519).

Definition publish_p2p_ephemeral_key (room_id device_id : string) (ephemeral_public_key : Bytes) : M () :=
  need_room room_id ;;
  need_encrypted (cat ["publish_p2p_ephemeral_key refused: room "; room_id;
    " is not E2EE — cardinal rule requires encrypted rooms (MSC4362 for state events)"]) room_id ;;
  now_ms ← observe sdk_now_ms;
  send_state_event room_id "m.mxdx.p2p.ephemeral_key" device_id
    (json_object [("ephemeral_ed25519_b64", json_string (b64_encode ephemeral_public_key));
                  ("published_at", json_number now_ms)]).

Fixpoint first_ephemeral_key (device_id : string) (events : list (string * V)) : option Bytes :=
  match events with
  | [] => None
  | (state_key, content) :: events =>
      if negb (str_eqb state_key device_id) then first_ephemeral_key device_id events else
      match get_str content "ephemeral_ed25519_b64" with
      | None => first_ephemeral_key device_id events
      | Some b64 =>
          match b64_decode b64 with
          | Err _ => first_ephemeral_key device_id events
          | Ok bytes =>
              if bool_decide (length bytes = 32) then Some bytes
              else first_ephemeral_key device_id events
          end
      end
  end.

Definition get_p2p_ephemeral_key (room_id user device_id : string) : M (option Bytes) :=
  device ← trusted_device user device_id;
  match device with
  | None => mret None
  | Some _ =>
      events ← get_state_events_cached room_id "m.mxdx.p2p.ephemeral_key";
      mret (first_ephemeral_key device_id events)
  end.
End client.

(** [MatrixClientError] into [anyhow::Error]. *)
Definition show_error : MatrixClientError string string string → string :=
  MatrixClientError_fmt (λ e, e) (λ e, e) (λ e, e).
Definition mx {W A} (m : Io W (MatrixClientError string string string) A) : Io W string A := io_map_err show_error m.

Lemma mx_returns {W A} (m : Io W (MatrixClientError string string string) A) w x w' :
  mx m w = (Returns x, w') ↔ m w = (Returns x, w').
Proof. unfold mx, io_map_err. by destruct (m w) as [[]]; split; intros; simplify_eq. Qed.
