(* ===== verification/Toys.v ===== *)
(** * Toys: small instances of the interfaces, for the witnesses

    JSON as trees that are written as bytes and read back, and a server of a
    few pages behind a Matrix SDK that knows every room. *)
From stdpp Require Import countable.
From S2P Require Import Prelude Text Json P2PCrypto MatrixTypes Effects Rest MatrixClient.
From stdpp Require Import options.

(** ** Any countable type can be written as bytes *)
Fixpoint pos_bytes (p : positive) : Bytes :=
  match p with
  | xH => []
  | xO p => Byte.x00 :: pos_bytes p
  | xI p => Byte.x01 :: pos_bytes p
  end.
Fixpoint bytes_pos (l : Bytes) : positive :=
  match l with
  | [] => xH
  | Byte.x00 :: l => xO (bytes_pos l)
  | _ :: l => xI (bytes_pos l)
  end.
Lemma bytes_pos_bytes p : bytes_pos (pos_bytes p) = p.
Proof. induction p; simpl; congruence. Qed.

(** ** JSON *)
Abbreviation TJson := (gen_tree (string + Z)) (only parsing).
Definition TStr (s : string) : TJson := GenLeaf (inl s).
Definition TNum (z : Z) : TJson := GenLeaf (inr z).
Definition TArr (l : list TJson) : TJson := GenNode 0 l.
Definition TObj (l : list (string * TJson)) : TJson :=
  GenNode 1 ((λ kv, GenNode 2 [GenLeaf (inl kv.1); kv.2]) <$> l).
Definition TNull : TJson := GenNode 3 [].
Definition TBool (b : bool) : TJson := GenNode (if b then 4 else 5) [].

Definition t_field (t : TJson) : option (string * TJson) :=
  match t with GenNode 2 [GenLeaf (inl k); v] => Some (k, v) | _ => None end.
Definition t_fields (t : TJson) : option (list (string * TJson)) :=
  match t with GenNode 1 l => Some (omap t_field l) | _ => None end.
Definition t_get (t : TJson) (k : string) : option TJson :=
  l ← t_fields t; snd <$> List.find (λ kv, str_eqb kv.1 k) l.

Definition t_print (t : TJson) : string := from_bytes (pos_bytes (encode t)).
Definition t_parse (s : string) : result TJson string :=
  match decode (bytes_pos (as_bytes s)) with Some t => Ok t | None => Err "bad json" end.
Lemma t_parse_print t : t_parse (t_print t) = Ok t.
Proof. unfold t_parse, t_print. by rewrite as_bytes_from_bytes, bytes_pos_bytes, decode_encode. Qed.

Lemma t_fields_obj l : t_fields (TObj l) = Some l.
Proof.
  unfold TObj, t_fields. f_equal. induction l as [|[k v] l IH]; [done|]. cbn. by f_equal.
Qed.

Definition toy_json : JsonValue TJson := {|
  from_str := t_parse; get := t_get;
  as_str t := match t with GenLeaf (inl s) => Some s | _ => None end;
  json_null := TNull |}.
Definition toy_u64 : JsonU64 TJson := λ t, match t with GenLeaf (inr z) => Some z | _ => None end.
Definition toy_containers : JsonContainers TJson := {|
  as_array t := match t with GenNode 0 l => Some l | _ => None end;
  null_or_empty t := match t with GenNode 1 (_ :: _) => false | _ => true end |}.
Definition toy_build : JsonBuild TJson := {|
  json_string := TStr; json_array := TArr; json_object := TObj;
  as_bool t := match t with GenNode 4 [] => Some true | GenNode 5 [] => Some false | _ => None end;
  object_keys t := map fst <$> t_fields t |}.
Definition toy_numbers : JsonNumbers TJson := {|
  json_number := TNum; json_bool := TBool; as_object := t_fields;
  is_null t := match t with GenNode 3 [] => true | _ => false end |}.

Definition toy_externals : RestExternals := {|
  parse_room_id := Ok; url_encode s := s; show_status := show; serde_type_error := "not a list" |}.

(** ** A server of pages *)
Record ToyWorld := mkToy {
  pages : gmap string TJson;                (* what a GET of a URL returns *)
  events : gmap (string * string) TJson }.  (* the state of the one room *)

Definition state_page : string := "h/_matrix/client/v3/rooms/!s/state".
Definition event_page (ty key : string) : string := cat [state_page; "/"; ty; "/"; key].
Definition event_json (e : (string * string) * TJson) : TJson :=
  TObj [("type", TStr e.1.1); ("state_key", TStr e.1.2); ("content", e.2)].

Definition toy_page (w : ToyWorld) (u : string) : option TJson :=
  if str_eqb u state_page then Some (TArr (event_json <$> map_to_list (events w))) else pages w !! u.

Definition toy_http : HttpServer ToyWorld TJson := λ r w,
  (Ok (match toy_page w (url r) with
       | Some body => mkResponse 200 (t_print body)
       | None => mkResponse 404 (t_print (TObj [("errcode", TStr "M_NOT_FOUND")]))
       end), w).

Lemma toy_http_laws : @HttpLaws ToyWorld TJson toy_http.
Proof. done. Qed.

Definition toy_put (ty key : string) (v : TJson) (w : ToyWorld) : ToyWorld :=
  mkToy (<[event_page ty key := v]> (pages w)) (<[(ty, key) := v]> (events w)).

(** ** An SDK
    Every operation succeeds; the room [!s] is encrypted, the others are not.
    What there is to read is a parameter, and so is the outside. *)
Record Feed (W : Type) := mkFeed {
  feed_instant : W → Z;
  feed_put : string → string → TJson → W → W;
  feed_sync : Io W string (list (string * list string));
  feed_messages : list string;
  feed_state : list RawState;
  feed_devices : list Device }.
Arguments mkFeed {W}.
Arguments feed_instant {W} f.
Arguments feed_put {W} f.
Arguments feed_sync {W} f.
Arguments feed_messages {W} f.
Arguments feed_state {W} f.
Arguments feed_devices {W} f.

Definition toy_sdk_sending {W} (send : string → string → TJson → W → W) (f : Feed W) : MatrixSdk W TJson := {|
  sdk_user_id _ := Some "@w:x"; sdk_device_id _ := Some "DEV"; sdk_server_name _ := "x";
  sdk_access_token _ := Some "t"; sdk_homeserver _ := "h/"; sdk_get_room _ _ := true;
  sdk_is_encrypted r _ := str_eqb r "!s"; sdk_joined_members_count _ _ := 2%Z;
  sdk_joined_rooms _ := [("!s", None)]; sdk_now_ms w := (1000 + feed_instant f w / 1000000)%Z; sdk_instant := feed_instant f;
  sdk_create_room _ _ := mret (Some "!s"); sdk_join_room_by_id _ := mret (); sdk_invite_user_by_id _ _ := mret ();
  sdk_leave _ := mret (); sdk_forget _ := mret (); sdk_send_raw room ty content := λ w, (Returns "$1", send room ty content w);
  sdk_send_state_event_raw _ ty key v := λ w, (Returns (), feed_put f ty key v w);
  sdk_send_encrypted _ _ := mret "$1"; sdk_sync_once _ := feed_sync f;
  sdk_messages _ := mret (feed_messages f); sdk_get_state_events _ _ := mret (feed_state f);
  sdk_decrypt_event _ _ := raise "no key"; sdk_sync_members _ := mret ();
  sdk_members _ := mret []; sdk_user_devices _ := mret (feed_devices f); sdk_user_identity _ := mret None;
  sdk_verify_identity _ := mret (); sdk_encrypt_room_event _ _ _ := mret []; sdk_olm_ready _ := true;
  sdk_parse_encrypted b := Ok b |}.
Definition toy_sdk_with {W} (f : Feed W) : MatrixSdk W TJson := toy_sdk_sending (λ _ _ _ w, w) f.

Definition toy_sdk : MatrixSdk ToyWorld TJson :=
  toy_sdk_with (mkFeed (λ _, 0%Z) toy_put (mret []) [] [] []).

(** An outside that is nothing but a clock. *)
Definition clock_feed : Feed Z :=
  mkFeed id (λ _ _ _ z, z) (λ z, (Returns [], (z + 1)%Z)) [] [] [].
