(* ===== verification/MatrixDelivery.v ===== *)
(** * MatrixDelivery: what the Matrix client sends, delivers and believes

    The theorems about [MatrixClient]: nothing private leaves for a room that
    is not encrypted, a sync loses and repeats no event, a wait for keys ends,
    and what a client takes a worker to be whose telemetry it cannot read. *)
From S2P Require Import Prelude Text Json Instants Liveness P2PCrypto MatrixTypes Effects Rest WorkerClock MatrixClient Toys.
From stdpp Require Import options.

(** ** Documented behaviour of [serde_json] *)
(** An object that is built answers its fields; values read back. *)
Class JsonLaws (V : Type) `{JsonValue V} `{JsonU64 V} `{JsonContainers V} `{JsonBuild V}
    `{JsonNumbers V} : Prop := {
  get_object l k (v : V) : NoDup l.*1 → (k, v) ∈ l → get (json_object l) k = Some v;
  as_str_string s : as_str (json_string s) = Some s;
  as_u64_number n : (0 ≤ n < 2 ^ 64)%Z → Json.as_u64 (json_number n) = Some n;
  as_array_array l : as_array (json_array l) = Some l;
  object_not_empty l : l ≠ [] → null_or_empty (json_object l) = false;
}.

Section theory.
Context {W V : Type} `{MatrixSdk W V} `{JsonValue V} `{JsonU64 V} `{JsonBuild V} `{JsonContainers V}
  `{JsonNumbers V} `{HttpServer W V} `{RestExternals} `{Base64}.

(** *** Refusals *)

(** The operation fails and leaves the outside as it is: nothing is sent. *)
Definition refused {A} (m : Io W (MatrixClientError string string string) A) (w : W) : Prop :=
  ∃ e, m w = (Raises e, w).

Lemma refused_bind {A B} (m : Io W (MatrixClientError string string string) A)
    (k : A → Io W (MatrixClientError string string string) B) w :
  refused m w → refused (x ← m; k x) w.
Proof. intros [e He]. exists e. unfold mbind, Io_bind. by rewrite He. Qed.

Lemma need_room_some {A} room (k : Io W (MatrixClientError string string string) A) w :
  sdk_get_room room w = true → (need_room room ;; k) w = k w.
Proof.
  intros E. unfold need_room, mbind, Io_bind, observe. by rewrite E.
Qed.
Lemma need_room_none {A} room (k : Io W (MatrixClientError string string string) A) w :
  sdk_get_room room w = false → refused (need_room room ;; k) w.
Proof. intros E. exists (RoomNotFound room). unfold need_room, mbind, Io_bind, observe. by rewrite E. Qed.
Lemma need_encrypted_some {A} msg room (k : Io W (MatrixClientError string string string) A) w :
  sdk_is_encrypted room w = true → (need_encrypted msg room ;; k) w = k w.
Proof. intros E. unfold need_encrypted, mbind, Io_bind, observe. by rewrite E. Qed.
Lemma need_encrypted_none {A} msg room (k : Io W (MatrixClientError string string string) A) w :
  sdk_is_encrypted room w = false → refused (need_encrypted msg room ;; k) w.
Proof. intros E. eexists. unfold need_encrypted, mbind, Io_bind, observe. by rewrite E. Qed.

(** The two checks in a row. *)
Lemma guarded_refused {A} msg room (k : Io W (MatrixClientError string string string) A) w :
  sdk_get_room room w && sdk_is_encrypted room w = false →
  refused (need_room room ;; (need_encrypted msg room ;; k)) w.
Proof.
  intros E. apply andb_false_iff in E. destruct (sdk_get_room room w) eqn:Er.
  - destruct E as [?|E]; [done|]. destruct (need_encrypted_none msg room k w E) as [e He].
    exists e. by rewrite need_room_some.
  - by apply need_room_none.
Qed.
Lemma guarded_passes {A} msg room (k : Io W (MatrixClientError string string string) A) w :
  sdk_get_room room w && sdk_is_encrypted room w = true →
  (need_room room ;; (need_encrypted msg room ;; k)) w = k w.
Proof. intros [Hr He]%andb_true_iff. by rewrite need_room_some, need_encrypted_some. Qed.

(** *** Collecting events *)

(** An event of a timeline that a caller is to get. *)
Definition deliverable (raw : string) : option V :=
  match from_str raw with
  | Ok json => if decide (decision json = Deliver) then Some json else None
  | Err _ => None
  end.
Definition undecryptable (raw : string) : bool :=
  match from_str raw with Ok json => bool_decide (decision json = Encrypted) | Err _ => false end.
Definition event_id (json : V) : option string := get_str json "event_id".

Lemma collect_inline_all raws acc :
  let r := foldl collect_inline acc raws in
  collected r = collected acc ++ omap deliverable raws ∧
  (∀ i, i ∈ seen_ids r ↔ i ∈ seen_ids acc ∨ i ∈ omap event_id (omap deliverable raws)) ∧
  saw_encrypted r = saw_encrypted acc || existsb undecryptable raws.
Proof.
  revert acc. induction raws as [|raw raws IH]; intros acc.
  { simpl. rewrite app_nil_r, orb_false_r. set_solver. }
  simpl. destruct (IH (collect_inline acc raw)) as (Hc & Hs & He).
  rewrite Hc, He. unfold collect_inline, deliverable, undecryptable in *.
  destruct (from_str raw) as [json|]; [|done].
  destruct (decision json) eqn:Ed; simpl in *.
  - by rewrite orb_true_r.
  - done.
  - rewrite <-app_assoc. split; [done|]. split; [|done]. intros i. rewrite Hs.
    fold (event_id json). destruct (event_id json); set_solver.
Qed.

(** What the second pass adds to what the first found. *)
Lemma collect_fallback_all raws acc :
  ∃ fresh,
    collected (foldl collect_fallback acc raws) = collected acc ++ fresh ∧
    fresh `sublist_of` omap deliverable raws ∧
    NoDup (omap event_id fresh) ∧
    (∀ i, i ∈ omap event_id fresh → i ∉ seen_ids acc) ∧
    (∀ json, json ∈ omap deliverable raws →
       match event_id json with
       | Some i => i ∈ seen_ids acc ∨ i ∈ omap event_id fresh
       | None => json ∈ fresh
       end).
Proof.
  revert acc. induction raws as [|raw raws IH]; intros acc.
  { exists []. rewrite app_nil_r. split_and!; try done; [constructor|set_solver..]. }
  simpl. destruct (IH (collect_fallback acc raw)) as (fresh & -> & Hsub & Hnd & Hnew & Hall).
  unfold collect_fallback, deliverable in *. destruct (from_str raw) as [json|].
  2: { exists fresh. by split_and!. }
  destruct (decision json) eqn:Ed; simpl; try (exists fresh; by split_and!).
  fold (event_id json) in *. destruct (event_id json) as [i|] eqn:Ei.
  - destruct (decide (i ∈ seen_ids acc)) as [Hi|Hi]; simpl in *.
    + exists fresh. split_and!; try done; [by constructor|].
      intros j [->|Hj]%elem_of_cons; [|by apply Hall]. rewrite Ei. by left.
    + exists (json :: fresh). rewrite <-app_assoc. split; [done|]. simpl. rewrite Ei.
      split_and!; [by constructor|constructor; [|done]| |].
      * intros Hf. apply (Hnew i Hf). set_solver.
      * intros j [->|Hj]%elem_of_cons; [done|]. specialize (Hnew j Hj). set_solver.
      * intros j [->|Hj]%elem_of_cons.
        { rewrite Ei. right. apply list_elem_of_here. }
        specialize (Hall j Hj). destruct (event_id j); set_solver.
  - simpl in *. exists (json :: fresh). rewrite <-app_assoc. split; [done|]. simpl. rewrite Ei.
    split_and!; try done; [by constructor|].
    intros j [->|Hj]%elem_of_cons; [rewrite Ei; apply list_elem_of_here|].
    specialize (Hall j Hj). destruct (event_id j); set_solver.
Qed.

(** *** Waiting for keys *)

(** The end of a loop, and the question that it ended on. *)
Definition found_ready (room_id : string) (o : outcome (option ()) (MatrixClientError string string string))
    (w : W) : Prop :=
  match o with
  | Returns None => False
  | Returns (Some ()) => ∃ w0, has_cached_keys_for_room room_id w0 = (Returns true, w)
  | _ => True
  end.

Section clock.
(** The clock does not go back, and a sync takes time. *)
Hypothesis sync_takes_time : ∀ settings w o w',
  sdk_sync_once settings w = (o, w') → (sdk_instant w < sdk_instant w')%Z.
Hypothesis members_clock : ∀ room w o w', sdk_members room w = (o, w') → (sdk_instant w ≤ sdk_instant w')%Z.
Hypothesis devices_clock : ∀ user w o w',
  sdk_user_devices user w = (o, w') → (sdk_instant w ≤ sdk_instant w')%Z.

Lemma all_have_devices_clock users w o w' :
  all_have_devices users w = (o, w') → (sdk_instant w ≤ sdk_instant w')%Z.
Proof using Type*.
  revert w. induction users as [|u users IH]; intros w; simpl; [by intros [= <- <-]|].
  intros [(ds & w1 & Hd & Hr)|[(e & _ & Hd)|[_ Hd]]]%io_bind_inv;
    apply io_map_err_inv in Hd as (od & Hd & _); apply devices_clock in Hd; [|done..].
  case_bool_decide; [by injection Hr as <- <-|]. apply IH in Hr. lia.
Qed.

Lemma has_cached_keys_clock room w o w' :
  has_cached_keys_for_room room w = (o, w') → (sdk_instant w ≤ sdk_instant w')%Z.
Proof using Type*.
  unfold has_cached_keys_for_room. rewrite io_bind_observe.
  destruct (sdk_get_room room w); simpl; [|by intros [= <- <-]]. rewrite io_bind_observe.
  destruct (sdk_is_encrypted room w); simpl; [|by intros [= <- <-]].
  intros [(ms & w1 & Hm & Hr)|[(e & _ & Hm)|[_ Hm]]]%io_bind_inv;
    apply io_map_err_inv in Hm as (om & Hm & _); apply members_clock in Hm; [|done..].
  destruct (length ms <=? 1); [by injection Hr as <- <-|].
  apply all_have_devices_clock in Hr. lia.
Qed.

Lemma wait_loop_ends fuel room deadline w :
  Z.to_nat (deadline - sdk_instant w) < fuel →
  let '(o, w') := wait_loop fuel room deadline w in found_ready room o w'.
Proof using Type*.
  revert w. induction fuel as [|fuel IH]; intros w Hf; [lia|]. simpl.
  unfold mbind at 1, Io_bind at 1, observe. cbn beta iota. case_decide as Hd; [|done].
  unfold mbind at 1, Io_bind at 1, sync_once, mbind at 1, Io_bind at 1, io_map_err.
  destruct (sdk_sync_once _ w) as [os w1] eqn:Es. pose proof (sync_takes_time _ _ _ _ Es) as Ht.
  destruct os as [?|?|]; try done. simpl. unfold mbind at 1, Io_bind at 1.
  destruct (has_cached_keys_for_room room w1) as [ok w2] eqn:Ek.
  pose proof (has_cached_keys_clock _ _ _ _ Ek) as Hk.
  destruct ok as [[]|?|]; try done; [by exists w1|]. apply IH. lia.
Qed.
End clock.

(** *** Telemetry that cannot be read *)
(** The key of a telemetry event is prefixed with its type. *)
Lemma strip_telemetry_key event_type key :
  strip_prefix (as_bytes (cat [event_type; ":"])) (as_bytes (cat [event_type; ":"; key]))
  = Some (as_bytes key).
Proof.
  apply strip_prefix_Some. unfold cat. simpl. rewrite !as_bytes_append. simpl.
  change (as_bytes "") with (@nil Corelib.Init.Byte.byte). by rewrite app_nil_r, <-app_assoc.
Qed.

(** Milliseconds as a day, a time of day and a rest. *)
Lemma rest_timestamp_text ts :
  (0 ≤ ts)%Z → ((date_at (ts / 1000)).1.1 ≤ 9999)%Z →
  parse_iso8601_to_epoch_ms (rest_timestamp ts) = Some (Some ts).
Proof.
  intros Hpos Hyear. set (secs := (ts / 1000)%Z) in *.
  assert (Hsecs : (0 ≤ secs ∧ ts = secs * 1000 + ts mod 1000 ∧ 0 ≤ ts mod 1000 ≤ 999)%Z)
    by (subst secs; Z.to_euclidean_division_equations; lia).
  destruct Hsecs as (Hs0 & Hts & Hms). set (ms := (ts mod 1000)%Z) in *.
  destruct (split_secs secs Hs0) as (h & mi & s & E & Hh & Hmi & Hs).
  unfold date_at in Hyear. set (n := Z.to_nat _) in *. clearbody n.
  unfold rest_timestamp. fold secs ms. clearbody secs ms. cbv zeta.
  assert (secs / 86400 = Z.of_nat n)%Z as -> by (Z.to_euclidean_division_equations; lia).
  assert (secs mod 86400 = h * 3600 + mi * 60 + s)%Z as -> by (Z.to_euclidean_division_equations; lia).
  assert ((h * 3600 + mi * 60 + s) / 3600 = h)%Z as -> by (Z.to_euclidean_division_equations; lia).
  assert ((h * 3600 + mi * 60 + s) mod 3600 / 60 = mi)%Z as ->
    by (Z.to_euclidean_division_equations; lia).
  assert ((h * 3600 + mi * 60 + s) mod 60 = s)%Z as -> by (Z.to_euclidean_division_equations; lia).
  rewrite days_to_ymd_civil by lia. pose proof (civil_valid n) as Hv.
  pose proof (days_civil n) as Hn. destruct (civil n) as [[y m] d].
  pose proof Hv as (Hy & Hm & Hd). cbn [fst] in Hyear. specialize (Hn y m d eq_refl ltac:(lia)).
  pose proof (days_in_month_bound y m). rewrite !format_padded_small by (done || lia).
  pose proof (iso_text_parses y m d _ h mi s ms Hv Hyear Hn ltac:(lia) Hh Hmi ltac:(lia) Hms) as Hp.
  unfold iso_text in Hp. rewrite <-app_assoc in Hp. cbn [app] in Hp.
  rewrite <-app_assoc in Hp. cbn [app] in Hp.
  etrans; [|etrans; [exact Hp|]]; [|do 2 f_equal; lia].
  by f_equal.
Qed.

(** ** Properties *)

(** C9: the cardinal rule. A call event, an event to encrypt, ciphertext and
    an ephemeral key are refused for a room that the client does not know or
    that is not encrypted: the operation fails and nothing is sent. In an
    encrypted room a call event is sent as it is, if its type is a call's, and
    any bytes as ciphertext that parse as such. A custom event, a thread reply
    and a state event are sent to every room that is known, encrypted or not. *)
Theorem cardinal_rule room (w : W) :
  (sdk_get_room room w && sdk_is_encrypted room w = false →
   (∀ ty (content : V), refused (send_call_event room ty content) w ∧
                        refused (encrypt_for_room room ty content) w) ∧
   (∀ ty payload, refused (send_megolm room ty payload) w) ∧
   (∀ device key, refused (publish_p2p_ephemeral_key room device key) w)) ∧
  (sdk_get_room room w && sdk_is_encrypted room w = true →
   (∀ ty (content : V), send_call_event room ("m.call." +:+ ty) content w
      = io_map_err Sdk (sdk_send_raw room ("m.call." +:+ ty) content) w) ∧
   (∀ ty payload content, sdk_parse_encrypted payload = Ok content →
      send_megolm room ty payload w = io_map_err Other (sdk_send_encrypted room content) w)) ∧
  (sdk_get_room room w = true →
   ∀ (payload : V) ty key,
     send_event room payload w
     = io_map_err Sdk (sdk_send_raw room (default "org.mxdx.unknown" (get_str payload "type"))
         (default json_null (get payload "content"))) w ∧
     send_state_event room ty key payload w
     = io_map_err Sdk (sdk_send_state_event_raw room ty key payload) w).
Proof.
  split_and!; intros E; [split_and!|split|].
  - intros ty content. unfold send_call_event, encrypt_for_room. split; [|by apply guarded_refused].
    destruct (negb _); [by eexists|by apply guarded_refused].
  - intros ty payload. unfold send_megolm. by apply guarded_refused.
  - intros device key. unfold publish_p2p_ephemeral_key. by apply guarded_refused.
  - intros ty content. unfold send_call_event.
    assert (starts_with (as_bytes "m.call.") (as_bytes ("m.call." +:+ ty)) = true) as ->.
    { apply starts_with_true. exists (as_bytes ty). apply as_bytes_append. }
    simpl. by rewrite guarded_passes.
  - intros ty payload content Hp. unfold send_megolm. rewrite guarded_passes by done.
    by rewrite Hp.
  - intros payload ty key. unfold send_event, send_state_event. by rewrite !need_room_some.
Qed.

(** C13: what a sync delivers. All the events of the room's timeline that are
    for a consumer are delivered, in their order. When one of the timeline
    could not be decrypted, the latest messages of the room follow: those for
    a consumer that were not delivered already, each id once. If the messages
    cannot be fetched, what could not be decrypted is dropped, and the call
    succeeds all the same. *)
Theorem sync_delivers room timeout (w : W) joined w1 :
  sdk_sync_once (mkSync timeout false) w = (Returns joined, w1) →
  let inline := omap deliverable (timeline room joined) in
  if existsb undecryptable (timeline room joined) then
    ∀ again w2, attempt (sdk_sync_once (mkSync (from_secs 2) false)) w1 = (Returns again, w2) →
    sdk_get_room room w2 = true →
    match sdk_messages room w2 with
    | (Returns chunk, w3) =>
        ∃ fresh, sync_and_collect_events room timeout w = (Returns (inline ++ fresh), w3) ∧
          fresh `sublist_of` omap deliverable chunk ∧
          NoDup (omap event_id fresh) ∧
          (∀ i, i ∈ omap event_id fresh → i ∉ omap event_id inline) ∧
          (∀ json, json ∈ omap deliverable chunk →
             match event_id json with
             | Some i => i ∈ omap event_id (inline ++ fresh)
             | None => json ∈ fresh
             end)
    | (Raises _, w3) => sync_and_collect_events room timeout w = (Returns inline, w3)
    | (Panics, w3) => sync_and_collect_events room timeout w = (Panics, w3)
    end
  else sync_and_collect_events room timeout w = (Returns inline, w1).
Proof.
  intros Hs inline. unfold sync_and_collect_events.
  assert (Hs' : io_map_err (F := MatrixClientError string string string) Sdk
            (sdk_sync_once (mkSync timeout false)) w = (Returns joined, w1))
    by (unfold io_map_err; by rewrite Hs).
  destruct (collect_inline_all (timeline room joined) (mkCollected [] ∅ false)) as (Hc & Hi & He).
  cbn [collected seen_ids saw_encrypted app orb] in Hc, Hi, He. fold inline in Hc, Hi.
  destruct (existsb _ _).
  2: { rewrite (io_bind_step _ _ _ _ _ Hs'), He, Hc. done. }
  intros again w2 Ha Hr. rewrite (io_bind_step _ _ _ _ _ Hs'), He.
  assert (Ha' : ∃ again', attempt (io_map_err (F := MatrixClientError string string string) Sdk
            (sdk_sync_once (mkSync (from_secs 2) false))) w1 = (Returns again', w2)).
  { revert Ha. unfold attempt, io_map_err. destruct (sdk_sync_once _ w1) as [[]];
      intros; simplify_eq; by eexists. }
  destruct Ha' as [again' Ha']. rewrite (io_bind_step _ _ _ _ _ Ha'), io_bind_observe, Hr.
  unfold mbind, Io_bind, attempt, io_map_err.
  destruct (sdk_messages room w2) as [[chunk|e|] w3]; [|by rewrite Hc|done].
  set (acc := foldl collect_inline _ _) in *.
  destruct (collect_fallback_all chunk acc) as (fresh & Hf & Hsub & Hnd & Hnew & Hall).
  exists fresh. rewrite Hf, Hc. split_and!; try done.
  - intros i Hin Hin'. apply (Hnew i Hin), Hi. by right.
  - intros json Hj. specialize (Hall json Hj). destruct (event_id json) as [i|]; [|done].
    rewrite omap_app, elem_of_app. destruct Hall as [Hold|]; [left|by right].
    apply Hi in Hold. set_solver.
Qed.

(** The date made of a server timestamp reads back, to the millisecond,
    up to the year 9999; and a worker whose telemetry is encrypted counts as
    online, for any command, for the two minutes after the event, whatever it
    says, and as stale afterwards. *)
Theorem encrypted_worker_online `{!JsonLaws V} event_type (event : V) key ts now_ms cmd :
  get_str event "type" = Some "m.room.encrypted" → event_type ≠ "m.room.encrypted" →
  get_str event "state_key" = Some (cat [event_type; ":"; key]) →
  get_uint event "origin_server_ts" = Some ts → (0 < ts)%Z →
  ((date_at (ts / 1000)).1.1 ≤ 9999)%Z →
  parse_iso8601_to_epoch_ms (rest_timestamp ts) = Some (Some ts) ∧
  ∃ telemetry,
    telemetry_event event_type event = Some (key, telemetry) ∧
    check_worker_liveness now_ms telemetry
    = Some (if decide (now_ms - ts ≤ 120000)%Z then Online [] else Stale (from_millis (now_ms - ts))) ∧
    ((now_ms - ts ≤ 120000)%Z →
     find_capable_worker cmd (λ _, now_ms) [(key, telemetry)] = Some (Some [])).
Proof.
  intros Hty Hne Hkey Hts Hpos Hyear.
  pose proof (rest_timestamp_text ts ltac:(lia) Hyear) as Hparse. split; [done|].
  exists (synthetic_telemetry ts).
  assert (Hlive : check_worker_liveness now_ms (synthetic_telemetry ts)
    = Some (if decide (now_ms - ts ≤ 120000)%Z then Online [] else Stale (from_millis (now_ms - ts)))).
  { unfold check_worker_liveness, synthetic_telemetry, get_str, get_uint.
    rewrite object_not_empty by done.
    set (fields := [_; _; _; _; _]).
    assert (Hnd : NoDup fields.*1) by (vm_compute; repeat constructor; set_solver).
    assert (Hf : ∀ k v, (k, v) ∈ fields → get (json_object fields) k = Some v)
      by (intros; by apply get_object).
    rewrite (Hf "status" (json_string "online")) by (unfold fields; set_solver).
    rewrite (Hf "timestamp" (json_string (from_bytes (rest_timestamp ts)))) by (unfold fields; set_solver).
    rewrite (Hf "heartbeat_interval_ms" (json_number 60000)) by (unfold fields; set_solver).
    rewrite (Hf "capabilities" (json_array [])) by (unfold fields; set_solver).
    cbn [mbind option_bind]. rewrite !as_str_string, as_u64_number, as_array_array by lia.
    rewrite as_bytes_from_bytes, Hparse. cbn [mbind option_bind default].
    change (str_eqb "online" "offline") with false. cbv iota.
    change (Liveness.as_u64 (2 * id 60000%Z)) with 120000%Z. unfold saturating_sub.
    destruct (decide (now_ms - ts ≤ 120000)%Z).
    - by rewrite decide_False by lia.
    - rewrite decide_True by lia. by rewrite Z.max_r by lia. }
  split_and!.
  - unfold telemetry_event. rewrite Hty, Hkey. cbn [from_option id].
    replace (str_eqb "m.room.encrypted" event_type) with false
      by (symmetry; apply str_eqb_false; congruence).
    rewrite strip_telemetry_key, str_eqb_refl, Hts. cbn [from_option id].
    rewrite decide_False by lia. by rewrite from_bytes_as_bytes.
  - exact Hlive.
  - intros Hage. cbn [find_capable_worker]. rewrite Hlive, decide_True by done. done.
Qed.

(** Whose key a peer's is taken to be. A key is found exactly when the
    device is the user's, cross-signed by its owner, and some state event
    under the device's id holds 32 bytes: the first one is returned. That the
    device or the user sent the event is not asked. *)
Theorem ephemeral_key_exact room user device (w : W) devices w1 :
  sdk_user_devices user w = (Returns devices, w1) →
  get_p2p_ephemeral_key (V := V) room user device w =
  match snd <$> list_find (λ d, dev_id d = device) devices with
  | Some d =>
      if cross_signed_by_owner d then
        match get_state_events_cached room "m.mxdx.p2p.ephemeral_key" w1 with
        | (Returns events, w2) =>
            (Returns (head (omap (λ e : string * V,
               if decide (e.1 = device) then
                 b64 ← get_str e.2 "ephemeral_ed25519_b64";
                 match b64_decode b64 with
                 | Ok bytes => if decide (length bytes = 32) then Some bytes else None
                 | Err _ => None
                 end
               else None) events)), w2)
        | (Raises e, w2) => (Raises e, w2)
        | (Panics, w2) => (Panics, w2)
        end
      else (Returns None, w1)
  | None => (Returns None, w1)
  end.
Proof.
  intros Hd. unfold get_p2p_ephemeral_key, trusted_device, mbind, Io_bind, io_map_err.
  rewrite Hd. simpl. destruct (list_find _ devices) as [[i d]|]; simpl; [|done].
  destruct (cross_signed_by_owner d); [|done].
  destruct (get_state_events_cached _ _ w1) as [[events|e|] w2]; [|done..].
  f_equal. unfold mret, Io_ret. f_equal. f_equal. induction events as [|[k c] events IH]; [done|]. simpl.
  destruct (decide (k = device)) as [->|Hk].
  - rewrite str_eqb_refl. simpl. destruct (get_str c _) as [b64|]; simpl; [|done].
    destruct (b64_decode b64) as [bytes|]; [|done]. unfold bool_decide.
    by destruct (decide_rel (=) (length bytes) 32); destruct (decide _).
  - replace (str_eqb k device) with false by (symmetry; by apply str_eqb_false). done.
Qed.

(** A wait for keys ends. If the clock does not go back and every sync
    takes time, a wait of [timeout] nanoseconds is over after at most that
    many rounds, with the keys found, an error or the timeout. *)
Theorem key_wait_ends room timeout (w : W) :
  (∀ settings w o w', sdk_sync_once settings w = (o, w') → (sdk_instant w < sdk_instant w')%Z) →
  (∀ room w o w', sdk_members room w = (o, w') → (sdk_instant w ≤ sdk_instant w')%Z) →
  (∀ user w o w', sdk_user_devices user w = (o, w') → (sdk_instant w ≤ sdk_instant w')%Z) →
  let '(o, w') := wait_for_key_exchange (S (Z.to_nat timeout)) room timeout w in found_ready room o w'.
Proof using All.
  intros Hs Hm Hd. unfold wait_for_key_exchange. unfold mbind at 1, Io_bind at 1.
  destruct (has_cached_keys_for_room room w) as [[[]|e|] w1] eqn:Ek; [by exists w| |done..].
  rewrite io_bind_observe. apply wait_loop_ends; try done. lia.
Qed.
End theory.

(** ** Witnesses *)
#[local] Existing Instances toy_json toy_u64 toy_containers toy_build toy_numbers toy_externals
  toy_http toy_base64.

Lemma toy_json_laws : JsonLaws TJson.
Proof.
  split; try done.
  - intros l k v Hnd Hin. simpl. unfold t_get. rewrite t_fields_obj. simpl.
    induction l as [|[k' v'] l IH]; [by apply elem_of_nil in Hin|]. apply NoDup_cons in Hnd as [Hk Hnd].
    simpl. apply elem_of_cons in Hin as [[= <- <-]|Hin]; [by rewrite str_eqb_refl|].
    replace (str_eqb k' k) with false; [by apply IH|]. symmetry. apply str_eqb_false.
    intros ->. apply Hk. apply list_elem_of_fmap. by exists (k, v).
  - intros l Hl. by destruct l.
Qed.

(** An encrypted room takes a call event, a public one does not. *)
Lemma cardinal_rule_witness :
  let w := mkToy ∅ ∅ in
  send_call_event (H := toy_sdk) "!s" "m.call.invite" TNull w = (Returns "$1", w) ∧
  refused (send_call_event (H := toy_sdk) "!p" "m.call.invite" TNull) w.
Proof.
  intros w. split.
  - exact (proj1 ((proj1 (proj2 (cardinal_rule (H := toy_sdk) "!s" w))) eq_refl) "invite" TNull).
  - exact (proj1 (proj1 ((proj1 (cardinal_rule (H := toy_sdk) "!p" w)) eq_refl) "m.call.invite" TNull)).
Defined.

(** A timeline with an output and one that cannot be decrypted yet; the
    messages of the room hold the two, decrypted, and a member event. *)
Definition toy_event (ty id : string) : string := t_print (TObj [("type", TStr ty); ("event_id", TStr id)]).
Definition toy_timeline : Feed ToyWorld :=
  mkFeed (λ _, 0%Z) toy_put (mret [("!s", [toy_event "out" "$1"; toy_event "m.room.encrypted" "$2"])])
    [toy_event "m.room.member" "$3"; toy_event "out" "$2"; toy_event "out" "$1"] [] [].

Lemma sync_delivers_witness :
  ∃ inline fresh w,
    sync_and_collect_events (H := toy_sdk_with toy_timeline) "!s" 0 w = (Returns (inline ++ fresh), w) ∧
    omap event_id inline = ["$1"] ∧ omap event_id (inline ++ fresh) = ["$1"; "$2"].
Proof.
  set (w := mkToy ∅ ∅).
  pose proof (sync_delivers (H := toy_sdk_with toy_timeline) "!s" 0 w _ w eq_refl) as Hs.
  cbv zeta in Hs.
  assert (existsb undecryptable (timeline "!s" [("!s", [toy_event "out" "$1"; toy_event "m.room.encrypted" "$2"])])
          = true) as E by (vm_compute; reflexivity).
  rewrite E in Hs. destruct (Hs _ w eq_refl eq_refl) as (fresh & Hr & Hsub & Hnd & Hnew & Hall).
  eexists _, fresh, w. split; [exact Hr|]. split; [vm_compute; reflexivity|].
  assert (Hin : omap event_id (omap deliverable (timeline "!s"
            [("!s", [toy_event "out" "$1"; toy_event "m.room.encrypted" "$2"])])) = ["$1"])
    by (vm_compute; reflexivity).
  rewrite omap_app, Hin in *.
  assert (Hf : omap event_id fresh = ["$2"]).
  { revert Hr. vm_compute. intros [= <-]. reflexivity. }
  by rewrite Hf.
Defined.

(** A key under the id of a signed device is taken, whoever put it there. *)
Definition toy_keys : Feed ToyWorld :=
  mkFeed (λ _, 0%Z) toy_put (mret []) []
    [RawSync (t_print (TObj [("state_key", TStr "DEV2"); ("sender", TStr "@mallory:x");
       ("content", TObj [("ephemeral_ed25519_b64", TStr (b64_encode (replicate 32 ZERO)))])]))]
    [mkDevice "DEV2" true None].

Lemma ephemeral_key_exact_witness :
  let w := mkToy ∅ ∅ in
  get_p2p_ephemeral_key (H := toy_sdk_with toy_keys) "!s" "@alice:x" "DEV2" w
  = (Returns (Some (replicate 32 ZERO)), w).
Proof.
  intros w.
  rewrite (ephemeral_key_exact (H := toy_sdk_with toy_keys) "!s" "@alice:x" "DEV2" w _ w eq_refl).
  vm_compute. reflexivity.
Defined.
