(* ===== verification/MatrixRooms.v ===== *)
(** * MatrixRooms: launcher spaces and state rooms ([mxdx-matrix/rooms.rs])

    Creating the rooms of a launcher, finding them again over REST, reading
    room state, and deciding whether a state room can be trusted. *)
From S2P Require Import Prelude Text Json Instants P2PCrypto MatrixTypes Effects Rest MatrixClient Toys.
From stdpp Require Import options.

(** ** Percent-encoding of a path segment *)
Definition is_unreserved (b : byte) : bool :=
  byte_range 48 57 b || byte_range 65 90 b || byte_range 97 122 b
  || bool_decide (b = Byte.x2d) || bool_decide (b = Byte.x5f)
  || bool_decide (b = Byte.x2e) || bool_decide (b = Byte.x7e).

(** [{:02X}]. *)
Definition hex_upper (d : N) : byte :=
  default Byte.x30 (Byte.of_N (if (d <? 10)%N then 48 + d else 55 + d)%N).
Definition percent_byte (b : byte) : Bytes :=
  if is_unreserved b then [b]
  else [Byte.x25; hex_upper (Byte.to_N b / 16); hex_upper (Byte.to_N b mod 16)].
Definition percent_encode_path_segment (input : string) : string :=
  from_bytes (as_bytes input ≫= percent_byte).

(** ** Data *)
Definition MXDX_LAUNCHER_ID_KEY : string := "org.mxdx.launcher_id".
Definition MXDX_ROLE_KEY : string := "org.mxdx.role".

Record LauncherTopology := mkTopology { space_id : string; exec_room_id : string; logs_room_id : string }.

Section rooms.
Context {W V : Type} `{MatrixSdk W V} `{JsonValue V} `{JsonU64 V} `{JsonBuild V} `{JsonContainers V}
  `{JsonNumbers V} `{HttpServer W V} `{RestExternals} (joined_rooms : V → result (list string) string).
Local Notation M := (Io W MxError).
Local Abbreviation sdk := (io_map_err (S := W) (F := MxError) Sdk).
Local Abbreviation other := (io_map_err (S := W) (F := MxError) Other).
Local Notation other_error msg := (Other (Sdk_ := string) (Http_ := string) msg).

(** ** Creating *)
Definition mxdx_creation_content (launcher_id role : string) (is_space : bool) : V :=
  json_object ((if is_space then [("type", json_string "m.space")] else [])
    ++ [(MXDX_LAUNCHER_ID_KEY, json_string launcher_id); (MXDX_ROLE_KEY, json_string role)]).

Definition create_named_encrypted_room (c : MatrixClient) (name topic : string) (invite : list string) : M string :=
  create_room_with_timeout c (mkCreateRoom (Some name) None invite false [Encryption; Topic topic] None).

Definition create_mxdx_encrypted_room (c : MatrixClient) (name topic : string) (invite : list string)
    (launcher_id role : string) : M string :=
  create_room_with_timeout c (mkCreateRoom (Some name) None invite false [Encryption; Topic topic]
    (Some (mxdx_creation_content launcher_id role false))).

Definition create_named_unencrypted_room (c : MatrixClient) (name topic : string) : M string :=
  create_room_with_timeout c (mkCreateRoom (Some name) None [] false [Topic topic] None).

Definition create_launcher_space (c : MatrixClient) (launcher_id : string) : M LauncherTopology :=
  user_id ;;
  server_name ← observe sdk_server_name;
  space_id ← create_room_with_timeout c
    (mkCreateRoom (Some (cat ["mxdx: "; launcher_id])) None [] false
       [Topic (cat ["org.mxdx.launcher.space:"; launcher_id]); Encryption]
       (Some (mxdx_creation_content launcher_id "space" true)));
  exec_room_id ← create_mxdx_encrypted_room c (cat ["mxdx: "; launcher_id; " — exec"])
    (cat ["org.mxdx.launcher.exec:"; launcher_id]) [] launcher_id "exec";
  logs_room_id ← create_mxdx_encrypted_room c (cat ["mxdx: "; launcher_id; " — logs"])
    (cat ["org.mxdx.launcher.logs:"; launcher_id]) [] launcher_id "logs";
  let via := json_object [("via", json_array [json_string server_name])] in
  for_each (λ child_id, send_state_event space_id "m.space.child" child_id via) [exec_room_id; logs_room_id] ;;
  mret (mkTopology space_id exec_room_id logs_room_id).

(** [user_localpart]: of [ruma]. *)
Definition create_terminal_session_dm (c : MatrixClient) (user user_localpart : string) : M string :=
  create_room_with_timeout c
    (mkCreateRoom (Some (cat ["mxdx: terminal — "; user_localpart])) None [user] true
       [Encryption; HistoryVisibilityJoined; Topic (cat ["org.mxdx.terminal.session:"; user_localpart])] None).

Definition tombstone_room (room_id replacement_room_id : string) : M () :=
  send_state_event room_id "m.room.tombstone" ""
    (json_object [("body", json_string "This room has been replaced");
                  ("replacement_room", json_string replacement_room_id)]).

(** ** Finding a launcher *)
(** To the live replacement, at most [n] tombstones away; a request that
    fails ends the chain too. *)
Fixpoint follow_tombstones (n : nat) (rest : RestClient) (current : string) : M string :=
  match n with
  | 0 => mret current
  | Datatypes.S n =>
      t ← attempt (other (get_room_tombstone rest current));
      match t with
      | Ok (Some replacement) => follow_tombstones n rest replacement
      | _ => mret current
      end
  end.

Record Found := mkFound { f_space : option string; f_exec : option string; f_logs : option string }.

Definition or_first (found : option string) (room : string) : option string :=
  match found with Some _ => found | None => Some room end.

(** What a room's [m.room.create] says it is. *)
Definition take_role (launcher_id : string) (create : V) (room : string) (f : Found) : Found :=
  if bool_decide (get_str create MXDX_LAUNCHER_ID_KEY = Some launcher_id) then
    match get_str create MXDX_ROLE_KEY with
    | Some role =>
        if str_eqb role "space" then mkFound (or_first (f_space f) room) (f_exec f) (f_logs f)
        else if str_eqb role "exec" then mkFound (f_space f) (or_first (f_exec f) room) (f_logs f)
        else if str_eqb role "logs" then mkFound (f_space f) (f_exec f) (or_first (f_logs f) room)
        else f
    | None => f
    end
  else f.

Fixpoint scan_rooms (rest : RestClient) (launcher_id : string) (rooms : list string) (f : Found) : M Found :=
  match rooms with
  | [] => mret f
  | rid :: rooms =>
      current ← follow_tombstones 10 rest rid;
      create ← attempt (other (get_room_create rest current));
      scan_rooms rest launcher_id rooms
        (match create with Ok (Some v) => take_role launcher_id v current f | _ => f end)
  end.

Definition topology_of (f : Found) : option LauncherTopology :=
  match f_space f, f_exec f, f_logs f with
  | Some s, Some e, Some l => Some (mkTopology s e l)
  | _, Some e, _ => Some (mkTopology e e e)
  | _, _, _ => None
  end.

Definition find_launcher_space_via_rest (launcher_id homeserver access_token : string)
    : M (option LauncherTopology) :=
  let rest := rest_new homeserver access_token in
  invited ← attempt (other (list_invited_rooms rest));
  for_each (λ room, attempt (join_room room) ;; mret ()) (match invited with Ok l => l | Err _ => [] end) ;;
  joined ← other (list_joined_rooms joined_rooms rest);
  f ← scan_rooms rest launcher_id joined (mkFound None None None);
  mret (topology_of f).

Definition find_launcher_space (launcher_id : string) : M (option LauncherTopology) :=
  homeserver ← observe sdk_homeserver;
  token ← observe sdk_access_token;
  match token with
  | None => raise (other_error "find_launcher_space: client has no access token (not logged in)")
  | Some access_token => find_launcher_space_via_rest launcher_id homeserver access_token
  end.

Definition get_or_create_launcher_space (c : MatrixClient) (launcher_id : string) : M LauncherTopology :=
  found ← find_launcher_space launcher_id;
  match found with
  | Some topology => mret topology
  | None => create_launcher_space c launcher_id
  end.

(** ** Room state over REST *)
Definition need_token : M string :=
  token ← observe sdk_access_token; match token with Some t => mret t | None => panic end.

Definition authorized_request (method : HttpMethod) (path : list string) : M Response :=
  homeserver ← observe sdk_homeserver;
  access_token ← need_token;
  other (http (mkRequest method (cat (homeserver :: path)) access_token None)).

Definition get_room_state_event (room_id event_type state_key : string) : M V :=
  resp ← authorized_request GET ["_matrix/client/v3/rooms/"; room_id; "/state/"; event_type; "/";
                                 percent_encode_path_segment state_key];
  other (json_body resp).

Definition get_room_state (room_id event_type : string) : M V :=
  resp ← authorized_request GET ["_matrix/client/v3/rooms/"; room_id; "/state/"; event_type];
  other (json_body resp).

Definition http_failure (what : string) (resp : Response) : MxError :=
  other_error (cat [what; " (HTTP "; show_status (status resp); "): "; text resp]).

Definition get_all_room_state (room_id : string) : M (list V) :=
  resp ← authorized_request GET ["_matrix/client/v3/rooms/"; room_id; "/state"];
  if is_success resp then
    body ← other (json_body resp); mret (default [] (as_array body))
  else raise (http_failure (cat ["Failed to fetch room state for "; room_id]) resp).

Definition state_event (event_type : string) (event : V) : option (string * V) :=
  if str_eqb (default "" (get_str event "type")) event_type then
    Some (default "" (get_str event "state_key"), default (json_object []) (get event "content"))
  else None.
Definition filter_state_events_by_type (events : list V) (event_type : string) : list (string * V) :=
  omap (state_event event_type) events.

Definition get_all_state_events_of_type (room_id event_type : string) : M (list (string * V)) :=
  events ← get_all_room_state room_id; mret (filter_state_events_by_type events event_type).

(** ** Worker state rooms *)
Definition alias_localpart (hostname os_user localpart : string) : string :=
  cat ["mxdx-state-"; hostname; "."; os_user; "."; localpart].
Definition state_topic (hostname os_user localpart : string) : string :=
  cat ["org.mxdx.worker.state:"; hostname; "."; os_user; "."; localpart].

Definition create_worker_state_room (c : MatrixClient) (hostname os_user localpart : string) : M string :=
  create_room_with_timeout c
    (mkCreateRoom (Some (cat ["mxdx: state — "; hostname; "."; os_user; "."; localpart]))
       (Some (alias_localpart hostname os_user localpart)) [] false
       [Encryption; HistoryVisibilityJoined; Topic (state_topic hostname os_user localpart)] None).

Definition resolve_room_alias (alias : string) : M (option string) :=
  resp ← authorized_request GET ["_matrix/client/v3/directory/room/"; percent_encode_path_segment alias];
  if bool_decide (status resp = 404%Z) then mret None else
  if is_success resp then
    body ← other (json_body resp);
    match get_str body "room_id" with
    | Some id => id ← other (of_result (parse_room_id id)); mret (Some id)
    | None => mret None
    end
  else raise (http_failure "Room alias resolution failed" resp).

Definition delete_room_alias (alias : string) : M () :=
  resp ← authorized_request DELETE ["_matrix/client/v3/directory/room/"; percent_encode_path_segment alias];
  if bool_decide (status resp = 404%Z) || is_success resp then mret ()
  else raise (http_failure "Room alias deletion failed" resp).

Definition find_worker_state_room (hostname os_user localpart : string) : M (option string) :=
  user_id ;;
  server_name ← observe sdk_server_name;
  resolved ← resolve_room_alias (cat ["#"; alias_localpart hostname os_user localpart; ":"; server_name]);
  match resolved with
  | Some room_id => mret (Some room_id)
  | None =>
      sync_once ;;
      rooms ← observe sdk_joined_rooms;
      mret (match list_find (λ r, default "" r.2 = state_topic hostname os_user localpart) rooms with
            | Some (_, (room_id, _)) => Some room_id
            | None => None
            end)
  end.

(** ** Trust in a state room *)
Definition extract_room_creator (create_event : V) : string :=
  default "" (match get create_event "content" ≫= λ c, get_str c "creator" with
              | Some creator => Some creator
              | None => get_str create_event "sender"
              end).

Definition is_type (event_type : string) (event : V) : bool :=
  bool_decide (get_str event "type" = Some event_type).

(** The decision on the state of a room. *)
Definition check_state_room (all_state : list V) (own_user_id : string) (trusted_coordinators : list string)
    : result () MxError :=
  match List.find (is_type "m.room.create") all_state with
  | None => Err (StateRoomRejected "m.room.create state event not found in room")
  | Some create_event =>
      let creator := extract_room_creator create_event in
      if negb (str_eqb creator own_user_id) && negb (existsb (λ c, str_eqb c creator) trusted_coordinators) then
        Err (StateRoomRejected (cat ["Room creator '"; creator;
               "' is neither own account nor a trusted coordinator"]))
      else if existsb (is_type "m.room.encryption") all_state then Ok ()
      else Err (StateRoomRejected "Room is not encrypted — m.room.encryption state event missing")
  end.

Definition validate_state_room (room_id own_user_id : string) (trusted_coordinators : list string) : M () :=
  all_state ← get_all_room_state room_id;
  of_result (check_state_room all_state own_user_id trusted_coordinators).
End rooms.

(** ** Percent-encoding is safe and reversible *)
(** The reference decoder. *)
Definition hex_value (b : byte) : option N :=
  let n := Byte.to_N b in
  if byte_range 48 57 b then Some (n - 48)%N else if byte_range 65 70 b then Some (n - 55)%N else None.
Fixpoint percent_decode (l : Bytes) : option Bytes :=
  match l with
  | [] => Some []
  | Byte.x25 :: hi :: lo :: l =>
      h ← hex_value hi; n ← hex_value lo; b ← Byte.of_N (16 * h + n); rest ← percent_decode l; Some (b :: rest)
  | Byte.x25 :: _ => None
  | b :: l => rest ← percent_decode l; Some (b :: rest)
  end.

Definition path_safe (b : byte) : bool := is_unreserved b || bool_decide (b = Byte.x25).

Lemma percent_byte_decode b l : percent_decode (percent_byte b ++ l) = (b ::.) <$> percent_decode l.
Proof. destruct b; try reflexivity; simpl; by destruct (percent_decode l). Qed.

Lemma percent_byte_safe b : forallb path_safe (percent_byte b) = true.
Proof. by destruct b. Qed.

(** A state key or an alias in a path. What is encoded decodes to the
    input, whatever its bytes, and consists of unreserved characters and
    percent signs only: it cannot leave its path segment, and two inputs
    never name the same resource. *)
Theorem percent_roundtrip input :
  percent_decode (as_bytes (percent_encode_path_segment input)) = Some (as_bytes input) ∧
  forallb path_safe (as_bytes (percent_encode_path_segment input)) = true ∧
  ∀ other, percent_encode_path_segment input = percent_encode_path_segment other → input = other.
Proof.
  assert (∀ l, percent_decode (l ≫= percent_byte) = Some l) as Hdec.
  { induction l as [|b l IH]; [done|]. cbn [mbind list_bind].
    by rewrite percent_byte_decode, IH. }
  unfold percent_encode_path_segment. rewrite as_bytes_from_bytes, Hdec. split; [done|]. split.
  - induction (as_bytes input) as [|b l IH]; [done|]. cbn [mbind list_bind].
    by rewrite forallb_app, percent_byte_safe, IH.
  - intros other Heq. apply (f_equal as_bytes) in Heq. rewrite !as_bytes_from_bytes in Heq.
    apply as_bytes_inj. apply (f_equal percent_decode) in Heq. rewrite !Hdec in Heq. by simplify_eq.
Qed.

(** Dots separate the parts of an alias and may occur in them. *)
Lemma alias_ambiguous :
  alias_localpart "a.b" "c" "w" = alias_localpart "a" "b.c" "w".
Proof. done. Qed.

(** ** Which state rooms are accepted *)
Section checks.
Context {V : Type} `{JsonValue V}.

Lemma find_split {A} (f : A → bool) l x :
  List.find f l = Some x ↔
    ∃ pre post, l = pre ++ x :: post ∧ f x = true ∧ ∀ y, y ∈ pre → f y = false.
Proof.
  induction l as [|y l IH]; simpl.
  - split; [done|]. intros ([|??] & ? & ? & _); done.
  - destruct (f y) eqn:Hy.
    + split; [intros [= ->]; exists [], l; split; [done|]; split; [done|]; by intros ? ?%elem_of_nil|].
      intros ([|z pre] & post & Heq & Hx & Hpre); simplify_eq/=; [done|].
      rewrite (Hpre z) in Hy by apply list_elem_of_here. done.
    + rewrite IH. split; intros (pre & post & Heq & Hx & Hpre).
      * exists (y :: pre), post. subst. split; [done|]. split; [done|].
        intros z [->|?]%elem_of_cons; auto.
      * destruct pre as [|z pre]; simplify_eq/=; [congruence|]. exists pre, post. split; [done|]. split; [done|].
        intros u Hu. apply Hpre. by apply list_elem_of_further.
Qed.

(** Which rooms pass as the worker's state room. Exactly those whose
    first [m.room.create] event names this account or a trusted coordinator
    as creator and that have an encryption event. The name is the [creator]
    in the content of the event if there is one; then whoever sent the event
    is not looked at. *)
Theorem check_state_room_exact (all_state : list V) own trusted :
  check_state_room all_state own trusted = Ok () ↔
  (∃ e, e ∈ all_state ∧ get_str e "type" = Some "m.room.encryption") ∧
  ∃ pre create post, all_state = pre ++ create :: post ∧
    get_str create "type" = Some "m.room.create" ∧
    (∀ e, e ∈ pre → get_str e "type" ≠ Some "m.room.create") ∧
    (extract_room_creator create = own ∨ extract_room_creator create ∈ trusted) ∧
    (∀ content creator, get create "content" = Some content → get_str content "creator" = Some creator →
       extract_room_creator create = creator).
Proof.
  unfold check_state_room.
  assert (∀ create content creator, get create "content" = Some content →
    get_str content "creator" = Some creator → extract_room_creator create = creator) as Hcreator.
  { intros create content creator Hc Hs. unfold extract_room_creator. rewrite Hc. simpl. by rewrite Hs. }
  assert (∀ create, negb (str_eqb (extract_room_creator create) own) &&
      negb (existsb (λ c, str_eqb c (extract_room_creator create)) trusted) = false ↔
      extract_room_creator create = own ∨ extract_room_creator create ∈ trusted) as Htrusted.
  { intros create. rewrite andb_false_iff, !negb_false_iff, str_eqb_true, existsb_exists.
    split; (intros [?|Hin]; [by left|right]).
    - destruct Hin as (c & Hc & Heq). apply str_eqb_true in Heq as <-.
      by apply (proj2 (list_elem_of_In _ _)).
    - eexists. split; [by apply (proj1 (list_elem_of_In _ _))|]. by apply str_eqb_true. }
  assert (existsb (is_type "m.room.encryption") all_state = true ↔
    ∃ e, e ∈ all_state ∧ get_str e "type" = Some "m.room.encryption") as Henc.
  { rewrite existsb_exists. unfold is_type. setoid_rewrite bool_decide_eq_true.
    split; intros (e & ? & ?); exists e; (split; [|done]);
      [by apply (proj2 (list_elem_of_In _ _))|by apply (proj1 (list_elem_of_In _ _))]. }
  assert (∀ e ty, is_type ty e = false ↔ get_str e "type" ≠ Some ty) as Hnot.
  { intros. unfold is_type. apply bool_decide_eq_false. }
  destruct (List.find _ all_state) as [create|] eqn:Hf.
  - apply find_split in Hf as (pre & post & Hall & Ht & Hpre). apply bool_decide_eq_true in Ht. split.
    + destruct (_ && _) eqn:Hc; [done|]. apply Htrusted in Hc.
      destruct (existsb _ _) eqn:He; [|done]. intros _. split; [by apply Henc|].
      exists pre, create, post. split_and!; eauto. intros e He'. by apply Hnot, Hpre.
    + intros (He & pre' & create' & post' & Hall' & Ht' & Hpre' & Hc & _).
      assert (create' = create) as ->.
      { assert (List.find (is_type "m.room.create") all_state = Some create') as Hf'.
        { apply find_split. exists pre', post'. split_and!; [done|by apply bool_decide_eq_true|].
          intros e ?. by apply Hnot, Hpre'. }
        assert (List.find (is_type "m.room.create") all_state = Some create) as Hf.
        { apply find_split. exists pre, post. split_and!; [done|by apply bool_decide_eq_true|done]. }
        congruence. }
      apply Htrusted in Hc. rewrite Hc. apply Henc in He. by rewrite He.
  - split; [done|]. intros (_ & pre & create & post & Hall & Ht & Hpre & _).
    assert (List.find (is_type "m.room.create") all_state = Some create); [|congruence].
    apply find_split. exists pre, post. split_and!; [done|by apply bool_decide_eq_true|].
    intros e ?. by apply Hnot, Hpre.
Qed.
End checks.

(** ** What discovery finds *)
Section discovery.
Context {W V : Type} `{MatrixSdk W V} `{JsonValue V} `{JsonU64 V} `{JsonBuild V} `{JsonContainers V}
  `{JsonNumbers V} `{HttpServer W V} `{RestExternals}.
Local Notation M := (Io W MxError).

(** The REST requests never panic. *)
Definition calm {A E} (m : Io W E A) : Prop := ∀ s, (m s).1 ≠ Panics.

Lemma calm_bind {A B E} (m : Io W E A) (k : A → Io W E B) :
  calm m → (∀ x, calm (k x)) → calm (x ← m; k x).
Proof.
  intros Hm Hk s. unfold mbind, Io_bind. specialize (Hm s).
  destruct (m s) as [[x|e|] s']; [apply Hk|done|done].
Qed.
Lemma calm_of_result {A E} (r : result A E) : calm (of_result r).
Proof. by destruct r. Qed.
Lemma calm_http r : calm (http r).
Proof. intros s. unfold http. by destruct (http_send r s) as [[]]. Qed.
Lemma calm_get_state what c room ty : calm (get_state what c room ty).
Proof.
  apply calm_bind; [apply calm_http|]. intros resp. case_match; [done|].
  apply calm_bind; [unfold bail_unless_success; by case_match|]. intros _.
  apply calm_bind; [apply calm_of_result|done].
Qed.
Lemma calm_tombstone c room : calm (get_room_tombstone c room).
Proof.
  apply calm_bind; [apply calm_get_state|]. intros v. case_match; [|done].
  apply calm_bind; [apply calm_of_result|done].
Qed.

(** A request that reads, does not panic and is caught has an answer. *)
Definition answer_at {A} (m : Io W string (option A)) (w : W) : option A :=
  match outcome_at m w with Returns x => x | _ => None end.

Lemma attempt_answer {A B} (m : Io W string (option A)) (k : result (option A) MxError → M B) w :
  reads m → calm m →
  ∃ r, (x ← attempt (io_map_err Other m); k x) w = k r w ∧
    match r with Ok (Some x) => answer_at m w = Some x | _ => answer_at m w = None end.
Proof.
  intros Hr Hc. unfold mbind, Io_bind, attempt, io_map_err, answer_at, outcome_at.
  specialize (Hr w). specialize (Hc w). destruct (m w) as [[[x|]|e|] w']; simpl in *; subst; [..|done].
  - by exists (Ok (Some x)).
  - by exists (Ok None).
  - by exists (Err (Other e)).
Qed.

(** The reference: the room that a chain of at most [n] tombstones leads to,
    and the first joined room whose live replacement says it has a role. *)
Definition create_at (rest : RestClient) (w : W) (room : string) : option V :=
  answer_at (get_room_create rest room) w.
Fixpoint live (n : nat) (rest : RestClient) (w : W) (room : string) : string :=
  match n with
  | 0 => room
  | S n => match answer_at (get_room_tombstone rest room) w with
           | Some replacement => live n rest w replacement
           | None => room
           end
  end.
Definition has_role (rest : RestClient) (w : W) (launcher_id role room : string) : Prop :=
  match create_at rest w room with
  | Some v => get_str v MXDX_LAUNCHER_ID_KEY = Some launcher_id ∧ get_str v MXDX_ROLE_KEY = Some role
  | None => False
  end.
#[export] Instance has_role_dec rest w launcher_id role room : Decision (has_role rest w launcher_id role room).
Proof. unfold has_role. destruct (create_at rest w room); apply _. Defined.
Definition role_room (rest : RestClient) (w : W) (launcher_id role : string) (joined : list string) : option string :=
  head (filter (has_role rest w launcher_id role) (live 10 rest w <$> joined)).

Lemma follow_live `{!HttpLaws W V} n rest w : ∀ room,
  follow_tombstones (W := W) (V := V) n rest room w = (Returns (live n rest w room), w).
Proof.
  induction n as [|n IH]; intros room; [done|]. cbn [follow_tombstones live].
  destruct (attempt_answer (get_room_tombstone rest room)
    (λ t, match t with Ok (Some replacement) => follow_tombstones n rest replacement | _ => mret room end) w)
    as (r & Hr & Ha); [apply reads_tombstone|apply calm_tombstone|].
  rewrite Hr. destruct r as [[x|]|e]; rewrite Ha; auto.
Qed.

Definition or_else (a b : option string) : option string := match a with Some _ => a | None => b end.

Lemma role_room_cons rest w lid role rid rooms :
  role_room rest w lid role (rid :: rooms) =
    if decide (has_role rest w lid role (live 10 rest w rid)) then Some (live 10 rest w rid)
    else role_room rest w lid role rooms.
Proof. unfold role_room. rewrite fmap_cons, filter_cons. by case_decide. Qed.

Lemma scan_spec `{!HttpLaws W V} rest lid w rooms : ∀ f,
  scan_rooms rest lid rooms f w =
    (Returns (mkFound (or_else (f_space f) (role_room rest w lid "space" rooms))
                (or_else (f_exec f) (role_room rest w lid "exec" rooms))
                (or_else (f_logs f) (role_room rest w lid "logs" rooms))), w).
Proof.
  induction rooms as [|rid rooms IH]; intros f.
  { unfold role_room. simpl. by destruct f as [[] [] []]. }
  cbn [scan_rooms]. unfold mbind at 1, Io_bind at 1. rewrite follow_live.
  set (current := live 10 rest w rid).
  destruct (attempt_answer (get_room_create rest current) (λ create, scan_rooms rest lid rooms
      (match create with Ok (Some v) => take_role lid v current f | _ => f end)) w)
    as (r & Hr & Ha); [apply reads_get_state|apply calm_get_state|].
  rewrite Hr, IH, !role_room_cons. fold current.
  assert (∀ role, has_role rest w lid role current ↔
    ∃ v, create_at rest w current = Some v ∧ get_str v MXDX_LAUNCHER_ID_KEY = Some lid ∧
      get_str v MXDX_ROLE_KEY = Some role) as Hrole.
  { intros role. unfold has_role. destruct (create_at rest w current); naive_solver. }
  unfold create_at in Hrole.
  assert (∀ role (o : option string), answer_at (get_room_create rest current) w = None →
    (if decide (has_role rest w lid role current) then Some current else o) = o) as Hnone.
  { intros role o Hn. rewrite decide_False; [done|]. rewrite Hrole, Hn. by intros (? & ? & _). }
  destruct r as [[v|]|e]; [|by rewrite !Hnone..].
  unfold take_role.
  assert (∀ role, has_role rest w lid role current ↔ get_str v MXDX_LAUNCHER_ID_KEY = Some lid ∧
    get_str v MXDX_ROLE_KEY = Some role) as Hv by (intros role; rewrite Hrole, Ha; naive_solver).
  case_bool_decide as Hlid; [|rewrite !decide_False by (rewrite Hv; tauto); done].
  destruct (get_str v MXDX_ROLE_KEY) as [role|] eqn:Hk;
    [|rewrite !decide_False by (rewrite Hv; naive_solver); done].
  assert (∀ role', has_role rest w lid role' current ↔ role = role') as Hv' by (intros; rewrite Hv; naive_solver).
  unfold str_eqb. rewrite !(decide_ext _ _ _ _ (Hv' _)).
  repeat case_bool_decide; subst; simpl;
    rewrite ?decide_True by done; rewrite ?decide_False by done; by destruct f as [[] [] []].
Qed.

(** C14: what discovery finds. When it returns, the rooms were taken from the
    list of joined rooms, which contains every room this account was invited
    to and could join: for each role, the first whose live replacement, at
    most ten tombstones away, has a create event with the launcher's id and
    this role. Nothing else is asked of a room, in particular not who created
    it. With an exec room alone, it stands for all three; without one,
    nothing is found. *)
Theorem discovery_exact `{!HttpLaws W V} (joined_rooms : V → result (list string) string) launcher_id homeserver token w found w' :
  find_launcher_space_via_rest joined_rooms launcher_id homeserver token w = (Returns found, w') →
  let rest := rest_new homeserver token in
  ∃ joined, list_joined_rooms joined_rooms rest w' = (Returns joined, w') ∧
    found = match role_room rest w' launcher_id "space" joined,
                  role_room rest w' launcher_id "exec" joined,
                  role_room rest w' launcher_id "logs" joined with
            | Some s, Some e, Some l => Some (mkTopology s e l)
            | _, Some e, _ => Some (mkTopology e e e)
            | _, None, _ => None
            end.
Proof.
  intros Hrun rest. unfold find_launcher_space_via_rest in Hrun. fold rest in Hrun.
  apply io_bind_returns in Hrun as (invited & w1 & _ & Hrun).
  apply io_bind_returns in Hrun as ([] & w2 & _ & Hrun).
  apply io_bind_returns in Hrun as (joined & w3 & Hj & Hrun).
  assert (list_joined_rooms joined_rooms rest w2 = (Returns joined, w3)) as Hj'.
  { unfold io_map_err in Hj. by destruct (list_joined_rooms joined_rooms rest w2) as [[]]; simplify_eq. }
  pose proof (reads_joined_rooms joined_rooms rest w2) as Hsame. rewrite Hj' in Hsame. simpl in Hsame. subst w3.
  unfold mbind, Io_bind in Hrun. rewrite scan_spec in Hrun. injection Hrun as <- <-.
  exists joined. split; [done|]. unfold topology_of. simpl.
  by repeat case_match.
Qed.
End discovery.

(** ** Witnesses *)
#[local] Existing Instances toy_json toy_u64 toy_containers toy_build toy_numbers toy_externals toy_http
  toy_http_laws toy_sdk.

Definition toy_joined (v : TJson) : result (list string) string :=
  match l ← get v "joined_rooms"; l ← as_array l; mapM as_str l with
  | Some l => Ok l
  | None => Err "no joined_rooms"
  end.

(** A client that joined one room, which says it is the exec room of [l]. *)
Definition toy_discovery : ToyWorld := mkToy
  (<["h/_matrix/client/v3/joined_rooms" := TObj [("joined_rooms", TArr [TStr "!e"])]]>
   (<["h/_matrix/client/v3/rooms/!e/state/m.room.create/" :=
        TObj [(MXDX_LAUNCHER_ID_KEY, TStr "l"); (MXDX_ROLE_KEY, TStr "exec")]]> ∅)) ∅.

Lemma discovery_exact_witness :
  ∃ found w', find_launcher_space_via_rest toy_joined "l" "h/" "t" toy_discovery = (Returns found, w') ∧
    found = Some (mkTopology "!e" "!e" "!e") ∧
    ∃ joined, list_joined_rooms toy_joined (rest_new "h/" "t") w' = (Returns joined, w').
Proof.
  destruct (find_launcher_space_via_rest toy_joined "l" "h/" "t" toy_discovery) as [[found|e|] w'] eqn:Hrun;
    [|vm_compute in Hrun; discriminate..].
  exists found, w'. split; [done|].
  destruct (discovery_exact toy_joined "l" "h/" "t" toy_discovery found w' Hrun) as (joined & Hj & _).
  split; [by vm_compute in Hrun; injection Hrun as <- <-|by exists joined].
Defined.
