(* ===== verification/Keychain.v ===== *)
(** * Keychain: device identities and where keys are kept
    ([mxdx-types/identity.rs], [mxdx-types/keychain_chain.rs])

    A keychain is a record of operations on a state, the counterpart of the
    trait [KeychainBackend]: the code stores sessions, trust and room ids
    through it. Proved: when the chain of two keychains behaves as one, and
    what it answers when a backend fails. *)
From S2P Require Import Prelude Text Effects.
From stdpp Require Import options.

(** ** Identity and keys *)
Record DeviceIdentity := mkIdentity {
  di_device_id : string; di_user_id : string; di_host : string; di_os_user : string }.

Definition keychain_key (user_id device_id : string) : string := cat ["mxdx/"; user_id; "/"; device_id].
Definition trust_store_key (user_id : string) : string := cat ["mxdx/"; user_id; "/trust-store"].
Definition state_room_key (user_id : string) : string := cat ["mxdx/"; user_id; "/state-room-id"].

(** [trim_start_matches] of a non-empty pattern: as often as it is there; the
    fuel is the length of the text. *)
Fixpoint trim_start_fuel (fuel : nat) (p l : Bytes) : Bytes :=
  match fuel with
  | 0 => l
  | S fuel => match strip_prefix p l with Some r => trim_start_fuel fuel p r | None => l end
  end.
Definition trim_start_matches (p l : Bytes) : Bytes := trim_start_fuel (length l) p l.

Definition backup_keychain_key (homeserver matrix_user unix_user : string) : string :=
  let host := from_bytes
    (trim_start_matches (as_bytes "http://")
       (trim_start_matches (as_bytes "https://") (trim_end_matches SLASH (as_bytes homeserver)))) in
  cat ["mxdx:backup:"; host; ":"; matrix_user; ":"; unix_user].

(** ** Backends *)
Record KeychainBackend (W : Type) := mkKeychain {
  kc_get : string → Io W string (option Bytes);
  kc_set : string → Bytes → Io W string ();
  kc_delete : string → Io W string () }.
Arguments mkKeychain {W}.
Arguments kc_get {W} k.
Arguments kc_set {W} k.
Arguments kc_delete {W} k.

(** A store behind a lock, which is poisoned when a holder panicked. *)
Record InMemoryKeychain := mkInMemory { poisoned : bool; store : gmap string Bytes }.
Definition in_memory_new : InMemoryKeychain := mkInMemory false ∅.

Definition locked {A} (k : InMemoryKeychain → outcome A string * InMemoryKeychain)
    : Io InMemoryKeychain string A := λ w,
  if poisoned w then (Raises "poisoned lock: another task failed inside", w) else k w.

Definition in_memory : KeychainBackend InMemoryKeychain := mkKeychain
  (λ key, locked (λ w, (Returns (store w !! key), w)))
  (λ key value, locked (λ w, (Returns (), mkInMemory (poisoned w) (<[key := value]> (store w)))))
  (λ key, locked (λ w, (Returns (), mkInMemory (poisoned w) (delete key (store w))))).

(** [ChainedKeychain]. *)
Section chained.
Context {W : Type} (primary fallback : KeychainBackend W).

Definition chained_get (key : string) : Io W string (option Bytes) :=
  found ← attempt (kc_get primary key);
  match found with
  | Ok (Some val) => mret (Some val)
  | Ok None | Err _ => kc_get fallback key
  end.

Definition chained_set (key : string) (value : Bytes) : Io W string () :=
  attempt (kc_set primary key value) ;; kc_set fallback key value.

Definition chained_delete (key : string) : Io W string () :=
  primary_result ← attempt (kc_delete primary key);
  fallback_result ← attempt (kc_delete fallback key);
  match primary_result, fallback_result with
  | Err _, Err e => raise e
  | _, _ => mret ()
  end.

Definition chained : KeychainBackend W := mkKeychain chained_get chained_set chained_delete.
End chained.

(** ** What a keychain promises *)
(** A keychain whose content, seen through [view], is a map, in the states
    that are [ok]. *)
Class Implements {W : Type} (k : KeychainBackend W) (ok : W → Prop) (view : W → gmap string Bytes) : Prop := {
  implements_get key w : ok w → kc_get k key w = (Returns (view w !! key), w);
  implements_set key value w : ok w → ∃ w', kc_set k key value w = (Returns (), w') ∧ ok w' ∧
    view w' = <[key := value]> (view w);
  implements_delete key w : ok w → ∃ w', kc_delete k key w = (Returns (), w') ∧ ok w' ∧
    view w' = delete key (view w);
}.

(** One whose reads may also fail. *)
Class Writes {W : Type} (k : KeychainBackend W) (ok : W → Prop) (view : W → gmap string Bytes) : Prop := {
  writes_get key w : ok w → kc_get k key w = (Returns (view w !! key), w) ∨ ∃ e, kc_get k key w = (Raises e, w);
  writes_set key value w : ok w → ∃ w', kc_set k key value w = (Returns (), w') ∧ ok w' ∧
    view w' = <[key := value]> (view w);
  writes_delete key w : ok w → ∃ w', kc_delete k key w = (Returns (), w') ∧ ok w' ∧
    view w' = delete key (view w);
}.

#[export] Instance implements_writes {W} (k : KeychainBackend W) ok view :
  Implements k ok view → Writes k ok view.
Proof. intros []. split; eauto. Qed.

(** The in-memory keychain keeps the promise while its lock is sound. *)
#[export] Instance in_memory_implements : Implements in_memory (λ w, poisoned w = false) store.
Proof.
  split; simpl; unfold locked.
  - by intros key w ->.
  - intros key value w ->. eexists. split; [done|]. done.
  - intros key w ->. eexists. split; [done|]. done.
Qed.

(** Two stores side by side. *)
Definition in_first {A B T} (m : Io A string T) : Io (A * B) string T := λ w,
  let '(o, a) := m w.1 in (o, (a, w.2)).
Definition in_second {A B T} (m : Io B string T) : Io (A * B) string T := λ w,
  let '(o, b) := m w.2 in (o, (w.1, b)).
Definition first_of {A B} (k : KeychainBackend A) : KeychainBackend (A * B) :=
  mkKeychain (λ key, in_first (kc_get k key)) (λ key v, in_first (kc_set k key v))
    (λ key, in_first (kc_delete k key)).
Definition second_of {A B} (k : KeychainBackend B) : KeychainBackend (A * B) :=
  mkKeychain (λ key, in_second (kc_get k key)) (λ key v, in_second (kc_set k key v))
    (λ key, in_second (kc_delete k key)).

Section refinement.
Context {A B : Type} (kp : KeychainBackend A) (kf : KeychainBackend B).
Context (okp : A → Prop) (okf : B → Prop) (vp : A → gmap string Bytes) (vf : B → gmap string Bytes).
Local Abbreviation chain := (chained (first_of (B := B) kp) (second_of (A := A) kf)).

(** The states in which the chain behaves as one keychain: both backends
    work, and the primary holds nothing that the fallback does not. *)
Definition in_step (w : A * B) : Prop := okp w.1 ∧ okf w.2 ∧ vp w.1 ⊆ vf w.2.

(** C12: the chain of keychains is a keychain. When the primary writes what it
    is told, though it may fail to read, and the fallback is a map, the chain
    of the two is the map of the fallback: it reads what was written last and
    nothing that was deleted, whichever backend answers. *)
Theorem chained_refines_map :
  Writes kp okp vp → Implements kf okf vf → Implements chain in_step (λ w, vf w.2).
Proof.
  intros Hp Hf. split.
  - intros key [a b] (Ha & Hb & Hsub). unfold chained, first_of, second_of; simpl.
    unfold chained_get, mbind, Io_bind, attempt, in_first, in_second; simpl in *.
    destruct (writes_get (k := kp) key a Ha) as [->|[e ->]];
      [destruct (vp a !! key) as [val|] eqn:Hv|]; simpl.
    + by rewrite (lookup_weaken _ _ _ _ Hv Hsub).
    + by rewrite (implements_get (k := kf) key b Hb).
    + by rewrite (implements_get (k := kf) key b Hb).
  - intros key value [a b] (Ha & Hb & Hsub). unfold chained, first_of, second_of; simpl.
    unfold chained_set, mbind, Io_bind, attempt, in_first, in_second; simpl in *.
    destruct (writes_set (k := kp) key value a Ha) as (a' & -> & Ha' & Hva). simpl.
    destruct (implements_set (k := kf) key value b Hb) as (b' & -> & Hb' & Hvb).
    eexists. split; [done|]. split; [|done]. split_and!; simpl; [done..|].
    rewrite Hva, Hvb. by apply insert_mono.
  - intros key [a b] (Ha & Hb & Hsub). unfold chained, first_of, second_of; simpl.
    unfold chained_delete, mbind, Io_bind, attempt, in_first, in_second; simpl in *.
    destruct (writes_delete (k := kp) key a Ha) as (a' & -> & Ha' & Hva). simpl.
    destruct (implements_delete (k := kf) key b Hb) as (b' & -> & Hb' & Hvb).
    eexists. split; [done|]. split; [|done]. split_and!; simpl; [done..|].
    rewrite Hva, Hvb. by apply delete_mono.
Qed.

(** When the primary fails to write a key it holds, the chain reports success
    and goes on reading the old value. *)
Theorem chained_stale_read key old value e (w : A * B) :
  Implements kp okp vp → Implements kf okf vf → in_step w →
  vp w.1 !! key = Some old → kc_set kp key value w.1 = (Raises e, w.1) →
  ∃ w', kc_set chain key value w = (Returns (), w') ∧ kc_get chain key w' = (Returns (Some old), w').
Proof.
  destruct w as [a b]. intros Hp Hf (Ha & Hb & _) Hold Hset. unfold chained, first_of, second_of; simpl in *.
  unfold chained_set, chained_get, mbind, Io_bind, attempt, in_first, in_second; simpl.
  rewrite Hset. simpl. destruct (implements_set (k := kf) key value b Hb) as (b' & -> & Hb' & _).
  eexists. split; [done|]. simpl. by rewrite (implements_get (k := kp) key a Ha), Hold.
Qed.

(** When the fallback fails to delete a key, the chain reports success and
    goes on reading it. *)
Theorem chained_resurrects key old e (w : A * B) :
  Implements kp okp vp → Implements kf okf vf → in_step w →
  vf w.2 !! key = Some old → kc_delete kf key w.2 = (Raises e, w.2) →
  ∃ w', kc_delete chain key w = (Returns (), w') ∧ kc_get chain key w' = (Returns (Some old), w').
Proof.
  destruct w as [a b]. intros Hp Hf (Ha & Hb & _) Hold Hdel. unfold chained, first_of, second_of; simpl in *.
  unfold chained_delete, chained_get, mbind, Io_bind, attempt, in_first, in_second; simpl.
  destruct (implements_delete (k := kp) key a Ha) as (a' & -> & Ha' & Hva). simpl. rewrite Hdel.
  eexists. split; [done|]. simpl.
  rewrite (implements_get (k := kp) key a' Ha'), Hva, lookup_delete_eq. simpl.
  by rewrite (implements_get (k := kf) key b Hb), Hold.
Qed.
End refinement.

(** Keys of different kinds never meet, unless a device is named after one. *)
Lemma reserved_device_names user :
  keychain_key user "trust-store" = trust_store_key user ∧
  keychain_key user "state-room-id" = state_room_key user.
Proof. done. Qed.

Lemma chained_refines_map_witness :
  let chain := chained (first_of (B := InMemoryKeychain) in_memory) (second_of in_memory) in
  ∃ w', kc_set chain "k" [Byte.x01] (in_memory_new, in_memory_new) = (Returns (), w') ∧
    kc_get chain "k" w' = (Returns (Some [Byte.x01]), w').
Proof.
  pose proof (chained_refines_map in_memory in_memory (λ w, poisoned w = false) (λ w, poisoned w = false)
    store store _ _) as Hchain. cbv zeta.
  destruct (implements_set (Implements := Hchain) "k" [Byte.x01] (in_memory_new, in_memory_new))
    as (w' & -> & Hok & Hv); [done|].
  exists w'. split; [done|]. rewrite (implements_get (Implements := Hchain) "k" w' Hok), Hv. simpl.
  by rewrite lookup_insert_eq.
Defined.
