(* ===== verification/Trust.v ===== *)
(** * Trust: which devices are trusted ([mxdx-types/trust.rs],
    [mxdx-worker/trust.rs], [mxdx-client/trust.rs])

    The trust store and its two owners, which keep it in memory and in a
    keychain. Proved against the keychain interface: what is trusted after a
    sequence of changes is what is trusted after a restart; and what remains
    when the keychain fails. *)
From S2P Require Import Prelude Text Effects Keychain Toys.
From stdpp Require Import options.

Inductive CrossSigningMode : Type := Auto | Manual.

Record TrustedDevice := mkTrusted {
  td_device_id : string; td_user_id : string; ed25519_key : string; cross_signed_at : Z }.

Record TrustStore := mkTrustStore { trust_anchor : string; trusted_devices : gmap string TrustedDevice }.

Definition trust_store_new (anchor : string) : TrustStore := mkTrustStore anchor ∅.
Definition is_trusted (device_id : string) (s : TrustStore) : bool :=
  bool_decide (is_Some (trusted_devices s !! device_id)).
Definition add_device (d : TrustedDevice) (s : TrustStore) : TrustStore :=
  mkTrustStore (trust_anchor s) (<[td_device_id d := d]> (trusted_devices s)).
Definition remove_device (device_id : string) (s : TrustStore) : TrustStore :=
  mkTrustStore (trust_anchor s) (delete device_id (trusted_devices s)).
Definition merge_trust_list (devices : list TrustedDevice) (mode : CrossSigningMode) (s : TrustStore)
    : TrustStore :=
  match mode with
  | Auto => foldl (λ s d, add_device d s) s devices
  | Manual => s
  end.
Definition set_anchor (user_id : string) (s : TrustStore) : TrustStore :=
  mkTrustStore user_id (trusted_devices s).

(** [serde_json] on a trust store. *)
Class TrustSerde := {
  to_vec : TrustStore → result Bytes string;
  from_slice : Bytes → result TrustStore string;
}.
(** Documented behaviour of the derived instances: a store is written, and
    reads back. *)
Class TrustSerdeLaws `{TrustSerde} : Prop :=
  from_to_vec s : ∃ b, to_vec s = Ok b ∧ from_slice b = Ok s.

(** ** The owners; a change returns the store in memory with the outcome of
    writing it *)
Section owners.
Context {W : Type} `{TrustSerde} (keychain : KeychainBackend W).

Definition load_or_create (user_id anchor : string) : Io W string TrustStore :=
  data ← kc_get keychain (trust_store_key user_id);
  match data with
  | Some data => of_result (from_slice data)
  | None => mret (trust_store_new anchor)
  end.

Definition persist (user_id : string) (s : TrustStore) : Io W string () :=
  data ← of_result (to_vec s); kc_set keychain (trust_store_key user_id) data.

(** A method that changes the store and then persists it: the change stays in
    memory when [persist] fails. *)
Definition changed (user_id : string) (f : TrustStore → TrustStore) (s : TrustStore)
    : Io W string (TrustStore * result () string) :=
  r ← attempt (persist user_id (f s)); mret (f s, r).

(** [WorkerTrust]. *)
Definition worker_is_device_trusted (device_id : string) (s : TrustStore) : bool := is_trusted device_id s.
Definition worker_add_trusted_device (user_id : string) (d : TrustedDevice) := changed user_id (add_device d).
Definition worker_merge_trust_list (user_id : string) (devices : list TrustedDevice) (mode : CrossSigningMode) :=
  changed user_id (merge_trust_list devices mode).

(** [ClientTrust]; the devices are listed in the order of the map. *)
Definition list_trusted (values : gmap string TrustedDevice → list TrustedDevice) (s : TrustStore)
    : list TrustedDevice := values (trusted_devices s).
Definition client_add_device (user_id : string) (d : TrustedDevice) := changed user_id (add_device d).
(** [retain(|k, _| k != device_id)]. *)
Definition client_remove_device (user_id device_id : string) :=
  changed user_id (λ s, mkTrustStore (trust_anchor s) (filter (λ kv, kv.1 ≠ device_id) (trusted_devices s))).
Definition pull_trust_list (user_id : string) (devices : list TrustedDevice) (mode : CrossSigningMode) :=
  changed user_id (merge_trust_list devices mode).
Definition set_trust_anchor (user_id anchor : string) := changed user_id (set_anchor anchor).

(** The changes an owner makes. *)
Inductive TrustOp : Type :=
| OpAdd (d : TrustedDevice)
| OpRemove (device_id : string)
| OpMerge (devices : list TrustedDevice) (mode : CrossSigningMode)
| OpAnchor (anchor : string).

Definition trust_op (user_id : string) (op : TrustOp) : TrustStore → Io W string (TrustStore * result () string) :=
  match op with
  | OpAdd d => client_add_device user_id d
  | OpRemove device_id => client_remove_device user_id device_id
  | OpMerge devices mode => pull_trust_list user_id devices mode
  | OpAnchor anchor => set_trust_anchor user_id anchor
  end.

Fixpoint trust_run (user_id : string) (ops : list TrustOp) (s : TrustStore)
    : Io W string (TrustStore * list (result () string)) :=
  match ops with
  | [] => mret (s, [])
  | op :: ops =>
      r ← trust_op user_id op s;
      rs ← trust_run user_id ops r.1;
      mret (rs.1, r.2 :: rs.2)
  end.
End owners.

(** ** What is trusted: the last word on a device decides *)
(** What one change says of a device: trusted with this description, not
    trusted, or nothing. *)
Definition verdict (device_id : string) (op : TrustOp) : option (option TrustedDevice) :=
  match op with
  | OpAdd d => if str_eqb (td_device_id d) device_id then Some (Some d) else None
  | OpRemove i => if str_eqb i device_id then Some None else None
  | OpMerge devices Auto =>
      match last (filter (λ d, td_device_id d = device_id) devices) with
      | Some d => Some (Some d)
      | None => None
      end
  | OpMerge _ Manual | OpAnchor _ => None
  end.
Definition last_verdict (device_id : string) (ops : list TrustOp) : option (option TrustedDevice) :=
  last (omap (verdict device_id) ops).

Lemma merge_lookup devices s device_id :
  trusted_devices (merge_trust_list devices Auto s) !! device_id =
    match last (filter (λ d, td_device_id d = device_id) devices) with
    | Some d => Some d
    | None => trusted_devices s !! device_id
    end.
Proof.
  simpl. induction devices as [|d devices IH] using rev_ind; [done|].
  rewrite foldl_snoc, filter_app, last_app. simpl. rewrite filter_cons, filter_nil.
  destruct (decide (td_device_id d = device_id)) as [->|Hne]; simpl.
  - by rewrite lookup_insert_eq.
  - by rewrite lookup_insert_ne.
Qed.

Definition apply_op (op : TrustOp) (s : TrustStore) : TrustStore :=
  match op with
  | OpAdd d => add_device d s
  | OpRemove i => mkTrustStore (trust_anchor s) (filter (λ kv, kv.1 ≠ i) (trusted_devices s))
  | OpMerge devices mode => merge_trust_list devices mode s
  | OpAnchor a => set_anchor a s
  end.

(** [retain] as in the client is the removal of the store. *)
Lemma retain_remove device_id (s : TrustStore) :
  apply_op (OpRemove device_id) s = remove_device device_id s.
Proof.
  unfold apply_op, remove_device. f_equal. apply map_eq. intros k.
  destruct (decide (k = device_id)) as [->|Hne].
  - rewrite lookup_delete_eq. apply map_lookup_filter_None. right. intros ? ? Hk. by simpl in Hk.
  - rewrite lookup_delete_ne by done. destruct (trusted_devices s !! k) eqn:E.
    + by apply map_lookup_filter_Some.
    + apply map_lookup_filter_None. auto.
Qed.

Lemma apply_op_lookup op s device_id :
  trusted_devices (apply_op op s) !! device_id = default (trusted_devices s !! device_id) (verdict device_id op).
Proof.
  destruct op as [d|i|devices []|a]; [simpl|rewrite retain_remove; simpl|cbn [apply_op]; rewrite merge_lookup; simpl|done|done].
  - destruct (str_eqb (td_device_id d) device_id) eqn:E.
    + apply str_eqb_true in E as <-. by rewrite lookup_insert_eq.
    + apply str_eqb_false in E. by rewrite lookup_insert_ne.
  - destruct (str_eqb i device_id) eqn:E.
    + apply str_eqb_true in E as <-. by rewrite lookup_delete_eq.
    + apply str_eqb_false in E. by rewrite lookup_delete_ne.
  - by destruct (last _).
Qed.

Lemma apply_ops_lookup ops s device_id :
  trusted_devices (foldl (λ s op, apply_op op s) s ops) !! device_id =
    default (trusted_devices s !! device_id) (last_verdict device_id ops).
Proof.
  unfold last_verdict. induction ops as [|op ops IH] using rev_ind; [done|].
  rewrite foldl_snoc, apply_op_lookup, IH, omap_app, last_app. simpl.
  by destruct (verdict device_id op).
Qed.

Section owner_theory.
Context {W : Type} `{TrustSerdeLaws} (keychain : KeychainBackend W) (ok : W → Prop)
  (view : W → gmap string Bytes) `{!Implements keychain ok view} (user_id : string).

(** The keychain holds the store. *)
Definition holds (s : TrustStore) (w : W) : Prop :=
  ok w ∧ ∃ b, view w !! trust_store_key user_id = Some b ∧ from_slice b = Ok s.

Lemma changed_persists f s w :
  ok w → ∃ w', changed keychain user_id f s w = (Returns (f s, Ok ()), w') ∧ holds (f s) w'.
Proof using Type*.
  intros Hok. unfold changed, persist, mbind, Io_bind, attempt.
  destruct (from_to_vec (f s)) as (b & -> & Hb). simpl.
  destruct (implements_set (trust_store_key user_id) b w Hok) as (w' & -> & Hok' & Hv).
  eexists. split; [done|]. split; [done|]. exists b. by rewrite Hv, lookup_insert_eq.
Qed.

Lemma trust_op_apply op s : trust_op keychain user_id op s = changed keychain user_id (apply_op op) s.
Proof. by destruct op. Qed.

Lemma trust_run_spec ops : ∀ s w,
  holds s w → ∃ w', trust_run keychain user_id ops s w =
      (Returns (foldl (λ s op, apply_op op s) s ops, replicate (length ops) (Ok ())), w') ∧
    holds (foldl (λ s op, apply_op op s) s ops) w'.
Proof using Type*.
  induction ops as [|op ops IH]; intros s w Hs; [by exists w|].
  simpl. unfold mbind, Io_bind. rewrite trust_op_apply.
  destruct (changed_persists (apply_op op) s w) as (w1 & -> & H1); [apply Hs|]. simpl.
  destruct (IH _ _ H1) as (w' & -> & H2). by exists w'.
Qed.

(** Trust survives a restart. Starting from a store that the keychain
    holds, whatever devices are added, removed and merged, every change
    succeeds, and after a restart the owner has the very store it had: a
    device is trusted, with its description, exactly when the last change
    that concerns it said so, or it was trusted from the start and none did;
    a list that is merged in manual mode changes nothing. *)
Theorem trust_survives_restart ops s anchor device_id w :
  holds s w →
  ∃ s' w', trust_run keychain user_id ops s w = (Returns (s', replicate (length ops) (Ok ())), w') ∧
    load_or_create keychain user_id anchor w' = (Returns s', w') ∧
    trusted_devices s' !! device_id = default (trusted_devices s !! device_id) (last_verdict device_id ops).
Proof using Type*.
  intros Hs. destruct (trust_run_spec ops s w Hs) as (w' & -> & Hok' & b & Hb & Hslice).
  do 2 eexists. split; [done|]. split; [|apply apply_ops_lookup].
  unfold load_or_create, mbind, Io_bind.
  by rewrite (implements_get (trust_store_key user_id) w' Hok'), Hb, Hslice.
Qed.

(** A change that cannot be written stays in memory until the restart. *)
Theorem failed_change_stays_in_memory f s e w :
  (∀ b, kc_set keychain (trust_store_key user_id) b w = (Raises e, w)) →
  changed keychain user_id f s w = (Returns (f s, Err e), w).
Proof using Type*.
  intros Hset. unfold changed, persist, mbind, Io_bind, attempt.
  destruct (from_to_vec (f s)) as (b & -> & _). simpl. by rewrite Hset.
Qed.
End owner_theory.

(** ** Witnesses *)
#[export] Instance TrustedDevice_eq_dec : EqDecision TrustedDevice.
Proof. solve_decision. Defined.
#[export] Instance TrustedDevice_countable : Countable TrustedDevice.
Proof.
  apply (inj_countable' (λ d, (td_device_id d, td_user_id d, ed25519_key d, cross_signed_at d))
           (λ '(a, b, c, d), mkTrusted a b c d)). by intros [].
Defined.
#[export] Instance TrustStore_eq_dec : EqDecision TrustStore.
Proof. solve_decision. Defined.
#[export] Instance TrustStore_countable : Countable TrustStore.
Proof.
  apply (inj_countable' (λ s, (trust_anchor s, trusted_devices s)) (λ '(a, b), mkTrustStore a b)). by intros [].
Defined.

Definition toy_trust_serde : TrustSerde := {|
  to_vec s := Ok (pos_bytes (encode s));
  from_slice b := match decode (bytes_pos b) with Some s => Ok s | None => Err "no store" end;
|}.
Lemma toy_trust_serde_laws : @TrustSerdeLaws toy_trust_serde.
Proof. intros s. eexists. split; [done|]. simpl. by rewrite bytes_pos_bytes, decode_encode. Qed.
#[local] Existing Instances toy_trust_serde toy_trust_serde_laws.

Abbreviation toy_device := (mkTrusted "D" "@a:x" "k" 0) (only parsing).
Definition toy_keychain : InMemoryKeychain :=
  mkInMemory false {[ trust_store_key "@a:x" := pos_bytes (encode (trust_store_new "@a:x")) ]}.
