(* ===== verification/StateRoom.v ===== *)
(** * StateRoom: the state room of a worker and its lease
    ([mxdx-worker/state_room.rs], [mxdx-types/events/state_room.rs], and the
    set-up in [mxdx-worker/lib.rs])

    A worker keeps its configuration, its sessions and a single-writer lease
    as state events of a private room. Proved: which rooms are accepted, that
    sessions read back, and when at most one worker holds the lease. *)
From stdpp Require Import countable.
From S2P Require Import Prelude Text Json P2PCrypto MatrixTypes Effects Rest MatrixClient MatrixRooms Keychain Toys.
From stdpp Require Import options.

(** ** Events *)
Definition WORKER_STATE_CONFIG : string := "org.mxdx.worker.config".
Definition WORKER_STATE_IDENTITY : string := "org.mxdx.worker.identity".
Definition WORKER_STATE_ROOM : string := "org.mxdx.worker.room".
Definition WORKER_STATE_SESSION : string := "org.mxdx.worker.session".
Definition WORKER_STATE_TOPOLOGY : string := "org.mxdx.worker.topology".
Definition WORKER_STATE_ROOM_POINTER : string := "org.mxdx.worker.state_room".
Definition WORKER_STATE_TRUSTED_CLIENT : string := "org.mxdx.worker.trusted_client".
Definition WORKER_STATE_TRUSTED_COORDINATOR : string := "org.mxdx.worker.trusted_coordinator".
Definition WORKER_STATE_LOCK : string := "org.mxdx.worker.lock".

Record WorkerStateConfig := mkStateConfig {
  wsc_room_name : string; wsc_trust_anchor : option string; wsc_capabilities : list string; wsc_created_at : Z }.
Record WorkerStateIdentity := mkStateIdentity { wsi_device_id : string; wsi_host : string; wsi_os_user : string }.
Record StateRoomSession := mkRoomSession {
  srs_uuid : string; srs_bin : string; srs_args : list string; srs_tmux_session : option string;
  srs_started_at : Z; srs_thread_root : string; srs_exec_room_id : string; srs_state : string }.
Record StateRoomEntry := mkRoomEntry {
  sre_room_id : string; sre_room_name : option string; sre_space_id : option string; sre_role : string;
  sre_joined_at : Z }.
Record TrustedEntity := mkTrustedEntity {
  te_user_id : string; te_verified_at : Z; te_verified_by_device : string }.
Record StateRoomTopology := mkStateTopology {
  srt_space_id : string; srt_exec_room_id : string; srt_logs_room_id : string }.
Record StateRoomPointer := mkPointer {
  srp_room_id : string; srp_device_id : string; srp_hostname : string; srp_os_user : string }.
Record WorkerStateLock := mkLock {
  device_id : string; worker_uuid : string; host : string; os_user : string;
  acquired_at : Z; expires_at : Z }.

(** [serde_json::to_value] and [from_value] of a type. *)
Class Serde (V T : Type) := {
  to_value : T → result V string;
  from_value : V → result T string;
}.

(** ** Operations *)
Section state_room.
Context {W V : Type} `{MatrixSdk W V} `{JsonValue V} `{JsonU64 V} `{JsonBuild V} `{JsonContainers V}
  `{JsonNumbers V} `{HttpServer W V} `{RestExternals}.
Context `{!Serde V WorkerStateConfig} `{!Serde V WorkerStateIdentity} `{!Serde V StateRoomSession}
  `{!Serde V StateRoomEntry} `{!Serde V TrustedEntity} `{!Serde V StateRoomTopology}
  `{!Serde V StateRoomPointer} `{!Serde V WorkerStateLock}.
Local Notation M := (Io W string).

Definition format_session_key (device_id uuid : string) : string := cat [device_id; "/"; uuid].

Definition is_empty_content (value : V) : bool :=
  match as_object value with
  | Some fields => bool_decide (length fields = 0)
  | None => is_null value
  end.

Definition deserialize_if_present {T} `{!Serde V T} (value : V) : result (option T) string :=
  if bool_decide (is_Some (get value "errcode")) then Ok None else
  if is_empty_content value then Ok None else
  let? parsed := from_value value in Ok (Some parsed).

(** The entries that are not removed and parse. *)
Definition present {T} `{!Serde V T} (entry : string * V) : option T :=
  if is_empty_content entry.2 then None else
  match from_value entry.2 with Ok x => Some x | Err _ => None end.

Definition deserialize_all_of_type {T} `{!Serde V T} (room_id event_type : string) : M (list T) :=
  entries ← mx (get_all_state_events_of_type room_id event_type);
  mret (omap present entries).

(** [to_value(x)?] and [send_state_event(..).await?]. *)
Definition write_value {T} `{!Serde V T} (room_id event_type state_key : string) (x : T) : M () :=
  content ← of_result (to_value x); mx (send_state_event room_id event_type state_key content).
Definition read_value {T} `{!Serde V T} (room_id event_type : string) : M (option T) :=
  value ← mx (get_room_state_event room_id event_type "");
  of_result (deserialize_if_present value).

(** *** Finding or creating the room *)
Definition cache_room (keychain : KeychainBackend W) (kc_key room_id : string) : M () :=
  attempt (kc_set keychain kc_key (as_bytes room_id)) ;; mret ().

(** The room id in the keychain, if it is one and its room is valid. *)
Definition cached_room (keychain : KeychainBackend W) (kc_key user : string) (trusted_coordinators : list string)
    : M (option string) :=
  data ← kc_get keychain kc_key;
  match data ≫= from_utf8 with
  | None => mret None
  | Some text =>
      match parse_room_id text with
      | Err _ => mret None
      | Ok room_id =>
          valid ← attempt (mx (validate_state_room room_id user trusted_coordinators));
          mret (match valid with Ok _ => Some room_id | Err _ => None end)
      end
  end.

(** The room of the alias, joined and validated. *)
Definition discovered_room (keychain : KeychainBackend W) (kc_key user hostname os_user localpart : string)
    (trusted_coordinators : list string) : M (option string) :=
  found ← mx (find_worker_state_room hostname os_user localpart);
  match found with
  | None => mret None
  | Some room_id =>
      mx sync_once ;;
      joined ← observe sdk_joined_rooms;
      join_ok ← (if existsb (λ r, str_eqb r.1 room_id) joined then mret true
                 else r ← attempt (mx (join_room room_id)); mret (is_ok r));
      if join_ok : bool then
        valid ← attempt (mx (validate_state_room room_id user trusted_coordinators));
        match valid with
        | Ok _ => cache_room keychain kc_key room_id ;; mret (Some room_id)
        | Err _ => mret None
        end
      else mret None
  end.

Definition created_room (c : MatrixClient) (hostname os_user localpart : string) : M string :=
  created ← attempt (mx (create_worker_state_room c hostname os_user localpart));
  match created with
  | Ok room_id => mret room_id
  | Err e =>
      if contains (as_bytes "M_ROOM_IN_USE") (as_bytes e) then
        server_name ← observe sdk_server_name;
        mx (delete_room_alias (cat ["#mxdx-state-"; hostname; "."; os_user; "."; localpart; ":"; server_name])) ;;
        mx (create_worker_state_room c hostname os_user localpart)
      else raise e
  end.

Definition get_or_create (c : MatrixClient) (hostname os_user localpart : string)
    (keychain : KeychainBackend W) (trusted_coordinators : list string) : M string :=
  user ← mx user_id;
  let kc_key := state_room_key user in
  cached ← cached_room keychain kc_key user trusted_coordinators;
  match cached with
  | Some room_id => mret room_id
  | None =>
      discovered ← discovered_room keychain kc_key user hostname os_user localpart trusted_coordinators;
      match discovered with
      | Some room_id => mret room_id
      | None =>
          room_id ← created_room c hostname os_user localpart;
          cache_room keychain kc_key room_id ;;
          device ← observe sdk_device_id;
          write_value room_id WORKER_STATE_IDENTITY ""
            (mkStateIdentity (default "" device) hostname os_user) ;;
          mret room_id
      end
  end.

(** *** Reading and writing *)
Definition write_config (room_id : string) (config : WorkerStateConfig) : M () :=
  write_value room_id WORKER_STATE_CONFIG "" config.
Definition read_config (room_id : string) : M (option WorkerStateConfig) :=
  read_value room_id WORKER_STATE_CONFIG.

Definition write_session (room_id device uuid : string) (session : StateRoomSession) : M () :=
  write_value room_id WORKER_STATE_SESSION (format_session_key device uuid) session.
Definition remove_session (room_id device uuid : string) : M () :=
  mx (send_state_event room_id WORKER_STATE_SESSION (format_session_key device uuid) (json_object [])).
Definition read_sessions (room_id : string) : M (list StateRoomSession) :=
  deserialize_all_of_type room_id WORKER_STATE_SESSION.

Definition write_room (room_id room_id_key : string) (entry : StateRoomEntry) : M () :=
  write_value room_id WORKER_STATE_ROOM room_id_key entry.
Definition read_rooms (room_id : string) : M (list StateRoomEntry) :=
  deserialize_all_of_type room_id WORKER_STATE_ROOM.

Definition write_trusted_client (room_id user : string) (entity : TrustedEntity) : M () :=
  write_value room_id WORKER_STATE_TRUSTED_CLIENT user entity.
Definition read_trusted_clients (room_id : string) : M (list TrustedEntity) :=
  deserialize_all_of_type room_id WORKER_STATE_TRUSTED_CLIENT.
Definition write_trusted_coordinator (room_id user : string) (entity : TrustedEntity) : M () :=
  write_value room_id WORKER_STATE_TRUSTED_COORDINATOR user entity.
Definition read_trusted_coordinators (room_id : string) : M (list TrustedEntity) :=
  deserialize_all_of_type room_id WORKER_STATE_TRUSTED_COORDINATOR.

Definition write_topology (room_id : string) (topology : StateRoomTopology) : M () :=
  write_value room_id WORKER_STATE_TOPOLOGY "" topology.
Definition read_topology (room_id : string) : M (option StateRoomTopology) :=
  read_value room_id WORKER_STATE_TOPOLOGY.

(** The clients of the other homeservers are the ways to send through them. *)
Definition write_state_confirmed (secondaries : list (string → string → string → V → M ()))
    (room_id event_type state_key : string) (content : V) : M () :=
  mx (send_state_event room_id event_type state_key content) ;;
  for_each (λ send, attempt (send room_id event_type state_key content) ;; mret ()) secondaries.

(** *** The lease *)
Definition read_lock (room_id : string) : M (option WorkerStateLock) :=
  read_value room_id WORKER_STATE_LOCK.

(** Whether the lock that was read leaves it to us. *)
Definition may_acquire (existing : option WorkerStateLock) (lock : WorkerStateLock) (now_ms : Z) : bool :=
  match existing with
  | None => true
  | Some existing =>
      if str_eqb (device_id existing) (device_id lock) then true
      else negb (bool_decide (now_ms < expires_at existing)%Z)
  end.

Definition try_acquire_lock (room_id : string) (lock : WorkerStateLock) (now_ms : Z) : M bool :=
  existing ← read_lock room_id;
  if may_acquire existing lock now_ms then
    write_value room_id WORKER_STATE_LOCK "" lock ;; mret true
  else mret false.

Definition renew_lock (room_id : string) (lock : WorkerStateLock) : M () :=
  write_value room_id WORKER_STATE_LOCK "" lock.

Definition release_lock (room_id : string) : M () :=
  mx (send_state_event room_id WORKER_STATE_LOCK "" (json_object [])).

Definition advertise_in_exec_room (room_id exec_room_id device hostname os_user : string) : M () :=
  write_value exec_room_id WORKER_STATE_ROOM_POINTER device (mkPointer room_id device hostname os_user).

(** *** The set-up in the worker's loop: the recovered thread roots, the room,
    and whether the lease is held *)
Definition lock_ttl_ms (telemetry_refresh_seconds : Z) : Z :=
  wrap 64 (Z.min (telemetry_refresh_seconds * 2) u64_max * 1000).

Definition make_lock (device worker host os_user : string) (now_ms ttl : Z) : WorkerStateLock :=
  mkLock device worker host os_user now_ms (wrap 64 (now_ms + ttl)).

Record StateRoomSetup := mkSetup {
  thread_roots : gmap string string; state_room : option string; lock_held : bool }.

Definition recover (sessions : list StateRoomSession) (roots : gmap string string) : gmap string string :=
  foldl (λ m s, <[srs_uuid s := srs_thread_root s]> m) roots sessions.

Definition setup_state_room (c : MatrixClient) (keychain : KeychainBackend W)
    (host os_user localpart device worker exec_room : string) (ttl : Z) : M StateRoomSetup :=
  room ← attempt (get_or_create c host os_user localpart keychain []);
  match room with
  | Err _ => mret (mkSetup ∅ None false)
  | Ok room_id =>
      now_ms ← observe sdk_now_ms;
      acquired ← attempt (try_acquire_lock room_id (make_lock device worker host os_user now_ms ttl) now_ms);
      held ← match acquired with
             | Ok true => mret true
             | Ok false =>
                 raise "another worker holds the state room lock; refusing to start a second instance"
             | Err _ => mret false
             end;
      recovered ← attempt (read_sessions room_id);
      let roots := match recovered with Ok l => recover l ∅ | Err _ => ∅ end in
      attempt (write_topology room_id (mkStateTopology "" exec_room "")) ;;
      attempt (advertise_in_exec_room room_id exec_room device host os_user) ;;
      mret (mkSetup roots (Some room_id) held)
  end.
End state_room.

(** ** Documented behaviour of the libraries *)
(** A derived instance: a struct is written as an object with its fields, none
    of which is called [errcode], and reads back. *)
Class SerdeLaws (V T : Type) `{JsonValue V} `{JsonNumbers V} `{!Serde V T} : Prop :=
  serde_roundtrip (x : T) : ∃ v : V, to_value x = Ok v ∧ from_value v = Ok x ∧
    is_empty_content v = false ∧ get v "errcode" = None.

Section theory.
Context {W V : Type} `{MatrixSdk W V} `{JsonValue V} `{JsonU64 V} `{JsonBuild V} `{JsonContainers V}
  `{JsonNumbers V} `{HttpServer W V} `{RestExternals}.
Context `{!Serde V WorkerStateIdentity} `{!Serde V StateRoomSession} `{!Serde V WorkerStateLock}.

Lemma deserialize_written {T} `{!Serde V T, !SerdeLaws V T} (x : T) v :
  to_value x = Ok v → deserialize_if_present v = Ok (Some x).
Proof.
  intros Hv. destruct (serde_roundtrip (V := V) x) as (v' & Hv' & Hfrom & Hne & Herr).
  assert (v' = v) as -> by congruence. unfold deserialize_if_present.
  rewrite Herr, Hne, Hfrom. rewrite bool_decide_eq_false_2; [done|]. by intros [? [=]].
Qed.

(** *** Which room is used *)
(** The checks that a room passed at some moment, or its creation. *)
Definition vetted (c : MatrixClient) (hostname os_user localpart user : string) (trusted : list string)
    (room_id : string) : Prop :=
  (∃ w1 w2 (all_state : list V), get_all_room_state room_id w1 = (Returns all_state, w2) ∧
     check_state_room all_state user trusted = Ok ()) ∨
  (∃ w1 w2, create_worker_state_room c hostname os_user localpart w1 = (Returns room_id, w2)).

Lemma validate_vets c hostname os_user localpart user trusted room_id w w' :
  attempt (mx (validate_state_room room_id user trusted)) w = (Returns (Ok ()), w') →
  vetted c hostname os_user localpart user trusted room_id.
Proof.
  unfold attempt. destruct (mx _ w) as [[[]|e|] w1] eqn:E; intros; simplify_eq.
  apply mx_returns in E. apply io_bind_returns in E as (all & w2 & Hall & Hcheck).
  left. exists w, w2, all. split; [done|].
  by destruct (check_state_room all user trusted) as [[]|].
Qed.

(** The room a worker keeps its state in is vetted. When [get_or_create]
    returns a room, whether its id came from the keychain, from the alias or
    from a scan of the joined rooms, then the state of this very room, as the
    server reported it during the call, passed the check of its creator and
    its encryption, or the call created it. *)
Theorem get_or_create_vetted c hostname os_user localpart keychain trusted room_id w w' :
  get_or_create c hostname os_user localpart keychain trusted w = (Returns room_id, w') →
  ∃ user w0, user_id w0 = (Returns user, w0) ∧ vetted c hostname os_user localpart user trusted room_id.
Proof.
  unfold get_or_create. intros (user & w1 & Hu & Hrun)%io_bind_returns.
  apply mx_returns in Hu. exists user, w.
  assert (w1 = w) as ->.
  { unfold user_id, mbind, Io_bind, observe in Hu. destruct (sdk_user_id w); [by injection Hu|discriminate Hu]. }
  split; [done|].
  apply io_bind_returns in Hrun as (cached & w2 & Hcached & Hrun). destruct cached as [room|].
  { injection Hrun as <- <-. apply io_bind_returns in Hcached as (data & w3 & _ & Hcached).
    destruct (data ≫= from_utf8) as [text|]; [|by injection Hcached].
    destruct (parse_room_id text) as [id|e]; [|by injection Hcached].
    apply io_bind_returns in Hcached as ([[]|e] & w4 & Hv & Hret); injection Hret as ?; simplify_eq.
    by eapply validate_vets. }
  apply io_bind_returns in Hrun as (discovered & w3 & Hdisc & Hrun). destruct discovered as [room|].
  { injection Hrun as <- <-. apply io_bind_returns in Hdisc as (found & w4 & _ & Hdisc).
    destruct found as [id|]; [|by injection Hdisc].
    apply io_bind_returns in Hdisc as ([] & w5 & _ & Hdisc).
    apply io_bind_returns in Hdisc as (joined & w6 & _ & Hdisc).
    apply io_bind_returns in Hdisc as ([|] & w7 & _ & Hdisc); [|by injection Hdisc].
    apply io_bind_returns in Hdisc as ([[]|e] & w8 & Hv & Hdisc); [|by injection Hdisc].
    apply io_bind_returns in Hdisc as (? & w9 & _ & Hret). injection Hret as -> ->.
    by eapply validate_vets. }
  apply io_bind_returns in Hrun as (room & w4 & Hcreate & Hrun).
  assert (room = room_id) as ->.
  { apply io_bind_returns in Hrun as (? & ? & _ & Hrun). apply io_bind_returns in Hrun as (? & ? & _ & Hrun).
    apply io_bind_returns in Hrun as (? & ? & _ & Hret). by injection Hret. }
  right. apply io_bind_returns in Hcreate as (created & w5 & Ha & Hcreate).
  unfold attempt in Ha. destruct (mx _ w3) as [[r|e|] w6] eqn:Hm; simplify_eq.
  - injection Hcreate as <- <-. apply mx_returns in Hm. eauto.
  - destruct (contains _ _); [|done].
    apply io_bind_returns in Hcreate as (sn & w7 & _ & Hcreate).
    apply io_bind_returns in Hcreate as ([] & w8 & _ & Hcreate). apply mx_returns in Hcreate. eauto.
Qed.

(** *** The lease *)
Lemma write_value_sends {T} `{!Serde V T} room ty key (x : T) v w :
  to_value x = Ok v → write_value room ty key x w = mx (send_state_event room ty key v) w.
Proof. intros Hv. unfold write_value. by rewrite Hv. Qed.

(** Taking the lease, case by case. What a worker concludes from the
    answer to its reading of the lock: an absent or removed lock, one of its
    own device and one that has run out are taken over; a running one of
    another device is left alone, and nothing is written. But an answer with
    an [errcode] counts as an absent lock, whatever the error: a read that is
    refused or rate-limited lets the worker overwrite a running lease. *)
Theorem try_acquire_exact `{!SerdeLaws V WorkerStateLock} room lock now value w w1 :
  get_room_state_event room WORKER_STATE_LOCK "" w = (Returns value, w1) →
  ∃ v, to_value lock = Ok v ∧
  (let take := match send_state_event room WORKER_STATE_LOCK "" v w1 with
               | (Returns _, w2) => (Returns true, w2)
               | (Raises e, w2) => (Raises (show_error e), w2)
               | (Panics, w2) => (Panics, w2)
               end in
   if bool_decide (is_Some (get value "errcode")) then try_acquire_lock room lock now w = take
   else if is_empty_content value then try_acquire_lock room lock now w = take
   else match (from_value value : result WorkerStateLock string) with
        | Err e => try_acquire_lock room lock now w = (Raises e, w1)
        | Ok existing =>
            if bool_decide (device_id existing ≠ device_id lock ∧ now < expires_at existing)%Z
            then try_acquire_lock room lock now w = (Returns false, w1)
            else try_acquire_lock room lock now w = take
        end).
Proof.
  intros Hget. destruct (serde_roundtrip (V := V) lock) as (v & Hv & _). exists v. split; [done|]. intros take.
  assert (∀ existing, deserialize_if_present value = Ok existing → may_acquire existing lock now = true →
    try_acquire_lock room lock now w = take) as Htake.
  { intros existing Hd Hmay. unfold try_acquire_lock, read_lock, read_value, mbind, Io_bind, mx, io_map_err.
    rewrite Hget, Hd. simpl. rewrite Hmay. unfold mbind, Io_bind.
    rewrite (write_value_sends _ _ _ _ v) by done. unfold take, mx, io_map_err.
    by destruct (send_state_event _ _ _ _ _) as [[]]. }
  unfold deserialize_if_present in Htake.
  destruct (bool_decide (is_Some (get value "errcode"))) eqn:Herr; [by eapply (Htake None)|].
  destruct (is_empty_content value) eqn:Hemp; [by eapply (Htake None)|].
  destruct (from_value value) as [existing|e] eqn:Hfrom.
  - destruct (bool_decide (device_id existing ≠ device_id lock ∧ now < expires_at existing)%Z) eqn:Hother;
      [apply bool_decide_eq_true in Hother|apply bool_decide_eq_false in Hother].
    + unfold try_acquire_lock, read_lock, read_value, mbind, Io_bind, mx, io_map_err, deserialize_if_present.
      rewrite Hget, Herr, Hemp, Hfrom. simpl. unfold may_acquire.
      destruct Hother as [Hne Hlt]. apply str_eqb_false in Hne. rewrite Hne.
      by rewrite bool_decide_eq_true_2.
    + apply (Htake (Some existing)); [done|]. unfold may_acquire. destruct (str_eqb _ _) eqn:E; [done|].
      apply str_eqb_false in E. apply negb_true_iff, bool_decide_eq_false. tauto.
  - unfold try_acquire_lock, read_lock, read_value, mbind, Io_bind, mx, io_map_err, deserialize_if_present.
    by rewrite Hget, Herr, Hemp, Hfrom.
Qed.
End theory.

(** *** Exclusion *)
Section lease.
Context {W V : Type} `{MatrixSdk W V} `{JsonValue V} `{JsonU64 V} `{JsonBuild V} `{JsonContainers V}
  `{JsonNumbers V} `{HttpServer W V} `{RestExternals} `{!Serde V WorkerStateLock} (room : string).

(** The lock event of a room: [cell] is the content that was sent last, and a
    request that fails changes nothing. In a sealed room the server keeps state
    events encrypted (MSC4362: as [m.room.encrypted]), and the plain request for
    an event of the lock's type is answered by an error; otherwise what is read
    is what was sent last. *)
Record LockRoom (sealed : bool) (cell : W → V) : Prop := {
  lock_read w : ∃ v, get_room_state_event room WORKER_STATE_LOCK "" w = (Returns v, w) ∧
    if sealed then is_Some (get v "errcode") else v = cell w;
  lock_sent v w : match send_state_event room WORKER_STATE_LOCK "" v w with
                  | (Returns _, w') => cell w' = v
                  | (_, w') => cell w' = cell w
                  end }.

(** The first request of [try_acquire_lock], with the conclusion from it. *)
Definition lock_free (lock : WorkerStateLock) (now_ms : Z) : Io W string bool :=
  existing ← read_lock room; mret (may_acquire existing lock now_ms).

Lemma try_acquire_split lock now w :
  try_acquire_lock room lock now w =
  (free ← lock_free lock now;
   if free : bool then write_value room WORKER_STATE_LOCK "" lock ;; mret true else mret false) w.
Proof. unfold try_acquire_lock, lock_free, mbind, Io_bind. by destruct (read_lock room w) as [[x|e|] w1]. Qed.

(** Workers of one room, request by request: the devices between their two
    requests, with the lock that they are about to write and whether another
    device has taken the lease since they read; and the devices that hold the
    lease, each with the end of the lease that it wrote last. *)
Inductive LeaseStep : Type :=
| LRead (lock : WorkerStateLock) (now : Z)
| LWrite (device : string)
| LRenew (lock : WorkerStateLock)
| LRelease (device : string).

Record LeaseState := mkLease {
  ls_world : W; ls_reading : gmap string (WorkerStateLock * bool); ls_held : gmap string Z }.

Definition lease_step (s : LeaseState) (step : LeaseStep) : LeaseState :=
  match step with
  | LRead lock now =>
      match lock_free lock now (ls_world s) with
      | (Returns true, w') => mkLease w' (<[device_id lock := (lock, false)]> (ls_reading s)) (ls_held s)
      | (_, w') => mkLease w' (delete (device_id lock) (ls_reading s)) (ls_held s)
      end
  | LWrite device =>
      match ls_reading s !! device with
      | Some (lock, _) =>
          match write_value room WORKER_STATE_LOCK "" lock (ls_world s) with
          | (Returns _, w') =>
              mkLease w' ((λ p, (p.1, true)) <$> delete device (ls_reading s)) (<[device := expires_at lock]> (ls_held s))
          | (_, w') => mkLease w' (delete device (ls_reading s)) (ls_held s)
          end
      | None => s
      end
  | LRenew lock =>
      if bool_decide (is_Some (ls_held s !! device_id lock)) then
        match renew_lock room lock (ls_world s) with
        | (Returns _, w') => mkLease w' (ls_reading s) (<[device_id lock := expires_at lock]> (ls_held s))
        | (_, w') => mkLease w' (ls_reading s) (ls_held s)
        end
      else s
  | LRelease device =>
      if bool_decide (is_Some (ls_held s !! device)) then
        let '(_, w') := release_lock room (ls_world s) in mkLease w' (ls_reading s) (delete device (ls_held s))
      else s
  end.
Definition lease_run (steps : list LeaseStep) (s : LeaseState) : LeaseState := foldl lease_step s steps.
Definition nobody (w : W) : LeaseState := mkLease w ∅ ∅.

(** In time: whenever a worker reads the lock, no lease of a holder has run
    out on its clock; and when it writes, no other has taken the lease since. *)
Definition in_time (s : LeaseState) (step : LeaseStep) : Prop :=
  match step with
  | LRead _ now => ∀ d e, ls_held s !! d = Some e → (now < e)%Z
  | LWrite device => ∀ p, ls_reading s !! device = Some p → p.2 = false
  | _ => True
  end.
Fixpoint in_time_run (steps : list LeaseStep) (s : LeaseState) : Prop :=
  match steps with
  | [] => True
  | step :: steps => in_time s step ∧ in_time_run steps (lease_step s step)
  end.

Context `{!SerdeLaws V WorkerStateLock} (sealed : bool) (cell : W → V) (Hroom : LockRoom sealed cell).

Lemma write_lock lock w :
  match write_value room WORKER_STATE_LOCK "" lock w with
  | (Returns _, w') => deserialize_if_present (cell w') = Ok (Some lock)
  | (_, w') => cell w' = cell w
  end.
Proof using Type*.
  destruct (serde_roundtrip (V := V) lock) as (v & Hv & _). rewrite (write_value_sends _ _ _ _ v) by done.
  pose proof (lock_sent _ _ Hroom v w) as Hs. unfold mx, io_map_err.
  destruct (send_state_event _ _ _ v w) as [[x|e|] w']; [|done..]. rewrite Hs. by apply deserialize_written.
Qed.

(** What a worker concludes from its reading. *)
Lemma lock_free_exact lock now w :
  lock_free lock now w =
    (match (if sealed then Ok None else deserialize_if_present (cell w)) with
     | Ok existing => Returns (may_acquire existing lock now)
     | Err e => Raises e
     end, w).
Proof using Type*.
  unfold lock_free, read_lock, read_value, mbind, Io_bind, mx, io_map_err.
  destruct (lock_read _ _ Hroom w) as (v & Hr & Hv). rewrite Hr. destruct sealed.
  - unfold deserialize_if_present. by rewrite bool_decide_eq_true_2.
  - subst v. by destruct (deserialize_if_present (cell w)).
Qed.

(** The two requests of one worker, one after the other, are its
    [try_acquire_lock]. *)
Lemma lease_attempt lock now s :
  lease_run [LRead lock now; LWrite (device_id lock)] s =
  match try_acquire_lock room lock now (ls_world s) with
  | (Returns true, w') =>
      mkLease w' ((λ p, (p.1, true)) <$> delete (device_id lock) (ls_reading s)) (<[device_id lock := expires_at lock]> (ls_held s))
  | (_, w') => mkLease w' (delete (device_id lock) (ls_reading s)) (ls_held s)
  end.
Proof.
  rewrite try_acquire_split. unfold mbind at 1, Io_bind at 1. simpl.
  destruct (lock_free lock now (ls_world s)) as [[[|]|e|] w1]; simpl; rewrite ?lookup_insert_eq, ?lookup_delete_eq; [|done..].
  simpl. unfold mbind, Io_bind. destruct (write_value _ _ _ lock w1) as [[x|e|] w2]; by rewrite delete_insert_eq.
Qed.

(** The lease is nobody's, or that of the one worker whose lock is in the
    room; and one that is about to write, and was not overtaken, would take it
    from nobody else. *)
Definition lease_inv (s : LeaseState) : Prop :=
  (ls_held s = ∅ ∨ ∃ lock, ls_held s = {[ device_id lock := expires_at lock ]} ∧
     deserialize_if_present (cell (ls_world s)) = Ok (Some lock)) ∧
  ∀ d lock, ls_reading s !! d = Some (lock, false) → d = device_id lock ∧ ∀ d', is_Some (ls_held s !! d') → d' = d.

Lemma lease_read_inv lock now s : sealed = false → lease_inv s → in_time s (LRead lock now) → lease_inv (lease_step s (LRead lock now)).
Proof using Type*.
  intros Hplain [Hheld Hreading] Ht. simpl in *. rewrite lock_free_exact, Hplain.
  assert (Hdrop : lease_inv (mkLease (ls_world s) (delete (device_id lock) (ls_reading s)) (ls_held s))).
  { split; [exact Hheld|]. intros d l Hl. simpl in Hl. apply lookup_delete_Some in Hl as [_ Hl]. by apply Hreading. }
  destruct (deserialize_if_present (cell (ls_world s))) as [existing|e] eqn:Hd; [|exact Hdrop].
  destruct (may_acquire existing lock now) eqn:Hmay; [|exact Hdrop]. split; [simpl; rewrite Hd; exact Hheld|].
  intros d l Hl. simpl in Hl. apply lookup_insert_Some in Hl as [[<- [= <-]]|[_ Hl]]; [|by apply Hreading]. split; [done|]. simpl.
  intros d' [e' He']. destruct Hheld as [Hempty|(l0 & Heq & Hl0)]; [by rewrite Hempty in He'|].
  simplify_eq. pose proof (Ht _ _ He') as Hlt. rewrite Heq in He'. apply lookup_singleton_Some in He' as [<- <-].
  unfold may_acquire in Hmay. destruct (str_eqb (device_id l0) (device_id lock)) eqn:E; [by apply str_eqb_true in E|].
  by apply negb_true_iff, bool_decide_eq_false in Hmay.
Qed.

Lemma held_only (held : gmap string Z) d e : (∀ d', is_Some (held !! d') → d' = d) → <[d := e]> held = {[ d := e ]}.
Proof.
  intros Honly. apply map_eq. intros d'. destruct (decide (d' = d)) as [->|Hne]; simplify_map_eq; [done|].
  destruct (held !! d') eqn:E; [|done]. by rewrite (Honly d') in Hne.
Qed.

Lemma lease_write_inv device s : lease_inv s → in_time s (LWrite device) → lease_inv (lease_step s (LWrite device)).
Proof using Type*.
  intros [Hheld Hreading] Ht. simpl in *. destruct (ls_reading s !! device) as [[lock b]|] eqn:Hp; [|by split].
  pose proof (Ht _ eq_refl) as Hb. simpl in Hb. subst b. destruct (Hreading _ _ Hp) as [-> Honly].
  pose proof (write_lock lock (ls_world s)) as Hw.
  destruct (write_value _ _ _ lock (ls_world s)) as [[x|e|] w']; split; simpl.
  - right. exists lock. split; [by apply held_only|done].
  - intros d l. rewrite lookup_fmap, fmap_Some. by intros (? & _ & ?).
  - by rewrite Hw.
  - intros d l [_ Hl]%lookup_delete_Some. by apply Hreading.
  - by rewrite Hw.
  - intros d l [_ Hl]%lookup_delete_Some. by apply Hreading.
Qed.

Lemma lease_renew_inv lock s : lease_inv s → lease_inv (lease_step s (LRenew lock)).
Proof using Type*.
  intros [Hheld Hreading]. simpl. case_bool_decide as His; [|by split].
  pose proof (write_lock lock (ls_world s)) as Hw. unfold renew_lock.
  destruct (write_value _ _ _ lock (ls_world s)) as [[x|e|] w']; split; simpl; rewrite ?Hw; try done.
  - right. exists lock. split; [|done]. apply held_only. intros d' Hd'.
    destruct Hheld as [Hempty|(l0 & Heq & _)]; [rewrite Hempty in Hd'; by destruct Hd'|]. rewrite Heq in His, Hd'.
    destruct His as [? [<- _]%lookup_singleton_Some], Hd' as [? [<- _]%lookup_singleton_Some]. done.
  - intros d l Hl. destruct (Hreading d l Hl) as [Hd Honly]. split; [done|]. intros d' Hd'. apply Honly.
    destruct (decide (d' = device_id lock)) as [->|Hne]; [done|]. by rewrite lookup_insert_ne in Hd'.
Qed.

Lemma lease_release_inv device s : lease_inv s → lease_inv (lease_step s (LRelease device)).
Proof using Type*.
  intros [Hheld Hreading]. simpl. case_bool_decide as His; [|by split]. destruct (release_lock room _) as [o w']. split; simpl.
  - left. destruct Hheld as [Hempty|(l0 & Heq & _)]; [rewrite Hempty in His; by destruct His|]. rewrite Heq in *.
    destruct His as [? [<- _]%lookup_singleton_Some]. by rewrite delete_singleton_eq.
  - intros d l Hl. destruct (Hreading d l Hl) as [Hd Honly]. split; [done|]. intros d' Hd'. apply Honly.
    destruct Hd' as [e He]. apply lookup_delete_Some in He as [_ He]. by exists e.
Qed.

Lemma lease_run_inv steps : ∀ s, sealed = false → in_time_run steps s → lease_inv s → lease_inv (lease_run steps s).
Proof using Type*.
  induction steps as [|step steps IH]; intros s Hplain Hrun Hinv; [done|]. destruct Hrun as [Ht Hrun]. apply IH; [done..|].
  destruct step; [by apply lease_read_inv|by apply lease_write_inv|by apply lease_renew_inv|by apply lease_release_inv].
Qed.

(** C4: what the lease excludes, and what it does not. Workers of one room read
    the lock, write it, renew it and release it, each request a step of its
    own, in any order, starting with no holder and whatever the room holds; any
    request may fail. In a room whose state is in the clear, as long as every
    reading comes before the leases of the holders have run out and no worker
    is overtaken between its reading and its writing, at most one device holds
    the lease, and then its lock is the one in the room. Two workers that both
    read a free room before either writes both hold it. In a room whose state
    is encrypted, as the worker creates its state rooms, the lock is never
    found: no attempt is refused, and every one whose request succeeds takes
    the lease, beside whoever holds it. *)
Theorem lease_exclusive steps w :
  let s := lease_run steps (nobody w) in
  (sealed = false → in_time_run steps (nobody w) →
   ∀ d1 d2 e1 e2, ls_held s !! d1 = Some e1 → ls_held s !! d2 = Some e2 →
   d1 = d2 ∧ ∃ lock, deserialize_if_present (cell (ls_world s)) = Ok (Some lock) ∧ device_id lock = d1 ∧ expires_at lock = e1) ∧
  (∀ l1 l2 now1 now2 w1 w2 w3,
   lock_free l1 now1 (ls_world s) = (Returns true, w1) → lock_free l2 now2 w1 = (Returns true, w2) → device_id l1 ≠ device_id l2 →
   write_value room WORKER_STATE_LOCK "" l1 w2 = (Returns (), w3) → (write_value room WORKER_STATE_LOCK "" l2 w3).1 = Returns () →
   ls_held (lease_run [LRead l1 now1; LRead l2 now2; LWrite (device_id l1); LWrite (device_id l2)] s)
   = <[device_id l2 := expires_at l2]> (<[device_id l1 := expires_at l1]> (ls_held s))) ∧
  (sealed = true → ∀ lock now,
   (try_acquire_lock room lock now (ls_world s)).1 ≠ Returns false ∧
   ∀ w', try_acquire_lock room lock now (ls_world s) = (Returns true, w') →
     deserialize_if_present (cell w') = Ok (Some lock) ∧
     ls_held (lease_run [LRead lock now; LWrite (device_id lock)] s) = <[device_id lock := expires_at lock]> (ls_held s)).
Proof using Type*.
  intros s. split_and!.
  - intros Hplain Hrun d1 d2 e1 e2 Hd1 Hd2. assert (Hinv : lease_inv s) by (apply lease_run_inv; [done..|by split; [left|]]).
    destruct Hinv as [[Hempty|(lock & Heq & Hl)] _]; [by rewrite Hempty in Hd1|].
    rewrite Heq in Hd1, Hd2. apply lookup_singleton_Some in Hd1 as [<- <-], Hd2 as [<- _]. eauto.
  - intros l1 l2 now1 now2 w1 w2 w3 Hf1 Hf2 Hne Hw1 Hw2. simpl. rewrite Hf1. simpl. rewrite Hf2. simpl.
    rewrite lookup_insert_ne, lookup_insert_eq by done. simpl. rewrite Hw1. simpl.
    rewrite lookup_fmap, lookup_delete_ne, lookup_insert_eq by done. simpl.
    destruct (write_value _ _ _ l2 w3) as [[[]|e|] w4]; [done|discriminate Hw2..].
  - intros Hsealed lock now. pose proof (write_lock lock (ls_world s)) as Hw.
    assert (Htry : try_acquire_lock room lock now (ls_world s) =
      (write_value room WORKER_STATE_LOCK "" lock ;; mret true) (ls_world s)).
    { rewrite try_acquire_split. unfold mbind at 1, Io_bind at 1. by rewrite lock_free_exact, Hsealed. }
    rewrite lease_attempt, Htry. clear Htry. unfold mbind, Io_bind, mret, Io_ret.
    destruct (write_value _ _ _ lock (ls_world s)) as [[x|e|] w2]; (split; [done|]); intros w' Hret; [|discriminate Hret..].
    injection Hret as <-. by split.
Qed.

(** A lease that has run out is taken over, and the former holder is not
    told: its next renewal takes it back, and both go on as holders. *)
Theorem late_renewal_two_holders old new now w w1 :
  sealed = false → deserialize_if_present (cell w) = Ok (Some old) → device_id old ≠ device_id new → (expires_at old ≤ now)%Z →
  write_value room WORKER_STATE_LOCK "" new w = (Returns (), w1) → (write_value room WORKER_STATE_LOCK "" old w1).1 = Returns () →
  let s := lease_run [LRead new now; LWrite (device_id new); LRenew old] (mkLease w ∅ {[ device_id old := expires_at old ]}) in
  ls_held s = {[ device_id old := expires_at old; device_id new := expires_at new ]} ∧
  deserialize_if_present (cell (ls_world s)) = Ok (Some old).
Proof using Type*.
  intros Hplain Hold Hne Hexp Hw1 Hw2. simpl. rewrite lock_free_exact, Hplain, Hold.
  assert (may_acquire (Some old) new now = true) as ->.
  { unfold may_acquire. apply str_eqb_false in Hne. rewrite Hne. apply negb_true_iff, bool_decide_eq_false. lia. }
  simpl. rewrite lookup_insert_eq. simpl. rewrite Hw1. simpl.
  rewrite lookup_insert_ne, lookup_singleton_eq by done. simpl. unfold renew_lock. pose proof (write_lock old w1) as Hw.
  destruct (write_value _ _ _ old w1) as [[[]|e|] w2]; [|discriminate Hw2..]. simpl. split; [|done].
  apply map_eq. intros d. destruct (decide (d = device_id old)) as [->|Ho]; [by simplify_map_eq|].
  destruct (decide (d = device_id new)) as [->|Hn]; by simplify_map_eq.
Qed.
End lease.

(** *** The set-up in a sealed room *)
Section sealed.
Context {W V : Type} `{MatrixSdk W V} `{JsonValue V} `{JsonU64 V} `{JsonBuild V} `{JsonContainers V}
  `{JsonNumbers V} `{HttpServer W V} `{RestExternals}.
Context `{!Serde V WorkerStateIdentity} `{!Serde V StateRoomSession} `{!Serde V StateRoomTopology}
  `{!Serde V StateRoomPointer} `{!Serde V WorkerStateLock, !SerdeLaws V WorkerStateLock}.

(** What the server tells of the state of a room without any plain event of a
    session. *)
Definition shows_no_session (room : string) : Prop :=
  ∀ w, ∃ l : list V, get_all_room_state room w = (Returns l, w) ∧
    Forall (λ e, get_str e "type" = Some "m.room.encrypted" ∨ get_str e "type" = Some "m.room.create") l.

Lemma no_session_read room w : shows_no_session room → read_sessions (V := V) room w = (Returns [], w).
Proof.
  intros Hs. destruct (Hs w) as (l & Hl & Hall).
  assert (Hnone : filter_state_events_by_type l WORKER_STATE_SESSION = []).
  { clear Hl. induction Hall as [|e l He _ IH]; [done|]. refine (eq_trans _ IH).
    unfold filter_state_events_by_type. simpl. unfold state_event at 1. by destruct He as [-> | ->]. }
  unfold read_sessions, deserialize_all_of_type, get_all_state_events_of_type.
  unfold mbind, Io_bind, mx, io_map_err. by rewrite Hl, Hnone.
Qed.

(** The state room that a worker creates gives nothing back. Its state is
    encrypted, and what the worker asks of the server is the events as they are
    stored: whatever was written to the room before, by this worker or
    another, the set-up is never refused for the lease of another worker, it
    recovers no thread root of an earlier session, and it holds the lease unless
    the request that writes it fails. *)
Theorem sealed_room_recovers_nothing c keychain host os_user localpart device worker exec_room ttl room cell w w1 :
  get_or_create (V := V) c host os_user localpart keychain [] w = (Returns room, w1) →
  LockRoom room true cell → shows_no_session room →
  match setup_state_room c keychain host os_user localpart device worker exec_room ttl w with
  | (Returns s, _) =>
      thread_roots s = ∅ ∧ state_room s = Some room ∧
      lock_held s = match write_value room WORKER_STATE_LOCK "" (make_lock device worker host os_user (sdk_now_ms w1) ttl) w1 with
                    | (Returns _, _) => true
                    | _ => false
                    end
  | (Raises _, _) => False
  | (Panics, _) => True
  end.
Proof using SerdeLaws0 H1.
  intros Hroom Hlock Hsess. unfold setup_state_room, mbind at 1, Io_bind at 1, attempt at 1. rewrite Hroom, io_bind_observe.
  set (lock := make_lock _ _ _ _ _ _).
  assert (Htry : try_acquire_lock room lock (sdk_now_ms w1) w1 = (write_value room WORKER_STATE_LOCK "" lock ;; mret true) w1).
  { rewrite try_acquire_split. unfold mbind at 1, Io_bind at 1. by rewrite (lock_free_exact room true cell Hlock). }
  unfold mbind at 1, Io_bind at 1, attempt at 1. rewrite Htry. clear Htry. unfold mbind at 1, Io_bind at 1.
  destruct (write_value _ _ _ lock w1) as [[x|e|] w2]; [| |done].
  all: unfold mbind, Io_bind, mret, Io_ret, attempt; rewrite no_session_read by done.
  all: destruct (write_topology _ _ _) as [[y|e1|] w3]; [..|done].
  all: by destruct (advertise_in_exec_room _ _ _ _ _ _) as [[z|e2|] w4].
Qed.
End sealed.

(** *** Sessions read back *)
Section sessions.
Context {W V : Type} `{MatrixSdk W V} `{JsonValue V} `{JsonU64 V} `{JsonBuild V} `{JsonContainers V}
  `{JsonNumbers V} `{HttpServer W V} `{RestExternals} `{!Serde V StateRoomSession} (room : string).

(** The session events of a room that works. *)
Record SessionEvents (state : W → gmap string V) : Prop := {
  events_read w : ∃ l, get_all_state_events_of_type room WORKER_STATE_SESSION w = (Returns l, w) ∧
    l ≡ₚ map_to_list (state w);
  events_write key v w : ∃ w', send_state_event room WORKER_STATE_SESSION key v w = (Returns (), w') ∧
    state w' = <[key := v]> (state w);
  removed_empty : is_empty_content (json_object [] : V) = true }.

Inductive SessionWrite : Type :=
| WriteSession (device uuid : string) (s : StateRoomSession)
| RemoveSession (device uuid : string).

Definition session_write (op : SessionWrite) : Io W string () :=
  match op with
  | WriteSession device uuid s => write_session room device uuid s
  | RemoveSession device uuid => remove_session room device uuid
  end.

(** The reference: a map from keys to sessions. *)
Definition reference (op : SessionWrite) (m : gmap string StateRoomSession) : gmap string StateRoomSession :=
  match op with
  | WriteSession device uuid s => <[format_session_key device uuid := s]> m
  | RemoveSession device uuid => delete (format_session_key device uuid) m
  end.

Context `{!SerdeLaws V StateRoomSession} (state : W → gmap string V) (Hroom : SessionEvents state).

(** The events of the room decode to the reference. *)
Definition stands_for (w : W) (m : gmap string StateRoomSession) : Prop :=
  ∀ key, m !! key = state w !! key ≫= λ v, present (key, v).

Lemma session_write_step op m w :
  stands_for w m → ∃ w', session_write op w = (Returns (), w') ∧ stands_for w' (reference op m).
Proof using Type*.
  intros Hm. destruct op as [device uuid s|device uuid]; simpl.
  - destruct (serde_roundtrip (V := V) s) as (v & Hv & Hfrom & Hne & _).
    destruct (events_write _ Hroom (format_session_key device uuid) v w) as (w' & Hsend & Hs).
    exists w'. split.
    + unfold write_session. rewrite (write_value_sends _ _ _ _ v) by done. by apply mx_returns.
    + intros key. rewrite Hs. destruct (decide (key = format_session_key device uuid)) as [->|Hne'].
      * rewrite !lookup_insert_eq. simpl. unfold present. simpl. by rewrite Hne, Hfrom.
      * by rewrite !lookup_insert_ne.
  - destruct (events_write _ Hroom (format_session_key device uuid) (json_object []) w) as (w' & Hsend & Hs).
    exists w'. split; [by apply mx_returns|].
    intros key. rewrite Hs. destruct (decide (key = format_session_key device uuid)) as [->|Hne'].
    + rewrite lookup_delete_eq, lookup_insert_eq. simpl. unfold present. simpl. by rewrite (removed_empty _ Hroom).
    + by rewrite lookup_delete_ne, lookup_insert_ne.
Qed.

Lemma session_writes ops : ∀ m w,
  stands_for w m → ∃ w', for_each session_write ops w = (Returns (), w') ∧
    stands_for w' (foldl (λ m op, reference op m) m ops).
Proof using Type*.
  induction ops as [|op ops IH]; intros m w Hm; [by exists w|].
  destruct (session_write_step op m w Hm) as (w1 & Hw1 & Hm1).
  destruct (IH _ _ Hm1) as (w' & Hw' & Hm'). exists w'. simpl. unfold mbind, Io_bind. by rewrite Hw1.
Qed.

Lemma omap_present (s : gmap string V) :
  omap present (map_to_list s) ≡ₚ (map_to_list (omap (λ v, present (T := StateRoomSession) ("", v)) s)).*2.
Proof.
  induction s as [|key v s Hnone IH] using map_ind; [done|].
  rewrite map_to_list_insert by done. cbn [omap list_omap].
  change (present (key, v)) with (present (T := StateRoomSession) ("", v)).
  destruct (present ("", v)) as [x|] eqn:Hp.
  - rewrite (omap_insert_Some _ _ _ _ x) by done.
    rewrite map_to_list_insert by (by rewrite lookup_omap, Hnone). simpl. by f_equiv.
  - rewrite omap_insert_None by done. rewrite delete_id by (by rewrite lookup_omap, Hnone). done.
Qed.

(** Sessions survive in the state room. On a room that works, starting
    without session events, any sequence of writes and removals succeeds, and
    what is then read is the sessions of the reference map, each once: those
    written last under their key and not removed since. *)
Theorem sessions_roundtrip ops w :
  state w = ∅ →
  ∃ w' l, for_each session_write ops w = (Returns (), w') ∧
    read_sessions room w' = (Returns l, w') ∧
    l ≡ₚ (map_to_list (foldl (λ m op, reference op m) ∅ ops)).*2.
Proof using Type*.
  intros Hempty. destruct (session_writes ops ∅ w) as (w' & Hrun & Hstands).
  { intros key. by rewrite Hempty, !lookup_empty. }
  set (m := foldl _ _ _) in *.
  destruct (events_read _ Hroom w') as (l & Hl & Hperm).
  exists w', (omap present l). split; [done|]. split.
  - unfold read_sessions, deserialize_all_of_type, mbind, Io_bind, mx, io_map_err. by rewrite Hl.
  - rewrite Hperm, omap_present.
    assert (m = omap (λ v, present (T := StateRoomSession) ("", v)) (state w')) as ->; [|done].
    apply map_eq. intros key. rewrite lookup_omap, Hstands. by destruct (state w' !! key).
Qed.
End sessions.

(** The key of a session does not determine its device. *)
Lemma session_key_ambiguous : format_session_key "a/b" "c" = format_session_key "a" "b/c".
Proof. done. Qed.

(** ** Witnesses *)
#[local] Existing Instances toy_json toy_u64 toy_containers toy_build toy_numbers toy_externals toy_http
  toy_http_laws toy_sdk.

(** Any countable type as an object with one field. *)
Definition toy_serde (T : Type) `{Countable T} : Serde TJson T := {|
  to_value x := Ok (TObj [("x", TNum (Z.pos (encode x)))]);
  from_value v := match t_get v "x" with
                  | Some (GenLeaf (inr (Z.pos p))) => match decode p with Some x => Ok x | None => Err "?" end
                  | _ => Err "?"
                  end |}.
Lemma toy_serde_laws (T : Type) `{Countable T} : @SerdeLaws TJson T _ _ (toy_serde T).
Proof. intros x. eexists. split; [done|]. split; [|done]. simpl. by rewrite decode_encode. Qed.

#[export] Instance WorkerStateLock_eq_dec : EqDecision WorkerStateLock.
Proof. solve_decision. Defined.
#[export] Instance WorkerStateLock_countable : Countable WorkerStateLock.
Proof.
  apply (inj_countable' (λ l, (device_id l, worker_uuid l, host l, os_user l, acquired_at l, expires_at l))
           (λ '(a, b, c, d, e, f), mkLock a b c d e f)). by intros [].
Defined.
#[export] Instance StateRoomSession_eq_dec : EqDecision StateRoomSession.
Proof. solve_decision. Defined.
#[export] Instance StateRoomSession_countable : Countable StateRoomSession.
Proof.
  apply (inj_countable' (λ s, (srs_uuid s, srs_bin s, srs_args s, srs_tmux_session s, srs_started_at s,
            srs_thread_root s, srs_exec_room_id s, srs_state s))
           (λ '(a, b, c, d, e, f, g, h), mkRoomSession a b c d e f g h)). by intros [].
Defined.
#[export] Instance WorkerStateIdentity_eq_dec : EqDecision WorkerStateIdentity.
Proof. solve_decision. Defined.
#[export] Instance WorkerStateIdentity_countable : Countable WorkerStateIdentity.
Proof.
  apply (inj_countable' (λ i, (wsi_device_id i, wsi_host i, wsi_os_user i)) (λ '(a, b, c), mkStateIdentity a b c)).
  by intros [].
Defined.
#[local] Instance toy_lock_serde : Serde TJson WorkerStateLock := toy_serde _.
#[local] Instance toy_lock_laws : SerdeLaws TJson WorkerStateLock := toy_serde_laws _.
#[local] Instance toy_session_serde : Serde TJson StateRoomSession := toy_serde _.
#[local] Instance toy_session_laws : SerdeLaws TJson StateRoomSession := toy_serde_laws _.
#[local] Instance toy_identity_serde : Serde TJson WorkerStateIdentity := toy_serde _.

Definition toy_cell (w : ToyWorld) : TJson :=
  default (TObj [("errcode", TStr "M_NOT_FOUND")]) (toy_page w (event_page WORKER_STATE_LOCK "")).

(** The toy room in the clear, and one whose state is encrypted: the events are
    stored as [m.room.encrypted], under a key of their type and key. *)
Lemma toy_lock_read w : get_room_state_event "!s" WORKER_STATE_LOCK "" w = (Returns (toy_cell w), w).
Proof.
  unfold get_room_state_event, authorized_request, need_token, toy_cell.
    cbn -[t_print t_parse toy_page event_page].
    unfold mbind, Io_bind, io_map_err, http, json_body. cbn -[t_print t_parse toy_page event_page].
    match goal with |- context [text match toy_page w ?u with _ => _ end] =>
      change u with (event_page WORKER_STATE_LOCK "") end.
    destruct (toy_page w (event_page WORKER_STATE_LOCK "")) as [v|];
      cbn -[t_print t_parse]; by rewrite t_parse_print.
Qed.
Lemma toy_lock_room : LockRoom "!s" false toy_cell.
Proof.
  split; [intros w; exists (toy_cell w); split; [apply toy_lock_read|done]|].
  intros v w. unfold toy_cell, toy_page. simpl. by rewrite lookup_insert_eq.
Qed.

Definition sealed_put (ty key : string) (v : TJson) (w : ToyWorld) : ToyWorld :=
  toy_put "m.room.encrypted" (cat [ty; ":"; key]) v w.
#[local] Instance sealed_sdk : MatrixSdk ToyWorld TJson | 100 :=
  toy_sdk_with (mkFeed (λ _, 0%Z) sealed_put (mret []) [] [] []).
(** The server has no event of the lock's type, and no state but the encrypted. *)
#[local] Instance sealed_http : HttpServer ToyWorld TJson | 100 := λ r w,
  ((toy_http r (mkToy (delete (event_page WORKER_STATE_LOCK "") (pages w))
                  (filter (λ e, e.1.1 = "m.room.encrypted") (events w)))).1, w).
Definition sealed_cell (w : ToyWorld) : TJson :=
  default (TObj []) (toy_page w (event_page "m.room.encrypted" (cat [WORKER_STATE_LOCK; ":"; ""]))).
Local Abbreviation SealedRoom := (LockRoom (H := sealed_sdk) (H5 := sealed_http)).

Lemma sealed_lock_room : SealedRoom "!s" true sealed_cell.
Proof.
  split.
  - intros w. exists (TObj [("errcode", TStr "M_NOT_FOUND")]). split; [|by eexists].
    unfold get_room_state_event, authorized_request, need_token.
    cbn -[t_print t_parse toy_page event_page].
    unfold mbind, Io_bind, io_map_err, http, json_body. cbn -[t_print t_parse toy_page event_page].
    match goal with |- context [toy_page ?w1 ?u] => change (toy_page w1 u) with (delete (event_page WORKER_STATE_LOCK "") (pages w) !! event_page WORKER_STATE_LOCK "") end.
    cbn [pages]. rewrite lookup_delete_eq. cbn -[t_print t_parse]. by rewrite t_parse_print.
  - intros v w. unfold sealed_cell, toy_page. simpl. by rewrite lookup_insert_eq.
Qed.

(** In the clear the second worker is refused; in the sealed room both hold. *)
Lemma lease_exclusive_witness :
  let lock d := mkLock d "u" "h" "o" 0 100 in
  let steps := [LRead (lock "D1") 0; LWrite "D1"; LRead (lock "D2") 50; LWrite "D2"; LRenew (lock "D1")] in
  let s := lease_run "!s" steps (nobody (mkToy ∅ ∅)) in
  let sealed := lease_run (H := sealed_sdk) (H5 := sealed_http) "!s" [LRead (lock "D1") 0; LWrite "D1"] (nobody (mkToy ∅ ∅)) in
  (ls_held s !! "D1" = Some 100%Z ∧ ∀ d e, ls_held s !! d = Some e → d = "D1") ∧
  ls_held (lease_run (H := sealed_sdk) (H5 := sealed_http) "!s" [LRead (lock "D2") 50; LWrite "D2"] sealed)
  = {[ "D1" := 100%Z; "D2" := 100%Z ]}.
Proof.
  intros lock steps s sealed. split.
  - assert (ls_held s !! "D1" = Some 100%Z) as Hd by (by vm_compute).
    split; [done|]. intros d e Hde. symmetry.
    assert (in_time_run "!s" steps (nobody (mkToy ∅ ∅))) as Ht.
    { assert (Hone : ∀ d' e', ({["D1" := 100%Z]} : gmap string Z) !! d' = Some e' → (50 < e')%Z).
      { intros d' e' Hl. apply lookup_singleton_Some in Hl as [_ <-]. lia. }
      split; [intros d' e' Hl; cbn in Hl; by apply lookup_empty_Some in Hl|].
      split; [intros p Hp; vm_compute in Hp; by injection Hp as <-|].
      split; [exact Hone|]. split; [intros p Hp; vm_compute in Hp; discriminate Hp|]. by split. }
    apply (proj1 (lease_exclusive "!s" false toy_cell toy_lock_room steps (mkToy ∅ ∅)) eq_refl Ht "D1" d 100%Z e Hd Hde).
  - pose proof (proj2 (proj2 (lease_exclusive (H := sealed_sdk) (H5 := sealed_http) "!s" true sealed_cell sealed_lock_room
      [LRead (lock "D1") 0; LWrite "D1"] (mkToy ∅ ∅))) eq_refl (lock "D2") 50%Z) as [_ Htaken].
    destruct (try_acquire_lock (H := sealed_sdk) (H5 := sealed_http) "!s" (lock "D2") 50 (ls_world sealed)) as [o w'] eqn:E.
    assert (o = Returns true) as -> by (vm_compute in E; by injection E).
    destruct (Htaken w' E) as [_ Hheld]. refine (eq_trans Hheld _). by vm_compute.
Defined.

#[local] Instance toy_topology_serde : Serde TJson StateRoomTopology := {| to_value _ := Ok (TObj [("t", TBool true)]); from_value _ := Err "?" |}.
#[local] Instance toy_pointer_serde : Serde TJson StateRoomPointer := {| to_value _ := Ok (TObj [("t", TBool true)]); from_value _ := Err "?" |}.

Lemma sealed_shows_nothing : shows_no_session (H := sealed_sdk) (H5 := sealed_http) "!s".
Proof.
  intros w. exists (event_json <$> map_to_list (filter (λ e, e.1.1 = "m.room.encrypted") (events w))). split.
  - unfold get_all_room_state, authorized_request, need_token.
    cbn -[t_print t_parse toy_page]. unfold mbind, Io_bind, io_map_err, http, json_body.
    cbn -[t_print t_parse toy_page].
    match goal with |- context [toy_page ?w1 ?u] =>
      change (toy_page w1 u) with (Some (TArr (event_json <$> map_to_list (events w1)))) end.
    cbn -[t_print t_parse]. rewrite t_parse_print. reflexivity.
  - apply Forall_fmap, Forall_forall. intros [[ty key] v] Hin. apply elem_of_map_to_list in Hin.
    apply map_lookup_filter_Some in Hin as [_ Hty]. simpl in Hty. subst ty. left. reflexivity.
Qed.

(** A worker sets itself up and records a session; then another comes. *)
Definition sealed_setup (device : string) : ToyWorld → outcome StateRoomSetup string * ToyWorld :=
  setup_state_room (H := sealed_sdk) (H5 := sealed_http) (mkMatrixClient None (from_secs 30))
    (mkKeychain (λ _, mret None) (λ _ _, mret ()) (λ _, mret ())) "h" "o" "w" device "u" "!e" 100.
Definition sealed_record : ToyWorld → outcome () string * ToyWorld :=
  write_session (H := sealed_sdk) "!s" "D1" "id" (mkRoomSession "id" "bash" [] None 0 "$root" "!e" "running").
Definition sealed_before : ToyWorld := (sealed_setup "D1" (mkToy ∅ ∅)).2.
Definition sealed_after : ToyWorld := (sealed_record sealed_before).2.
Definition holds_lease (o : outcome StateRoomSetup string) : bool := match o with Returns s => lock_held s | _ => false end.

Lemma sealed_room_recovers_nothing_witness :
  holds_lease (sealed_setup "D1" (mkToy ∅ ∅)).1 = true ∧ (sealed_record sealed_before).1 = Returns () ∧
  ∃ s w, sealed_setup "D2" sealed_after = (Returns s, w) ∧ lock_held s = true ∧ thread_roots s = ∅.
Proof.
  split; [by vm_compute|]. split; [by vm_compute|].
  destruct (get_or_create (H := sealed_sdk) (H5 := sealed_http) (mkMatrixClient None (from_secs 30)) "h" "o" "w"
    (mkKeychain (λ _, mret None) (λ _ _, mret ()) (λ _, mret ())) [] sealed_after) as [o w1] eqn:Eg.
  assert (Ho : (get_or_create (H := sealed_sdk) (H5 := sealed_http) (mkMatrixClient None (from_secs 30)) "h" "o" "w"
    (mkKeychain (λ _, mret None) (λ _ _, mret ()) (λ _, mret ())) [] sealed_after).1 = Returns "!s") by (by vm_compute).
  rewrite Eg in Ho. simpl in Ho. subst o.
  pose proof (sealed_room_recovers_nothing (H := sealed_sdk) (H5 := sealed_http) _
    (mkKeychain (λ _, mret None) (λ _ _, mret ()) (λ _, mret ())) "h" "o" "w" "D2" "u" "!e" 100%Z "!s" sealed_cell
    sealed_after w1 Eg sealed_lock_room sealed_shows_nothing) as Hs.
  assert (Hheld : holds_lease (sealed_setup "D2" sealed_after).1 = true) by (by vm_compute).
  unfold sealed_setup in *.
  destruct (setup_state_room _ _ _ _ _ "D2" _ _ _ sealed_after) as [[s|e|] w]; [|destruct Hs|discriminate Hheld].
  exists s, w. split; [done|]. split; [exact Hheld|]. apply Hs.
Defined.

Lemma try_acquire_exact_witness :
  ∃ v, to_value (mkLock "D" "u" "h" "o" 0 100) = Ok v ∧
    try_acquire_lock "!s" (mkLock "D" "u" "h" "o" 0 100) 0 (mkToy ∅ ∅) =
      (Returns true, toy_put WORKER_STATE_LOCK "" v (mkToy ∅ ∅)).
Proof.
  destruct (try_acquire_exact "!s" (mkLock "D" "u" "h" "o" 0 100) 0 _ (mkToy ∅ ∅) _
              (toy_lock_read (mkToy ∅ ∅))) as (v & Hv & Hacq).
  exists v. split; [done|]. exact Hacq.
Defined.

(** The session events of the toy room. *)
Definition session_event (e : (string * string) * TJson) : option (string * TJson) :=
  if str_eqb e.1.1 WORKER_STATE_SESSION then Some (e.1.2, e.2) else None.
Definition toy_sessions (w : ToyWorld) : gmap string TJson :=
  list_to_map (omap session_event (map_to_list (events w))).

Lemma session_event_keys (l : list ((string * string) * TJson)) :
  NoDup l.*1 → NoDup (omap session_event l).*1.
Proof.
  induction l as [|[[ty k] v] l IH]; [constructor|]. cbn. intros [Hnot Hl]%NoDup_cons.
  unfold session_event at 1. cbn -[str_eqb]. destruct (str_eqb ty _) eqn:E; [|by apply IH].
  apply str_eqb_true in E as ->. cbn. apply NoDup_cons. split; [|by apply IH].
  intros ((k' & v') & -> & Hin)%list_elem_of_fmap. apply Hnot.
  apply list_elem_of_omap in Hin as ([[ty' k''] v''] & Hin & He). unfold session_event in He. cbn in He.
  destruct (str_eqb ty' _) eqn:E; [|done]. apply str_eqb_true in E as ->. simplify_eq.
  apply list_elem_of_fmap. by eexists (_, _).
Qed.

Lemma toy_sessions_list w : map_to_list (toy_sessions w) ≡ₚ omap session_event (map_to_list (events w)).
Proof. apply map_to_list_to_map, session_event_keys, NoDup_fst_map_to_list. Qed.

Lemma toy_sessions_lookup w key : toy_sessions w !! key = events w !! (WORKER_STATE_SESSION, key).
Proof.
  apply option_eq. intros v. unfold toy_sessions.
  rewrite <-elem_of_list_to_map by apply session_event_keys, NoDup_fst_map_to_list.
  rewrite list_elem_of_omap. split.
  - intros ([[ty k] v'] & Hin & He). unfold session_event in He. cbn in He.
    destruct (str_eqb ty _) eqn:E; [|done]. apply str_eqb_true in E as ->. simplify_eq.
    by apply elem_of_map_to_list in Hin.
  - intros Hv. exists ((WORKER_STATE_SESSION, key), v). split; [by apply elem_of_map_to_list|done].
Qed.

Lemma t_get_field k l : t_get (TObj l) k = snd <$> List.find (λ kv, str_eqb kv.1 k) l.
Proof. unfold t_get. by rewrite t_fields_obj. Qed.

Lemma toy_all_state w :
  get_all_room_state "!s" w = (Returns (event_json <$> map_to_list (events w)), w).
Proof.
  unfold get_all_room_state, authorized_request, need_token.
  cbn -[t_print t_parse toy_page]. unfold mbind, Io_bind, io_map_err, http, json_body.
  cbn -[t_print t_parse toy_page].
  match goal with |- context [toy_page w ?u] =>
    change (toy_page w u) with (Some (TArr (event_json <$> map_to_list (events w)))) end.
  cbn -[t_print t_parse]. rewrite t_parse_print. reflexivity.
Qed.

Lemma toy_session_events : SessionEvents "!s" toy_sessions.
Proof.
  split.
  - intros w. exists (omap session_event (map_to_list (events w))). split; [|by rewrite toy_sessions_list].
    unfold get_all_state_events_of_type, mbind, Io_bind. rewrite toy_all_state.
    unfold mret, Io_ret. do 2 f_equal.
    unfold filter_state_events_by_type. induction (map_to_list (events w)) as [|[[ty k] v] l IH]; [done|].
    cbn -[event_json str_eqb]. rewrite IH. clear IH.
    unfold state_event, event_json, session_event, get_str. cbn -[t_get str_eqb TObj].
    rewrite !t_get_field. cbn -[str_eqb]. unfold str_eqb. cbn. by destruct (bool_decide _).
  - intros key v w. eexists. split; [done|]. apply map_eq. intros k.
    rewrite toy_sessions_lookup. simpl. destruct (decide (k = key)) as [->|Hne].
    + by rewrite !lookup_insert_eq.
    + rewrite !lookup_insert_ne by congruence. by rewrite toy_sessions_lookup.
  - done.
Qed.
