(* ===== verification/MatrixSession.v ===== *)
(** * MatrixSession: logging in, restoring a session, backing up keys
    ([mxdx-matrix/session.rs], [mxdx-matrix/backup.rs], and the ways to
    connect of [mxdx-matrix/client.rs])

    The SDK is an interface on a handle [C] of a client, the file system and
    what identifies the process are another. Proved: when a session is
    restored and when it is not, that what a login stored is what the next
    start restores, and what a failed restore costs. *)
From stdpp Require Import countable.
From S2P Require Import Prelude Text Json MatrixTypes Effects Keychain MatrixClient Toys.
From stdpp Require Import options.

(** ** Interfaces *)
(** How a client is built: [homeserver_url] or a name that is looked up. *)
Inductive ServerAddress : Type := HomeserverUrl (url : string) | ServerNameOrUrl (name : string).
Record ClientBuilder := mkBuilder {
  bd_address : ServerAddress; bd_store : string; bd_passphrase : option string;
  bd_ssl_verification : bool }.

Record MatrixAuthSession := mkAuthSession { as_user_id : string; as_device_id : string; as_access_token : string }.

(** The error of a bootstrap, with the session of the authentication that the
    server asks for, if that is what it is. *)
Record BootstrapError := mkBootstrapError { be_message : string; be_uiaa : option (option string) }.
Record PasswordAuth := mkPasswordAuth { pa_user : string; pa_password : string; pa_session : option string }.

Class MatrixAuth (W C : Type) := {
  auth_build : ClientBuilder → Io W string C;
  auth_login_username : C → string → string → string → Io W string ();
  auth_restore_session : C → MatrixAuthSession → Io W string ();
  auth_sync_once : C → SyncSettings → Io W string ();
  auth_user_id : C → W → option string;
  auth_device_id : C → W → option string;
  (** the active session: its token, if it is one of Matrix *)
  auth_session : C → W → option (option string);
  auth_bootstrap : C → option PasswordAuth → Io W BootstrapError ();
  auth_bootstrap_if_needed : C → Io W BootstrapError ();
  backups_wait : C → Io W string ();
  backups_are_enabled : C → Io W string bool;
  backups_exists_on_server : C → Io W string bool;
  backups_disable_and_delete : C → Io W string ();
  backups_create : C → Io W string ();
  backups_download_room_keys : C → string → Io W string ();
  auth_joined_rooms : C → W → list string;
  (** [UserId::try_from] *)
  parse_user_id : string → result string string;
  localpart_of : string → string;
}.

Class Host (W : Type) := {
  fs_create_dir_all : string → Io W string ();
  fs_set_permissions : string → Z → Io W string ();
  fs_exists : string → W → bool;
  fs_remove_dir_all : string → Io W string ();
  fs_temp_dir : Io W string string;
  sys_nanos : W → Z;
  sys_hostname : W → string;
  sys_pid : W → Z;
}.

(** ** Data *)
Inductive StoreDir : Type := TempStore (path : string) | PersistentStore (path : string).
Definition store_dir_path (s : StoreDir) : string := match s with TempStore p | PersistentStore p => p end.

(** A connected [MatrixClient]: the handle, its store, its settings. *)
Record Connected (C : Type) := mkConnected { handle : C; store_dir : StoreDir; settings : MatrixClient }.
Arguments mkConnected {C}.
Arguments handle {C} c.
Arguments store_dir {C} c.
Arguments settings {C} c.

Record SessionData := mkSession {
  sd_user_id : string; sd_device_id : string; sd_access_token : string; sd_homeserver_url : string }.

Class SessionSerde := {
  session_to_vec : SessionData → result Bytes string;
  session_from_slice : Bytes → result SessionData string;
}.
Class SessionSerdeLaws `{SessionSerde} : Prop :=
  session_from_to_vec s : ∃ b, session_to_vec s = Ok b ∧ session_from_slice b = Ok s.

(** ** Keys of the keychain *)
Definition normalize_server (server : string) : string :=
  from_bytes (trim_end_matches SLASH
    (trim_start_matches (as_bytes "http://") (trim_start_matches (as_bytes "https://") (as_bytes server)))).
Definition session_key (username server : string) : string :=
  cat ["mxdx:"; username; "@"; normalize_server server; ":session"].
Definition password_key (username server : string) : string :=
  cat ["mxdx:"; username; "@"; normalize_server server; ":password"].
Definition store_key_key (username server : string) : string :=
  cat ["mxdx:"; username; "@"; normalize_server server; ":store_key"].

(** [hash ^= byte; hash = hash.wrapping_mul(m)], for two multipliers. *)
Definition mix_step (m hash : Z) (b : byte) : Z := wrap 64 (Z.lxor hash (Z.of_N (Byte.to_N b)) * m).
Definition passphrase_of (material : string) : string :=
  let hash1 := foldl (mix_step 1099511628211) 14695981039346656037%Z (as_bytes material) in
  let hash2 := foldl (mix_step 1099511628213) 14695981039346656038%Z (as_bytes material) in
  cat [hex_padded 16 hash1; hex_padded 16 hash2].

Section session.
Context {W C : Type} `{MatrixAuth W C} `{Host W} `{SessionSerde} (keychain : KeychainBackend W).
Local Notation M := (Io W MxError).
Local Abbreviation sdk := (io_map_err (S := W) (F := MxError) Sdk).
Local Abbreviation other := (io_map_err (S := W) (F := MxError) Other).
Local Notation other_error msg := (Other (Sdk_ := string) (Http_ := string) msg).

(** ** Connecting ([client.rs]) *)
Definition default_settings : MatrixClient := mkMatrixClient None (from_secs 30).
Definition mode_700 : Z := 448.

Definition ensure_store_dir (path : string) : M () :=
  io_map_err (λ e, other_error (cat ["Failed to create crypto store directory "; path; ": "; e]))
    (fs_create_dir_all path) ;;
  io_map_err (λ e, other_error (cat ["Failed to set permissions on "; path; ": "; e]))
    (fs_set_permissions path mode_700).

Definition server_address (server_name_or_url : string) : ServerAddress :=
  if contains (as_bytes "://") (as_bytes server_name_or_url) then HomeserverUrl server_name_or_url
  else ServerNameOrUrl server_name_or_url.

Definition first_sync (client : C) : M () := sdk (auth_sync_once client (mkSync (from_secs 1) false)).

(** The part that the logins share: build, log in, sync. *)
Definition login_with (dir : StoreDir) (address : ServerAddress) (username password device_name : string)
    (danger_accept_invalid_certs : bool) (store_passphrase : option string) : M (Connected C) :=
  client ← other (auth_build (mkBuilder address (store_dir_path dir) store_passphrase
    (negb danger_accept_invalid_certs)));
  sdk (auth_login_username client username password device_name) ;;
  first_sync client ;;
  mret (mkConnected client dir default_settings).

Definition login_and_connect_opts (server username password : string) (danger_accept_invalid_certs : bool)
    : M (Connected C) :=
  tmp ← other fs_temp_dir;
  login_with (TempStore tmp) (server_address server) username password "mxdx" danger_accept_invalid_certs None.
Definition login_and_connect (server username password : string) : M (Connected C) :=
  login_and_connect_opts server username password false.

Definition login_and_connect_persistent_with_passphrase (server username password store_path : string)
    (danger_accept_invalid_certs : bool) (store_passphrase : option string) : M (Connected C) :=
  ensure_store_dir store_path ;;
  login_with (PersistentStore store_path) (server_address server) username password "mxdx"
    danger_accept_invalid_certs store_passphrase.
Definition login_and_connect_persistent (server username password store_path : string)
    (danger_accept_invalid_certs : bool) : M (Connected C) :=
  login_and_connect_persistent_with_passphrase server username password store_path
    danger_accept_invalid_certs None.

(** The part that the restores share; the certificates are always verified. *)
Definition restore_with (dir : StoreDir) (homeserver_url access_token user device : string)
    (store_passphrase : option string) : M (Connected C) :=
  client ← other (auth_build (mkBuilder (HomeserverUrl homeserver_url) (store_dir_path dir) store_passphrase true));
  user ← other (of_result (parse_user_id user));
  other (auth_restore_session client (mkAuthSession user device access_token)) ;;
  first_sync client ;;
  mret (mkConnected client dir default_settings).

Definition connect_with_token (homeserver_url access_token user device : string) : M (Connected C) :=
  tmp ← other fs_temp_dir;
  restore_with (TempStore tmp) homeserver_url access_token user device None.
Definition connect_with_token_persistent_with_passphrase
    (homeserver_url access_token user device store_path : string) (store_passphrase : option string)
    : M (Connected C) :=
  ensure_store_dir store_path ;;
  restore_with (PersistentStore store_path) homeserver_url access_token user device store_passphrase.
Definition connect_with_token_persistent (homeserver_url access_token user device store_path : string)
    : M (Connected C) :=
  connect_with_token_persistent_with_passphrase homeserver_url access_token user device store_path None.

Definition export_session (c : Connected C) (homeserver_url : string) : M SessionData :=
  user ← observe (auth_user_id (handle c));
  user ← match user with Some u => mret u | None => raise (other_error "not logged in") end;
  device ← observe (auth_device_id (handle c));
  device ← match device with Some d => mret d | None => raise (other_error "no device id") end;
  session ← observe (auth_session (handle c));
  match session with
  | None => raise (other_error "no active session")
  | Some None => raise (other_error "unsupported auth type (expected Matrix auth)")
  | Some (Some token) => mret (mkSession user device token homeserver_url)
  end.

Definition bootstrap_cross_signing (c : Connected C) (password : option string) : M () :=
  first ← (λ w, match auth_bootstrap (handle c) None w with
                | (Returns _, w) => (Returns None, w)
                | (Raises e, w) => (Returns (Some e), w)
                | (Panics, w) => (Panics, w)
                end);
  match first with
  | None => mret ()
  | Some e =>
      match password with
      | None => raise (other_error (cat ["Cross-signing bootstrap requires UIA but no password provided: ";
                                         be_message e]))
      | Some password =>
          match be_uiaa e with
          | None => raise (other_error (cat ["Cross-signing bootstrap failed (not UIA): "; be_message e]))
          | Some session =>
              user ← observe (auth_user_id (handle c));
              match user with
              | None => panic
              | Some user =>
                  io_map_err (λ e, Sdk (be_message e))
                    (auth_bootstrap (handle c) (Some (mkPasswordAuth (localpart_of user) password session)))
              end
          end
      end
  end.

Definition bootstrap_cross_signing_if_needed (c : Connected C) (password : option string) : M () :=
  λ w, match auth_bootstrap_if_needed (handle c) w with
       | (Returns _, w) => (Returns (), w)
       | (Raises _, w) => bootstrap_cross_signing c password w
       | (Panics, w) => (Panics, w)
       end.

(** ** Sessions ([session.rs]) *)
(** Not random, and 32 hexadecimal digits long. *)
Definition generate_store_passphrase (key username : string) : M (option string) :=
  nanos ← observe sys_nanos;
  hostname ← observe sys_hostname;
  pid ← observe sys_pid;
  let passphrase := passphrase_of (cat [show nanos; ":"; hostname; ":"; show pid; ":"; username]) in
  saved ← catch (kc_set keychain key (as_bytes passphrase));
  mret (match saved with Ok _ => Some passphrase | Err _ => None end).

Definition usable_passphrase (stored : result (option Bytes) string) : option string :=
  match stored with
  | Ok (Some data) => p ← from_utf8 data; if str_eqb p "" then None else Some p
  | _ => None
  end.

Definition get_or_create_store_passphrase (username server : string) : M (option string) :=
  let key := store_key_key username server in
  stored ← catch (kc_get keychain key);
  match usable_passphrase stored with
  | Some passphrase => mret (Some passphrase)
  | None => generate_store_passphrase key username
  end.

(** The session in the keychain, if there is one that can be read. *)
Definition stored_session (username server : string) : M (option SessionData) :=
  stored ← catch (kc_get keychain (session_key username server));
  mret (match stored with
        | Ok (Some data) => match session_from_slice data with Ok session => Some session | Err _ => None end
        | Ok None | Err _ => None
        end).

Definition restore_session (session : SessionData) (store_path : string) (store_passphrase : option string)
    : M (option (Connected C)) :=
  restored ← attempt (connect_with_token_persistent_with_passphrase (sd_homeserver_url session)
    (sd_access_token session) (sd_user_id session) (sd_device_id session) store_path store_passphrase);
  mret (match restored with Ok client => Some client | Err _ => None end).

Definition fresh_login (server username password store_path : string) (danger_accept_invalid_certs : bool)
    (store_passphrase : option string) : M (Connected C) :=
  exists_ ← observe (fs_exists store_path);
  (if exists_ : bool then r ← catch (fs_remove_dir_all store_path); mret () else mret ()) ;;
  client ← login_and_connect_persistent_with_passphrase server username password store_path
    danger_accept_invalid_certs store_passphrase;
  session_data ← export_session client server;
  session_json ← other (of_result (session_to_vec session_data));
  saved ← catch (kc_set keychain (session_key username server) session_json);
  saved_password ← catch (kc_set keychain (password_key username server) (as_bytes password));
  mret client.

Definition connect_with_session (server username password store_path : string)
    (danger_accept_invalid_certs force_new_device : bool) : M (Connected C * bool) :=
  store_passphrase ← get_or_create_store_passphrase username server;
  restored ← (if force_new_device then mret None else
    session ← stored_session username server;
    match session with
    | Some session => restore_session session store_path store_passphrase
    | None => mret None
    end);
  match restored with
  | Some client => mret (client, false)
  | None =>
      client ← fresh_login server username password store_path danger_accept_invalid_certs store_passphrase;
      mret (client, true)
  end.

(** ** Backups ([backup.rs]); errors are [anyhow] messages *)
Record BackupState := mkBackup {
  enabled : bool; version : option string; keys_downloaded : Z; degraded : bool; error : option string }.
Definition backup_enabled : BackupState := mkBackup true None 0 false None.
Definition backup_degraded (msg : string) : BackupState := mkBackup false None 0 true (Some msg).

(** Fatal on the first run, a degraded state otherwise. *)
Definition degrade (is_first_run : bool) (msg : string) : Io W string BackupState :=
  if is_first_run then raise msg else mret (backup_degraded msg).

Definition create_backup (client : C) (is_first_run : bool) : Io W string BackupState :=
  created ← attempt (backups_create client);
  match created with
  | Ok _ => mret backup_enabled
  | Err e => degrade is_first_run (cat ["backup creation failed: "; e])
  end.

Definition ensure_backup (client : C) (is_first_run : bool) : Io W string BackupState :=
  backups_wait client ;;
  resumed ← backups_are_enabled client;
  if resumed : bool then mret backup_enabled else
  exists_ ← attempt (backups_exists_on_server client);
  match exists_ with
  | Ok true =>
      deleted ← attempt (backups_disable_and_delete client);
      match deleted with
      | Ok _ => create_backup client is_first_run
      | Err e => degrade is_first_run (cat ["failed to delete stale backup: "; e])
      end
  | Ok false | Err _ => create_backup client is_first_run
  end.

Fixpoint download_rooms (client : C) (rooms : list string) : Io W string Z :=
  match rooms with
  | [] => mret 0%Z
  | room :: rooms =>
      r ← attempt (backups_download_room_keys client room);
      count ← download_rooms client rooms;
      mret (if is_ok r then (count + 1)%Z else count)
  end.
Definition download_all_keys (client : C) : Io W string Z :=
  rooms ← observe (auth_joined_rooms client);
  download_rooms client rooms.
End session.

(** ** Lemmas *)
Lemma hex_digit_ascii d : forallb (byte_range 0 127) (as_bytes (hex_digit d)) = true.
Proof.
  unfold hex_digit. destruct (_ !! Z.to_nat d) as [s|] eqn:E; [|done].
  apply list_elem_of_lookup_2 in E. simpl. clear d.
  repeat (apply elem_of_cons in E as [->|E]; [reflexivity|]). by apply elem_of_nil in E.
Qed.
Lemma hex_padded_ascii n z : forallb (byte_range 0 127) (as_bytes (hex_padded n z)) = true.
Proof.
  revert z. induction n as [|n IH]; intros z; [done|]. simpl.
  by rewrite as_bytes_append, forallb_app, IH, hex_digit_ascii.
Qed.
Lemma valid_utf8_ascii l : forallb (byte_range 0 127) l = true → valid_utf8 l = true.
Proof.
  induction l as [|a l IH]; [done|]. cbn [forallb valid_utf8]. intros [Ha Hl]%andb_true_iff.
  rewrite Ha. by apply IH.
Qed.
Lemma hex_padded_length n z : (0 ≤ z)%Z → length (as_bytes (hex_padded n z)) = n.
Proof.
  revert z. induction n as [|n IH]; intros z Hz; [done|]. simpl.
  rewrite as_bytes_append, length_app, IH by (Z.to_euclidean_division_equations; lia).
  assert (length (as_bytes (hex_digit (z mod 16))) = 1) as ->; [|lia].
  unfold hex_digit. assert (Hm : Z.to_nat (z mod 16) < 16)
    by (pose proof (Z.mod_pos_bound z 16); lia).
  generalize dependent (Z.to_nat (z mod 16)). intros d Hd.
  do 16 (destruct d as [|d]; [reflexivity|]). lia.
Qed.

Lemma passphrase_usable material :
  usable_passphrase (Ok (Some (as_bytes (passphrase_of material)))) = Some (passphrase_of material).
Proof.
  set (h1 := foldl (mix_step 1099511628211) 14695981039346656037%Z (as_bytes material)).
  set (h2 := foldl (mix_step 1099511628213) 14695981039346656038%Z (as_bytes material)).
  assert (E : as_bytes (passphrase_of material) = as_bytes (hex_padded 16 h1) ++ as_bytes (hex_padded 16 h2)).
  { unfold passphrase_of. fold h1 h2. rewrite !cat_cons. by rewrite app_nil_r. }
  unfold usable_passphrase, from_utf8. rewrite valid_utf8_ascii, from_bytes_as_bytes.
  - cbn [mbind option_bind]. destruct (str_eqb _ "") eqn:Hs; [|done].
    apply str_eqb_true in Hs. apply (f_equal as_bytes) in Hs. rewrite E in Hs.
    apply app_nil in Hs as [Hs _]. apply (f_equal length) in Hs. rewrite hex_padded_length in Hs; [done|].
    unfold h1. generalize (as_bytes material) as l. intros l. destruct l as [|b l _] using rev_ind; [done|].
    rewrite foldl_snoc. unfold mix_step at 1. by apply wrap_range.
  - by rewrite E, forallb_app, !hex_padded_ascii.
Qed.

Lemma keys_distinct username server :
  session_key username server ≠ password_key username server ∧
  store_key_key username server ≠ session_key username server ∧
  store_key_key username server ≠ password_key username server.
Proof.
  unfold session_key, password_key, store_key_key.
  split_and!; intros E; apply (f_equal as_bytes) in E; rewrite !cat_cons in E;
    do 4 apply app_inv_head in E; discriminate E.
Qed.

Section restart.
Context {W C : Type} `{MatrixAuth W C} `{Host W} `{SessionSerde} (keychain : KeychainBackend W).
Context (ok : W → Prop) (view : W → gmap string Bytes).

(** What does not touch the keychain. *)
Definition keeps {E A} (m : Io W E A) : Prop := ∀ w o w', ok w → m w = (o, w') → ok w' ∧ view w' = view w.

(** The SDK and the file system are apart from the keychain. *)
Class Apart : Prop := {
  keeps_build b : keeps (auth_build (C := C) b);
  keeps_login c u p d : keeps (auth_login_username (C := C) c u p d);
  keeps_restore c s : keeps (auth_restore_session (C := C) c s);
  keeps_sync c s : keeps (auth_sync_once (C := C) c s);
  keeps_create p : keeps (fs_create_dir_all p);
  keeps_permissions p m : keeps (fs_set_permissions p m);
  keeps_remove p : keeps (fs_remove_dir_all p);
}.

Lemma keeps_reads {E A} (m : Io W E A) : reads m → keeps m.
Proof. intros Hm w o w' Hok E'. specialize (Hm w). rewrite E' in Hm. by subst. Qed.
Lemma keeps_bind {E A B} (m : Io W E A) (k : A → Io W E B) :
  keeps m → (∀ x, keeps (k x)) → keeps (x ← m; k x).
Proof.
  intros Hm Hk w o w' Hok. intros [(x & w1 & E1 & E2)|[(e & -> & E1)|[-> E1]]]%io_bind_inv.
  - destruct (Hm _ _ _ Hok E1) as [Hok1 Hv]. destruct (Hk x _ _ _ Hok1 E2) as [? ->]. done.
  - by apply (Hm _ _ _ Hok E1).
  - by apply (Hm _ _ _ Hok E1).
Qed.
Lemma keeps_map_err {E F A} (f : E → F) (m : Io W E A) : keeps m → keeps (io_map_err f m).
Proof. intros Hm w o w' Hok (o' & E' & _)%io_map_err_inv. by apply (Hm _ _ _ Hok E'). Qed.
Lemma keeps_catch {E F A} (m : Io W E A) : keeps m → keeps (catch (F := F) m).
Proof.
  intros Hm w o w' Hok. unfold catch. destruct (m w) as [o1 w1] eqn:E1.
  destruct (Hm _ _ _ Hok E1). destruct o1; intros [= <- <-]; done.
Qed.
Lemma keeps_attempt {E A} (m : Io W E A) : keeps m → keeps (attempt m).
Proof.
  intros Hm w o w' Hok. unfold attempt. destruct (m w) as [o1 w1] eqn:E1.
  destruct (Hm _ _ _ Hok E1). destruct o1; intros [= <- <-]; done.
Qed.
Lemma keeps_mret {E A} (x : A) : keeps (E := E) (mret x).
Proof. by apply keeps_reads. Qed.
Lemma keeps_raise {E A} (e : E) : keeps (A := A) (raise e).
Proof. by apply keeps_reads. Qed.
Lemma keeps_observe {E A} (f : W → A) : keeps (E := E) (observe f).
Proof. by apply keeps_reads. Qed.
Lemma keeps_of_result {E A} (r : result A E) : keeps (of_result r).
Proof. apply keeps_reads, reads_of_result. Qed.

Ltac keep :=
  repeat first
    [apply keeps_bind; [|intros ?]|apply keeps_map_err|apply keeps_catch|apply keeps_attempt
    |apply keeps_mret|apply keeps_raise|apply keeps_observe|apply keeps_of_result
    |apply keeps_build|apply keeps_login|apply keeps_restore|apply keeps_sync
    |apply keeps_create|apply keeps_permissions|apply keeps_remove|case_match].

Lemma keeps_connect_with_token `{!Apart} url token user device path p :
  keeps (connect_with_token_persistent_with_passphrase (C := C) url token user device path p).
Proof. unfold connect_with_token_persistent_with_passphrase, ensure_store_dir, restore_with, first_sync. keep. Qed.
Lemma keeps_login_persistent `{!Apart} server username password path certs p :
  keeps (login_and_connect_persistent_with_passphrase (C := C) server username password path certs p).
Proof.
  unfold login_and_connect_persistent_with_passphrase, ensure_store_dir, login_with, first_sync. keep.
Qed.
Lemma keeps_export (c : Connected C) server : keeps (export_session c server).
Proof. unfold export_session. keep. Qed.

Context `{!Implements keychain ok view}.

Lemma catch_get {F} key w :
  ok w → catch (F := F) (kc_get keychain key) w = (Returns (Ok (view w !! key)), w).
Proof using Type*. intros Hok. unfold catch. by rewrite implements_get. Qed.
Lemma catch_set {F} key v w :
  ok w → ∃ w', catch (F := F) (kc_set keychain key v) w = (Returns (Ok ()), w') ∧ ok w' ∧
    view w' = <[key := v]> (view w).
Proof using Type*.
  intros Hok. destruct (implements_set key v w Hok) as (w' & E & Hok' & Hv).
  exists w'. unfold catch. by rewrite E.
Qed.

(** The passphrase is in the keychain once it is used. *)
Definition has_passphrase (username server p : string) (w : W) : Prop :=
  usable_passphrase (Ok (view w !! store_key_key username server)) = Some p.

Lemma passphrase_kept username server w :
  ok w → ∃ p w', get_or_create_store_passphrase keychain username server w = (Returns (Some p), w') ∧
    ok w' ∧ has_passphrase username server p w' ∧
    (has_passphrase username server p w → w' = w).
Proof using Type*.
  intros Hok. unfold get_or_create_store_passphrase.
  rewrite (io_bind_step _ _ _ _ _ (catch_get _ w Hok)).
  destruct (usable_passphrase _) as [p|] eqn:Hp; [by exists p, w|].
  unfold generate_store_passphrase. rewrite !io_bind_observe.
  set (p := passphrase_of _). destruct (catch_set (F := MxError) (store_key_key username server) (as_bytes p) w Hok)
    as (w' & Hset & Hok' & Hv).
  exists p, w'. rewrite (io_bind_step _ _ _ _ _ Hset). split_and!; [done|done| |].
  - unfold has_passphrase. rewrite Hv, lookup_insert_eq. apply passphrase_usable.
  - unfold has_passphrase. by rewrite Hp.
Qed.

Lemma passphrase_found username server p w :
  ok w → has_passphrase username server p w →
  get_or_create_store_passphrase keychain username server w = (Returns (Some p), w).
Proof using Type*.
  intros Hok Hp. unfold get_or_create_store_passphrase.
  rewrite (io_bind_step _ _ _ _ _ (catch_get _ w Hok)). unfold has_passphrase in Hp. by rewrite Hp.
Qed.

Lemma keeps_get key : keeps (kc_get keychain key).
Proof using Type*. intros w o w' Hok. rewrite implements_get by done. by intros [= <- <-]. Qed.
Lemma keeps_restored `{!Apart} username server path p :
  keeps (session ← stored_session keychain username server;
         match session with
         | Some session => restore_session (C := C) session path p
         | None => mret None
         end).
Proof using Type*.
  unfold stored_session, restore_session. repeat first [apply keeps_get|apply keeps_connect_with_token|progress keep].
Qed.

Lemma export_session_spec (c : Connected C) server w session w' :
  export_session c server w = (Returns session, w') → w' = w ∧ sd_homeserver_url session = server.
Proof using Type.
  unfold export_session. rewrite io_bind_observe. case_match; [|done].
  rewrite io_bind_mret, io_bind_observe. case_match; [|done].
  rewrite io_bind_mret, io_bind_observe. case_match; [|done]. case_match; [|done]. by intros [= <- <-].
Qed.

(** What a login leaves in the keychain: the session, of this server. *)
Lemma fresh_login_saves `{!Apart} `{!SessionSerdeLaws} server username password path certs p w c w1 :
  ok w → fresh_login keychain server username password path certs p w = (Returns c, w1) →
  ∃ session data,
    (∃ w0, export_session c server w0 = (Returns session, w0)) ∧ ok w1 ∧
    view w1 !! session_key username server = Some data ∧ session_from_slice data = Ok session ∧
    ∀ q, has_passphrase username server q w → has_passphrase username server q w1.
Proof using Type*.
  intros Hok. unfold fresh_login. rewrite io_bind_observe.
  intros (u & wa & Hrm & Hrest)%io_bind_returns.
  assert (Ha : ok wa ∧ view wa = view w).
  { revert Hrm. match goal with |- ?m w = _ → _ => assert (Hk : keeps m) by keep end.
    intros Hrm. by apply (Hk _ _ _ Hok Hrm). }
  destruct Ha as [Hoka Hva].
  apply io_bind_returns in Hrest as (c' & wb & Hlog & Hrest).
  destruct (keeps_login_persistent _ _ _ _ _ _ _ _ _ Hoka Hlog) as [Hokb Hvb].
  apply io_bind_returns in Hrest as (session & wc & Hexp & Hrest).
  destruct (export_session_spec _ _ _ _ _ Hexp) as [-> _].
  destruct (session_from_to_vec session) as (data & Hto & Hfrom).
  assert (Hj : io_map_err (F := MxError) Other (of_result (session_to_vec session)) wb = (Returns data, wb))
    by by rewrite Hto.
  rewrite (io_bind_step _ _ _ _ _ Hj) in Hrest.
  destruct (catch_set (F := MxError) (session_key username server) data wb Hokb) as (wd & Hset & Hokd & Hvd).
  rewrite (io_bind_step _ _ _ _ _ Hset) in Hrest.
  destruct (catch_set (F := MxError) (password_key username server) (as_bytes password) wd Hokd)
    as (we & Hset' & Hoke & Hve).
  rewrite (io_bind_step _ _ _ _ _ Hset') in Hrest. injection Hrest as <- <-.
  destruct (keys_distinct username server) as (Hd1 & Hd2 & Hd3).
  exists session, data. split_and!; [by exists wb|done| |done|].
  - rewrite Hve, lookup_insert_ne by done. by rewrite Hvd, lookup_insert_eq.
  - intros q. unfold has_passphrase.
    by rewrite Hve, lookup_insert_ne, Hvd, lookup_insert_ne, Hvb, Hva by done.
Qed.

(** C28: a login survives a restart. After a fresh login on a keychain that
    works, the next start, from whatever state with the same keychain and for
    any spelling of the server that is normalised alike, restores the session
    of that login: same user, device and token, at the address that was used
    for the login and not at the one that is asked for, with the passphrase
    of the same store. Only when that fails is there another login. *)
Theorem login_then_restore `{!Apart} `{!SessionSerdeLaws} server username password path certs force w c w1 :
  ok w → connect_with_session keychain server username password path certs force w = (Returns (c, true), w1) →
  ∃ session p,
    (∃ w0, export_session c server w0 = (Returns session, w0)) ∧ sd_homeserver_url session = server ∧ ok w1 ∧
    ∀ w2 server' password' path' certs', ok w2 → view w2 = view w1 →
      normalize_server server' = normalize_server server →
      connect_with_session keychain server' username password' path' certs' false w2 =
      match connect_with_token_persistent_with_passphrase (C := C) server (sd_access_token session)
              (sd_user_id session) (sd_device_id session) path' (Some p) w2 with
      | (Returns c', w3) => (Returns (c', false), w3)
      | (Raises _, w3) =>
          (c' ← fresh_login keychain server' username password' path' certs' (Some p); mret (c', true)) w3
      | (Panics, w3) => (Panics, w3)
      end.
Proof using Type*.
  intros Hok. unfold connect_with_session at 1.
  destruct (passphrase_kept username server w Hok) as (p & wa & Hpass & Hoka & Hhas & _).
  rewrite (io_bind_step _ _ _ _ _ Hpass). intros (restored & wb & Hres & Hrest)%io_bind_returns.
  assert (Hb : ok wb ∧ view wb = view wa).
  { revert Hres. match goal with |- ?m wa = _ → _ => assert (Hk : keeps m) end.
    { destruct force; [apply keeps_mret|]. apply keeps_restored. }
    intros Hres. by apply (Hk _ _ _ Hoka Hres). }
  destruct Hb as [Hokb Hvb]. destruct restored; [done|].
  apply io_bind_returns in Hrest as (c' & wc & Hlog & [= <- <-]).
  destruct (fresh_login_saves _ _ _ _ _ _ _ _ _ Hokb Hlog) as (session & data & Hexp & Hok1 & Hdata & Hfrom & Hq).
  exists session, p. split; [done|]. split; [|split; [done|]].
  { destruct Hexp as [w0 Hexp]. by apply export_session_spec in Hexp as [_ ?]. }
  intros w2 server' password' path' certs' Hok2 Hv2 Hnorm. unfold connect_with_session.
  assert (Hp1 : has_passphrase username server p wc).
  { apply Hq. unfold has_passphrase. by rewrite Hvb. }
  assert (Hkeys : store_key_key username server' = store_key_key username server ∧
                  session_key username server' = session_key username server).
  { unfold store_key_key, session_key. by rewrite Hnorm. }
  destruct Hkeys as [Hk1 Hk2].
  rewrite (io_bind_step _ _ w2 (Some p) w2).
  2: { apply passphrase_found; [done|]. unfold has_passphrase in *. by rewrite Hv2, Hk1. }
  assert (Hst : stored_session keychain username server' w2 = (Returns (Some session), w2)).
  { unfold stored_session. rewrite (io_bind_step _ _ _ _ _ (catch_get _ w2 Hok2)).
    rewrite Hk2, Hv2, Hdata, Hfrom. done. }
  assert (Hurl : sd_homeserver_url session = server).
  { destruct Hexp as [w0 Hexp]. by apply export_session_spec in Hexp as [_ ?]. }
  unfold mbind at 1, Io_bind at 1. rewrite (io_bind_step _ _ _ _ _ Hst). unfold restore_session. rewrite Hurl.
  unfold mbind at 1, Io_bind at 1, attempt.
  destruct (connect_with_token_persistent_with_passphrase _ _ _ _ _ _ w2) as [[c2|e|] w3]; done.
Qed.
End restart.

(** ** What a failed restore costs *)
Section failures.
Context {W C : Type} `{MatrixAuth W C} `{Host W} `{SessionSerde} (keychain : KeychainBackend W).

(** A stored session whose restore fails, for whatever reason, and be it that
    the network is down: the crypto store is removed before the login is
    tried; when the login fails too, the error is all that is left. *)
Theorem failed_restore_wipes_store server username password path certs p session e w wa wb wc wd e' we :
  get_or_create_store_passphrase keychain username server w = (Returns p, wa) →
  stored_session keychain username server wa = (Returns (Some session), wb) →
  connect_with_token_persistent_with_passphrase (C := C) (sd_homeserver_url session) (sd_access_token session)
    (sd_user_id session) (sd_device_id session) path p wb = (Raises e, wc) →
  fs_exists path wc = true → fs_remove_dir_all path wc = (Returns (), wd) →
  login_and_connect_persistent_with_passphrase (C := C) server username password path certs p wd = (Raises e', we) →
  connect_with_session (C := C) keychain server username password path certs false w = (Raises e', we).
Proof.
  intros Hp Hs Hr Hex Hrm Hl. unfold connect_with_session. rewrite (io_bind_step _ _ _ _ _ Hp).
  assert (Hnone : (session0 ← stored_session keychain username server;
            match session0 with
            | Some session0 => restore_session (C := C) session0 path p
            | None => mret None
            end) wa = (Returns None, wc)).
  { rewrite (io_bind_step _ _ _ _ _ Hs). unfold restore_session, mbind, Io_bind, attempt. by rewrite Hr. }
  assert (Hfresh : fresh_login (C := C) keychain server username password path certs p wc = (Raises e', we)).
  { unfold fresh_login. rewrite io_bind_observe, Hex.
    assert (Hclear : (catch (F := MxError) (fs_remove_dir_all path) ≫= λ _, mret ()) wc = (Returns (), wd))
      by (unfold mbind, Io_bind, catch; by rewrite Hrm).
    rewrite (io_bind_step _ _ _ _ _ Hclear). unfold mbind at 1, Io_bind at 1. by rewrite Hl. }
  rewrite (io_bind_step _ _ _ _ _ Hnone). unfold mbind, Io_bind. by rewrite Hfresh.
Qed.

(** The state of the backup after it was set up: enabled, or degraded with
    the reason, and an error only on a first run. A backup of the server that
    was not resumed is deleted first, whoever made it. *)
Theorem ensure_backup_outcome client first_run (w w' : W) s :
  ensure_backup (C := C) client first_run w = (Returns s, w') →
  (s = backup_enabled ∨ first_run = false ∧ ∃ msg, s = backup_degraded msg) ∧
  ∀ w1 w2 w3, backups_wait client w = (Returns (), w1) → backups_are_enabled client w1 = (Returns false, w2) →
    backups_exists_on_server client w2 = (Returns true, w3) →
    match backups_disable_and_delete client w3 with
    | (Returns _, w4) => create_backup client first_run w4 = (Returns s, w')
    | (Raises e, w4) => s = backup_degraded (cat ["failed to delete stale backup: "; e]) ∧ w' = w4
    | (Panics, _) => False
    end.
Proof using Type*.
  assert (Hdeg : ∀ msg w, degrade (W := W) first_run msg w = (Returns s, w') →
            first_run = false ∧ s = backup_degraded msg ∧ w' = w).
  { intros msg v. unfold degrade. destruct first_run; [done|]. by intros [= <- <-]. }
  assert (Hcreate : ∀ w, create_backup client first_run w = (Returns s, w') →
            s = backup_enabled ∨ first_run = false ∧ ∃ msg, s = backup_degraded msg).
  { intros v (r & w3 & _ & Hs)%io_bind_returns. destruct r; [|right; apply Hdeg in Hs; naive_solver].
    injection Hs as <- <-. by left. }
  intros Hrun. split.
  - apply io_bind_returns in Hrun as ([] & w1 & _ & Hrun).
    apply io_bind_returns in Hrun as (resumed & w2 & _ & Hrun).
    destruct resumed; [injection Hrun as <- <-; by left|].
    apply io_bind_returns in Hrun as (r & w3 & _ & Hrun). destruct r as [[]|e]; try by eapply Hcreate.
    apply io_bind_returns in Hrun as (d & w4 & _ & Hrun).
    destruct d; [by eapply Hcreate|right; apply Hdeg in Hrun; naive_solver].
  - intros w1 w2 w3 Hw Hr Hex. revert Hrun. unfold ensure_backup.
    rewrite (io_bind_step _ _ _ _ _ Hw), (io_bind_step _ _ _ _ _ Hr).
    rewrite (io_bind_step _ _ w2 (Ok true) w3); [|unfold attempt; by rewrite Hex].
    unfold mbind, Io_bind, attempt. destruct (backups_disable_and_delete client w3) as [[u|e|] w4]; try done.
    intros (_ & -> & ->)%Hdeg. done.
Qed.
End failures.

(** A session that was made over http is the one that https restores. *)
Lemma session_key_scheme_blind :
  session_key "bob" "http://matrix.example" = session_key "bob" "https://matrix.example".
Proof. reflexivity. Qed.

(** ** Witness: an outside that is a keychain in memory and an SDK on which
    everything succeeds *)
Definition session_tuple (s : SessionData) : string * string * string * string :=
  (sd_user_id s, sd_device_id s, sd_access_token s, sd_homeserver_url s).
Definition toy_session_serde : SessionSerde := {|
  session_to_vec s := Ok (pos_bytes (encode (session_tuple s)));
  session_from_slice b :=
    match decode (bytes_pos b) with
    | Some (a, d, t, u) => Ok (mkSession a d t u)
    | None => Err "no session"
    end |}.
Lemma toy_session_serde_laws : @SessionSerdeLaws toy_session_serde.
Proof. intros [a d t u]. eexists. split; [done|]. simpl. by rewrite bytes_pos_bytes, decode_encode. Qed.

Definition toy_auth : MatrixAuth InMemoryKeychain () := {|
  auth_build _ := mret (); auth_login_username _ _ _ _ := mret (); auth_restore_session _ _ := mret ();
  auth_sync_once _ _ := mret (); auth_user_id _ _ := Some "@bob:x"; auth_device_id _ _ := Some "DEV";
  auth_session _ _ := Some (Some "token"); auth_bootstrap _ _ := mret (); auth_bootstrap_if_needed _ := mret ();
  backups_wait _ := mret (); backups_are_enabled _ := mret true; backups_exists_on_server _ := mret false;
  backups_disable_and_delete _ := mret (); backups_create _ := mret (); backups_download_room_keys _ _ := mret ();
  auth_joined_rooms _ _ := []; parse_user_id := Ok; localpart_of s := s |}.
Definition toy_host : Host InMemoryKeychain := {|
  fs_create_dir_all _ := mret (); fs_set_permissions _ _ := mret (); fs_exists _ _ := true;
  fs_remove_dir_all _ := mret (); fs_temp_dir := mret "/tmp/x"; sys_nanos _ := 7%Z;
  sys_hostname _ := "host"; sys_pid _ := 42%Z |}.
#[local] Existing Instances toy_session_serde toy_session_serde_laws toy_auth toy_host.

Lemma toy_apart : Apart (C := ()) (λ w, poisoned w = false) store.
Proof. split; intros; by apply keeps_reads. Qed.

(** Bob logged in over http; the start that asks for https restores that
    session, over http. *)
Lemma login_then_restore_witness :
  ∃ session w1 w3,
    connect_with_session in_memory "http://h/" "bob" "pw" "/store" false false in_memory_new
    = (Returns (mkConnected () (PersistentStore "/store") default_settings, true), w1) ∧
    sd_homeserver_url session = "http://h/" ∧
    connect_with_session in_memory "https://h" "bob" "other" "/store" false false w1
    = (Returns (mkConnected () (PersistentStore "/store") default_settings, false), w3).
Proof.
  destruct (connect_with_session in_memory "http://h/" "bob" "pw" "/store" false false in_memory_new)
    as [o w1] eqn:E.
  assert (Ho : o = Returns (mkConnected () (PersistentStore "/store") default_settings, true)).
  { revert E. vm_compute. by intros [= <- _]. }
  subst o.
  destruct (login_then_restore in_memory (λ w, poisoned w = false) store (H2 := toy_apart)
    "http://h/" "bob" "pw" "/store" false false in_memory_new _ w1 eq_refl E)
    as (session & p & _ & Hurl & Hok1 & Hnext).
  exists session, w1, w1. split; [done|]. split; [done|].
  rewrite (Hnext w1 "https://h" "other" "/store" false Hok1 eq_refl eq_refl). reflexivity.
Defined.
