(* ===== verification/ClientSessions.v ===== *)
(** * ClientSessions: what the client's daemon keeps
    ([mxdx-client/daemon/sessions.rs], [mxdx-client/daemon/subscriptions.rs])

    The output of the sessions that are followed, bounded in bytes, and the
    subscriptions to events. *)
From S2P Require Import Prelude Text Instants WorkerClock.
From stdpp Require Import options.

(** ** Followed sessions *)
Definition DEFAULT_BUFFER_SIZE : Z := 65536.

(** [sent] is what went to the broadcast channel [output_tx]. *)
Record TrackedSession := mkTracked {
  output_buffer : list string; buffer_bytes : Z; max_buffer_bytes : Z; sent : list string;
  worker_room : string; completed : bool }.
Abbreviation SessionTracker := (gmap string TrackedSession) (only parsing).

Definition byte_len (s : string) : Z := Z.of_nat (length (as_bytes s)).

Definition track (uuid worker_room : string) (t : SessionTracker) : SessionTracker :=
  <[uuid := mkTracked [] 0 DEFAULT_BUFFER_SIZE [] worker_room false]> t.

(** The [while] loop: old lines go until the new one fits. *)
Fixpoint evict (limit line_len bytes : Z) (buffer : list string) : Z * list string :=
  if decide (limit < bytes + line_len)%Z then
    match buffer with
    | [] => (bytes, [])
    | old :: buffer => evict limit line_len (bytes - byte_len old) buffer
    end
  else (bytes, buffer).

Definition push_line (line : string) (s : TrackedSession) : TrackedSession :=
  if decide (max_buffer_bytes s < byte_len line)%Z then s else
  let '(bytes, buffer) := evict (max_buffer_bytes s) (byte_len line) (buffer_bytes s) (output_buffer s) in
  mkTracked (buffer ++ [line]) (bytes + byte_len line) (max_buffer_bytes s) (sent s ++ [line])
    (worker_room s) (completed s).
Definition push_output (uuid line : string) (t : SessionTracker) : SessionTracker := alter (push_line line) uuid t.

Definition complete_session (uuid : string) (t : SessionTracker) : SessionTracker :=
  alter (λ s, mkTracked (output_buffer s) (buffer_bytes s) (max_buffer_bytes s) (sent s) (worker_room s) true) uuid t.
Definition remove_tracked (uuid : string) (t : SessionTracker) : SessionTracker := delete uuid t.

Definition buffered_output (uuid : string) (t : SessionTracker) : list string :=
  from_option output_buffer [] (t !! uuid).
Definition active_count (t : SessionTracker) : nat := size (filter (λ kv, completed kv.2 = false) t).
(** In the order of the map. *)
Definition session_uuids (keys : SessionTracker → list string) (t : SessionTracker) : list string := keys t.

Inductive TrackerOp : Type :=
| TrackSession (uuid worker_room : string)
| PushOutput (uuid line : string)
| CompleteSession (uuid : string)
| RemoveSession (uuid : string).
Definition tracker_op (op : TrackerOp) (t : SessionTracker) : SessionTracker :=
  match op with
  | TrackSession uuid room => track uuid room t
  | PushOutput uuid line => push_output uuid line t
  | CompleteSession uuid => complete_session uuid t
  | RemoveSession uuid => remove_tracked uuid t
  end.
Definition tracker_run (ops : list TrackerOp) : SessionTracker := foldl (λ t op, tracker_op op t) ∅ ops.

(** ** Subscriptions *)
Record EventFilter := mkFilter {
  ef_uuid : option string; ef_worker_id : option string; ef_worker_room : option string }.
Record Subscription (K : Type) := mkSubscription {
  event_patterns : list string; sub_filter : option EventFilter; sub_sink : K }.
Arguments mkSubscription {K}.
Arguments event_patterns {K} s.
Arguments sub_filter {K} s.
Arguments sub_sink {K} s.
Record SubscriptionRegistry (K : Type) := mkRegistry {
  subscriptions : gmap string (Subscription K); next_id : Z }.
Arguments mkRegistry {K}.
Arguments subscriptions {K} s.
Arguments next_id {K} s.

Section subscriptions.
Context {K : Type}.

Definition registry_new : SubscriptionRegistry K := mkRegistry ∅ 0.
Definition sub_id (n : Z) : string := cat ["sub-"; from_bytes (format_padded 4 n)].

Definition subscribe (patterns : list string) (filter : option EventFilter) (sink : K)
    (r : SubscriptionRegistry K) : string * SubscriptionRegistry K :=
  let n := (next_id r + 1)%Z in
  (sub_id n, mkRegistry (<[sub_id n := mkSubscription patterns filter sink]> (subscriptions r)) n).

Definition unsubscribe (id : string) (r : SubscriptionRegistry K) : bool * SubscriptionRegistry K :=
  (bool_decide (is_Some (subscriptions r !! id)), mkRegistry (delete id (subscriptions r)) (next_id r)).

(** [ends_with(".*")], and the slice without these two bytes. *)
Definition pattern_matches (event_type p : string) : bool :=
  match strip_prefix (reverse (as_bytes ".*")) (reverse (as_bytes p)) with
  | Some prefix => starts_with (reverse prefix) (as_bytes event_type)
  | None => str_eqb p event_type
  end.
Definition matches_patterns (event_type : string) (patterns : list string) : bool :=
  existsb (pattern_matches event_type) patterns.

(** What is sent to which sink; [values] is the order of the map. *)
Definition dispatch (values : gmap string (Subscription K) → list (Subscription K))
    (event_type event_json : string) (r : SubscriptionRegistry K) : list (K * string) :=
  omap (λ s, if matches_patterns event_type (event_patterns s) then Some (sub_sink s, event_json) else None)
    (values (subscriptions r)).
End subscriptions.

(** ** Lemmas *)
Definition total_bytes (l : list string) : Z := foldr (λ s z, (byte_len s + z)%Z) 0%Z l.

Lemma byte_len_nonneg s : (0 ≤ byte_len s)%Z.
Proof. unfold byte_len. lia. Qed.
Lemma total_bytes_app l k : total_bytes (l ++ k) = (total_bytes l + total_bytes k)%Z.
Proof. induction l as [|s l IH]; simpl; lia. Qed.
Lemma total_bytes_nonneg l : (0 ≤ total_bytes l)%Z.
Proof. induction l as [|s l IH]; simpl; [lia|]. pose proof (byte_len_nonneg s). lia. Qed.

(** The longest end of [all] that is at most [limit] bytes long. *)
Definition longest_end (limit : Z) (all l : list string) : Prop :=
  ∃ before, all = before ++ l ∧ (total_bytes l ≤ limit)%Z ∧
    ∀ x front, before = front ++ [x] → (limit < byte_len x + total_bytes l)%Z.

Lemma evict_spec limit len bytes buffer :
  bytes = total_bytes buffer → (0 ≤ len ≤ limit)%Z →
  ∃ dropped kept, buffer = dropped ++ kept ∧
    evict limit len bytes buffer = (total_bytes kept, kept) ∧ (total_bytes kept + len ≤ limit)%Z ∧
    ∀ x front, dropped = front ++ [x] → (limit < byte_len x + total_bytes kept + len)%Z.
Proof.
  revert bytes. induction buffer as [|old buffer IH]; intros bytes -> Hlen; simpl.
  { exists [], []. rewrite decide_False by lia. split_and!; simpl; try done; [lia|].
    intros x [] [=]. }
  destruct (decide _) as [Hd|Hd].
  - destruct (IH (total_bytes buffer) eq_refl Hlen) as (dropped & kept & -> & He & Hle & Hmax).
    exists (old :: dropped), kept. split; [done|]. split; [|split; [done|]].
    + rewrite <-He. f_equal. lia.
    + intros x front Hx. destruct dropped as [|d dropped] using rev_ind.
      * destruct front; simplify_eq/=; [lia|]. by destruct front.
      * rewrite app_comm_cons in Hx. apply app_inj_tail in Hx as [_ <-]. by eapply Hmax.
  - exists [], (old :: buffer). split_and!; simpl; try done; [lia|]. intros x [] [=].
Qed.

(** The state of a session against the lines that were pushed since it is
    followed, without those that are longer than the buffer. *)
Definition holds_end (pushed : list string) (s : TrackedSession) : Prop :=
  max_buffer_bytes s = DEFAULT_BUFFER_SIZE ∧ buffer_bytes s = total_bytes (output_buffer s) ∧ sent s = pushed ∧
  longest_end DEFAULT_BUFFER_SIZE pushed (output_buffer s).

Lemma push_line_holds line pushed s :
  holds_end pushed s →
  holds_end (pushed ++ (if decide (byte_len line ≤ DEFAULT_BUFFER_SIZE)%Z then [line] else [])) (push_line line s).
Proof.
  intros (Hmax & Hbytes & Hsent & before & Hall & Hle & Hlong). unfold push_line. rewrite Hmax.
  pose proof (byte_len_nonneg line).
  destruct (decide (DEFAULT_BUFFER_SIZE < byte_len line)%Z) as [Hd|Hd].
  { rewrite decide_False by lia. rewrite app_nil_r. split_and!; try done. by exists before. }
  rewrite decide_True by lia.
  destruct (evict_spec DEFAULT_BUFFER_SIZE (byte_len line) (buffer_bytes s) (output_buffer s) Hbytes ltac:(lia))
    as (dropped & kept & Hb & -> & Hfit & Hdrop).
  split_and!; simpl; [done| |by rewrite Hsent|].
  - rewrite total_bytes_app. simpl. lia.
  - exists (before ++ dropped). rewrite Hall, Hb, !total_bytes_app. simpl. split; [by rewrite !app_assoc|].
    split; [lia|]. intros x front Hx. destruct dropped as [|d dropped _] using rev_ind.
    + rewrite app_nil_r in Hx. simpl in Hb. subst. specialize (Hlong _ _ eq_refl). lia.
    + rewrite app_assoc in Hx. apply app_inj_tail in Hx as [_ <-]. specialize (Hdrop _ _ eq_refl). lia.
Qed.

(** The lines pushed to [uuid] since it was last followed; [None] if it is
    not. *)
Definition pushed_step (uuid : string) (p : option (list string)) (op : TrackerOp) : option (list string) :=
  match op with
  | TrackSession u _ => if str_eqb u uuid then Some [] else p
  | PushOutput u line =>
      if str_eqb u uuid
      then (λ l, l ++ (if decide (byte_len line ≤ DEFAULT_BUFFER_SIZE)%Z then [line] else [])) <$> p
      else p
  | CompleteSession _ => p
  | RemoveSession u => if str_eqb u uuid then None else p
  end.
Definition pushed (uuid : string) (ops : list TrackerOp) : option (list string) :=
  foldl (pushed_step uuid) None ops.

Definition tracks (p : option (list string)) (s : option TrackedSession) : Prop :=
  match p, s with
  | Some l, Some s => holds_end l s
  | None, None => True
  | _, _ => False
  end.

Lemma tracker_op_tracks uuid op t p :
  tracks p (t !! uuid) → tracks (pushed_step uuid p op) (tracker_op op t !! uuid).
Proof.
  intros Ht. destruct op as [u room|u line|u|u]; simpl;
    [| | |destruct (str_eqb u uuid) eqn:E; [apply str_eqb_true in E as ->|apply str_eqb_false in E]];
    unfold track, push_output, complete_session, remove_tracked.
  - destruct (str_eqb u uuid) eqn:E; [apply str_eqb_true in E as ->|apply str_eqb_false in E].
    + rewrite lookup_insert_eq. simpl. split_and!; try done. exists []. split_and!; try done.
      intros x [] [=].
    + by rewrite lookup_insert_ne.
  - destruct (str_eqb u uuid) eqn:E; [apply str_eqb_true in E as ->|apply str_eqb_false in E].
    + rewrite lookup_alter_eq. destruct p as [l|], (t !! uuid) as [s|]; simpl in *; try done.
      by apply push_line_holds.
    + by rewrite lookup_alter_ne.
  - destruct (decide (u = uuid)) as [->|E]; [|by rewrite lookup_alter_ne].
    rewrite lookup_alter_eq. by destruct p, (t !! uuid).
  - by rewrite lookup_delete_eq.
  - by rewrite lookup_delete_ne.
Qed.

(** *** Subscription ids *)
Lemma num_digits_enough fuel n : (0 ≤ n < 10 ^ Z.of_nat fuel)%Z → (n < 10 ^ Z.of_nat (num_digits fuel n))%Z.
Proof.
  revert n. induction fuel as [|fuel IH]; intros n Hn; [simpl in *; lia|]. simpl num_digits.
  case_decide; [simpl; lia|]. rewrite Nat2Z.inj_succ, Z.pow_succ_r in Hn |- * by lia.
  assert (0 ≤ n / 10 < 10 ^ Z.of_nat fuel)%Z as Hd
    by (split; [apply Z.div_pos; lia|apply Z.div_lt_upper_bound; lia]).
  specialize (IH _ Hd). Z.to_euclidean_division_equations. lia.
Qed.

Lemma sub_id_inj m n : (0 ≤ m ≤ u64_max)%Z → (0 ≤ n ≤ u64_max)%Z → sub_id m = sub_id n → m = n.
Proof.
  intros Hm Hn E. apply (f_equal as_bytes) in E. unfold sub_id in E. rewrite !cat_cons in E.
  apply app_inv_head in E. simpl in E. rewrite !app_nil_r, !as_bytes_from_bytes in E.
  assert (Hp : ∀ k, (0 ≤ k ≤ u64_max)%Z → parse_u64 (format_padded 4 k) = Some k).
  { intros k Hk. unfold format_padded. apply parse_u64_print; [lia| |lia]. split; [lia|].
    pose proof (num_digits_enough 20 k) as Hd. unfold u64_max in Hk.
    specialize (Hd ltac:(change (Z.of_nat 20) with 20%Z; lia)). eapply Z.lt_le_trans; [exact Hd|].
    apply Z.pow_le_mono_r; lia. }
  pose proof (Hp m Hm) as Hpm. rewrite E, (Hp n Hn) in Hpm. by injection Hpm.
Qed.

Inductive RegistryOp (K : Type) : Type :=
| OpSubscribe (patterns : list string) (filter : option EventFilter) (sink : K)
| OpUnsubscribe (id : string).
Arguments OpSubscribe {K} patterns filter sink.
Arguments OpUnsubscribe {K} id.

Section registry.
Context {K : Type}.

Definition registry_op (op : RegistryOp K) (r : SubscriptionRegistry K) : SubscriptionRegistry K :=
  match op with
  | OpSubscribe patterns filter sink => (subscribe patterns filter sink r).2
  | OpUnsubscribe id => (unsubscribe id r).2
  end.
Definition registry_run (ops : list (RegistryOp K)) : SubscriptionRegistry K :=
  foldl (λ r op, registry_op op r) registry_new ops.

End registry.

(** ** Properties *)

(** What the daemon keeps of a session's output. Whatever is followed,
    pushed, completed and removed, in whatever order, a session that is
    followed keeps the longest end of what was pushed to it that fits in 64
    KiB, lines that are longer than that left out, and its byte count is
    exact; everything that is kept was also broadcast, in order. *)
Theorem followed_output_bounded ops uuid :
  match pushed uuid ops, tracker_run ops !! uuid with
  | Some lines, Some s =>
      longest_end DEFAULT_BUFFER_SIZE lines (output_buffer s) ∧
      buffer_bytes s = total_bytes (output_buffer s) ∧ sent s = lines ∧
      (∀ line, line ∈ lines → (byte_len line ≤ DEFAULT_BUFFER_SIZE)%Z)
  | None, None => True
  | _, _ => False
  end.
Proof.
  assert (Ht : tracks (pushed uuid ops) (tracker_run ops !! uuid) ∧
               ∀ lines, pushed uuid ops = Some lines → Forall (λ l, byte_len l ≤ DEFAULT_BUFFER_SIZE)%Z lines).
  { unfold pushed, tracker_run. induction ops as [|op ops [IH IHl]] using rev_ind; [done|].
    rewrite !foldl_snoc. split; [by apply tracker_op_tracks|]. intros lines.
    destruct op as [u room|u line|u|u]; simpl; try (destruct (str_eqb u uuid)); try by apply IHl.
    - by intros [= <-].
    - destruct (foldl _ None ops) as [l|]; [|done]. specialize (IHl _ eq_refl). intros [= <-].
      apply Forall_app. split; [done|]. case_decide; [by constructor|constructor].
    - done. }
  destruct Ht as [Ht Hl]. destruct (pushed uuid ops) as [lines|]; destruct (tracker_run ops !! uuid); try done.
  destruct Ht as (_ & Hb & Hs & Hend). specialize (Hl _ eq_refl). rewrite Forall_forall in Hl.
  by split_and!.
Qed.

(** An id is not handed out twice while it is in force. *)
Theorem subscribe_fresh {K} (ops : list (RegistryOp K)) patterns filter sink :
  (Z.of_nat (length ops) < u64_max)%Z →
  subscriptions (registry_run ops) !! (subscribe patterns filter sink (registry_run ops)).1 = None.
Proof.
  intros Hlen.
  assert (Hinv : (0 ≤ next_id (registry_run ops) ≤ Z.of_nat (length ops))%Z ∧
    ∀ id, is_Some (subscriptions (registry_run ops) !! id) →
      ∃ m, id = sub_id m ∧ (0 ≤ m ≤ next_id (registry_run ops))%Z).
  { clear Hlen. unfold registry_run. induction ops as [|op ops [IHn IHs]] using rev_ind.
    { simpl. split; [lia|]. intros id [? Hid]. by rewrite lookup_empty in Hid. }
    rewrite foldl_snoc, length_app. simpl length. destruct op as [ps f s|id]; simpl; (split; [lia|]).
    - intros id' [x Hx]. destruct (decide (sub_id (next_id (foldl (λ r op, registry_op op r) registry_new ops) + 1) = id'))
        as [<-|Hne]; [eexists; split; [done|lia]|].
      rewrite lookup_insert_ne in Hx by done. destruct (IHs id' (mk_is_Some _ _ Hx)) as (m & -> & ?).
      exists m. split; [done|lia].
    - intros id' [x Hx]. apply lookup_delete_Some in Hx as [_ Hx]. by apply IHs. }
  destruct Hinv as [Hn Hs]. simpl. apply eq_None_not_Some. intros (m & Hm & Hle)%Hs.
  apply sub_id_inj in Hm; lia.
Qed.

(** A wildcard matches without its dot: all that begins like it. *)
Lemma wildcard_no_boundary : pattern_matches "sessions_secret" "session.*" = true.
Proof. reflexivity. Qed.
