(* ===== verification/SessionJson.v ===== *)
(** * SessionJson: the JSON of the session events
    ([mxdx-types/events/session.rs], the derived [Serialize])

    The content of each event as the derived serialiser builds it: every field
    under its name, an absent option as [null], the enumerations in snake
    case. Reading back is the derived [Deserialize], a parameter where it is
    used. *)
From S2P Require Import Prelude Json Fabric SessionEvents Signaling Effects Rest MatrixClient MatrixDelivery Toys.
From stdpp Require Import options.

Section json.
Context {V : Type} `{JsonValue V} `{JsonU64 V} `{JsonBuild V} `{JsonContainers V} `{JsonNumbers V}.

Definition json_option {A} (f : A → V) (o : option A) : V := from_option f json_null o.
Definition json_strings (l : list string) : V := json_array (json_string <$> l).

Definition failure_policy_value (p : FailurePolicy) : V :=
  match p with
  | Escalate => json_string "escalate"
  | Respawn n => json_object [("respawn", json_object [("max_retries", json_number n)])]
  | RespawnWithContext => json_string "respawn_with_context"
  | Abandon => json_string "abandon"
  end.
Definition routing_mode_value (m : RoutingMode) : V :=
  json_string (match m with Direct => "direct" | Brokered => "brokered" | Auto => "auto" end).
Definition stream_value (s : OutputStream) : V :=
  json_string (match s with Stdout => "stdout" | Stderr => "stderr" end).
Definition status_value (s : SessionStatus) : V :=
  json_string (match s with Success => "success" | Failed => "failed" | Timeout => "timeout"
                          | Cancelled => "cancelled" end).

(** [entries]: the order of a [HashMap]. *)
Definition task_fields (entries : gmap string string → list (string * string)) (t : SessionTask) : list (string * V) :=
  [("uuid", json_string (st_uuid t)); ("sender_id", json_string (st_sender_id t));
   ("bin", json_string (bin t)); ("args", json_strings (args t));
   ("env", json_option (λ m, json_object ((λ kv, (kv.1, json_string kv.2)) <$> entries m)) (env t));
   ("cwd", json_option json_string (cwd t)); ("interactive", json_bool (interactive t));
   ("no_room_output", json_bool (no_room_output t));
   ("timeout_seconds", json_option json_number (st_timeout_seconds t));
   ("heartbeat_interval_seconds", json_number (st_heartbeat_interval_seconds t));
   ("plan", json_option json_string (st_plan t));
   ("required_capabilities", json_strings (st_required_capabilities t));
   ("routing_mode", json_option routing_mode_value (st_routing_mode t));
   ("on_timeout", json_option failure_policy_value (st_on_timeout t));
   ("on_heartbeat_miss", json_option failure_policy_value (st_on_heartbeat_miss t))].
Definition task_value entries (t : SessionTask) : V := json_object (task_fields entries t).

Definition start_fields (s : SessionStart) : list (string * V) :=
  [("session_uuid", json_string (start_session s)); ("worker_id", json_string (start_worker s));
   ("tmux_session", json_option json_string (start_tmux s)); ("pid", json_option json_number (start_pid s));
   ("started_at", json_number (start_at s))]
  ++ match start_dm_room s with Some r => [("dm_room_id", json_string r)] | None => [] end.
Definition output_fields (o : SessionOutput) : list (string * V) :=
  [("session_uuid", json_string (out_session o)); ("worker_id", json_string (out_worker o));
   ("stream", stream_value (out_stream o)); ("data", json_string (out_data o));
   ("seq", json_number (out_seq o)); ("timestamp", json_number (out_timestamp o))].
Definition heartbeat_fields (b : SessionHeartbeat) : list (string * V) :=
  [("session_uuid", json_string (shb_session b)); ("worker_id", json_string (shb_worker b));
   ("timestamp", json_number (shb_timestamp b)); ("progress", json_option json_string (shb_progress b))].
Definition result_fields (r : SessionResult) : list (string * V) :=
  [("session_uuid", json_string (sr_session r)); ("worker_id", json_string (sr_worker r));
   ("status", status_value (sr_status r)); ("exit_code", json_option json_number (sr_exit_code r));
   ("duration_seconds", json_number (sr_duration r)); ("tail", json_option json_string (sr_tail r))].
Definition signal_fields (s : SessionSignal) : list (string * V) :=
  [("session_uuid", json_string (sig_session s)); ("signal", json_string (sig_signal s))].
Definition cancel_fields (c : SessionCancel) : list (string * V) :=
  [("session_uuid", json_string (can_session c)); ("reason", json_option json_string (can_reason c));
   ("grace_seconds", json_option json_number (can_grace_seconds c))].

Definition start_value (s : SessionStart) : V := json_object (start_fields s).
Definition output_value (o : SessionOutput) : V := json_object (output_fields o).
Definition heartbeat_value (b : SessionHeartbeat) : V := json_object (heartbeat_fields b).
Definition result_value (r : SessionResult) : V := json_object (result_fields r).
Definition signal_value (s : SessionSignal) : V := json_object (signal_fields s).
Definition cancel_value (c : SessionCancel) : V := json_object (cancel_fields c).
End json.

(** ** A field of an object that is built *)
Section fields.
Context {V : Type} `{JsonLaws V}.

Lemma get_str_object (l : list (string * V)) k (s : string) :
  NoDup l.*1 → (k, json_string s) ∈ l → get_str (json_object l) k = Some s.
Proof using All.
  intros Hnd Hin. unfold get_str. rewrite (get_object _ _ _ Hnd Hin). simpl. apply as_str_string.
Qed.
Lemma field_head (l : list (string * V)) k (s : string) :
  NoDup (k :: l.*1) → get_str (json_object ((k, json_string s) :: l)) k = Some s.
Proof using All. intros Hnd. apply get_str_object; [done|apply list_elem_of_here]. Qed.

(** What the worker's events and the client's requests say about whom. *)
Lemma output_session o : get_str (output_value o) "session_uuid" = Some (out_session o).
Proof using All. apply field_head, (bool_decide_unpack _). reflexivity. Qed.
Lemma heartbeat_session b : get_str (heartbeat_value b) "session_uuid" = Some (shb_session b).
Proof using All. apply field_head, (bool_decide_unpack _). reflexivity. Qed.
Lemma result_session r : get_str (result_value r) "session_uuid" = Some (sr_session r).
Proof using All. apply field_head, (bool_decide_unpack _). reflexivity. Qed.
Lemma start_session_field s : get_str (start_value s) "session_uuid" = Some (start_session s).
Proof using All.
  apply field_head. destruct (start_dm_room s); apply (bool_decide_unpack _); reflexivity.
Qed.
Lemma signal_session s : get_str (signal_value s) "session_uuid" = Some (sig_session s).
Proof using All. apply field_head, (bool_decide_unpack _). reflexivity. Qed.
Lemma cancel_session c : get_str (cancel_value c) "session_uuid" = Some (can_session c).
Proof using All. apply field_head, (bool_decide_unpack _). reflexivity. Qed.
End fields.
