(* ===== verification/RoomEvents.v ===== *)
(** * RoomEvents: what clients and workers say to each other in a room
    ([mxdx-worker/matrix.rs], [mxdx-client/matrix.rs], [submit.rs],
    [cancel.rs], [tail.rs])

    The events that each side reads out of a sync and the ones it writes, the
    telemetry that a client goes by, and the way a client comes to its room.
    Several homeservers are behind the interface [MultiOps], which one server
    meets with the operations of [MatrixClient] and [MatrixRooms]. *)
From S2P Require Import WorkerLoop.
From S2P Require Import Prelude Text Json Fabric SessionEvents P2PCrypto MatrixTypes Effects Rest MatrixClient MatrixRooms Liveness MatrixDelivery SessionJson Toys.
From stdpp Require Import options.

(** ** The worker's side *)
Section worker_room.
Context {W V : Type} `{MatrixSdk W V} `{JsonValue V} `{JsonU64 V} `{JsonBuild V} `{JsonContainers V}
  `{JsonNumbers V} `{HttpServer W V} `{RestExternals}.

(** One event of a sync, if it is one that the worker handles. *)
Definition parse_incoming (event : V) : option (IncomingEvent V) :=
  let event_type := default "" (get_str event "type") in
  let content := default (json_object []) (get event "content") in
  let session_uuid := default "" (get_str content "session_uuid") in
  if str_eqb event_type SESSION_TASK then
    Some (TaskSubmission (default "" (get_str event "event_id")) content)
  else if str_eqb event_type SESSION_INPUT then Some (InSessionInput session_uuid content)
  else if str_eqb event_type SESSION_SIGNAL then Some (InSessionSignal session_uuid content)
  else if str_eqb event_type SESSION_RESIZE then Some (InSessionResize session_uuid content)
  else if str_eqb event_type SESSION_CANCEL then Some (InSessionCancel session_uuid content)
  else None.

(** [collect]: [multi.sync_and_collect_events]. *)
Definition worker_sync_events (collect : Duration → Io W string (list V)) (timeout : Duration)
    : Io W string (list (IncomingEvent V)) :=
  raw_events ← collect timeout; mret (omap parse_incoming raw_events).

Definition valid_room (room_id : string) : Io W string string :=
  of_result (result_map_err (λ e, cat ["Invalid room ID: "; e]) (parse_room_id room_id)).

(** [WorkerRoomOps]; the preferred client is asked directly. *)
Definition worker_post_to_thread (room_id thread_root event_type : string) (content : V) : Io W string string :=
  rid ← valid_room room_id; mx (MatrixClient.send_threaded_event rid event_type thread_root content).
Definition worker_write_state (room_id event_type state_key : string) (content : V) : Io W string () :=
  rid ← valid_room room_id; mx (MatrixClient.send_state_event rid event_type state_key content).
Definition worker_read_state (room_id event_type state_key : string) : Io W string (option V) :=
  rid ← valid_room room_id;
  value ← attempt (mx (get_room_state_event rid event_type state_key));
  mret (match value with Ok v => Some v | Err _ => None end).
Definition worker_remove_state (room_id event_type state_key : string) : Io W string () :=
  rid ← valid_room room_id; mx (MatrixClient.send_state_event rid event_type state_key (json_object [])).
End worker_room.

(** ** The client's side *)
Inductive IncomingClientEvent (V : Type) : Type :=
| ClSessionStart (event_id session_uuid : string) (content : V)
| ClSessionOutput (event_id session_uuid : string) (content : V)
| ClSessionHeartbeat (event_id session_uuid : string) (content : V)
| ClSessionResult (event_id session_uuid : string) (content : V).
Arguments ClSessionStart {V} event_id session_uuid content.
Arguments ClSessionOutput {V} event_id session_uuid content.
Arguments ClSessionHeartbeat {V} event_id session_uuid content.
Arguments ClSessionResult {V} event_id session_uuid content.

(** [submit.rs] and [cancel.rs]; the uuid is drawn by the caller. *)
Definition build_task (uuid bin : string) (args : list string) (interactive no_room_output : bool)
    (timeout_seconds : option Z) (heartbeat_interval_seconds : Z) (sender_id : string) (cwd : option string)
    : SessionTask :=
  mkSessionTask uuid sender_id bin args None cwd interactive no_room_output timeout_seconds
    heartbeat_interval_seconds None [] None None None.
Definition build_cancel (session_uuid : string) (reason : option string) (grace_seconds : option Z) : SessionCancel :=
  mkCancel session_uuid reason grace_seconds.
Definition build_signal (session_uuid signal : string) : SessionSignal := mkSignal session_uuid signal.

(** [tail.rs]. *)
Definition decode_output `{Base64} (output : SessionOutput) : result Bytes string := b64_decode (out_data output).
Definition format_output `{Base64} (output : SessionOutput) : result string string :=
  let? bytes := decode_output output in Ok (from_utf8_lossy bytes).
Definition is_terminal_result (r : SessionResult) : bool := true.
(** [{:?}] of an [Option<i32>]. *)
Definition debug_option (n : option Z) : string :=
  match n with Some n => cat ["Some("; show n; ")"] | None => "None" end.
Definition status_word (s : SessionStatus) : string :=
  match s with Success => "success" | Failed => "failed" | Timeout => "timeout" | Cancelled => "cancelled" end.
Definition format_result (r : SessionResult) : string :=
  cat ["Session "; sr_session r; " "; status_word (sr_status r); ": exit_code="; debug_option (sr_exit_code r);
       ", duration="; show (sr_duration r); "s"].

(** What the crate asks of the client of several homeservers. *)
Class MultiOps (W V : Type) := {
  multi_sync_once : Io W string ();
  multi_join_room : string → Io W string ();
  multi_wait_for_key_exchange : string → Duration → Io W string ();
  multi_find_launcher_space : string → Io W string (option LauncherTopology);
  multi_bootstrap_and_sync_trust : string → Io W string ();
  multi_send_event : string → V → Io W string string;
  multi_sync_and_collect_events : string → Duration → Io W string (list V);
  multi_user_id : W → string;
}.

Section client_room.
Context {W V : Type} `{MatrixSdk W V} `{JsonValue V} `{JsonU64 V} `{JsonBuild V} `{JsonContainers V}
  `{JsonNumbers V} `{HttpServer W V} `{RestExternals} `{MultiOps W V}.

(** One homeserver, [from_single_client]. *)
Definition single_server (joined_rooms : V → result (list string) string) (fuel : nat)
    (bootstrap : string → Io W string ()) : MultiOps W V := {|
  multi_sync_once := mx MatrixClient.sync_once;
  multi_join_room room := mx (MatrixClient.join_room room);
  multi_wait_for_key_exchange room timeout :=
    mx (MatrixClient.wait_for_key_exchange fuel room timeout) ;; mret ();
  multi_find_launcher_space name := mx (MatrixRooms.find_launcher_space joined_rooms name);
  multi_bootstrap_and_sync_trust := bootstrap;
  multi_send_event room payload := mx (MatrixClient.send_event room payload);
  multi_sync_and_collect_events room timeout := mx (MatrixClient.sync_and_collect_events room timeout);
  multi_user_id w := default "" (sdk_user_id w) |}.

(** The payload of [post_event] and [post_event_mut]. *)
Definition event_payload (event_type : string) (content : V) : V :=
  json_object [("type", json_string event_type); ("content", content)].

Definition post_event_mut (room event_type : string) (content : V) : Io W string string :=
  multi_send_event room (event_payload event_type content).
Definition post_event (room event_type : string) (content : V) : Io W string string :=
  mx (MatrixClient.send_event room (event_payload event_type content)).
Definition client_post_to_thread (room thread_root event_type : string) (content : V) : Io W string string :=
  mx (MatrixClient.send_threaded_event room event_type thread_root content).

Definition parse_client_event (raw : V) : option (IncomingClientEvent V) :=
  let event_type := default "" (get_str raw "type") in
  let event_id := default "" (get_str raw "event_id") in
  let content := default json_null (get raw "content") in
  let session_uuid := default "" (get_str content "session_uuid") in
  if str_eqb session_uuid "" then None else
  if str_eqb event_type SESSION_START then Some (ClSessionStart event_id session_uuid content)
  else if str_eqb event_type SESSION_OUTPUT then Some (ClSessionOutput event_id session_uuid content)
  else if str_eqb event_type SESSION_HEARTBEAT then Some (ClSessionHeartbeat event_id session_uuid content)
  else if str_eqb event_type SESSION_RESULT then Some (ClSessionResult event_id session_uuid content)
  else None.

Definition sync_events_mut (room : string) : Io W string (list (IncomingClientEvent V)) :=
  raw_events ← multi_sync_and_collect_events room (from_secs 2); mret (omap parse_client_event raw_events).
Definition sync_events (room : string) : Io W string (list (IncomingClientEvent V)) :=
  raw_events ← mx (MatrixClient.sync_and_collect_events room (from_secs 5));
  mret (omap parse_client_event raw_events).

Definition find_room (joined_rooms : V → result (list string) string) (room_name : string)
    : Io W string (option string) :=
  topology ← mx (MatrixRooms.find_launcher_space joined_rooms room_name);
  mret (exec_room_id <$> topology).

(** *** The telemetry that a client goes by *)
Definition WORKER_TELEMETRY : string := "org.mxdx.host_telemetry".

(** [rest_ts > existing_ts], as strings. *)
Definition fresher (rest existing : V) : bool :=
  bool_decide (String.compare (default "" (get_str rest "timestamp")) (default "" (get_str existing "timestamp")) = Gt).

Definition merge_entry (merged : gmap string V) (entry : string * V) : gmap string V :=
  match merged !! entry.1 with
  | None => <[entry.1 := entry.2]> merged
  | Some existing => if fresher entry.2 existing then <[entry.1 := entry.2]> merged else merged
  end.
Definition merge_telemetry (sdk_entries rest_entries : list (string * V)) : gmap string V :=
  foldl merge_entry (foldl (λ m e, <[e.1 := e.2]> m) ∅ sdk_entries) rest_entries.

(** [now]: the clock at each event that is judged; [to_list]: the order of
    the merged map. A malformed timestamp can panic. *)
Definition read_state_events {E} (now : nat → Z) (to_list : gmap string V → list (string * V))
    (room event_type : string) : Io W E (list (string * V)) :=
  cached ← catch (mx (get_state_events_cached room event_type));
  let sdk_entries := match cached with Ok l => l | Err _ => [] end in
  match summarize_worker_liveness now sdk_entries with
  | None => panic
  | Some sdk_summary =>
      if decide (0 < online sdk_summary)%Z then mret sdk_entries else
      rest ← catch (mx (get_telemetry_via_rest room event_type));
      let rest_entries := match rest with Ok l => l | Err _ => [] end in
      mret (if bool_decide (rest_entries = []) then sdk_entries
            else to_list (merge_telemetry sdk_entries rest_entries))
  end.

(** *** Coming to the room, once connected *)
Definition prepare_room (any_fresh : bool) (rid : string) : Io W string () :=
  if any_fresh then
    multi_sync_once ;; attempt (multi_join_room rid) ;; multi_wait_for_key_exchange rid (from_secs 90)
  else multi_sync_once.

Definition resolve_room (worker_room : string) (direct_room_id : option string) (any_fresh : bool) : Io W string string :=
  match direct_room_id with
  | Some rid_str =>
      rid ← of_result (result_map_err (λ e, cat ["Invalid room ID '"; rid_str; "': "; e]) (parse_room_id rid_str));
      prepare_room any_fresh rid ;; mret rid
  | None =>
      topology ← multi_find_launcher_space worker_room;
      match topology with
      | None => raise (cat ["No worker room found for '"; worker_room;
                            "'. Has the worker started and invited this client?"])
      | Some t => prepare_room any_fresh (exec_room_id t) ;; mret (exec_room_id t)
      end
  end.

(** [connect]: of [MultiHsClient], with a flag per account for a fresh login;
    [remove_passwords] edits the configuration file. *)
Definition connect_multi {A} (connect : list A → bool → Io W string (list bool)) (remove_passwords : Io W string ())
    (keep_passwords : W → bool) (accounts : list A) (worker_room : string) (direct_room_id : option string)
    (force_new_device : bool) : Io W string string :=
  if bool_decide (length accounts = 0) then
    raise "No Matrix accounts configured (use --homeserver/--username/--password or config file)"
  else
  fresh_logins ← connect accounts force_new_device;
  let any_fresh := existsb id fresh_logins in
  keep ← observe keep_passwords;
  (if negb keep && any_fresh then attempt remove_passwords ;; mret () else mret ()) ;;
  room ← resolve_room worker_room direct_room_id any_fresh;
  multi_bootstrap_and_sync_trust room ;; mret room.
End client_room.

(** ** Properties *)
Section delivery.
Context {V : Type} `{JsonLaws V}.

(** Documented behaviour of Matrix: what a sync hands back of an event that
    was sent is its type, its content and the id that the sender was told. *)
Definition handed_back (event_id : string) (payload raw : V) : Prop :=
  get raw "type" = get payload "type" ∧ get raw "content" = get payload "content" ∧
  get_str raw "event_id" = Some event_id.

Lemma handed_back_fields event_id ty (content raw : V) :
  handed_back event_id (event_payload ty content) raw →
  get_str raw "type" = Some ty ∧ get raw "content" = Some content ∧ get_str raw "event_id" = Some event_id.
Proof using All.
  intros (Ht & Hc & Hid). split_and!; [|rewrite Hc|done].
  - unfold get_str. rewrite Ht. unfold event_payload. rewrite get_object with (v := json_string ty).
    + apply as_str_string.
    + apply (bool_decide_unpack _). reflexivity.
    + apply list_elem_of_here.
  - unfold event_payload. apply get_object; [apply (bool_decide_unpack _); reflexivity|].
    apply list_elem_of_further, list_elem_of_here.
Qed.

(** What a client asks for, as the worker takes it. *)
Lemma parse_incoming_task event_id (content raw : V) :
  handed_back event_id (event_payload SESSION_TASK content) raw →
  parse_incoming raw = Some (TaskSubmission event_id content).
Proof using All.
  intros (Ht & Hc & Hid)%handed_back_fields. unfold parse_incoming. by rewrite Ht, Hc, Hid.
Qed.
Lemma parse_incoming_session ty (k : string → V → IncomingEvent V) event_id uuid (content raw : V) :
  handed_back event_id (event_payload ty content) raw →
  get_str content "session_uuid" = Some uuid →
  (ty = SESSION_CANCEL ∧ k = InSessionCancel ∨ ty = SESSION_SIGNAL ∧ k = InSessionSignal) →
  parse_incoming raw = Some (k uuid content).
Proof using All.
  intros (Ht & Hc & Hid)%handed_back_fields Hu Hk. unfold parse_incoming. rewrite Ht, Hc. cbn [from_option id].
  rewrite Hu. by destruct Hk as [[-> ->]|[-> ->]].
Qed.

(** What a worker reports, as the client takes it. *)
Lemma parse_client_session ty (k : string → string → V → IncomingClientEvent V) event_id uuid (content raw : V) :
  handed_back event_id (event_payload ty content) raw →
  get_str content "session_uuid" = Some uuid → uuid ≠ "" →
  (ty = SESSION_START ∧ k = ClSessionStart ∨ ty = SESSION_OUTPUT ∧ k = ClSessionOutput ∨
   ty = SESSION_HEARTBEAT ∧ k = ClSessionHeartbeat ∨ ty = SESSION_RESULT ∧ k = ClSessionResult) →
  parse_client_event raw = Some (k event_id uuid content).
Proof using All.
  intros (Ht & Hc & Hid)%handed_back_fields Hu Hne%str_eqb_false Hk. unfold parse_client_event.
  rewrite Ht, Hc, Hid. cbn [from_option id]. rewrite Hu. cbn [from_option id]. rewrite Hne.
  by destruct Hk as [[-> ->]|[[-> ->]|[[-> ->]|[-> ->]]]].
Qed.
End delivery.

Section merge.
Context {V : Type} `{JsonValue V}.

Definition timestamp_of (v : V) : string := default "" (get_str v "timestamp").

Lemma fresher_spec (a b : V) : fresher a b = false ↔ String.le (timestamp_of a) (timestamp_of b).
Proof. unfold fresher. rewrite bool_decide_eq_false, str_le_compare. done. Qed.
Lemma fresher_true (a b : V) : fresher a b = true → String.le (timestamp_of b) (timestamp_of a).
Proof.
  unfold fresher. rewrite bool_decide_eq_true, str_le_compare. fold (timestamp_of a) (timestamp_of b).
  intros E. by rewrite str_compare_opp, E.
Qed.

(** The entry of a key after the entries of the second list: it is one of
    them or the one before, and none of them is fresher. *)
Lemma merge_fold_spec m l k :
  match foldl merge_entry m l !! k with
  | Some v => (m !! k = Some v ∨ (k, v) ∈ l) ∧
      (∀ v', (k, v') ∈ l → String.le (timestamp_of v') (timestamp_of v)) ∧
      (∀ v', m !! k = Some v' → String.le (timestamp_of v') (timestamp_of v))
  | None => m !! k = None ∧ ∀ v, (k, v) ∉ l
  end.
Proof.
  induction l as [|[k' e] l IH] using rev_ind; simpl.
  { destruct (m !! k) as [v|] eqn:E; [|set_solver]. split_and!; [by left|set_solver|]. by intros ? [= <-]. }
  rewrite foldl_snoc. unfold merge_entry at 1; simpl. set (m1 := foldl merge_entry m l) in *.
  destruct (decide (k' = k)) as [->|Hne].
  - destruct (m1 !! k) as [v|] eqn:E.
    + destruct IH as (Hin & Hl & Hm). destruct (fresher e v) eqn:Ef.
      * apply fresher_true in Ef. rewrite lookup_insert_eq. split_and!; [right; set_solver|..].
        { intros v' [Hv| [= ->]%list_elem_of_singleton]%elem_of_app; [|done]. etrans; [by apply Hl|done]. }
        { intros v' Hv. etrans; [by apply Hm|done]. }
      * apply fresher_spec in Ef. rewrite E. split_and!; [set_solver| |done].
        intros v' [Hv| [= ->]%list_elem_of_singleton]%elem_of_app; [by apply Hl|done].
    + destruct IH as [Hm Hl]. rewrite lookup_insert_eq. split_and!; [right; set_solver| |by rewrite Hm].
      intros v' [Hv| [= ->]%list_elem_of_singleton]%elem_of_app; [by apply Hl in Hv|done].
  - assert (Hsame : (match m1 !! k' with
        | Some existing => if fresher e existing then <[k' := e]> m1 else m1
        | None => <[k' := e]> m1 end) !! k = m1 !! k)
      by (destruct (m1 !! k'); [destruct (fresher _ _)|]; rewrite ?lookup_insert_ne; done).
    rewrite Hsame.
    assert (Hiff : ∀ v, (k, v) ∈ l ++ [(k', e)] ↔ (k, v) ∈ l).
    { intros v. rewrite elem_of_app, list_elem_of_singleton. naive_solver. }
    destruct (m1 !! k) as [v|]; [|by setoid_rewrite Hiff]. destruct IH as (Hin & Hl & Hm).
    split_and!; [by rewrite Hiff| |done]. intros v' Hv'. apply Hl. by apply Hiff.
Qed.

Lemma cached_map_spec (l : list (string * V)) k v :
  foldl (λ m e, <[e.1 := e.2]> m) (∅ : gmap string V) l !! k = Some v → (k, v) ∈ l.
Proof.
  induction l as [|[k' e] l IH] using rev_ind; [done|]. rewrite foldl_snoc. simpl.
  intros [[-> ->]|[_ Hv]]%lookup_insert_Some; set_solver.
Qed.
Lemma cached_map_key (l : list (string * V)) k v :
  (k, v) ∈ l → is_Some (foldl (λ m e, <[e.1 := e.2]> m) (∅ : gmap string V) l !! k).
Proof.
  induction l as [|[k' e] l IH] using rev_ind; [by intros ?%elem_of_nil|]. rewrite foldl_snoc. simpl.
  intros [Hv| [= -> ->]%list_elem_of_singleton]%elem_of_app; [|rewrite lookup_insert_eq; eauto].
  destruct (decide (k' = k)) as [->|]; [rewrite lookup_insert_eq; eauto|rewrite lookup_insert_ne by done; auto].
Qed.

(** What a client goes by when its cache shows no live worker. Merging
    the telemetry of the cache with that of the server forgets no worker and
    makes none up, and the entry that it keeps of a worker is at least as
    fresh, by its timestamp, as everything the server says of that worker. *)
Theorem merged_telemetry_freshest (sdk_entries rest_entries : list (string * V)) k :
  match merge_telemetry sdk_entries rest_entries !! k with
  | Some v => (k, v) ∈ sdk_entries ++ rest_entries ∧ ∀ v', (k, v') ∈ rest_entries → fresher v' v = false
  | None => ∀ v, (k, v) ∉ sdk_entries ++ rest_entries
  end.
Proof.
  unfold merge_telemetry. set (m := foldl (λ m e, _) ∅ sdk_entries).
  pose proof (merge_fold_spec m rest_entries k) as Hs. destruct (_ !! k) as [v|].
  - destruct Hs as (Hin & Hl & _). split; [|intros v' Hv'; by apply fresher_spec, Hl].
    apply elem_of_app. destruct Hin as [Hm|]; [left; by apply cached_map_spec|by right].
  - destruct Hs as [Hm Hl]. intros v [Hv|Hv]%elem_of_app; [|by apply (Hl v)].
    destruct (cached_map_key _ _ _ Hv) as [? E]. unfold m in Hm. congruence.
Qed.
End merge.

(** ** Reading telemetry sends nothing *)
Section quiet.
Context {W V X : Type} `{MatrixSdk W V} `{JsonValue V} `{JsonU64 V} `{JsonBuild V} `{JsonContainers V}
  `{JsonNumbers V} `{HttpServer W V} `{!HttpLaws W V} `{RestExternals}.
Variable view : W → X.
Hypothesis state_quiet : ∀ room ty, undisturbed view (sdk_get_state_events room ty).
Hypothesis decrypt_quiet : ∀ room json, undisturbed view (sdk_decrypt_event room json).

Lemma undisturbed_decrypted room ty raws : undisturbed view (decrypted_events room ty raws).
Proof using All.
  induction raws as [|[json|json] raws IH]; simpl; [apply undisturbed_ret| |].
  - apply undisturbed_bind; [apply undisturbed_attempt, undisturbed_map_err, decrypt_quiet|]. intros d.
    apply undisturbed_bind; [done|]. intros rest. apply undisturbed_ret.
  - apply undisturbed_bind; [done|]. intros rest. apply undisturbed_ret.
Qed.

Lemma undisturbed_cached room ty : undisturbed view (get_state_events_cached room ty).
Proof using All.
  unfold get_state_events_cached. apply undisturbed_bind.
  { unfold need_room. apply undisturbed_bind; [apply undisturbed_observe|]. intros []; [apply undisturbed_ret|apply undisturbed_raise]. }
  intros _. apply undisturbed_bind; [apply undisturbed_map_err, state_quiet|]. intros raws.
  case_match; [apply undisturbed_ret|]. apply undisturbed_bind; [apply undisturbed_map_err, state_quiet|]. intros l.
  apply undisturbed_decrypted.
Qed.

Lemma undisturbed_rest room ty : undisturbed view (get_telemetry_via_rest room ty).
Proof using All.
  unfold get_telemetry_via_rest. apply undisturbed_bind; [apply undisturbed_observe|]. intros hs.
  apply undisturbed_bind; [apply undisturbed_observe|]. intros token. apply undisturbed_bind.
  { destruct token; [apply undisturbed_ret|apply undisturbed_raise]. }
  intros t. apply undisturbed_bind; [|intros l; apply undisturbed_ret].
  apply undisturbed_map_err, undisturbed_reads. unfold get_room_full_state. apply reads_bind; [apply reads_get_url; done|].
  intros resp. apply reads_bind; [apply reads_bail|]. intros _. apply reads_bind; [apply reads_of_result|].
  intros v. destruct (as_array v); [apply reads_ret|apply reads_raise].
Qed.

Lemma undisturbed_read_state {E} clock to_list room ty : undisturbed view (read_state_events (E := E) clock to_list room ty).
Proof using All.
  unfold read_state_events, mx. apply undisturbed_bind; [apply undisturbed_catch, undisturbed_map_err, undisturbed_cached|]. intros c.
  destruct (summarize_worker_liveness _ _); [|apply undisturbed_panic]. case_decide; [apply undisturbed_ret|].
  apply undisturbed_bind; [apply undisturbed_catch, undisturbed_map_err, undisturbed_rest|]. intros r. apply undisturbed_ret.
Qed.
End quiet.
