(* ===== verification/ClientProtocol.v ===== *)
(** * ClientProtocol: JSON-RPC between the client and its daemon
    ([mxdx-client/protocol/mod.rs], [error.rs], [methods.rs])

    Requests, replies and notifications as they go over the socket, one JSON
    value per line, and the parameters and results of the methods. The
    derived [Deserialize] of a type is the interface [Signaling.Deserialize]. *)
From S2P Require Import Prelude Json SessionEvents Signaling Effects Rest MatrixClient MatrixDelivery SessionJson ClientSessions Toys.
From stdpp Require Import options.

Definition JSONRPC_VERSION : string := "2.0".

(** ** Error codes *)
Definition PARSE_ERROR : Z := -32700.
Definition INVALID_REQUEST : Z := -32600.
Definition METHOD_NOT_FOUND : Z := -32601.
Definition INVALID_PARAMS : Z := -32602.
Definition INTERNAL_ERROR : Z := -32603.
Definition NO_WORKER : Z := -1.
Definition WORKER_OFFLINE : Z := -2.
Definition WORKER_STALE : Z := -3.
Definition UNAUTHORIZED : Z := -4.
Definition SESSION_NOT_FOUND : Z := -5.
Definition TRANSPORT_EXISTS : Z := -6.
Definition MATRIX_UNAVAILABLE : Z := -7.
Definition CREDENTIAL_MISMATCH : Z := -8.

(** ** Messages *)
Inductive RequestId : Type := IdNumber (n : Z) | IdString (s : string).

Record RpcRequest (V : Type) := mkRpcRequest { req_id : RequestId; req_method : string; req_params : option V }.
Arguments mkRpcRequest {V} req_id req_method req_params.
Arguments req_id {V} r.
Arguments req_method {V} r.
Arguments req_params {V} r.

Record Notification (V : Type) := mkNotification { not_method : string; not_params : option V }.
Arguments mkNotification {V} not_method not_params.
Arguments not_method {V} n.
Arguments not_params {V} n.

(** [Response] and [ErrorResponse]; [data] is never set. *)
Inductive Reply (V : Type) : Type :=
| RpcResponse (id : RequestId) (result : V)
| RpcError (id : RequestId) (code : Z) (message : string).
Arguments RpcResponse {V} id result.
Arguments RpcError {V} id code message.

Definition reply_id {V} (r : Reply V) : RequestId :=
  match r with RpcResponse id _ | RpcError id _ _ => id end.

Inductive IncomingMessage (V : Type) : Type :=
| MsgRequest (r : RpcRequest V)
| MsgNotification (n : Notification V).
Arguments MsgRequest {V} r.
Arguments MsgNotification {V} n.

(** ** Parameters and results *)
Record SessionRunParams := mkRunParams {
  run_bin : string; run_args : list string; run_cwd : option string; run_env : option (gmap string string);
  run_interactive : bool; run_no_room_output : bool; run_timeout_seconds : option Z;
  run_heartbeat_interval : option Z; run_worker_room : option string; run_detach : bool }.
Record SessionCancelParams := mkCancelParams {
  cancel_uuid : string; cancel_signal : option string; cancel_worker_room : option string }.
Record SessionLogsParams := mkLogsParams {
  logs_uuid : string; logs_follow : bool; logs_worker_room : option string }.
Record SessionAttachParams := mkAttachParams { attach_uuid : string; attach_interactive : bool }.
Record EventsSubscribeParams := mkSubscribeParams {
  subscribe_events : list string; subscribe_filter : option EventFilter }.
Record EventsUnsubscribeParams := mkUnsubscribeParams { unsubscribe_id : string }.
Record AddTransportParams := mkAddTransport {
  add_type : string; add_bind : option string; add_port : option Z }.
Record RemoveTransportParams := mkRemoveTransport { remove_type : string; remove_address : option string }.
Record SessionRunResult := mkRunResult { rr_uuid : string; rr_status : string }.

Class DaemonDeserialize (V : Type) := {
  #[global] de_rpc_request :: Deserialize V (RpcRequest V);
  #[global] de_notification :: Deserialize V (Notification V);
  #[global] de_run :: Deserialize V SessionRunParams;
  #[global] de_cancel :: Deserialize V SessionCancelParams;
  #[global] de_logs :: Deserialize V SessionLogsParams;
  #[global] de_attach :: Deserialize V SessionAttachParams;
  #[global] de_subscribe :: Deserialize V EventsSubscribeParams;
  #[global] de_unsubscribe :: Deserialize V EventsUnsubscribeParams;
  #[global] de_add_transport :: Deserialize V AddTransportParams;
  #[global] de_remove_transport :: Deserialize V RemoveTransportParams;
  #[global] de_output :: Deserialize V SessionOutput;
  #[global] de_result :: Deserialize V SessionResult;
}.

Section protocol.
Context {V : Type} `{JsonValue V} `{JsonU64 V} `{JsonBuild V} `{JsonContainers V} `{JsonNumbers V}
  `{DaemonDeserialize V}.

Definition request_id_value (id : RequestId) : V :=
  match id with IdNumber n => json_number n | IdString s => json_string s end.

(** What [serde_json::to_string] writes of each message. *)
Definition request_value (r : RpcRequest V) : V :=
  json_object ([("jsonrpc", json_string JSONRPC_VERSION); ("id", request_id_value (req_id r));
                ("method", json_string (req_method r))]
               ++ match req_params r with Some p => [("params", p)] | None => [] end).
Definition reply_value (r : Reply V) : V :=
  match r with
  | RpcResponse id result =>
      json_object [("jsonrpc", json_string JSONRPC_VERSION); ("id", request_id_value id); ("result", result)]
  | RpcError id code message =>
      json_object [("jsonrpc", json_string JSONRPC_VERSION); ("id", request_id_value id);
                   ("error", json_object [("code", json_number code); ("message", json_string message)])]
  end.

(** [IncomingMessage::parse]. *)
Definition parse_message (json : string) : result (IncomingMessage V) string :=
  let? value := from_str json in
  match get value "id" with
  | Some _ => let? r := de value in Ok (MsgRequest r)
  | None => let? n := de value in Ok (MsgNotification n)
  end.

(** [parse_params]: the parameters, or the reply that ends the request. *)
Definition parse_params {T} `{Deserialize V T} (id : RequestId) (params : option V) : result T (Reply V) :=
  match params with
  | Some v => result_map_err (λ e, RpcError id INVALID_PARAMS (cat ["invalid params: "; e])) (de v)
  | None => result_map_err (λ e, RpcError id INVALID_PARAMS (cat ["params required: "; e])) (de (json_object []))
  end.

(** [json!(..)] of the two notifications of a session that is followed. *)
Definition output_notification (uuid data : string) : V :=
  json_object [("jsonrpc", json_string JSONRPC_VERSION); ("method", json_string "session.output");
               ("params", json_object [("uuid", json_string uuid); ("data", json_string data)])].
Definition result_notification (uuid : string) (exit_code : option Z) (status : string) (tail : option string) : V :=
  json_object [("jsonrpc", json_string JSONRPC_VERSION); ("method", json_string "session.result");
               ("params", json_object [("uuid", json_string uuid); ("exit_code", json_option json_number exit_code);
                                       ("status", json_string status); ("tail", json_option json_string tail)])].
End protocol.
