(* ===== verification/ClientDaemon.v ===== *)
(** * ClientDaemon: the client's daemon
    ([mxdx-client/daemon/handler.rs], [daemon/mod.rs], [daemon/transport/unix.rs])

    The requests that local clients make over the socket, the task that each
    session that is followed runs, and the loop that stops an idle daemon. A
    handler runs to its reply; a reply that is returned early is raised. The
    state is that of [Handler] with the outside that it talks to; followers
    are the tasks that were spawned, each a run of [tail_session]. *)
From S2P Require Import WorkerLoop.
From S2P Require Import Prelude Text Json Fabric SessionEvents Signaling P2PCrypto MatrixTypes Effects Rest MatrixClient MatrixRooms Liveness MatrixDelivery SessionJson ClientSessions ClientProtocol RoomEvents MatrixSession Toys.
From stdpp Require Import options.

(** ** A session that is followed: [tail_session] *)
Section tail.
Context {V : Type} `{JsonValue V} `{JsonU64 V} `{JsonBuild V} `{JsonContainers V} `{JsonNumbers V}
  `{DaemonDeserialize V} `{Base64}.

(** [notified]: what went to the sink. *)
Record Tail := mkTail { seen_event_ids : gset string; notified : list V; tracked : SessionTracker }.

(** What [event_rx.recv()] gives. *)
Inductive Received : Type :=
| RecvEvents (events : list (IncomingClientEvent V))
| RecvLagged (skipped : Z)
| RecvClosed.

(** The [continue] of both branches, and the id that is remembered. *)
Definition skipped (uuid session_uuid event_id : string) (st : Tail) : bool :=
  negb (str_eqb session_uuid uuid)
  || (negb (str_eqb event_id "") && bool_decide (event_id ∈ seen_event_ids st)).
Definition remember (event_id : string) (st : Tail) : Tail :=
  if str_eqb event_id "" then st
  else mkTail ({[event_id]} ∪ seen_event_ids st) (notified st) (tracked st).
Definition notify (n : V) (st : Tail) : Tail :=
  mkTail (seen_event_ids st) (notified st ++ [n]) (tracked st).
Definition update_tracked (f : SessionTracker → SessionTracker) (st : Tail) : Tail :=
  mkTail (seen_event_ids st) (notified st) (f (tracked st)).

(** One event; [true] when the task ends. *)
Definition tail_event (uuid : string) (e : IncomingClientEvent V) (st : Tail) : Tail * bool :=
  match e with
  | ClSessionOutput event_id session_uuid content =>
      if skipped uuid session_uuid event_id st then (st, false) else
      let st := remember event_id st in
      match de content with
      | Ok output =>
          match format_output output with
          | Ok text => (update_tracked (push_output uuid text) (notify (output_notification uuid text) st), false)
          | Err _ => (st, false)
          end
      | Err _ => (st, false)
      end
  | ClSessionResult event_id session_uuid content =>
      if skipped uuid session_uuid event_id st then (st, false) else
      let st := remember event_id st in
      match de content with
      | Ok result =>
          (update_tracked (complete_session uuid)
             (notify (result_notification uuid (sr_exit_code result) (format_result result) (sr_tail result)) st), true)
      | Err _ => (st, true)
      end
  | _ => (st, false)
  end.

Fixpoint tail_events (uuid : string) (events : list (IncomingClientEvent V)) (st : Tail) : Tail * bool :=
  match events with
  | [] => (st, false)
  | e :: events =>
      let '(st, done) := tail_event uuid e st in
      if done then (st, true) else tail_events uuid events st
  end.

(** [false] while the task waits for more. *)
Fixpoint tail_session (uuid : string) (received : list Received) (st : Tail) : Tail * bool :=
  match received with
  | [] => (st, false)
  | RecvEvents events :: received =>
      let '(st, done) := tail_events uuid events st in
      if done then (st, true) else tail_session uuid received st
  | RecvLagged _ :: received => tail_session uuid received st
  | RecvClosed :: _ => (st, true)
  end.
End tail.
Arguments Tail V : clear implicits.
Arguments Received V : clear implicits.

(** ** The handler *)
(** The rest of the outside: the connection to Matrix, once there is one
    (the room of the worker), the clocks, sleeping, and fresh uuids. *)
Class DaemonOutside (W : Type) := {
  connection : W → option string;
  wall_ms : W → Z;
  instant_ms : W → Z;
  sleep : Duration → W → W;
  new_uuid : W → string * W;
  telemetry_clock : W → nat → Z;
}.

(** [K]: the sinks. *)
Record Handler (K W : Type) := mkHandler {
  h_sessions : SessionTracker; h_subscriptions : SubscriptionRegistry K; h_started_at : Z;
  h_profile_name : string; h_last_activity_ms : Z; h_tails : list (string * K); h_outside : W }.
Arguments mkHandler {K W}.
Arguments h_sessions {K W} h.
Arguments h_subscriptions {K W} h.
Arguments h_started_at {K W} h.
Arguments h_profile_name {K W} h.
Arguments h_last_activity_ms {K W} h.
Arguments h_tails {K W} h.
Arguments h_outside {K W} h.

Section handler.
Context {K W V : Type} `{MatrixSdk W V} `{JsonValue V} `{JsonU64 V} `{JsonBuild V} `{JsonContainers V}
  `{JsonNumbers V} `{HttpServer W V} `{RestExternals} `{MultiOps W V} `{DaemonDeserialize V} `{DaemonOutside W}.
(** The orders of maps. *)
Variable session_keys : gmap string TrackedSession → list string.
Variable telemetry_list : gmap string V → list (string * V).
Variable env_entries : gmap string string → list (string * string).

Local Notation M := (Io (Handler K W) (Reply V)).

Definition set_sessions (f : SessionTracker → SessionTracker) (h : Handler K W) : Handler K W :=
  mkHandler (f (h_sessions h)) (h_subscriptions h) (h_started_at h) (h_profile_name h) (h_last_activity_ms h)
    (h_tails h) (h_outside h).
Definition set_subscriptions (r : SubscriptionRegistry K) (h : Handler K W) : Handler K W :=
  mkHandler (h_sessions h) r (h_started_at h) (h_profile_name h) (h_last_activity_ms h) (h_tails h) (h_outside h).
Definition set_outside (w : W) (h : Handler K W) : Handler K W :=
  mkHandler (h_sessions h) (h_subscriptions h) (h_started_at h) (h_profile_name h) (h_last_activity_ms h)
    (h_tails h) w.
Definition spawn_tail (uuid : string) (sink : K) (h : Handler K W) : Handler K W :=
  mkHandler (h_sessions h) (h_subscriptions h) (h_started_at h) (h_profile_name h) (h_last_activity_ms h)
    (h_tails h ++ [(uuid, sink)]) (h_outside h).
Definition modify (f : Handler K W → Handler K W) : M () := λ h, (Returns (), f h).
Definition reading {A} (f : W → A) : M A := observe (λ h, f (h_outside h)).

(** An operation of the outside whose failure is a value. *)
Definition world {A E} (m : Io W E A) : M (result A E) := λ h,
  match m (h_outside h) with
  | (Returns x, w) => (Returns (Ok x), set_outside w h)
  | (Raises e, w) => (Returns (Err e), set_outside w h)
  | (Panics, w) => (Panics, set_outside w h)
  end.

(** [return serde_json::to_string(&ErrorResponse::new(..))]. *)
Definition fail {A} (id : RequestId) (code : Z) (message : string) : M A := raise (RpcError id code message).

Definition handler_new (profile_name : string) (w : W) : Handler K W :=
  mkHandler ∅ registry_new (instant_ms w) profile_name (wall_ms w) [] w.

Definition touch (h : Handler K W) : Handler K W :=
  mkHandler (h_sessions h) (h_subscriptions h) (h_started_at h) (h_profile_name h) (wall_ms (h_outside h))
    (h_tails h) (h_outside h).
Definition idle_seconds (h : Handler K W) : Z :=
  (saturating_sub (wall_ms (h_outside h)) (h_last_activity_ms h) / 1000)%Z.

(** [wait_for_matrix]: [None] when the fuel is used up. *)
Fixpoint wait_until (fuel : nat) (deadline : Z) (w : W) : option bool * W :=
  match fuel with
  | 0 => (None, w)
  | S fuel =>
      if decide (is_Some (connection w)) then (Some true, w)
      else if decide (deadline ≤ instant_ms w)%Z then (Some false, w)
      else wait_until fuel deadline (sleep (from_millis 200) w)
  end.
(** Enough turns of 200 ms. *)
Definition wait_fuel (timeout_ms : Z) : nat := S (S (Z.to_nat (timeout_ms / 200))).
Definition wait_for_matrix (timeout_ms : Z) (w : W) : option bool * W :=
  wait_until (wait_fuel timeout_ms) (instant_ms w + timeout_ms) w.

Definition waiting (timeout_ms : Z) : M (option bool) := λ h,
  let '(r, w) := wait_for_matrix timeout_ms (h_outside h) in (Returns r, set_outside w h).

(** The room, after a wait if the connection is still being made. *)
Definition need_matrix (id : RequestId) (timeout_ms : Z) (unavailable : string) : M string :=
  c ← reading connection;
  (if decide (is_Some c) then mret () else
   waited ← waiting timeout_ms;
   match waited with
   | Some true => mret ()
   | Some false => fail id MATRIX_UNAVAILABLE unavailable
   | None => panic
   end) ;;
  c ← reading connection;
  match c with
  | Some room => mret room
  | None => fail id MATRIX_UNAVAILABLE "Matrix connection lost"
  end.

Definition handle_daemon_status (id : RequestId) : M (Reply V) :=
  h ← observe (λ h, h);
  mret (RpcResponse id (json_object
    [("uptime_seconds", json_number ((instant_ms (h_outside h) - h_started_at h) / 1000));
     ("profile", json_string (h_profile_name h)); ("connected_clients", json_number 0);
     ("active_sessions", json_number (wrap 32 (Z.of_nat (active_count (h_sessions h)))));
     ("transports", json_array []);
     ("matrix_status", json_string (if decide (is_Some (connection (h_outside h))) then "connected" else "disconnected"));
     ("accounts", json_array [])])).

Definition handle_daemon_shutdown (id : RequestId) : M (Reply V) :=
  mret (RpcResponse id (json_object [("status", json_string "shutting_down")])).
Definition handle_session_run (id : RequestId) (params : option V) (sink : K) : M (Reply V) :=
  params ← of_result (parse_params (T := SessionRunParams) id params);
  room ← need_matrix id 30000 "Matrix connection not available after 30s";
  now ← reading telemetry_clock;
  telemetry ← world (read_state_events (E := string) now telemetry_list room WORKER_TELEMETRY);
  let telemetry_events := match telemetry with Ok l => l | Err _ => [] end in
  if forallb (λ e, null_or_empty e.2) telemetry_events
  then fail id INTERNAL_ERROR "No worker telemetry found — has the worker started?" else
  now ← reading telemetry_clock;
  match summarize_worker_liveness now telemetry_events with
  | None => panic
  | Some summary =>
      if decide (online summary = 0)%Z then
        let detail :=
          match stale_details summary with
          | Some stale_dur => cat ["last seen "; show (stale_dur / 1000000000)%Z; "s ago"]
          | None => if decide (0 < offline summary)%Z then "worker is offline" else "no live worker"
          end in
        fail id INTERNAL_ERROR (cat ["No live worker available: "; detail])
      else
      let worker_room_name := default "default" (run_worker_room params) in
      sender_id ← reading multi_user_id;
      task_uuid ← (λ h, let '(u, w) := new_uuid (h_outside h) in (Returns u, set_outside w h));
      let task := build_task task_uuid (run_bin params) (run_args params) (run_interactive params)
                    (run_no_room_output params) (run_timeout_seconds params)
                    (default 30%Z (run_heartbeat_interval params)) sender_id (run_cwd params) in
      posted ← world (post_event_mut room SESSION_TASK (task_value env_entries task));
      match posted with
      | Err e => fail id INTERNAL_ERROR (cat ["failed to submit task: "; e])
      | Ok _ =>
          modify (set_sessions (track task_uuid worker_room_name)) ;;
          (if run_detach params then mret () else modify (spawn_tail task_uuid sink)) ;;
          mret (RpcResponse id (json_object [("uuid", json_string task_uuid); ("status", json_string "submitted")]))
      end
  end.

(** What [session.cancel] and [session.signal] send. *)
Definition cancel_event (params : SessionCancelParams) : string * string * V :=
  match cancel_signal params with
  | Some sig => ("failed to send signal: ", SESSION_SIGNAL, signal_value (build_signal (cancel_uuid params) sig))
  | None => ("failed to send cancel: ", SESSION_CANCEL, cancel_value (build_cancel (cancel_uuid params) None None))
  end.

Definition handle_session_cancel (id : RequestId) (params : option V) : M (Reply V) :=
  params ← of_result (parse_params (T := SessionCancelParams) id params);
  room ← need_matrix id 10000 "Matrix connection not available";
  let '(failed, event_type, content) := cancel_event params in
  posted ← world (post_event_mut room event_type content);
  match posted with
  | Err e => fail id INTERNAL_ERROR (cat [failed; e])
  | Ok _ =>
      modify (set_sessions (complete_session (cancel_uuid params))) ;;
      mret (RpcResponse id (json_object [("status", json_string "cancelled");
                                         ("uuid", json_string (cancel_uuid params))]))
  end.

Definition handle_session_ls (id : RequestId) : M (Reply V) :=
  uuids ← observe (λ h, session_uuids session_keys (h_sessions h));
  mret (RpcResponse id (json_object [("sessions", json_strings uuids)])).

Definition handle_session_logs (id : RequestId) (params : option V) : M (Reply V) :=
  params ← of_result (parse_params (T := SessionLogsParams) id params);
  output ← observe (λ h, buffered_output (logs_uuid params) (h_sessions h));
  if bool_decide (output = []) then
    fail id SESSION_NOT_FOUND (cat ["session "; logs_uuid params; " not found or has no output"])
  else mret (RpcResponse id (json_object [("output", json_strings output)])).

Definition handle_session_attach (id : RequestId) (params : option V) : M (Reply V) :=
  of_result (parse_params (T := SessionAttachParams) id params) ;;
  fail id MATRIX_UNAVAILABLE "Interactive attach not yet available in daemon mode".

Definition handle_events_subscribe (id : RequestId) (params : option V) (sink : K) : M (Reply V) :=
  params ← of_result (parse_params (T := EventsSubscribeParams) id params);
  subs ← observe h_subscriptions;
  let '(sub_id, subs) := subscribe (subscribe_events params) (subscribe_filter params) sink subs in
  modify (set_subscriptions subs) ;;
  mret (RpcResponse id (json_object [("subscription_id", json_string sub_id)])).

Definition handle_events_unsubscribe (id : RequestId) (params : option V) : M (Reply V) :=
  params ← of_result (parse_params (T := EventsUnsubscribeParams) id params);
  subs ← observe h_subscriptions;
  let '(removed, subs) := unsubscribe (unsubscribe_id params) subs in
  modify (set_subscriptions subs) ;;
  mret (RpcResponse id (json_object [("removed", json_bool removed)])).

Definition handle_add_transport (id : RequestId) (params : option V) : M (Reply V) :=
  of_result (parse_params (T := AddTransportParams) id params) ;;
  fail id INTERNAL_ERROR "Dynamic transport addition not yet implemented".
Definition handle_remove_transport (id : RequestId) (params : option V) : M (Reply V) :=
  of_result (parse_params (T := RemoveTransportParams) id params) ;;
  fail id INTERNAL_ERROR "Dynamic transport removal not yet implemented".
Definition handle_worker_list (id : RequestId) : M (Reply V) :=
  mret (RpcResponse id (json_object [("workers", json_array [])])).

Definition dispatch_request (request : RpcRequest V) (sink : K) : M (Reply V) :=
  let named m := str_eqb (req_method request) m in
  let id := req_id request in
  let params := req_params request in
  if named "daemon.status" then handle_daemon_status id
  else if named "daemon.shutdown" then handle_daemon_shutdown id
  else if named "session.run" then handle_session_run id params sink
  else if named "session.cancel" || named "session.signal" then handle_session_cancel id params
  else if named "session.ls" then handle_session_ls id
  else if named "session.logs" then handle_session_logs id params
  else if named "session.attach" then handle_session_attach id params
  else if named "events.subscribe" then handle_events_subscribe id params sink
  else if named "events.unsubscribe" then handle_events_unsubscribe id params
  else if named "daemon.addTransport" then handle_add_transport id params
  else if named "daemon.removeTransport" then handle_remove_transport id params
  else if named "worker.list" then handle_worker_list id
  else fail id METHOD_NOT_FOUND (cat ["unknown method: "; req_method request]).

(** The reply, returned early or not; [None] when the task panicked. *)
Definition handle_request (request : RpcRequest V) (sink : K) (h : Handler K W) : option (Reply V) * Handler K W :=
  match dispatch_request request sink (touch h) with
  | (Returns r, h) | (Raises r, h) => (Some r, h)
  | (Panics, h) => (None, h)
  end.

(** One line of a client's stream, and what is written back. *)
Definition handle_line (sink : K) (line : string) (h : Handler K W) : option (list (Reply V)) * Handler K W :=
  let trimmed := from_bytes (trim (as_bytes line)) in
  if str_eqb trimmed "" then (Some [], h) else
  match parse_message (V := V) trimmed with
  | Ok (MsgRequest req) =>
      let '(reply, h) := handle_request req sink h in ((λ r, [r]) <$> reply, h)
  | Ok (MsgNotification _) => (Some [], h)
  | Err e => (Some [RpcError (IdNumber 0) PARSE_ERROR (cat ["invalid JSON: "; e])], h)
  end.

(** The lines until the stream ends; [false] when the task panicked. *)
Fixpoint handle_client (sink : K) (lines : list string) (h : Handler K W) : list (Reply V) * bool * Handler K W :=
  match lines with
  | [] => ([], true, h)
  | line :: lines =>
      match handle_line sink line h with
      | (None, h) => ([], false, h)
      | (Some written, h) =>
          let '(replies, ended, h) := handle_client sink lines h in (written ++ replies, ended, h)
      end
  end.

(** One turn of [sync_loop]: what is broadcast, and whether it goes on. *)
Definition sync_turn (h : Handler K W) : option (list (IncomingClientEvent V)) * bool * Handler K W :=
  match connection (h_outside h) with
  | None => (None, false, h)
  | Some room =>
      match sync_events_mut room (h_outside h) with
      | (Returns [], w) => (None, true, set_outside w h)
      | (Returns events, w) => (Some events, true, set_outside w h)
      | (Raises _, w) => (None, true, set_outside (sleep (from_millis 500) w) h)
      | (Panics, w) => (None, false, set_outside w h)
      end
  end.

(** The turns of the main loop of [run_daemon]: the answer is to stop. *)
Inductive DaemonTick : Type := CtrlC | TenSeconds.
Definition daemon_tick (idle_timeout_secs : Z) (tick : DaemonTick) (h : Handler K W) : bool :=
  match tick with
  | CtrlC => true
  | TenSeconds =>
      bool_decide (0 < idle_timeout_secs)%Z && bool_decide (active_count (h_sessions h) = 0)
      && bool_decide (idle_timeout_secs < idle_seconds h)%Z
  end.
End handler.

(** ** Connecting ([run_daemon]) *)
Section backup.
Context {W C : Type} `{MatrixAuth W C}.

Definition daemon_backup (client : C) : Io W string BackupState :=
  resumed ← backups_are_enabled client;
  setup ← attempt (ensure_backup client (negb resumed));
  let backup_state := match setup with Ok state => state | Err e => mkBackup false None 0 true (Some e) end in
  (if enabled backup_state then attempt (download_all_keys client) ;; mret () else mret ()) ;;
  mret backup_state.
End backup.

(** ** Lemmas *)
Section tail_lemmas.
Context {V : Type} `{JsonValue V} `{JsonU64 V} `{JsonBuild V} `{JsonContainers V} `{JsonNumbers V}
  `{DaemonDeserialize V} `{Base64}.

(** *** A reference for [tail_session] *)
(** The events that concern the session, each with its id; the later copies
    of one id go; what follows the first result goes. *)
Definition concerns (uuid : string) (e : IncomingClientEvent V) : bool :=
  match e with
  | ClSessionOutput _ u _ | ClSessionResult _ u _ => str_eqb u uuid
  | _ => false
  end.
Definition client_event_id (e : IncomingClientEvent V) : string :=
  match e with
  | ClSessionStart i _ _ | ClSessionOutput i _ _ | ClSessionHeartbeat i _ _ | ClSessionResult i _ _ => i
  end.
Definition is_result (e : IncomingClientEvent V) : bool :=
  match e with ClSessionResult _ _ _ => true | _ => false end.

Fixpoint first_copies (l : list (IncomingClientEvent V)) : list (IncomingClientEvent V) :=
  match l with
  | [] => []
  | e :: l => e :: filter (λ e', client_event_id e' = "" ∨ client_event_id e' ≠ client_event_id e) (first_copies l)
  end.
Fixpoint upto_result (l : list (IncomingClientEvent V)) : list (IncomingClientEvent V) :=
  match l with
  | [] => []
  | e :: l => if is_result e then [e] else e :: upto_result l
  end.

(** The text of an output, the notification of an event. *)
Definition output_text (e : IncomingClientEvent V) : option string :=
  match e with
  | ClSessionOutput _ _ content =>
      match de (T := SessionOutput) content with
      | Ok output => match format_output output with Ok text => Some text | Err _ => None end
      | Err _ => None
      end
  | _ => None
  end.
Definition final_result (e : IncomingClientEvent V) : option SessionResult :=
  match e with
  | ClSessionResult _ _ content => match de content with Ok r => Some r | Err _ => None end
  | _ => None
  end.
Definition notification_of (uuid : string) (e : IncomingClientEvent V) : option V :=
  match output_text e, final_result e with
  | Some text, _ => Some (output_notification uuid text)
  | None, Some r => Some (result_notification uuid (sr_exit_code r) (format_result r) (sr_tail r))
  | None, None => None
  end.
Definition tracker_step (uuid : string) (t : SessionTracker) (e : IncomingClientEvent V) : SessionTracker :=
  match output_text e, final_result e with
  | Some text, _ => push_output uuid text t
  | None, Some _ => complete_session uuid t
  | None, None => t
  end.

(** The events that were received, up to the end of the channel. *)
Fixpoint received_events (received : list (Received V)) : list (IncomingClientEvent V) :=
  match received with
  | [] | RecvClosed :: _ => []
  | RecvEvents events :: received => events ++ received_events received
  | RecvLagged _ :: received => received_events received
  end.

Definition unseen (seen : gset string) (e : IncomingClientEvent V) : Prop :=
  client_event_id e = "" ∨ client_event_id e ∉ seen.
#[local] Instance unseen_dec seen e : Decision (unseen seen e).
Proof. unfold unseen. apply _. Defined.

Definition handled (uuid : string) (seen : gset string) (l : list (IncomingClientEvent V)) : list (IncomingClientEvent V) :=
  upto_result (filter (unseen seen) (first_copies (filter (λ e, concerns uuid e = true) l))).

Lemma handled_skip uuid seen e l :
  concerns uuid e = false ∨ ¬ unseen seen e → handled uuid seen (e :: l) = handled uuid seen l.
Proof.
  unfold handled. intros He. rewrite filter_cons. case_decide as Hc; [|done].
  destruct He as [?|He]; [congruence|]. simpl. rewrite filter_cons_False by done. f_equal.
  rewrite list_filter_filter. apply list_filter_iff. intros x. unfold unseen in *. split; [tauto|].
  intros Hx. split; [done|]. destruct Hx as [?|Hx]; [by left|right]. intros E. rewrite E in Hx. tauto.
Qed.

Definition with_id (i : string) (seen : gset string) : gset string := if str_eqb i "" then seen else {[i]} ∪ seen.

Lemma handled_take uuid seen e l :
  concerns uuid e = true → unseen seen e →
  handled uuid seen (e :: l) = if is_result e then [e] else e :: handled uuid (with_id (client_event_id e) seen) l.
Proof.
  unfold handled. intros Hc Hu. rewrite filter_cons_True by done. simpl. rewrite filter_cons_True by done.
  simpl. destruct (is_result e); [done|]. do 2 f_equal. rewrite list_filter_filter. apply list_filter_iff.
  intros x. unfold unseen, with_id. destruct (str_eqb _ "") eqn:E.
  - apply str_eqb_true in E. rewrite E. destruct (decide (client_event_id x = "")); tauto.
  - rewrite not_elem_of_union, not_elem_of_singleton. tauto.
Qed.

Lemma tail_events_spec uuid l st :
  let '(st', done) := tail_events uuid l st in
  let l' := handled uuid (seen_event_ids st) l in
  notified st' = notified st ++ omap (notification_of uuid) l' ∧
  tracked st' = foldl (tracker_step uuid) (tracked st) l' ∧
  done = existsb is_result l'.
Proof.
  revert st. induction l as [|e l IH]; intros st; simpl.
  { by rewrite app_nil_r. }
  destruct (concerns uuid e && bool_decide (unseen (seen_event_ids st) e)) eqn:Ec.
  - apply andb_true_iff in Ec as [Hc Hu%bool_decide_eq_true]. rewrite handled_take by done.
    assert (Hskip : ∀ u, str_eqb u uuid = true → skipped uuid u (client_event_id e) st = false).
    { intros u Hu'. unfold skipped. rewrite Hu'. simpl. destruct Hu as [->|Hu]; [done|].
      rewrite (bool_decide_eq_false_2 _ Hu). by rewrite andb_false_r. }
    assert (Hseen : seen_event_ids (remember (client_event_id e) st) = with_id (client_event_id e) (seen_event_ids st) ∧
      notified (remember (client_event_id e) st) = notified st ∧ tracked (remember (client_event_id e) st) = tracked st).
    { unfold remember, with_id. by destruct (str_eqb _ ""). }
    destruct Hseen as (Hs & Hn & Ht).
    destruct e as [| i u c| |i u c]; try done; simpl in Hc; simpl in Hskip, Hs, Hn, Ht |- *;
      rewrite (Hskip u Hc); cbn [notification_of tracker_step output_text final_result].
    + unfold notification_of, tracker_step; simpl.
      destruct (de c) as [o|]; [destruct (format_output o) as [text|]|];
        match goal with |- context [tail_events uuid l ?s] =>
          specialize (IH s); destruct (tail_events uuid l s) as [st' done] end.
      all: destruct IH as (-> & -> & ->); simpl; rewrite Hs, Hn, Ht, <-?app_assoc; done.
    + unfold notification_of, tracker_step; simpl. destruct (de c) as [r|]; simpl; rewrite ?Hn, ?Ht, ?app_nil_r; done.
  - rewrite handled_skip.
    2: { apply andb_false_iff in Ec as [?|?%bool_decide_eq_false]; auto. }
    assert (Hsk : tail_event uuid e st = (st, false)).
    { destruct e as [| i u c| |i u c]; try done; simpl in *; unfold skipped.
      all: destruct (str_eqb u uuid); [|done]; simpl in *; apply bool_decide_eq_false in Ec; unfold unseen in Ec;
        simpl in Ec; destruct (str_eqb i "") eqn:E;
        [apply str_eqb_true in E; tauto|simpl; rewrite bool_decide_eq_true_2; [done|]].
      all: destruct (decide (i ∈ seen_event_ids st)); [done|tauto]. }
    rewrite Hsk. apply IH.
Qed.

Lemma tail_events_app uuid l k st :
  tail_events uuid (l ++ k) st =
  let '(st', done) := tail_events uuid l st in if done then (st', true) else tail_events uuid k st'.
Proof.
  revert st. induction l as [|e l IH]; intros st; simpl; [done|].
  destruct (tail_event uuid e st) as [st1 []]; [done|apply IH].
Qed.

Definition is_closed (r : Received V) : bool := match r with RecvClosed => true | _ => false end.

(** How the events are batched, and that some were skipped, makes no
    difference to what becomes of those that are received. *)
Lemma tail_session_events uuid received st :
  tail_session uuid received st =
  let '(st', done) := tail_events uuid (received_events received) st in (st', done || existsb is_closed received).
Proof.
  revert st. induction received as [|[events|n|] received IH]; intros st; simpl; [done| |by rewrite IH|done].
  rewrite tail_events_app. destruct (tail_events uuid events st) as [st1 []]; [done|apply IH].
Qed.
End tail_lemmas.

(** ** Properties of a session that is followed *)
Section tail_theorems.
Context {V : Type} `{JsonValue V} `{JsonU64 V} `{JsonBuild V} `{JsonContainers V} `{JsonNumbers V}
  `{DaemonDeserialize V} `{Base64}.

(** The events of a session that its follower acts on: those that concern
    it, without repeated ids, up to the first result. *)
Definition session_events (uuid : string) (received : list (Received V)) : list (IncomingClientEvent V) :=
  upto_result (first_copies (filter (λ e, concerns uuid e = true) (received_events received))).

Lemma handled_session uuid received : handled uuid ∅ (received_events received) = session_events uuid received.
Proof.
  unfold handled, session_events. f_equal. apply list_filter_all. apply Forall_true. intros e. right. set_solver.
Qed.
Lemma tail_session_notified uuid received t :
  notified (tail_session uuid received (mkTail ∅ [] t)).1 = omap (notification_of uuid) (session_events uuid received).
Proof using All.
  rewrite tail_session_events. pose proof (tail_events_spec uuid (received_events received) (mkTail ∅ [] t)) as Hs.
  destruct (tail_events _ _ _) as [st done]. destruct Hs as (Hn & _). simpl. by rewrite Hn, handled_session.
Qed.

(** C26: what a client sees of the session that it runs. However the sync loop
    batches the events and whatever else it skips or carries in between, the
    follower of a session notifies its client of exactly the outputs of that
    session that can be decoded, each event once and in order, and of the
    first result; the tracker gets the same texts and is told of the end with
    the result. The follower ends with the first result or with the channel,
    and only then. *)
Theorem follower_forwards uuid received t :
  let '(st, done) := tail_session uuid received (mkTail ∅ [] t) in
  notified st = omap (notification_of uuid) (session_events uuid received) ∧
  tracked st = foldl (tracker_step uuid) t (session_events uuid received) ∧
  done = existsb is_result (session_events uuid received) || existsb is_closed received.
Proof using All.
  rewrite tail_session_events. pose proof (tail_events_spec uuid (received_events received) (mkTail ∅ [] t)) as Hs.
  destruct (tail_events _ _ _) as [st done]. destruct Hs as (-> & -> & ->). simpl. by rewrite handled_session.
Qed.
End tail_theorems.

(** ** Properties of the handler *)
Section handler_theorems.
Context {K W V : Type} `{MatrixSdk W V} `{JsonValue V} `{JsonU64 V} `{JsonBuild V} `{JsonContainers V}
  `{JsonNumbers V} `{HttpServer W V} `{RestExternals} `{MultiOps W V} `{DaemonDeserialize V} `{DaemonOutside W}.
Variable session_keys : gmap string TrackedSession → list string.
Variable telemetry_list : gmap string V → list (string * V).
Variable env_entries : gmap string string → list (string * string).
Local Notation M := (Io (Handler K W) (Reply V)).

(** *** Whom a reply is for *)
(** A reply that is raised is for [rid]; a value that is returned is in [Q]. *)
Definition answers {A} (rid : RequestId) (Q : A → Prop) (m : M A) : Prop :=
  ∀ h, match (m h).1 with Returns x => Q x | Raises r => reply_id r = rid | Panics => True end.

Lemma answers_ret {A} rid Q (x : A) : Q x → answers rid Q (mret x).
Proof. by intros Hx h. Qed.
Lemma answers_fail {A} rid Q code message : answers (A := A) rid Q (fail rid code message).
Proof. by intros h. Qed.
Lemma answers_panic {A} rid Q : answers (A := A) rid Q panic.
Proof. by intros h. Qed.
Lemma answers_bind {A B} rid Q (m : M A) (k : A → M B) :
  answers rid (λ _, True) m → (∀ x, answers rid Q (k x)) → answers rid Q (x ← m; k x).
Proof.
  intros Hm Hk h. unfold mbind, Io_bind. specialize (Hm h). destruct (m h) as [[x|r|] h']; [apply Hk|done..].
Qed.
Lemma answers_silent {A} rid (m : M A) : (∀ h, ¬ ∃ r h', m h = (Raises r, h')) → answers rid (λ _, True) m.
Proof. intros Hm h. specialize (Hm h). destruct (m h) as [[x|r|] h']; naive_solver. Qed.
Lemma answers_world {A E} rid (m : Io W E A) : answers rid (λ _, True) (world m).
Proof. apply answers_silent. intros h (r & h' & E'). unfold world in E'. by destruct (m _) as [[]]. Qed.
Lemma answers_observe {A} rid (f : Handler K W → A) : answers rid (λ _, True) (observe f).
Proof. by intros h. Qed.
Lemma answers_modify rid (f : Handler K W → Handler K W) : answers rid (λ _, True) (modify f).
Proof. by intros h. Qed.
Lemma answers_params {T} `{Deserialize V T} rid (params : option V) :
  answers rid (λ _, True) (of_result (parse_params (T := T) rid params)).
Proof. intros h. unfold parse_params. destruct params; by destruct (de _). Qed.
Lemma answers_waiting rid timeout : answers rid (λ _, True) (waiting timeout).
Proof. intros h. unfold waiting. by destruct (wait_for_matrix _ _). Qed.
Lemma answers_need_matrix rid timeout msg : answers rid (λ _, True) (need_matrix rid timeout msg).
Proof.
  unfold need_matrix, reading. apply answers_bind; [apply answers_observe|]. intros c. apply answers_bind.
  - case_decide; [by apply answers_ret|]. apply answers_bind; [apply answers_waiting|].
    intros [[]|]; [by apply answers_ret|apply answers_fail|apply answers_panic].
  - intros _. apply answers_bind; [apply answers_observe|]. intros [|]; [by apply answers_ret|apply answers_fail].
Qed.

Lemma answers_modify_ret rid (f : Handler K W → Handler K W) (r : Reply V) :
  reply_id r = rid → answers rid (λ r, reply_id r = rid) (modify f ;; mret r).
Proof. by intros Hr h. Qed.

Lemma answers_run rid params sink :
  answers rid (λ r, reply_id r = rid) (handle_session_run telemetry_list env_entries rid params sink).
Proof using All.
  unfold handle_session_run. apply answers_bind; [apply answers_params|]. intros p.
  apply answers_bind; [apply answers_need_matrix|]. intros room. apply answers_bind; [apply answers_observe|].
  intros now. apply answers_bind; [apply answers_world|]. intros telemetry.
  destruct (forallb _ _); [apply answers_fail|]. apply answers_bind; [apply answers_observe|]. intros now'.
  destruct (summarize_worker_liveness _ _) as [summary|]; [|apply answers_panic].
  case_decide; [apply answers_fail|]. apply answers_bind; [apply answers_observe|]. intros sender.
  apply answers_bind. { intros h. by destruct (new_uuid _). }
  intros u. apply answers_bind; [apply answers_world|]. intros [eid|e]; [|apply answers_fail].
  apply answers_bind; [apply answers_modify|]. intros _. apply answers_bind; [|intros _; by apply answers_ret].
  destruct (run_detach p); [by apply answers_ret|apply answers_modify].
Qed.

Lemma answers_cancel rid params : answers rid (λ r, reply_id r = rid) (handle_session_cancel (K := K) rid params).
Proof using All.
  unfold handle_session_cancel. apply answers_bind; [apply answers_params|]. intros p.
  apply answers_bind; [apply answers_need_matrix|]. intros room. destruct (cancel_event p) as [[failed ty] content].
  apply answers_bind; [apply answers_world|]. intros [eid|e]; [by apply answers_modify_ret|apply answers_fail].
Qed.

Lemma answers_dispatch request sink :
  answers (req_id request) (λ r, reply_id r = req_id request)
    (dispatch_request session_keys telemetry_list env_entries request sink).
Proof using All.
  unfold dispatch_request. set (rid := req_id request).
  repeat case_match; try apply answers_run; try apply answers_cancel; try apply answers_fail;
    try (by apply answers_ret); try (apply answers_bind; [apply answers_observe|by intros ?; apply answers_ret]);
    (apply answers_bind; [apply answers_params|intros p]); try apply answers_fail.
  - apply answers_bind; [apply answers_observe|]. intros output. case_match; [apply answers_fail|by apply answers_ret].
  - apply answers_bind; [apply answers_observe|]. intros subs. case_match. by apply answers_modify_ret.
  - apply answers_bind; [apply answers_observe|]. intros subs. case_match. by apply answers_modify_ret.
Qed.

Lemma handle_request_id request (sink : K) (h : Handler K W) r h' :
  handle_request session_keys telemetry_list env_entries request sink h = (Some r, h') →
  reply_id r = req_id request.
Proof using All.
  intros Hr. pose proof (answers_dispatch request sink (touch h)) as Ha. unfold handle_request in Hr.
  destruct (dispatch_request _ _ _ _ _ _) as [[x|x|] h1]; naive_solver.
Qed.

(** The reply that a line calls for: to a request, to nothing, to what is not
    JSON-RPC. *)
Definition line_reply (line : string) : option RequestId :=
  let trimmed := from_bytes (trim (as_bytes line)) in
  if str_eqb trimmed "" then None else
  match parse_message (V := V) trimmed with
  | Ok (MsgRequest r) => Some (req_id r)
  | Ok (MsgNotification _) => None
  | Err _ => Some (IdNumber 0)
  end.

Lemma handle_line_ids (sink : K) line (h : Handler K W) written h' :
  handle_line session_keys telemetry_list env_entries sink line h = (Some written, h') →
  reply_id <$> written = match line_reply line with Some i => [i] | None => [] end.
Proof using All.
  unfold handle_line, line_reply. destruct (str_eqb _ ""); [by intros [= <- _]|].
  destruct (parse_message _) as [[req|n]|e]; [|by intros [= <- _]..].
  destruct (handle_request _ _ _ req sink h) as [[r|] h1] eqn:Er; [|done]. intros [= <- <-].
  apply handle_request_id in Er. simpl. by rewrite Er.
Qed.
End handler_theorems.

Section client_theorem.
Context {K W V : Type} `{MatrixSdk W V} `{JsonValue V} `{JsonU64 V} `{JsonBuild V} `{JsonContainers V}
  `{JsonNumbers V} `{HttpServer W V} `{RestExternals} `{MultiOps W V} `{DaemonDeserialize V} `{DaemonOutside W}.
Variable session_keys : gmap string TrackedSession → list string.
Variable telemetry_list : gmap string V → list (string * V).
Variable env_entries : gmap string string → list (string * string).

(** A client's requests are answered in order, each exactly once. Of the
    lines that a client sends, every request is answered by one reply that
    carries its id, in the order of the requests; what is not a JSON-RPC
    message is answered once, under the id 0; blank lines and notifications
    are not answered. Only a panic cuts the replies short. *)
Theorem replies_match_requests (sink : K) (lines : list string) (h : Handler K W) :
  let '(replies, ended, _) := handle_client session_keys telemetry_list env_entries sink lines h in
  if ended then reply_id <$> replies = omap (line_reply (V := V)) lines
  else reply_id <$> replies `prefix_of` omap (line_reply (V := V)) lines.
Proof using All.
  revert h. induction lines as [|line lines IH]; intros h; [done|]. simpl handle_client.
  destruct (handle_line _ _ _ sink line h) as [[written|] h1] eqn:El.
  2: { apply prefix_nil. }
  apply handle_line_ids in El. specialize (IH h1).
  destruct (handle_client _ _ _ sink lines h1) as [[replies ended] h2].
  assert (Hcons : omap (line_reply (V := V)) (line :: lines) = (reply_id <$> written) ++ omap (line_reply (V := V)) lines).
  { rewrite El. change (omap ?f (line :: lines)) with (match f line with Some y => y :: omap f lines | None => omap f lines end).
    cbn beta. by destruct (line_reply line). }
  rewrite Hcons, fmap_app. destruct ended; [by rewrite IH|by apply prefix_app].
Qed.
End client_theorem.

(** What the outside is to keep a record of for the theorem about what a
    request sends: [sent], the events that were sent to rooms. Documented
    behaviour: reading, sleeping and drawing a uuid send nothing; a send that
    succeeds sends its event, once; one that fails may have sent it. *)
Class SendsLogged {W V : Type} `{MatrixSdk W V} `{HttpServer W V} `{MultiOps W V} `{DaemonOutside W}
    (sent : W → list (string * V)) : Prop := {
  sent_get_safe :: HttpLaws W V;
  state_quiet room ty : undisturbed sent (sdk_get_state_events room ty);
  decrypt_quiet room json : undisturbed sent (sdk_decrypt_event room json);
  sleep_quiet d w : sent (sleep d w) = sent w;
  uuid_quiet w : sent (new_uuid w).2 = sent w;
  send_logged room payload w :
    match multi_send_event room payload w with
    | (Returns _, w') => sent w' = sent w ++ [(room, payload)]
    | (_, w') => sent w' = sent w ∨ sent w' = sent w ++ [(room, payload)]
    end;
}.

(** ** What a request changes *)
Section run_theorem.
Context {K W V : Type} `{MatrixSdk W V} `{JsonValue V} `{JsonU64 V} `{JsonBuild V} `{JsonContainers V}
  `{JsonNumbers V} `{HttpServer W V} `{RestExternals} `{MultiOps W V} `{DaemonDeserialize V} `{DaemonOutside W}.
Context (sent : W → list (string * V)) `{!SendsLogged sent}.
Variable telemetry_list : gmap string V → list (string * V).
Variable env_entries : gmap string string → list (string * string).
Local Notation M := (Io (Handler K W) (Reply V)).

(** *** Changing nothing but the outside, and sending nothing *)
(** [h'] is [h] but for its outside, to which [l] was sent. *)
Definition moved (l : list (string * V)) (h h' : Handler K W) : Prop :=
  h' = set_outside (h_outside h') h ∧ sent (h_outside h') = sent (h_outside h) ++ l.
Definition only_outside {A} (m : M A) : Prop := ∀ h, moved [] h (m h).2.

Lemma set_outside_id (h : Handler K W) : set_outside (h_outside h) h = h.
Proof. by destruct h. Qed.
Lemma moved_refl h : moved [] h h.
Proof. split; [by rewrite set_outside_id|by rewrite app_nil_r]. Qed.
Lemma moved_trans l k h h1 h2 : moved l h h1 → moved k h1 h2 → moved (l ++ k) h h2.
Proof.
  intros [E1 S1] [E2 S2]. split; [|by rewrite S2, S1, app_assoc]. rewrite E2 at 1. by rewrite E1 at 1.
Qed.

Lemma only_outside_here {A} (m : M A) : (∀ h, (m h).2 = h) → only_outside m.
Proof. intros Hm h. rewrite Hm. apply moved_refl. Qed.
Lemma only_outside_bind {A B} (m : M A) (k : A → M B) :
  only_outside m → (∀ x, only_outside (k x)) → only_outside (x ← m; k x).
Proof.
  intros Hm Hk h. unfold mbind, Io_bind. specialize (Hm h). destruct (m h) as [[x|r|] h1]; [|done..].
  eapply (moved_trans [] []); [exact Hm|apply Hk].
Qed.
Lemma only_outside_world {A E} (m : Io W E A) : undisturbed sent m → only_outside (world m).
Proof.
  intros Hm h. specialize (Hm (h_outside h)). unfold moved, world. rewrite app_nil_r.
  by destruct (m _) as [[]]; simpl in *.
Qed.
Lemma only_outside_waiting timeout : only_outside (waiting timeout).
Proof using All.
  intros h. unfold waiting, wait_for_matrix, moved. rewrite app_nil_r.
  assert (Hw : ∀ fuel deadline w, sent (wait_until fuel deadline w).2 = sent w).
  { induction fuel as [|fuel IH]; intros deadline w; [done|]. simpl. do 2 (case_decide; [done|]).
    rewrite IH. apply sleep_quiet. }
  specialize (Hw (wait_fuel timeout) (instant_ms (h_outside h) + timeout)%Z (h_outside h)).
  by destruct (wait_until _ _ _).
Qed.
Lemma only_outside_need_matrix rid timeout msg : only_outside (need_matrix rid timeout msg).
Proof using All.
  unfold need_matrix, reading. apply only_outside_bind; [by apply only_outside_here|]. intros c.
  apply only_outside_bind.
  - case_decide; [by apply only_outside_here|]. apply only_outside_bind; [apply only_outside_waiting|].
    by intros [[]|]; apply only_outside_here.
  - intros _. apply only_outside_bind; [by apply only_outside_here|]. by intros [|]; apply only_outside_here.
Qed.

(** *** A post *)
Lemma world_post room ty content (h : Handler K W) :
  let '(o, h') := world (V := V) (post_event_mut room ty content) h in
  match o with
  | Returns (Ok _) => moved [(room, event_payload ty content)] h h'
  | Returns (Err _) | Panics => moved [] h h' ∨ moved [(room, event_payload ty content)] h h'
  | Raises _ => False
  end.
Proof using All.
  unfold world, post_event_mut, moved. rewrite app_nil_r.
  pose proof (send_logged room (event_payload ty content) (h_outside h)) as Hs.
  destruct (multi_send_event _ _ _) as [[eid|e|] w]; simpl; naive_solver.
Qed.

(** *** A summary that counts a worker as live *)
Lemma summary_online now s events s' :
  summarize_from s now events = Some s' → (online s < online s')%Z →
  ∃ i key value caps, (key, value) ∈ events ∧ check_worker_liveness (now i) value = Some (Online caps).
Proof.
  revert now s. induction events as [|[key value] events IH]; intros now s; simpl; [intros [= ->]; lia|].
  destruct (check_worker_liveness (now 0) value) as [st|] eqn:Es; [|done]. simpl. intros Hs Hlt.
  assert (Hst : (∃ caps, st = Online caps) ∨ online (summary_add s st) = online s)
    by (destruct st; [left; by eexists|by right..]).
  destruct Hst as [[caps ->]|Hsame].
  { exists 0, key, value, caps. split; [apply list_elem_of_here|done]. }
  destruct (IH (now ∘ S) (summary_add s st) Hs) as (i & key' & value' & caps & Hin & Hc); [lia|].
  exists (S i), key', value', caps. split; [by apply list_elem_of_further|done].
Qed.

Lemma summary_counts now s events s' : summarize_from s now events = Some s' → (online s ≤ online s')%Z.
Proof.
  revert now s. induction events as [|[key value] events IH]; intros now s; simpl; [by intros [= ->]|].
  destruct (check_worker_liveness (now 0) value) as [st|]; [|done]. simpl. intros Hs%IH. destruct st; simpl in *; lia.
Qed.

(** *** [session.run] *)
(** The task that a request asks for. *)
Definition task_of (p : SessionRunParams) (uuid sender : string) : SessionTask :=
  build_task uuid (run_bin p) (run_args p) (run_interactive p) (run_no_room_output p) (run_timeout_seconds p)
    (default 30%Z (run_heartbeat_interval p)) sender (run_cwd p).

(** The run of a request that is answered with success, stage by stage: the
    connection gives the room; the telemetry read there, at the end of the
    wait, has the entry of a worker that is live by the clock when its reading
    is over; the id is drawn and the one task sent, which is tracked and
    followed. *)
Definition submitted (params : option V) (rid : RequestId) (sink : K) (h h' : Handler K W) (reply : Reply V) : Prop :=
  ∃ p room h1 l h2 i key telemetry uuid w3 event_id h4,
    parse_params rid params = Ok p ∧
    need_matrix (V := V) rid 30000 "Matrix connection not available after 30s" h = (Returns room, h1) ∧
    world (read_state_events (E := string) (telemetry_clock (h_outside h1)) telemetry_list room WORKER_TELEMETRY) h1 = (Returns (E := Reply V) (Ok l), h2) ∧
    (key, telemetry) ∈ l ∧ live (telemetry_clock (h_outside h2) i) (telemetry : V) ∧
    new_uuid (h_outside h2) = (uuid, w3) ∧
    world (post_event_mut room SESSION_TASK (task_value env_entries (task_of p uuid (multi_user_id (h_outside h2))))) (set_outside w3 h2)
    = (Returns (E := Reply V) (Ok event_id), h4) ∧
    moved [(room, event_payload SESSION_TASK (task_value env_entries (task_of p uuid (multi_user_id (h_outside h2)))))] h h4 ∧
    reply = RpcResponse rid (json_object [("uuid", json_string uuid); ("status", json_string "submitted")]) ∧
    h' = (let tracked := set_sessions (track uuid (default "default" (run_worker_room p))) h4 in
          if run_detach p then tracked else spawn_tail uuid sink tracked).

(** A computation that starts from [h0] but for its outside, nothing sent: it
    returns with [Q], or ends early with one event sent at most, and nothing
    else changed. *)
Definition leaves {A} (h0 : Handler K W) (Q : A → Handler K W → Prop) (m : M A) (h : Handler K W) : Prop :=
  moved [] h0 h →
  match m h with
  | (Returns x, h') => Q x h'
  | (Raises r, h') => (∃ l, length l ≤ 1 ∧ moved l h0 h') ∧ ∃ code msg, r = RpcError (reply_id r) code msg
  | (Panics, h') => ∃ l, length l ≤ 1 ∧ moved l h0 h'
  end.

Lemma leaves_bind {A B} h0 Q (m : M A) (k : A → M B) h :
  only_outside m → (∀ r h1, m h = (Raises r, h1) → ∃ code msg, r = RpcError (reply_id r) code msg) →
  (∀ x h1, m h = (Returns x, h1) → leaves h0 Q (k x) h1) → leaves h0 Q (x ← m; k x) h.
Proof using All.
  intros Hm Hr Hk Hh. unfold mbind, Io_bind. specialize (Hm h). destruct (m h) as [[x|r|] h1]; simpl in Hm.
  - apply Hk; [done|]. by eapply (moved_trans [] []).
  - split; [|by eapply Hr]. exists []. split; [simpl; lia|]. by eapply (moved_trans [] []).
  - exists []. split; [simpl; lia|]. by eapply (moved_trans [] []).
Qed.
Lemma leaves_fail {A} h0 (Q : A → Handler K W → Prop) rid code msg h : leaves h0 Q (fail rid code msg) h.
Proof. intros Hh. split; [exists []; split; [simpl; lia|done]|by eexists _, _]. Qed.
Lemma leaves_panic {A} h0 (Q : A → Handler K W → Prop) h : leaves h0 Q panic h.
Proof. intros Hh. exists []. split; [simpl; lia|done]. Qed.
Lemma leaves_observe {A B} h0 Q (f : Handler K W → A) (k : A → M B) h :
  leaves h0 Q (k (f h)) h → leaves h0 Q (x ← observe f; k x) h.
Proof. done. Qed.

(** A post, and the reply for its failure. *)
Lemma leaves_post {B} h0 (Q : B → Handler K W → Prop) room ty content rid code msg (k : M B) h :
  (∀ eid h1, world (E := string) (post_event_mut room ty content) h = (Returns (E := Reply V) (Ok eid), h1) →
     moved [(room, event_payload ty content)] h0 h1 → match k h1 with (Returns x, h') => Q x h' | _ => False end) →
  leaves h0 Q (posted ← world (post_event_mut room ty content);
               match posted with Err e => fail rid code (cat [msg; e]) | Ok _ => k end) h.
Proof using All.
  intros Hk Hh. unfold mbind, Io_bind. pose proof (world_post room ty content h) as Hp.
  destruct (world _ h) as [[[eid|e]|r|] h1]; [| |done|].
  - specialize (Hk eid h1 eq_refl (moved_trans _ _ _ _ _ Hh Hp)). by destruct (k h1) as [[]].
  - simpl. split; [|by eexists _, _].
    destruct Hp as [Hp|Hp]; pose proof (moved_trans _ _ _ _ _ Hh Hp); eexists; (split; [|done]); simpl; lia.
  - destruct Hp as [Hp|Hp]; pose proof (moved_trans _ _ _ _ _ Hh Hp); eexists; (split; [|done]); simpl; lia.
Qed.

Lemma params_only {T} `{Deserialize V T} rid (params : option V) :
  only_outside (of_result (parse_params (T := T) rid params)).
Proof. apply only_outside_here. intros h. by destruct (parse_params _ _). Qed.
Lemma params_error {T} `{Deserialize V T} rid (params : option V) (h : Handler K W) r h1 :
  of_result (parse_params (T := T) rid params) h = (Raises r, h1) → ∃ code msg, r = RpcError (reply_id r) code msg.
Proof. unfold parse_params. destruct params; destruct (de _); intros [= <- _]; by eexists _, _. Qed.
Lemma need_matrix_error rid timeout msg (h : Handler K W) (r : Reply V) h1 :
  need_matrix rid timeout msg h = (Raises r, h1) → ∃ code msg, r = RpcError (reply_id r) code msg.
Proof.
  unfold need_matrix, reading. rewrite io_bind_observe. intros [([] & h2 & _ & E)|[(e & [= <-] & E)|[[=] _]]]%io_bind_inv.
  - rewrite io_bind_observe in E. destruct (connection _); [done|]. injection E as <- _. by eexists _, _.
  - case_decide; [done|]. apply io_bind_inv in E as [([[]|] & h2 & _ & E)|[(e' & [= <-] & E)|[[=] _]]]; [done| |done|].
    + injection E as <- _. by eexists _, _.
    + unfold waiting in E. by destruct (wait_for_matrix _ _).
Qed.
Lemma world_silent {A E} (m : Io W E A) (h : Handler K W) (r : Reply V) h1 : world m h ≠ (Raises r, h1).
Proof. unfold world. by destruct (m _) as [[]]. Qed.

Lemma session_run_outcome rid params sink h :
  leaves h (λ reply h', submitted params rid sink h h' reply) (handle_session_run telemetry_list env_entries rid params sink) h.
Proof using All.
  unfold handle_session_run, reading. apply leaves_bind; [apply params_only|apply params_error|].
  intros p h1 Hparsed. assert (Hparams : parse_params rid params = Ok p).
  { by destruct (parse_params rid params); [injection Hparsed as ->|]. }
  apply leaves_bind; [apply only_outside_need_matrix|apply need_matrix_error|]. intros room h2 Hroom. apply leaves_observe, leaves_bind.
  { apply only_outside_world, undisturbed_read_state; [apply state_quiet|apply decrypt_quiet]. }
  { intros r h1' E. by apply world_silent in E. }
  intros telemetry h3 Ht. destruct (forallb _ _) eqn:Ef; [apply leaves_fail|].
  destruct telemetry as [l|e]; [|done]. apply leaves_observe.
  destruct (summarize_worker_liveness _ _) as [summary|] eqn:Es; [|apply leaves_panic].
  case_decide as Hon; [apply leaves_fail|]. apply leaves_observe, leaves_bind.
  { intros h'. unfold moved. rewrite app_nil_r. pose proof (uuid_quiet (h_outside h')). by destruct (new_uuid _). }
  { intros r h1'. by destruct (new_uuid _). }
  intros uuid h4 Huuid. destruct (new_uuid (h_outside h3)) as [u w4] eqn:Eu. injection Huuid as -> <-.
  apply leaves_post. intros eid h5 Hsent Hpost.
  destruct (summary_online _ _ _ _ Es) as (i & key & value & caps & Hin & Hlive%online_live).
  { pose proof (summary_counts _ _ _ _ Es). simpl in *. lia. }
  assert (h1 = h) as -> by (revert Hparsed; unfold of_result; by destruct (parse_params _ _); intros [=]).
  unfold mbind, Io_bind, modify.
  destruct (run_detach p) eqn:Edet; exists p, room, h2, l, h3, i, key, value, uuid, w4, eid, h5; rewrite Edet; by split_and!.
Qed.

(** *** [session.cancel] and [session.signal] *)
Definition cancelled (params : option V) (rid : RequestId) (h h' : Handler K W) (reply : Reply V) : Prop :=
  ∃ p room h1, parse_params rid params = Ok p ∧
    moved [(room, event_payload (cancel_event p).1.2 (cancel_event p).2)] h h1 ∧
    h' = set_sessions (complete_session (cancel_uuid p)) h1 ∧
    reply = RpcResponse rid (json_object [("status", json_string "cancelled"); ("uuid", json_string (cancel_uuid p))]).

Lemma session_cancel_outcome rid params h :
  leaves h (λ reply h', cancelled params rid h h' reply) (handle_session_cancel (K := K) rid params) h.
Proof using All.
  unfold handle_session_cancel. apply leaves_bind; [apply params_only|apply params_error|].
  intros p h1 Hp. assert (Hparams : parse_params rid params = Ok p).
  { by destruct (parse_params rid params); [injection Hp as ->|]. } clear Hp.
  apply leaves_bind; [apply only_outside_need_matrix|apply need_matrix_error|]. intros room h2 _.
  destruct (cancel_event p) as [[failed ty] content] eqn:Ec.
  apply leaves_post. intros eid h3 _ Hm. unfold mbind, Io_bind, modify. exists p, room, h3. by rewrite Ec.
Qed.

(** The reply to a request that was handled by [m]. *)
Lemma leaves_reply (Q : Reply V → Handler K W → Prop) (m : M (Reply V)) h0 h reply h' :
  leaves h0 Q m h → moved [] h0 h →
  match m h with (Returns r, h') | (Raises r, h') => (Some r, h') | (Panics, h') => (None, h') end = (reply, h') →
  (∃ r, reply = Some r ∧ Q r h') ∨
  ((∃ l, length l ≤ 1 ∧ moved l h0 h') ∧ ∀ r, reply = Some r → ∃ code msg, r = RpcError (reply_id r) code msg).
Proof.
  intros Hl Hh. specialize (Hl Hh). destruct (m h) as [[r|r|] h1]; intros [= <- <-].
  - left. by eexists.
  - right. destruct Hl as [Hl He]. split; [done|]. by intros r' [= <-].
  - right. by split.
Qed.
End run_theorem.

Section request_theorems.
Context {K W V : Type} `{MatrixSdk W V} `{HttpServer W V} `{RestExternals} `{MultiOps W V}
  `{DaemonDeserialize V} `{DaemonOutside W} `{JsonLaws V} `{Base64}.
Context (sent : W → list (string * V)) `{!SendsLogged sent}.
Variable session_keys : gmap string TrackedSession → list string.
Variable telemetry_list : gmap string V → list (string * V).
Variable env_entries : gmap string string → list (string * string).

(** C17: running a command sends one task, to a room with a live worker, or says
    why not. When the daemon answers a [session.run] with success, the telemetry
    that it read for this request holds the entry of a worker that is live by
    the clock of the moment: not offline, with a timestamp at most two of its
    heartbeat intervals old. After that exactly one event was sent, into that
    room: the task with the program, arguments, directory and limits of the
    request; the session is tracked, and followed unless the client detached.
    Whatever else it answers is an error, it sent one event at most, and neither
    the tracked sessions nor the followers changed. *)
Theorem run_sends_one_task (request : RpcRequest V) (sink : K) (h h' : Handler K W) reply :
  req_method request = "session.run" →
  handle_request session_keys telemetry_list env_entries request sink h = (reply, h') →
  (∃ r, reply = Some r ∧ submitted sent telemetry_list env_entries (req_params request) (req_id request) sink (touch h) h' r) ∨
  ((∃ l, length l ≤ 1 ∧ moved sent l (touch h) h') ∧
   ∀ r, reply = Some r → ∃ code msg, r = RpcError (reply_id r) code msg).
Proof using All.
  intros Hm Hr. unfold handle_request, dispatch_request in Hr. rewrite Hm in Hr. simpl in Hr.
  exact (leaves_reply sent _ _ _ _ _ _
           (session_run_outcome sent telemetry_list env_entries (req_id request) (req_params request) sink (touch h))
           (moved_refl sent _) Hr).
Qed.

(** A signal is reported as done and changes nothing. When the daemon
    answers a [session.cancel] or [session.signal] with success, it has sent
    one event about the session and counts the session as over. A worker
    that is handed a cancellation runs its cancellation of that session; a
    worker that is handed a signal does nothing at all. *)
Theorem signal_reported_not_done (request : RpcRequest V) (sink : K) (h h' : Handler K W) result :
  req_method request = "session.cancel" ∨ req_method request = "session.signal" →
  handle_request session_keys telemetry_list env_entries request sink h = (Some (RpcResponse (req_id request) result), h') →
  ∃ p room payload,
    parse_params (req_id request) (req_params request) = Ok p ∧
    sent (h_outside h') = sent (h_outside h) ++ [(room, payload)] ∧
    h_sessions h' = complete_session (cancel_uuid p) (h_sessions h) ∧
    ∀ event_id raw, handed_back event_id payload raw →
      ∃ e, parse_incoming raw = Some e ∧
      ∀ outside task_from_value exists_ is_dir env_keys values exec_error_fmt config device_id room_id,
        WorkerLoop.handle_event outside task_from_value exists_ is_dir env_keys values exec_error_fmt config device_id room_id e
        = match cancel_signal p with
          | Some _ => mret ()
          | None => WorkerLoop.handle_cancel (cancel_uuid p)
          end.
Proof using All.
  intros Hm Hr. unfold handle_request, dispatch_request in Hr.
  assert (Hc : str_eqb (req_method request) "session.cancel" || str_eqb (req_method request) "session.signal" = true)
    by (destruct Hm as [-> | ->]; reflexivity).
  assert (Hn : ∀ m, m ∈ ["daemon.status"; "daemon.shutdown"; "session.run"] → str_eqb (req_method request) m = false).
  { intros m Hin. destruct Hm as [-> | ->]; repeat (apply elem_of_cons in Hin as [->|Hin]; [reflexivity|]); by apply elem_of_nil in Hin. }
  cbv beta zeta in Hr. rewrite !Hn in Hr by set_solver. rewrite Hc in Hr.
  destruct (leaves_reply sent _ _ _ _ _ _ (session_cancel_outcome sent telemetry_list env_entries (req_id request) (req_params request) (touch h))
              (moved_refl sent _) Hr) as [(r & [= <-] & p & room & h1 & Hp & [Hm1 Hs1] & -> & Hreply)|[_ He]].
  2: { destruct (He _ eq_refl) as (? & ? & [=]). }
  eexists p, room, _. split; [done|]. split; [exact Hs1|]. split; [by rewrite Hm1|].
  intros event_id raw Hraw. unfold cancel_event in Hraw. destruct (cancel_signal p) as [sig|]; simpl in Hraw.
  - eexists. split; [eapply (parse_incoming_session _ InSessionSignal); [exact Hraw|apply signal_session|by right]|done].
  - eexists. split; [eapply (parse_incoming_session _ InSessionCancel); [exact Hraw|apply cancel_session|by left]|done].
Qed.
End request_theorems.

(** The wait for the connection ends, connected or at its deadline, when
    sleeping takes the time that it says. *)
Theorem matrix_wait_ends {W} `{DaemonOutside W} timeout_ms (w : W) :
  (0 ≤ timeout_ms)%Z → (∀ w, instant_ms w + 200 ≤ instant_ms (sleep (from_millis 200) w))%Z →
  let '(r, w') := wait_for_matrix timeout_ms w in
  match r with
  | Some true => is_Some (connection w')
  | Some false => connection w' = None ∧ (instant_ms w + timeout_ms ≤ instant_ms w')%Z
  | None => False
  end.
Proof.
  intros Ht Hsleep. unfold wait_for_matrix. set (deadline := (instant_ms w + timeout_ms)%Z).
  assert (Hw : ∀ fuel w0, (deadline - instant_ms w0 < 200 * (Z.of_nat fuel - 1))%Z → fuel ≠ 0 →
    let '(r, w') := wait_until fuel deadline w0 in
    match r with
    | Some true => is_Some (connection w')
    | Some false => connection w' = None ∧ (deadline ≤ instant_ms w')%Z
    | None => False
    end).
  { induction fuel as [|fuel IH]; intros w0 Hf H0; [done|]. simpl. case_decide; [done|].
    case_decide; [split; [by apply eq_None_not_Some|done]|]. pose proof (Hsleep w0). apply IH; lia. }
  apply Hw; [|done]. unfold wait_fuel, deadline. pose proof (Z.mul_succ_div_gt timeout_ms 200 ltac:(lia)).
  pose proof (Z.div_pos timeout_ms 200 Ht ltac:(lia)). lia.
Qed.

(** ** Witnesses *)
#[local] Existing Instances toy_json toy_u64 toy_containers toy_build toy_numbers toy_externals toy_base64 toy_json_laws.

Record ToyDaemon := mkToyDaemon { td_room : option string; td_ms : Z; td_sent : list (string * TJson) }.

Definition toy_live_telemetry : TJson :=
  TObj [("status", TStr "online"); ("timestamp", TStr "1970-01-01T00:00:01Z")].
Definition toy_telemetry_event : string :=
  t_print (TObj [("type", TStr WORKER_TELEMETRY); ("state_key", TStr "DEV"); ("content", toy_live_telemetry)]).
#[local] Instance toy_daemon_sdk : MatrixSdk ToyDaemon TJson :=
  toy_sdk_with (mkFeed td_ms (λ _ _ _ w, w) (mret []) [] [RawSync toy_telemetry_event] []).
#[local] Instance toy_daemon_http : HttpServer ToyDaemon TJson := λ _ w, (Err "down", w).
#[local] Instance toy_daemon_outside : DaemonOutside ToyDaemon := {|
  connection := td_room; wall_ms := td_ms; instant_ms := td_ms;
  sleep d w := mkToyDaemon (td_room w) (td_ms w + d / 1000000) (td_sent w);
  new_uuid w := ("u-1", w); telemetry_clock w := λ _, td_ms w |}.
#[local] Instance toy_daemon_ops : MultiOps ToyDaemon TJson := {|
  multi_sync_once := mret (); multi_join_room _ := mret (); multi_wait_for_key_exchange _ _ := mret ();
  multi_find_launcher_space _ := mret None; multi_bootstrap_and_sync_trust _ := mret ();
  multi_send_event room payload := λ w, (Returns "$1", mkToyDaemon (td_room w) (td_ms w) (td_sent w ++ [(room, payload)]));
  multi_sync_and_collect_events _ _ := mret []; multi_user_id _ := "@c:x" |}.

Definition toy_run_params (v : TJson) : result SessionRunParams string :=
  match get_str v "bin" with
  | Some b => Ok (mkRunParams b [] None None false false None None None false)
  | None => Err "missing field `bin`"
  end.
Definition toy_cancel_params (v : TJson) : result SessionCancelParams string :=
  match get_str v "uuid" with
  | Some u => Ok (mkCancelParams u (get_str v "signal") None)
  | None => Err "missing field `uuid`"
  end.
#[local] Instance toy_daemon_deserialize : DaemonDeserialize TJson := {|
  de_rpc_request _ := Err ""; de_notification _ := Err ""; de_run := toy_run_params; de_cancel := toy_cancel_params;
  de_logs _ := Err ""; de_attach _ := Err ""; de_subscribe _ := Err ""; de_unsubscribe _ := Err "";
  de_add_transport _ := Err ""; de_remove_transport _ := Err ""; de_output _ := Err ""; de_result _ := Err "" |}.

Lemma toy_sends_logged : SendsLogged (V := TJson) td_sent.
Proof. split; try done; intros; unfold undisturbed; simpl; try done. Qed.
#[local] Existing Instance toy_sends_logged.

Definition toy_handler : Handler () ToyDaemon := handler_new "default" (mkToyDaemon (Some "!r") 2000 []).
Definition toy_handle (method : string) (params : TJson) : option (Reply TJson) * Handler () ToyDaemon :=
  handle_request (λ m, (map_to_list m).*1) map_to_list map_to_list
    (mkRpcRequest (IdNumber 1) method (Some params)) () toy_handler.

Lemma run_sends_one_task_witness :
  let '(reply, h') := toy_handle "session.run" (TObj [("bin", TStr "ls")]) in
  reply = Some (RpcResponse (IdNumber 1) (TObj [("uuid", TStr "u-1"); ("status", TStr "submitted")])) ∧
  h_tails h' = [("u-1", ())] ∧
  ((∃ r, reply = Some r ∧ submitted td_sent map_to_list map_to_list (Some (TObj [("bin", TStr "ls")])) (IdNumber 1) ()
                            (touch toy_handler) h' r) ∨
   ((∃ l, length l ≤ 1 ∧ moved td_sent l (touch toy_handler) h') ∧
    ∀ r, reply = Some r → ∃ code msg, r = RpcError (V := TJson) (reply_id r) code msg)).
Proof.
  destruct (toy_handle _ _) as [reply h'] eqn:E.
  pose proof (run_sends_one_task td_sent (λ m, (map_to_list m).*1) map_to_list map_to_list
                (mkRpcRequest (IdNumber 1) "session.run" (Some (TObj [("bin", TStr "ls")]))) () toy_handler h' reply
                eq_refl E) as Hrun.
  vm_compute in E. injection E as <- <-. split; [reflexivity|]. split; [reflexivity|exact Hrun].
Defined.
