(* ===== verification/Config.v ===== *)
(** * Config: configuration files and command-line overrides
    ([mxdx-types/config.rs], [mxdx-client/config.rs], [mxdx-worker/config.rs])

    The records that the configuration files are read into, how the command
    line overrides them, which accounts a program logs in with, and the
    removal of passwords from a file. A document is a TOML value; reading and
    printing TOML is an interface. *)
From S2P Require Import Prelude Text MatrixTypes Effects Keychain Trust MultiHs WorkerLoop.
From stdpp Require Import options.

(** ** Records ([mxdx-types/config.rs]) *)
Record AccountConfig := mkAccountConfig {
  ac_user_id : string; ac_homeserver : string; ac_password : option string }.
Record TurnServerConfig := mkTurnServer {
  ts_url : string; ts_auth_endpoint : option string; ts_username : option string; ts_credential : option string }.
Record WebRtcConfig := mkWebRtc { stun_servers : list string; turn_servers : list TurnServerConfig }.
Record DefaultsConfig := mkDefaults {
  df_accounts : list AccountConfig; df_cross_signing_mode : CrossSigningMode; df_webrtc : WebRtcConfig }.
Record P2pConfig := mkP2p { p2p_enabled : bool; p2p_idle_timeout_seconds : Z }.
Record WorkerFile := mkWorkerFile {
  wf_room_name : option string; wf_trust_anchor : option string; wf_history_retention : Z;
  wf_capabilities_extra : list string; wf_telemetry_refresh_seconds : Z; wf_max_sessions : Z;
  wf_allowed_commands : list string; wf_allowed_cwd : list string; wf_authorized_users : list string;
  wf_p2p : P2pConfig }.
Record SessionDefaults := mkSessionDefaults {
  sd_timeout_seconds : option Z; sd_heartbeat_interval : Z; sd_interactive : bool; sd_no_room_output : bool }.
Record WebSocketTransportConfig := mkWebSocket { ws_bind : string; ws_port : Z }.
(** A profile is its list of accounts, if it has one. *)
Record DaemonConfig := mkDaemonConfig {
  idle_timeout_seconds : Z; profiles : gmap string (option (list string)); websocket : option WebSocketTransportConfig }.
Record ClientFile := mkClientFile {
  cf_default_worker_room : option string; cf_coordinator_room : option string; cf_session : SessionDefaults;
  cf_daemon : DaemonConfig; cf_p2p : P2pConfig }.
Record CoordinatorConfig := mkCoordinatorConfig {
  co_room : option string; capability_room_prefix : option string; default_on_timeout : string;
  default_on_heartbeat_miss : string }.

(** [Default]: also what a missing file or field gives. *)
Definition default_stun_servers : list string := ["stun:stun.l.google.com:19302"].
Definition defaults_default : DefaultsConfig := mkDefaults [] Auto (mkWebRtc default_stun_servers []).
Definition p2p_default : P2pConfig := mkP2p true 300.
Definition worker_default : WorkerFile := mkWorkerFile None None 90 [] 60 5 [] ["/tmp"] [] p2p_default.
Definition session_defaults : SessionDefaults := mkSessionDefaults None 30 false false.
Definition daemon_default : DaemonConfig := mkDaemonConfig 1200 ∅ None.
Definition client_default : ClientFile := mkClientFile None None session_defaults daemon_default p2p_default.
Definition coordinator_default : CoordinatorConfig := mkCoordinatorConfig None None "escalate" "escalate".

(** ** TOML *)
Inductive Toml : Type :=
| TomlScalar (text : string)
| TomlArray (l : list Toml)
| TomlTable (m : list (string * Toml)).

Definition toml_get (k : string) (t : Toml) : option Toml :=
  match t with TomlTable m => snd <$> List.find (λ kv, str_eqb kv.1 k) m | _ => None end.

(** [table.remove("password")]; keys occur once. *)
Definition without_password (t : Toml) : Toml :=
  match t with TomlTable m => TomlTable (filter (λ kv, kv.1 ≠ "password") m) | _ => t end.

(** The edit of the document. *)
Definition strip_account_passwords (doc : Toml) : Toml :=
  match doc with
  | TomlTable m =>
      TomlTable ((λ kv, if str_eqb kv.1 "accounts"
                        then (kv.1, match kv.2 with TomlArray l => TomlArray (without_password <$> l) | t => t end)
                        else kv) <$> m)
  | _ => doc
  end.

(** The files of the configuration directory; [toml::from_str] and
    [to_string_pretty]. *)
Class ConfigFiles (W : Type) := {
  file_exists : string → W → bool;
  read_to_string : string → Io W string string;
  write_file : string → string → Io W string ();
  set_mode : string → Z → Io W string ();
}.
Class TomlText := { toml_from_str : string → result Toml string; to_string_pretty : Toml → result string string }.

Section files.
Context {W : Type} `{ConfigFiles W} `{TomlText}.

(** [T]: of a document, the derived [Deserialize]. *)
Definition load_config {T} (de : Toml → result T string) (default : T) (path : string) : Io W string T :=
  exists_ ← observe (file_exists path);
  if negb exists_ then mret default else
  content ← read_to_string path;
  of_result (let? doc := toml_from_str content in de doc).

Definition load_merged_config {D M} (de_d : Toml → result D string) (d : D) (de_m : Toml → result M string) (m : M)
    (defaults_file mode_file : string) : Io W string (D * M) :=
  defaults ← load_config de_d d defaults_file;
  mode ← load_config de_m m mode_file;
  mret (defaults, mode).

Definition mode_600 : Z := 384.

Definition remove_passwords_from_config (path : string) : Io W string () :=
  exists_ ← observe (file_exists path);
  if negb exists_ then mret () else
  content ← read_to_string path;
  doc ← of_result (toml_from_str content);
  new_content ← of_result (to_string_pretty (strip_account_passwords doc));
  write_file path new_content ;;
  set_mode path mode_600.
End files.

(** ** Accounts *)
(** [split(':').next()], which is always there, without leading [@]s. *)
Definition localpart (user_id : string) : string :=
  from_bytes (drop_while_byte Byte.x40 (default [] (head (split_byte Byte.x3a (as_bytes user_id))))).

Record Credentials := mkCredentials { cr_homeserver : string; cr_username : string; cr_password : string }.

(** The loop of [resolve_accounts], of the client and of the worker. *)
Definition add_account (accounts : list ServerAccount) (a : AccountConfig) : list ServerAccount :=
  match ac_password a with
  | Some password =>
      if existsb (λ s, str_eqb (homeserver s) (ac_homeserver a)) accounts then accounts
      else accounts ++ [mkAccount (ac_homeserver a) (localpart (ac_user_id a)) password false]
  | None => accounts
  end.
Definition resolve_accounts (credentials : option Credentials) (accounts : list AccountConfig) : list ServerAccount :=
  foldl add_account
    (match credentials with
     | Some c => [mkAccount (cr_homeserver c) (cr_username c) (cr_password c) false]
     | None => []
     end) accounts.

(** ** The client ([mxdx-client/config.rs]) *)
Record ClientArgs := mkClientArgs {
  ca_worker_room : option string; ca_coordinator_room : option string; ca_timeout : option Z;
  ca_heartbeat_interval : option Z; ca_interactive : bool; ca_no_room_output : bool;
  ca_homeserver : option string; ca_username : option string; ca_password : option string;
  ca_force_new_device : bool }.
Record ClientRuntimeConfig := mkClientConfig {
  cc_defaults : DefaultsConfig; cc_client : ClientFile; cc_credentials : option Credentials; cc_force_new_device : bool }.

Definition client_from_parts (d : DefaultsConfig) (c : ClientFile) : ClientRuntimeConfig := mkClientConfig d c None false.

Definition or_keep {A} (new old : option A) : option A := match new with Some _ => new | None => old end.

Definition client_overrides (args : ClientArgs) (cfg : ClientRuntimeConfig) : ClientRuntimeConfig :=
  let c := cc_client cfg in
  let s := cf_session c in
  mkClientConfig (cc_defaults cfg)
    (mkClientFile (or_keep (ca_worker_room args) (cf_default_worker_room c))
       (or_keep (ca_coordinator_room args) (cf_coordinator_room c))
       (mkSessionDefaults (or_keep (ca_timeout args) (sd_timeout_seconds s))
          (default (sd_heartbeat_interval s) (ca_heartbeat_interval args)) (sd_interactive s) (sd_no_room_output s))
       (cf_daemon c) (cf_p2p c))
    (match ca_homeserver args, ca_username args, ca_password args with
     | Some hs, Some user, Some pass => Some (mkCredentials hs user pass)
     | _, _, _ => cc_credentials cfg
     end)
    (ca_force_new_device args).

Definition require_credentials (cfg : ClientRuntimeConfig) : result Credentials string :=
  match cc_credentials cfg with
  | Some c => Ok c
  | None => Err "Matrix credentials required. Set --homeserver, --username, --password or MXDX_HOMESERVER, MXDX_USERNAME, MXDX_PASSWORD environment variables."
  end.

Definition client_accounts (cfg : ClientRuntimeConfig) : list ServerAccount :=
  resolve_accounts (cc_credentials cfg) (df_accounts (cc_defaults cfg)).

Definition bare_server (server : string) : string :=
  from_bytes (trim_start_matches (as_bytes "http://") (trim_start_matches (as_bytes "https://") (as_bytes server))).
Definition resolve_accounts_for_profile (profile : string) (cfg : ClientRuntimeConfig) : list ServerAccount :=
  match profiles (cf_daemon (cc_client cfg)) !! profile with
  | Some (Some accepted) =>
      filter (λ a, cat ["@"; username a; ":"; bare_server (homeserver a)] ∈ accepted) (client_accounts cfg)
  | _ => client_accounts cfg
  end.

(** ** The worker ([mxdx-worker/config.rs]) *)
Record WorkerArgs := mkWorkerArgs {
  wa_trust_anchor : option string; wa_history_retention : option Z; wa_room_name : option string;
  wa_room_id : option string; wa_homeserver : option string; wa_username : option string;
  wa_password : option string; wa_force_new_device : bool; wa_max_sessions : option Z;
  wa_allowed_commands : list string; wa_allowed_cwd : list string; wa_authorized_users : list string }.
Record WorkerRuntimeConfig := mkWorkerRuntime {
  wr_defaults : DefaultsConfig; wr_worker : WorkerFile; resolved_room_name : string;
  wr_credentials : option Credentials; wr_room_id : option string; wr_force_new_device : bool }.

(** [hostname]: [None] when it cannot be had; [os_user]: [whoami]. *)
Section worker.
Variables (hostname : option string) (os_user : string).

Definition host_room (localpart : string) : string := cat [default "unknown" hostname; "."; os_user; "."; localpart].

Definition compute_room_name (d : DefaultsConfig) (w : WorkerFile) : string :=
  match wf_room_name w with
  | Some name => name
  | None => host_room (match df_accounts d with a :: _ => localpart (ac_user_id a) | [] => "anon" end)
  end.

Definition worker_from_parts (d : DefaultsConfig) (w : WorkerFile) : WorkerRuntimeConfig :=
  mkWorkerRuntime d w (compute_room_name d w) None None false.

Definition worker_overrides (args : WorkerArgs) (cfg : WorkerRuntimeConfig) : WorkerRuntimeConfig :=
  let w := wr_worker cfg in
  let accounts := df_accounts (wr_defaults cfg) in
  let worker :=
    mkWorkerFile (wf_room_name w) (or_keep (wa_trust_anchor args) (wf_trust_anchor w))
      (default (wf_history_retention w) (wa_history_retention args)) (wf_capabilities_extra w)
      (wf_telemetry_refresh_seconds w) (default (wf_max_sessions w) (wa_max_sessions args))
      (wf_allowed_commands w ++ wa_allowed_commands args) (wf_allowed_cwd w ++ wa_allowed_cwd args)
      (wf_authorized_users w ++ wa_authorized_users args) (wf_p2p w) in
  let room_name := default (resolved_room_name cfg) (wa_room_name args) in
  let homeserver := match wa_homeserver args with
                    | Some hs => Some hs
                    | None => ac_homeserver <$> head accounts
                    end in
  let credentials := match homeserver, wa_username args, wa_password args with
                     | Some hs, Some user, Some pass => Some (mkCredentials hs user pass)
                     | _, _, _ => None
                     end in
  mkWorkerRuntime (wr_defaults cfg) worker
    (match credentials with
     | Some c =>
         if decide (wa_room_name args = None ∧ accounts = []) then host_room (localpart (cr_username c)) else room_name
     | None => room_name
     end)
    (or_keep credentials (wr_credentials cfg)) (or_keep (wa_room_id args) (wr_room_id cfg)) (wa_force_new_device args).
End worker.

Definition worker_accounts (cfg : WorkerRuntimeConfig) : list ServerAccount :=
  resolve_accounts (wr_credentials cfg) (df_accounts (wr_defaults cfg)).

(** What [start_worker] takes of it for its main loop. *)
Definition loop_config (cfg : WorkerRuntimeConfig) : WorkerConfig :=
  let w := wr_worker cfg in
  mkWorkerConfig (wf_max_sessions w) (wf_allowed_commands w) (wf_allowed_cwd w) (wf_authorized_users w).

(** ** Lemmas *)
Lemma add_account_servers accounts a s :
  s ∈ homeserver <$> add_account accounts a ↔
  s ∈ homeserver <$> accounts ∨ (s = ac_homeserver a ∧ is_Some (ac_password a)).
Proof.
  unfold add_account. destruct (ac_password a) as [p|].
  - destruct (existsb _ accounts) eqn:E.
    + apply existsb_exists in E as (x & Hx%list_elem_of_In & Hxs%str_eqb_true). split; [by left|].
      intros [?|[-> _]]; [done|]. apply list_elem_of_fmap. by exists x.
    + rewrite fmap_app, elem_of_app. simpl. rewrite list_elem_of_singleton. naive_solver.
  - split; [by left|]. intros [?|[_ [? [=]]]]; done.
Qed.

Lemma add_account_nodup accounts a :
  NoDup (homeserver <$> accounts) → NoDup (homeserver <$> add_account accounts a).
Proof.
  intros Hnd. unfold add_account. destruct (ac_password a); [|done]. destruct (existsb _ accounts) eqn:E; [done|].
  rewrite fmap_app. apply NoDup_app. split; [done|]. split; [|by apply NoDup_singleton].
  intros srv (x & -> & Hx)%list_elem_of_fmap Hxs%list_elem_of_singleton.
  assert (existsb (λ s, str_eqb (homeserver s) (ac_homeserver a)) accounts = true); [|congruence].
  apply existsb_exists. exists x. split; [by apply list_elem_of_In|]. by apply str_eqb_true.
Qed.

(** The accounts that can be used: those with a password. *)
Definition usable (credentials : option Credentials) (accounts : list AccountConfig) (server : string) : Prop :=
  (∃ c, credentials = Some c ∧ cr_homeserver c = server) ∨
  (∃ a, a ∈ accounts ∧ ac_homeserver a = server ∧ is_Some (ac_password a)).

Lemma resolve_accounts_servers credentials accounts :
  NoDup (homeserver <$> resolve_accounts credentials accounts) ∧
  ∀ server, server ∈ homeserver <$> resolve_accounts credentials accounts ↔ usable credentials accounts server.
Proof.
  unfold resolve_accounts. induction accounts as [|a accounts [IHn IHs]] using rev_ind.
  { simpl. destruct credentials as [c|]; (split; [first [by apply NoDup_singleton|by constructor]|]); intros server;
      simpl; unfold usable; [rewrite list_elem_of_singleton|rewrite elem_of_nil]; set_solver. }
  rewrite foldl_snoc. split; [by apply add_account_nodup|]. intros server. rewrite add_account_servers, IHs.
  unfold usable. set_solver.
Qed.

(** ** Documented behaviour of files and of TOML *)
Class ConfigFilesLaws {W} `{ConfigFiles W} (contents : W → gmap string string) : Prop := {
  exists_law p w : file_exists p w = bool_decide (is_Some (contents w !! p));
  read_law p w : match read_to_string p w with
                 | (Returns c, w') => contents w !! p = Some c ∧ contents w' = contents w
                 | (_, w') => contents w' = contents w
                 end;
  write_law p c w w' : write_file p c w = (Returns (), w') → contents w' = <[p := c]> (contents w);
  mode_law p mode w : contents (set_mode p mode w).2 = contents w;
}.
(** Printing a document and reading it back. *)
Class TomlLaws `{TomlText} : Prop := toml_reads_back t c : to_string_pretty t = Ok c → toml_from_str c = Ok t.

(** The tables of the accounts of a document. *)
Definition account_tables (doc : Toml) : list Toml :=
  match toml_get "accounts" doc with Some (TomlArray l) => l | _ => [] end.
(** The derived [Deserialize] takes the password of an account from the table
    of that account. *)
Definition passwords_from_tables (de : Toml → result DefaultsConfig string) : Prop :=
  ∀ doc d a, de doc = Ok d → a ∈ df_accounts d → is_Some (ac_password a) →
    ∃ t, t ∈ account_tables doc ∧ is_Some (toml_get "password" t).

Lemma find_map_values {A} (f : string → A → A) k (m : list (string * A)) :
  snd <$> List.find (λ kv, str_eqb kv.1 k) ((λ kv, (kv.1, f kv.1 kv.2)) <$> m)
  = f k <$> (snd <$> List.find (λ kv, str_eqb kv.1 k) m).
Proof.
  induction m as [|[k' v] m IH]; [done|]. cbn. destruct (str_eqb k' k) eqn:E; [|exact IH].
  apply str_eqb_true in E as ->. done.
Qed.

Lemma no_password t : toml_get "password" (without_password t) = None.
Proof.
  destruct t as [x|l|m]; [done|done|]. simpl. destruct (List.find _ _) as [[k v]|] eqn:E; [|done].
  apply find_some in E as [Hin Hk]. apply str_eqb_true in Hk. simpl in Hk. subst.
  apply list_elem_of_In, list_elem_of_filter in Hin as [Hne _]. done.
Qed.

Lemma strip_tables doc t : t ∈ account_tables (strip_account_passwords doc) → toml_get "password" t = None.
Proof.
  destruct doc as [x|l|m]; [by cbn; intros ?%elem_of_nil..|]. unfold account_tables, strip_account_passwords, toml_get at 1.
  set (f := λ (k : string) (v : Toml), if str_eqb k "accounts"
              then match v with TomlArray l => TomlArray (without_password <$> l) | t => t end else v).
  assert (Hm : (λ kv : string * Toml, if str_eqb kv.1 "accounts"
       then (kv.1, match kv.2 with TomlArray l => TomlArray (without_password <$> l) | t => t end) else kv) <$> m
     = (λ kv, (kv.1, f kv.1 kv.2)) <$> m).
  { apply list_fmap_ext. intros i [k v] _.
    unfold f; cbn [fst snd]. by destruct (str_eqb k "accounts"), v. }
  rewrite Hm, find_map_values. destruct (snd <$> List.find _ m) as [v|]; simpl; [|by intros ?%elem_of_nil].
  destruct v as [x|l|m']; [by intros ?%elem_of_nil| |by intros ?%elem_of_nil].
  intros (t' & -> & _)%list_elem_of_fmap. apply no_password.
Qed.

(** ** Properties *)
(** C27: once the passwords are removed from the file, its accounts cannot be
    used. After the removal that follows a fresh login, loading the file gives
    no account to log in with: however it was filled, the resolution of
    accounts without credentials on the command line is empty, and the next
    start of client or worker fails although session and password are in the
    keychain. *)
Theorem removed_passwords_lock_out {W} `{ConfigFiles W} `{TomlText} (contents : W → gmap string string)
    `{!ConfigFilesLaws contents} `{!TomlLaws} (de : Toml → result DefaultsConfig string) path (w w1 w2 : W) d :
  passwords_from_tables de →
  is_Some (contents w !! path) →
  remove_passwords_from_config path w = (Returns (), w1) →
  load_config de defaults_default path w1 = (Returns d, w2) →
  resolve_accounts None (df_accounts d) = [].
Proof.
  intros Hde Hex Hrm Hload. unfold remove_passwords_from_config in Hrm. rewrite io_bind_observe, exists_law in Hrm.
  rewrite bool_decide_eq_true_2 in Hrm by done. simpl in Hrm.
  apply io_bind_returns in Hrm as (c & w3 & Hr & Hrm). pose proof (read_law path w) as Hrl. rewrite Hr in Hrl.
  apply io_bind_returns in Hrm as (doc & w4 & Hd & Hrm). destruct (toml_from_str c) as [doc'|]; [|done].
  injection Hd as -> <-. apply io_bind_returns in Hrm as (c' & w5 & Hc & Hrm).
  destruct (to_string_pretty _) as [c''|] eqn:Ep; [|done]. injection Hc as -> <-.
  apply io_bind_returns in Hrm as ([] & w6 & Hw & Hm). apply write_law in Hw.
  pose proof (mode_law path mode_600 w6) as Hmode. rewrite Hm in Hmode. simpl in Hmode.
  unfold load_config in Hload. rewrite io_bind_observe, exists_law, Hmode, Hw, lookup_insert_eq in Hload.
  simpl in Hload. apply io_bind_returns in Hload as (c2 & w7 & Hr2 & Hload).
  pose proof (read_law path w1) as Hrl2. rewrite Hr2, Hmode, Hw, lookup_insert_eq in Hrl2. destruct Hrl2 as [[= <-] _].
  rewrite (toml_reads_back _ _ Ep) in Hload. simpl in Hload. destruct (de _) as [d'|] eqn:Ed; [|done]. injection Hload as -> _.
  destruct (resolve_accounts None (df_accounts d)) as [|s l] eqn:Er; [done|exfalso].
  destruct (resolve_accounts_servers None (df_accounts d)) as [_ Hs]. rewrite Er in Hs.
  destruct (proj1 (Hs (homeserver s)) (list_elem_of_here _ _)) as [(? & [=] & _)|(a & Ha & _ & Hp)].
  destruct (Hde _ _ _ Ed Ha Hp) as (t & Ht & Hpw). rewrite (strip_tables _ _ Ht) in Hpw. by destruct Hpw.
Qed.

(** ** Witness *)
Definition toy_table (password : bool) : Toml :=
  TomlTable (("homeserver", TomlScalar "h") :: if password then [("password", TomlScalar "pw")] else []).
Definition toy_doc (password : bool) : Toml := TomlTable [("accounts", TomlArray [toy_table password])].
Definition toy_toml : TomlText := {|
  toml_from_str c := if str_eqb c "full" then Ok (toy_doc true) else if str_eqb c "bare" then Ok (toy_doc false) else Err "";
  to_string_pretty t := match t with
    | TomlTable [(a, TomlArray [TomlTable [(b, TomlScalar h)]])] =>
        if str_eqb a "accounts" && str_eqb b "homeserver" && str_eqb h "h" then Ok "bare" else Err ""
    | _ => Err ""
    end |}.
Lemma toy_toml_laws : @TomlLaws toy_toml.
Proof.
  intros t c Hp. simpl in Hp. repeat case_match; try done. injection Hp as <-. simplify_eq.
  repeat match goal with E : _ && _ = true |- _ => apply andb_true_iff in E as [? ?] end.
  repeat match goal with E : str_eqb _ _ = true |- _ => apply str_eqb_true in E as -> end. reflexivity.
Qed.

Definition toy_files : ConfigFiles (gmap string string) := {|
  file_exists p w := bool_decide (is_Some (w !! p));
  read_to_string p w := (match w !! p with Some c => Returns c | None => Raises "not found" end, w);
  write_file p c w := (Returns (), <[p := c]> w);
  set_mode _ _ w := (Returns (), w) |}.
Lemma toy_files_laws : @ConfigFilesLaws _ toy_files id.
Proof.
  split; try done.
  - intros p w. simpl. by destruct (w !! p).
  - intros p c w w' [= <-]. done.
Qed.

Definition toml_text (t : option Toml) : option string := match t with Some (TomlScalar s) => Some s | _ => None end.
Definition toy_account (t : Toml) : AccountConfig :=
  mkAccountConfig "@u:h" (default "" (toml_text (toml_get "homeserver" t))) (toml_text (toml_get "password" t)).
Definition toy_defaults (doc : Toml) : result DefaultsConfig string :=
  Ok (mkDefaults (toy_account <$> account_tables doc) Auto (mkWebRtc [] [])).
Lemma toy_defaults_tables : passwords_from_tables toy_defaults.
Proof.
  intros doc d a [= <-] (t & -> & Ht)%list_elem_of_fmap Hp. exists t. split; [done|].
  simpl in Hp. destruct (toml_get "password" t); [done|by destruct Hp].
Qed.

Lemma removed_passwords_lock_out_witness :
  let w := {["defaults.toml" := "full"]} in
  resolve_accounts None (toy_account <$> account_tables (toy_doc true)) = [mkAccount "h" "u" "pw" false] ∧
  ∃ w1 d w2,
    @remove_passwords_from_config _ toy_files toy_toml "defaults.toml" w = (Returns (), w1) ∧
    @load_config _ toy_files toy_toml _ toy_defaults defaults_default "defaults.toml" w1 = (Returns d, w2) ∧
    length (df_accounts d) = 1 ∧ resolve_accounts None (df_accounts d) = [].
Proof.
  intros w. split; [reflexivity|].
  eexists {["defaults.toml" := "bare"]}, (mkDefaults [toy_account (toy_table false)] Auto (mkWebRtc [] [])), _.
  assert (H1 : @remove_passwords_from_config _ toy_files toy_toml "defaults.toml" w = (Returns (), {["defaults.toml" := "bare"]}))
    by (vm_compute; reflexivity).
  assert (H2 : @load_config _ toy_files toy_toml _ toy_defaults defaults_default "defaults.toml" {["defaults.toml" := "bare"]}
    = (Returns (mkDefaults [toy_account (toy_table false)] Auto (mkWebRtc [] [])), {["defaults.toml" := "bare"]}))
    by (vm_compute; reflexivity).
  split; [exact H1|]. split; [exact H2|]. split; [reflexivity|].
  refine (@removed_passwords_lock_out _ toy_files toy_toml id toy_files_laws toy_toml_laws toy_defaults _ _ _ _ _
            toy_defaults_tables _ H1 H2).
  eexists. reflexivity.
Defined.
