(* ===== verification/ClientCli.v ===== *)
(** * ClientCli: the client's command line
    ([mxdx-client/main.rs], [cli/connect.rs], [cli/format.rs], [ls.rs],
    [logs.rs], [reconnect.rs])

    A command goes through the daemon, whose answers are the lines of a
    socket, or straight to Matrix. What is printed is part of the state; a
    command returns, fails with a message, or leaves with an exit code. *)
From S2P Require Import Prelude Text Instants Json Fabric SessionEvents Signaling P2PCrypto MatrixTypes Effects Rest MatrixClient MatrixRooms Liveness MatrixDelivery SessionJson ClientSessions ClientProtocol RoomEvents ClientDaemon Config Toys.
From stdpp Require Import options.

(** ** Options ([cli/mod.rs]) *)
Record RunArgs := mkRunArgs {
  ra_command : string; ra_args : list string; ra_detach : bool; ra_interactive : bool; ra_no_room_output : bool;
  ra_timeout : option Z; ra_cwd : option string; ra_worker_room : option string; ra_skip_liveness_check : bool }.
Inductive TrustAction : Type :=
| TrustList | TrustAdd (device : string) | TrustRemove (device : string) | TrustPull (from : string)
| TrustAnchor (user_id : option string).
Inductive DaemonAction : Type :=
| DaemonStart (detach enable_websocket : bool) (ws_port : option Z) | DaemonStop (all : bool) | DaemonStatus | DaemonMcp.
Inductive Commands : Type :=
| CmdRun (r : RunArgs)
| CmdExec (r : RunArgs)
| CmdAttach (uuid : string) (interactive : bool)
| CmdLs (all : bool) (worker_room : option string)
| CmdLogs (uuid : string) (follow : bool) (worker_room : option string)
| CmdCancel (uuid : string) (signal worker_room : option string)
| CmdTrust (action : TrustAction)
| CmdDaemon (action : DaemonAction)
| CmdCleanup (targets : string) (force delete_all_sessions : bool)
| CmdDiagnose (pretty decrypt : bool)
| CmdInternalDaemon (profile : string) (detach : bool).
Record CliOptions := mkCliOptions {
  o_homeserver : option string; o_username : option string; o_password : option string; o_room_id : option string;
  o_force_new_device : bool; o_profile : string; o_no_daemon : bool; o_no_p2p : bool }.

(** ** What is shown *)
Inductive Shown : Type := OnStdout (text : string) | OnStderr (text : string).
Definition NL : string := from_bytes [Byte.x0a].
Definition stdout_of (l : list Shown) : string :=
  cat (omap (λ s, match s with OnStdout t => Some t | OnStderr _ => None end) l).

(** *** [ls.rs] *)
Inductive SessionEntryStatus : Type :=
| EntryActive (pid : option Z) (start_time : Z)
| EntryCompleted (exit_code : option Z) (duration_seconds : Z).
Record SessionEntry := mkSessionEntry {
  se_uuid : string; se_bin : string; se_args : list string; se_worker_id : string; se_interactive : bool;
  se_status : SessionEntryStatus }.

Definition from_active (uuid : string) (state : ActiveSessionState) : SessionEntry :=
  mkSessionEntry uuid (act_bin state) (act_args state) (act_worker state) (act_interactive state)
    (EntryActive (act_pid state) (act_start_time state)).
Definition from_completed (uuid : string) (active : ActiveSessionState) (completed : CompletedSessionState) : SessionEntry :=
  mkSessionEntry uuid (act_bin active) (act_args active) (act_worker active) (act_interactive active)
    (EntryCompleted (cpl_exit_code completed) (cpl_duration completed)).

(** [{:<n}]: padded by characters; [count] counts them. *)
Definition pad_to (count : string → nat) (n : nat) (s : string) : string :=
  cat (s :: replicate (n - count s) " ").
(** [&s[..n]] with [...]; [None] when the cut is inside a character. *)
Definition abbreviate (limit n : nat) (s : string) : option string :=
  if decide (limit < length (as_bytes s)) then
    front ← slice_to n (as_bytes s); Some (cat [from_bytes front; "..."])
  else Some s.
Definition command_line (bin : string) (args : list string) : string :=
  if bool_decide (args = []) then bin else cat [bin; " "; String.concat " " args].

Definition entry_line (count : string → nat) (e : SessionEntry) : option string :=
  cmd_display ← abbreviate 13 12 (command_line (se_bin e) (se_args e));
  worker_display ← abbreviate 8 7 (se_worker_id e);
  let '(status, details) :=
    match se_status e with
    | EntryActive pid _ => ("active", cat ["pid="; debug_option pid])
    | EntryCompleted code secs => ("done", cat ["exit="; debug_option code; " "; show secs; "s"])
    end in
  Some (cat [pad_to count 38 (se_uuid e); " "; pad_to count 15 cmd_display; " "; pad_to count 10 worker_display; " ";
             pad_to count 10 status; " "; details]).

Definition format_table (count : string → nat) (entries : list SessionEntry) : option string :=
  if bool_decide (entries = []) then Some "No sessions found." else
  lines ← mapM (entry_line count) entries;
  Some (String.concat NL
    (cat [pad_to count 38 "UUID"; " "; pad_to count 15 "COMMAND"; " "; pad_to count 10 "WORKER"; " ";
          pad_to count 10 "STATUS"; " DETAILS"] :: lines)).

(** *** [logs.rs] *)
(** [sort_by_key], which is stable. *)
Fixpoint insert_by_seq (o : SessionOutput) (l : list SessionOutput) : list SessionOutput :=
  match l with
  | [] => [o]
  | x :: l' => if decide (out_seq o ≤ out_seq x)%Z then o :: l else x :: insert_by_seq o l'
  end.
Definition sort_by_seq (l : list SessionOutput) : list SessionOutput := foldr insert_by_seq [] l.

Section logs.
Context `{Base64}.
Fixpoint decode_all (l : list SessionOutput) : result Bytes string :=
  match l with
  | [] => Ok []
  | o :: l => let? decoded := decode_output o in let? rest := decode_all l in Ok (decoded ++ rest)
  end.
Definition reassemble_output (outputs : list SessionOutput) : result Bytes string := decode_all (sort_by_seq outputs).
Definition reassemble_output_string (outputs : list SessionOutput) : result string string :=
  let? data := reassemble_output outputs in Ok (from_utf8_lossy data).
End logs.

(** *** [reconnect.rs] *)
Definition find_reconnectable_sessions (active : list (string * ActiveSessionState)) (client_id : string)
    : list (string * ActiveSessionState) :=
  filter (λ kv, act_client kv.2 = client_id) active.
Definition format_reconnectable (sessions : list (string * ActiveSessionState)) : string :=
  if bool_decide (sessions = []) then "No active sessions to reconnect to." else
  String.concat NL ("Active sessions from this client:" ::
    ((λ kv, cat ["  "; kv.1; " — "; command_line (act_bin kv.2) (act_args kv.2); " (worker: "; act_worker kv.2; ")"])
     <$> sessions)).

(** ** Through the daemon *)
(** [as_i64]; the derived [Deserialize] of the replies. *)
Class JsonI64 (V : Type) := as_i64 : V → option Z.
Record RpcFailure := mkRpcFailure { rf_code : Z; rf_message : string }.
Record RpcSuccess (V : Type) := mkRpcSuccess { rs_result : V }.
Arguments mkRpcSuccess {V} rs_result.
Arguments rs_result {V} r.
Class CliDeserialize (V : Type) := {
  #[global] de_failure :: Deserialize V RpcFailure;
  #[global] de_success :: Deserialize V (RpcSuccess V);
  #[global] de_run_result :: Deserialize V SessionRunResult;
}.

(** The connection: the lines that the daemon writes, until it ends, and the
    requests that were written. *)
Record Connection (V : Type) := mkConnection { incoming : list string; requests : list (RpcRequest V) }.
Arguments mkConnection {V} incoming requests.
Arguments incoming {V} c.
Arguments requests {V} c.

(** How a command ends. *)
Inductive CliEnd : Type :=
| CliReturns
| CliFails (message : string)
| CliExits (code : Z)
| CliDirect.                      (* falls back to Matrix *)

Section daemon.
Context {V : Type} `{JsonValue V} `{JsonU64 V} `{JsonI64 V} `{JsonBuild V} `{JsonContainers V} `{JsonNumbers V}
  `{CliDeserialize V}.

(** The loop of [send_request], to the reply; what is not one is skipped. *)
Fixpoint await_reply (lines : list string) : result V string * list string :=
  match lines with
  | [] => (Err "daemon disconnected", [])
  | line :: lines =>
      let trimmed := from_bytes (trim (as_bytes line)) in
      if str_eqb trimmed "" then await_reply lines else
      match from_str trimmed with
      | Err e => (Err e, lines)
      | Ok value =>
          match get value "id" with
          | None => await_reply lines
          | Some _ =>
              match get value "error" with
              | Some _ =>
                  (let? e := de (T := RpcFailure) value in
                   Err (cat ["daemon error "; show (rf_code e); ": "; rf_message e]), lines)
              | None => (let? r := de (T := RpcSuccess V) value in Ok (rs_result r), lines)
              end
          end
      end
  end.
Definition send_request (method : string) (params : option V) (id : Z) (c : Connection V)
    : result V string * Connection V :=
  let '(r, rest) := await_reply (incoming c) in
  (r, mkConnection rest (requests c ++ [mkRpcRequest (IdNumber id) method params])).

Definition pointer2 (value : V) (k1 k2 : string) : option V := v ← get value k1; get v k2.

(** What one notification shows, and the exit code of the last one. *)
Definition show_notification (value : V) : list Shown * option (option Z) :=
  match get_str value "method" with
  | Some m =>
      if str_eqb m "session.output" then
        (match (v ← pointer2 value "params" "data"; as_str v) with Some data => [OnStdout data] | None => [] end, None)
      else if str_eqb m "session.result" then
        ((match (v ← pointer2 value "params" "status"; as_str v) with
          | Some status => [OnStderr (cat [status; NL])] | None => [] end)
         ++ (match (v ← pointer2 value "params" "tail"; as_str v) with
             | Some tail => if str_eqb tail "" then [] else [OnStderr (cat ["  reason: "; tail; NL])]
             | None => [] end),
         Some ((λ c, (wrap 32 (c + 2 ^ 31) - 2 ^ 31)%Z) <$> (v ← pointer2 value "params" "exit_code"; as_i64 v)))
      else ([], None)
  | None => ([], None)
  end.

(** The loop over notifications; [None] when the daemon goes first. *)
Fixpoint follow_session (lines : list string) : list Shown * option Z * list string :=
  match lines with
  | [] => ([], None, [])
  | line :: lines =>
      let trimmed := from_bytes (trim (as_bytes line)) in
      match (if str_eqb trimmed "" then Err "" else from_str trimmed) with
      | Err _ => follow_session lines
      | Ok value =>
          match show_notification value with
          | (shown, Some exit_code) => (shown, exit_code, lines)
          | (shown, None) => let '(rest, code, lines) := follow_session lines in (shown ++ rest, code, lines)
          end
      end
  end.

Definition run_params (r : RunArgs) : V :=
  json_object [("bin", json_string (ra_command r)); ("args", json_strings (ra_args r));
               ("detach", json_bool (ra_detach r)); ("interactive", json_bool (ra_interactive r));
               ("no_room_output", json_bool (ra_no_room_output r));
               ("timeout_seconds", json_option json_number (ra_timeout r));
               ("cwd", json_option json_string (ra_cwd r)); ("worker_room", json_option json_string (ra_worker_room r))].

(** [pretty]: [to_string_pretty]. *)
Definition via_daemon (pretty : V → result string string) (cmd : Commands) (c : Connection V)
    : list Shown * CliEnd * Connection V :=
  match cmd with
  | CmdRun r | CmdExec r =>
      let '(reply, c) := send_request "session.run" (Some (run_params r)) 1 c in
      match (let? v := reply in de (T := SessionRunResult) v) with
      | Err e => ([], CliFails e, c)
      | Ok run_result =>
          if ra_detach r then ([OnStdout (cat [rr_uuid run_result; NL])], CliReturns, c) else
          let '(shown, code, rest) := follow_session (incoming c) in
          (OnStderr (cat ["Session "; rr_uuid run_result; " submitted, waiting for output..."; NL]) :: shown,
           CliExits (default 1%Z code), mkConnection rest (requests c))
      end
  | CmdCancel uuid signal worker_room =>
      let params := json_object [("uuid", json_string uuid); ("signal", json_option json_string signal);
                                 ("worker_room", json_option json_string worker_room)] in
      let '(reply, c) := send_request "session.cancel" (Some params) 1 c in
      match reply with
      | Err e => ([], CliFails e, c)
      | Ok _ => ([OnStderr (cat ["Cancel sent for session "; uuid; NL])], CliReturns, c)
      end
  | CmdLs all worker_room =>
      let params := json_object [("all", json_bool all); ("worker_room", json_option json_string worker_room)] in
      let '(reply, c) := send_request "session.ls" (Some params) 1 c in
      match (let? v := reply in pretty v) with
      | Err e => ([], CliFails e, c)
      | Ok text => ([OnStdout (cat [text; NL])], CliReturns, c)
      end
  | CmdLogs uuid follow worker_room =>
      let params := json_object [("uuid", json_string uuid); ("follow", json_bool follow);
                                 ("worker_room", json_option json_string worker_room)] in
      let '(reply, c) := send_request "session.logs" (Some params) 1 c in
      match reply with
      | Err e => ([], CliFails e, c)
      | Ok result =>
          ((λ s, OnStdout (cat [s; NL])) <$> omap as_str (default [] (l ← get result "lines"; as_array l)), CliReturns, c)
      end
  | _ => ([], CliDirect, c)
  end.
End daemon.

(** ** Lemmas *)
(** Documented behaviour of [serde_json]: integers and null; a value is
    printed on one line and read back from it. *)
Class CliJsonLaws (V : Type) `{JsonValue V} `{JsonI64 V} `{JsonBuild V} `{JsonNumbers V} (to_string : V → string) : Prop := {
  as_i64_number n : (- 2 ^ 63 ≤ n < 2 ^ 63)%Z → as_i64 (json_number n) = Some n;
  as_i64_null : as_i64 json_null = None;
  as_str_null : as_str json_null = None;
  get_absent l k : k ∉ l.*1 → get (json_object l) k = None;
  printed_line v : trim (as_bytes (cat [to_string v; NL])) = as_bytes (to_string v);
  printed_not_empty v : to_string v ≠ "";
  printed_reads_back v : from_str (to_string v) = Ok v;
}.

Section shown.
Context {V : Type} `{JsonLaws V} `{JsonI64 V} (to_string : V → string) `{!CliJsonLaws V to_string}
  `{DaemonDeserialize V} `{CliDeserialize V} `{Base64}.

(** A line that the daemon writes. *)
Definition line_of (v : V) : string := cat [to_string v; NL].

Lemma line_of_trimmed v : from_bytes (trim (as_bytes (line_of v))) = to_string v.
Proof using All. unfold line_of. by rewrite printed_line, from_bytes_as_bytes. Qed.

Lemma params_field (a b : string * V) (l : list (string * V)) k v :
  NoDup (a.1 :: b.1 :: ["params"]) → NoDup l.*1 → (k, v) ∈ l →
  pointer2 (json_object [a; b; ("params", json_object l)]) "params" k = Some v.
Proof using All.
  intros Hnd Hl Hk. unfold pointer2. rewrite (get_object _ _ (json_object l)); [|done|set_solver]. simpl.
  by apply get_object.
Qed.

Lemma output_shown uuid text : show_notification (output_notification uuid text) = ([OnStdout text], None).
Proof using All.
  unfold show_notification, output_notification. rewrite (get_str_object _ _ "session.output"); [|apply (bool_decide_unpack _); reflexivity|set_solver].
  simpl. rewrite (params_field _ _ _ _ (json_string text));
    [|apply (bool_decide_unpack _); reflexivity|apply (bool_decide_unpack _); reflexivity|set_solver].
  simpl. by rewrite as_str_string.
Qed.

(** An [i32] that goes through JSON. *)
Definition i32 (n : Z) : Prop := (- 2 ^ 31 ≤ n < 2 ^ 31)%Z.
Lemma i32_wraps n : i32 n → (wrap 32 (n + 2 ^ 31) - 2 ^ 31)%Z = n.
Proof. intros Hn. unfold i32 in Hn. unfold wrap. rewrite Z.mod_small; lia. Qed.

Lemma result_shown uuid r :
  (∀ n, sr_exit_code r = Some n → i32 n) →
  ∃ shown, show_notification (result_notification uuid (sr_exit_code r) (format_result r) (sr_tail r)) =
    (OnStderr (cat [format_result r; NL]) :: shown, Some (sr_exit_code r)) ∧ stdout_of shown = "".
Proof using All.
  intros Hi. unfold show_notification, result_notification.
  rewrite (get_str_object _ _ "session.result"); [|apply (bool_decide_unpack _); reflexivity|set_solver]. simpl.
  set (l := [_; _; _; _] : list (string * V)).
  assert (Hf : ∀ a b k v, NoDup (a.1 :: b.1 :: ["params"]) → (k, v) ∈ l →
    pointer2 (json_object [a; b; ("params", json_object l)]) "params" k = Some v).
  { intros a b k v Hab Hk. apply params_field; [done|apply (bool_decide_unpack _); reflexivity|done]. }
  rewrite (Hf _ _ "status" (json_string (format_result r))); [|apply (bool_decide_unpack _); reflexivity|set_solver].
  rewrite (Hf _ _ "tail" (json_option json_string (sr_tail r))); [|apply (bool_decide_unpack _); reflexivity|set_solver].
  rewrite (Hf _ _ "exit_code" (json_option json_number (sr_exit_code r))); [|apply (bool_decide_unpack _); reflexivity|set_solver].
  simpl. rewrite as_str_string. simpl. eexists. split.
  - f_equal. f_equal. destruct (sr_exit_code r) as [n|]; simpl; [|by rewrite as_i64_null].
    specialize (Hi n eq_refl). rewrite as_i64_number by (unfold i32 in Hi; lia). simpl. by rewrite i32_wraps.
  - destruct (sr_tail r) as [t|]; simpl; [rewrite as_str_string; by destruct (str_eqb t "")|by rewrite as_str_null].
Qed.

Lemma follow_line v lines :
  follow_session (line_of v :: lines) =
  match show_notification v with
  | (shown, Some exit_code) => (shown, exit_code, lines)
  | (shown, None) => let '(rest, code, lines) := follow_session lines in (shown ++ rest, code, lines)
  end.
Proof using All.
  cbn [follow_session]. rewrite line_of_trimmed.
  destruct (str_eqb (to_string v) "") eqn:E; [apply str_eqb_true in E; by apply printed_not_empty in E|].
  by rewrite printed_reads_back.
Qed.

Definition exit_codes_fit (es : list (IncomingClientEvent V)) : Prop :=
  ∀ e r n, e ∈ es → final_result e = Some r → sr_exit_code r = Some n → i32 n.

Lemma first_copies_sub e (es : list (IncomingClientEvent V)) : e ∈ first_copies es → e ∈ es.
Proof.
  revert e. induction es as [|x es IH]; intros e; [done|]. simpl.
  intros [->|[_ He]%list_elem_of_filter]%elem_of_cons; [apply list_elem_of_here|].
  apply list_elem_of_further. by apply IH.
Qed.

(** Following what the follower of a session notifies. *)
Lemma follow_notifications uuid es :
  exit_codes_fit es →
  let '(shown, code, _) := follow_session (line_of <$> omap (notification_of uuid) (upto_result es)) in
  stdout_of shown = cat (omap output_text (upto_result es)) ∧
  code = (r ← head (omap final_result (upto_result es)); sr_exit_code r).
Proof using All.
  induction es as [|e es IH]; intros Hfit; [done|].
  assert (Hes : exit_codes_fit es) by (intros e' r n He'; eapply Hfit; by apply list_elem_of_further).
  specialize (IH Hes). simpl upto_result. destruct (is_result e) eqn:Er.
  - destruct e as [| | |i u c]; try done. cbn [omap list_omap]. unfold notification_of; simpl.
    destruct (de c) as [r|] eqn:Ed; [|done]. cbn [fmap list_fmap]. rewrite follow_line.
    destruct (result_shown uuid r) as (shown & -> & Hs); [|split; [exact Hs|done]].
    intros n Hn. eapply Hfit; [apply list_elem_of_here| |exact Hn]. simpl. by rewrite Ed.
  - cbn [omap list_omap]. unfold notification_of at 1.
    assert (Hf : final_result e = None) by (by destruct e). rewrite Hf.
    destruct (output_text e) as [text|]; [|exact IH].
    cbn [fmap list_fmap]. rewrite follow_line, output_shown.
    destruct (follow_session _) as [[shown code] rest]. destruct IH as [IH ->]. split; [|done].
    change (String.append text (stdout_of shown) = String.append text (cat (omap output_text (upto_result es)))).
    by rewrite IH.
Qed.

(** The reply of [session.run]. *)
Definition submitted_value (uuid : string) : V :=
  json_object [("uuid", json_string uuid); ("status", json_string "submitted")].

Lemma await_response v rest :
  de (T := RpcSuccess V) (reply_value (RpcResponse (IdNumber 1) v)) = Ok (mkRpcSuccess v) →
  await_reply (line_of (reply_value (RpcResponse (IdNumber 1) v)) :: rest) = (Ok v, rest).
Proof using All.
  intros Hde. cbn [await_reply]. rewrite line_of_trimmed.
  destruct (str_eqb _ "") eqn:E; [apply str_eqb_true in E; by apply printed_not_empty in E|].
  rewrite printed_reads_back. simpl in Hde |- *.
  rewrite (get_object _ "id" (json_number 1)); [|apply (bool_decide_unpack _); reflexivity|set_solver].
  rewrite get_absent; [|apply (bool_decide_unpack _); reflexivity]. by rewrite Hde.
Qed.

(** C18: from the room to the terminal. The command [run] through the daemon,
    when the daemon accepted it and its follower of the session wrote what it
    was to write, sends the request, prints on standard output exactly the
    texts of the outputs of the session, each once and in order, up to its
    first result, and exits with the exit code of that result, or with 1 when
    there is none. *)
Theorem run_shows_session pretty (r : RunArgs) uuid received t reqs :
  ra_detach r = false →
  de (T := RpcSuccess V) (reply_value (RpcResponse (IdNumber 1) (submitted_value uuid))) = Ok (mkRpcSuccess (submitted_value uuid)) →
  de (T := SessionRunResult) (submitted_value uuid) = Ok (mkRunResult uuid "submitted") →
  exit_codes_fit (received_events received) →
  let lines := line_of (reply_value (RpcResponse (IdNumber 1) (submitted_value uuid)))
               :: (line_of <$> notified (tail_session uuid received (mkTail ∅ [] t)).1) in
  let '(shown, how, c) := via_daemon pretty (CmdRun r) (mkConnection lines reqs) in
  stdout_of shown = cat (omap output_text (session_events uuid received)) ∧
  how = CliExits (default 1%Z (res ← head (omap final_result (session_events uuid received)); sr_exit_code res)) ∧
  requests c = reqs ++ [mkRpcRequest (IdNumber 1) "session.run" (Some (run_params r))].
Proof using All.
  intros Hd Hs Hr Hfit lines. unfold via_daemon, send_request. cbn [incoming requests]. unfold lines.
  rewrite await_response by done. cbn [result_bind]. rewrite Hr, Hd. cbn [incoming requests rr_uuid].
  rewrite tail_session_notified.
  assert (Hfit' : exit_codes_fit (first_copies (filter (λ e, concerns uuid e = true) (received_events received)))).
  { intros e res n He. apply Hfit. apply first_copies_sub in He. by apply list_elem_of_filter in He as [_ He]. }
  pose proof (follow_notifications uuid _ Hfit') as Hf. unfold session_events.
  destruct (follow_session _) as [[shown code] rest]. destruct Hf as [Hsh ->]. split; [exact Hsh|done].
Qed.
End shown.

(** ** Witness: a session with two outputs *)
#[local] Existing Instances toy_json toy_u64 toy_containers toy_build toy_numbers toy_base64 toy_json_laws.
#[local] Instance toy_i64 : JsonI64 TJson := λ t, match t with GenLeaf (inr z) => Some z | _ => None end.

Lemma trim_two_symbols (l : Bytes) : (∀ b, b ∈ l → b = Byte.x00 ∨ b = Byte.x01) → trim (l ++ [Byte.x0a]) = l.
Proof.
  assert (Hfix : ∀ w1 w2 w3 (l : Bytes), (∀ b, b ∈ l → w1 b = false ∧ ∀ c d, w2 b c = false ∧ w3 b c d = false) →
    trim_by w1 w2 w3 l = l).
  { intros w1 w2 w3 [|a [|b [|c k]]] Hw; simpl; [done|..];
      (destruct (Hw a) as [-> Ha]; [apply list_elem_of_here|]); [done|..]; by rewrite ?(proj1 (Ha b Byte.x00)), ?(proj1 (Ha b c)), ?(proj2 (Ha b c)). }
  intros Hl. unfold trim, trim_start. destruct l as [|a l]; [done|].
  assert (Ha : trim_by ws1 ws2 ws3 ((a :: l) ++ [Byte.x0a]) = (a :: l) ++ [Byte.x0a]).
  { assert (Hw1 : ws1 a = false ∧ ∀ c d, ws2 a c = false ∧ ws3 a c d = false)
      by (destruct (Hl a (list_elem_of_here _ _)) as [-> | ->]; done).
    simpl. destruct Hw1 as [-> Hc]. destruct (l ++ [Byte.x0a]) as [|b [|c k]]; [done|..];
      by rewrite ?(proj1 (Hc b Byte.x00)), ?(proj2 (Hc b c)). }
  rewrite Ha. unfold trim_end. rewrite reverse_snoc. cbn [trim_by ws1].
  rewrite Hfix; [apply reverse_involutive|]. intros b [Hb|Hb]%elem_of_reverse%Hl; subst; (split; [done|]);
    intros c d; (split; [by destruct c|]); destruct d; try done; by destruct c.
Qed.

Lemma pos_bytes_symbols p b : b ∈ pos_bytes p → b = Byte.x00 ∨ b = Byte.x01.
Proof.
  induction p as [p IH|p IH|]; simpl; [intros [->|Hb]%elem_of_cons; auto..|by intros Hb%elem_of_nil].
Qed.

Lemma toy_cli_laws : CliJsonLaws TJson t_print.
Proof.
  split; try done.
  - intros l k Hk. simpl. unfold t_get. rewrite t_fields_obj. simpl.
    induction l as [|[k' v'] l IH]; [done|]. apply not_elem_of_cons in Hk as [Hne Hk]. simpl.
    replace (str_eqb k' k) with false by (symmetry; apply str_eqb_false; intros ->; by apply Hne). by apply IH.
  - intros v. unfold t_print, NL. simpl. rewrite !as_bytes_append, !as_bytes_from_bytes.
    apply trim_two_symbols, pos_bytes_symbols.
  - intros v Hv. pose proof (t_parse_print v) as Hp. rewrite Hv in Hp. by vm_compute in Hp.
  - apply t_parse_print.
Qed.
#[local] Existing Instance toy_cli_laws.

#[local] Instance toy_cli_deserialize : CliDeserialize TJson := {|
  de_failure _ := Err "missing field `code`";
  de_success v := match get v "result" with Some r => Ok (mkRpcSuccess r) | None => Err "missing field `result`" end;
  de_run_result v := match get_str v "uuid", get_str v "status" with
                     | Some u, Some s => Ok (mkRunResult u s) | _, _ => Err "missing field" end |}.
#[local] Instance toy_events_deserialize : DaemonDeserialize TJson := {|
  de_rpc_request _ := Err ""; de_notification _ := Err ""; de_run _ := Err ""; de_cancel _ := Err "";
  de_logs _ := Err ""; de_attach _ := Err ""; de_subscribe _ := Err ""; de_unsubscribe _ := Err "";
  de_add_transport _ := Err ""; de_remove_transport _ := Err "";
  de_output v := match get_str v "data" with Some d => Ok (mkOutput "u" "w" Stdout d 0 0) | None => Err "" end;
  de_result v := match get_uint v "exit_code" with Some c => Ok (mkSessionResult "u" "w" Failed (Some c) 1 (Some "oops"))
                 | None => Err "" end |}.

Definition toy_received : list (Received TJson) :=
  [RecvEvents [ClSessionOutput "$1" "u" (TObj [("data", TStr "a")]); ClSessionOutput "$2" "v" (TObj [("data", TStr "x")])];
   RecvLagged 3;
   RecvEvents [ClSessionOutput "$1" "u" (TObj [("data", TStr "a")]); ClSessionOutput "$3" "u" (TObj [("data", TStr "b")]);
               ClSessionResult "$4" "u" (TObj [("exit_code", TNum 7)]); ClSessionOutput "$5" "u" (TObj [("data", TStr "c")])]].
Definition toy_run : RunArgs := mkRunArgs "sh" [] false false false None None None false.

Lemma run_shows_session_witness :
  let lines := line_of t_print (reply_value (RpcResponse (IdNumber 1) (submitted_value "u")))
               :: (line_of t_print <$> notified (tail_session "u" toy_received (mkTail ∅ [] ∅)).1) in
  let '(shown, how, c) := via_daemon (λ v, Ok (t_print v)) (CmdRun toy_run) (mkConnection lines []) in
  stdout_of shown = "ab" ∧ how = CliExits 7 ∧
  requests c = [mkRpcRequest (IdNumber 1) "session.run" (Some (run_params toy_run))].
Proof.
  intros lines.
  assert (Hfit : exit_codes_fit (received_events toy_received)).
  { intros e r n He Hr Hn. vm_compute in He.
    repeat (apply elem_of_cons in He as [->|He];
      [vm_compute in Hr; (discriminate || (injection Hr as <-; injection Hn as <-; vm_compute; split; [discriminate|reflexivity]))|]).
    by apply elem_of_nil in He. }
  pose proof (run_shows_session t_print (λ v, Ok (t_print v)) toy_run "u" toy_received ∅ []
                eq_refl eq_refl eq_refl Hfit) as Hrun.
  cbv zeta in Hrun. fold lines in Hrun. destruct (via_daemon _ _ _) as [[shown how] c].
  destruct Hrun as (Hs & Hh & Hq). split_and!.
  - rewrite Hs. vm_compute. reflexivity.
  - rewrite Hh. vm_compute. reflexivity.
  - exact Hq.
Defined.
