(* ===== verification/ClientDirect.v ===== *)
(** * ClientDirect: commands without the daemon
    ([mxdx-client/main.rs], [run_direct]; [cli/connect.rs])

    Each command connects to Matrix by itself. What is printed and the outside
    are the state of the computation; it returns, fails with a message, or
    leaves with an exit code. *)
From S2P Require Import Prelude Text Instants Json Fabric SessionEvents Signaling P2PCrypto MatrixTypes Effects Rest MatrixClient MatrixRooms Liveness MatrixDelivery SessionJson ClientSessions ClientProtocol RoomEvents ClientDaemon Config ClientCli Toys.
From stdpp Require Import options.

Record Terminal (W : Type) := mkTerminal { tm_world : W; tm_shown : list Shown }.
Arguments mkTerminal {W}.
Arguments tm_world {W} t.
Arguments tm_shown {W} t.

Section direct.
Context {W V : Type} `{MatrixSdk W V} `{JsonValue V} `{JsonU64 V} `{JsonBuild V} `{JsonContainers V}
  `{JsonNumbers V} `{HttpServer W V} `{RestExternals} `{MultiOps W V} `{Base64} `{DaemonOutside W}
  `{DaemonDeserialize V} `{!Deserialize V ActiveSessionState}.
(** The orders of maps; how many characters a string has. *)
Variable telemetry_list : gmap string V → list (string * V).
Variable env_entries : gmap string string → list (string * string).
Variable char_count : string → nat.
(** The configuration of the user; the connection of [MultiHsClient]. *)
Variable load : Io W string ClientRuntimeConfig.
Variable connect_accounts : list MultiHs.ServerAccount → bool → Io W string (list bool).
Variable remove_passwords : Io W string ().
Variable keep_passwords : W → bool.
Local Notation M := (Io (Terminal W) CliEnd).

Definition shows (s : Shown) : M () := λ t, (Returns (), mkTerminal (tm_world t) (tm_shown t ++ [s])).
Definition print (text : string) : M () := shows (OnStdout text).
Definition println (text : string) : M () := print (cat [text; NL]).
Definition eprintln (text : string) : M () := shows (OnStderr (cat [text; NL])).
Definition exit {A} (code : Z) : M A := raise (CliExits code).

(** [?]: a failure of the outside ends the command. *)
Definition try_world {A} (m : Io W string A) : M A := λ t,
  match m (tm_world t) with
  | (Returns x, w) => (Returns x, mkTerminal w (tm_shown t))
  | (Raises e, w) => (Raises (CliFails e), mkTerminal w (tm_shown t))
  | (Panics, w) => (Panics, mkTerminal w (tm_shown t))
  end.

Definition resolve_worker_room (cli_room : option string) (config : ClientRuntimeConfig) (has_room_id : bool)
    : result string string :=
  match cli_room, cf_default_worker_room (cc_client config), has_room_id with
  | Some room, _, _ | None, Some room, _ => Ok room
  | None, None, true => Ok "direct"
  | None, None, false =>
      Err "No worker room specified. Use --worker-room or set default_worker_room in client.toml"
  end.

Definition cli_args (o : CliOptions) (worker_room : option string) (timeout : option Z) (interactive no_room_output : bool)
    : ClientArgs :=
  mkClientArgs worker_room None timeout None interactive no_room_output (o_homeserver o) (o_username o) (o_password o)
    (o_force_new_device o).

(** The start that the commands share: the configuration and its accounts. *)
Definition configured (args : ClientArgs) : M ClientRuntimeConfig :=
  base ← try_world load;
  let config := client_overrides args base in
  if bool_decide (client_accounts config = [])
  then raise (CliFails "No Matrix accounts configured (use --homeserver/--username/--password or config file)")
  else mret config.

Definition connected (o : CliOptions) (config : ClientRuntimeConfig) (room_name : string) : M string :=
  try_world (connect_multi connect_accounts remove_passwords keep_passwords (client_accounts config) room_name
               (o_room_id o) (cc_force_new_device config)).

Definition opened (o : CliOptions) (args : ClientArgs) (worker_room : option string) : M (ClientRuntimeConfig * string * string) :=
  config ← configured args;
  room_name ← (match resolve_worker_room worker_room config (bool_decide (is_Some (o_room_id o))) with
               | Ok name => mret name
               | Err e => raise (CliFails e)
               end : M string);
  room ← connected o config room_name;
  mret (config, room_name, room).

(** *** [run] and [exec] *)
(** Is there a worker, is it alive, can it run this? Each refusal has its
    exit code. *)
Definition check_worker (room_name room command : string) : M () :=
  now ← observe (λ t, telemetry_clock (tm_world t));
  telemetry_events ← try_world (read_state_events now telemetry_list room WORKER_TELEMETRY);
  if forallb (λ e, null_or_empty e.2) telemetry_events then
    eprintln (cat ["Error: No worker room found for '"; room_name; "'. Has the worker started and invited this client?"]) ;;
    exit 10
  else
  now ← observe (λ t, telemetry_clock (tm_world t));
  match summarize_worker_liveness now telemetry_events with
  | None => panic
  | Some summary =>
      if decide (online summary = 0)%Z then
        eprintln (cat ["Error: No live worker in room '"; room_name; "' (";
                       match stale_details summary with
                       | Some age => cat ["last seen "; show (age / 1000000000)%Z; "s ago"]
                       | None => if decide (0 < offline summary)%Z then "Worker is offline" else "No telemetry found"
                       end; ")"]) ;;
        exit 11
      else
      now ← observe (λ t, telemetry_clock (tm_world t));
      match find_capable_worker command now telemetry_events with
      | None => panic
      | Some None => eprintln (cat ["Error: No worker supports command '"; command; "'"]) ;; exit 12
      | Some (Some _) => mret ()
      end
  end.

(** One batch of a sync: what was seen, and the exit code of the last result.
    A result ends the batch. *)
Fixpoint tail_batch (uuid : string) (events : list (IncomingClientEvent V)) (seen : gset string) (exit_code : option Z)
    : M (gset string * option Z) :=
  match events with
  | [] => mret (seen, exit_code)
  | e :: events =>
      let skip session_uuid event_id :=
        negb (str_eqb session_uuid uuid) || (negb (str_eqb event_id "") && bool_decide (event_id ∈ seen)) in
      let seen_with event_id := if str_eqb event_id "" then seen else {[event_id]} ∪ seen in
      match e with
      | ClSessionOutput event_id session_uuid content =>
          if skip session_uuid event_id then tail_batch uuid events seen exit_code else
          match (let? output := de content in format_output output) with
          | Ok text => print text
          | Err _ => mret ()
          end ;;
          tail_batch uuid events (seen_with event_id) exit_code
      | ClSessionResult event_id session_uuid content =>
          if skip session_uuid event_id then tail_batch uuid events seen exit_code else
          match de (T := SessionResult) content with
          | Ok result => eprintln (format_result result) ;; mret (seen_with event_id, sr_exit_code result)
          | Err _ => mret (seen_with event_id, exit_code)
          end
      | _ => tail_batch uuid events seen exit_code
      end
  end.

(** The loop over syncs, for so many rounds; [None] when it goes on. *)
Fixpoint tail_loop (fuel : nat) (room uuid : string) (seen : gset string) (exit_code : option Z) : M (option (option Z)) :=
  match fuel with
  | 0 => mret None
  | S fuel =>
      events ← try_world (sync_events_mut room);
      '(seen, exit_code) ← tail_batch uuid events seen exit_code;
      match exit_code with
      | Some code => mret (Some (Some code))
      | None => tail_loop fuel room uuid seen exit_code
      end
  end.

(** [None]: still following after [fuel] syncs. *)
Definition direct_run (fuel : nat) (o : CliOptions) (r : RunArgs) : M (option ()) :=
  '(config, room_name, room) ←
    opened o (cli_args o (ra_worker_room r) (ra_timeout r) (ra_interactive r) (ra_no_room_output r)) (ra_worker_room r);
  check_worker room_name room (ra_command r) ;;
  sender_id ← observe (λ t, multi_user_id (tm_world t));
  task_uuid ← (λ t, let '(u, w) := new_uuid (tm_world t) in (Returns u, mkTerminal w (tm_shown t)));
  let s := cf_session (cc_client config) in
  let task := build_task task_uuid (ra_command r) (ra_args r) (ra_interactive r) (ra_no_room_output r)
                (or_keep (ra_timeout r) (sd_timeout_seconds s)) (sd_heartbeat_interval s) sender_id (ra_cwd r) in
  try_world (post_event_mut room SESSION_TASK (task_value env_entries task)) ;;
  if ra_detach r then println task_uuid ;; mret (Some ()) else
  eprintln (cat ["Session "; task_uuid; " submitted, waiting for output..."]) ;;
  code ← tail_loop fuel room task_uuid ∅ None;
  match code with
  | None => mret None
  | Some code => exit (default 1%Z code)
  end.

(** *** [attach], [ls], [logs], [cancel] *)
Definition dm_room_of (uuid : string) (e : IncomingClientEvent V) : option string :=
  match e with
  | ClSessionStart _ session_uuid content => if str_eqb session_uuid uuid then get_str content "dm_room_id" else None
  | _ => None
  end.

Definition direct_attach (o : CliOptions) (uuid : string) (interactive : bool) : M () :=
  config ← configured (cli_args o None None interactive false);
  let room_name := match cf_default_worker_room (cc_client config), o_room_id o with
                   | Some room, _ => room
                   | None, Some _ => "direct"
                   | None, None => "default"
                   end in
  room ← connected o config room_name;
  events ← try_world (sync_events_mut room);
  match head (omap (dm_room_of uuid) events) with
  | Some dm_id =>
      eprintln (cat ["Attaching to session "; uuid; " in DM room "; dm_id; "..."]) ;;
      eprintln "Interactive terminal attach not yet fully implemented." ;;
      eprintln "Press Ctrl-] to detach."
  | None =>
      eprintln (cat ["No interactive DM room found for session "; uuid; ". Falling back to thread tail mode."])
  end.

(** One row of [ls]; the uuid is looked for in the content. *)
Definition active_entry (value : V) : option SessionEntry :=
  match de (T := ActiveSessionState) value with
  | Ok state => Some (from_active (default "unknown" (get_str value "session_uuid")) state)
  | Err _ => None
  end.

Definition direct_ls (o : CliOptions) (all : bool) (worker_room : option string) : M () :=
  '(_, _, room) ← opened o (cli_args o worker_room None false false) worker_room;
  try_world (mx MatrixClient.sync_once) ;;
  now ← observe (λ t, telemetry_clock (tm_world t));
  active ← try_world (read_state_events now telemetry_list room "org.mxdx.session.active");
  (if all then
     now ← observe (λ t, telemetry_clock (tm_world t));
     try_world (read_state_events now telemetry_list room "org.mxdx.session.completed") ;; mret ()
   else mret ()) ;;
  match format_table char_count (omap active_entry active.*2) with
  | Some table => println table
  | None => panic
  end.

Definition output_of (uuid : string) (e : IncomingClientEvent V) : option SessionOutput :=
  match e with
  | ClSessionOutput _ session_uuid content =>
      if str_eqb session_uuid uuid then match de content with Ok output => Some output | Err _ => None end else None
  | _ => None
  end.

(** [true] when the session completed. *)
Fixpoint follow_batch (uuid : string) (events : list (IncomingClientEvent V)) : M bool :=
  match events with
  | [] => mret false
  | e :: events =>
      match e with
      | ClSessionOutput _ session_uuid content =>
          if negb (str_eqb session_uuid uuid) then follow_batch uuid events else
          match (let? output := de content in format_output output) with
          | Ok text => print text
          | Err _ => mret ()
          end ;;
          follow_batch uuid events
      | ClSessionResult _ session_uuid _ =>
          if str_eqb session_uuid uuid then eprintln "Session completed." ;; mret true else follow_batch uuid events
      | _ => follow_batch uuid events
      end
  end.
Fixpoint follow_loop (fuel : nat) (room uuid : string) : M (option ()) :=
  match fuel with
  | 0 => mret None
  | S fuel =>
      events ← try_world (sync_events_mut room);
      completed ← follow_batch uuid events;
      if completed : bool then mret (Some ()) else follow_loop fuel room uuid
  end.

Definition direct_logs (fuel : nat) (o : CliOptions) (uuid : string) (follow : bool) (worker_room : option string)
    : M (option ()) :=
  '(_, _, room) ← opened o (cli_args o worker_room None false false) worker_room;
  events ← try_world (sync_events_mut room);
  assembled ← (match reassemble_output_string (omap (output_of uuid) events) with
               | Ok text => mret text
               | Err e => raise (CliFails e)
               end : M string);
  print assembled ;;
  if follow then eprintln "(follow mode: watching for new output...)" ;; follow_loop fuel room uuid
  else mret (Some ()).

Definition direct_cancel (o : CliOptions) (uuid : string) (signal worker_room : option string) : M () :=
  '(_, _, room) ← opened o (cli_args o worker_room None false false) worker_room;
  match signal with
  | Some sig =>
      try_world (post_event_mut room SESSION_SIGNAL (signal_value (build_signal uuid sig))) ;;
      eprintln (cat ["Signal "; sig; " sent to session "; uuid])
  | None =>
      try_world (post_event_mut room SESSION_CANCEL (cancel_value (build_cancel uuid None None))) ;;
      eprintln (cat ["Cancel sent for session "; uuid])
  end.
End direct.

(** ** Spawning the daemon ([cli/connect.rs]) *)
Class DaemonSpawn (W : Type) := {
  try_connect : W → bool * W;                         (* the socket of the profile *)
  pid_file : W → option (option string);              (* there, and readable *)
  process_alive : Z → W → bool;
  remove_pid_file : W → W;
  remove_socket : W → W;
  spawn_sleep : Duration → W → W;
  spawn_daemon : Io W string ();
}.

Section spawn.
Context {W : Type} `{DaemonSpawn W}.
Local Notation M := (Io W string).

Definition attempt_connect : M bool := λ w, let '(ok, w) := try_connect w in (Returns ok, w).
Definition step (f : W → W) : M () := λ w, (Returns (), f w).

(** [parse::<u32>()]. *)
Definition parse_u32 (l : Bytes) : option Z := n ← parse_u64 l; if decide (n < 2 ^ 32)%Z then Some n else None.

(** What a pid file says: [true] when the daemon answers after all. *)
Definition check_pid_file : M bool :=
  file ← observe pid_file;
  match file with
  | None => mret false
  | Some text =>
      match parse_u32 (trim (as_bytes (default "" text))) with
      | None => mret false
      | Some pid =>
          alive ← observe (process_alive pid);
          if negb alive then step remove_pid_file ;; step remove_socket ;; mret false
          else step (spawn_sleep (from_millis 500)) ;; attempt_connect
      end
  end.

Fixpoint poll_socket (n : nat) : M () :=
  match n with
  | 0 => raise "daemon failed to start within 10 seconds"
  | S n =>
      step (spawn_sleep (from_millis 100)) ;;
      ok ← attempt_connect;
      if ok : bool then mret () else poll_socket n
  end.

Definition connect_or_spawn : M () :=
  ok ← attempt_connect;
  if ok : bool then mret () else
  ok ← check_pid_file;
  if ok : bool then mret () else
  spawn_daemon ;;
  poll_socket 100.
End spawn.

(** ** Properties *)
Section direct_theorems.
Context {W V : Type} `{MatrixSdk W V} `{JsonValue V} `{JsonU64 V} `{JsonBuild V} `{JsonContainers V}
  `{JsonNumbers V} `{HttpServer W V} `{RestExternals} `{MultiOps W V} `{Base64} `{DaemonOutside W}
  `{DaemonDeserialize V}.

(** No result of the session in the batch carries an exit code. *)
Definition without_exit_code (uuid : string) (events : list (IncomingClientEvent V)) : Prop :=
  ∀ event_id content r, ClSessionResult event_id uuid content ∈ events → de content = Ok r → sr_exit_code r = None.

Lemma tail_batch_without uuid events seen (t : Terminal W) :
  without_exit_code uuid events → ∃ seen' t', tail_batch uuid events seen None t = (Returns (seen', None), t') ∧ tm_world t' = tm_world t.
Proof.
  revert seen t. induction events as [|e events IH]; intros seen t Hw; [by do 2 eexists|].
  assert (Hw' : without_exit_code uuid events) by (intros i c r He; eapply Hw; by apply list_elem_of_further).
  destruct e as [i u c|i u c|i u c|i u c]; simpl; try by apply IH.
  - destruct (negb _ || _) eqn:Hs; [by apply IH|]. destruct (result_bind _ _) as [text|].
    + unfold mbind, Io_bind, print, shows.
      destruct (IH (if str_eqb i "" then seen else {[i]} ∪ seen) (mkTerminal (tm_world t) (tm_shown t ++ [OnStdout text])) Hw')
        as (seen' & t' & -> & Ht). by eexists _, _.
    + by apply IH.
  - destruct (negb _ || _) eqn:Hs; [by apply IH|]. apply orb_false_iff in Hs as [Hu _]. apply negb_false_iff, str_eqb_true in Hu. subst u.
    destruct (de c) as [r|] eqn:Ed; [|by eexists _, _]. unfold mbind, Io_bind, eprintln, shows. simpl.
    rewrite (Hw i c r (list_elem_of_here _ _) Ed). by eexists _, _.
Qed.

(** A session that ends without an exit code is followed for ever. A
    client that runs a command without the daemon prints the final result of
    its session, and goes on: as long as the syncs bring no result of the
    session that carries an exit code, the command neither returns nor exits,
    however many rounds it makes. *)
Theorem direct_run_needs_exit_code fuel room uuid seen (t : Terminal W) :
  (∀ w events w', sync_events_mut room w = (Returns events, w') → without_exit_code uuid events) →
  match tail_loop fuel room uuid seen None t with
  | (Returns (Some _), _) | (Raises (CliExits _), _) | (Raises CliReturns, _) => False
  | _ => True
  end.
Proof.
  intros Hw. revert seen t. induction fuel as [|fuel IH]; intros seen t; [done|]. simpl.
  unfold mbind at 1, Io_bind at 1, try_world. specialize (Hw (tm_world t)).
  destruct (sync_events_mut room (tm_world t)) as [[events|e|] w'] eqn:Es; [|done..].
  destruct (tail_batch_without uuid events seen (mkTerminal w' (tm_shown t)) (Hw _ _ eq_refl)) as (seen' & t' & Hb & _).
  unfold mbind at 1, Io_bind at 1. rewrite Hb. apply IH.
Qed.
End direct_theorems.

(** ** Witness: a worker that reports success without an exit code *)
#[local] Existing Instances toy_json toy_u64 toy_containers toy_build toy_numbers toy_base64.
Definition silent_result : SessionResult := mkSessionResult "u" "w" Success None 1 None.
Definition silent_event : TJson :=
  TObj [("type", TStr SESSION_RESULT); ("content", TObj [("session_uuid", TStr "u")])].
#[local] Instance silent_ops : MultiOps Z TJson := {|
  multi_sync_once := mret (); multi_join_room _ := mret (); multi_wait_for_key_exchange _ _ := mret ();
  multi_find_launcher_space _ := mret None; multi_bootstrap_and_sync_trust _ := mret ();
  multi_send_event _ _ := mret "$1"; multi_sync_and_collect_events _ _ := λ n, (Returns [silent_event], (n + 1)%Z);
  multi_user_id _ := "@c:x" |}.
#[local] Instance silent_deserialize : DaemonDeserialize TJson := {|
  de_rpc_request _ := Err ""; de_notification _ := Err ""; de_run _ := Err ""; de_cancel _ := Err "";
  de_logs _ := Err ""; de_attach _ := Err ""; de_subscribe _ := Err ""; de_unsubscribe _ := Err "";
  de_add_transport _ := Err ""; de_remove_transport _ := Err ""; de_output _ := Err ""; de_result _ := Ok silent_result |}.
