(* ===== verification/P2PIntegration.v ===== *)
(** * P2PIntegration: peer-to-peer sending beside Matrix
    ([mxdx-worker/p2p_integration.rs], [mxdx-client/p2p_integration.rs],
    [mxdx-p2p/transport/matrix_signer.rs])

    A payload goes to the queue of the transport or, when that refuses, to the
    room; the worker and the client have the same code but for the flag
    [--no-p2p]. The signer and the key source of the handshake take the keys
    of Matrix devices. *)
From S2P Require Import Prelude Text Json Glare Channel Signaling P2PCrypto Idle P2PState Verify Driver WorkerBatch MatrixTypes Effects Rest MatrixClient Config Toys.
From stdpp Require Import options.

(** ** The transport of a session *)
(** What [P2PTransport] shares with its task: the snapshot of the state, the
    queues, whether the task still listens, and how long its queue may be. *)
Record P2PTransport := mkTransport {
  tr_snapshot : P2PStateSnapshot; tr_alive : bool; tr_depth : nat; tr_mailboxes : Mailboxes }.
Definition no_mail : Mailboxes := mkMailboxes false 0 [] [] [].
Definition spawn_transport (cfg : P2PTransportConfig) : P2PTransport :=
  mkTransport (snapshot_from Idle) true (outbound_queue_depth cfg) no_mail.
Definition transport_send (event_type : string) (payload : Bytes) (t : P2PTransport) : SendOutcome * P2PTransport :=
  let '(o, mb) := try_send (tr_alive t) (tr_depth t) (mkOutbound event_type payload) (tr_snapshot t) (tr_mailboxes t) in
  (o, mkTransport (tr_snapshot t) (tr_alive t) (tr_depth t) mb).

(** [WorkerP2pSession] and [ClientP2pSession]. *)
Record P2pSession := mkP2pSession { transport : option P2PTransport }.
Definition disabled : P2pSession := mkP2pSession None.
Definition is_enabled (s : P2pSession) : bool := bool_decide (is_Some (transport s)).
Definition session_state (s : P2pSession) : option P2PStateSnapshot := tr_snapshot <$> transport s.

Definition transport_config (cfg : P2pConfig) (our_user_id our_device_id room_id : string) : P2PTransportConfig :=
  let base := config_new our_user_id our_device_id room_id in
  mkConfig (our_user_id) our_device_id room_id (session_uuid base) (from_secs (p2p_idle_timeout_seconds cfg))
    (outbound_queue_depth base) (inbound_queue_depth base).

(** The worker passes no [--no-p2p]. *)
Definition new_if_enabled (cfg : P2pConfig) (no_p2p_cli : bool) (our_user_id our_device_id room_id : string)
    : option P2pSession :=
  if negb (p2p_enabled cfg) || no_p2p_cli then None
  else Some (mkP2pSession (Some (spawn_transport (transport_config cfg our_user_id our_device_id room_id)))).

Definition try_send_p2p (event_type : string) (payload : Bytes) (s : P2pSession) : SendOutcome * P2pSession :=
  match transport s with
  | None => (FallbackToMatrix, s)
  | Some t => let '(o, t) := transport_send event_type payload t in (o, mkP2pSession (Some t))
  end.

Definition batch_window_for_p2p_state (snap : option P2PStateSnapshot) : Duration :=
  match snap with
  | Some s => if snap_is_open s then P2P_OPEN_BATCH_WINDOW else DEFAULT_BATCH_WINDOW
  | None => DEFAULT_BATCH_WINDOW
  end.

(** ** One entry point for a payload *)
Section sending.
Context {W V : Type} `{MatrixSdk W V} `{JsonValue V} `{JsonU64 V} `{JsonBuild V} `{JsonContainers V}
  `{JsonNumbers V} `{HttpServer W V} `{RestExternals} `{Base64}.

(** The session, when there is one, beside the outside. *)
Definition lift_matrix {E A} (m : Io W E A) : Io (option P2pSession * W) E A := λ st,
  let '(o, w) := m st.2 in (o, (st.1, w)).

Definition send_matrix (room_id event_type : string) (payload : Bytes)
    : Io (option P2pSession * W) (MatrixClientError string string string) (option string) :=
  event_id ← lift_matrix (send_megolm room_id event_type payload); mret (Some event_id).

Definition try_send_via_p2p_or_matrix (room_id event_type : string) (payload : Bytes)
    : Io (option P2pSession * W) (MatrixClientError string string string) (option string) := λ st,
  match st.1 with
  | None => send_matrix room_id event_type payload st
  | Some s =>
      let '(o, s) := try_send_p2p event_type payload s in
      match o with
      | SentP2P => (Returns None, (Some s, st.2))
      | FallbackToMatrix | Driver.ChannelClosed => send_matrix room_id event_type payload (Some s, st.2)
      end
  end.
End sending.

(** ** The signer and the key source *)
(** Where a synchronous call runs, which decides what [Handle::current] and
    [Handle::block_on] do: both panic outside of a runtime, and [block_on]
    panics inside a task of the runtime. *)
Inductive RuntimeContext : Type := NoRuntime | AsyncTask | BlockingThread.

(** [OlmMachine]: signatures by user and key id, the ids and the key of the
    device; [DeviceKeyId::try_from]. *)
Class OlmDevice (W : Type) := {
  runtime_context : W → RuntimeContext;
  olm_user_id : W → string;
  olm_device_id : W → string;
  olm_ed25519 : W → Bytes;
  olm_sign : string → Io W string (list ((string * string) * Bytes));
  parse_key_id : string → result string string;
}.

Section signer.
Context {W V : Type} `{MatrixSdk W V} `{Base64} `{OlmDevice W}.
Local Notation M := (Io W (MatrixClientError string string string)).
Local Abbreviation other := (io_map_err (S := W) (F := MatrixClientError string string string) Other).

Definition sign_with_device_key (message : string) : M (Bytes * Bytes) :=
  ready ← observe sdk_olm_ready;
  if negb ready then raise (Other "OlmMachine not initialized — E2EE not ready") else
  signatures ← io_map_err (λ e, Other (cat ["device sign: "; e])) (olm_sign message);
  user_id ← observe olm_user_id;
  device_id ← observe olm_device_id;
  key_id ← of_result (result_map_err (λ e, Other (cat ["parse key_id: "; e])) (parse_key_id (cat ["ed25519:"; device_id])));
  match List.find (λ s, bool_decide (s.1 = (user_id, key_id))) signatures with
  | None => raise (Other "device Ed25519 signature not found in OlmMachine::sign result")
  | Some (_, sig) => pk ← observe olm_ed25519; mret (sig, pk)
  end.

(** [MatrixHandshakeSigner]: its cache of the public key. *)
Definition signer_init : Io (option Bytes * W) (MatrixClientError string string string) () := λ st,
  match sign_with_device_key "init" st.2 with
  | (Returns (_, pk), w) => (Returns (), (Some pk, w))
  | (Raises e, w) => (Raises e, (st.1, w))
  | (Panics, w) => (Panics, (st.1, w))
  end.
Definition signer_public_key (st : option Bytes * W) : option Bytes := st.1.

(** [HandshakeSigner::sign]. *)
Definition block_on {E A} (m : Io W E A) : Io W E A := λ w,
  match runtime_context w with BlockingThread => m w | NoRuntime | AsyncTask => (Panics, w) end.
Definition matrix_sign (transcript : Bytes) : Io W VerifyError (Bytes * Bytes) :=
  io_map_err (λ e, ErrSigningFailed (show_error e)) (block_on (sign_with_device_key (b64_encode transcript))).

(** The response that is built with it. *)
Definition matrix_response (params : HandshakeParams) (peer_nonce : Bytes) (peer_party_id peer_sdp_fingerprint : string)
    : Io W VerifyError HandshakeMsg :=
  sig_pk ← matrix_sign (params_transcript params peer_nonce peer_party_id peer_sdp_fingerprint);
  of_result (build_handshake_response (H := λ _ _, Ok sig_pk) params peer_nonce peer_party_id peer_sdp_fingerprint ()).

(** [MatrixPeerKeySource]: its cache. *)
Record MatrixPeerKeySource := mkPeerKeys { pk_cache : gmap (string * string) Bytes }.

Definition refresh (peer_user_id peer_device_id : string)
    : Io (MatrixPeerKeySource * W) (MatrixClientError string string string) bool := λ st,
  match get_peer_device_ed25519 peer_user_id peer_device_id st.2 with
  | (Returns (Some pk), w) =>
      (Returns true, (mkPeerKeys (<[(peer_user_id, peer_device_id) := pk]> (pk_cache st.1)), w))
  | (Returns None, w) => (Returns false, (st.1, w))
  | (Raises e, w) => (Raises e, (st.1, w))
  | (Panics, w) => (Panics, (st.1, w))
  end.
Definition invalidate (peer_user_id peer_device_id : string) (s : MatrixPeerKeySource) : MatrixPeerKeySource :=
  mkPeerKeys (delete (peer_user_id, peer_device_id) (pk_cache s)).
#[export] Instance matrix_peer_public_key : HandshakePeerKeySource MatrixPeerKeySource :=
  λ s user device, pk_cache s !! (user, device).
End signer.

(** *** The bundle of a session *)
Record P2pSessionBundle := mkBundle {
  bu_session : option P2pSession; bu_signer : option (option Bytes); bu_peer_keys : option MatrixPeerKeySource;
  bu_no_p2p_cli : bool }.
Definition build_p2p_session (cfg : P2pConfig) (no_p2p_cli : bool) (our_user_id our_device_id room_id : string)
    : P2pSessionBundle :=
  let effectively_enabled := p2p_enabled cfg && negb no_p2p_cli in
  mkBundle (new_if_enabled cfg no_p2p_cli our_user_id our_device_id room_id)
    (if effectively_enabled then Some None else None)
    (if effectively_enabled then Some (mkPeerKeys ∅) else None) no_p2p_cli.
Definition bundle_enabled (b : P2pSessionBundle) : bool := from_option is_enabled false (bu_session b).

(** ** Properties *)
Section sending_theorems.
Context {W V : Type} `{MatrixSdk W V} `{JsonValue V} `{JsonU64 V} `{JsonBuild V} `{JsonContainers V}
  `{JsonNumbers V} `{HttpServer W V} `{RestExternals} `{Base64}.

(** The queue of the transport takes one more payload. *)
Definition accepts (t : P2PTransport) : Prop :=
  snap_is_open (tr_snapshot t) = true ∧ tr_alive t = true ∧ length (mb_outbound (tr_mailboxes t)) < tr_depth t.
#[export] Instance accepts_dec t : Decision (accepts t).
Proof. unfold accepts. apply _. Defined.
Definition enqueued (event_type : string) (payload : Bytes) (t : P2PTransport) : P2PTransport :=
  let mb := tr_mailboxes t in
  mkTransport (tr_snapshot t) (tr_alive t) (tr_depth t)
    (mkMailboxes (mb_shutdown mb) (mb_idle mb) (mb_control mb) (mb_call_event mb)
       (mb_outbound mb ++ [mkOutbound event_type payload])).

Lemma transport_send_cases event_type payload t :
  transport_send event_type payload t =
  if decide (accepts t) then (SentP2P, enqueued event_type payload t)
  else (if snap_is_open (tr_snapshot t) && negb (tr_alive t) then Driver.ChannelClosed else FallbackToMatrix, t).
Proof.
  destruct (decide (accepts t)) as [Ha|Ha]; unfold accepts in Ha; unfold transport_send, try_send, enqueued;
    destruct t as [sn alive depth mb]; simpl in *; destruct (snap_is_open sn), alive; simpl; try case_decide; naive_solver.
Qed.

(** A payload takes exactly one path. When the session has a transport
    that is open, alive and has room in its queue, the payload is put at the
    end of the queue, in front of nothing that was there, and Matrix is not
    touched; in every other case the queue stays as it is and the result and
    the effect are those of [send_megolm] with the same payload. With the
    feature switched off or [--no-p2p] there is no session, and a session that
    was just made sends nothing by itself. *)
Theorem payload_takes_one_path room_id event_type payload (s : option P2pSession) (w : W) cfg no_p2p_cli user device room :
  let '(r, (s', w')) := try_send_via_p2p_or_matrix room_id event_type payload (s, w) in
  match s with
  | Some (mkP2pSession (Some t)) =>
      if decide (accepts t)
      then r = Returns None ∧ w' = w ∧ s' = Some (mkP2pSession (Some (enqueued event_type payload t)))
      else s' = s ∧ (r, w') = (e ← send_megolm room_id event_type payload; mret (Some e)) w
  | _ => s' = s ∧ (r, w') = (e ← send_megolm room_id event_type payload; mret (Some e)) w
  end ∧
  match new_if_enabled cfg no_p2p_cli user device room with
  | None => p2p_enabled cfg = false ∨ no_p2p_cli = true
  | Some fresh => p2p_enabled cfg = true ∧ no_p2p_cli = false ∧
                  try_send_p2p event_type payload fresh = (FallbackToMatrix, fresh)
  end.
Proof.
  assert (Hm : ∀ s0, send_matrix room_id event_type payload (s0, w) =
    let '(r, w') := (e ← send_megolm room_id event_type payload; mret (Some e)) w in (r, (s0, w'))).
  { intros s0. unfold send_matrix, lift_matrix, mbind, Io_bind. simpl.
    by destruct (send_megolm room_id event_type payload w) as [[e|e|] w']. }
  unfold try_send_via_p2p_or_matrix, try_send_p2p. cbn [fst snd].
  assert (Hnew : match new_if_enabled cfg no_p2p_cli user device room with
    | None => p2p_enabled cfg = false ∨ no_p2p_cli = true
    | Some fresh => p2p_enabled cfg = true ∧ no_p2p_cli = false ∧
                    try_send_p2p event_type payload fresh = (FallbackToMatrix, fresh)
    end).
  { unfold new_if_enabled. destruct (p2p_enabled cfg), no_p2p_cli; simpl; auto. }
  destruct s as [[[t|]]|]; cbn [transport].
  - rewrite transport_send_cases. destruct (decide (accepts t)); [done|].
    destruct (snap_is_open _ && _); rewrite Hm; by destruct (mbind (M := Io W _) _ _ w) as [r w'].
  - rewrite Hm. by destruct (mbind (M := Io W _) _ _ w) as [r w'].
  - rewrite Hm. by destruct (mbind (M := Io W _) _ _ w) as [r w'].
Qed.
End sending_theorems.

(** *** Documented behaviour of the device key *)
(** [OlmMachine::sign] signs the UTF-8 bytes of the message with the key of
    the device, and files the signature under the ids of the device. *)
Class OlmLaws {W} `{OlmDevice W} `{Ed25519} (device_key : W → Bytes) : Prop := {
  olm_public w : olm_ed25519 w = sk_public (device_key w);
  olm_signs m w sigs w' key_id :
    olm_sign m w = (Returns sigs, w') → parse_key_id (cat ["ed25519:"; olm_device_id w']) = Ok key_id →
    (∀ s, s ∈ sigs → s.1 = (olm_user_id w', key_id) → s.2 = sk_sign (device_key w) (as_bytes m)) ∧
    device_key w' = device_key w;
}.
(** Base64 text has no NUL. *)
Class Base64Text `{Base64} : Prop := b64_no_nul b : FIELD_SEP ∉ as_bytes (b64_encode b).

Section signer_theorems.
Context {W V : Type} `{MatrixSdk W V} `{Base64, !Base64Laws, !Base64Text} `{OlmDevice W} `{Ed25519, !Ed25519Laws}
  (device_key : W → Bytes) `{!OlmLaws device_key}.

Lemma sign_with_device_key_exact message (w : W) sig pk w' :
  sign_with_device_key message w = (Returns (sig, pk), w') →
  sig = sk_sign (device_key w) (as_bytes message) ∧ pk = sk_public (device_key w).
Proof using All.
  unfold sign_with_device_key. rewrite io_bind_observe. destruct (sdk_olm_ready w); simpl; [|done].
  intros (sigs & w1 & Hs & Hk)%io_bind_returns. unfold io_map_err in Hs.
  destruct (olm_sign message w) as [[l|e|] w2] eqn:Ho; simplify_eq/=. rewrite !io_bind_observe in Hk.
  destruct (parse_key_id _) as [key_id|e] eqn:Ep; simpl in Hk; [|done].
  change (mret key_id) with (λ s : W, (@Returns string (MatrixClientError string string string) key_id, s)) in Hk.
  unfold mbind, Io_bind in Hk. destruct (List.find _ sigs) as [[k s]|] eqn:Ef; [|done].
  apply find_some in Ef as [Hin Hk1]. apply bool_decide_eq_true in Hk1. unfold observe, mret, Io_ret in Hk. simplify_eq/=.
  destruct (olm_signs message w sigs w' key_id Ho Ep) as [Hsig Hd].
  split; [by apply (Hsig _ (proj2 (list_elem_of_In _ _) Hin))|]. by rewrite olm_public, Hd.
Qed.

Lemma transcript_has_separator params n p f : FIELD_SEP ∈ params_transcript params n p f.
Proof.
  unfold params_transcript, build_transcript. repeat case_match. apply elem_of_app. right. apply list_elem_of_here.
Qed.

(** C31: the signer that takes the key of the Matrix device signs another
    message than the one that is verified. It signs the base64 text of the
    transcript, never the transcript itself, and the other end verifies the
    transcript: the response is [Verified] only if the signature of that text
    happens to be a valid signature of the transcript as well. Within a task of
    the runtime, where the handshake takes place, it does not get that far: the
    call panics. *)
Theorem device_signature_of_other_message {K} `{HandshakePeerKeySource K} pa pb (keys : K) (w : W) :
  mirrored pa pb →
  let t := params_transcript pb (hp_our_nonce pa) (hp_our_party_id pa) (hp_our_sdp_fingerprint pa) in
  as_bytes (b64_encode t) ≠ t ∧
  match matrix_response pb (hp_our_nonce pa) (hp_our_party_id pa) (hp_our_sdp_fingerprint pa) w with
  | (Returns response, _) =>
      verify_handshake_response pa (hp_our_nonce pb) (hp_our_party_id pb) (hp_our_sdp_fingerprint pb) response keys = Verified ↔
      peer_public_key keys (hp_our_user_id pb) (hp_our_device_id pb) = Some (sk_public (device_key w)) ∧
      vk_verify (sk_public (device_key w)) t (sk_sign (device_key w) (as_bytes (b64_encode t))) = true
  | (Raises _, _) | (Panics, _) => True
  end ∧
  (runtime_context w = AsyncTask → (matrix_sign t w).1 = Panics).
Proof using All.
  intros (Hr & Hu & Hc & Ho & Hp) t. split_and!.
  - intros E. apply (b64_no_nul t). rewrite E. apply transcript_has_separator.
  - unfold matrix_response. fold t. unfold mbind, Io_bind. destruct (matrix_sign t w) as [[[sig pk]|e|] w1] eqn:Es; [|done..].
    assert (Hs : sig = sk_sign (device_key w) (as_bytes (b64_encode t)) ∧ pk = sk_public (device_key w)).
    { unfold matrix_sign, io_map_err, block_on in Es. destruct (runtime_context w); [done..|].
      destruct (sign_with_device_key (b64_encode t) w) as [[x|x|] w2] eqn:Ek; simplify_eq/=.
      by apply sign_with_device_key_exact in Ek. }
    destruct Hs as [-> ->]. simpl. unfold verify_handshake_response, decode_public_key_b64, decode_signature_b64,
      encode_signature, encode_public_key.
    rewrite (encode_decode_array ED25519_PUBLIC_KEY_LEN) by apply sk_public_length.
    rewrite (encode_decode_array ED25519_SIGNATURE_LEN) by apply sk_sign_length.
    rewrite Hp. rewrite (params_transcript_mirror pa pb) by done. fold t.
    destruct (peer_public_key _ _ _) as [pk|]; [|naive_solver].
    case_bool_decide as Hk; simpl; [|naive_solver]. subst pk. unfold verify_peer_signature. rewrite sk_public_valid. simpl.
    destruct (vk_verify _ _ _); naive_solver.
  - intros Hctx. unfold matrix_sign, io_map_err, block_on. by rewrite Hctx.
Qed.
End signer_theorems.

(** *** Keys of peers *)
Section peer_keys.
Context {W V : Type} `{MatrixSdk W V} `{Base64}.

Inductive PeerKeyOp : Type := PkRefresh (user device : string) | PkInvalidate (user device : string).
(** A failed refresh changes nothing. *)
Definition peer_key_op (op : PeerKeyOp) : Io (MatrixPeerKeySource * W) (MatrixClientError string string string) () :=
  match op with
  | PkRefresh user device => attempt (refresh user device) ;; mret ()
  | PkInvalidate user device => λ st, (Returns (), (invalidate user device st.1, st.2))
  end.
Definition peer_key_run (ops : list PeerKeyOp) : Io (MatrixPeerKeySource * W) (MatrixClientError string string string) () :=
  for_each peer_key_op ops.

(** The key is one that a cross-signed device of the user had. *)
Definition vetted (user device : string) (pk : Bytes) : Prop :=
  ∃ (w w' : W) devices d,
    sdk_user_devices user w = (Returns devices, w') ∧ d ∈ devices ∧ dev_id d = device ∧
    cross_signed_by_owner d = true ∧ dev_ed25519 d = Some pk.

Lemma device_key_vetted user device (w w' : W) pk :
  get_peer_device_ed25519 user device w = (Returns (Some pk), w') → vetted user device pk.
Proof.
  unfold get_peer_device_ed25519, trusted_device. intros (d & w1 & Hd & Hk)%io_bind_returns.
  apply io_bind_returns in Hd as (l & w2 & Hl & Hd). unfold io_map_err in Hl.
  destruct (sdk_user_devices user w) as [[l'|e|] w3] eqn:Hs; simplify_eq/=.
  destruct (list_find _ l) as [[i d']|] eqn:Ef; simpl in *; [|unfold mret, Io_ret in *; by simplify_eq/=].
  apply list_find_Some in Ef as (Hi & Hid & _). destruct (cross_signed_by_owner d') eqn:Ec; unfold mret, Io_ret in *; simplify_eq/=.
  exists w, w', l, d'. split_and!; try done. by eapply list_elem_of_lookup_2.
Qed.

Lemma peer_key_op_vetted op (s s' : MatrixPeerKeySource) (w w' : W) :
  map_Forall (λ k pk, vetted k.1 k.2 pk) (pk_cache s) → peer_key_op op (s, w) = (Returns (), (s', w')) →
  map_Forall (λ k pk, vetted k.1 k.2 pk) (pk_cache s').
Proof.
  intros Hs. destruct op as [user device|user device]; simpl.
  - intros (r & st & Hr & Hm)%io_bind_returns. unfold mret, Io_ret in Hm. simplify_eq/=. unfold attempt, refresh in Hr. simpl in Hr.
    destruct (get_peer_device_ed25519 user device w) as [[[pk|]|e|] w1] eqn:Eg; simplify_eq/=; try done.
    apply map_Forall_insert_2; [|done]. simpl. by eapply device_key_vetted.
  - intros [= <- <-]. by apply map_Forall_delete.
Qed.

(** The key that the handshake is checked against was vetted: from an
    empty cache, whatever is refreshed and invalidated and whatever fails, the
    key source gives for a device of a user only a key that the device had
    while it was signed by its owner. It is not vetted again: a refresh that
    finds the device unknown or no longer signed leaves the old key in
    place. *)
Theorem peer_keys_vetted ops (s : MatrixPeerKeySource) (w w' : W) user device pk :
  peer_key_run ops (mkPeerKeys ∅, w) = (Returns (), (s, w')) →
  peer_public_key s user device = Some pk →
  vetted user device pk ∧
  ∀ s1 w1, refresh user device (s, w') = (Returns false, (s1, w1)) → peer_public_key s1 user device = Some pk.
Proof.
  intros Hrun Hk. split.
  - assert (Hall : map_Forall (λ k pk, vetted k.1 k.2 pk) (pk_cache s)); [|by apply (Hall (user, device))].
    assert (Hempty : map_Forall (λ k pk, vetted k.1 k.2 pk) (pk_cache (mkPeerKeys ∅))) by apply map_Forall_empty.
    revert Hempty Hrun. generalize (mkPeerKeys ∅) as s0. clear Hk. revert w. induction ops as [|op ops IH]; intros w s0 Hempty Hrun.
    + unfold peer_key_run, for_each, mret, Io_ret in Hrun. by simplify_eq/=.
    + apply io_bind_returns in Hrun as ([] & [s1 w1] & Hop & Hrest). eapply IH; [|exact Hrest]. by eapply peer_key_op_vetted.
  - intros s1 w1 Hr. unfold refresh in Hr. simpl in Hr.
    by destruct (get_peer_device_ed25519 user device w') as [[[x|]|e|] w2]; simplify_eq/=.
Qed.
End peer_keys.

(** ** Witnesses *)
(** A stand-in for base64 that has no NUL: NUL and the byte 1 are escaped. *)
Definition escape (b : byte) : Bytes :=
  match b with Byte.x00 => [Byte.x01; Byte.x02] | Byte.x01 => [Byte.x01; Byte.x01] | b => [b] end.
Fixpoint unescape (l : Bytes) : Bytes :=
  match l with
  | Byte.x01 :: Byte.x02 :: l => Byte.x00 :: unescape l
  | Byte.x01 :: Byte.x01 :: l => Byte.x01 :: unescape l
  | b :: l => b :: unescape l
  | [] => []
  end.
Definition escaping_base64 : Base64 :=
  {| b64_encode b := from_bytes (b ≫= escape); b64_decode s := Ok (unescape (as_bytes s)) |}.
Lemma unescape_app x l : unescape (escape x ++ l) = x :: unescape l.
Proof. by destruct x. Qed.
Lemma escaping_base64_laws : @Base64Laws escaping_base64.
Proof.
  intros b. simpl. f_equal. rewrite as_bytes_from_bytes. induction b as [|x b IH]; [done|].
  rewrite bind_cons, unescape_app. by rewrite IH.
Qed.
Lemma escaping_base64_text : @Base64Text escaping_base64.
Proof.
  intros b. simpl. rewrite as_bytes_from_bytes. intros (x & Hx & _)%list_elem_of_bind. unfold FIELD_SEP in Hx.
  destruct x; simpl in Hx; repeat (apply elem_of_cons in Hx as [[=]|Hx]); by apply elem_of_nil in Hx.
Qed.
#[local] Existing Instances toy_json toy_base64_laws toy_ed25519 toy_ed25519_laws.

Definition toy_device_feed : Feed () :=
  mkFeed (λ _, 0%Z) (λ _ _ _ w, w) (mret []) [] [] [mkDevice "DB" true (Some (sk_public [Byte.x05]))].
#[local] Instance toy_device_sdk : MatrixSdk () TJson := toy_sdk_with toy_device_feed.
#[local] Instance toy_olm : OlmDevice () := {|
  runtime_context _ := BlockingThread; olm_user_id _ := "@b:x"; olm_device_id _ := "DB";
  olm_ed25519 _ := sk_public [Byte.x05];
  olm_sign m := mret [(("@b:x", "ed25519:DB"), sk_sign [Byte.x05] (as_bytes m))];
  parse_key_id := Ok |}.
Lemma toy_olm_laws : OlmLaws (λ _ : (), [Byte.x05]).
Proof.
  split; [done|]. intros m [] sigs [] key_id [= <-] _. split; [|done].
  intros s [->|Hs]%elem_of_cons _; [done|]. by apply elem_of_nil in Hs.
Qed.
#[local] Existing Instance toy_olm_laws.

Lemma device_signature_of_other_message_witness :
  let pa := toy_params "@a:x" "DA" "A" Byte.x01 true in
  let pb := toy_params "@b:x" "DB" "B" Byte.x02 false in
  let keys := mkPeerKeys {[("@b:x", "DB") := sk_public [Byte.x05]]} in
  match matrix_response (H := toy_device_sdk) (H0 := escaping_base64) pb (hp_our_nonce pa) (hp_our_party_id pa) (hp_our_sdp_fingerprint pa) () with
  | (Returns response, _) =>
      verify_handshake_response (B64 := escaping_base64) pa (hp_our_nonce pb) (hp_our_party_id pb) (hp_our_sdp_fingerprint pb) response keys
      ≠ Verified
  | _ => False
  end.
Proof.
  intros pa pb keys.
  pose proof (device_signature_of_other_message (H := toy_device_sdk) (H0 := escaping_base64) (H1 := escaping_base64_laws)
                (H2 := escaping_base64_text) (λ _ : (), [Byte.x05]) pa pb keys () ltac:(split_and!; reflexivity)) as (_ & Hv & _).
  destruct (matrix_response _ _ _ _ _) as [[response|e|] w] eqn:E; [|by vm_compute in E..].
  rewrite Hv. intros [_ Hs]. vm_compute in Hs. discriminate.
Defined.
