(* ===== verification/FabricProcess.v ===== *)
(** * FabricProcess: fabric workers at work and senders waiting
    ([mxdx-fabric/worker.rs], [process_worker.rs], [sender.rs])

    What a worker posts about a task, a task that is run as a process, whose
    output goes to the room as heartbeats and to a local socket line by line,
    and the client that submits a task and polls for its result. All of it over
    the operations of [MatrixClient]; processes, sockets and clocks are an
    interface. *)
From S2P Require Import Coordinator.
From S2P Require Import Prelude Text Instants Json Fabric FabricClaim Signaling P2PCrypto MatrixTypes Effects Rest MatrixClient MatrixRooms MatrixDelivery SessionJson Toys.
From stdpp Require Import options.

Definition EVENT_TASK : string := "org.mxdx.fabric.task".
Definition EVENT_CLAIM : string := "org.mxdx.fabric.claim".
Definition EVENT_HEARTBEAT : string := "org.mxdx.fabric.heartbeat".
Definition EVENT_RESULT : string := "org.mxdx.fabric.result".
Definition EVENT_CAPABILITY : string := "org.mxdx.fabric.capability".
Definition EVENT_STREAM_OFFER : string := "org.mxdx.fabric.stream_offer".
Definition BATCH_INTERVAL : Duration := from_secs 30.
Definition BATCH_MAX_BYTES : nat := Z.to_nat 4096.
Definition TAIL_LINES : nat := 50.
Definition STREAM_ACCEPT_TIMEOUT : Duration := from_secs 30.

(** ** Events ([mxdx-types/events/fabric.rs], [capability.rs]) *)
Record CapabilityEvent := mkCapability {
  cap_worker : string; cap_names : list string; max_concurrent_tasks : Z; current_task_count : Z }.
(** The tools and their schemas are the records of [Coordinator]. *)
Record CapabilityAdvertisement := mkAdvertisement { ad_worker : string; ad_host : string; ad_tools : list WorkerTool }.

Section json.
Context {V : Type} `{JsonValue V} `{JsonU64 V} `{JsonBuild V} `{JsonContainers V} `{JsonNumbers V}.

Definition task_status_value (s : TaskStatus) : V :=
  json_string (match s with Success => "success" | Failed => "failed" | Timeout => "timeout" | Cancelled => "cancelled" end).
Definition fabric_task_value (t : TaskEvent V) : V :=
  json_object [("uuid", json_string (uuid t)); ("sender_id", json_string (sender_id t));
    ("required_capabilities", json_strings (required_capabilities t));
    ("estimated_cycles", json_option json_number (estimated_cycles t));
    ("timeout_seconds", json_number (timeout_seconds t));
    ("heartbeat_interval_seconds", json_number (heartbeat_interval_seconds t));
    ("on_timeout", failure_policy_value (on_timeout t)); ("on_heartbeat_miss", failure_policy_value (on_heartbeat_miss t));
    ("routing_mode", routing_mode_value (routing_mode t)); ("p2p_stream", json_bool (p2p_stream t));
    ("payload", payload t); ("plan", json_option json_string (plan t))].
Definition capability_value (c : CapabilityEvent) : V :=
  json_object [("worker_id", json_string (cap_worker c)); ("capabilities", json_strings (cap_names c));
    ("max_concurrent_tasks", json_number (max_concurrent_tasks c)); ("current_task_count", json_number (current_task_count c))].
Definition claim_value (c : ClaimEvent) : V :=
  json_object [("task_uuid", json_string (claim_task c)); ("worker_id", json_string (claim_worker c));
    ("claimed_at", json_number (claimed_at_secs c))].
Definition fabric_heartbeat_value (h : HeartbeatEvent) : V :=
  json_object [("task_uuid", json_string (hb_task h)); ("worker_id", json_string (hb_worker h));
    ("progress", json_option json_string (hb_progress h)); ("timestamp", json_number (hb_timestamp h))].
Definition task_result_value (r : TaskResultEvent V) : V :=
  json_object [("task_uuid", json_string (res_task r)); ("worker_id", json_string (res_worker _ r));
    ("status", task_status_value (res_status _ r)); ("output", json_option id (res_output _ r));
    ("error", json_option json_string (res_error _ r)); ("duration_seconds", json_number (res_duration _ r))].

(** Camel case. [entries]: the order of the properties. *)
Definition schema_value (entries : gmap string SchemaProperty → list (string * SchemaProperty)) (s : InputSchema) : V :=
  json_object [("type", json_string (Coordinator.is_type s));
    ("properties", json_object ((λ kv, (kv.1, json_object [("type", json_string (sp_type kv.2));
       ("description", json_string (sp_description kv.2))])) <$> entries (Coordinator.properties s)));
    ("required", json_strings (Coordinator.required s))].
Definition tool_value entries (t : WorkerTool) : V :=
  json_object [("name", json_string (tool_name t)); ("version", json_option json_string (version t));
    ("description", json_string (description t)); ("healthy", json_bool (healthy t));
    ("inputSchema", schema_value entries (input_schema t))].
Definition advertisement_value entries (a : CapabilityAdvertisement) : V :=
  json_object [("workerId", json_string (ad_worker a)); ("host", json_string (ad_host a));
    ("tools", json_array (tool_value entries <$> ad_tools a))].

(** *** [ProcessPayload::from_task_payload] *)
Record ProcessPayload := mkProcess {
  pp_bin : string; pp_args : list string; pp_env : gmap string string; pp_cwd : option string }.
Definition from_task_payload (payload : V) : option ProcessPayload :=
  as_object payload ≫= λ _,
  bin ← get_str payload "bin";
  let args := match get payload "args" ≫= as_array with Some l => omap as_str l | None => [] end in
  let env := match get payload "env" ≫= as_object with
             | Some m => list_to_map (omap (λ kv, (pair kv.1) <$> as_str kv.2) m)
             | None => ∅
             end in
  Some (mkProcess bin args env (get_str payload "cwd")).
End json.

(** ** The host *)
Class ProcessHost (W : Type) := {
  host_instant : W → Instant;
  host_epoch_secs : W → Z;
  host_name : W → option string;
  spawn_process : ProcessPayload → string → Io W string ();
  next_line : Io W string (option string);
  wait_child : Io W string (option Z);                 (* the exit code, unless a signal ended it *)
  run_version : string → Io W string (bool * Bytes);   (* success and standard output of [--version] *)
  bind_socket : string → Io W string ();
  accept_within : Duration → W → bool * W;
  stream_write : Bytes → W → bool * W;
  stream_shutdown : W → W;
  remove_socket_file : string → W → W;
  connect_socket : string → W → bool * W;
}.

Section worker.
Context {W V : Type} `{MatrixSdk W V} `{JsonValue V} `{JsonU64 V} `{JsonBuild V} `{JsonContainers V}
  `{JsonNumbers V} `{HttpServer W V} `{RestExternals} `{Base64} `{ProcessHost W}.
(** The order of a map of properties; the id of the worker. *)
Variable entries : gmap string SchemaProperty → list (string * SchemaProperty).
Variable worker_id : string.
Local Notation M := (Io W string).

(** What the host does and cannot fail at. *)
Definition host_step (f : W → W) : M () := λ w, (Returns (), f w).
Definition host_ask {A} (f : W → A * W) : M A := λ w, let '(x, w) := f w in (Returns x, w).

(** ** [WorkerClient] *)
Definition advertise_capabilities (caps : list string) (room_id : string) : M () :=
  mx (MatrixClient.send_state_event room_id EVENT_CAPABILITY worker_id (capability_value (mkCapability worker_id caps 1 0))).
Definition worker_publish_advertisement (ad : CapabilityAdvertisement) (room_id : string) : M () :=
  mx (MatrixClient.send_state_event room_id EVENT_CAPABILITY worker_id (advertisement_value entries ad)).
Definition post_state_event (event_type state_key : string) (content : V) (room_id : string) : M () :=
  mx (MatrixClient.send_state_event room_id event_type state_key content).

(** [try_claim] against the homeserver. *)
Definition claim_task_event (t : TaskEvent V) (room_id : string) : M bool :=
  let state_key := claim_state_key (uuid t) in
  now ← observe host_epoch_secs;
  mx (MatrixClient.send_state_event room_id EVENT_CLAIM state_key (claim_value (mkClaim (uuid t) worker_id now))) ;;
  mx MatrixClient.sync_once ;;
  state ← mx (get_room_state_event room_id EVENT_CLAIM state_key);
  of_result (try_claim worker_id (Ok tt) (Ok tt) (Ok (get_str state "worker_id"))).

(** In the thread of the task, or as an event of its own. *)
Definition post_about_task (event_type : string) (content : V) (room_id : string) (task_event_id : option string) : M () :=
  match task_event_id with
  | Some eid =>
      if str_eqb eid "" then
        mx (MatrixClient.send_event room_id (json_object [("type", json_string event_type); ("content", content)])) ;; mret ()
      else mx (send_threaded_event room_id event_type eid content) ;; mret ()
  | None =>
      mx (MatrixClient.send_event room_id (json_object [("type", json_string event_type); ("content", content)])) ;; mret ()
  end.

Definition post_heartbeat (task_uuid : string) (progress : option string) (room_id : string)
    (task_event_id : option string) : M () :=
  now ← observe host_epoch_secs;
  post_about_task EVENT_HEARTBEAT (fabric_heartbeat_value (mkHeartbeat task_uuid worker_id progress now)) room_id task_event_id.

Definition post_result (task_uuid : string) (status : TaskStatus) (output : option V) (error : option string)
    (duration_seconds : Z) (room_id : string) (task_event_id : option string) : M () :=
  post_about_task EVENT_RESULT (task_result_value (mkResult task_uuid worker_id status output error duration_seconds))
    room_id task_event_id.

(** ** [ProcessWorker] *)
Definition thread_id (task_event_id : string) : option string :=
  if str_eqb task_event_id "" then None else Some task_event_id.

(** A heartbeat that cannot be posted is only logged. *)
Definition flush_heartbeat (task_uuid batch room_id task_event_id : string) : M () :=
  attempt (post_heartbeat task_uuid (Some batch) room_id (thread_id task_event_id)) ;; mret ().

Definition tail_lines (all_lines : list string) : string :=
  String.concat (from_bytes [Byte.x0a]) (reverse (take TAIL_LINES (reverse all_lines))).

(** The state of the loop over the lines of the process. *)
Record Reading := mkReading { rd_lines : list string; rd_batch : string; rd_timer : Instant; rd_stream : bool }.

Definition with_newline (line : string) : string := cat [line; from_bytes [Byte.x0a]].

(** A line goes to the socket, while there is one. *)
Definition write_line (line : string) (streaming : bool) : M bool :=
  if streaming then host_ask (stream_write (as_bytes (with_newline line))) else mret false.

Definition take_line (task_uuid room_id task_event_id line : string) (st : Reading) : M Reading :=
  streaming ← write_line line (rd_stream st);
  let batch := cat [rd_batch st; with_newline line] in
  now ← observe host_instant;
  if bool_decide (BATCH_MAX_BYTES ≤ length (as_bytes batch)) || bool_decide (BATCH_INTERVAL ≤ now - rd_timer st)%Z then
    flush_heartbeat task_uuid batch room_id task_event_id ;;
    now ← observe host_instant;
    mret (mkReading (rd_lines st ++ [line]) "" now streaming)
  else mret (mkReading (rd_lines st ++ [line]) batch (rd_timer st) streaming).

(** [None]: more lines than [fuel]. A line that cannot be read ends the loop. *)
Fixpoint read_output (fuel : nat) (task_uuid room_id task_event_id : string) (st : Reading) : M (option Reading) :=
  match fuel with
  | 0 => mret None
  | S fuel =>
      line ← attempt next_line;
      match line with
      | Ok (Some line) =>
          st ← take_line task_uuid room_id task_event_id line st;
          read_output fuel task_uuid room_id task_event_id st
      | Ok None | Err _ => mret (Some st)
      end
  end.

(** What is reported about an exit code. *)
Definition exit_report (bin : string) (code : option Z) : TaskStatus * option string :=
  if bool_decide (code = Some 0%Z) then (Success, None)
  else (Failed, Some (cat [bin; " exited with code "; match code with Some c => show c | None => "signal" end])).

(** From the start of the process to its result. *)
Definition run_process (fuel : nat) (task_uuid : string) (p : ProcessPayload) (room_id task_event_id : string)
    (streaming : bool) : M (option ()) :=
  start ← observe host_instant;
  spawn_process p (default "/tmp" (pp_cwd p)) ;;
  timer ← observe host_instant;
  read ← read_output fuel task_uuid room_id task_event_id (mkReading [] "" timer streaming);
  match read with
  | None => mret None
  | Some st =>
      (if str_eqb (rd_batch st) "" then mret () else flush_heartbeat task_uuid (rd_batch st) room_id task_event_id) ;;
      (if rd_stream st then host_step stream_shutdown else mret ()) ;;
      code ← wait_child;
      now ← observe host_instant;
      let '(status, error) := exit_report (pp_bin p) code in
      post_result task_uuid status (Some (json_string (tail_lines (rd_lines st)))) error ((now - start) / 1000000000)%Z
        room_id (thread_id task_event_id) ;;
      mret (Some ())
  end.

Definition run_task_matrix (fuel : nat) (t : TaskEvent V) (p : ProcessPayload) (room_id task_event_id : string)
    : M (option ()) :=
  run_process fuel (uuid t) p room_id task_event_id false.

Definition socket_path_of (task_uuid : string) : string := cat ["/tmp/mxdx-fabric-"; task_uuid; ".sock"].
Definition stream_key (task_uuid : string) : string := cat ["task/"; task_uuid; "/stream"].

Definition run_task_p2p (fuel : nat) (t : TaskEvent V) (p : ProcessPayload) (room_id task_event_id : string)
    : M (option ()) :=
  let socket_path := socket_path_of (uuid t) in
  host_step (remove_socket_file socket_path) ;;
  bind_socket socket_path ;;
  post_state_event EVENT_STREAM_OFFER (stream_key (uuid t))
    (json_object [("socket_path", json_string socket_path); ("worker_id", json_string worker_id)]) room_id ;;
  streaming ← host_ask (accept_within STREAM_ACCEPT_TIMEOUT);
  r ← run_process fuel (uuid t) p room_id task_event_id streaming;
  match r with
  | None => mret None
  | Some _ => host_step (remove_socket_file socket_path) ;; mret (Some ())
  end.

Definition run_task (fuel : nat) (t : TaskEvent V) (room_id task_event_id : string) : M (option ()) :=
  won ← claim_task_event t room_id;
  if negb won then mret (Some ()) else
  match from_task_payload (payload t) with
  | None =>
      post_result (uuid t) Failed None (Some "task payload missing required 'bin' field") 0 room_id
        (thread_id task_event_id) ;;
      mret (Some ())
  | Some p =>
      if p2p_stream t && bool_decide (heartbeat_interval_seconds t < 5)%Z
      then run_task_p2p fuel t p room_id task_event_id
      else run_task_matrix fuel t p room_id task_event_id
  end.

(** *** Capabilities *)
(** [split_whitespace]. *)
Fixpoint words (fuel : nat) (l : Bytes) : list Bytes :=
  match fuel with
  | 0 => []
  | S fuel =>
      let '(word, rest) := split_ws l in
      (if bool_decide (word = []) then [] else [word]) ++ match rest with Some l => words fuel l | None => [] end
  end.
Definition version_of (output : Bytes) : option string :=
  let raw := as_bytes (from_utf8_lossy output) in
  from_bytes <$> List.find (λ word, match word with b :: _ => is_ascii_digit b | [] => false end) (words (S (length raw)) raw).

Definition probe_bin_version (bin : string) : M (option string) :=
  r ← attempt (run_version bin);
  mret (match r with Ok (true, output) => version_of output | Ok (false, _) | Err _ => None end).

Definition build_process_input_schema : InputSchema :=
  mkInputSchema "object"
    {[ "bin" := mkSchemaProperty "string" "Binary to execute";
       "args" := mkSchemaProperty "array" "Command-line arguments";
       "env" := mkSchemaProperty "object" "Environment variables (key-value pairs)";
       "cwd" := mkSchemaProperty "string" "Working directory (absolute path)" ]} ["bin"].

Definition probe_tool (bin : string) : M WorkerTool :=
  version ← probe_bin_version bin;
  mret (mkTool bin version (cat ["Process executor for "; bin]) (bool_decide (is_Some version)) build_process_input_schema).
Fixpoint probe_tools (bins : list string) : M (list WorkerTool) :=
  match bins with
  | [] => mret []
  | bin :: bins => tool ← probe_tool bin; tools ← probe_tools bins; mret (tool :: tools)
  end.
Definition build_capability_advertisement (available_bins : list string) : M CapabilityAdvertisement :=
  host ← observe host_name;
  tools ← probe_tools available_bins;
  mret (mkAdvertisement worker_id (default "unknown" host) tools).
Definition publish_capability_advertisement (available_bins : list string) (room_id : string) : M () :=
  ad ← build_capability_advertisement available_bins;
  worker_publish_advertisement ad room_id.

(** ** [SenderClient] *)
Context `{!FabricDeserialize (V := V)}.

Definition post_task (t : TaskEvent V) (coordinator_room_id : string) : M string :=
  mx (MatrixClient.send_event coordinator_room_id
        (json_object [("type", json_string EVENT_TASK); ("content", fabric_task_value t)])) ;;
  mret (uuid t).

(** The result of the task in a batch of events. *)
Definition result_of (task_uuid : string) (event : V) : option (TaskResultEvent V) :=
  if negb (str_eqb (default "" (get_str event "type")) EVENT_RESULT) then None else
  content ← get event "content";
  r ← de_result content;
  if str_eqb (res_task r) task_uuid then Some r else None.

Definition poll_duration (deadline now : Instant) : Duration := Z.min (Z.max 0 (deadline - now)) (from_secs 2).

(** [None]: still polling after [fuel] rounds. *)
Fixpoint poll_result (fuel : nat) (deadline : Instant) (task_uuid room_id : string) : M (option (option (TaskResultEvent V))) :=
  match fuel with
  | 0 => mret None
  | S fuel =>
      now ← observe host_instant;
      if decide (deadline ≤ now)%Z then mret (Some None) else
      now ← observe host_instant;
      events ← mx (MatrixClient.sync_and_collect_events room_id (poll_duration deadline now));
      match head (omap (result_of task_uuid) events) with
      | Some r => mret (Some (Some r))
      | None => poll_result fuel deadline task_uuid room_id
      end
  end.
Definition wait_for_result (fuel : nat) (task_uuid room_id : string) (timeout : Duration)
    : M (option (option (TaskResultEvent V))) :=
  now ← observe host_instant;
  poll_result fuel (now + timeout)%Z task_uuid room_id.
Definition submit_and_wait (fuel : nat) (t : TaskEvent V) (coordinator_room_id : string) (timeout : Duration)
    : M (option (option (TaskResultEvent V))) :=
  task_uuid ← post_task t coordinator_room_id;
  wait_for_result fuel task_uuid coordinator_room_id timeout.

(** [true]: connected. *)
Fixpoint poll_stream (fuel : nat) (deadline : Instant) (task_uuid room_id : string) : M (option bool) :=
  match fuel with
  | 0 => mret None
  | S fuel =>
      now ← observe host_instant;
      if decide (deadline ≤ now)%Z then mret (Some false) else
      now ← observe host_instant;
      mx (MatrixClient.sync_and_collect_events room_id (poll_duration deadline now)) ;;
      offer ← catch (get_room_state_event room_id EVENT_STREAM_OFFER (stream_key task_uuid));
      match (match offer with Ok offer => get_str offer "socket_path" | Err _ => None end) with
      | Some socket_path => ok ← host_ask (connect_socket socket_path); mret (Some ok)
      | None => poll_stream fuel deadline task_uuid room_id
      end
  end.
Definition connect_stream (fuel : nat) (task_uuid room_id : string) (timeout : Duration) : M (option bool) :=
  now ← observe host_instant;
  poll_stream fuel (now + timeout)%Z task_uuid room_id.
End worker.

(** ** Lemmas *)
(** What the outside keeps a record of: [sent], the events that the homeserver
    took; [stdout], what reading lines from the process is still to give, line
    by line: a line, or an error for one that is not UTF-8 or cannot be read.
    Documented behaviour: a request to send is one event when it succeeds and
    none when it fails, lines are read in order, nothing else sends or reads. *)
Class ProcessLogged {W V : Type} `{MatrixSdk W V} `{ProcessHost W} (sent : W → list (string * V))
    (stdout : W → list (result string string)) : Prop := {
  raw_logged room ty content w :
    match sdk_send_raw room ty content w with
    | (Returns _, w') => sent w' = sent w ++ [(ty, content)] ∧ stdout w' = stdout w
    | (Raises _, w') => sent w' = sent w ∧ stdout w' = stdout w
    | (Panics, _) => False
    end;
  spawn_logged p cwd w : sent (spawn_process p cwd w).2 = sent w;
  line_logged w :
    match next_line w with
    | (Returns (Some line), w') => stdout w = Ok line :: stdout w' ∧ sent w' = sent w
    | (Returns None, w') => stdout w = [] ∧ stdout w' = [] ∧ sent w' = sent w
    | (Raises e, w') => stdout w = Err e :: stdout w' ∧ sent w' = sent w
    | (Panics, _) => False
    end;
  wait_logged w : (wait_child w).1 ≠ Panics ∧ sent (wait_child w).2 = sent w;
  write_logged b w : sent (stream_write b w).2 = sent w ∧ stdout (stream_write b w).2 = stdout w;
  shutdown_logged w : sent (stream_shutdown w) = sent w;
}.
(** The lines before the first that cannot be read. *)
Fixpoint lines_read (l : list (result string string)) : list string :=
  match l with Ok line :: l => line :: lines_read l | _ => [] end.
(** A JSON object has the fields that it was built from. *)
Class JsonObjects (V : Type) `{JsonBuild V} `{JsonNumbers V} : Prop := as_object_object (l : list (string * V)) : as_object (json_object l) = Some l.

Section process_theorems.
Context {W V : Type} `{MatrixSdk W V} `{JsonLaws V} `{!JsonObjects V} `{HttpServer W V} `{RestExternals} `{Base64} `{ProcessHost W}.
Context (worker_id : string) (sent : W → list (string * V)) (stdout : W → list (result string string)) `{!ProcessLogged sent stdout}.
Variable room : string.
Hypothesis room_known : ∀ w, sdk_get_room room w = true.
Local Notation M := (Io W string).

(** The computation sends one event with these fields, or fails and sends none. *)
Definition has_fields (fields : list (string * V)) (content : V) : Prop := ∀ k v, (k, v) ∈ fields → get content k = Some v.
Definition sends_one (ty : string) (fields : list (string * V)) {A} (m : M A) : Prop :=
  ∀ w, match m w with
       | (Returns _, w') => stdout w' = stdout w ∧ ∃ content, has_fields fields content ∧ sent w' = sent w ++ [(ty, content)]
       | (Raises _, w') => stdout w' = stdout w ∧ sent w' = sent w
       | (Panics, _) => False
       end.

Lemma raw_sends_one {A} ty fields content (k : string → A) :
  has_fields fields content →
  sends_one ty fields (mx (need_room room ;; io_map_err Sdk (sdk_send_raw room ty content)) ≫= λ e, mret (k e)).
Proof using All.
  intros Hf w. pose proof (raw_logged (sent := sent) (stdout := stdout) room ty content w) as Hraw.
  unfold mx, io_map_err, need_room, mbind, Io_bind, observe. rewrite room_known. unfold mret, Io_ret.
  destruct (sdk_send_raw room ty content w) as [[e|e|] w']; [|by destruct Hraw|done].
  destruct Hraw as [Hs Ho]. split; [done|]. by exists content.
Qed.

Lemma post_sends_one ty (fields : list (string * V)) task_event_id :
  NoDup fields.*1 → "m.relates_to" ∉ fields.*1 →
  sends_one ty fields (post_about_task ty (json_object fields) room task_event_id).
Proof using All.
  intros Hnd Hrel. unfold post_about_task.
  assert (Hfields : has_fields fields (json_object fields)) by (intros k v Hkv; by apply get_object).
  assert (Hev : sends_one ty fields
    (mx (MatrixClient.send_event room (json_object [("type", json_string ty); ("content", json_object fields)])) ;; mret ())).
  { unfold MatrixClient.send_event.
    rewrite (get_str_object _ "type" ty) by (first [apply (bool_decide_unpack _); reflexivity|set_solver]).
    rewrite (get_object _ "content" (json_object fields)) by (first [apply (bool_decide_unpack _); reflexivity|set_solver]).
    by apply (raw_sends_one ty fields _ (λ _, ())). }
  destruct task_event_id as [eid|]; [|exact Hev]. destruct (str_eqb eid ""); [exact Hev|].
  unfold send_threaded_event. apply (raw_sends_one ty fields _ (λ _, ())). intros k v Hkv.
  rewrite as_object_object. cbn [from_option id]. unfold object_insert.
  assert (Hall : filter (λ kv : string * V, kv.1 ≠ "m.relates_to") fields = fields).
  { apply list_filter_all. apply Forall_forall. intros [k' v'] Hin. simpl. intros ->. apply Hrel. apply list_elem_of_fmap. by exists ("m.relates_to", v'). }
  rewrite Hall. apply get_object; [|set_solver]. rewrite fmap_app. apply NoDup_app. split; [done|].
  split; [set_solver|]. by apply NoDup_singleton.
Qed.

(** The event reports this batch of the output of the task. *)
Definition reports (task_uuid batch : string) (event : string * V) : Prop :=
  event.1 = EVENT_HEARTBEAT ∧ get_str event.2 "task_uuid" = Some task_uuid ∧ get_str event.2 "progress" = Some batch.

(** The events that carry these batches: for each of them one, or none when the
    request for it failed. *)
Inductive beats (task_uuid task_event_id : string) : list string → list (string * V) → Prop :=
| beats_nil : beats task_uuid task_event_id [] []
| beats_told batches events batch event :
    beats task_uuid task_event_id batches events → reports task_uuid batch event →
    beats task_uuid task_event_id (batches ++ [batch]) (events ++ [event])
| beats_lost batches events batch w0 e w1 :
    beats task_uuid task_event_id batches events →
    post_heartbeat worker_id task_uuid (Some batch) room (thread_id task_event_id) w0 = (Raises e, w1) →
    beats task_uuid task_event_id (batches ++ [batch]) events.

Lemma heartbeat_sends_one task_uuid batch task_event_id w :
  match post_heartbeat worker_id task_uuid (Some batch) room (thread_id task_event_id) w with
  | (Returns _, w') => stdout w' = stdout w ∧ ∃ event, sent w' = sent w ++ [event] ∧ reports task_uuid batch event
  | (Raises _, w') => stdout w' = stdout w ∧ sent w' = sent w
  | (Panics, _) => False
  end.
Proof using All.
  unfold post_heartbeat, fabric_heartbeat_value. rewrite io_bind_observe. cbn [hb_task hb_worker hb_progress hb_timestamp].
  set (fields := [_; _; _; _] : list (string * V)).
  pose proof (post_sends_one EVENT_HEARTBEAT fields (thread_id task_event_id)
              ltac:(apply (bool_decide_unpack _); reflexivity) ltac:(apply (bool_decide_unpack _); reflexivity) w) as Hp.
  destruct (post_about_task _ _ _ _ w) as [[x|e|] w']; [|done..]. destruct Hp as (Ho & content & Hf & Hs).
  split; [done|]. exists (EVENT_HEARTBEAT, content). split; [done|]. unfold reports, get_str. simpl.
  rewrite (Hf "task_uuid" (json_string task_uuid)), (Hf "progress" (json_string batch)) by (unfold fields; simpl; set_solver).
  simpl. by rewrite !as_str_string.
Qed.

(** A flush: one more batch, posted or lost. *)
Lemma flush_posts task_uuid batch task_event_id batches events (w : W) :
  beats task_uuid task_event_id batches events →
  ∃ w' more, flush_heartbeat worker_id task_uuid batch room task_event_id w = (Returns (), w') ∧
    stdout w' = stdout w ∧ sent w' = sent w ++ more ∧ beats task_uuid task_event_id (batches ++ [batch]) (events ++ more).
Proof using All.
  intros Hb. pose proof (heartbeat_sends_one task_uuid batch task_event_id w) as Hh.
  unfold flush_heartbeat, attempt, mbind, Io_bind.
  destruct (post_heartbeat _ _ _ _ _ w) as [[x|e|] w'] eqn:Ep; [..|done].
  - destruct Hh as (Ho & event & Hs & Hrep). exists w', [event]. split_and!; [done..|]. by apply beats_told.
  - destruct Hh as [Ho Hs]. exists w', []. rewrite !app_nil_r. split_and!; [done..|]. by eapply beats_lost.
Qed.

Lemma cat_bytes (l k : list string) : as_bytes (cat (l ++ k)) = as_bytes (cat l) ++ as_bytes (cat k).
Proof. induction l as [|s l IH]; [done|]. cbn [app]. by rewrite !cat_cons, IH, app_assoc. Qed.

(** What reading the rest of the output does, from a loop state. *)
Definition text_of (lines : list string) : Bytes := as_bytes (cat (with_newline <$> lines)).

Lemma text_of_cons line lines : text_of (line :: lines) = as_bytes (with_newline line) ++ text_of lines.
Proof. unfold text_of. cbn [fmap list_fmap]. by rewrite cat_cons. Qed.

(** A line taken: it goes to the batch, which may be posted. *)
Lemma take_line_posts task_uuid task_event_id line st batches events (w : W) :
  beats task_uuid task_event_id batches events →
  ∃ st' w' batches' more,
    take_line worker_id task_uuid room task_event_id line st w = (Returns st', w') ∧
    rd_lines st' = rd_lines st ++ [line] ∧ stdout w' = stdout w ∧ sent w' = sent w ++ more ∧
    beats task_uuid task_event_id batches' (events ++ more) ∧
    as_bytes (cat batches') ++ as_bytes (rd_batch st')
    = as_bytes (cat batches) ++ as_bytes (rd_batch st) ++ as_bytes (with_newline line).
Proof using All.
  intros Hposted. unfold take_line, mbind at 1, Io_bind at 1.
  assert (Hw : ∃ ok w2, write_line line (rd_stream st) w = (Returns ok, w2) ∧ sent w2 = sent w ∧ stdout w2 = stdout w).
  { unfold write_line, host_ask. destruct (rd_stream st); [|by eexists _, _].
    pose proof (write_logged (sent := sent) (stdout := stdout) (as_bytes (with_newline line)) w) as [? ?].
    destruct (stream_write _ w) as [ok w2]. by eexists _, _. }
  destruct Hw as (ok & w2 & -> & Hs2 & Ho2). rewrite io_bind_observe.
  set (batch := cat [rd_batch st; with_newline line]).
  assert (Hb : as_bytes batch = as_bytes (rd_batch st) ++ as_bytes (with_newline line)).
  { unfold batch. simpl. by rewrite !as_bytes_append, app_nil_r. }
  destruct (_ || _).
  - destruct (flush_posts task_uuid batch task_event_id batches events w2 Hposted) as (w3 & more & Hfl & Ho3 & Hs3 & Hp3).
    rewrite (io_bind_step _ _ _ _ _ Hfl), io_bind_observe. unfold mret, Io_ret.
    eexists _, w3, (batches ++ [batch]), more. split; [done|]. simpl. split_and!; [done|congruence|congruence|done|].
    rewrite cat_bytes. cbn [cat foldr]. by rewrite as_bytes_append, !app_nil_r, Hb.
  - unfold mret, Io_ret. eexists _, w2, batches, []. rewrite !app_nil_r. split; [done|]. simpl. by rewrite Hb.
Qed.

Lemma read_output_posts fuel task_uuid task_event_id : ∀ st batches events (w : W),
  length (lines_read (stdout w)) < fuel → beats task_uuid task_event_id batches events →
  ∃ st' w' batches' more,
    read_output worker_id fuel task_uuid room task_event_id st w = (Returns (Some st'), w') ∧
    rd_lines st' = rd_lines st ++ lines_read (stdout w) ∧ sent w' = sent w ++ more ∧
    beats task_uuid task_event_id batches' (events ++ more) ∧
    as_bytes (cat batches') ++ as_bytes (rd_batch st')
    = as_bytes (cat batches) ++ as_bytes (rd_batch st) ++ text_of (lines_read (stdout w)).
Proof using All.
  induction fuel as [|fuel IH]; intros st batches events w Hf Hposted; [lia|]. cbn [read_output].
  pose proof (line_logged (sent := sent) (stdout := stdout) w) as Hl. unfold attempt, mbind at 1, Io_bind at 1.
  assert (Hstop : ∀ w1, lines_read (stdout w) = [] → sent w1 = sent w →
    ∃ st' w' batches' more, (mret (Some st) : M (option Reading)) w1 = (Returns (Some st'), w') ∧
      rd_lines st' = rd_lines st ++ lines_read (stdout w) ∧ sent w' = sent w ++ more ∧
      beats task_uuid task_event_id batches' (events ++ more) ∧
      as_bytes (cat batches') ++ as_bytes (rd_batch st')
      = as_bytes (cat batches) ++ as_bytes (rd_batch st) ++ text_of (lines_read (stdout w))).
  { intros w1 Hr Hs. exists st, w1, batches, []. rewrite Hr, Hs, !app_nil_r. by split_and!. }
  destruct (next_line w) as [[[line|]|e|] w1]; [| | |done].
  2: { destruct Hl as (Ho & _ & Hs). apply Hstop; [by rewrite Ho|done]. }
  2: { destruct Hl as (Ho & Hs). apply Hstop; [by rewrite Ho|done]. }
  destruct Hl as [Ho Hs]. rewrite Ho in Hf |- *. simpl in Hf. cbn [lines_read].
  destruct (take_line_posts task_uuid task_event_id line st batches events w1 Hposted)
    as (st1 & w2 & batches1 & more1 & Ht & Hl1 & Ho1 & Hs1 & Hp1 & Hb1).
  rewrite (io_bind_step _ _ _ _ _ Ht).
  destruct (IH st1 batches1 (events ++ more1) w2) as (st' & w' & batches' & more & Hr & Hl' & Hs' & Hp' & Hb'); [by rewrite Ho1; lia|done|].
  exists st', w', batches', (more1 ++ more). rewrite Ho1 in Hl', Hb'. split; [exact Hr|]. split_and!.
  - by rewrite Hl', Hl1, <-app_assoc.
  - by rewrite Hs', Hs1, Hs, <-app_assoc.
  - by rewrite app_assoc.
  - rewrite Hb', text_of_cons. rewrite app_assoc, Hb1. by rewrite <-!app_assoc.
Qed.

(** The last part of the buffer. *)
Lemma rest_posts task_uuid task_event_id batch batches events (w1 : W) :
  beats task_uuid task_event_id batches events →
  ∃ w2 batches' more,
    ((if str_eqb batch "" then mret () else flush_heartbeat worker_id task_uuid batch room task_event_id) : M ()) w1
      = (Returns (), w2) ∧ sent w2 = sent w1 ++ more ∧ beats task_uuid task_event_id batches' (events ++ more) ∧
    as_bytes (cat batches') = as_bytes (cat batches) ++ as_bytes batch.
Proof using All.
  intros Hposted. destruct (str_eqb batch "") eqn:Eb.
  - apply str_eqb_true in Eb. subst batch. exists w1, batches, []. simpl. rewrite !app_nil_r. by split_and!.
  - destruct (flush_posts task_uuid batch task_event_id batches events w1 Hposted) as (w2 & more & Hfl & _ & Hs2 & Hp2).
    exists w2, (batches ++ [batch]), more. split_and!; [done..|].
    rewrite cat_bytes. cbn [cat foldr]. by rewrite as_bytes_append, app_nil_r.
Qed.

(** The event is the result of the task. *)
Definition tells_result (task_uuid : string) (code : option Z) (lines : list string) (r : V) : Prop :=
  get_str r "task_uuid" = Some task_uuid ∧
  get_str r "status" = Some (if bool_decide (code = Some 0%Z) then "success" else "failed") ∧
  get_str r "output" = Some (tail_lines lines).

Lemma result_sent task_uuid code lines error duration task_event_id (w : W) :
  let status := if bool_decide (code = Some 0%Z) then Success else Failed in
  match (post_result worker_id task_uuid status (Some (json_string (tail_lines lines))) error duration room
           (thread_id task_event_id) ;; mret (Some ())) w with
  | (Returns x, w') => x = Some () ∧ ∃ r, sent w' = sent w ++ [(EVENT_RESULT, r)] ∧ tells_result task_uuid code lines r
  | (Raises _, w') => sent w' = sent w
  | (Panics, _) => False
  end.
Proof using All.
  intros status. unfold post_result, task_result_value. cbn [res_task res_worker res_status res_output res_error res_duration].
  set (fields := [_; _; _; _; _; _] : list (string * V)).
  pose proof (post_sends_one EVENT_RESULT fields (thread_id task_event_id)
              ltac:(apply (bool_decide_unpack _); reflexivity) ltac:(apply (bool_decide_unpack _); reflexivity) w) as Hp.
  unfold mbind, Io_bind. destruct (post_about_task _ _ _ _ w) as [[x|e|] w']; [|by destruct Hp|done].
  destruct Hp as (_ & content & Hc & Hs). split; [done|]. exists content. split; [done|]. unfold tells_result, get_str.
  rewrite (Hc "task_uuid" (json_string task_uuid)), (Hc "status" (task_status_value status)),
       (Hc "output" (json_string (tail_lines lines))) by (unfold fields; simpl; set_solver).
  simpl. unfold task_status_value, status. rewrite !as_str_string. split; [done|]. by split; [case_bool_decide|].
Qed.

(** C32: what the room learns of a task that is run as a process. When the
    process cannot be started, the task fails with that error and nothing is
    sent: a task that was claimed gets no result. When it starts, the run ends,
    given fuel for the lines that it reads. It reads up to the first line that
    it cannot read, which need not be the last: what the process prints from
    there on is dropped. The heartbeats of the task carry the lines that were
    read, each once and in order, but for the batches whose post failed, which
    is not tried again. After them comes the result, and no other event, when
    the run succeeds: success exactly for exit code 0, whatever was dropped, and
    the last fifty of the lines that were read. When waiting for the process or
    posting the result fails, there is no result. *)
Theorem process_reported fuel task_uuid p task_event_id streaming (w : W) :
  let '(o, w') := run_process worker_id fuel task_uuid p room task_event_id streaming w in
  match spawn_process p (default "/tmp" (pp_cwd p)) w with
  | (Raises e, _) => o = Raises e ∧ sent w' = sent w
  | (Panics, _) => True
  | (Returns _, w1) =>
      let lines := lines_read (stdout w1) in
      length lines < fuel →
      ∃ batches events results,
        sent w' = sent w ++ events ++ results ∧
        beats task_uuid task_event_id batches events ∧ as_bytes (cat batches) = text_of lines ∧
        match o with
        | Returns None | Panics => False
        | Raises _ => results = []
        | Returns (Some _) =>
            ∃ code r w2 w3, wait_child w2 = (Returns code, w3) ∧ results = [(EVENT_RESULT, r)] ∧
              tells_result task_uuid code lines r
        end
  end.
Proof using All.
  unfold run_process. rewrite io_bind_observe. pose proof (spawn_logged (sent := sent) (stdout := stdout) p (default "/tmp" (pp_cwd p)) w) as Hsp.
  destruct (spawn_process p _ w) as [[[]|e|] w1] eqn:Es; simpl in Hsp.
  2: { unfold mbind, Io_bind. rewrite Es. by split. }
  2: { by destruct (mbind (M := Io W string) _ _ w). }
  rewrite (io_bind_step _ _ _ _ _ Es), io_bind_observe.
  destruct (decide (length (lines_read (stdout w1)) < fuel)) as [Hf|Hf]; [|destruct (mbind (M := Io W string) _ _ w1); simpl; lia].
  destruct (read_output_posts fuel task_uuid task_event_id (mkReading [] "" (host_instant w1) streaming) [] [] w1 Hf ltac:(constructor))
    as (st & w2 & batches & more & Hr & Hlines & Hs & Hposted & Htext).
  rewrite (io_bind_step _ _ _ _ _ Hr). simpl in Hlines, Htext, Hposted. rewrite Hsp in Hs.
  destruct (rest_posts task_uuid task_event_id (rd_batch st) _ _ w2 Hposted) as (w3 & batches' & more' & Hfl & Hs3 & Hposted' & Htext').
  rewrite (io_bind_step _ _ _ _ _ Hfl). rewrite Htext in Htext'.
  assert (Hsd : ∃ w4, ((if rd_stream st then host_step stream_shutdown else mret ()) : M ()) w3 = (Returns (), w4) ∧ sent w4 = sent w3).
  { destruct (rd_stream st); [|by eexists]. eexists. split; [reflexivity|]. apply (shutdown_logged (stdout := stdout)). }
  destruct Hsd as (w4 & Hsd & Hs4). rewrite (io_bind_step _ _ _ _ _ Hsd).
  assert (Hall : sent w4 = sent w ++ more ++ more') by (by rewrite Hs4, Hs3, Hs, <-app_assoc).
  pose proof (wait_logged (sent := sent) (stdout := stdout) w4) as [Hwp Hw].
  destruct (wait_child w4) as [[code|e|] w5] eqn:Ew; simpl in Hwp, Hw; [| |done].
  2: { unfold mbind, Io_bind. rewrite Ew.
    intros _. exists batches', (more ++ more'), []. rewrite Hw, Hall, app_nil_r. by split_and!. }
  rewrite (io_bind_step _ _ _ _ _ Ew), io_bind_observe, Hlines.
  pose proof (λ error, result_sent task_uuid code (lines_read (stdout w1)) error ((host_instant w5 - host_instant w) / 1000000000)%Z
                         task_event_id w5) as Hres. cbv zeta in Hres.
  unfold exit_report. destruct (bool_decide (code = Some 0%Z)) eqn:Ec;
    (match goal with |- context [post_result _ _ _ _ ?error _ _ _] => specialize (Hres error) end;
     destruct (mbind (M := Io W string) _ _ w5) as [o w']; cbv beta zeta; intros _; destruct o as [x|e|]; [|..|done];
     [destruct Hres as (-> & r & Hsr & Htell); exists batches', (more ++ more'), [(EVENT_RESULT, r)]; rewrite Hsr, Hw, Hall, <-app_assoc;
      split_and!; [done..|]; by exists code, r, w4, w5
     |exists batches', (more ++ more'), []; rewrite Hres, Hw, Hall, app_nil_r; by split_and!]).
Qed.
End process_theorems.

(** *** Waiting for a result *)
Section waiting.
Context {W V : Type} `{MatrixSdk W V} `{JsonValue V} `{JsonU64 V} `{JsonBuild V} `{JsonContainers V}
  `{JsonNumbers V} `{HttpServer W V} `{RestExternals} `{Base64} `{ProcessHost W} `{!FabricDeserialize (V := V)}.
Variable room : string.
(** A sync takes time, at least [tick]. *)
Variable tick : Z.
Hypothesis tick_pos : (0 < tick)%Z.
Hypothesis sync_takes_time : ∀ d w, (host_instant w + tick ≤ host_instant (MatrixClient.sync_and_collect_events room d w).2)%Z.
Local Notation M := (Io W string).

(** The event is the result of the task, in what some sync brought. *)
Definition was_synced (task_uuid : string) (r : TaskResultEvent V) : Prop :=
  ∃ d w events w' event, MatrixClient.sync_and_collect_events room d w = (Returns events, w') ∧
    event ∈ events ∧ result_of task_uuid event = Some r.

Lemma poll_result_ends fuel deadline task_uuid (w : W) :
  (deadline - host_instant w ≤ tick * Z.of_nat fuel)%Z →
  let '(o, w') := poll_result (S fuel) deadline task_uuid room w in
  match o with
  | Returns None => False
  | Returns (Some None) => (deadline ≤ host_instant w')%Z
  | Returns (Some (Some r)) => was_synced task_uuid r
  | Raises _ | Panics => True
  end.
Proof using All.
  revert w. induction fuel as [|fuel IH]; intros w Hf; cbn [poll_result]; rewrite io_bind_observe; case_decide as Hd; [done|lia|done|].
  rewrite io_bind_observe. set (d := poll_duration _ _).
  pose proof (sync_takes_time d w) as Ht. unfold mbind, Io_bind, mx, io_map_err.
  destruct (MatrixClient.sync_and_collect_events room d w) as [[events|e|] w1] eqn:Es; [|done..]. simpl in Ht.
  destruct (head (omap (result_of task_uuid) events)) as [r|] eqn:Eh.
  - unfold mret, Io_ret. apply head_Some_elem_of, list_elem_of_omap in Eh as (event & Hin & Hr). by exists d, w, events, w1, event.
  - apply IH. lia.
Qed.

(** The wait for a result ends. With fuel for the timeout and syncs that
    take at least some time, it ends: with a result of that very task that a
    sync brought, with none and then the timeout is over, or with the error of a
    sync. *)
Theorem result_wait_ends fuel task_uuid timeout (w : W) :
  (timeout ≤ tick * Z.of_nat fuel)%Z →
  let '(o, w') := wait_for_result (S fuel) task_uuid room timeout w in
  match o with
  | Returns None => False
  | Returns (Some None) => (host_instant w + timeout ≤ host_instant w')%Z
  | Returns (Some (Some r)) => res_task r = task_uuid ∧ was_synced task_uuid r
  | Raises _ | Panics => True
  end.
Proof using All.
  intros Ht. unfold wait_for_result. rewrite io_bind_observe.
  assert (Hf : (host_instant w + timeout - host_instant w ≤ tick * Z.of_nat fuel)%Z) by lia.
  pose proof (poll_result_ends fuel _ task_uuid w Hf) as Hp.
  destruct (poll_result (S fuel) _ task_uuid room w) as [[[[r|]|]|e|] w']; try done.
  split; [|done]. destruct Hp as (d & w1 & events & w2 & event & _ & _ & Hr). unfold result_of in Hr.
  destruct (str_eqb _ EVENT_RESULT); [|done]. simpl in Hr. apply bind_Some in Hr as (c & _ & Hr).
  apply bind_Some in Hr as (r' & _ & Hr). destruct (str_eqb (res_task r') task_uuid) eqn:E; [|done].
  apply str_eqb_true in E. by simplify_eq.
Qed.
End waiting.

(** ** Witnesses *)
#[local] Existing Instances toy_json toy_u64 toy_containers toy_build toy_numbers toy_externals toy_base64 toy_json_laws.

Record ToyHost := mkToyHost { th_sent : list (string * TJson); th_stdout : list (result string string); th_ms : Z }.
#[local] Instance toy_host_sdk : MatrixSdk ToyHost TJson :=
  toy_sdk_sending (λ _ ty content w, mkToyHost (th_sent w ++ [(ty, content)]) (th_stdout w) (th_ms w))
    (mkFeed th_ms (λ _ _ _ w, w) (λ w, (Returns [], mkToyHost (th_sent w) (th_stdout w) (th_ms w + 1000))) [] [] []).
#[local] Instance toy_host_http : HttpServer ToyHost TJson := λ _ w, (Err "down", w).
#[local] Instance toy_host : ProcessHost ToyHost := {|
  host_instant := th_ms; host_epoch_secs w := th_ms w; host_name _ := Some "h";
  spawn_process p _ w := if str_eqb (pp_bin p) "sh" then (Returns (), mkToyHost (th_sent w) [Ok "a"; Ok "b"; Err "stream did not contain valid UTF-8"; Ok "c"] (th_ms w))
                         else (Raises "No such file or directory", w);
  next_line w := match th_stdout w with
                 | [] => (Returns None, w)
                 | Ok l :: ls => (Returns (Some l), mkToyHost (th_sent w) ls (th_ms w + 31000000000))
                 | Err e :: ls => (Raises e, mkToyHost (th_sent w) ls (th_ms w))
                 end;
  wait_child := mret (Some 3%Z); run_version _ := raise "none"; bind_socket _ := mret (); accept_within _ w := (true, w);
  stream_write _ w := (true, w); stream_shutdown w := w; remove_socket_file _ w := w; connect_socket _ w := (false, w) |}.
Lemma toy_host_logged : ProcessLogged th_sent th_stdout.
Proof.
  split; try done.
  - intros p cwd w. simpl. by destruct (str_eqb (pp_bin p) "sh").
  - intros [s [|[l|e] ls] ms]; done.
Qed.
Lemma toy_objects : JsonObjects TJson.
Proof. intros l. apply t_fields_obj. Qed.
#[local] Existing Instances toy_host_logged toy_objects.

(** Two lines, half a minute apart, one that is not UTF-8, another, and exit
    code 3. *)
Lemma process_reported_witness :
  let w := mkToyHost [] [] 0 in
  let '(o, w') := run_process "wk" 3 "t-1" (mkProcess "sh" [] ∅ None) "!r" "$t" true w in
  o = Returns (Some ()) ∧ omap (λ e, get_str e.2 "progress") (th_sent w') = [with_newline "a"; with_newline "b"] ∧
  ∃ r, last (th_sent w') = Some (EVENT_RESULT, r) ∧ tells_result "t-1" (Some 3%Z) ["a"; "b"] r.
Proof.
  intros w.
  pose proof (process_reported "wk" th_sent th_stdout "!r" (λ _, eq_refl) 3 "t-1" (mkProcess "sh" [] ∅ None) "$t" true w) as Hrun.
  destruct (run_process _ _ _ _ _ _ _ _) as [o w'] eqn:E.
  assert (Ho : o = Returns (Some ()) ∧ omap (λ e, get_str e.2 "progress") (th_sent w') = [with_newline "a"; with_newline "b"]).
  { vm_compute in E. injection E as <- <-. split; vm_compute; reflexivity. }
  destruct Ho as [-> Hp]. split; [reflexivity|]. split; [exact Hp|].
  destruct (Hrun ltac:(vm_compute; lia)) as (batches & events & results & Hs & _ & _ & code & r & w2 & w3 & Hw & -> & Ht).
  injection Hw as <- _. exists r. split; [|exact Ht]. rewrite Hs. by rewrite app_assoc, last_snoc.
Defined.
