(* ===== verification/Cleanup.v ===== *)
(** * Cleanup: deleting devices and leaving rooms
    ([mxdx-client/cleanup.rs] and the command in [main.rs])

    The command logs in over HTTP, lists the devices and rooms of the user and
    removes them. A request without a bearer token has the empty one. *)
From S2P Require Import Prelude Text Json Signaling P2PCrypto MatrixTypes Effects Rest MatrixClient MatrixRooms MatrixDelivery SessionJson ClientProtocol RoomEvents ClientDaemon Config ClientCli ClientDirect Toys.
From stdpp Require Import options.

Record DeviceInfo := mkDeviceInfo { di_device_id : string; di_display_name : option string; di_last_seen_ts : option Z }.

(** [Vec::dedup]. *)
Fixpoint dedup (l : list string) : list string :=
  match l with
  | x :: (y :: _) as l' => if str_eqb x y then dedup l' else x :: dedup l'
  | l => l
  end.
Definition sorted_rooms (joined invited : list string) : list string := dedup (merge_sort String.le (joined ++ invited)).

Section cleanup.
Context {W V : Type} `{JsonValue V} `{JsonU64 V} `{JsonBuild V} `{JsonContainers V} `{JsonNumbers V}
  `{HttpServer W V} `{RestExternals}.
(** The derived [Deserialize] of the two lists. *)
Variable de_devices : V → result (list DeviceInfo) string.
Variable de_joined_rooms : V → result (list string) string.
(** Who logged in, and where. *)
Variables (homeserver access_token : string).
Local Notation M := (Io (Terminal W) CliEnd).

Definition base : string := from_bytes (trim_end_matches SLASH (as_bytes homeserver)).
Definition device_url (device_id : string) : string := cat [base; "/_matrix/client/v3/devices/"; device_id].
Definition room_url (room_id action : string) : string :=
  cat [base; "/_matrix/client/v3/rooms/"; url_encode room_id; action].
Definition send (method : HttpMethod) (url : string) (json : option V) : Io W string Response :=
  http (mkRequest method url access_token json).

Definition list_devices : Io W string (list DeviceInfo) :=
  resp ← send GET (cat [base; "/_matrix/client/v3/devices"]) None;
  if negb (is_success resp) then raise (cat ["Failed to list devices: "; show_status (status resp)]) else
  v ← json_body resp;
  of_result (de_devices v).

Definition delete_device (device_id user_id password : string) : Io W string () :=
  resp ← send DELETE (device_url device_id) None;
  if is_success resp then mret () else
  if negb (bool_decide (status resp = 401%Z)) then raise (cat ["Delete device failed: "; show_status (status resp)]) else
  uia_info ← json_body resp;
  let session := default "" (get_str uia_info "session") in
  let auth_body :=
    json_object [("auth", json_object
      [("type", json_string "m.login.password");
       ("identifier", json_object [("type", json_string "m.id.user"); ("user", json_string (localpart user_id))]);
       ("password", json_string password); ("session", json_string session)])] in
  resp2 ← send DELETE (device_url device_id) (Some auth_body);
  if is_success resp2 then mret () else raise (cat ["UIA delete failed: "; show_status (status resp2)]).

(** The answers are not looked at. *)
Definition leave_and_forget (room_id : string) : Io W string () :=
  send POST (room_url room_id "/leave") (Some (json_object [])) ;;
  send POST (room_url room_id "/forget") (Some (json_object [])) ;;
  mret ().

Definition logout_all : Io W string () :=
  resp ← send POST (cat [base; "/_matrix/client/v3/logout/all"]) (Some (json_object []));
  if is_success resp then mret () else raise (cat ["logout/all failed: "; text resp]).

(** [match op.await { Ok(x) => .., Err(e) => .. }] on the terminal. *)
Definition attempt_world {A} (m : Io W string A) : M (result A string) := try_world (attempt m).

Definition list_rooms : M (list string) :=
  let rest := rest_new homeserver access_token in
  joined ← try_world (list_joined_rooms de_joined_rooms rest);
  r ← attempt_world (list_invited_rooms rest);
  invited ← (match r with
             | Ok l => mret l
             | Err e => eprintln (cat ["  Warning: failed to list invited rooms: "; e]) ;; mret []
             end : M (list string));
  eprintln (cat ["Found "; show (Z.of_nat (length joined)); " joined room(s) and "; show (Z.of_nat (length invited)); " invited room(s)"]) ;;
  mret (sorted_rooms joined invited).

(** The loops over what is to go: how many went, how many did not. *)
Fixpoint delete_devices (user_id password : string) (l : list DeviceInfo) (deleted errors : nat) : M (nat * nat) :=
  match l with
  | [] => mret (deleted, errors)
  | d :: l =>
      r ← attempt_world (delete_device (di_device_id d) user_id password);
      match r with
      | Ok _ => delete_devices user_id password l (S deleted) errors
      | Err e =>
          eprintln (cat ["  Error deleting "; di_device_id d; ": "; e]) ;;
          delete_devices user_id password l deleted (S errors)
      end
  end.
Fixpoint leave_rooms (l : list string) (gone errors : nat) : M (nat * nat) :=
  match l with
  | [] => mret (gone, errors)
  | room_id :: l =>
      r ← attempt_world (leave_and_forget room_id);
      match r with
      | Ok _ => eprintln (cat ["  Left "; room_id]) ;; leave_rooms l (S gone) errors
      | Err e => eprintln (cat ["  Error on "; room_id; ": "; e]) ;; leave_rooms l gone (S errors)
      end
  end.

Definition show_device (d : DeviceInfo) : M () :=
  eprintln (cat ["  "; di_device_id d; " — "; default "(unnamed)" (di_display_name d); " (last seen: ";
                 match di_last_seen_ts d with Some t => cat [show t; "ms"] | None => "never" end; ")"]).

Definition other_devices (current_device_id : string) (devices : list DeviceInfo) : list DeviceInfo :=
  filter (λ d, di_device_id d ≠ current_device_id) devices.

Definition cleanup_devices (current_device_id user_id password : string) (force : bool) : M () :=
  eprintln "Cleaning up devices..." ;;
  devices ← try_world list_devices;
  let to_delete := other_devices current_device_id devices in
  eprintln (cat ["Found "; show (Z.of_nat (length to_delete)); " device(s) to delete (keeping current: "; current_device_id; ")"]) ;;
  for_each show_device to_delete ;;
  if negb force && negb (bool_decide (to_delete = [])) then eprintln "Use --force to proceed with deletion." else
  '(deleted, errors) ← delete_devices user_id password to_delete 0 0;
  eprintln (cat ["Devices: "; show (Z.of_nat deleted); " deleted, "; show (Z.of_nat errors); " errors"]).

Definition cleanup_rooms (force : bool) : M () :=
  eprintln "Cleaning up rooms..." ;;
  rooms ← list_rooms;
  if negb force && negb (bool_decide (rooms = [])) then
    for_each (λ r, eprintln (cat ["  "; r])) rooms ;; eprintln "Use --force to leave and forget all rooms."
  else
  '(gone, errors) ← leave_rooms rooms 0 0;
  eprintln (cat ["Rooms: "; show (Z.of_nat gone); " left+forgotten, "; show (Z.of_nat errors); " errors"]).

Definition targets_of (targets : string) : list string :=
  (λ t, from_bytes (trim t)) <$> split_byte Byte.x2c (as_bytes targets).
Definition known_target (t : string) : bool := str_eqb t "devices" || str_eqb t "rooms" || str_eqb t "all".

(** With [--delete-all-sessions]. *)
Definition cleanup_everything (force : bool) : M () :=
  if negb force then
    eprintln "WARNING: This will log out ALL sessions and delete ALL devices." ;;
    eprintln "You will need to re-login. Use --force to skip this prompt."
  else
    eprintln "Leaving all rooms before logout..." ;;
    all_rooms ← list_rooms;
    for_each (λ r, attempt_world (leave_and_forget r) ;; mret ()) all_rooms ;;
    (if bool_decide (all_rooms = []) then mret ()
     else eprintln (cat ["Left "; show (Z.of_nat (length all_rooms)); " room(s)"])) ;;
    eprintln "Logging out all sessions..." ;;
    try_world logout_all ;;
    eprintln "All sessions logged out. All devices deleted. Re-login required.".

Definition run_cleanup (current_device_id user_id password targets : string) (force delete_all_sessions : bool) : M () :=
  let target_list := targets_of targets in
  if delete_all_sessions then cleanup_everything force else
  for_each (λ t, eprintln (cat ["Unknown cleanup target: '"; t; "'. Use: devices, rooms, all"]))
    (filter (λ t, known_target t = false) target_list) ;;
  (if existsb (λ t, str_eqb t "devices" || str_eqb t "all") target_list
   then cleanup_devices current_device_id user_id password force else mret ()) ;;
  (if existsb (λ t, str_eqb t "rooms" || str_eqb t "all") target_list then cleanup_rooms force else mret ()).
End cleanup.

(** ** The command ([main.rs], [Commands::Cleanup]) *)
Section command.
Context {W V : Type} `{JsonValue V} `{JsonU64 V} `{JsonBuild V} `{JsonContainers V} `{JsonNumbers V}
  `{HttpServer W V} `{RestExternals}.
Variable de_devices : V → result (list DeviceInfo) string.
Variable de_joined_rooms : V → result (list string) string.
Variable load : Io W string ClientRuntimeConfig.
Local Notation M := (Io (Terminal W) CliEnd).

Definition need_field (v : V) (k what : string) : Io W string string :=
  match get_str v k with Some s => mret s | None => raise (cat ["No "; what; " in login response"]) end.

(** The access token, the device and the user. *)
Definition password_login (c : Credentials) : Io W string (string * string * string) :=
  resp ← http (mkRequest POST (cat [base (cr_homeserver c); "/_matrix/client/v3/login"]) ""
           (Some (json_object [("type", json_string "m.login.password");
              ("identifier", json_object [("type", json_string "m.id.user"); ("user", json_string (cr_username c))]);
              ("password", json_string (cr_password c))])));
  if negb (is_success resp) then raise (cat ["Login failed: "; show_status (status resp)]) else
  login_data ← json_body resp;
  access_token ← need_field login_data "access_token" "access_token";
  device_id ← need_field login_data "device_id" "device_id";
  user_id ← need_field login_data "user_id" "user_id";
  mret (access_token, device_id, user_id).

Definition direct_cleanup (o : CliOptions) (targets : string) (force delete_all_sessions : bool) : M () :=
  loaded ← try_world load;
  let config := client_overrides (cli_args o None None false false) loaded in
  creds ← try_world (of_result (require_credentials config));
  '(access_token, device_id, user_id) ← try_world (password_login creds);
  run_cleanup de_devices de_joined_rooms (cr_homeserver creds) access_token device_id user_id (cr_password creds) targets force
    delete_all_sessions.
End command.

(** ** What a computation on the terminal keeps *)
Definition keeps {W A} (P : W → Prop) (m : Io (Terminal W) CliEnd A) : Prop := ∀ t, P (tm_world t) → P (tm_world (m t).2).
Definition keeps_world {W E A} (P : W → Prop) (m : Io W E A) : Prop := ∀ w, P w → P (m w).2.

Section keeps.
Context {W : Type} (P : W → Prop).
Lemma shell_bind {A B} (m : Io (Terminal W) CliEnd A) (k : A → Io (Terminal W) CliEnd B) :
  keeps P m → (∀ x, keeps P (k x)) → keeps P (x ← m; k x).
Proof.
  intros Hm Hk t Ht. unfold mbind, Io_bind. specialize (Hm t Ht). destruct (m t) as [[x|e|] t']; simpl in *; [by apply Hk|done..].
Qed.
Lemma keeps_ret {A} (x : A) : keeps P (mret x).
Proof. by intros t Ht. Qed.
Lemma keeps_show s : keeps P (eprintln s).
Proof. by intros t Ht. Qed.
Lemma keeps_try {A} (m : Io W string A) : keeps_world P m → keeps P (try_world m).
Proof. intros Hm t Ht. unfold try_world. specialize (Hm _ Ht). by destruct (m (tm_world t)) as [[x|e|] w]. Qed.
Lemma shell_attempt {A} (m : Io W string A) : keeps_world P m → keeps P (attempt_world m).
Proof. intros Hm. apply keeps_try. intros w Hw. unfold attempt. specialize (Hm w Hw). by destruct (m w) as [[x|e|] w']. Qed.
Lemma keeps_for_each {A} (f : A → Io (Terminal W) CliEnd ()) l : (∀ x, x ∈ l → keeps P (f x)) → keeps P (for_each f l).
Proof.
  induction l as [|x l IH]; intros Hf; [apply keeps_ret|]. apply shell_bind; [apply Hf, list_elem_of_here|].
  intros _. apply IH. intros y Hy. apply Hf. by apply list_elem_of_further.
Qed.
Lemma kw_bind {E A B} (m : Io W E A) (k : A → Io W E B) :
  keeps_world P m → (∀ x, keeps_world P (k x)) → keeps_world P (x ← m; k x).
Proof.
  intros Hm Hk w Hw. unfold mbind, Io_bind. specialize (Hm w Hw). destruct (m w) as [[x|e|] w']; simpl in *; [by apply Hk|done..].
Qed.
Lemma kw_ret {E A} (x : A) : keeps_world P (mret x : Io W E A).
Proof. by intros w Hw. Qed.
Lemma kw_raise {E A} (e : E) : keeps_world P (raise e : Io W E A).
Proof. by intros w Hw. Qed.
Lemma kw_of_result {E A} (r : result A E) : keeps_world P (of_result r : Io W E A).
Proof. destruct r; by intros w Hw. Qed.
Lemma kw_reads {E A} (m : Io W E A) : reads m → keeps_world P m.
Proof. intros Hm w Hw. by rewrite Hm. Qed.
End keeps.
#[local] Hint Resolve keeps_ret keeps_show kw_ret kw_raise kw_of_result : cleanup.

(** ** Properties *)
Section theorems.
Context {W V : Type} `{JsonValue V} `{JsonU64 V} `{JsonBuild V} `{JsonContainers V} `{JsonNumbers V}
  `{HttpServer W V, !HttpLaws W V} `{RestExternals}.
Variable de_devices : V → result (list DeviceInfo) string.
Variable de_joined_rooms : V → result (list string) string.
Variables (homeserver access_token : string).
Variable P : W → Prop.
Local Abbreviation send := (send (V := V) access_token).

Lemma kw_get url json : keeps_world P (send GET url json).
Proof using All. apply kw_reads. by apply reads_http. Qed.

Lemma keeps_list_rooms : keeps P (list_rooms de_joined_rooms homeserver access_token).
Proof using All.
  unfold list_rooms. apply shell_bind; [apply keeps_try, kw_reads, reads_joined_rooms|]. intros joined.
  apply shell_bind; [apply shell_attempt, kw_reads, reads_invited|]. intros r.
  apply shell_bind; [destruct r; [apply keeps_ret|apply shell_bind; auto with cleanup]|].
  intros invited. apply shell_bind; auto with cleanup.
Qed.

Lemma keeps_list_devices : keeps P (try_world (list_devices de_devices homeserver access_token)).
Proof using All.
  apply keeps_try. unfold list_devices. apply kw_bind; [apply kw_get|]. intros resp.
  destruct (negb _); [apply kw_raise|]. apply kw_bind; intros; apply kw_of_result.
Qed.

(** What a deletion may be: anything but that of the current device. *)
Section kept.
Variables current_device_id user_id password : string.
Definition deletes_current (r : Request V) : Prop :=
  method r = DELETE ∧ url r = device_url homeserver current_device_id.
Hypothesis others : ∀ r w, ¬ deletes_current r → P w → P (http_send r w).2.

Lemma kw_http (r : Request V) : ¬ deletes_current r → keeps_world P (http r).
Proof using All.
  intros Hr w Hw. unfold http. specialize (others r w Hr Hw). by destruct (http_send r w) as [[resp|e] w'].
Qed.

Lemma kw_delete_device d : d ≠ current_device_id → keeps_world P (delete_device homeserver access_token d user_id password).
Proof using All.
  intros Hd. assert (Hr : ∀ json, keeps_world P (send DELETE (device_url homeserver d) json)).
  { intros json. apply kw_http. intros [_ Hu]. apply Hd. simpl in Hu. unfold device_url, cat in Hu. simpl in Hu.
    apply (f_equal as_bytes) in Hu. rewrite !as_bytes_append in Hu. apply (inj as_bytes).
    do 2 apply (app_inv_head _) in Hu. by rewrite !app_nil_r in Hu. }
  unfold delete_device. apply kw_bind; [apply Hr|]. intros resp. destruct (is_success resp); [apply kw_ret|].
  destruct (negb _); [apply kw_raise|]. apply kw_bind; [apply kw_of_result|]. intros v.
  apply kw_bind; [apply Hr|]. intros resp2. destruct (is_success resp2); auto with cleanup.
Qed.

Lemma kw_leave room : keeps_world P (leave_and_forget (V := V) homeserver access_token room).
Proof using All.
  apply kw_bind; [by apply kw_http; intros []|]. intros _. apply kw_bind; [by apply kw_http; intros []|]. auto with cleanup.
Qed.

Lemma keeps_delete_devices l a b :
  (∀ d, d ∈ l → di_device_id d ≠ current_device_id) → keeps P (delete_devices homeserver access_token user_id password l a b).
Proof using All.
  revert a b. induction l as [|d l IH]; intros a b Hl; [apply keeps_ret|]. cbn [delete_devices].
  apply shell_bind; [apply shell_attempt, kw_delete_device, Hl, list_elem_of_here|].
  assert (Hl' : ∀ d, d ∈ l → di_device_id d ≠ current_device_id) by (intros d' Hd'; apply Hl; by apply list_elem_of_further).
  intros [?|e]; [by apply IH|]. apply shell_bind; [apply keeps_show|]. intros _. by apply IH.
Qed.
Lemma keeps_leave_rooms l a b : keeps P (leave_rooms (V := V) homeserver access_token l a b).
Proof using All.
  revert a b. induction l as [|r l IH]; intros a b; [apply keeps_ret|]. cbn [leave_rooms].
  apply shell_bind; [apply shell_attempt, kw_leave|]. intros [?|e]; (apply shell_bind; [apply keeps_show|]; intros _; apply IH).
Qed.
End kept.
End theorems.

Section theorem.
Context {W V : Type} `{JsonValue V} `{JsonU64 V} `{JsonBuild V} `{JsonContainers V} `{JsonNumbers V}
  `{HttpServer W V, !HttpLaws W V} `{RestExternals}.
Variable de_devices : V → result (list DeviceInfo) string.
Variable de_joined_rooms : V → result (list string) string.
Local Abbreviation run := (run_cleanup de_devices de_joined_rooms).

(** What a clean-up leaves alone. Without [--force] it changes nothing on
    the server, whatever its targets are. With it, unless it is to end all
    sessions, it never asks for the current device to be deleted: what holds
    on the server and can only be ended by that holds afterwards, however the
    requests are answered. *)
Theorem cleanup_spares homeserver token device user password targets force everything (t : Terminal W) :
  (force = false → tm_world (run homeserver token device user password targets force everything t).2 = tm_world t) ∧
  (everything = false → ∀ P : W → Prop,
    (∀ r w, ¬ deletes_current homeserver device r → P w → P (http_send r w).2) →
    P (tm_world t) → P (tm_world (run homeserver token device user password targets force everything t).2)).
Proof using All.
  assert (Hunknown : ∀ (P : W → Prop) l, keeps P (for_each (λ t, eprintln (cat ["Unknown cleanup target: '"; t; "'. Use: devices, rooms, all"])) l)).
  { intros P l. apply keeps_for_each. intros. apply keeps_show. }
  split.
  - intros ->. set (P := λ w, w = tm_world t). enough (Hk : keeps P (run homeserver token device user password targets false everything))
      by (by apply Hk).
    unfold run_cleanup. destruct everything; [apply shell_bind; auto with cleanup|].
    apply shell_bind; [apply Hunknown|]. intros _. apply shell_bind.
    + destruct (existsb _ _); [|apply keeps_ret]. apply shell_bind; [apply keeps_show|]. intros _.
      apply shell_bind; [apply (keeps_list_devices _ de_joined_rooms)|]. intros devices. apply shell_bind; [apply keeps_show|]. intros _.
      apply shell_bind; [apply keeps_for_each; intros; apply keeps_show|]. intros _. case_bool_decide as Hd; simpl; [|apply keeps_show].
      rewrite Hd. apply shell_bind; [apply keeps_ret|]. intros [? ?]. apply keeps_show.
    + intros _. destruct (existsb _ _); [|apply keeps_ret]. apply shell_bind; [apply keeps_show|]. intros _.
      apply shell_bind; [apply (keeps_list_rooms de_devices)|]. intros rooms. case_bool_decide as Hd; simpl.
      * rewrite Hd. apply shell_bind; [apply keeps_ret|]. intros [? ?]. apply keeps_show.
      * apply shell_bind; [apply keeps_for_each; intros; apply keeps_show|]. intros _. apply keeps_show.
  - intros -> P Hothers Ht. revert t Ht. change (keeps P (run homeserver token device user password targets force false)).
    unfold run_cleanup. apply shell_bind; [apply Hunknown|]. intros _. apply shell_bind.
    + destruct (existsb _ _); [|apply keeps_ret]. apply shell_bind; [apply keeps_show|]. intros _.
      apply shell_bind; [apply (keeps_list_devices _ de_joined_rooms)|]. intros devices. apply shell_bind; [apply keeps_show|]. intros _.
      apply shell_bind; [apply keeps_for_each; intros; apply keeps_show|]. intros _. destruct (_ && _); [apply keeps_show|].
      apply shell_bind; [|intros [? ?]; apply keeps_show]. apply (keeps_delete_devices de_devices de_joined_rooms _ _ _ device _ _ Hothers).
      intros d Hd. by apply list_elem_of_filter in Hd as [Hne _].
    + intros _. destruct (existsb _ _); [|apply keeps_ret]. apply shell_bind; [apply keeps_show|]. intros _.
      apply shell_bind; [apply (keeps_list_rooms de_devices)|]. intros rooms. destruct (_ && _).
      * apply shell_bind; [apply keeps_for_each; intros; apply keeps_show|]. intros _. apply keeps_show.
      * apply shell_bind; [|intros [? ?]; apply keeps_show]. apply (keeps_leave_rooms de_devices de_joined_rooms _ _ _ device user password Hothers).
Qed.
End theorem.
