(* ===== verification/PolicyAppservice.v ===== *)
(** * PolicyAppservice: registering the policy agent
    ([mxdx-policy/config.rs], [appservice.rs])

    The registration document, written as YAML by hand, and its registration
    with a homeserver: an admin command is sent to the admin room and the room
    is synced until the answer is there. *)
From S2P Require Import Prelude Text Json Signaling P2PCrypto MatrixTypes Effects Rest MatrixClient MatrixDelivery SessionJson Toys.
From stdpp Require Import options.

(** ** Configuration ([config.rs]) *)
Record PolicyConfig := mkPolicyConfig {
  homeserver_url : string; as_token : string; hs_token : string; server_name : string; sender_localpart : string;
  user_prefix : string; appservice_port : Z }.
Definition default_sender_localpart : string := "mxdx-policy".
Definition default_user_prefix : string := "agent-".
Definition default_appservice_port : Z := 9100.

(** [.^$+?()[]{}|\]; each is one byte. *)
Definition regex_special (b : byte) : bool :=
  match b with
  | Byte.x2e | Byte.x5e | Byte.x24 | Byte.x2b | Byte.x3f | Byte.x28 | Byte.x29 | Byte.x5b | Byte.x5d | Byte.x7b | Byte.x7d
  | Byte.x7c | Byte.x5c => true
  | _ => false
  end.
Definition BACKSLASH : byte := Byte.x5c.
Definition regex_escape (s : string) : string :=
  from_bytes (as_bytes s ≫= λ b, if regex_special b then [BACKSLASH; b] else [b]).

Definition appservice_url (c : PolicyConfig) : string := cat ["http://127.0.0.1:"; show (appservice_port c)].
Definition user_namespace_regex (c : PolicyConfig) : string :=
  cat ["@"; regex_escape (user_prefix c); ".*:"; regex_escape (server_name c)].

(** ** The registration ([appservice.rs]) *)
Record NamespaceEntry := mkNamespaceEntry { exclusive : bool; regex : string }.
Record Namespaces := mkNamespaces { ns_users : list NamespaceEntry; ns_rooms : list NamespaceEntry; ns_aliases : list NamespaceEntry }.
Record AppserviceRegistration := mkRegistration {
  reg_id : string; reg_url : string; reg_as_token : string; reg_hs_token : string; reg_sender_localpart : string;
  reg_namespaces : Namespaces }.

Definition APPSERVICE_ID : string := "mxdx-policy".
Definition from_config (c : PolicyConfig) : AppserviceRegistration :=
  mkRegistration APPSERVICE_ID (appservice_url c) (as_token c) (hs_token c) (sender_localpart c)
    (mkNamespaces [mkNamespaceEntry true (user_namespace_regex c)] [] []).

Definition EOL : string := from_bytes [Byte.x0a].
Definition QUOTE : string := from_bytes [Byte.x22].
Definition quoted_line (key value : string) : string := cat [key; ": "; QUOTE; value; QUOTE; EOL].
Definition entry_yaml (e : NamespaceEntry) : string :=
  cat ["    - exclusive: "; (if exclusive e then "true" else "false"); EOL; "      regex: '"; regex e; "'"; EOL].
Definition format_yaml (r : AppserviceRegistration) : string :=
  cat ["id: "; reg_id r; EOL; quoted_line "url" (reg_url r); quoted_line "as_token" (reg_as_token r);
       quoted_line "hs_token" (reg_hs_token r); quoted_line "sender_localpart" (reg_sender_localpart r);
       "namespaces:"; EOL; "  users:"; EOL; cat (entry_yaml <$> ns_users (reg_namespaces r));
       "  rooms: []"; EOL; "  aliases: []"; EOL].
Definition to_yaml (r : AppserviceRegistration) : result string string := Ok (format_yaml r).

(** [ManualRegistrar]: what the file must mention. *)
Definition validate_registration_yaml (content path : string) : result () string :=
  match List.find (λ field, negb (contains (as_bytes field) (as_bytes content))) ["id:"; "as_token:"; "hs_token:"] with
  | Some field =>
      Err (cat ["Registration file "; path; " missing required field '";
                from_bytes (trim_end_matches Byte.x3a (as_bytes field)); "'"])
  | None => Ok ()
  end.
(** [file]: what is read from the path; [None] when it does not exist. *)
Definition register_manual (path : string) (file : option (result string string)) : result () string :=
  match file with
  | None => Err (cat ["Manual registration file not found: "; path])
  | Some content => let? content := content in validate_registration_yaml content path
  end.

(** [urlencoded]. *)
Definition escaped_byte (b : byte) : Bytes :=
  match b with
  | Byte.x21 => as_bytes "%21" | Byte.x3a => as_bytes "%3A" | Byte.x23 => as_bytes "%23" | b => [b]
  end.
Definition urlencoded (s : string) : string := from_bytes (as_bytes s ≫= escaped_byte).

(** The time, sleeping and drawing an id, beside the server. *)
Class RegistrarClock (W : Type) := {
  rc_instant_ms : W → Z; rc_sleep_ms : Z → W → W; rc_uuid : W → string * W }.

Section registrar.
Context {W V : Type} `{HttpServer W V} `{JsonValue V} `{JsonU64 V} `{JsonContainers V} `{JsonBuild V} `{JsonNumbers V}
  `{RestExternals} `{RegistrarClock W}.
(** How [reqwest] writes a value into a query. *)
Variable query_encode : string → string.
Variables (homeserver admin_token : string).
Local Notation M := (Io W string).

Definition joined_rooms_of (body : V) : option (list (string * V)) :=
  rooms ← get body "rooms"; join ← get rooms "join"; as_object join.

Definition admin_alias (event : V) : bool :=
  match get_str event "type" with
  | Some ty =>
      if str_eqb ty "m.room.canonical_alias" then
        match (content ← get event "content"; get_str content "alias") with
        | Some alias => starts_with (as_bytes "#admins:") (as_bytes alias)
        | None => false
        end
      else false
  | None => false
  end.
Definition has_admin_alias (room : string * V) : bool :=
  match (state ← get room.2 "state"; events ← get state "events"; as_array events) with
  | Some events => existsb admin_alias events
  | None => false
  end.

Definition sync_url : string := cat [homeserver; "/_matrix/client/v3/sync"].

Definition find_admin_room : M string :=
  resp ← http (mkRequest GET (cat [sync_url; "?timeout=1000"]) admin_token None);
  if negb (is_success resp) then raise (cat ["Sync failed: "; text resp]) else
  body ← json_body resp;
  let not_found := raise "Could not find #admins room. Is this the first registered (admin) user?" in
  match joined_rooms_of body with
  | None => not_found
  | Some joined =>
      match List.find has_admin_alias joined with
      | Some (room_id, _) => mret room_id
      | None => match joined with [(room_id, _)] => mret room_id | _ => not_found end
      end
  end.

(** The texts of the timelines of all joined rooms. *)
Definition timeline_bodies (body : V) : list string :=
  match joined_rooms_of body with
  | None => []
  | Some joined =>
      joined ≫= λ room,
        match (timeline ← get room.2 "timeline"; events ← get timeline "events"; as_array events) with
        | Some events => omap (λ event, content ← get event "content"; get_str content "body") events
        | None => []
        end
  end.

(** The first text that answers. *)
Fixpoint answer_of (bodies : list string) : option (result () string) :=
  match bodies with
  | [] => None
  | b :: bodies =>
      if contains (as_bytes "Appservice registered") (as_bytes b) then Some (Ok ())
      else if contains (as_bytes "Command failed") (as_bytes b)
      then Some (Err (cat ["Appservice registration failed: "; b]))
      else answer_of bodies
  end.

Definition poll_url (since : option string) : string :=
  cat [sync_url; "?timeout=1000"; match since with Some token => cat ["&since="; query_encode token] | None => "" end].

(** [None]: still polling after [fuel] rounds. *)
Fixpoint await_confirmation (fuel : nat) (deadline : Z) (since : option string) : M (option ()) :=
  match fuel with
  | 0 => mret None
  | S fuel =>
      now ← observe rc_instant_ms;
      if decide (deadline ≤ now)%Z then raise "Timed out waiting for appservice registration confirmation" else
      ((λ w, (Returns (), rc_sleep_ms 200 w)) : M ()) ;;
      resp ← http (mkRequest GET (poll_url since) admin_token None);
      body ← json_body resp;
      let since := match get_str body "next_batch" with Some next => Some next | None => since end in
      match answer_of (timeline_bodies body) with
      | Some r => of_result r ;; mret (Some ())
      | None => await_confirmation fuel deadline since
      end
  end.

Definition command_body (r : AppserviceRegistration) : V :=
  json_object [("msgtype", json_string "m.text");
    ("body", json_string (cat ["!admin appservices register"; EOL; "```yaml"; EOL; format_yaml r; "```"]))].

Definition register_appservice (fuel : nat) (r : AppserviceRegistration) : M (option ()) :=
  admin_room_id ← find_admin_room;
  txn_id ← ((λ w, let '(u, w) := rc_uuid w in (Returns u, w)) : M string);
  resp ← http (mkRequest PUT
    (cat [homeserver; "/_matrix/client/v3/rooms/"; urlencoded admin_room_id; "/send/m.room.message/"; txn_id])
    admin_token (Some (command_body r)));
  if negb (is_success resp) then raise (cat ["Failed to send appservice registration command: "; text resp]) else
  now ← observe rc_instant_ms;
  await_confirmation fuel (now + 10000)%Z None.
End registrar.

(** ** How an escaped text is read *)
(** A regular expression as tokens: a byte that stands for itself, or an
    operator. *)
Inductive RegexToken : Type := Literal (b : byte) | Operator (b : byte).
Definition STAR : byte := Byte.x2a.
Fixpoint regex_tokens (l : Bytes) : list RegexToken :=
  match l with
  | [] => []
  | Byte.x5c :: b :: l => Literal b :: regex_tokens l
  | b :: l => (if regex_special b || bool_decide (b = STAR) then Operator b else Literal b) :: regex_tokens l
  end.

(** A text without stars stands for itself once it is escaped; a star is not
    escaped and stays an operator. *)
Theorem regex_escape_literal s :
  regex_tokens (as_bytes (regex_escape s))
  = (λ b, if bool_decide (b = STAR) then Operator b else Literal b) <$> as_bytes s.
Proof.
  unfold regex_escape. rewrite as_bytes_from_bytes. induction (as_bytes s) as [|b l IH]; [done|].
  rewrite bind_cons. cbn [fmap list_fmap]. rewrite <-IH. by destruct b.
Qed.

(** An answer is taken from any message of any room, whoever wrote it and
    when: the first sync, which has no [since], brings old ones too. *)
Theorem any_message_confirms {W V : Type} `{HttpServer W V} `{JsonValue V} `{JsonU64 V} `{JsonContainers V} `{JsonBuild V}
    `{JsonNumbers V} `{RestExternals} `{RegistrarClock W} query_encode homeserver token fuel deadline (w w' : W) resp (body : V) :
  (rc_instant_ms w < deadline)%Z →
  http (mkRequest GET (poll_url query_encode homeserver None) token None) (rc_sleep_ms 200 w) = (Returns (E := string) resp, w') →
  from_str (text resp) = Ok body →
  answer_of (timeline_bodies body) = Some (Ok ()) →
  await_confirmation (V := V) query_encode homeserver token (S fuel) deadline None w = (Returns (Some ()), w').
Proof.
  intros Ht Hh Hb Hv. cbn [await_confirmation]. rewrite io_bind_observe, decide_False by lia.
  unfold mbind, Io_bind. rewrite Hh. unfold json_body. rewrite Hb. simpl. by rewrite Hv.
Qed.

(** A token that holds a quote breaks out of its line. *)
Lemma yaml_not_escaped :
  quoted_line "as_token" (cat ["a"; QUOTE; EOL; "id: evil"]) = cat ["as_token: "; QUOTE; "a"; QUOTE; EOL; "id: evil"; QUOTE; EOL].
Proof. reflexivity. Qed.
