(* ===== verification/LauncherTerminal.v ===== *)
(** * LauncherTerminal: terminal sessions of the launcher
    ([mxdx-launcher/terminal/], [mxdx-launcher/multi_hs.rs])

    A terminal is a tmux session whose output is captured, numbered, kept in a
    ring buffer and sent compressed; its input comes compressed and is bounded.
    Commands are argument lists handed to the host; base64 and zlib are
    interfaces. Beside them the choice among homeservers. *)
From S2P Require Import Prelude Text P2PCrypto MatrixTypes Effects.
From stdpp Require Import options.

(** ** [ring_buffer.rs] *)
Record EventRingBuffer (T : Type) := mkRing { buffer : list (Z * T); capacity : nat }.
Arguments mkRing {T} buffer capacity.
Arguments buffer {T} e.
Arguments capacity {T} e.

Section ring.
Context {T : Type}.
Definition ring_new (capacity : nat) : EventRingBuffer T := mkRing [] capacity.
Definition ring_push (seq : Z) (event : T) (r : EventRingBuffer T) : EventRingBuffer T :=
  mkRing ((if decide (length (buffer r) = capacity r) then drop 1 (buffer r) else buffer r) ++ [(seq, event)]) (capacity r).
Definition get_range (from to : Z) (r : EventRingBuffer T) : list T :=
  (filter (λ e, from ≤ e.1 ∧ e.1 ≤ to)%Z (buffer r)).*2.
Definition ring_get (seq : Z) (r : EventRingBuffer T) : option T :=
  snd <$> List.find (λ e, bool_decide (e.1 = seq)) (buffer r).
Definition ring_len (r : EventRingBuffer T) : nat := length (buffer r).
End ring.

(** ** [batcher.rs] *)
Record OutputBatcher := mkBatcher { ob_buffer : Bytes; max_bytes : nat; flush_interval : Duration; last_flush : Instant }.
Definition batcher_new (max_bytes : nat) (flush_interval : Duration) (now : Instant) : OutputBatcher :=
  mkBatcher [] max_bytes flush_interval now.
Definition drain (now : Instant) (b : OutputBatcher) : option Bytes * OutputBatcher :=
  (Some (ob_buffer b), mkBatcher [] (max_bytes b) (flush_interval b) now).
Definition batcher_push (data : Bytes) (now : Instant) (b : OutputBatcher) : option Bytes * OutputBatcher :=
  let b := mkBatcher (ob_buffer b ++ data) (max_bytes b) (flush_interval b) (last_flush b) in
  if decide (max_bytes b ≤ length (ob_buffer b)) then drain now b else (None, b).
Definition batcher_tick (now : Instant) (b : OutputBatcher) : option Bytes * OutputBatcher :=
  if negb (bool_decide (ob_buffer b = [])) && bool_decide (flush_interval b ≤ now - last_flush b)%Z then drain now b
  else (None, b).
Definition batcher_flush (now : Instant) (b : OutputBatcher) : option Bytes * OutputBatcher :=
  if bool_decide (ob_buffer b = []) then (None, b) else drain now b.

(** ** [compression.rs] *)
Definition COMPRESSION_THRESHOLD : nat := 32.
Definition CHUNK_SIZE : nat := Z.to_nat 8192.

(** [flate2]: the compressed form of data; what one read of a decoder gives
    for a buffer size, and the decoder after it; [expect] on the encoder. *)
Class Zlib := {
  zlib_compress : Bytes → Bytes;
  Decoder : Type;
  decoder_new : Bytes → Decoder;
  decoder_read : nat → Decoder → result (Bytes * Decoder) string;
}.

Section compression.
Context `{Base64} `{Zlib}.

Definition compress_encode (data : Bytes) : string * string :=
  if decide (length data < COMPRESSION_THRESHOLD) then (b64_encode data, "raw+base64")
  else (b64_encode (zlib_compress data), "zlib+base64").

(** The loop over the decoder; [None] when the fuel is used up. Each turn but
    the last adds at least a byte to what may be at most [max_bytes]. *)
Fixpoint inflate (fuel max_bytes : nat) (d : Decoder) (output : Bytes) : option (result Bytes string) :=
  match fuel with
  | 0 => None
  | S fuel =>
      match decoder_read CHUNK_SIZE d with
      | Err e => Some (Err e)
      | Ok (chunk, d) =>
          if bool_decide (chunk = []) then Some (Ok output) else
          if decide (max_bytes < length (output ++ chunk))
          then Some (Err (cat ["decompressed size exceeds max_bytes "; show (Z.of_nat max_bytes)]))
          else inflate fuel max_bytes d (output ++ chunk)
      end
  end.

Definition decode_decompress_bounded (encoded encoding : string) (max_bytes : nat) : option (result Bytes string) :=
  if str_eqb encoding "raw+base64" then
    Some (let? decoded := b64_decode encoded in
          if decide (max_bytes < length decoded)
          then Err (cat ["decoded size "; show (Z.of_nat (length decoded)); " exceeds max_bytes "; show (Z.of_nat max_bytes)])
          else Ok decoded)
  else if str_eqb encoding "zlib+base64" then
    match b64_decode encoded with
    | Err e => Some (Err e)
    | Ok compressed => inflate (2 + max_bytes) max_bytes (decoder_new compressed) []
    end
  else Some (Err (cat ["unknown encoding: "; encoding])).
End compression.

(** ** [tmux.rs] *)
(** A command that is run: whether it succeeded, and what it printed. *)
Class TmuxHost (W : Type) := {
  run_command : list string → Io W string (bool * Bytes * Bytes);
  tmux_instant : W → Instant;
  tmux_sleep : Duration → W → W;
}.

Definition name_char (b : byte) : bool :=
  byte_range 48 57 b || byte_range 65 90 b || byte_range 97 122 b || bool_decide (b = Byte.x5f) || bool_decide (b = Byte.x2d).
Definition is_valid_session_name (name : string) : bool :=
  negb (str_eqb name "") && forallb name_char (as_bytes name).

Section tmux.
Context {W : Type} `{TmuxHost W} `{Base64} `{Zlib}.
Local Notation M := (Io W string).

Definition tmux (what : string) (args : list string) : M Bytes :=
  '(success, stdout, stderr) ← run_command ("tmux" :: args);
  if success : bool then mret stdout else raise (cat ["tmux "; what; " failed: "; from_utf8_lossy stderr]).

(** A session is its name. *)
Definition tmux_new (name command : string) (cols rows : Z) : M string :=
  if negb (is_valid_session_name name) then raise (cat ["invalid tmux session name: "; name]) else
  tmux "new-session" ["new-session"; "-d"; "-s"; name; "-x"; show cols; "-y"; show rows; command] ;; mret name.
Definition send_input (name data : string) : M () := tmux "send-keys" ["send-keys"; "-t"; name; "-l"; "--"; data] ;; mret ().
Definition capture_pane (name : string) : M string :=
  out ← tmux "capture-pane" ["capture-pane"; "-t"; name; "-p"]; mret (from_utf8_lossy out).
Definition tmux_resize (name : string) (cols rows : Z) : M () :=
  tmux "resize-window" ["resize-window"; "-t"; name; "-x"; show cols; "-y"; show rows] ;; mret ().
Definition tmux_kill (name : string) : M () := tmux "kill-session" ["kill-session"; "-t"; name] ;; mret ().
(** [Drop]: the session is killed, whatever comes of it. *)
Definition tmux_drop (name : string) : M () := attempt (run_command ["tmux"; "kill-session"; "-t"; name]) ;; mret ().

(** [None]: still waiting after [fuel] captures. *)
Fixpoint capture_pane_until (fuel : nat) (name expected : string) (start : Instant) (timeout : Duration) : M (option string) :=
  match fuel with
  | 0 => mret None
  | S fuel =>
      content ← capture_pane name;
      if contains (as_bytes expected) (as_bytes content) then mret (Some content) else
      now ← observe tmux_instant;
      if decide (timeout ≤ now - start)%Z
      then raise (cat ["timed out waiting for "; expected; " in pane output"]) else
      (λ w, (Returns (), tmux_sleep (from_millis 100) w) : outcome () string * W) ;;
      capture_pane_until fuel name expected start timeout
  end.

(** ** [session.rs] *)
Record TerminalSession := mkTerminalSession {
  session_id : string; ring_buffer : EventRingBuffer Bytes; seq : Z; dm_room_id : option string }.
Definition RING_SIZE : nat := Z.to_nat 1000.
Definition MAX_INPUT : nat := Z.to_nat 1048576.

Definition session_create (sid command : string) (cols rows : Z) : M TerminalSession :=
  tmux_new sid command cols rows ;; mret (mkTerminalSession sid (ring_new RING_SIZE) 0 None).

(** [from_utf8]. *)
Definition terminal_input (s : TerminalSession) (encoded_data encoding : string) : M () :=
  match decode_decompress_bounded encoded_data encoding MAX_INPUT with
  | None => panic
  | Some (Err e) => raise e
  | Some (Ok data) => if valid_utf8 data then send_input (session_id s) (from_bytes data) else raise "invalid utf-8 sequence"
  end.

(** [seq += 1] on a [u64]. *)
Definition capture_output (s : TerminalSession) : M (option (string * string * Z) * TerminalSession) :=
  output ← capture_pane (session_id s);
  if str_eqb output "" then mret (None, s) else
  let '(encoded, encoding) := compress_encode (as_bytes output) in
  mret (Some (encoded, encoding, seq s),
        mkTerminalSession (session_id s) (ring_push (seq s) (as_bytes output) (ring_buffer s)) (wrap 64 (seq s + 1)) (dm_room_id s)).

Definition session_resize (s : TerminalSession) (cols rows : Z) : M () := tmux_resize (session_id s) cols rows.
Definition session_kill (s : TerminalSession) : M () := r ← attempt (tmux_kill (session_id s)); tmux_drop (session_id s) ;; of_result r.

(** ** [recovery.rs] *)
Definition list_tmux_sessions : M (list string) :=
  '(success, stdout, _) ← run_command ["tmux"; "list-sessions"; "-F"; "#{session_name}"];
  mret (if success : bool then from_bytes <$> lines (as_bytes (from_utf8_lossy stdout)) else []).
End tmux.

Record SessionState := mkSessionState {
  ss_session_id : string; ss_dm_room_id : string; ss_command : string; ss_cols : Z; ss_rows : Z; ss_last_seq : Z }.
Abbreviation RecoveryState := (gmap string SessionState) (only parsing).
(** [file]: what the file holds, when there is one; [de]: the derived
    [Deserialize] of its text. *)
Definition recovery_load (de : string → result RecoveryState string) (file : option (result string string)) : result RecoveryState string :=
  match file with
  | None => Ok ∅
  | Some data => let? data := data in de data
  end.
Definition recovery_add (s : SessionState) (r : RecoveryState) : RecoveryState := <[ss_session_id s := s]> r.
Definition recovery_remove (sid : string) (r : RecoveryState) : RecoveryState := delete sid r.
(** [values]: the order of the map. *)
Definition recoverable_sessions (values : RecoveryState → list SessionState) (tmux_sessions : list string) (r : RecoveryState)
    : list SessionState :=
  filter (λ s, ss_session_id s ∈ tmux_sessions) (values r).

(** ** [multi_hs.rs] *)
Definition FAIL_THRESHOLD : Z := 3.
Inductive FailoverState : Type := Active | Failing | Failover | Unavailable.
Record MultiHsLauncher := mkLauncher {
  hl_clients : nat; primary_index : nat; hl_state : FailoverState; consecutive_failures : Z }.
Definition MAX_LATENCY : Duration := (2 ^ 64 * 1000000000 - 1)%Z.

(** A probe of a server: how long its sync took, or [None] when it failed. *)
Abbreviation Probe := (nat → option Duration) (only parsing).

(** [min_by_key]: the first of the least. *)
Fixpoint min_latency (l : list (nat * Duration)) : option (nat * Duration) :=
  match l with
  | [] => None
  | (i, d) :: l =>
      match min_latency l with
      | Some (j, e) => if decide (d ≤ e)%Z then Some (i, d) else Some (j, e)
      | None => Some (i, d)
      end
  end.
Definition launcher_start (n : nat) (probe : Probe) : result MultiHsLauncher string :=
  if decide (n = 0) then Err "At least one homeserver URL is required" else
  let latencies := (λ i, (i, default MAX_LATENCY (probe i))) <$> List.seq 0 n in
  Ok (mkLauncher n (default 0 (fst <$> min_latency latencies)) Active 0).

(** The loop over the candidates: the first of the fastest that answers. *)
Definition better (old : nat) (probe : Probe) (best : option (nat * Duration)) (i : nat) : option (nat * Duration) :=
  if decide (i = old) then best else
  match probe i with
  | None => best
  | Some elapsed =>
      match best with
      | Some (_, b) => if decide (elapsed < b)%Z then Some (i, elapsed) else best
      | None => Some (i, elapsed)
      end
  end.
Definition failover (probe : Probe) (l : MultiHsLauncher) : MultiHsLauncher :=
  match foldl (better (primary_index l) probe) None (List.seq 0 (hl_clients l)) with
  | Some (new_index, _) => mkLauncher (hl_clients l) new_index Active 0
  | None => mkLauncher (hl_clients l) (primary_index l) Unavailable (consecutive_failures l)
  end.

(** [primary_up]: the primary's own sync. *)
Definition health_check (primary_up : bool) (probe : Probe) (l : MultiHsLauncher) : MultiHsLauncher :=
  if primary_up then mkLauncher (hl_clients l) (primary_index l) Active 0
  else
    let failures := wrap 32 (consecutive_failures l + 1) in
    if decide (FAIL_THRESHOLD ≤ failures)%Z
    then failover probe (mkLauncher (hl_clients l) (primary_index l) Failover failures)
    else mkLauncher (hl_clients l) (primary_index l) Failing failures.

(** ** The batcher *)
Inductive BatcherOp : Type := BPush (data : Bytes) (now : Instant) | BTick (now : Instant) | BFlush (now : Instant).
Definition batcher_op (b : OutputBatcher) (op : BatcherOp) : option Bytes * OutputBatcher :=
  match op with
  | BPush data now => batcher_push data now b
  | BTick now => batcher_tick now b
  | BFlush now => batcher_flush now b
  end.
Fixpoint batcher_run (b : OutputBatcher) (ops : list BatcherOp) : list Bytes * OutputBatcher :=
  match ops with
  | [] => ([], b)
  | op :: ops =>
      let '(out, b) := batcher_op b op in
      let '(outs, b) := batcher_run b ops in (option_list out ++ outs, b)
  end.
Definition pushed (op : BatcherOp) : Bytes := match op with BPush data _ => data | _ => [] end.

(** Nothing is lost, doubled or reordered, and what stays in the buffer is
    below the limit. *)
Theorem batcher_conserves b ops :
  0 < max_bytes b → length (ob_buffer b) < max_bytes b →
  let '(outs, b') := batcher_run b ops in
  concat outs ++ ob_buffer b' = ob_buffer b ++ concat (pushed <$> ops) ∧ length (ob_buffer b') < max_bytes b'.
Proof.
  revert b. induction ops as [|op ops IH]; intros b Hm Hl; simpl; [by rewrite app_nil_r|].
  assert (Hop : let '(out, b') := batcher_op b op in
    default [] out ++ ob_buffer b' = ob_buffer b ++ pushed op ∧ length (ob_buffer b') < max_bytes b' ∧ 0 < max_bytes b').
  { destruct op as [data now|now|now]; simpl; unfold batcher_push, batcher_tick, batcher_flush, drain; simpl;
      [case_decide|destruct (_ && _)|case_bool_decide]; simpl; rewrite ?app_nil_r; split_and!; done || lia. }
  destruct (batcher_op b op) as [out b1]. destruct Hop as (Hc & Hl1 & Hm1). specialize (IH b1 Hm1 Hl1).
  destruct (batcher_run b1 ops) as [outs b2]. destruct IH as [IH ?]. split; [|done].
  rewrite concat_app, <-app_assoc, IH, !app_assoc. f_equal. by destruct out; simpl in *; rewrite ?app_nil_r.
Qed.

(** ** Compression *)
Section decoder.
Context `{Base64, !Base64Laws} `{Zlib}.

(** Reading the decoder to its end gives the data. *)
Inductive yields : Decoder → Bytes → Prop :=
| yields_end d d' : decoder_read CHUNK_SIZE d = Ok ([], d') → yields d []
| yields_chunk d d' chunk rest :
    decoder_read CHUNK_SIZE d = Ok (chunk, d') → chunk ≠ [] → yields d' rest → yields d (chunk ++ rest).

Lemma inflate_bounded fuel max d output :
  length output ≤ max → max + 2 ≤ fuel + length output →
  ∃ r, inflate fuel max d output = Some r ∧ ∀ data, r = Ok data → length data ≤ max.
Proof.
  revert d output. induction fuel as [|fuel IH]; intros d output Hl Hf; [lia|]. simpl.
  destruct (decoder_read CHUNK_SIZE d) as [[chunk d']|e]; [|by eexists].
  case_bool_decide as Hc; [eexists; split; [done|]; by intros ? [= <-]|].
  case_decide as Ht; [by eexists|]. apply IH; [lia|]. rewrite length_app.
  assert (length chunk ≠ 0) by (by intros ?%nil_length_inv). lia.
Qed.

Lemma inflate_yields fuel max d rest output :
  yields d rest → max + 2 ≤ fuel + length output → length output ≤ max →
  inflate fuel max d output =
  Some (if decide (length (output ++ rest) ≤ max) then Ok (output ++ rest)
        else Err (cat ["decompressed size exceeds max_bytes "; show (Z.of_nat max)])).
Proof.
  intros Hy. revert fuel output. induction Hy as [d d' Hd|d d' chunk rest Hd Hc Hy IH]; intros [|fuel] output Hf Ho; try lia; simpl; rewrite Hd.
  - rewrite bool_decide_eq_true_2 by done. rewrite app_nil_r. by rewrite decide_True.
  - rewrite bool_decide_eq_false_2 by done. assert (length chunk ≠ 0) by (by intros ?%nil_length_inv).
    case_decide as Ht.
    + rewrite decide_False; [done|]. rewrite !length_app in *. lia.
    + rewrite length_app in Ht. rewrite IH by (rewrite length_app; lia). by rewrite <-app_assoc.
Qed.

(** C39: what the decoder of terminal data gives. Whatever text it is handed, it
    ends, and data that it accepts is within the bound, however far a
    compressed text would unfold. On what the encoder makes of some data it
    gives that data back when it is within the bound and an error when it is
    not. *)
Theorem terminal_data_bounded (zlib_law : ∀ data, yields (decoder_new (zlib_compress data)) data) max :
  (∀ encoded encoding, ∃ r, decode_decompress_bounded encoded encoding max = Some r ∧
     ∀ data, r = Ok data → length data ≤ max) ∧
  ∀ data, let '(encoded, encoding) := compress_encode data in
    ∃ e, decode_decompress_bounded encoded encoding max = Some (if decide (length data ≤ max) then Ok data else Err e).
Proof using All.
  split.
  - intros encoded encoding. unfold decode_decompress_bounded. destruct (str_eqb encoding "raw+base64").
    { eexists; split; [done|]. intros data. destruct (b64_decode encoded) as [l|e]; simpl; [|done].
      case_decide; [done|]. intros [= <-]. lia. }
    destruct (str_eqb encoding "zlib+base64"); [|by eexists].
    destruct (b64_decode encoded) as [c|e]; [|by eexists]. apply inflate_bounded; simpl; lia.
  - intros data. unfold compress_encode, decode_decompress_bounded.
    assert (Hz : str_eqb "zlib+base64" "raw+base64" = false) by reflexivity. case_decide as Hd.
    + rewrite str_eqb_refl, b64_decode_encode. cbn [result_bind].
      destruct (decide (length data ≤ max)); [rewrite decide_False by lia; by exists ""|rewrite decide_True by lia; by eexists].
    + rewrite Hz, str_eqb_refl, b64_decode_encode. eexists.
      by rewrite (inflate_yields _ _ _ data) by (apply zlib_law || (cbn [length]; lia)).
Qed.
End decoder.

(** ** Captures *)
(** The events with the numbers from [from] on. *)
Definition numbered {T} (from : Z) (l : list T) : list (Z * T) := imap (λ i x, (from + Z.of_nat i, x)%Z) l.

Lemma numbered_snoc {T} from (l : list T) x : numbered from (l ++ [x]) = numbered from l ++ [((from + Z.of_nat (length l))%Z, x)].
Proof. unfold numbered. rewrite imap_app. simpl. by rewrite Nat.add_0_r. Qed.
Lemma length_numbered {T} from (l : list T) : length (numbered from l) = length l.
Proof. apply length_imap. Qed.

(** The buffer of [ring] holds the last of [events]. *)
Definition holds_last {T} (r : EventRingBuffer T) (events : list (Z * T)) : Prop :=
  buffer r = drop (length events - capacity r) events.

Lemma ring_push_last {T} (r : EventRingBuffer T) events n x :
  0 < capacity r → holds_last r events → holds_last (ring_push n x r) (events ++ [(n, x)]).
Proof.
  unfold holds_last, ring_push. simpl. intros Hc ->. rewrite length_app, length_drop. simpl. case_decide as Hl.
  - rewrite drop_drop. replace (length events - capacity r + 1) with (length events + 1 - capacity r) by lia.
    rewrite drop_app_le; [done|lia].
  - assert (Hz : length events - capacity r = 0) by lia. rewrite Hz. assert (length events + 1 - capacity r = 0) as -> by lia. done.
Qed.

Section captures.
Context {W : Type} `{TmuxHost W} `{Base64, !Base64Laws} `{Zlib}.
Local Notation M := (Io W string).

(** [n] captures: what is to be sent, in order. *)
Fixpoint capture_run (n : nat) (s : TerminalSession) : M (list (string * string * Z) * TerminalSession) :=
  match n with
  | 0 => mret ([], s)
  | S n =>
      '(sent, s) ← capture_output s;
      '(rest, s) ← capture_run n s;
      mret (option_list sent ++ rest, s)
  end.

(** A message carries this output under this number. *)
Definition carries (max : nat) (m : string * string * Z) (e : Z * Bytes) : Prop :=
  m.2 = e.1 ∧ (length e.2 ≤ max → decode_decompress_bounded m.1.1 m.1.2 max = Some (Ok e.2)).

(** The session has captured these outputs. *)
Definition captured (s : TerminalSession) (outputs : list Bytes) : Prop :=
  seq s = Z.of_nat (length outputs) ∧ capacity (ring_buffer s) = RING_SIZE ∧ holds_last (ring_buffer s) (numbered 0 outputs).

Hypothesis zlib_law : ∀ data, yields (decoder_new (zlib_compress data)) data.

Lemma encoded_carries max n data :
  let '(encoded, encoding) := compress_encode data in carries max (encoded, encoding, n) (n, data).
Proof using All.
  unfold compress_encode, carries, decode_decompress_bounded. case_decide; cbn [fst snd]; (split; [done|]); intros Hm.
  - rewrite str_eqb_refl, b64_decode_encode. simpl. by rewrite decide_False by lia.
  - assert (Hz : str_eqb "zlib+base64" "raw+base64" = false) by reflexivity.
    rewrite Hz, str_eqb_refl, b64_decode_encode. rewrite (inflate_yields _ _ _ data) by (apply zlib_law || (cbn [length]; lia)).
    simpl. by rewrite decide_True.
Qed.

Lemma capture_output_captured max s outputs (w w' : W) m s' :
  captured s outputs → (Z.of_nat (length outputs) + 1 < 2 ^ 64)%Z →
  capture_output s w = (Returns (m, s'), w') →
  match m with
  | None => s' = s
  | Some m => ∃ output, captured s' (outputs ++ [output]) ∧ carries max m (Z.of_nat (length outputs), output)
  end ∧ session_id s' = session_id s.
Proof using All.
  intros (Hseq & Hcap & Hlast) Hb. unfold capture_output. intros (output & w1 & _ & Hk)%io_bind_returns.
  destruct (str_eqb output "").
  - unfold mret, Io_ret in Hk. by simplify_eq/=.
  - pose proof (encoded_carries max (seq s) (as_bytes output)) as Hc.
    destruct (compress_encode (as_bytes output)) as [encoded encoding]. unfold mret, Io_ret in Hk. simplify_eq/=.
    split; [|done]. exists (as_bytes output). rewrite Hseq in Hc |- *. split; [|exact Hc]. unfold captured. simpl.
    rewrite length_app. simpl. split_and!; [unfold wrap; rewrite Z.mod_small by lia; lia|done|].
    rewrite numbered_snoc. simpl. apply ring_push_last; [|done]. rewrite Hcap. unfold RING_SIZE. lia.
Qed.

Lemma capture_run_captured max n s outputs (w w' : W) sent s' :
  captured s outputs → (Z.of_nat (length outputs + n) + 1 < 2 ^ 64)%Z →
  capture_run n s w = (Returns (sent, s'), w') →
  ∃ new, captured s' (outputs ++ new) ∧ length new ≤ n ∧ Forall2 (carries max) sent (numbered (Z.of_nat (length outputs)) new).
Proof using All.
  revert s outputs w sent. induction n as [|n IH]; intros s outputs w sent Hs Hb.
  - simpl. unfold mret, Io_ret. intros. simplify_eq. exists []. rewrite app_nil_r. by split_and!.
  - cbn [capture_run]. intros ([m s1] & w1 & Hc & Hk)%io_bind_returns.
    destruct (capture_output_captured max s outputs w w1 m s1 Hs ltac:(lia) Hc) as [Hm _].
    apply io_bind_returns in Hk as ([rest s2] & w2 & Hr & Hk). unfold mret, Io_ret in Hk. simplify_eq/=.
    destruct m as [m|].
    + destruct Hm as (output & Hs1 & Hcar).
      destruct (IH s1 (outputs ++ [output]) w1 rest Hs1) as (new & Hnew & Hl & Hf); [rewrite length_app; simpl; lia|done|].
      exists (output :: new). rewrite <-app_assoc in Hnew. split; [done|]. split; [simpl; lia|].
      unfold numbered. rewrite imap_cons. rewrite Z.add_0_r. constructor; [done|].
      rewrite length_app in Hf. simpl in Hf. unfold numbered in Hf. erewrite imap_ext; [exact Hf|]. intros i x Hx. simpl. f_equal. lia.
    + subst s1. destruct (IH s outputs w1 rest Hs ltac:(lia) Hr) as (new & Hnew & Hl & Hf). exists new. split_and!; [done|lia|done].
Qed.

(** What a terminal sends can be replayed. However often a session that
    was just created captures its pane, the outputs that were not empty are
    sent once each, in order, numbered from 0 without gaps, and each message
    decodes to its output when that is within the bound; a range of numbers
    that is asked for again is answered with exactly those outputs of the range
    that are among the last thousand. *)
Theorem captures_replayed max n sid (w w' : W) sent s' from to :
  (Z.of_nat n + 1 < 2 ^ 64)%Z →
  capture_run n (mkTerminalSession sid (ring_new RING_SIZE) 0 None) w = (Returns (sent, s'), w') →
  ∃ outputs,
    Forall2 (carries max) sent (numbered 0 outputs) ∧
    get_range from to (ring_buffer s')
    = (filter (λ e, from ≤ e.1 ∧ e.1 ≤ to)%Z (drop (length outputs - RING_SIZE) (numbered 0 outputs))).*2.
Proof using All.
  intros Hn Hrun. set (s0 := mkTerminalSession _ _ _ _) in Hrun. assert (H0' : captured s0 []) by by split_and!.
  destruct (capture_run_captured max n s0 [] w w' sent s' H0' Hn Hrun) as (new & (_ & Hc & Hl) & _ & Hf).
  exists new. split; [exact Hf|]. unfold get_range. unfold holds_last in Hl. by rewrite Hl, Hc, length_numbered.
Qed.
End captures.

(** ** The choice among homeservers *)
Lemma min_latency_in l x : min_latency l = Some x → x ∈ l ∧ ∀ y, y ∈ l → (x.2 ≤ y.2)%Z.
Proof.
  revert x. induction l as [|[i d] l IH]; intros x; simpl; [done|].
  destruct (min_latency l) as [[j e]|] eqn:Em.
  - destruct (IH _ eq_refl) as [Hin Hle]. simpl in Hle. case_decide; intros [= <-]; (split; [set_solver|]);
      intros y [->|Hy]%elem_of_cons; simpl; try lia; specialize (Hle _ Hy); lia.
  - intros [= <-]. destruct l as [|[j e] l]; [|simpl in Em; by repeat case_match]. split; [set_solver|].
    intros y [->|Hy]%elem_of_cons; [done|]. by apply elem_of_nil in Hy.
Qed.

(** The best so far, among the candidates that were tried. *)
Definition best_of (old : nat) (probe : nat → option Duration) (tried : list nat) (best : option (nat * Duration)) : Prop :=
  match best with
  | Some (i, d) => i ∈ tried ∧ i ≠ old ∧ probe i = Some d ∧ ∀ j e, j ∈ tried → j ≠ old → probe j = Some e → (d ≤ e)%Z
  | None => ∀ j, j ∈ tried → j ≠ old → probe j = None
  end.
Lemma better_best old probe tried best i : best_of old probe tried best → best_of old probe (tried ++ [i]) (better old probe best i).
Proof.
  unfold better. intros Hb. case_decide as Hi.
  { subst i. destruct best as [[k d]|]; simpl in *; [|set_solver]. destruct Hb as (? & ? & ? & Hle). split_and!; [set_solver|done|done|].
    intros j e [Hj|Hj%list_elem_of_singleton]%elem_of_app; [by apply Hle|done]. }
  destruct (probe i) as [d|] eqn:Ep.
  - destruct best as [[k b]|]; simpl in *.
    + destruct Hb as (Hk & Hko & Hkp & Hle). case_decide; simpl; (split_and!; [set_solver|done|done|]);
        intros j e [Hj|Hji%list_elem_of_singleton]%elem_of_app Hjo Hje; try (specialize (Hle j e Hj Hjo Hje)); try subst j; simplify_eq; lia.
    + split_and!; [set_solver|done|done|]. intros j e [Hj|Hji%list_elem_of_singleton]%elem_of_app Hjo Hje; [|subst j; by simplify_eq].
      by rewrite (Hb j Hj Hjo) in Hje.
  - destruct best as [[k b]|]; simpl in *.
    + destruct Hb as (Hk & Hko & Hkp & Hle). split_and!; [set_solver|done|done|].
      intros j e [Hj|Hji%list_elem_of_singleton]%elem_of_app Hjo Hje; [by apply (Hle j)|congruence].
    + intros j [Hj|Hji%list_elem_of_singleton]%elem_of_app Hjo; [by apply Hb|by subst j].
Qed.
Lemma better_all old probe l : best_of old probe l (foldl (better old probe) None l).
Proof.
  induction l as [|i l IH] using rev_ind; [by intros j Hj%elem_of_nil|]. rewrite foldl_snoc. by apply better_best.
Qed.

(** The state says how many checks of the primary have failed in a row. *)
Definition launcher_ok (l : MultiHsLauncher) : Prop :=
  primary_index l < hl_clients l ∧
  match hl_state l with
  | Active => consecutive_failures l = 0%Z
  | Failing => (0 < consecutive_failures l < FAIL_THRESHOLD)%Z
  | Unavailable => (FAIL_THRESHOLD ≤ consecutive_failures l)%Z
  | Failover => False
  end.
(** The primary is the fastest of the other servers that answered. *)
Definition fastest_other (probe : nat → option Duration) (l l' : MultiHsLauncher) : Prop :=
  primary_index l' ≠ primary_index l ∧ ∃ d, probe (primary_index l') = Some d ∧
  ∀ j e, j < hl_clients l → j ≠ primary_index l → probe j = Some e → (d ≤ e)%Z.

(** One check of the launcher. Its state is well formed from the start and
    stays so: the primary is one of its clients, and the state tells the number
    of failures in a row. A check that the primary passes makes it active; the
    third failure in a row, and each one after, moves to the fastest other
    server that answers, and only when none does the launcher is
    unavailable. *)
Theorem launcher_failover n probe0 l up probe :
  (launcher_start n probe0 = Ok l → launcher_ok l) ∧
  (launcher_ok l → (consecutive_failures l < 2 ^ 32 - 1)%Z →
   let l' := health_check up probe l in
   launcher_ok l' ∧ hl_clients l' = hl_clients l ∧
   if up then hl_state l' = Active ∧ primary_index l' = primary_index l
   else if decide (consecutive_failures l < FAIL_THRESHOLD - 1)%Z
   then hl_state l' = Failing ∧ primary_index l' = primary_index l
   else (hl_state l' = Active ∧ fastest_other probe l l') ∨
        (hl_state l' = Unavailable ∧ primary_index l' = primary_index l ∧
         ∀ j, j < hl_clients l → j ≠ primary_index l → probe j = None)).
Proof.
  split.
  - unfold launcher_start. case_decide as Hn; [done|]. intros [= <-]. split; [|done]. simpl.
    destruct (min_latency _) as [[i d]|] eqn:Em; simpl; [|lia].
    apply min_latency_in in Em as [(j & [= <- _] & Hj)%list_elem_of_fmap _]. apply elem_of_seq in Hj. lia.
  - intros [Hp Hs] Hb l'. unfold l', health_check. destruct up; [by split_and!|].
    assert (H0 : (0 ≤ consecutive_failures l)%Z) by (revert Hs; unfold FAIL_THRESHOLD; destruct (hl_state l); done || lia).
    assert (Hw : wrap 32 (consecutive_failures l + 1) = (consecutive_failures l + 1)%Z) by (unfold wrap; rewrite Z.mod_small; lia).
    rewrite Hw. unfold FAIL_THRESHOLD in *. destruct (decide (consecutive_failures l < 3 - 1)%Z) as [Hf|Hf].
    + rewrite decide_False by lia. split_and!; try done. unfold launcher_ok, FAIL_THRESHOLD; simpl; lia.
    + rewrite decide_True by lia. unfold failover. simpl.
      pose proof (better_all (primary_index l) probe (List.seq 0 (hl_clients l))) as Hbest.
      destruct (foldl _ None _) as [[i d]|]; simpl in Hbest.
      * destruct Hbest as (Hi & Hio & Hpr & Hle). apply elem_of_seq in Hi. split_and!; [by split; simpl; [lia|]|done|]. left.
        split; [done|]. split; [done|]. exists d. split; [done|]. intros j e Hj. apply Hle. apply elem_of_seq. lia.
      * split_and!; [unfold launcher_ok, FAIL_THRESHOLD; simpl; lia|done|]. right. split_and!; [done|done|].
        intros j Hj. apply Hbest. apply elem_of_seq. lia.
Qed.

(** ** Witnesses *)
#[local] Existing Instances toy_base64 toy_base64_laws.
(** Compressed data is the data; a decoder is what is left of it. *)
#[local] Instance toy_zlib : Zlib := {|
  zlib_compress := id; Decoder := Bytes; decoder_new := id; decoder_read n d := Ok (take n d, drop n d) |}.
Lemma toy_zlib_law data : yields (decoder_new (zlib_compress data)) data.
Proof.
  simpl. unfold id. remember (length data) as n eqn:Hn. revert data Hn. induction (lt_wf n) as [n _ IH]. intros data Hn.
  destruct data as [|b data]; [by apply yields_end with []|].
  rewrite <-(take_drop CHUNK_SIZE (b :: data)) at 2.
  apply yields_chunk with (drop CHUNK_SIZE (b :: data)); [done| |].
  - intros E. apply (f_equal length) in E. rewrite length_take in E. unfold CHUNK_SIZE in E. simpl in E. lia.
  - eapply IH; [|reflexivity]. subst n. rewrite length_drop. unfold CHUNK_SIZE. simpl. lia.
Qed.

Lemma terminal_data_bounded_witness :
  let data := replicate 40 Byte.x41 in
  ∃ e, decode_decompress_bounded (compress_encode data).1 (compress_encode data).2 39 = Some (Err e).
Proof.
  intros data. destruct (proj2 (terminal_data_bounded toy_zlib_law 39) data) as [e He]. exists e. exact He.
Defined.

(** A pane that shows its clock. *)
#[local] Instance toy_tmux : TmuxHost nat := {|
  run_command args n := (Returns (true, replicate n Byte.x41, []), S n); tmux_instant := Z.of_nat; tmux_sleep _ n := n |}.
