(* ===== verification/Reencrypt.v ===== *)
(** * Reencrypt: replacing rooms that are not encrypted
    ([mxdx-matrix/reencrypt.rs])

    At its start a worker looks at the encryption of each room of its launcher.
    A room that does not encrypt as it must gets a successor, which is created
    first; that the old room is then closed and left is best effort. *)
From S2P Require Import Prelude Text Json P2PCrypto MatrixTypes Effects Rest MatrixClient MatrixRooms Toys.
From stdpp Require Import options.

Inductive RoomRole : Type := Space | Exec | Logs.
#[export] Instance RoomRole_eq_dec : EqDecision RoomRole.
Proof. solve_decision. Defined.

Definition MEGOLM : string := "m.megolm.v1.aes-sha2".
Definition needs_replace (enc : option EncryptionState) : bool :=
  match enc with
  | None => true
  | Some s => negb (str_eqb (algorithm s) MEGOLM) || negb (encrypt_state_events s)
  end.

(** The name, the topic and the role of a room, by its role. *)
Definition room_texts (launcher_id : string) (role : RoomRole) : string * string * string :=
  match role with
  | Space => (cat ["mxdx: "; launcher_id], cat ["org.mxdx.launcher.space:"; launcher_id], "space")
  | Exec => (cat ["mxdx: "; launcher_id; " — exec"], cat ["org.mxdx.launcher.exec:"; launcher_id], "exec")
  | Logs => (cat ["mxdx: "; launcher_id; " — logs"], cat ["org.mxdx.launcher.logs:"; launcher_id], "logs")
  end.

Section reencrypt.
Context {W V : Type} `{MatrixSdk W V} `{JsonValue V} `{JsonU64 V} `{JsonBuild V} `{JsonContainers V}
  `{JsonNumbers V} `{HttpServer W V} `{RestExternals}.
Variables (c : MatrixClient) (rest : RestClient) (launcher_id : string) (authorized_users : list string).
Local Notation M := (Io W MxError).
Local Abbreviation other := (io_map_err (S := W) (F := MxError) Other).

Definition tombstone_content (replacement : string) : V :=
  json_object [("body", json_string "This room has been replaced"); ("replacement_room", json_string replacement)].

Definition create_replacement (role : RoomRole) : M string :=
  let '(name, topic, role_key) := room_texts launcher_id role in
  create_mxdx_encrypted_room c name topic authorized_users launcher_id role_key.

(** The old room is closed and left; a failure of either is only logged. *)
Definition retire (room replacement : string) : M () :=
  attempt (other (put_state_event rest room "m.room.tombstone" "" (tombstone_content replacement))) ;;
  attempt (other (leave_room rest room)) ;; mret ().

Definition ensure_encrypted (room : string) (role : RoomRole) : M string :=
  enc ← other (get_room_encryption rest room);
  if needs_replace enc then
    new_id ← create_replacement role; retire room new_id ;; mret new_id
  else mret room.

Definition verify_or_replace_topology (t : LauncherTopology) : M LauncherTopology :=
  new_space ← ensure_encrypted (space_id t) Space;
  new_exec ← ensure_encrypted (exec_room_id t) Exec;
  new_logs ← ensure_encrypted (logs_room_id t) Logs;
  mret (mkTopology new_space new_exec new_logs).

(** ** What is returned *)
(** The server said of a room that it encrypts its messages and its state. *)
Definition said_encrypted (room : string) : Prop :=
  ∃ w1 w2 enc, get_room_encryption rest room w1 = (Returns (Some enc), w2) ∧
    algorithm enc = MEGOLM ∧ encrypt_state_events enc = true.
(** The room was created for a role. *)
Definition created_for (role : RoomRole) (room : string) : Prop := ∃ w1 w2, create_replacement role w1 = (Returns room, w2).

Lemma needs_replace_false enc :
  needs_replace enc = false ↔ ∃ s, enc = Some s ∧ algorithm s = MEGOLM ∧ encrypt_state_events s = true.
Proof.
  unfold needs_replace. destruct enc as [s|]; [|split; [done|by intros (? & ? & _)]].
  rewrite orb_false_iff, !negb_false_iff, str_eqb_true. split; [intros [? ?]; by exists s|by intros (s' & [= <-] & ? & ?)].
Qed.

Lemma http_no_panic (r : Request V) w : (http r w).1 ≠ Panics.
Proof. unfold http. by destruct (http_send r w) as [[resp|e] w']. Qed.
Lemma attempt_request {A} (r : Request V) (k : Response → Io W string A) w :
  (∀ resp w1, (k resp w1).1 ≠ Panics) → ∃ x w', attempt (S := W) (E := MxError) (other (resp ← http r; k resp)) w = (Returns x, w').
Proof.
  intros Hk. unfold attempt, io_map_err, mbind, Io_bind. pose proof (http_no_panic r w) as Hr.
  destruct (http r w) as [[resp|e|] w1]; [|by repeat eexists|done].
  specialize (Hk resp w1). by destruct (k resp w1) as [[x|e|] w2]; [repeat eexists..|].
Qed.
Lemma retire_returns room replacement w : ∃ w', retire room replacement w = (Returns (), w').
Proof.
  unfold retire, put_state_event, leave_room.
  destruct (attempt_request (mkRequest PUT (cat [homeserver rest; "/_matrix/client/v3/rooms/"; url_encode room; "/state/"; "m.room.tombstone"; "/"; url_encode ""])
    (access_token rest) (Some (tombstone_content replacement)))
    (λ resp, if is_success resp then mret () else
       raise (cat ["put_state_event("; "m.room.tombstone"; "): HTTP "; show_status (status resp); ": "; text resp])) w) as (x & w1 & Hp);
    [intros resp w1; by destruct (is_success resp)|].
  rewrite (io_bind_step _ _ w x w1) by exact Hp.
  destruct (attempt_request (mkRequest POST (cat [homeserver rest; "/_matrix/client/v3/rooms/"; url_encode room; "/leave"])
    (access_token rest) (Some (json_object [])))
    (λ resp, if is_success resp then mret () else raise (cat ["leave_room: HTTP "; show_status (status resp); ": "; text resp])) w1) as (y & w2 & Hl);
    [intros resp w2; by destruct (is_success resp)|].
  rewrite (io_bind_step _ _ w1 y w2) by exact Hl. by exists w2.
Qed.

Lemma ensure_encrypted_sound room role w room' w' :
  ensure_encrypted room role w = (Returns room', w') → (room' = room ∧ said_encrypted room) ∨ created_for role room'.
Proof.
  unfold ensure_encrypted. intros (enc & w1 & Henc & Hk)%io_bind_returns.
  unfold io_map_err in Henc. destruct (get_room_encryption rest room w) as [[x|e|] w2] eqn:Eg; simplify_eq.
  destruct (needs_replace enc) eqn:En.
  - right. apply io_bind_returns in Hk as (new_id & w2 & Hnew & Hk). apply io_bind_returns in Hk as (? & w3 & _ & Hk).
    unfold mret, Io_ret in Hk. simplify_eq. by exists w1, w2.
  - left. unfold mret, Io_ret in Hk. simplify_eq. split; [done|]. apply needs_replace_false in En as (s & -> & ? & ?).
    by exists w, w', s.
Qed.

(** Once a successor is there, the call does not fail. *)
Lemma ensure_encrypted_total room role w enc w1 new_id w2 :
  get_room_encryption rest room w = (Returns enc, w1) → needs_replace enc = true →
  create_replacement role w1 = (Returns new_id, w2) →
  ∃ w', ensure_encrypted room role w = (Returns new_id, w').
Proof.
  intros Hg Hn Hc. unfold ensure_encrypted.
  rewrite (io_bind_step _ _ w enc w1) by (unfold io_map_err; by rewrite Hg). rewrite Hn.
  rewrite (io_bind_step _ _ w1 new_id w2) by done.
  destruct (retire_returns room new_id w2) as [w3 Hr]. exists w3. by rewrite (io_bind_step _ _ w2 () w3).
Qed.
End reencrypt.

(** ** Properties *)
Section theorem.
Context {W V : Type} `{MatrixSdk W V} `{JsonValue V} `{JsonU64 V} `{JsonBuild V} `{JsonContainers V}
  `{JsonNumbers V} `{HttpServer W V} `{RestExternals}.

(** C15: the rooms that a worker goes on with. Each room of the topology that is
    returned is the one that it was given, and then the server said during the
    call that it encrypts its messages with Megolm and its state as well, or it
    is one that the call created for this role, with the users that are
    authorised invited and the launcher and the role in its creation. A room is
    replaced exactly when the server does not say so, and nothing that is done
    to the old room can then stop the call: not that it cannot be closed, not
    that it cannot be left. *)
Theorem topology_repaired (c : MatrixClient) rest launcher_id users t t' (w w' : W) :
  verify_or_replace_topology (V := V) c rest launcher_id users t w = (Returns t', w') →
  (∀ role old new, (role, old, new) ∈ [(Space, space_id t, space_id t'); (Exec, exec_room_id t, exec_room_id t');
                                       (Logs, logs_room_id t, logs_room_id t')] →
    (new = old ∧ said_encrypted rest old) ∨ created_for (V := V) c launcher_id users role new) ∧
  ∀ room role w0 enc w1 new_id w2,
    get_room_encryption rest room w0 = (Returns enc, w1) →
    if needs_replace enc
    then create_replacement (V := V) c launcher_id users role w1 = (Returns new_id, w2) →
         ∃ w3, ensure_encrypted (V := V) c rest launcher_id users room role w0 = (Returns new_id, w3)
    else ensure_encrypted (V := V) c rest launcher_id users room role w0 = (Returns room, w1).
Proof.
  intros Hrun. split.
  - unfold verify_or_replace_topology in Hrun.
    apply io_bind_returns in Hrun as (s & w1 & Hs & Hrun). apply io_bind_returns in Hrun as (e & w2 & He & Hrun).
    apply io_bind_returns in Hrun as (l & w3 & Hl & Hrun). unfold mret, Io_ret in Hrun. simplify_eq/=.
    intros role old new Hin. repeat (apply elem_of_cons in Hin as [Hin|Hin]); simplify_eq; [..|by apply elem_of_nil in Hin];
      by eapply ensure_encrypted_sound.
  - intros room role w0 enc w1 new_id w2 Hg. destruct (needs_replace enc) eqn:En.
    + intros Hc. by eapply ensure_encrypted_total.
    + unfold ensure_encrypted. rewrite (io_bind_step _ _ w0 enc w1) by (unfold io_map_err; by rewrite Hg). by rewrite En.
Qed.

(** A successor of the space is not made the way a space is: its creation
    names no room type, so that to the server it is an ordinary room, and it has
    no children. *)
Theorem replaced_space_is_no_space (c : MatrixClient) launcher_id users :
  create_replacement (V := V) c launcher_id users Space =
  create_room_with_timeout c
    (mkCreateRoom (Some (cat ["mxdx: "; launcher_id])) None users false
       [Encryption; Topic (cat ["org.mxdx.launcher.space:"; launcher_id])]
       (Some (mxdx_creation_content launcher_id "space" false))).
Proof. reflexivity. Qed.
End theorem.

(** ** Witness: a space that is encrypted, beside two rooms that are not *)
#[local] Existing Instances toy_json toy_u64 toy_containers toy_build toy_numbers toy_externals toy_http toy_http_laws toy_sdk.
Definition toy_encrypted_space : ToyWorld := mkToy
  (<["h/_matrix/client/v3/rooms/!a/state/m.room.encryption/" :=
       TObj [("algorithm", TStr MEGOLM); ("encrypt_state_events", TBool true)]]> ∅) ∅.

Lemma topology_repaired_witness :
  let c := mkMatrixClient None (from_secs 30) in
  let rest := rest_new "h/" "t" in
  ∃ w', verify_or_replace_topology c rest "l" ["@u:x"] (mkTopology "!a" "!e" "!l") toy_encrypted_space
        = (Returns (mkTopology "!a" "!s" "!s"), w') ∧
    said_encrypted (W := ToyWorld) rest "!a" ∧ created_for (W := ToyWorld) c "l" ["@u:x"] Exec "!s".
Proof.
  intros c rest.
  destruct (verify_or_replace_topology c rest "l" ["@u:x"] (mkTopology "!a" "!e" "!l") toy_encrypted_space) as [[t|e|] w'] eqn:Hrun;
    [|vm_compute in Hrun; discriminate..].
  assert (Ht : t = mkTopology "!a" "!s" "!s") by (by vm_compute in Hrun; injection Hrun as <- _).
  subst t. exists w'. split; [done|].
  pose proof (proj1 (topology_repaired _ _ _ _ _ _ _ _ Hrun)) as Hrooms. split.
  - exists toy_encrypted_space, toy_encrypted_space, (mkEncryption MEGOLM true). by vm_compute.
  - destruct (Hrooms Exec "!e" "!s") as [[? _]|Hc]; [apply list_elem_of_further, list_elem_of_here|done|exact Hc].
Defined.
