(* ===== verification/WorkerStart.v ===== *)
(** * WorkerStart: how a worker starts, keeps its lease and stops
    ([mxdx-worker/lib.rs], [telemetry.rs], [identity.rs])

    The start-up of [run_worker] up to its loop, and the housekeeping of each
    turn of the loop: the state room and its lease, the telemetry, the trust
    between homeservers. What a turn does with events and sessions is the model
    of [WorkerLoop]; here it is a parameter. *)
From S2P Require Import Prelude Text Json Instants P2PCrypto MatrixTypes Effects Rest MatrixClient MatrixRooms Keychain Trust MultiHs MatrixSession WorkerExec WorkerClock WorkerLoop StateRoom RoomEvents SessionJson Config Coordinator Reencrypt Toys.
From stdpp Require Import options.

(** ** Identity ([identity.rs], of the worker and of the client) *)
(** The host: random ids, its name, programs, what [sysinfo] and the clock
    tell; [tokio::time::timeout] gives [None] when the time is over. *)
Class WorkerHost (W : Type) := {
  wh_uuid : W → string * W;
  wh_hostname : W → result string string;
  wh_os_user : W → string;
  wh_system_name : W → option string;
  wh_arch : string;
  wh_os : string;
  wh_cpus : W → Z;
  wh_total_memory : W → Z;
  wh_available_memory : W → Z;
  wh_disks : W → list Z;
  wh_run : list string → Io W string (bool * Bytes);
  wh_epoch_secs : W → Z;
  wh_timeout : ∀ {A}, Duration → Io W string A → Io W string (option (result A string));
}.

Section host.
Context {W : Type} `{WorkerHost W}.
Local Notation M := (Io W string).

Definition uuid_v4 : M string := λ w, let '(u, w) := wh_uuid w in (Returns u, w).

Definition device_id_key (user_id : string) : string := cat ["mxdx/"; user_id; "/device-id"].
Definition identity_load_or_create (keychain : KeychainBackend W) (user_id host os_user : string) : M DeviceIdentity :=
  data ← kc_get keychain (device_id_key user_id);
  match data with
  | Some data =>
      if valid_utf8 data then mret (mkIdentity (from_bytes data) user_id host os_user)
      else raise "invalid utf-8 sequence"
  | None =>
      device_id ← uuid_v4;
      kc_set keychain (device_id_key user_id) (as_bytes device_id) ;;
      mret (mkIdentity device_id user_id host os_user)
  end.

(** A new [InMemoryKeychain], which its owner takes with it and does not read
    again. *)
Definition fresh_keychain : KeychainBackend W := mkKeychain (λ _, mret None) (λ _ _, mret ()) (λ _, mret ()).

(** ** Telemetry ([telemetry.rs]) *)
Record TelemetryCollector := mkCollector {
  tc_worker_id : string; tc_worker_uuid : string; tc_refresh_seconds : Z; tc_extra_capabilities : list string }.
Definition collector_new (worker_id : string) (refresh_seconds : Z) (extra_capabilities : list string) : M TelemetryCollector :=
  u ← uuid_v4; mret (mkCollector worker_id u refresh_seconds extra_capabilities).

Definition BINS : list string := ["bash"; "python3"; "node"; "git"; "docker"; "tmux"; "curl"].
Definition MIB : Z := 1048576.

Definition probe_version (bin : string) : M (option string) :=
  output ← attempt (wh_run [bin; "--version"]);
  mret (match output with
        | Ok (true, stdout) => (λ l, from_bytes (trim l)) <$> head (lines (as_bytes (from_utf8_lossy stdout)))
        | _ => None
        end).
Definition probe_bin (bin : string) : M (list WorkerTool) :=
  output ← attempt (wh_run ["which"; bin]);
  match output with
  | Ok (true, _) =>
      version ← probe_version bin;
      mret [mkTool bin version (cat [bin; " binary"]) true (mkInputSchema "object" ∅ [])]
  | _ => mret []
  end.
Fixpoint probe_bins (bins : list string) : M (list WorkerTool) :=
  match bins with
  | [] => mret []
  | bin :: bins => tool ← probe_bin bin; tools ← probe_bins bins; mret (tool ++ tools)
  end.

(** [sum] on [u64]. *)
Definition collect_info (t : TelemetryCollector) : M WorkerInfo :=
  hostname ← observe wh_hostname; host ← of_result hostname;
  name ← observe wh_system_name;
  cpus ← observe wh_cpus;
  memory ← observe wh_total_memory;
  disks ← observe wh_disks;
  tools ← probe_bins BINS;
  timestamp ← observe wh_epoch_secs;
  mret (mkInfo (tc_worker_id t) host (default "unknown" name) wh_arch (wrap 32 cpus) (memory / MIB)%Z
          (wrap 64 (foldr Z.add 0 disks) / MIB)%Z tools (tc_extra_capabilities t) timestamp).

Definition collect_telemetry_state (t : TelemetryCollector) (session_count : Z) (status : string) : M WorkerTelemetryState :=
  hostname ← observe wh_hostname; host ← of_result hostname;
  name ← observe wh_system_name;
  cpus ← observe wh_cpus;
  total ← observe wh_total_memory;
  free ← observe wh_available_memory;
  tmux ← attempt (wh_run ["which"; "tmux"]);
  let tmux_available := match tmux with Ok (true, _) => true | _ => false end in
  secs ← observe wh_epoch_secs;
  mret (mkTelemetry (from_bytes (iso8601_now secs)) (wrap 64 (tc_refresh_seconds t * 1000)) (Some (tc_worker_uuid t)) host
          (default wh_os name) wh_arch (Some (wrap 32 cpus)) (Some (total / MIB)%Z) (Some (free / MIB)%Z) status
          (tc_extra_capabilities t) (Some session_count) tmux_available tmux_available).
End host.

(** ** Connecting ([connect]) *)
Section connect.
Context {W V C : Type} `{MatrixSdk W V} `{JsonValue V} `{JsonU64 V} `{JsonBuild V} `{JsonContainers V}
  `{JsonNumbers V} `{HttpServer W V} `{RestExternals} `{MultiOps W V} `{MatrixAuth W C}.
Variable joined_rooms : V → result (list string) string.
(** The preferred client: its settings, its handle. *)
Variables (settings : MatrixClient) (client : C).
(** [MultiHsClient::connect_with_keychain], with a flag per account for a
    fresh login; [remove_passwords_from_config]. *)
Variable connect_accounts : list ServerAccount → bool → Io W string (list bool).
Variable remove_passwords : Io W string ().
Local Notation M := (Io W string).

Definition no_backup (e : string) : BackupState := mkBackup false None 0 true (Some e).
Definition set_up_backup : M () :=
  backup ← attempt (ensure_backup client false);
  if enabled (match backup with Ok state => state | Err e => no_backup e end)
  then attempt (download_all_keys client) ;; mret () else mret ().

Definition rest_homeserver (cfg : WorkerRuntimeConfig) : result string string :=
  match wr_credentials cfg, df_accounts (wr_defaults cfg) with
  | Some creds, _ => Ok (cr_homeserver creds)
  | None, a :: _ => Ok (ac_homeserver a)
  | None, [] => Err "no homeserver configured for REST discovery"
  end.

Definition valid_users (users : list string) : list string :=
  omap (λ u, match parse_user_id u with Ok uid => Some uid | Err _ => None end) users.

Definition invite_everywhere (t : LauncherTopology) (user : string) : M () :=
  for_each (λ room, attempt (mx (invite_user room user)) ;; mret ()) [space_id t; exec_room_id t; logs_room_id t].

Definition launcher_room (cfg : WorkerRuntimeConfig) (any_fresh : bool) : M string :=
  let launcher_id := resolved_room_name cfg in
  homeserver ← of_result (rest_homeserver cfg);
  token ← observe sdk_access_token;
  access_token ← of_result (match token with Some t => Ok t | None => Err "no access token available on preferred client" end);
  found ← mx (find_launcher_space_via_rest joined_rooms launcher_id homeserver access_token);
  topology ← (match found with Some t => mret t | None => mx (create_launcher_space settings launcher_id) end);
  let authorized := valid_users (wf_authorized_users (wr_worker cfg)) in
  topology ← mx (verify_or_replace_topology settings (rest_new homeserver access_token) launcher_id authorized topology);
  prepare_room any_fresh (exec_room_id topology) ;;
  for_each (invite_everywhere topology) authorized ;;
  mret (exec_room_id topology).

Definition worker_connect (cfg : WorkerRuntimeConfig) : M string :=
  let accounts := worker_accounts cfg in
  if bool_decide (accounts = [])
  then raise "No Matrix accounts configured (use --homeserver/--username/--password or config file)" else
  fresh_logins ← connect_accounts accounts (wr_force_new_device cfg);
  let any_fresh := existsb id fresh_logins in
  (if any_fresh then attempt remove_passwords ;; mret () else mret ()) ;;
  set_up_backup ;;
  room_id ← (match wr_room_id cfg with
             | Some direct =>
                 rid ← of_result (result_map_err (λ e, cat ["Invalid room ID '"; direct; "': "; e]) (parse_room_id direct));
                 prepare_room any_fresh rid ;; mret rid
             | None => launcher_room cfg any_fresh
             end);
  multi_bootstrap_and_sync_trust room_id ;; mret room_id.
End connect.

(** ** The start of [run_worker] *)
Record Started := mkStarted {
  st_device_id : string; st_telemetry : TelemetryCollector; st_host : string; st_os_user : string; st_localpart : string;
  st_room : string; st_state_key : string }.

(** [SessionManager] and the rest of the loop's own state: a type of which
    the number of active sessions is asked. *)
Record Serving (L : Type) := mkServing {
  sv_ready : bool; sv_state_room : option string; sv_lock_held : bool; sv_last_telemetry : Instant; sv_cycles : Z; sv_loop : L }.
Arguments mkServing {L} sv_ready sv_state_room sv_lock_held sv_last_telemetry sv_cycles sv_loop.
Arguments sv_ready {L} s.
Arguments sv_state_room {L} s.
Arguments sv_lock_held {L} s.
Arguments sv_last_telemetry {L} s.
Arguments sv_cycles {L} s.
Arguments sv_loop {L} s.

Section run.
Context {W V : Type} `{MatrixSdk W V} `{JsonValue V} `{JsonU64 V} `{JsonBuild V} `{JsonContainers V}
  `{JsonNumbers V} `{HttpServer W V} `{RestExternals} `{MultiOps W V} `{WorkerHost W} `{TrustSerde}.
Context `{!Serde V WorkerInfo} `{!Serde V WorkerTelemetryState}.
Context `{!Serde V WorkerStateConfig} `{!Serde V WorkerStateIdentity} `{!Serde V StateRoomSession}
  `{!Serde V StateRoomEntry} `{!Serde V TrustedEntity} `{!Serde V StateRoomTopology}
  `{!Serde V StateRoomPointer} `{!Serde V WorkerStateLock}.
Local Notation M := (Io W string).
Variable cfg : WorkerRuntimeConfig.
Variable connect : M string.

Definition first_user : string :=
  match df_accounts (wr_defaults cfg) with a :: _ => ac_user_id a | [] => "@worker:localhost" end.

Definition check_instance (uuid room key : string) : M () :=
  existing ← attempt (worker_read_state room WORKER_TELEMETRY key);
  let state := match existing with
               | Ok (Some v) => match from_value v with Ok s => Some s | Err _ => None end
               | _ => None
               end in
  now ← observe sdk_now_ms;
  match competing_instance uuid now state with
  | None => panic
  | Some ProceedStart => mret ()
  | Some (RefuseStart existing_uuid age_ms) =>
      raise (cat ["Another worker instance owns '"; resolved_room_name cfg; "' (uuid="; existing_uuid; ", last seen ";
                  show age_ms; "ms ago). Wait for it to shut down or time out before starting a new instance."])
  end.

Definition post_telemetry (t : TelemetryCollector) (room key status : string) (active : Z) : M () :=
  state ← collect_telemetry_state t active status;
  value ← of_result (to_value state);
  worker_write_state room WORKER_TELEMETRY key value.

(** [None]: without accounts the worker is only initialised. *)
Definition start_worker : M (option Started) :=
  hostname ← observe wh_hostname;
  let host := match hostname with Ok h => h | Err _ => "unknown" end in
  os_user ← observe wh_os_user;
  identity ← identity_load_or_create fresh_keychain first_user host os_user;
  Trust.load_or_create fresh_keychain first_user (default first_user (wf_trust_anchor (wr_worker cfg))) ;;
  t ← collector_new (di_device_id identity) (wf_telemetry_refresh_seconds (wr_worker cfg)) (wf_capabilities_extra (wr_worker cfg));
  collect_info t ;;
  if bool_decide (worker_accounts cfg = []) then mret None else
  room ← connect;
  info ← collect_info t;
  value ← of_result (to_value info);
  worker_write_state room "org.mxdx.worker.info" (cat ["worker/"; di_device_id identity]) value ;;
  let key := cat ["worker/"; resolved_room_name cfg] in
  check_instance (tc_worker_uuid t) room key ;;
  post_telemetry t room key "online" 0 ;;
  mret (Some (mkStarted (di_device_id identity) t host os_user (localpart first_user) room key)).

(** ** The loop *)
Section loop.
Variable st : Started.
Variables (settings : MatrixClient) (keychain : KeychainBackend W).
(** What a turn does once it is housekept: waiting for a sync, the events,
    the sessions that ended; [None] for a signal. *)
Context {L : Type}.
Variables (active : L → Z) (with_roots : gmap string string → L → L) (serve : L → M (option L)).
Variable sync_trust : string → M ().

Definition refresh_seconds : Z := wf_telemetry_refresh_seconds (wr_worker cfg).
Definition lease_ttl : Z := lock_ttl_ms refresh_seconds.
Definition TRUST_SYNC_INTERVAL : Z := 60.

Definition deferred_setup (s : Serving L) : M (Serving L) :=
  if sv_ready s then mret s else
  setup ← setup_state_room settings keychain (st_host st) (st_os_user st) (st_localpart st) (st_device_id st)
            (tc_worker_uuid (st_telemetry st)) (st_room st) lease_ttl;
  mret (mkServing true (StateRoom.state_room setup) (lock_held setup) (sv_last_telemetry s) (sv_cycles s)
          (with_roots (thread_roots setup) (sv_loop s))).

(** The telemetry of the moment; that it cannot be collected or posted is
    only logged. *)
Definition refresh_telemetry (s : Serving L) : M () :=
  state ← attempt (collect_telemetry_state (st_telemetry st) (active (sv_loop s)) "online");
  match state with
  | Ok state =>
      value ← of_result (to_value state);
      attempt (worker_write_state (st_room st) WORKER_TELEMETRY (st_state_key st) value) ;; mret ()
  | Err _ => mret ()
  end.

Definition renew_lease (s : Serving L) : M () :=
  match sv_lock_held s, sv_state_room s with
  | true, Some sr =>
      now_ms ← observe sdk_now_ms;
      attempt (renew_lock sr (make_lock (st_device_id st) (tc_worker_uuid (st_telemetry st)) (st_host st) (st_os_user st)
                                now_ms lease_ttl)) ;;
      mret ()
  | _, _ => mret ()
  end.

Definition periodic_refresh (s : Serving L) : M (Serving L) :=
  now ← observe sdk_instant;
  if decide (from_secs refresh_seconds ≤ now - sv_last_telemetry s)%Z then
    refresh_telemetry s ;; renew_lease s ;;
    now ← observe sdk_instant;
    mret (mkServing (sv_ready s) (sv_state_room s) (sv_lock_held s) now (sv_cycles s) (sv_loop s))
  else mret s.

Definition trust_cycle (s : Serving L) : M (Serving L) :=
  let cycles := wrap 64 (sv_cycles s + 1) in
  (if decide (cycles mod TRUST_SYNC_INTERVAL = 0)%Z
   then match parse_room_id (st_room st) with Ok rid => sync_trust rid | Err _ => mret () end else mret ()) ;;
  mret (mkServing (sv_ready s) (sv_state_room s) (sv_lock_held s) (sv_last_telemetry s) cycles (sv_loop s)).

Definition post_offline_telemetry (s : Serving L) : M () :=
  state ← attempt (collect_telemetry_state (st_telemetry st) (active (sv_loop s)) "offline");
  match state with
  | Ok state =>
      match to_value state with
      | Ok value =>
          wh_timeout (from_secs 2) (worker_write_state (st_room st) WORKER_TELEMETRY (st_state_key st) value) ;; mret ()
      | Err _ => mret ()
      end
  | Err _ => mret ()
  end.

(** SIGINT and SIGTERM. *)
Definition shut_down (s : Serving L) : M () :=
  post_offline_telemetry s ;;
  match sv_lock_held s, sv_state_room s with
  | true, Some sr => attempt (release_lock sr) ;; mret ()
  | _, _ => mret ()
  end.

(** The part of a turn before it waits. *)
Definition upkeep (s : Serving L) : M (Serving L) :=
  s ← deferred_setup s; s ← periodic_refresh s; trust_cycle s.
Definition serve_turn (s : Serving L) : M (option (Serving L)) :=
  s ← upkeep s;
  l ← serve (sv_loop s);
  match l with
  | Some l => mret (Some (mkServing (sv_ready s) (sv_state_room s) (sv_lock_held s) (sv_last_telemetry s) (sv_cycles s) l))
  | None => shut_down s ;; mret None
  end.
(** [None]: still serving after [fuel] turns. *)
Fixpoint serve_loop (fuel : nat) (s : Serving L) : M (option ()) :=
  match fuel with
  | 0 => mret None
  | S fuel =>
      r ← serve_turn s;
      match r with Some s => serve_loop fuel s | None => mret (Some ()) end
  end.
Definition serving_init (now : Instant) (l : L) : Serving L := mkServing false None false now 0 l.
End loop.

(** [run_worker]. *)
Definition worker_main {L} (fuel : nat) (settings : MatrixClient) (keychain : KeychainBackend W) (active : L → Z)
    (with_roots : gmap string string → L → L) (serve : L → M (option L)) (sync_trust : string → M ()) (l : L) : M (option ()) :=
  started ← start_worker;
  match started with
  | None => mret (Some ())
  | Some st =>
      now ← observe sdk_instant;
      serve_loop st settings keychain active with_roots serve sync_trust fuel (serving_init now l)
  end.
End run.

(** ** The lease of a worker that serves *)
Definition MS : Z := 1000000.

Section lease.
Context {W V : Type} `{MatrixSdk W V} `{JsonValue V} `{JsonU64 V} `{JsonBuild V} `{JsonContainers V}
  `{JsonNumbers V} `{HttpServer W V} `{RestExternals} `{MultiOps W V} `{WorkerHost W} `{TrustSerde}.
Context `{!Serde V WorkerInfo} `{!Serde V WorkerTelemetryState}.
Context `{!Serde V WorkerStateConfig} `{!Serde V WorkerStateIdentity} `{!Serde V StateRoomSession}
  `{!Serde V StateRoomEntry} `{!Serde V TrustedEntity} `{!Serde V StateRoomTopology}
  `{!Serde V StateRoomPointer} `{!Serde V WorkerStateLock, !SerdeLaws V WorkerStateLock}.
Context {L : Type} (cfg : WorkerRuntimeConfig) (st : Started) (settings : MatrixClient) (keychain : KeychainBackend W)
  (active : L → Z) (with_roots : gmap string string → L → L) (serve : L → Io W string (option L))
  (sync_trust : string → Io W string ()).
Local Abbreviation turn := (serve_turn cfg st settings keychain active with_roots serve sync_trust).
Local Abbreviation up := (upkeep cfg st settings keychain active with_roots sync_trust).

(** [cell] is the content of the lock that was sent last to the state room,
    encrypted there or not. Nobody else writes it: what the worker does besides
    leaves it alone, and nothing turns the clock back. A request for the lock
    may fail, and may then have been carried out or not. *)
Context (room : string) (cell : W → V).
Definition forward (w w' : W) : Prop := cell w' = cell w ∧ (sdk_instant w ≤ sdk_instant w')%Z.
Record Undisturbed : Prop := {
  und_serve l w : forward w (serve l w).2;
  und_trust r w : forward w (sync_trust r w).2;
  und_collect t n s w : forward w (collect_telemetry_state t n s w).2;
  und_write key v w : forward w (worker_write_state (st_room st) WORKER_TELEMETRY key v w).2;
  und_lock v w : (sdk_instant w ≤ sdk_instant (MatrixClient.send_state_event room WORKER_STATE_LOCK "" v w).2)%Z ∧
    match MatrixClient.send_state_event room WORKER_STATE_LOCK "" v w with
    | (Returns _, w') => cell w' = v
    | (_, w') => cell w' = cell w ∨ cell w' = v
    end;
  und_now w : (0 ≤ sdk_now_ms w)%Z;
  (** the system clock is not set *)
  und_clock : ∃ base, ∀ w, sdk_now_ms w = (base + sdk_instant w / MS)%Z }.

Local Abbreviation interval := (from_secs (refresh_seconds cfg)).

(** The lock that this worker writes at a moment. *)
Definition lock_now (w : W) : WorkerStateLock :=
  make_lock (st_device_id st) (tc_worker_uuid (st_telemetry st)) (st_host st) (st_os_user st) (sdk_now_ms w) (lease_ttl cfg).
(** A renewal at [r] that failed. *)
Definition refused_at (r : Instant) : Prop :=
  ∃ w0 e w1, sdk_instant w0 = r ∧ renew_lock room (lock_now w0) w0 = (Raises e, w1).

(** The lock of this worker, renewed at [r]. *)
Definition lease_at (r : Instant) (w : W) : Prop :=
  ∃ lock w0, deserialize_if_present (cell w) = Ok (Some lock) ∧ device_id lock = st_device_id st ∧
    sdk_instant w0 = r ∧ expires_at lock = (sdk_now_ms w0 + 2000 * refresh_seconds cfg)%Z.
(** The worker holds the lease, with the set-up behind it. *)
Definition holding (s : Serving L) : Prop := sv_ready s = true ∧ sv_lock_held s = true ∧ sv_state_room s = Some room.

(** Turns whose upkeep takes at most [u] and that take at most [d] in all. *)
Inductive on_time (u d : Duration) : Serving L * W → Serving L * W → Prop :=
| on_time_nil x : on_time u d x x
| on_time_turn s w s1 w1 s2 w2 x :
    up s w = (Returns s1, w1) → (sdk_instant w1 ≤ sdk_instant w + u)%Z →
    turn s w = (Returns (Some s2), w2) → (sdk_instant w2 ≤ sdk_instant w + d)%Z →
    (sdk_now_ms w1 + 2000 * refresh_seconds cfg < 2 ^ 64)%Z →
    on_time u d (s2, w2) x → on_time u d (s, w) x.

Hypothesis und : Undisturbed.

Lemma forward_trans w1 w2 w3 : forward w1 w2 → forward w2 w3 → forward w1 w3.
Proof. intros [Hc1 Ht1] [Hc2 Ht2]. split; [congruence|lia]. Qed.
Lemma forward_refl w : forward w w.
Proof. by split. Qed.
Lemma forward_attempt {A} (m : Io W string A) w : forward w (m w).2 → forward w (attempt m w).2.
Proof. unfold attempt. by destruct (m w) as [[x|e|] w']. Qed.
Lemma forward_bind {A B} (m : Io W string A) (k : A → Io W string B) w :
  forward w (m w).2 → (∀ x w1, forward w1 (k x w1).2) → forward w ((x ← m; k x) w).2.
Proof.
  intros Hm Hk. unfold mbind, Io_bind. destruct (m w) as [[x|e|] w1]; simpl in *; [|done..].
  by eapply forward_trans, Hk.
Qed.

Lemma forward_telemetry s w : forward w (refresh_telemetry st active s w).2.
Proof using und.
  apply forward_bind; [apply forward_attempt, (und_collect und)|]. intros [state|e] w1; [|apply forward_refl].
  apply forward_bind; [destruct (to_value state); apply forward_refl|]. intros v w2.
  apply forward_bind; [apply forward_attempt, (und_write und)|]. intros; apply forward_refl.
Qed.

Lemma lock_now_lease w w' :
  (0 ≤ refresh_seconds cfg)%Z → (sdk_now_ms w + 2000 * refresh_seconds cfg < 2 ^ 64)%Z →
  deserialize_if_present (cell w') = Ok (Some (lock_now w)) → lease_at (sdk_instant w) w'.
Proof using und.
  intros Hi Hb Hd. pose proof (und_now und w) as Hn. exists (lock_now w), w. split_and!; [done|done|done|]. simpl.
  assert (lease_ttl cfg = (2000 * refresh_seconds cfg)%Z) as ->.
  { unfold lease_ttl, lock_ttl_ms, u64_max, wrap. rewrite Z.min_l by lia. rewrite Z.mod_small; lia. }
  unfold wrap. apply Z.mod_small. lia.
Qed.

Lemma lease_at_forward r w w' : lease_at r w → cell w' = cell w → lease_at r w'.
Proof. intros (lock & w0 & Hd & ? & ? & ?) Hc. exists lock, w0. by rewrite Hc. Qed.

(** A renewal: it writes the lock of the moment, or it fails. *)
Lemma renew_lease_tries r s w w' :
  holding s → (0 ≤ refresh_seconds cfg)%Z → (sdk_now_ms w + 2000 * refresh_seconds cfg < 2 ^ 64)%Z → lease_at r w →
  renew_lease cfg st s w = (Returns (), w') →
  (sdk_instant w ≤ sdk_instant w')%Z ∧
  (lease_at (sdk_instant w) w' ∨ refused_at (sdk_instant w) ∧ lease_at r w').
Proof using und SerdeLaws0.
  intros (_ & Hh & Hs) Hi Hb Hl Hrun. unfold renew_lease in Hrun. rewrite Hh, Hs, io_bind_observe in Hrun.
  destruct (serde_roundtrip (V := V) (lock_now w)) as (v & Hv & _). destruct (und_lock und v w) as [Ht Hsent].
  assert (Hren : renew_lock room (lock_now w) w = mx (MatrixClient.send_state_event room WORKER_STATE_LOCK "" v) w)
    by (by apply write_value_sends).
  apply io_bind_returns in Hrun as (x & w1 & Ha & Hret). unfold mret, Io_ret in Hret. injection Hret as ->.
  unfold attempt in Ha. fold (lock_now w) in Ha. rewrite Hren in Ha. unfold mx, io_map_err in Ha, Hren.
  assert (Hwritten : ∀ w2, cell w2 = v → lease_at (sdk_instant w) w2).
  { intros w2 Hc. apply lock_now_lease; [done..|]. rewrite Hc. by apply deserialize_written. }
  destruct (MatrixClient.send_state_event _ _ _ v w) as [[y|e|] w2]; simplify_eq; (split; [exact Ht|]); [by left; apply Hwritten|].
  destruct Hsent as [Hc|Hc]; [|by left; apply Hwritten]. right. split; [|by eapply lease_at_forward]. by eexists w, _, _.
Qed.

(** The lease in the room is of [r0], and the last renewal was tried at [r],
    when it succeeded or failed. *)
Definition tried (u : Duration) (last : Instant) (w : W) : Prop :=
  ∃ r0 r, lease_at r0 w ∧ (r0 ≤ sdk_instant w)%Z ∧ (r0 = r ∨ refused_at r) ∧ (r ≤ sdk_instant w)%Z ∧ (last ≤ r + u)%Z.
(** Between its turns: the telemetry is at most [u] younger than the last
    attempt, and the next refresh is not overdue by more than [d]. *)
Definition lease_fresh (u d : Duration) (s : Serving L) (w : W) : Prop :=
  holding s ∧ tried u (sv_last_telemetry s) w ∧ (sdk_instant w ≤ sv_last_telemetry s + interval + d)%Z.

Lemma tried_forward u last w w' : tried u last w → forward w w' → tried u last w'.
Proof.
  intros (r0 & r & Hl & Hr0 & Hor & Hr & Hlast) [Hc Ht]. exists r0, r. split; [by eapply lease_at_forward|]. split_and!; [lia|done|lia|done].
Qed.

Lemma now_mono w w' : (sdk_instant w ≤ sdk_instant w')%Z → (sdk_now_ms w ≤ sdk_now_ms w')%Z.
Proof using und.
  destruct (und_clock und) as [base Hb]. rewrite !Hb. intros Hle. apply (Z.div_le_mono _ _ MS) in Hle; [lia|done].
Qed.

Lemma trust_cycle_forward s w s1 w1 :
  trust_cycle st sync_trust s w = (Returns s1, w1) →
  forward w w1 ∧ (holding s → holding s1) ∧ sv_last_telemetry s1 = sv_last_telemetry s.
Proof using und.
  unfold trust_cycle. intros ([] & w2 & Ht & Hr)%io_bind_returns. unfold mret, Io_ret in Hr. injection Hr as <- ->.
  split; [|by split]. destruct (decide _).
  - destruct (parse_room_id _) as [rid|?]; [pose proof (und_trust und rid w) as Hu; by rewrite Ht in Hu|].
    unfold mret, Io_ret in Ht. by injection Ht as ->.
  - unfold mret, Io_ret in Ht. by injection Ht as ->.
Qed.

(** A refresh: a renewal is tried when it is due. *)
Lemma refresh_keeps u s w s1 w1 :
  (0 ≤ refresh_seconds cfg)%Z → holding s → tried u (sv_last_telemetry s) w →
  periodic_refresh cfg st active s w = (Returns s1, w1) → (sdk_instant w1 ≤ sdk_instant w + u)%Z →
  (sdk_now_ms w1 + 2000 * refresh_seconds cfg < 2 ^ 64)%Z →
  holding s1 ∧ (sdk_instant w ≤ sdk_instant w1)%Z ∧ (sdk_instant w ≤ sv_last_telemetry s1 + interval)%Z ∧
  tried u (sv_last_telemetry s1) w1.
Proof using und SerdeLaws0.
  intros Hi Hh Htry Hrun Hu Hb. unfold periodic_refresh in Hrun. rewrite io_bind_observe in Hrun. case_decide as Hdue.
  - apply io_bind_returns in Hrun as ([] & w2 & Ht & Hrun). pose proof (forward_telemetry s w) as Hf. rewrite Ht in Hf. simpl in Hf.
    apply io_bind_returns in Hrun as ([] & w3 & Hren & Hrun). rewrite io_bind_observe in Hrun.
    unfold mret, Io_ret in Hrun. injection Hrun as <- ->. simpl.
    destruct (tried_forward _ _ _ _ Htry Hf) as (r0 & r & Hl & Hr0 & _ & _ & _). destruct Hf as [_ Hf].
    assert (Hle : (sdk_instant w2 ≤ sdk_instant w1)%Z).
    { revert Hren. unfold renew_lease. destruct Hh as (_ & Hh & Hs). rewrite Hh, Hs, io_bind_observe.
      intros (x & w4 & Ha & Hret)%io_bind_returns. unfold mret, Io_ret in Hret. injection Hret as ->. revert Ha.
      unfold attempt, renew_lock. destruct (serde_roundtrip (V := V) (lock_now w2)) as (v & Hv & _).
      fold (lock_now w2). rewrite (write_value_sends _ _ _ _ v) by done. unfold mx, io_map_err.
      destruct (und_lock und v w2) as [Hlock _]. by destruct (MatrixClient.send_state_event _ _ _ v w2) as [[y|e|] w5]; intros; simplify_eq. }
    destruct (renew_lease_tries r0 s w2 w1 Hh Hi) as [_ Hor]; [pose proof (now_mono _ _ Hle); lia|done..|].
    split; [exact Hh|]. split; [lia|]. split; [unfold from_secs; lia|]. destruct Hor as [Hnew|[Href Hold]].
    + exists (sdk_instant w2), (sdk_instant w2). split; [done|]. split_and!; [lia|by left|lia|lia].
    + exists r0, (sdk_instant w2). split; [done|]. split_and!; [lia|by right|lia|lia].
  - unfold mret, Io_ret in Hrun. injection Hrun as <- ->. split; [exact Hh|]. split; [lia|]. by split; [lia|].
Qed.

Lemma up_keeps u d s w s1 w1 :
  (0 ≤ refresh_seconds cfg)%Z → lease_fresh u d s w → up s w = (Returns s1, w1) → (sdk_instant w1 ≤ sdk_instant w + u)%Z →
  (sdk_now_ms w1 + 2000 * refresh_seconds cfg < 2 ^ 64)%Z →
  holding s1 ∧ (sdk_instant w ≤ sdk_instant w1)%Z ∧ (sdk_instant w ≤ sv_last_telemetry s1 + interval)%Z ∧
  tried u (sv_last_telemetry s1) w1.
Proof using und SerdeLaws0.
  intros Hi (Hh & Htry & _) Hrun Hu Hb. unfold upkeep, deferred_setup in Hrun.
  assert (Hready : sv_ready s = true) by apply Hh. rewrite Hready, io_bind_mret in Hrun.
  apply io_bind_returns in Hrun as (s2 & w2 & Href & Ht). apply trust_cycle_forward in Ht as (Hf & Hhold & Hsame).
  pose proof Hf as [_ Ht].
  destruct (refresh_keeps u s w s2 w2 Hi Hh Htry Href ltac:(lia)) as (Hh2 & Hw & Hdue & Htry2).
  { pose proof (now_mono _ _ Ht). lia. }
  rewrite Hsame. split; [by apply Hhold|]. split; [lia|]. split; [done|]. by eapply tried_forward.
Qed.

Lemma turn_inv s w s2 w2 :
  turn s w = (Returns (Some s2), w2) →
  ∃ s1 w1, up s w = (Returns s1, w1) ∧ forward w1 w2 ∧ sv_last_telemetry s2 = sv_last_telemetry s1 ∧ (holding s1 → holding s2).
Proof using und.
  unfold serve_turn. intros (s1 & w1 & Hup & (l & w3 & Hs & Hk)%io_bind_returns)%io_bind_returns. exists s1, w1. split; [done|].
  destruct l as [l|].
  - unfold mret, Io_ret in Hk. injection Hk as <- ->. pose proof (und_serve und (sv_loop s1) w1) as Hf. rewrite Hs in Hf. by split_and!.
  - apply io_bind_returns in Hk as (? & ? & _ & Hk). by unfold mret, Io_ret in Hk.
Qed.

Lemma on_time_fresh u d x y :
  (0 ≤ refresh_seconds cfg)%Z → on_time u d x y → lease_fresh u d x.1 x.2 → lease_fresh u d y.1 y.2.
Proof using All.
  intros Hi Hrun. induction Hrun as [x|s w s1 w1 s2 w2 x Hup Hu Hturn Hd Hb _ IH]; [done|]. intros Hfresh. apply IH. simpl in *.
  destruct (up_keeps u d s w s1 w1 Hi Hfresh Hup Hu Hb) as (Hh & Hw & Hdue & Htry).
  destruct (turn_inv s w s2 w2 Hturn) as (s1' & w1' & Hup' & Hf & Hsame & Hhold). rewrite Hup in Hup'. injection Hup' as <- <-.
  split; [by apply Hhold|]. rewrite Hsame. split; [by eapply tried_forward|lia].
Qed.

(** C5: how a running worker keeps its lease, and when it runs out. As long as
    the upkeep of a turn takes at most [u] and the whole turn at most [d], and
    [d], twice [u] and a millisecond fit into the refresh interval, the lock in
    the state room is that of this worker after every turn. Either it lasts for
    the upkeep of the next turn, in which it is renewed when it is due, or the
    last attempt to renew it, less than an interval and a turn ago, failed: the
    worker does not try again before the next interval, and it goes on as the
    holder. And the lease is renewed only between turns: a turn that serves for
    two intervals ends with a lease that has run out. A sync waits up to thirty
    seconds, so that a refresh interval of fifteen seconds or less loses the
    lease of a worker that is idle. *)
Theorem lease_kept u d s w s' w' :
  (0 ≤ refresh_seconds cfg)%Z → lease_fresh u d s w →
  ((0 ≤ u)%Z → (d + 2 * u + MS ≤ interval)%Z → on_time u d (s, w) (s', w') →
   holding s' ∧ ∃ lock, deserialize_if_present (cell w') = Ok (Some lock) ∧ device_id lock = st_device_id st ∧
     ((∀ w2, (sdk_instant w2 ≤ sdk_instant w' + u)%Z → (sdk_now_ms w2 < expires_at lock)%Z) ∨
      ∃ r, refused_at r ∧ (r ≤ sdk_instant w')%Z ∧ (sdk_instant w' ≤ r + u + interval + d)%Z)) ∧
  (∀ s1 w1 s2 w2 lock,
   up s w = (Returns s1, w1) → (sdk_instant w1 ≤ sdk_instant w + u)%Z → (sdk_now_ms w1 + 2000 * refresh_seconds cfg < 2 ^ 64)%Z →
   turn s w = (Returns (Some s2), w2) → (sdk_instant w1 + 2 * interval ≤ sdk_instant w2)%Z →
   deserialize_if_present (cell w2) = Ok (Some lock) → (expires_at lock ≤ sdk_now_ms w2)%Z).
Proof using All.
  intros Hi Hfresh. destruct (und_clock und) as [base Hbase]. split.
  - intros H0u Hfit Hrun.
    destruct (on_time_fresh u d _ _ Hi Hrun Hfresh) as (Hh & (r0 & r & (lock & w0 & Hd & Hdev & Hw0 & He) & Hr0 & Hor & Hr & Hlast) & Hdue).
    simpl in *. split; [done|]. exists lock. split_and!; [done|done|]. destruct Hor as [->|Href]; [left|right; exists r; split_and!; [done|lia..]].
    intros w2 Hw2. rewrite He, !Hbase, Hw0.
    assert (Hle : (sdk_instant w2 ≤ r + (2000 * refresh_seconds cfg - 1) * MS)%Z) by (unfold from_secs, MS in *; lia).
    apply (Z.div_le_mono _ _ MS) in Hle; [|done]. rewrite Z.div_add in Hle by done. lia.
  - intros s1 w1 s2 w2 lock Hup Hu Hb Hturn Hlong Hd.
    destruct (up_keeps u d s w s1 w1 Hi Hfresh Hup Hu Hb) as (_ & _ & _ & r & r1 & (lock' & w0 & Hd' & _ & Hw0 & He) & Hr & _).
    destruct (turn_inv s w s2 w2 Hturn) as (s1' & w1' & Hup' & [Hc Hf] & _). rewrite Hup in Hup'. injection Hup' as <- <-.
    rewrite Hc, Hd' in Hd. injection Hd as <-. rewrite He, !Hbase, Hw0.
    assert (Hle : (r + (2000 * refresh_seconds cfg) * MS ≤ sdk_instant w2)%Z) by (unfold from_secs, MS in *; lia).
    apply (Z.div_le_mono _ _ MS) in Hle; [|done]. rewrite Z.div_add in Hle by done. lia.
Qed.
End lease.

(** ** A start that is refused *)
Section refused.
Context {W V : Type} `{MatrixSdk W V} `{JsonValue V} `{JsonU64 V} `{JsonBuild V} `{JsonContainers V}
  `{JsonNumbers V} `{HttpServer W V} `{RestExternals} `{MultiOps W V} `{WorkerHost W} `{TrustSerde}.
Context `{!Serde V WorkerInfo} `{!Serde V WorkerTelemetryState}.
Context `{!Serde V WorkerStateConfig} `{!Serde V WorkerStateIdentity} `{!Serde V StateRoomSession}
  `{!Serde V StateRoomEntry} `{!Serde V TrustedEntity} `{!Serde V StateRoomTopology}
  `{!Serde V StateRoomPointer} `{!Serde V WorkerStateLock}.

(** The last thing that a start does: it says that this worker is online. *)
Definition said_online (st : Started) (w : W) : Prop :=
  ∃ w0 state v, WorkerClock.status state = "online" ∧ WorkerClock.worker_uuid state = Some (tc_worker_uuid (st_telemetry st)) ∧ to_value state = Ok v ∧
    worker_write_state (st_room st) WORKER_TELEMETRY (st_state_key st) v w0 = (Returns (), w).

Lemma post_telemetry_says t room key active (w w' : W) :
  post_telemetry (V := V) t room key "online" active w = (Returns (), w') →
  ∃ w0 state v, WorkerClock.status state = "online" ∧ WorkerClock.worker_uuid state = Some (tc_worker_uuid t) ∧ to_value state = Ok v ∧
    worker_write_state room WORKER_TELEMETRY key v w0 = (Returns (), w').
Proof.
  unfold post_telemetry. intros (state & w1 & Hc & (v & w2 & Hv & Hw)%io_bind_returns)%io_bind_returns.
  destruct (to_value state) as [v'|e] eqn:Ev; [|by unfold of_result, raise in Hv].
  unfold of_result, mret, Io_ret in Hv. injection Hv as <- <-. exists w1, state, v'.
  assert (Hst : WorkerClock.status state = "online" ∧ WorkerClock.worker_uuid state = Some (tc_worker_uuid t)); [|by destruct Hst].
  unfold collect_telemetry_state in Hc. rewrite io_bind_observe in Hc. apply io_bind_returns in Hc as (h & w3 & _ & Hc).
  rewrite !io_bind_observe in Hc. apply io_bind_returns in Hc as (x & w4 & _ & Hc). rewrite io_bind_observe in Hc.
  unfold mret, Io_ret in Hc. by injection Hc as <- _.
Qed.

Lemma fresh_identity user host os_user (w w' : W) identity :
  identity_load_or_create fresh_keychain user host os_user w = (Returns identity, w') →
  wh_uuid w = (di_device_id identity, w').
Proof.
  unfold identity_load_or_create. simpl. rewrite io_bind_mret. intros (u & w1 & Hu & Hk)%io_bind_returns.
  rewrite io_bind_mret in Hk. unfold mret, Io_ret in Hk. injection Hk as <- <-.
  unfold uuid_v4 in Hu. destruct (wh_uuid w) as [u' w2]. by injection Hu as <- <-.
Qed.

Lemma start_worker_online cfg connect (w w' : W) st :
  start_worker (V := V) cfg connect w = (Returns (Some st), w') →
  said_online st w' ∧ (∃ w1 w2, wh_uuid w1 = (st_device_id st, w2)) ∧ st_state_key st = cat ["worker/"; resolved_room_name cfg].
Proof.
  unfold start_worker. rewrite !io_bind_observe.
  intros (identity & w1 & Hid & (ts & w2 & _ & (t & w3 & _ & (info & w4 & _ & Hrun)%io_bind_returns)%io_bind_returns)%io_bind_returns)%io_bind_returns.
  destruct (bool_decide _); [by unfold mret, Io_ret in Hrun|].
  apply io_bind_returns in Hrun as (room & w5 & _ & (info2 & w6 & _ & (value & w7 & _ & Hrun)%io_bind_returns)%io_bind_returns).
  apply io_bind_returns in Hrun as (? & w8 & _ & (? & w9 & _ & ([] & w10 & Hpost & Hrun)%io_bind_returns)%io_bind_returns).
  unfold mret, Io_ret in Hrun. injection Hrun as <- <-. split; [exact (post_telemetry_says _ _ _ _ _ _ Hpost)|].
  split; [|done]. apply fresh_identity in Hid. by eexists _, _.
Qed.

(** C16: what a second worker of the same name leaves behind. A start that gets
    to its loop has, as its last act, written its own telemetry, with its own
    instance id and as online, under a key that is made of the name alone. When
    the state room then shows the running lease of another device, the worker
    stops with an error there and then, and after the lock was read it sends
    nothing: the entry of the worker that holds the lease stays overwritten, and
    nothing says that this one is gone. The device id of a worker is a new random
    one at each start, so that a lease of its own that it did not release counts
    as that of another. *)
Theorem refused_start_stays_online {L} cfg connect (w w1 : W) st settings keychain (active : L → Z) with_roots serve sync_trust fuel l now :
  start_worker (V := V) cfg connect w = (Returns (Some st), w1) →
  (said_online st w1 ∧ (∃ w2 w3, wh_uuid w2 = (st_device_id st, w3)) ∧ st_state_key st = cat ["worker/"; resolved_room_name cfg]) ∧
  ∀ room w2 w3,
    get_or_create settings (st_host st) (st_os_user st) (st_localpart st) keychain [] w1 = (Returns room, w2) →
    try_acquire_lock room (make_lock (st_device_id st) (tc_worker_uuid (st_telemetry st)) (st_host st) (st_os_user st) (sdk_now_ms w2)
                             (lease_ttl cfg)) (sdk_now_ms w2) w2 = (Returns false, w3) →
    serve_loop cfg st settings keychain active with_roots serve sync_trust (S fuel) (serving_init now l) w1
    = (Raises "another worker holds the state room lock; refusing to start a second instance", w3).
Proof.
  intros Hstart. split; [by eapply start_worker_online|]. intros room w2 w3 Hroom Hlock.
  cbn [serve_loop]. unfold mbind at 1, Io_bind at 1. unfold serve_turn, upkeep, deferred_setup. cbn [sv_ready serving_init].
  unfold setup_state_room, mbind, Io_bind, attempt at 1. rewrite Hroom. unfold observe, attempt at 1. by rewrite Hlock.
Qed.
End refused.

(** ** What ends a worker that serves *)
Section stops.
Context {W V : Type} `{MatrixSdk W V} `{JsonValue V} `{JsonU64 V} `{JsonBuild V} `{JsonContainers V}
  `{JsonNumbers V} `{HttpServer W V} `{RestExternals} `{MultiOps W V} `{WorkerHost W} `{TrustSerde}.
Context `{!Serde V WorkerInfo} `{!Serde V WorkerTelemetryState}.
Context `{!Serde V WorkerStateConfig} `{!Serde V WorkerStateIdentity} `{!Serde V StateRoomSession}
  `{!Serde V StateRoomEntry} `{!Serde V TrustedEntity} `{!Serde V StateRoomTopology}
  `{!Serde V StateRoomPointer} `{!Serde V WorkerStateLock}.

(** A computation that fails only with errors of [R]. *)
Definition blames {A} (R : string → Prop) (m : Io W string A) : Prop := ∀ w e w', m w = (Raises e, w') → R e.
Lemma blames_bind {A B} R (m : Io W string A) (k : A → Io W string B) : blames R m → (∀ x, blames R (k x)) → blames R (x ← m; k x).
Proof.
  intros Hm Hk w e w' [(x & w1 & _ & Hx)|[(e' & [= ->] & He)|[[=] _]]]%io_bind_inv; [by eapply Hk|by eapply Hm].
Qed.
Lemma blames_bind_after {A B} R (m : Io W string A) (k : A → Io W string B) :
  blames R m → (∀ x w w1, m w = (Returns x, w1) → ∀ e w', k x w1 = (Raises e, w') → R e) → blames R (x ← m; k x).
Proof.
  intros Hm Hk w e w' [(x & w1 & Hx & He)|[(e' & [= ->] & He)|[[=] _]]]%io_bind_inv; [by eapply Hk|by eapply Hm].
Qed.
Lemma blames_ret {A} R (x : A) : blames R (mret x).
Proof. by intros w e w' [=]. Qed.
Lemma blames_observe {A} R (f : W → A) : blames R (observe f).
Proof. by intros w e w' [=]. Qed.
Lemma blames_attempt {A} R (m : Io W string A) : blames R (attempt m).
Proof. unfold attempt. intros w e w'. by destruct (m w) as [[x|e1|] w1]. Qed.
Lemma blames_mono {A} (R R' : string → Prop) (m : Io W string A) : (∀ e, R e → R' e) → blames R m → blames R' m.
Proof. unfold blames. eauto. Qed.
Create HintDb blames.
#[local] Hint Resolve blames_ret blames_observe blames_attempt : blames.
Ltac blame := repeat first [solve [auto with blames]|apply blames_bind; [|intros ?]].

Context {L : Type} (cfg : WorkerRuntimeConfig) (st : Started) (settings : MatrixClient) (keychain : KeychainBackend W)
  (active : L → Z) (with_roots : gmap string string → L → L) (serve : L → Io W string (option L))
  (sync_trust : string → Io W string ()).
(** The exchange of trust has no error, and a time limit adds none. *)
Hypothesis sync_silent : ∀ rid, blames (λ _, False) (sync_trust rid).
Hypothesis timeout_silent : ∀ d v, blames (λ _, False) (wh_timeout d (worker_write_state (V := V) (st_room st) WORKER_TELEMETRY (st_state_key st) v)).

Definition lease_of_another (e : string) : Prop :=
  e = LEASE_REFUSED ∧ ∃ room lock now w0 w1, try_acquire_lock (V := V) room lock now w0 = (Returns false, w1).
Definition unwritable (e : string) : Prop := ∃ state : WorkerTelemetryState, to_value (V := V) state = Err e.
Definition of_turn (e : string) : Prop := ∃ l w0 w1, serve l w0 = (Raises e, w1).

Lemma setup_blames host os_user localpart device worker exec_room ttl :
  blames lease_of_another (setup_state_room (V := V) settings keychain host os_user localpart device worker exec_room ttl).
Proof.
  unfold setup_state_room. apply blames_bind; [blame|]. intros [room|e]; [|blame]. apply blames_bind; [blame|]. intros now.
  apply blames_bind_after; [blame|]. intros acquired w w1 Ha. apply blames_bind; [|intros held; blame].
  destruct acquired as [[|]|e]; [blame| |blame]. intros w2 e w3 [= <- _]. split; [done|].
  unfold attempt in Ha. destruct (try_acquire_lock _ _ _ w) as [[x|e|] w4] eqn:E; simplify_eq. by eexists _, _, _, _, _.
Qed.

Lemma deferred_blames (s : Serving L) : blames (λ e, sv_ready s = false ∧ lease_of_another e)
  (deferred_setup (V := V) cfg st settings keychain with_roots s).
Proof.
  unfold deferred_setup. destruct (sv_ready s); [blame|]. apply blames_bind; [|intros; blame].
  eapply blames_mono; [|apply setup_blames]. done.
Qed.
Lemma refresh_blames (s : Serving L) : blames unwritable (periodic_refresh (V := V) cfg st active s).
Proof.
  unfold periodic_refresh. apply blames_bind; [blame|]. intros now. case_decide; [|blame].
  apply blames_bind; [|intros _; unfold renew_lease; destruct (sv_lock_held s), (sv_state_room s); blame].
  unfold refresh_telemetry. apply blames_bind; [blame|]. intros [state|e]; [|blame].
  apply blames_bind; [|intros; blame]. intros w e w'. destruct (to_value state) eqn:E; [done|]. intros [= <- _]. by exists state.
Qed.
Lemma trust_blames (s : Serving L) : blames (λ _, False) (trust_cycle st sync_trust s).
Proof using sync_silent.
  unfold trust_cycle. apply blames_bind; [|intros; blame]. case_decide; [|blame].
  destruct (parse_room_id _); [apply sync_silent|blame].
Qed.
Lemma shut_down_blames (s : Serving L) : blames (λ _, False) (shut_down (V := V) st active s).
Proof using timeout_silent.
  unfold shut_down, post_offline_telemetry. apply blames_bind.
  - apply blames_bind; [blame|]. intros [state|e]; [|blame]. destruct (to_value state) as [v|e]; [|blame].
    apply blames_bind; [apply timeout_silent|intros; blame].
  - intros []. destruct (sv_lock_held s), (sv_state_room s); blame.
Qed.

(** After its upkeep a turn is set up. *)
Lemma upkeep_ready s w s1 w1 :
  upkeep (V := V) cfg st settings keychain active with_roots sync_trust s w = (Returns s1, w1) → sv_ready s1 = true.
Proof.
  unfold upkeep. intros (s2 & w2 & Hd & (s3 & w3 & Hp & Ht)%io_bind_returns)%io_bind_returns.
  assert (Hready2 : sv_ready s2 = true).
  { unfold deferred_setup in Hd. destruct (sv_ready s) eqn:E; [by unfold mret, Io_ret in Hd; injection Hd as <- _|].
    apply io_bind_returns in Hd as (setup & w4 & _ & Hr). unfold mret, Io_ret in Hr. by injection Hr as <- _. }
  assert (Hready3 : sv_ready s3 = true).
  { unfold periodic_refresh in Hp. rewrite io_bind_observe in Hp. case_decide; [|by unfold mret, Io_ret in Hp; injection Hp as <- _].
    apply io_bind_returns in Hp as (? & ? & _ & (? & ? & _ & Hp)%io_bind_returns). rewrite io_bind_observe in Hp.
    unfold mret, Io_ret in Hp. by injection Hp as <- _. }
  unfold trust_cycle in Ht. apply io_bind_returns in Ht as (? & ? & _ & Ht). unfold mret, Io_ret in Ht. by injection Ht as <- _.
Qed.

Definition stops_of (s : Serving L) (e : string) : Prop :=
  (sv_ready s = false ∧ lease_of_another e) ∨ unwritable e ∨ of_turn e.
Lemma upkeep_blames (s : Serving L) : blames (stops_of s) (upkeep (V := V) cfg st settings keychain active with_roots sync_trust s).
Proof using sync_silent.
  unfold upkeep. apply blames_bind; [eapply blames_mono; [|apply deferred_blames]; by left|]. intros s2.
  apply blames_bind; [eapply blames_mono; [|apply refresh_blames]; by right; left|]. intros s3.
  eapply blames_mono; [|apply trust_blames]. done.
Qed.
Lemma turn_blames (s : Serving L) : blames (stops_of s) (serve_turn (V := V) cfg st settings keychain active with_roots serve sync_trust s).
Proof using sync_silent timeout_silent.
  unfold serve_turn. apply blames_bind; [apply upkeep_blames|]. intros s1.
  apply blames_bind; [intros w e w' He; right; right; by eexists _, _, _|]. intros [l|]; [blame|].
  apply blames_bind; [|intros; blame]. eapply blames_mono; [|apply shut_down_blames]. done.
Qed.

(** what makes a serving worker stop with an error. Its housekeeping stops it
    in two ways only: in the first turn, when the lease is that of another
    worker, and when the telemetry cannot be turned into JSON, which does not
    happen for its type. Whatever else fails there is passed over; all other
    errors are those of what a turn does with its events and sessions. *)
Theorem serving_stops fuel : ∀ s w e w',
  serve_loop (V := V) cfg st settings keychain active with_roots serve sync_trust fuel s w = (Raises e, w') → stops_of s e.
Proof using sync_silent timeout_silent.
  induction fuel as [|fuel IH]; intros s w e w'; cbn [serve_loop]; [by unfold mret, Io_ret|].
  intros [(r & w1 & Hturn & Hk)|[(e' & [= ->] & He)|[[=] _]]]%io_bind_inv; [|by eapply turn_blames].
  destruct r as [s1|]; [|by unfold mret, Io_ret in Hk]. apply IH in Hk.
  assert (Hready : sv_ready s1 = true).
  { unfold serve_turn in Hturn. apply io_bind_returns in Hturn as (s2 & w2 & Hup & (l & w3 & _ & Hl)%io_bind_returns).
    apply upkeep_ready in Hup. destruct l; [by unfold mret, Io_ret in Hl; injection Hl as <- _|].
    by apply io_bind_returns in Hl as (? & ? & _ & Hl). }
  destruct Hk as [[Hno _]|Hk]; [congruence|]. by right.
Qed.
End stops.

(** ** Identities *)
Section identity.
Context {W : Type} `{WorkerHost W} (keychain : KeychainBackend W) (ok : W → Prop) (view : W → gmap string Bytes)
  `{!Implements keychain ok view}.

(** With a keychain that keeps what it is given, a device id is stable. *)
Theorem identity_stable user host os_user host' os_user' w identity w' :
  ok w → (∀ w, ok w → ok (wh_uuid w).2 ∧ view (wh_uuid w).2 = view w) →
  identity_load_or_create keychain user host os_user w = (Returns identity, w') → valid_utf8 (as_bytes (di_device_id identity)) = true →
  ∃ w'', identity_load_or_create keychain user host' os_user' w' = (Returns (mkIdentity (di_device_id identity) user host' os_user'), w'').
Proof using All.
  intros Hok Huuid Hrun Hutf. enough (Hv : ok w' ∧ view w' !! device_id_key user = Some (as_bytes (di_device_id identity))).
  { destruct Hv as [Hok' Hv]. exists w'. unfold identity_load_or_create, mbind, Io_bind.
    rewrite (implements_get (device_id_key user) w' Hok'), Hv, Hutf. by rewrite from_bytes_as_bytes. }
  unfold identity_load_or_create, mbind, Io_bind in Hrun. rewrite (implements_get (device_id_key user) w Hok) in Hrun.
  destruct (view w !! device_id_key user) as [data|] eqn:Ev.
  - destruct (valid_utf8 data) eqn:Eu; [|done]. unfold mret, Io_ret in Hrun. injection Hrun as <- <-. simpl.
    by rewrite as_bytes_from_bytes.
  - unfold uuid_v4 in Hrun. destruct (Huuid w Hok) as [Hok1 Hv1]. destruct (wh_uuid w) as [u w1]. simpl in Hok1, Hv1.
    destruct (implements_set (device_id_key user) (as_bytes u) w1 Hok1) as (w2 & Hset & Hok2 & Hv2).
    rewrite Hset in Hrun. unfold mret, Io_ret in Hrun. injection Hrun as <- <-. split; [done|]. by rewrite Hv2, lookup_insert_eq.
Qed.
End identity.

(** ** Witnesses *)
#[local] Existing Instances toy_json toy_u64 toy_containers toy_build toy_numbers toy_externals toy_trust_serde toy_sdk toy_http.
#[local] Instance toy_lock_serde : Serde TJson WorkerStateLock := toy_serde _.
#[local] Instance toy_lock_laws : SerdeLaws TJson WorkerStateLock := toy_serde_laws _.
(** Written and never read. *)
#[local] Instance unread_serde (T : Type) : Serde TJson T | 100 := {| to_value _ := Ok (TObj []); from_value _ := Err "?" |}.

(** A server of pages with a clock. *)
Abbreviation Clocked := (ToyWorld * N)%type (only parsing).
#[local] Instance clocked_sdk : MatrixSdk Clocked TJson :=
  toy_sdk_with (mkFeed (λ w, Z.of_N w.2) (λ ty key v w, (toy_put ty key v w.1, w.2)) (mret []) [] [] []).
#[local] Instance clocked_http : HttpServer Clocked TJson := λ r w, let '(x, w1) := toy_http r w.1 in (x, (w1, w.2)).
#[local] Instance clocked_ops : MultiOps Clocked TJson := single_server (λ _, Ok []) 0 (λ _, mret ()).
#[local] Instance clocked_host : WorkerHost Clocked := {|
  wh_uuid w := ("U", w); wh_hostname _ := Ok "h"; wh_os_user _ := "o"; wh_system_name _ := None; wh_arch := "a"; wh_os := "os";
  wh_cpus _ := 1%Z; wh_total_memory _ := 0%Z; wh_available_memory _ := 0%Z; wh_disks _ := []; wh_run _ := raise "no such program";
  wh_epoch_secs _ := 0%Z; wh_timeout _ _ m := r ← attempt m; mret (Some r) |}.

Definition toy_runtime : WorkerRuntimeConfig :=
  mkWorkerRuntime defaults_default worker_default "name" (Some (mkCredentials "h/" "u" "p")) None false.
Definition toy_settings : MatrixClient := mkMatrixClient None (from_secs 30).

(** Another device holds the lease for four more seconds. *)
Definition taken : Clocked :=
  match to_value (mkLock "D" "V" "h2" "o" 0 5000) with
  | Ok v => (toy_put WORKER_STATE_LOCK "" v (mkToy ∅ ∅), 0%N)
  | Err _ => (mkToy ∅ ∅, 0%N)
  end.

Lemma refused_start_stays_online_witness :
  let keychain := mkKeychain (λ _, mret None) (λ _ _, mret ()) (λ _, mret ()) in
  ∃ st w1 w3,
    start_worker (V := TJson) toy_runtime (mret "!s") taken = (Returns (Some st), w1) ∧ said_online (V := TJson) st w1 ∧
    serve_loop toy_runtime st toy_settings keychain (λ _ : (), 0%Z) (λ _, id) (λ l, mret (Some l)) (λ _, mret ()) 1 (serving_init 0 ()) w1
    = (Raises "another worker holds the state room lock; refusing to start a second instance", w3).
Proof.
  intros keychain.
  assert (Hall : match start_worker (V := TJson) toy_runtime (mret "!s") taken with
    | (Returns (Some st), w1) =>
        match get_or_create toy_settings (st_host st) (st_os_user st) (st_localpart st) keychain [] w1 with
        | (Returns room, w2) =>
            match try_acquire_lock room (make_lock (st_device_id st) (tc_worker_uuid (st_telemetry st)) (st_host st) (st_os_user st)
                    (sdk_now_ms w2) (lease_ttl toy_runtime)) (sdk_now_ms w2) w2 with (Returns false, _) => True | _ => False end
        | _ => False
        end
    | _ => False
    end) by (vm_compute; exact I).
  destruct (start_worker (V := TJson) toy_runtime (mret "!s") taken) as [[[st|]|e|] w1] eqn:Hstart; [|destruct Hall..].
  destruct (get_or_create toy_settings (st_host st) (st_os_user st) (st_localpart st) keychain [] w1) as [[room|e|] w2] eqn:Hroom;
    [|destruct Hall..].
  destruct (try_acquire_lock room (make_lock (st_device_id st) (tc_worker_uuid (st_telemetry st)) (st_host st) (st_os_user st)
              (sdk_now_ms w2) (lease_ttl toy_runtime)) (sdk_now_ms w2) w2) as [[[|]|e|] w3] eqn:Hlock; [destruct Hall| |destruct Hall..].
  destruct (refused_start_stays_online toy_runtime (mret "!s") taken w1 st toy_settings keychain (λ _ : (), 0%Z) (λ _, id)
    (λ l, mret (Some l)) (λ _, mret ()) 0 () 0 Hstart) as [(Hsaid & _) Hrefused].
  exists st, w1, w3. split; [reflexivity|]. split; [exact Hsaid|]. exact (Hrefused room w2 w3 Hroom Hlock).
Defined.

Definition clocked_cell (w : Clocked) : TJson := toy_cell w.1.
(** A turn serves for thirty seconds. *)
Definition toy_started : Started := mkStarted "D" (mkCollector "D" "U" 60 []) "h" "o" "worker" "!s" "worker/name".
Definition half_minute (l : ()) : Io Clocked string (option ()) := λ w, (Returns (Some l), (w.1, (w.2 + 30000000000)%N)).

Lemma telemetry_other_cell key v w : toy_cell (toy_put WORKER_TELEMETRY key v w) = toy_cell w.
Proof.
  unfold toy_cell, toy_page. change (str_eqb (event_page WORKER_STATE_LOCK "") state_page) with false. cbn [pages toy_put].
  rewrite lookup_insert_ne; [done|]. discriminate.
Qed.

Lemma toy_undisturbed : Undisturbed (L := ()) toy_started half_minute (λ _, mret ()) "!s" clocked_cell.
Proof.
  split.
  - intros l [w n]. split; [done|]. cbn. lia.
  - intros r w. by split.
  - intros t n s w. by split.
  - intros key v [w n]. split; [apply telemetry_other_cell|apply Z.le_refl].
  - intros v [w n]. split; [apply Z.le_refl|]. unfold clocked_cell, toy_cell, toy_page. simpl. by rewrite lookup_insert_eq.
  - intros [w n]. change (0 ≤ 1000 + Z.of_N n / 1000000)%Z. pose proof (Z.div_pos (Z.of_N n) 1000000). lia.
  - by exists 1000%Z.
Qed.

(** Just set up: the lease is of the moment. *)
Definition just_held : Serving () * Clocked :=
  (mkServing true (Some "!s") true 0 0 (), (mkToy ∅ ∅, 0%N)).
Definition with_lock (w : Clocked) : Clocked :=
  match to_value (mkLock "D" "U" "h" "o" 1000 121000) with Ok v => (toy_put WORKER_STATE_LOCK "" v w.1, w.2) | Err _ => w end.

Definition no_keychain : KeychainBackend Clocked := mkKeychain (λ _, mret None) (λ _ _, mret ()) (λ _, mret ()).
Local Abbreviation toy_up := (upkeep toy_runtime toy_started toy_settings no_keychain (λ _ : (), 0%Z) (λ _, id) (λ _, mret ())).
Local Abbreviation toy_turn := (serve_turn toy_runtime toy_started toy_settings no_keychain (λ _ : (), 0%Z) (λ _, id) half_minute (λ _, mret ())).

(** Turns as long as they are on time. *)
Fixpoint run_turns (n : nat) (u d : Duration) (x : Serving () * Clocked) : option (Serving () * Clocked) :=
  match n with
  | 0 => Some x
  | S n =>
      match toy_up x.1 x.2, toy_turn x.1 x.2 with
      | (Returns _, w1), (Returns (Some s2), w2) =>
          if decide (sdk_instant w1 ≤ sdk_instant x.2 + u ∧ sdk_instant w2 ≤ sdk_instant x.2 + d ∧
                     sdk_now_ms w1 + 2000 * refresh_seconds toy_runtime < 2 ^ 64)%Z
          then run_turns n u d (s2, w2) else None
      | _, _ => None
      end
  end.
Lemma run_turns_on_time n u d x y :
  run_turns n u d x = Some y →
  on_time toy_runtime toy_started toy_settings no_keychain (λ _ : (), 0%Z) (λ _, id) half_minute (λ _, mret ()) u d x y.
Proof.
  revert x. induction n as [|n IH]; intros [s w]; cbn [run_turns fst snd]; [intros [= ->]; constructor|].
  destruct (toy_up s w) as [[s1|e|] w1] eqn:Eu; [|done..]. destruct (toy_turn s w) as [[[s2|]|e|] w2] eqn:Et; [|done..].
  case_decide as Ht; [|done]. destruct Ht as (Hu & Hd & Hb). intros Hr. eapply on_time_turn; eauto.
Qed.

Lemma lease_kept_witness :
  ∃ s' w', run_turns 3 1000000000 31000000000 (just_held.1, with_lock just_held.2) = Some (s', w') ∧
    sv_last_telemetry s' = 60000000000%Z ∧
    ∃ lock, deserialize_if_present (clocked_cell w') = Ok (Some lock) ∧ (sdk_now_ms w' < expires_at lock)%Z.
Proof.
  destruct (run_turns 3 1000000000 31000000000 (just_held.1, with_lock just_held.2)) as [[s' w']|] eqn:Hrun.
  - assert (Hs : sv_last_telemetry s' = 60000000000%Z) by (vm_compute in Hrun; injection Hrun as <- _; reflexivity).
    exists s', w'. split; [reflexivity|]. split; [exact Hs|].
    assert (Hfresh : lease_fresh toy_runtime toy_started "!s" clocked_cell 1000000000 31000000000 just_held.1 (with_lock just_held.2)).
    { split; [by split_and!|]. split; [|vm_compute; discriminate]. exists 0%Z, 0%Z.
      split; [|split; [vm_compute; discriminate|split; [by left|split; vm_compute; discriminate]]].
      exists (mkLock "D" "U" "h" "o" 1000 121000), (with_lock just_held.2). split; [vm_compute; reflexivity|]. by split_and!. }
    destruct (proj1 (lease_kept toy_runtime toy_started toy_settings no_keychain (λ _ : (), 0%Z) (λ _, id) half_minute (λ _, mret ()) "!s"
      clocked_cell toy_undisturbed 1000000000 31000000000 just_held.1 (with_lock just_held.2) s' w' ltac:(vm_compute; discriminate) Hfresh)
      ltac:(vm_compute; discriminate) ltac:(vm_compute; discriminate) (run_turns_on_time _ _ _ _ _ Hrun)) as (_ & lock & Hd & _ & He).
    exists lock. split; [exact Hd|]. destruct He as [He|(r & (w0 & e & w1 & _ & Hren) & _)]; [apply He; lia|].
    destruct w0 as [w0 n]. discriminate Hren.
  - exfalso. vm_compute in Hrun. discriminate.
Defined.

(** A worker of another device than the lock's. *)
Definition toy_second : Started := mkStarted "E" (mkCollector "E" "U" 60 []) "h" "o" "worker" "!s" "worker/name".
Lemma clocked_timeout_silent d (m : Io Clocked string ()) : blames (λ _, False) (wh_timeout d m).
Proof.
  intros w e w'. cbn [wh_timeout clocked_host]. unfold mbind, Io_bind, attempt. by destruct (m w) as [[x|e1|] w1].
Qed.

Lemma serving_stops_witness :
  let run := serve_loop toy_runtime toy_second toy_settings no_keychain (λ _ : (), 0%Z) (λ _, id) half_minute (λ _, mret ()) 1 (serving_init 0 ()) taken in
  run.1 = Raises LEASE_REFUSED ∧
  stops_of (W := Clocked) half_minute (serving_init 0 ()) LEASE_REFUSED.
Proof.
  intros run. assert (Hrun : run.1 = Raises LEASE_REFUSED) by (by vm_compute). split; [exact Hrun|].
  apply (serving_stops toy_runtime toy_second toy_settings no_keychain (λ _ : (), 0%Z) (λ _, id) half_minute (λ _, mret ())
    (λ rid, blames_ret _ ()) (λ d v, clocked_timeout_silent d _)
    1 (serving_init 0 ()) taken LEASE_REFUSED run.2).
  rewrite <-Hrun. apply surjective_pairing.
Defined.
