(* ===== verification/Diagnose.v ===== *)
(** * Diagnose: the report on a deployment ([mxdx-client/diagnose.rs])

    One JSON document put together from the configuration, the processes of the
    host, the keychain and what the homeserver tells over HTTP; on request a
    temporary client decrypts the state of the rooms. Whatever fails is a part
    of the report. *)
From S2P Require Import Prelude Text Json Instants P2PCrypto MatrixTypes Effects Rest MatrixClient Keychain WorkerClock MatrixSession Config FabricProcess ClientDirect Toys.
From stdpp Require Import options.

Record BackupReport := mkBackupReport {
  keychain_present : bool; server_has_version : bool; br_version : option string; br_algorithm : option string;
  br_error : option string }.
Definition backup_report_default : BackupReport := mkBackupReport false false None None None.
Inductive DiagnoseBinary : Type := Client | Worker.
Definition binary_name (b : DiagnoseBinary) : string := match b with Client => "mxdx-client" | Worker => "mxdx-worker" end.
Record DiagnoseInput := mkDiagnose {
  dg_profile : string; dg_homeserver : option string; dg_username : option string; dg_password : option string;
  dg_pretty : bool; dg_decrypt : bool }.

(** The host as it is read: the clock, the environment, files and links, the
    names in [/proc], sockets; whether an HTTP client can be built. *)
Class DiagnoseHost (W : Type) := {
  dh_epoch_secs : W → Z;
  dh_env : string → W → option string;
  dh_hostname : W → option string;
  dh_path_exists : string → W → bool;
  dh_read : string → W → option string;
  dh_read_link : string → W → option string;
  dh_proc_names : W → option (list string);
  dh_own_pid : W → Z;
  dh_clk_tck : Z;
  dh_connects : string → W → bool;
  dh_socket_path : string → string;
  dh_pid_path : string → string;
  dh_config_dir : string;
  dh_store_dir : option string;
  dh_keychain_dir : option string;
  dh_temp_dir : string;
  dh_version : string;
  dh_http_client : W → result () string;   (* [reqwest::Client::builder().build()] *)
}.
(** A temporary client of the SDK: logging in with a device id, and the state
    in its store. *)
Class TempClient (W C : Type) := {
  tc_login : C → string → string → string → Io W string ();
  tc_get_room : C → string → W → bool;
  tc_state_events : C → string → string → Io W string (list string);
  tc_remove_dir : string → W → W;
}.

(** ** Times: from the seconds of the epoch *)
Definition civil_from_days (days : Z) : Z * Z * Z :=
  let z := (days + 719468)%Z in
  let era := Z.quot (if decide (0 ≤ z)%Z then z else z - 146096)%Z 146097 in
  (let doe := z - era * 146097 in
   let yoe := (doe - doe / 1460 + doe / 36524 - doe / 146096) / 365 in
   let y := yoe + era * 400 in
   let doy := doe - (365 * yoe + yoe / 4 - yoe / 100) in
   let mp := (5 * doy + 2) / 153 in
   let d := doy - (153 * mp + 2) / 5 + 1 in
   let m := if decide (mp < 10) then mp + 3 else mp - 9 in
   (if decide (m ≤ 2) then y + 1 else y, m, d))%Z.

Definition unix_to_rfc3339 (secs : Z) : Bytes :=
  let secs_of_day := (secs mod 86400)%Z in
  let hour := (secs_of_day / 3600)%Z in
  let minute := (secs_of_day mod 3600 / 60)%Z in
  let second := (secs_of_day mod 60)%Z in
  let '(y, m, d) := civil_from_days (secs / 86400) in
  (format_padded 4 y ++ MINUS :: format_padded 2 m ++ MINUS :: format_padded 2 d)
  ++ CHAR_T :: (format_padded 2 hour ++ CHAR_COLON :: format_padded 2 minute ++ CHAR_COLON :: format_padded 2 second) ++ [CHAR_Z].

(** ** Text *)
Definition derive_type_hint (topic name : option string) : string :=
  let t := as_bytes (default "" topic) in
  let n := as_bytes (default "" name) in
  if contains (as_bytes "launcher.exec") t || contains (as_bytes ".exec") t then "exec"
  else if contains (as_bytes "launcher.logs") t || contains (as_bytes ".logs") t then "logs"
  else if contains (as_bytes "space") t then "space"
  else if contains (as_bytes "exec") n then "exec"
  else if contains (as_bytes "logs") n then "logs" else "other".

Definition with_scheme (prefixes : list string) (homeserver : string) : string :=
  let base := from_bytes (trim_end_matches SLASH (as_bytes homeserver)) in
  if existsb (λ p, starts_with (as_bytes p) (as_bytes base)) prefixes then base else cat ["https://"; base].
(** The user id that is put together of a name and a server. *)
Definition composed_user_id (user hs : string) : string :=
  let server := trim_end_matches SLASH
    (Keychain.trim_start_matches (as_bytes "http://") (Keychain.trim_start_matches (as_bytes "https://") (as_bytes hs))) in
  let server := default server (head (split_byte SLASH server)) in
  let name := drop_while_byte Byte.x40 (as_bytes user) in
  cat ["@"; from_bytes (default name (head (split_byte Byte.x3a name))); ":"; from_bytes server].

(** [BTreeMap<String, u64>]: [*entry(k).or_insert(0) += 1]. *)
Fixpoint count_type (k : string) (l : list (string * Z)) : list (string * Z) :=
  match l with
  | [] => [(k, 1%Z)]
  | (k', n) :: l' =>
      match String.compare k k' with
      | Lt => (k, 1%Z) :: l
      | Eq => (k', (n + 1)%Z) :: l'
      | Gt => (k', n) :: count_type k l'
      end
  end.

Section report.
Context {W V C : Type} `{JsonValue V} `{JsonU64 V} `{JsonBuild V} `{JsonContainers V} `{JsonNumbers V}
  `{HttpServer W V} `{RestExternals} `{MatrixAuth W C} `{SessionSerde} `{DiagnoseHost W} `{TempClient W C}.
(** [ChainedKeychain::default_chain]; the configurations; how a status and a
    JSON document are printed. *)
Variable default_chain : W → result (KeychainBackend W) string.
Variables (load_client load_worker : Io W string DefaultsConfig).
Variable json_pretty json_line : V → result string string.
Local Notation M := (Io W string).

Definition opt_string (o : option string) : V := match o with Some s => json_string s | None => json_null end.
Definition opt_value (o : option V) : V := default json_null o.
(** [Value::pointer]. *)
Fixpoint pointer (v : V) (path : list string) : option V :=
  match path with
  | [] => Some v
  | k :: path => v ← get v k; pointer v path
  end.
Definition pointer_str (v : V) (path : list string) : option string := pointer v path ≫= as_str.
Definition or_else {A} (a b : option A) : option A := match a with Some x => Some x | None => b end.

(** *** Configuration *)
Record Resolved := mkResolved {
  rs_section : V; rs_homeserver : option string; rs_username : option string; rs_password : option string }.

Definition account_local (a : AccountConfig) : string := localpart (ac_user_id a).
Definition from_account {A} (given : option A) (account : option A) : option A := or_else given account.

Definition resolve_config (binary : DiagnoseBinary) (input : DiagnoseInput) : M Resolved :=
  loaded ← attempt (match binary with Client => load_client | Worker => load_worker end);
  let account := match loaded with Ok d => head (df_accounts d) | Err _ => None end in
  let config_file := cat [dh_config_dir; "/"; match binary with Client => "client.toml" | Worker => "worker.toml" end] in
  file_exists ← observe (dh_path_exists config_file);
  let shown_file := match binary, loaded with
                    | Client, Err _ => None
                    | _, _ => if file_exists : bool then Some config_file else None
                    end in
  let load_error := match loaded with
                    | Ok _ => None
                    | Err e => Some (cat [match binary with Client => "client config load failed: " | Worker => "worker defaults load failed: " end; e])
                    end in
  env_hs ← observe (dh_env "MXDX_HOMESERVER"); env_user ← observe (dh_env "MXDX_USERNAME"); env_pw ← observe (dh_env "MXDX_PASSWORD");
  let homeserver := or_else (from_account (dg_homeserver input) (ac_homeserver <$> account)) env_hs in
  let username := or_else (from_account (dg_username input) (account_local <$> account)) env_user in
  let password := or_else (from_account (dg_password input) (account ≫= ac_password)) env_pw in
  let matrix_user_id := match username, homeserver with
                        | Some u, Some hs => Some (composed_user_id u hs)
                        | _, _ => None
                        end in
  mret (mkResolved
    (json_object [("homeserver", opt_string homeserver); ("username", opt_string username);
       ("matrix_user_id", opt_string matrix_user_id); ("store_dir", opt_string dh_store_dir);
       ("keychain_dir", opt_string dh_keychain_dir); ("config_file", opt_string shown_file);
       ("load_error", opt_string load_error); ("password_present", json_bool (bool_decide (is_Some password)))])
    homeserver username password).

(** *** Processes *)
Definition is_process (name : string) (w : W) (entry : string) : option Z :=
  pid ← parse_i64 (as_bytes entry);
  comm ← dh_read (cat ["/proc/"; show pid; "/comm"]) w;
  if str_eqb (from_bytes (trim (as_bytes comm))) name && negb (bool_decide (wrap 32 pid = dh_own_pid w)) then Some pid else None.
Definition scan_proc_for_name (name : string) (w : W) : option Z :=
  entries ← dh_proc_names w; head (omap (is_process name w) entries).

Definition proc_exe (pid : Z) (w : W) : option string := dh_read_link (cat ["/proc/"; show pid; "/exe"]) w.

(** What follows the last closing parenthesis. *)
Fixpoint after_last (b : byte) (l : Bytes) : option Bytes :=
  match l with
  | [] => None
  | x :: l =>
      match after_last b l with
      | Some r => Some r
      | None => if bool_decide (x = b) then Some l else None
      end
  end.
Definition boot_time (stat : string) : option Z :=
  line ← head (omap (λ l, strip_prefix (as_bytes "btime ") l) (lines (as_bytes stat)));
  parse_u64 (trim line).
Definition proc_start_time (pid : Z) (w : W) : option string :=
  stat ← dh_read (cat ["/proc/"; show pid; "/stat"]) w;
  after ← after_last Byte.x29 (as_bytes stat);
  field ← words (S (length after)) after !! 19;
  ticks ← parse_u64 field;
  if bool_decide (dh_clk_tck = 0%Z) then None else
  proc_stat ← dh_read "/proc/stat" w;
  btime ← boot_time proc_stat;
  let secs := wrap 64 (btime + ticks / dh_clk_tck) in
  Some (from_bytes (unix_to_rfc3339 (if decide (secs < 2 ^ 63)%Z then secs else secs - 2 ^ 64)%Z)).

Definition inspect_process (binary : DiagnoseBinary) (profile : string) : M V :=
  w ← observe id;
  let socket_path := match binary with Client => Some (dh_socket_path profile) | Worker => None end in
  let in_file := match binary with
                 | Client => text ← dh_read (dh_pid_path profile) w; parse_i64 (trim (as_bytes text))
                 | Worker => None
                 end in
  let pid := or_else in_file (scan_proc_for_name (binary_name binary) w) in
  mret (json_object
    [("running", json_bool (match pid with Some p => dh_path_exists (cat ["/proc/"; show p]) w | None => false end));
     ("pid", match pid with Some p => json_number p | None => json_null end);
     ("binary_path", opt_string (p ← pid; proc_exe p w)); ("started_at", opt_string (p ← pid; proc_start_time p w));
     ("socket_path", opt_string socket_path);
     ("socket_connectable", json_bool (match socket_path with Some p => dh_path_exists p w && dh_connects p w | None => false end))]).

(** *** The stored session: the section, the token and the device *)
Definition session_section (stored : bool) (device : option string) (source : string) (fresh : bool) (error : option string) : V :=
  json_object ([("stored", json_bool stored); ("device_id", opt_string device); ("device_id_source", json_string source);
                ("fresh_login_required", json_bool fresh)] ++ match error with Some e => [("error", json_string e)] | None => [] end).
Definition inspect_local_session (homeserver username : option string) : M (V * option string * option string) :=
  let none e := mret (session_section false None "none" true e, None, None) in
  match homeserver, username with
  | Some hs, Some user =>
      chain ← observe default_chain;
      match chain with
      | Err e => none (Some (cat ["keychain init failed: "; e]))
      | Ok chain =>
          found ← attempt (kc_get chain (session_key user hs));
          match found with
          | Ok (Some bytes) =>
              mret (match session_from_slice bytes with
                    | Ok s => (session_section true (Some (sd_device_id s)) "keychain" false None, Some (sd_access_token s), Some (sd_device_id s))
                    | Err e => (session_section true None "keychain" true
                                  (Some (cat ["stored session present but failed to parse: "; e])), None, None)
                    end)
          | Ok None => none None
          | Err e => none (Some (cat ["keychain get failed: "; e]))
          end
      end
  | _, _ => none (Some "no homeserver/username to look up")
  end.

(** *** Requests *)
(** A request whose outcome is a value, or a message among the errors. *)
Definition fetch (r : Request V) (refused failed : string) (errors : list string) : M (option V * list string) :=
  sent ← attempt (http r);
  mret (match sent with
        | Ok resp =>
            if is_success resp then (match from_str (text resp) with Ok v => Some v | Err _ => None end, errors)
            else (None, errors ++ [cat [refused; show_status (Rest.status resp)]])
        | Err e => (None, errors ++ [cat [failed; e]])
        end).
(** One that is silent about failures. *)
Definition fetch_quietly (r : Request V) : M (option V) :=
  found ← fetch r "" "" []; mret found.1.

Definition fetch_state (base token room_id event_type : string) : M (option V) :=
  fetch_quietly (mkRequest GET (cat [base; "/_matrix/client/v3/rooms/"; url_encode room_id; "/state/"; event_type; "/"]) token None).
Definition resolve_alias (base alias : string) : M (option string) :=
  v ← fetch_quietly (mkRequest GET (cat [base; "/_matrix/client/v3/directory/room/"; url_encode alias]) "" None);
  mret (v ≫= λ v, get_str v "room_id").

(** *** A room *)
Record RoomScan := mkScan {
  sc_name : option string; sc_topic : option string; sc_encryption : option V; sc_members : Z;
  sc_types : list (string * Z); sc_workers : list V; sc_sessions : list V }.
Definition scan_init : RoomScan := mkScan None None None 0 [] [] [].

Definition worker_entry (ev : V) : V :=
  let content := default (json_object []) (get ev "content") in
  json_object [("state_key", json_string (default "" (get_str ev "state_key"))); ("uuid", opt_value (get content "uuid"));
    ("status", opt_value (get content "status")); ("timestamp", opt_value (or_else (get content "timestamp") (get content "ts")));
    ("encrypted", json_bool false)].
Definition session_entry (ev : V) : V :=
  let content := default (json_object []) (get ev "content") in
  json_object [("uuid", opt_value (or_else (get content "uuid") (get content "session_uuid"))); ("bin", opt_value (get content "bin"));
    ("args", opt_value (get content "args")); ("status", opt_value (get content "status"));
    ("exit_code", opt_value (get content "exit_code")); ("encrypted", json_bool false)].
Definition encrypted_entry (state_key : string) : V :=
  json_object [("state_key", json_string state_key); ("encrypted", json_bool true)].

Definition scan_event (s : RoomScan) (ev : V) : RoomScan :=
  let etype := default "" (get_str ev "type") in
  let types := count_type etype (sc_types s) in
  let among l := existsb (str_eqb etype) l in
  if among ["m.room.name"] then
    mkScan (pointer_str ev ["content"; "name"]) (sc_topic s) (sc_encryption s) (sc_members s) types (sc_workers s) (sc_sessions s)
  else if among ["m.room.topic"] then
    mkScan (sc_name s) (pointer_str ev ["content"; "topic"]) (sc_encryption s) (sc_members s) types (sc_workers s) (sc_sessions s)
  else if among ["m.room.encryption"] then
    mkScan (sc_name s) (sc_topic s) (Some (default (json_object []) (get ev "content"))) (sc_members s) types (sc_workers s) (sc_sessions s)
  else if among ["m.room.member"] then
    mkScan (sc_name s) (sc_topic s) (sc_encryption s)
      (if bool_decide (pointer_str ev ["content"; "membership"] = Some "join") then sc_members s + 1 else sc_members s)%Z
      types (sc_workers s) (sc_sessions s)
  else if among ["org.mxdx.host_telemetry"; "org.mxdx.worker.telemetry"] then
    mkScan (sc_name s) (sc_topic s) (sc_encryption s) (sc_members s) types (sc_workers s ++ [worker_entry ev]) (sc_sessions s)
  else if among ["org.mxdx.session.active"; "org.mxdx.session.completed"] then
    mkScan (sc_name s) (sc_topic s) (sc_encryption s) (sc_members s) types (sc_workers s) (sc_sessions s ++ [session_entry ev])
  else if among ["m.room.encrypted"] then
    let key := default "" (get_str ev "state_key") in
    let under p := starts_with (as_bytes p) (as_bytes key) in
    if under "org.mxdx.host_telemetry" || under "org.mxdx.worker.telemetry" then
      mkScan (sc_name s) (sc_topic s) (sc_encryption s) (sc_members s) types (sc_workers s ++ [encrypted_entry key]) (sc_sessions s)
    else if under "org.mxdx.session." then
      mkScan (sc_name s) (sc_topic s) (sc_encryption s) (sc_members s) types (sc_workers s) (sc_sessions s ++ [encrypted_entry key])
    else mkScan (sc_name s) (sc_topic s) (sc_encryption s) (sc_members s) types (sc_workers s) (sc_sessions s)
  else mkScan (sc_name s) (sc_topic s) (sc_encryption s) (sc_members s) types (sc_workers s) (sc_sessions s).

(** What the sync did not tell is asked for. *)
Definition or_fetched {A} (known : option A) (read : V → option A) (base token room_id event_type : string) : M (option A) :=
  match known with
  | Some x => mret (Some x)
  | None => v ← fetch_state base token room_id event_type; mret (v ≫= read)
  end.

Definition encrypts_state (encryption : option V) : option bool :=
  c ← encryption;
  or_else (get c "encrypt_state_events" ≫= as_bool) (get c "io.element.msc4362.encrypt_state_events" ≫= as_bool).

Definition build_room_report (base token room_id : string) (state_events : list V) : M V :=
  let s := foldl scan_event scan_init state_events in
  name ← or_fetched (sc_name s) (λ v, get_str v "name") base token room_id "m.room.name";
  topic ← or_fetched (sc_topic s) (λ v, get_str v "topic") base token room_id "m.room.topic";
  encryption ← or_fetched (sc_encryption s) Some base token room_id "m.room.encryption";
  mret (json_object
    [("room_id", json_string room_id); ("name", opt_string name); ("topic", opt_string topic); ("member_count", json_number (sc_members s));
     ("encryption", opt_value encryption);
     ("encrypt_state_events", match encrypts_state encryption with Some b => json_bool b | None => json_null end);
     ("type_hint", json_string (derive_type_hint topic name));
     ("recent_state_event_types", json_object ((λ kn, (kn.1, json_number kn.2)) <$> sc_types s));
     ("recent_workers", json_array (sc_workers s)); ("recent_sessions", json_array (sc_sessions s))]).

(** *** Matrix *)
Record MatrixReport := mkCollectedMatrix {
  cm_section : V; cm_token : option string; cm_device : option string; cm_user : option string; cm_rooms : list string }.

Definition login_body (username password : string) : V :=
  json_object [("type", json_string "m.login.password");
    ("identifier", json_object [("type", json_string "m.id.user"); ("user", json_string username)]);
    ("password", json_string password); ("initial_device_display_name", json_string "mxdx-diagnose")].

(** The token, the device and the user. *)
Abbreviation Login := (option string * option string * option string)%type (only parsing).
Definition no_login : Login := (None, None, None).
Definition login_of (v : V) : Login := (get_str v "access_token", get_str v "device_id", get_str v "user_id").

Definition with_stored_token (base : string) (stored_token : option string) : M (Login * list string) :=
  match stored_token with
  | None => mret (no_login, [])
  | Some token =>
      found ← fetch (mkRequest GET (cat [base; "/_matrix/client/v3/account/whoami"]) token None)
                "stored token whoami failed: " "stored token whoami error: " [];
      mret (match found.1 with
            | Some v => (Some token, get_str v "device_id", get_str v "user_id")
            | None => no_login
            end, found.2)
  end.
Definition with_password (base username : string) (password : option string) (errors : list string) : M (Login * list string) :=
  match password with
  | None => mret (no_login, errors ++ ["no stored token and no password — cannot authenticate"])
  | Some pass =>
      sent ← attempt (http (mkRequest POST (cat [base; "/_matrix/client/v3/login"]) "" (Some (login_body username pass))));
      mret (match sent with
            | Ok resp =>
                if is_success resp then (match from_str (text resp) with Ok v => login_of v | Err _ => no_login end, errors)
                else (no_login, errors ++ [cat ["login "; show_status (Rest.status resp); ": "; text resp]])
            | Err e => (no_login, errors ++ [cat ["login error: "; e]])
            end)
  end.
Definition authenticate (base username : string) (password stored_token : option string) : M (Login * list string) :=
  stored ← with_stored_token base stored_token;
  match stored.1.1.1 with
  | Some _ => mret stored
  | None => with_password base username password stored.2
  end.

Definition first_event (ty : string) (read : V → option string) (data : V) : option string :=
  events ← pointer data ["invite_state"; "events"];
  events ← as_array events;
  head (omap (λ ev, if bool_decide (get_str ev "type" = Some ty) then read ev else None) events).
Definition invited_entry (e : string * V) : V :=
  json_object [("room_id", json_string e.1); ("name", opt_string (first_event "m.room.name" (λ ev, pointer_str ev ["content"; "name"]) e.2));
               ("inviter", opt_string (first_event "m.room.member" (λ ev, get_str ev "sender") e.2))].
Definition fields_at (v : V) (path : list string) : list (string * V) := default [] (pointer v path ≫= as_object).
(** The rooms of a sync whose state is there. *)
Definition synced_state (v : V) : gmap string (list V) :=
  list_to_map (omap (λ e, (λ events, (e.1, events)) <$> (pointer e.2 ["state"; "events"] ≫= as_array)) (fields_at v ["rooms"; "join"])).

Fixpoint room_reports (base token : string) (rooms : list string) (states : gmap string (list V)) : M (list V) :=
  match rooms with
  | [] => mret []
  | rid :: rooms =>
      report ← build_room_report base token rid (default [] (states !! rid));
      rest ← room_reports base token rooms (delete rid states);
      mret (report :: rest)
  end.

Definition joined_ids (v : V) : list string := omap as_str (default [] (get v "joined_rooms" ≫= as_array)).
Definition left_entry (e : string * V) : V := json_object [("room_id", json_string e.1)].

Definition with_token (base token : string) (device user : option string) (errors : list string) : M MatrixReport :=
  joined ← fetch (mkRequest GET (cat [base; "/_matrix/client/v3/joined_rooms"]) token None) "joined_rooms: " "joined_rooms error: " errors;
  let rooms := from_option joined_ids [] joined.1 in
  synced ← fetch (mkRequest GET (cat [base; "/_matrix/client/v3/sync?timeout=0"]) token None) "sync: " "sync error: " joined.2;
  let at_ path := from_option (λ v, fields_at v path) [] synced.1 in
  reports ← room_reports base token rooms (from_option synced_state ∅ synced.1);
  mret (mkCollectedMatrix
    (json_object [("login_ok", json_bool true); ("login_device_id", opt_string device); ("login_user_id", opt_string user);
       ("errors", json_array (json_string <$> synced.2)); ("joined_rooms", json_array reports);
       ("invited_rooms", json_array (invited_entry <$> at_ ["rooms"; "invite"]));
       ("left_rooms", json_array (left_entry <$> at_ ["rooms"; "leave"]))])
    (Some token) device user rooms).

Definition collect_matrix (homeserver username : string) (password stored_token : option string) : M MatrixReport :=
  let base := with_scheme ["http://"; "https://"] homeserver in
  login ← authenticate base username password stored_token;
  match login with
  | (Some token, device, user, errors) => with_token base token device user errors
  | (None, _, _, errors) =>
      mret (mkCollectedMatrix
        (json_object [("login_ok", json_bool false); ("errors", json_array (json_string <$> errors)); ("joined_rooms", json_array []);
           ("invited_rooms", json_array []); ("left_rooms", json_array [])]) None None None [])
  end.

(** *** Trust *)
(** The members of a room join those that are asked about, up to 51. *)
Fixpoint add_users (members users : list string) : list string * bool :=
  match members with
  | [] => (users, true)
  | u :: members =>
      let users := if bool_decide (u ∈ users) then users else users ++ [u] in
      if decide (50 < length users) then (users, false) else add_users members users
  end.
Fixpoint gather_users (base token : string) (rooms users : list string) : M (list string) :=
  match rooms with
  | [] => mret users
  | rid :: rooms =>
      v ← fetch_quietly (mkRequest GET (cat [base; "/_matrix/client/v3/rooms/"; url_encode rid; "/joined_members"]) token None);
      let '(users, go_on) := add_users (match v with Some v => (fields_at v ["joined"]).*1 | None => [] end) users in
      if go_on then gather_users base token rooms users else mret users
  end.

Definition trust_error (e : string) : V :=
  json_object [("error", json_string e); ("device_keys", json_array []); ("cross_signing", json_null)].
Definition key_of (kind device_id : string) (dev : V) : V :=
  opt_string (keys ← get dev "keys"; k ← get keys (cat [kind; ":"; device_id]); as_str k).
Definition device_entry (user_id : string) (d : string * V) : V :=
  json_object [("user_id", json_string user_id); ("device_id", json_string d.1);
    ("display_name", opt_string (pointer_str d.2 ["unsigned"; "device_display_name"])); ("ed25519", key_of "ed25519" d.1 d.2);
    ("curve25519", key_of "curve25519" d.1 d.2); ("trust_level", json_string "unknown")].
Definition keys_query (base : string) : string := cat [base; "/_matrix/client/v3/keys/query"].

Definition collect_trust (homeserver token self_user_id : string) (joined_room_ids : list string) : M V :=
  let base := with_scheme ["http"] homeserver in
  users ← gather_users base token (take 20 joined_room_ids) [self_user_id];
  sent ← attempt (http (mkRequest POST (keys_query base) token (Some (json_object
           [("device_keys", json_object ((λ u, (u, json_array [])) <$> users)); ("timeout", json_number 5000)]))));
  mret (match sent with
        | Err e => trust_error (cat ["keys/query failed: "; e])
        | Ok resp =>
            if negb (is_success resp) then trust_error (cat ["keys/query status "; show_status (Rest.status resp)]) else
            match from_str (text resp) with
            | Err e => trust_error (cat ["keys/query parse: "; e])
            | Ok v =>
                json_object
                  [("queried_users", json_array (json_string <$> users));
                   ("device_keys", json_array (fields_at v ["device_keys"] ≫= λ u, device_entry u.1 <$> default [] (as_object u.2)));
                   ("cross_signing", json_object
                      [("master_keys", opt_value (get v "master_keys")); ("self_signing_keys", opt_value (get v "self_signing_keys"));
                       ("user_signing_keys", opt_value (get v "user_signing_keys"))])]
            end
        end).

(** *** Backup *)
Definition with_error (msg : string) (r : BackupReport) : BackupReport :=
  mkBackupReport (keychain_present r) (server_has_version r) (br_version r) (br_algorithm r)
    (Some (match br_error r with Some e => cat [e; "; "; msg] | None => msg end)).
Definition backup_in_keychain (hs matrix_user unix_user : string) : M BackupReport :=
  let r := backup_report_default in
  if str_eqb hs "" || str_eqb matrix_user "" then mret r else
  chain ← observe default_chain;
  match chain with
  | Err e => mret (with_error (cat ["keychain init failed: "; e]) r)
  | Ok keychain =>
      found ← attempt (kc_get keychain (backup_keychain_key hs matrix_user unix_user));
      mret (match found with
            | Ok data => mkBackupReport (bool_decide (is_Some data)) false None None None
            | Err e => with_error (cat ["keychain lookup failed: "; e]) r
            end)
  end.
Definition gather_backup_report (hs : string) (token : option string) (matrix_user unix_user : string) : M BackupReport :=
  r ← backup_in_keychain hs matrix_user unix_user;
  match token with
  | None => mret r
  | Some token =>
      if str_eqb hs "" then mret r else
      built ← observe dh_http_client;
      match built with
      | Err e => mret (with_error (cat ["http client build failed: "; e]) r)
      | Ok _ =>
          sent ← attempt (http (mkRequest GET
                   (cat [from_bytes (trim_end_matches SLASH (as_bytes hs)); "/_matrix/client/v3/room_keys/version"]) token None));
          mret (match sent with
                | Err e => with_error (cat ["backup version request failed: "; e]) r
                | Ok resp =>
                    if bool_decide (Rest.status resp = 404%Z)
                    then mkBackupReport (keychain_present r) false (br_version r) (br_algorithm r) (br_error r)
                    else if is_success resp then
                      match from_str (text resp) with
                      | Ok body => mkBackupReport (keychain_present r) true (get_str body "version") (get_str body "algorithm") (br_error r)
                      | Err e => with_error (cat ["failed to parse backup version response: "; e])
                                   (mkBackupReport (keychain_present r) true (br_version r) (br_algorithm r) (br_error r))
                      end
                    else with_error (cat ["backup version endpoint returned HTTP "; show_status (Rest.status resp)]) r
                end)
      end
  end.
Definition backup_value (r : BackupReport) : V :=
  json_object [("keychain_present", json_bool (keychain_present r)); ("server_has_version", json_bool (server_has_version r));
    ("version", opt_string (br_version r)); ("algorithm", opt_string (br_algorithm r)); ("error", opt_string (br_error r))].

(** *** The state room *)
Definition env_user : M string :=
  user ← observe (dh_env "USER"); logname ← observe (dh_env "LOGNAME");
  mret (default "unknown" (or_else user logname)).
Definition split_user (user_id : option string) : string * string :=
  match user_id with
  | Some u =>
      let trimmed := drop_while_byte Byte.x40 (as_bytes u) in
      match split_once Byte.x3a trimmed with
      | Some (l, s) => (from_bytes l, from_bytes s)
      | None => (from_bytes trimmed, "")
      end
  | None => ("", "")
  end.
Definition collect_state_room (base : string) (user_id : option string) (joined_room_ids : list string) : M V :=
  hostname ← observe dh_hostname;
  let host := default "unknown" hostname in
  os_user ← env_user;
  let '(localpart, server_name) := split_user user_id in
  if str_eqb localpart "" || str_eqb server_name "" then
    mret (json_object [("expected_alias", json_null); ("note", json_string "cannot compute expected alias without matrix user_id");
                       ("host", json_string host); ("os_user", json_string os_user)])
  else
    let alias := cat ["#mxdx-state-"; host; "."; os_user; "."; localpart; ":"; server_name] in
    resolved ← resolve_alias base alias;
    let is_member := match resolved with Some r => bool_decide (r ∈ joined_room_ids) | None => false end in
    mret (json_object
      [("expected_alias", json_string alias); ("alias_resolves", json_bool (bool_decide (is_Some resolved)));
       ("resolved_room_id", opt_string resolved); ("is_joined_member", json_bool is_member); ("host", json_string host);
       ("os_user", json_string os_user); ("localpart", json_string localpart);
       ("note", json_string (match resolved with
                             | Some _ => if is_member then "state room is reachable"
                                         else "resolved to a room but not a joined member — state reads will return 403"
                             | None => "alias not bound — worker will create on next start"
                             end))]).

(** *** The optional pass with a temporary client *)
Definition known_types : list string :=
  ["m.room.encryption"; "m.room.name"; "m.room.topic"; "m.room.create"; "m.room.power_levels"; "m.room.join_rules";
   "m.room.history_visibility"; "org.mxdx.worker.lock"; "org.mxdx.worker.config"; "org.mxdx.worker.topology";
   "org.mxdx.worker.identity"; "org.mxdx.worker.session"].
Definition add_event (room ty : string) (acc : gmap string V) (raw : string) : gmap string V :=
  match from_str raw with
  | Ok v => <[cat [room; ":"; ty; ":"; default "" (get_str v "state_key")] := v]> acc
  | Err _ => acc
  end.
Fixpoint read_types (client : C) (room : string) (types : list string) (acc : gmap string V) : M (gmap string V) :=
  match types with
  | [] => mret acc
  | ty :: types =>
      raws ← attempt (tc_state_events client room ty);
      read_types client room types (match raws with Ok l => foldl (add_event room ty) acc l | Err _ => acc end)
  end.
Fixpoint read_room_states (client : C) (rooms : list string) (acc : gmap string V) : M (gmap string V) :=
  match rooms with
  | [] => mret acc
  | room :: rooms =>
      acc ← match parse_room_id room with
            | Ok rid =>
                known ← observe (tc_get_room client rid);
                if known : bool then read_types client room known_types acc else mret acc
            | Err _ => mret acc
            end;
      read_room_states client rooms acc
  end.
Definition any_sync (client : C) : M () := attempt (auth_sync_once client (mkSync (from_secs 30) false)) ;; mret ().
(** Backup, keys and state of a client that is logged in. *)
Definition decrypt_logged_in (client : C) (rooms : list string) : M (gmap string V) :=
  any_sync client ;;
  user ← observe (auth_user_id client);
  (match user with
   | Some _ => attempt (ensure_backup client false) ;; attempt (download_all_keys client) ;; any_sync client
   | None => mret ()
   end) ;;
  read_room_states client rooms ∅.
(** The directory of the store is removed in any case. *)
Definition guarded {A} (dir : string) (m : M A) : M A := λ w, let '(o, w) := m w in (o, tc_remove_dir dir w).
Definition decrypt_with_temp_client `{Host W} (homeserver matrix_user password : string) (rooms : list string) : M (gmap string V) :=
  pid ← observe dh_own_pid; secs ← observe dh_epoch_secs;
  let stamp := from_bytes ((λ b, if bool_decide (b = CHAR_COLON) then MINUS else b) <$> unix_to_rfc3339 secs) in
  let dir := cat [dh_temp_dir; "/mxdx-diagnose-"; show pid; "-"; stamp] in
  fs_create_dir_all dir ;;
  guarded dir
    (client ← io_map_err (λ _, "diagnose temp client build failed") (auth_build (mkBuilder (HomeserverUrl homeserver) dir None true));
     io_map_err (λ _, "diagnose temp client login failed") (tc_login client matrix_user password "mxdx-diagnose") ;;
     decrypt_logged_in client rooms).

(** *** The report *)
Definition decrypt_section `{Host W} (to_list : gmap string V → list (string * V)) (r : Resolved) (rooms : list string) : M (list (string * V)) :=
  match rs_homeserver r, rs_username r, rs_password r with
  | Some hs, Some user, Some pw =>
      map ← attempt (decrypt_with_temp_client hs user pw rooms);
      mret (match map with
            | Ok map => [("decrypted_state", json_object (to_list map))]
            | Err e => [("decrypt_error", json_string e)]
            end)
  | _, _, _ => mret [("decrypt_error", json_string "--decrypt requires homeserver, username, and password")]
  end.

Definition unauthenticated : MatrixReport := mkCollectedMatrix
  (json_object [("login_ok", json_bool false);
     ("error", json_string "no homeserver/username available (provide --homeserver/--username/--password, env vars, or profile config)")])
  None None None [].

(** What is asked over HTTP, and with the temporary client. *)
Definition collect_sections `{Host W} (to_list : gmap string V → list (string * V)) (decrypt : bool) (config : Resolved)
    (stored_token : option string) : M (list (string * V)) :=
  let hs := rs_homeserver config in
  matrix ← match hs, rs_username config with
           | Some hs, Some user => collect_matrix hs user (rs_password config) stored_token
           | _, _ => mret unauthenticated
           end;
  trust ← match hs, cm_token matrix, cm_user matrix with
          | Some hs, Some token, Some uid => collect_trust hs token uid (cm_rooms matrix)
          | _, _, _ => mret (trust_error "no authenticated session, cannot query keys")
          end;
  unix_user ← env_user;
  let backup_user := or_else (cm_user matrix)
    (match rs_username config, hs with Some u, Some hs => Some (composed_user_id u hs) | _, _ => None end) in
  backup ← gather_backup_report (default "" hs) (cm_token matrix) (default "" backup_user) unix_user;
  state_room ← match hs with
               | Some hs => v ← collect_state_room (with_scheme ["http"] hs) (cm_user matrix) (cm_rooms matrix); mret [("state_room", v)]
               | None => mret []
               end;
  decrypted ← (if decrypt then decrypt_section to_list config (cm_rooms matrix) else mret []);
  mret ([("matrix", cm_section matrix); ("trust", trust); ("backup", backup_value backup)] ++ state_room ++
    [("engagement", json_object [("note", json_string "see matrix.joined_rooms[].recent_sessions and recent_workers for live state")])]
    ++ decrypted).
(** Without an HTTP client the report ends early: it has no backup, no state
    room, and nothing decrypted. *)
Definition without_client (e : string) : list (string * V) :=
  [("matrix", json_object [("error", json_string (cat ["failed to build http client: "; e])); ("login_ok", json_bool false)]);
   ("trust", json_object [("error", json_string "no http client")]); ("engagement", json_object [])].

Definition build_report `{Host W} (to_list : gmap string V → list (string * V)) (binary : DiagnoseBinary) (input : DiagnoseInput) : M V :=
  secs ← observe dh_epoch_secs;
  config ← resolve_config binary input;
  process ← inspect_process binary (dg_profile input);
  session ← inspect_local_session (rs_homeserver config) (rs_username config);
  built ← observe dh_http_client;
  sections ← match built with
             | Err e => mret (without_client e)
             | Ok _ => collect_sections to_list (dg_decrypt input) config session.1.2
             end;
  mret (json_object ([("binary", json_string (binary_name binary)); ("version", json_string dh_version);
    ("timestamp", json_string (from_bytes (unix_to_rfc3339 secs))); ("profile", json_string (dg_profile input));
    ("config", rs_section config); ("process", process); ("session", session.1.1)] ++ sections)).

(** What is printed. *)
Definition run_diagnose `{Host W} (to_list : gmap string V → list (string * V)) (print_fallback : V → string) (binary : DiagnoseBinary)
    (input : DiagnoseInput) : M string :=
  report ← build_report to_list binary input;
  mret (match (if dg_pretty input then json_pretty report else json_line report) with
        | Ok s => s
        | Err e => print_fallback (json_object [("error", json_string (cat ["failed to serialize diagnose report: "; e]));
                                                ("binary", json_string (binary_name binary))])
        end).
End report.

(** The times of the report are those of the telemetry. *)
Lemma unix_to_rfc3339_iso8601 secs : unix_to_rfc3339 secs = iso8601_now secs.
Proof. reflexivity. Qed.

(** ** What a computation cannot do *)
(** It does not panic and keeps [P]; it returns and keeps [P], and what it
    returns is as [Q] says. *)
Definition quiet {W E A} (P : W → Prop) (m : Io W E A) : Prop := ∀ w, P w → (m w).1 ≠ Panics ∧ P (m w).2.
Definition gives_to {W E A} (P : W → Prop) (Q : A → Prop) (m : Io W E A) : Prop := ∀ w, P w → ∃ x w', m w = (Returns x, w') ∧ P w' ∧ Q x.
Definition gives {W E A} (P : W → Prop) (m : Io W E A) : Prop := ∀ w, P w → ∃ x w', m w = (Returns x, w') ∧ P w'.
Create HintDb diagnose.

Section gives.
Context {W : Type} (P : W → Prop).
Lemma gives_quiet {E A} (m : Io W E A) : gives P m → quiet P m.
Proof. intros Hm w Hw. destruct (Hm w Hw) as (x & w' & -> & ?). by split. Qed.
Lemma gives_ret {E A} (x : A) : gives P (mret x : Io W E A).
Proof. intros w Hw. by exists x, w. Qed.
Lemma gives_observe {E A} (f : W → A) : gives P (observe f : Io W E A).
Proof. intros w Hw. by exists (f w), w. Qed.
Lemma gives_bind {E A B} (m : Io W E A) (k : A → Io W E B) : gives P m → (∀ x, gives P (k x)) → gives P (x ← m; k x).
Proof.
  intros Hm Hk w Hw. destruct (Hm w Hw) as (x & w1 & Hx & Hw1). destruct (Hk x w1 Hw1) as (y & w2 & Hy & Hw2).
  exists y, w2. split; [|done]. unfold mbind, Io_bind. by rewrite Hx.
Qed.
Lemma gives_to_bind {E A B} (Q : A → Prop) (m : Io W E A) (k : A → Io W E B) :
  gives_to P Q m → (∀ x, Q x → gives P (k x)) → gives P (x ← m; k x).
Proof.
  intros Hm Hk w Hw. destruct (Hm w Hw) as (x & w1 & Hx & Hw1 & HQ). destruct (Hk x HQ w1 Hw1) as (y & w2 & Hy & Hw2).
  exists y, w2. split; [|done]. unfold mbind, Io_bind. by rewrite Hx.
Qed.
Lemma gives_to_any {E A} (m : Io W E A) : gives P m → gives_to P (λ _, True) m.
Proof. intros Hm w Hw. destruct (Hm w Hw) as (x & w' & ? & ?). by exists x, w'. Qed.
Lemma gives_attempt {E A} (m : Io W E A) : quiet P m → gives P (attempt m).
Proof.
  intros Hm w Hw. destruct (Hm w Hw) as [Hp Hw']. unfold attempt. destruct (m w) as [[x|e|] w']; simpl in *; [by eexists _, _..|done].
Qed.
Lemma quiet_ret {E A} (x : A) : quiet P (mret x : Io W E A).
Proof. apply gives_quiet, gives_ret. Qed.
Lemma quiet_raise {E A} (e : E) : quiet P (raise e : Io W E A).
Proof. by intros w Hw. Qed.
Lemma quiet_observe {E A} (f : W → A) : quiet P (observe f : Io W E A).
Proof. apply gives_quiet, gives_observe. Qed.
Lemma quiet_bind {E A B} (m : Io W E A) (k : A → Io W E B) : quiet P m → (∀ x, quiet P (k x)) → quiet P (x ← m; k x).
Proof.
  intros Hm Hk w Hw. destruct (Hm w Hw) as [Hp Hw']. unfold mbind, Io_bind. destruct (m w) as [[x|e|] w1]; simpl in *; [by apply Hk|done..].
Qed.
Lemma quiet_map_err {E F A} (f : E → F) (m : Io W E A) : quiet P m → quiet P (io_map_err f m).
Proof. intros Hm w Hw. destruct (Hm w Hw) as [Hp Hw']. unfold io_map_err. by destruct (m w) as [[x|e|] w1]. Qed.
Lemma quiet_attempt {E A} (m : Io W E A) : quiet P m → quiet P (attempt m).
Proof. intros Hm. by apply gives_quiet, gives_attempt. Qed.
End gives.
#[export] Hint Resolve gives_ret gives_observe gives_bind gives_attempt quiet_ret quiet_raise quiet_observe quiet_bind quiet_map_err quiet_attempt gives_quiet : diagnose.
(** Through a computation: its parts are known, or are cases. *)
Ltac giving := repeat (intros; first [done | by auto with diagnose nocore | apply gives_bind | apply quiet_bind | case_match]).

(** ** Properties *)
Section theorems.
Context {W V C : Type} `{JsonValue V} `{JsonU64 V} `{JsonBuild V} `{JsonContainers V} `{JsonNumbers V}
  `{HttpServer W V} `{RestExternals} `{MatrixAuth W C} `{SessionSerde} `{DiagnoseHost W} `{TempClient W C} `{Host W}.
Context (default_chain : W → result (KeychainBackend W) string) (load_client load_worker : Io W string DefaultsConfig)
  (json_pretty json_line : V → result string string) (to_list : gmap string V → list (string * V)) (print_fallback : V → string).
Local Abbreviation diagnose := (run_diagnose (C := C) default_chain load_client load_worker json_pretty json_line to_list print_fallback).

(** What is asked of the homeserver: to be told something, or to log in. *)
Definition reading (r : Request V) : Prop := method r = GET ∨ ∃ base, method r = POST ∧ url r = keys_query base.
Definition logging_in (r : Request V) : Prop :=
  ∃ base user pw, r = mkRequest POST (cat [base; "/_matrix/client/v3/login"]) "" (Some (login_body user pw)).

Context (P : W → Prop).
(** The outside without the homeserver, and with the temporary client. *)
Record LocalCalm : Prop := {
  lc_client : quiet P load_client;
  lc_worker : quiet P load_worker;
  lc_keychain w k key : default_chain w = Ok k → quiet P (kc_get k key) }.
Record TempCalm : Prop := {
  tp_dir dir : quiet P (fs_create_dir_all dir);
  tp_remove dir w : P w → P (tc_remove_dir dir w);
  tp_build b : quiet P (auth_build b : Io W string C);
  tp_login (c : C) user pw dev : quiet P (tc_login c user pw dev);
  tp_sync (c : C) s : quiet P (auth_sync_once c s);
  tp_wait (c : C) : quiet P (backups_wait c);
  tp_enabled (c : C) : quiet P (backups_are_enabled c);
  tp_exists (c : C) : quiet P (backups_exists_on_server c);
  tp_delete (c : C) : quiet P (backups_disable_and_delete c);
  tp_create (c : C) : quiet P (backups_create c);
  tp_keys (c : C) room : quiet P (backups_download_room_keys c room);
  tp_state (c : C) room ty : quiet P (tc_state_events c room ty) }.

Hypothesis calm : LocalCalm.
Hypothesis server : ∀ r w, reading r → P w → P (http_send r w).2.
(** A login by password keeps [P] as well. *)
Definition LoginKeeps : Prop := ∀ r w, logging_in r → P w → P (http_send r w).2.
Definition whoami (hs token : string) : Request V :=
  mkRequest GET (cat [with_scheme ["http://"; "https://"] hs; "/_matrix/client/v3/account/whoami"]) token None.
(** As long as [P] holds: the account is [user] at [hs], the keychain has a
    session of it with the token, and the server knows the token. *)
Record TokenKnown (binary : DiagnoseBinary) (input : DiagnoseInput) (hs user token : string) : Prop := {
  tk_account w r w' : P w → resolve_config load_client load_worker binary input w = (Returns r, w') →
    rs_homeserver r = Some hs ∧ rs_username (V := V) r = Some user;
  tk_stored w : P w → ∃ k bytes s w', default_chain w = Ok k ∧ kc_get k (session_key user hs) w = (Returns (Some bytes), w') ∧
    session_from_slice bytes = Ok s ∧ sd_access_token s = token;
  tk_whoami w : P w → ∃ resp v w',
    http_send (whoami hs token) w = (Ok resp, w') ∧
    is_success resp = true ∧ from_str (text resp) = Ok (v : V) }.

Lemma quiet_http r : reading r → quiet P (http r).
Proof using server.
  intros Hr w Hw. unfold http. specialize (server r w Hr Hw). by destruct (http_send r w) as [[resp|e] w'].
Qed.
Lemma quiet_get u token : quiet P (http (mkRequest GET u token None)).
Proof using server. apply quiet_http. by left. Qed.
#[local] Hint Resolve quiet_get : diagnose.

Lemma gives_fetch u token a b errors : gives P (fetch (mkRequest GET u token None) a b errors).
Proof using server. unfold fetch. auto with diagnose. Qed.
Lemma gives_fetch_quietly u token : gives P (fetch_quietly (mkRequest GET u token None)).
Proof using server. unfold fetch_quietly. apply gives_bind; [apply gives_fetch|auto with diagnose]. Qed.
#[local] Hint Resolve gives_fetch gives_fetch_quietly : diagnose.

Lemma gives_or_fetched {A} (known : option A) read base token room ty : gives P (or_fetched known read base token room ty).
Proof using server. unfold or_fetched, fetch_state. giving. Qed.
#[local] Hint Resolve gives_or_fetched : diagnose.
Lemma gives_room_report base token room events : gives P (build_room_report base token room events).
Proof using server. unfold build_room_report. giving. Qed.
#[local] Hint Resolve gives_room_report : diagnose.
Lemma gives_room_reports base token rooms states : gives P (room_reports base token rooms states).
Proof using server. revert states. induction rooms as [|r rooms IH]; intros states; cbn [room_reports]; giving. Qed.
#[local] Hint Resolve gives_room_reports : diagnose.

(** Whom the login goes by: anyone, or the stored token, of which the password
    has no part. *)
Definition login_calm (hs : string) (stored : option string) : Prop :=
  LoginKeeps ∨ ∃ token, stored = Some token ∧ ∀ w, P w → ∃ resp v w',
    http_send (whoami hs token) w = (Ok resp, w') ∧
    is_success resp = true ∧ from_str (text resp) = Ok (v : V).
Lemma gives_authenticate hs user pw stored :
  login_calm hs stored → gives P (authenticate (with_scheme ["http://"; "https://"] hs) user pw stored).
Proof using server.
  unfold authenticate. intros [Hlogin|(token & -> & Hknown)].
  - apply gives_bind; [unfold with_stored_token; giving|]. intros x. case_match; [giving|].
    unfold with_password. case_match; [|giving]. apply gives_bind; [|giving]. apply gives_attempt.
    intros w Hw. unfold http. set (r := mkRequest _ _ _ _). pose proof (Hlogin r w ltac:(by eexists _, _, _) Hw) as Hk.
    by destruct (http_send r w) as [[resp|e] w'].
  - intros w Hw. destruct (Hknown w Hw) as (resp & v & w' & Hs & Hok & Hv).
    pose proof (server (whoami hs token) w (or_introl eq_refl) Hw) as Hw'. rewrite Hs in Hw'. simpl in Hw'.
    eexists _, w'. split; [|exact Hw']. unfold with_stored_token, fetch, attempt, http, mbind, Io_bind. fold (whoami hs token). rewrite Hs, Hok, Hv. reflexivity.
Qed.
Lemma gives_collect_matrix hs user pw stored : login_calm hs stored → gives P (collect_matrix hs user pw stored).
Proof using server.
  intros Hl. unfold collect_matrix, with_token. apply gives_bind; [by apply gives_authenticate|giving].
Qed.

Lemma gives_gather base token rooms users : gives P (gather_users base token rooms users).
Proof using server. revert users. induction rooms as [|r rooms IH]; intros users; cbn [gather_users]; giving. Qed.
#[local] Hint Resolve gives_gather : diagnose.
Lemma gives_collect_trust hs token user rooms : gives P (collect_trust hs token user rooms).
Proof using server.
  unfold collect_trust. apply gives_bind; [giving|]. intros users. apply gives_bind; [|giving].
  apply gives_attempt, quiet_http. right. by eexists.
Qed.

Lemma gives_env_user : gives P env_user.
Proof. unfold env_user. giving. Qed.
#[local] Hint Resolve gives_env_user : diagnose.
Lemma gives_state_room base user rooms : gives P (collect_state_room base user rooms).
Proof using server. unfold collect_state_room, resolve_alias. giving. Qed.

(** What is found in the keychain. *)
Lemma gives_chain {A} (f : string → Io W string A) (g : result (option Bytes) string → Io W string A) key :
  (∀ e, gives P (f e)) → (∀ r, gives P (g r)) →
  gives P (chain ← observe default_chain; match chain with Err e => f e | Ok k => r ← attempt (kc_get k key); g r end).
Proof using calm.
  intros Hf Hg w Hw. rewrite io_bind_observe. destruct (default_chain w) as [k|e] eqn:Ek; [|by apply Hf].
  apply gives_bind; [|exact Hg|done]. apply gives_attempt. by eapply (lc_keychain calm).
Qed.
Lemma gives_backup hs token user unix : gives P (gather_backup_report default_chain hs token user unix).
Proof using calm server.
  unfold gather_backup_report. apply gives_bind.
  - unfold backup_in_keychain. case_match; [giving|].
    apply (gives_chain (λ e, mret (with_error (cat ["keychain init failed: "; e]) backup_report_default))
             (λ found, mret (match found with
                             | Ok data => mkBackupReport (bool_decide (is_Some data)) false None None None
                             | Err e => with_error (cat ["keychain lookup failed: "; e]) backup_report_default
                             end))); giving.
  - giving.
Qed.
Lemma token_found binary input hs user token : TokenKnown binary input hs user token →
  gives_to P (λ s, s.1.2 = Some token) (inspect_local_session (V := V) default_chain (Some hs) (Some user)).
Proof using calm.
  intros Hk w Hw. destruct (tk_stored _ _ _ _ _ Hk w Hw) as (k & bytes & s & w' & Hc & Hg & Hs & Ht).
  pose proof (lc_keychain calm w k (session_key user hs) Hc w Hw) as [_ Hw']. rewrite Hg in Hw'. simpl in Hw'.
  unfold inspect_local_session. rewrite io_bind_observe, Hc. unfold attempt, mbind, Io_bind. rewrite Hg, Hs.
  eexists _, w'. split; [reflexivity|]. split; [exact Hw'|]. simpl. by rewrite Ht.
Qed.
Lemma gives_session hs user : gives P (inspect_local_session (V := V) default_chain hs user).
Proof using calm. unfold inspect_local_session. case_match; [|giving]. case_match; [|giving]. apply gives_chain; giving. Qed.
Lemma gives_config binary input : gives P (resolve_config (V := V) load_client load_worker binary input).
Proof using calm.
  unfold resolve_config. apply gives_bind; [|giving]. apply gives_attempt. destruct binary; [apply (lc_client calm)|apply (lc_worker calm)].
Qed.

(** *** The temporary client *)
Section temp.
Hypothesis temp : TempCalm.

Lemma quiet_ensure_backup (c : C) : quiet P (ensure_backup c false).
Proof using temp.
  assert (Hc : quiet P (create_backup c false)).
  { unfold create_backup, degrade. apply quiet_bind; [apply quiet_attempt, (tp_create temp)|giving]. }
  unfold ensure_backup, degrade. apply quiet_bind; [apply (tp_wait temp)|]. intros _.
  apply quiet_bind; [apply (tp_enabled temp)|]. intros b. case_match; [giving|].
  apply quiet_bind; [apply quiet_attempt, (tp_exists temp)|]. intros e. repeat case_match; try exact Hc.
  apply quiet_bind; [apply quiet_attempt, (tp_delete temp)|]. intros d. case_match; [exact Hc|giving].
Qed.
Lemma quiet_download (c : C) : quiet P (download_all_keys c).
Proof using temp.
  unfold download_all_keys. apply quiet_bind; [giving|]. intros rooms. induction rooms as [|r rooms IH]; cbn [download_rooms]; [giving|].
  apply quiet_bind; [apply quiet_attempt, (tp_keys temp)|]. intros k. apply quiet_bind; [exact IH|giving].
Qed.
Lemma gives_any_sync (c : C) : gives P (any_sync c).
Proof using temp. unfold any_sync. apply gives_bind; [apply gives_attempt, (tp_sync temp)|giving]. Qed.

Lemma gives_read_rooms (c : C) rooms acc : gives P (read_room_states (V := V) c rooms acc).
Proof using temp.
  assert (Ht : ∀ room types acc, gives P (read_types (V := V) c room types acc)).
  { intros room types. induction types as [|ty types IH]; intros acc'; cbn [read_types]; [giving|].
    apply gives_bind; [apply gives_attempt, (tp_state temp)|intros; apply IH]. }
  revert acc. induction rooms as [|r rooms IH]; intros acc; cbn [read_room_states]; [giving|].
  apply gives_bind; [|intros; apply IH]. case_match; [|giving]. apply gives_bind; [giving|]. intros b. case_match; [apply Ht|giving].
Qed.
Lemma gives_logged_in (c : C) rooms : gives P (decrypt_logged_in (V := V) c rooms).
Proof using temp.
  unfold decrypt_logged_in. apply gives_bind; [apply gives_any_sync|]. intros _. apply gives_bind; [giving|]. intros user.
  apply gives_bind; [|intros _; apply gives_read_rooms]. case_match; [|giving].
  apply gives_bind; [apply gives_attempt, quiet_ensure_backup|]. intros _.
  apply gives_bind; [apply gives_attempt, quiet_download|]. intros _. apply gives_any_sync.
Qed.
Lemma quiet_guarded {A} dir (m : Io W string A) : quiet P m → quiet P (guarded dir m).
Proof using temp.
  intros Hm w Hw. destruct (Hm w Hw) as [Hp Hk]. unfold guarded. destruct (m w) as [o w']. split; [done|]. by apply (tp_remove temp).
Qed.
Lemma gives_decrypt r rooms : gives P (decrypt_section (C := C) to_list r rooms).
Proof using temp.
  unfold decrypt_section. repeat (case_match; [|giving]). apply gives_bind; [|giving]. apply gives_attempt.
  unfold decrypt_with_temp_client. apply quiet_bind; [giving|]. intros pid. apply quiet_bind; [giving|]. intros secs.
  apply quiet_bind; [apply (tp_dir temp)|]. intros _. apply quiet_guarded.
  apply quiet_bind; [apply quiet_map_err, (tp_build temp)|]. intros c.
  apply quiet_bind; [apply quiet_map_err, (tp_login temp)|]. intros _. apply gives_quiet, gives_logged_in.
Qed.
End temp.

(** Who the login of a run goes by, whatever its configuration says. *)
Definition calm_session (r : Resolved) (session : V * option string * option string) : Prop :=
  ∀ hs user, rs_homeserver r = Some hs → rs_username (V := V) r = Some user → login_calm hs session.1.2.
Lemma gives_calm_session binary input :
  LoginKeeps ∨ (∃ hs user token, TokenKnown binary input hs user token) →
  gives_to P (λ r, gives_to P (calm_session r) (inspect_local_session default_chain (rs_homeserver r) (rs_username r)))
    (resolve_config load_client load_worker binary input).
Proof using calm.
  intros Hlogin w Hw. destruct (gives_config binary input w Hw) as (r & w' & Hr & Hw'). exists r, w'. split; [done|]. split; [done|].
  destruct Hlogin as [Hlogin|(hs & user & token & Hk)].
  - intros w0 Hw0. destruct (gives_session (rs_homeserver r) (rs_username r) w0 Hw0) as (x & w1 & ? & ?).
    exists x, w1. split_and!; [done..|]. intros hs user _ _. by left.
  - destruct (tk_account _ _ _ _ _ Hk w r w' Hw Hr) as [Hhs Huser]. unfold calm_session. rewrite Hhs, Huser.
    intros w0 Hw0. destruct (token_found _ _ _ _ _ Hk w0 Hw0) as (x & w1 & ? & ? & Hx).
    exists x, w1. split_and!; [done..|]. intros ? ? [= <-] [= <-]. right. exists token. split; [done|].
    apply (tk_whoami _ _ _ _ _ Hk).
Qed.

Lemma gives_sections decrypt r stored : (decrypt = true → TempCalm) →
  (∀ hs user, rs_homeserver r = Some hs → rs_username r = Some user → login_calm hs stored) →
  gives P (collect_sections (C := C) default_chain to_list decrypt r stored).
Proof using calm server.
  intros Htemp Hl. unfold collect_sections.
  apply gives_bind.
  { destruct (rs_homeserver r) as [hs|]; [|giving]. destruct (rs_username r) as [user|]; [|giving].
    by apply gives_collect_matrix, (Hl hs user). }
  intros matrix.
  apply gives_bind; [repeat (case_match; [|giving]); apply gives_collect_trust|]. intros trust.
  apply gives_bind; [giving|]. intros unix_user. apply gives_bind; [apply gives_backup|]. intros backup.
  apply gives_bind; [case_match; [|giving]; apply gives_bind; [apply gives_state_room|giving]|]. intros state_room.
  apply gives_bind; [|giving]. destruct decrypt; [by apply gives_decrypt, Htemp|giving].
Qed.

(** C40: the diagnosis always has a report, and it only looks. As long as nothing
    around it panics, the command ends with a text to print, whatever fails:
    configuration, keychain, processes, the HTTP client, any request. It asks
    the homeserver only to be told something and to log in, so that whatever
    those two leave as it is the run leaves as it is. And it logs in only when
    it must: when the account has a stored session whose token the server
    knows, the run sends no login, the password at hand or not, so that what
    the other requests leave as it is stays. [--decrypt] is apart: its temporary
    client logs in with the password whatever there is. *)
Theorem diagnose_reports binary input (w : W) :
  P w → (dg_decrypt input = true → TempCalm) → LoginKeeps ∨ (∃ hs user token, TokenKnown binary input hs user token) →
  ∃ text w', diagnose binary input w = (Returns text, w') ∧ P w'.
Proof using calm server.
  intros Hw Htemp Hlogin. enough (Hg : gives P (diagnose binary input)) by by apply Hg.
  unfold run_diagnose. apply gives_bind; [|giving]. unfold build_report.
  apply gives_bind; [giving|]. intros secs. eapply gives_to_bind; [by apply gives_calm_session|]. intros config Hsession.
  apply gives_bind; [unfold inspect_process; giving|]. intros process. eapply gives_to_bind; [exact Hsession|]. intros session Hcalm.
  apply gives_bind; [giving|]. intros built. apply gives_bind; [|giving]. case_match; [by apply gives_sections|giving].
Qed.

(** The diagnosis with [--decrypt] can cost the key backup. The temporary
    client has a store of its own, so that no backup is active in it; when the
    server has one, it is deleted and a new one is made in its place before any
    key is downloaded, and the rest of the pass runs after that. *)
Theorem decrypt_replaces_backup (client : C) rooms (w w1 w2 w3 w4 w5 w6 : W) user :
  any_sync client w = (Returns (), w1) → auth_user_id client w1 = Some user →
  backups_wait client w1 = (Returns (), w2) → backups_are_enabled client w2 = (Returns false, w3) →
  backups_exists_on_server client w3 = (Returns true, w4) → backups_disable_and_delete client w4 = (Returns (), w5) →
  backups_create client w5 = (Returns (), w6) →
  decrypt_logged_in (V := V) client rooms w
  = (attempt (download_all_keys client) ;; any_sync client ;; read_room_states client rooms ∅) w6.
Proof.
  intros Hsync Huser Hwait Henabled Hexists Hdelete Hcreate. unfold decrypt_logged_in.
  rewrite (io_bind_step _ _ w () w1) by done. rewrite io_bind_observe, Huser.
  assert (He : attempt (ensure_backup client false) w1 = (Returns (Ok backup_enabled), w6)).
  { unfold attempt, ensure_backup, create_backup, mbind, Io_bind, attempt. by rewrite Hwait, Henabled, Hexists, Hdelete, Hcreate. }
  unfold mbind, Io_bind. rewrite He. by destruct (attempt (download_all_keys client) w6) as [[x|e|] w7].
Qed.
End theorems.

(** ** Witnesses: a homeserver that knows a token, and keeps what was done to it *)
#[local] Existing Instances toy_json toy_u64 toy_containers toy_build toy_numbers toy_externals toy_session_serde.
#[local] Instance backup_server : HttpServer string TJson := λ r w,
  (Ok (if str_eqb (url r) "https://h/_matrix/client/v3/account/whoami" then mkResponse 200 (t_print (TObj [("user_id", TStr "@u:h")]))
       else mkResponse 404 "nothing here"),
   match method r with
   | GET => w
   | POST => if bool_decide (last (as_bytes (url r)) = last (as_bytes "login")) then "logged in" else w
   | PUT | DELETE => "changed"
   end).
#[local] Instance backup_auth : MatrixAuth string () := {|
  auth_build _ := mret (); auth_login_username _ _ _ _ := mret (); auth_restore_session _ _ := mret (); auth_sync_once _ _ := mret ();
  auth_user_id _ _ := Some "@u:x"; auth_device_id _ _ := Some "D"; auth_session _ _ := None; auth_bootstrap _ _ := mret ();
  auth_bootstrap_if_needed _ := mret (); backups_wait _ := mret (); backups_are_enabled _ := mret false;
  backups_exists_on_server _ := λ w, (Returns (negb (str_eqb w "")), w); backups_disable_and_delete _ := λ _, (Returns (), "");
  backups_create _ := λ _, (Returns (), "new"); backups_download_room_keys _ _ := raise "no key"; auth_joined_rooms _ _ := ["!r"];
  parse_user_id := Ok; localpart_of := id |}.
#[local] Instance quiet_host : Host string := {|
  fs_create_dir_all _ := mret (); fs_set_permissions _ _ := mret (); fs_exists _ _ := false; fs_remove_dir_all _ := mret ();
  fs_temp_dir := mret "/tmp"; sys_nanos _ := 0%Z; sys_hostname _ := "h"; sys_pid _ := 1%Z |}.
#[local] Instance bare_host : DiagnoseHost string := {|
  dh_epoch_secs _ := 0%Z; dh_env k _ := if str_eqb k "MXDX_PASSWORD" then Some "pw" else None; dh_hostname _ := None;
  dh_path_exists _ _ := false; dh_read _ _ := None; dh_read_link _ _ := None; dh_proc_names _ := None; dh_own_pid _ := 1%Z;
  dh_clk_tck := 100%Z; dh_connects _ _ := false; dh_socket_path p := p; dh_pid_path p := p; dh_config_dir := "/c";
  dh_store_dir := None; dh_keychain_dir := None; dh_temp_dir := "/tmp"; dh_version := "0"; dh_http_client _ := Ok () |}.
#[local] Instance bare_temp : TempClient string () := {|
  tc_login _ _ _ _ := mret (); tc_get_room _ _ _ := true; tc_state_events _ _ _ := mret []; tc_remove_dir _ w := w |}.
Definition toy_session : SessionData := mkSession "@u:h" "D" "tok" "https://h".
Definition toy_stored : Bytes := pos_bytes (encode (session_tuple toy_session)).
Definition toy_chain (stored : bool) (w : string) : result (KeychainBackend string) string :=
  if stored
  then Ok (mkKeychain (λ _, mret (Some toy_stored)) (λ _ _, mret ()) (λ _, mret ()))
  else Err "no keychain".
Definition toy_input : DiagnoseInput := mkDiagnose "p" (Some "h/") (Some "u") None false false.
Definition toy_run (stored : bool) : Io string string string :=
  run_diagnose (C := ()) (toy_chain stored) (mret defaults_default) (mret defaults_default) (λ v, Ok (t_print v)) (λ v, Ok (t_print v))
    map_to_list t_print Client toy_input.

Lemma toy_local (P : string → Prop) stored : LocalCalm (toy_chain stored) (mret defaults_default) (mret defaults_default) P.
Proof. split; [apply quiet_ret..|]. unfold toy_chain. destruct stored; [|done]. intros w k key [= <-]. apply quiet_ret. Qed.
Lemma toy_reading r w : reading r → (http_send r w).2 = w.
Proof.
  unfold http_send, backup_server, reading. cbn [snd]. intros [->|(base & -> & Hu)]; [done|]. rewrite Hu, bool_decide_false; [done|].
  unfold keys_query. cbn [cat foldr]. by rewrite as_bytes_append, last_app.
Qed.
Lemma toy_known : TokenKnown (V := TJson) (toy_chain true) (mret defaults_default) (mret defaults_default) (λ w, w = "old") Client toy_input "h/" "u" "tok".
Proof.
  split.
  - intros w r w' -> Hr. vm_compute in Hr. by injection Hr as <- _.
  - intros w _. eexists _, toy_stored, toy_session, w. split; [reflexivity|]. split; [reflexivity|].
    split; [vm_compute; reflexivity|reflexivity].
  - intros w _. eexists _, (TObj [("user_id", TStr "@u:h")]), _. split; [reflexivity|]. split; [reflexivity|]. apply t_parse_print.
Qed.

(** With a password at hand: no login for one whose token is known, one
    without a stored session. *)
Lemma diagnose_reports_witness :
  (∃ text, toy_run true "old" = (Returns text, "old")) ∧ (toy_run false "old").2 = "logged in".
Proof.
  split; [|vm_compute; reflexivity].
  destruct (diagnose_reports (C := ()) (toy_chain true) (mret defaults_default) (mret defaults_default) (λ v, Ok (t_print v))
    (λ v, Ok (t_print v)) map_to_list t_print (λ w, w = "old") (toy_local _ true)
    ltac:(intros r w Hr Hw; rewrite toy_reading; [exact Hw|exact Hr]) Client toy_input "old" eq_refl ltac:(discriminate)
    (or_intror (ex_intro _ "h/" (ex_intro _ "u" (ex_intro _ "tok" toy_known))))) as (text & w' & Hrun & Hw').
  exists text. subst w'. exact Hrun.
Defined.
