(* ===== verification/KeyStores.v ===== *)
(** * KeyStores: the keychains of the operating system and of a file
    ([mxdx-types/keychain_file.rs], [keychain_os.rs], and the default chain of
    [keychain_chain.rs])

    A value is kept encrypted in a file that is named after its key, under a
    cipher key that comes of the host and the user, or in the key store of the
    system; the default chain has the second before the first. The file system,
    the key store, SHA-256, AES-GCM and base64 are interfaces. *)
From S2P Require Import Prelude Text Effects P2PCrypto Keychain.
From stdpp Require Import options.

(** ** The outside *)
(** [std::fs], [std::env], [hostname], [getuid] and [OsRng]. *)
Class KeyFiles (W : Type) := {
  kf_exists : string → W → bool;
  kf_read : string → W → result string string;
  kf_create_dir : string → Z → Io W string ();
  kf_write : string → string → Io W string ();
  kf_set_mode : string → Z → Io W string ();
  kf_remove : string → Io W string ();
  kf_nonce : Io W string Bytes;
  kf_env : string → W → option string;
  kf_config_dir : W → option string;
  kf_hostname : W → result string string;
  kf_uid : W → Z;
}.
Class Sha256 := sha256_digest : Bytes → Bytes.

(** The [keyring] crate. *)
Inductive KeyringError : Type := NoEntry | KeyringFailure (message : string).
Definition KeyringError_fmt (e : KeyringError) : string :=
  match e with NoEntry => "No matching entry found in secure storage" | KeyringFailure m => m end.
Class Keyring (W : Type) := {
  kr_entry : string → string → W → result () KeyringError;
  kr_get_password : string → string → Io W KeyringError string;
  kr_set_password : string → string → string → Io W KeyringError ();
  kr_delete_credential : string → string → Io W KeyringError ();
}.

(** ** Names: [key.chars().map(..)], a character of more bytes is one [_] *)
Definition is_safe (b : byte) : bool :=
  byte_range 97 122 b || byte_range 65 90 b || byte_range 48 57 b
  || bool_decide (b = Byte.x2e) || bool_decide (b = Byte.x5f) || bool_decide (b = Byte.x2d).
Definition sanitize_byte (b : byte) : option byte :=
  if is_continuation b then None else Some (if is_safe b then b else Byte.x5f).
Definition sanitize_key (key : string) : string := from_bytes (omap sanitize_byte (as_bytes key)).

(** ** The wire format: nonce, tag, ciphertext *)
Definition IV_LEN : nat := 16.
Definition TAG_LEN : nat := 16.

Section file.
Context {W : Type} `{KeyFiles W} `{Base64} `{Aead} `{Sha256}.
Local Notation M := (Io W string).

(** What [encrypt] does with the nonce it drew. *)
Definition seal_wire (nonce ciphertext_with_tag : Bytes) : Bytes :=
  let ct_len := length ciphertext_with_tag - TAG_LEN in
  nonce ++ drop ct_len ciphertext_with_tag ++ take ct_len ciphertext_with_tag.
Definition file_encrypt (plaintext : Bytes) (key : Bytes) : M string :=
  nonce ← kf_nonce;
  match aead_encrypt key nonce plaintext with
  | None => raise "AES-GCM encryption failed: aead::Error"
  | Some ct => if decide (length ct < TAG_LEN) then panic else mret (b64_encode (seal_wire nonce ct))
  end.
Definition file_decrypt (encoded : string) (key : Bytes) : result string string :=
  let? wire := result_map_err (λ _, "invalid base64 in keychain file") (b64_decode encoded) in
  if decide (length wire < IV_LEN + TAG_LEN)
  then Err "keychain file too short (expected at least 32 bytes for IV + AuthTag)" else
  let iv := take IV_LEN wire in
  let tag := take TAG_LEN (drop IV_LEN wire) in
  let ct := drop (IV_LEN + TAG_LEN) wire in
  match aead_decrypt key iv (ct ++ tag) with
  | None => Err "AES-GCM decryption failed: aead::Error"
  | Some plaintext => match from_utf8 plaintext with Some s => Ok s | None => Err "decrypted value is not valid UTF-8" end
  end.

Record FileKeychain := mkFileKeychain { fk_config_dir : string; fk_key : Bytes }.

Definition get_uid (w : W) : string := pretty (kf_uid w).
Definition derive_key (w : W) : result Bytes string :=
  let? host := result_map_err (λ _, "failed to get hostname") (kf_hostname w) in
  Ok (sha256_digest (as_bytes (cat [host; ":"; get_uid w; ":mxdx-credential-store"]))).
Definition file_keychain_new (w : W) : result FileKeychain string :=
  let config_dir := match kf_env "MXDX_KEYCHAIN_DIR" w with
                    | Some dir => dir
                    | None => path_join (default "~/.config" (kf_config_dir w)) "mxdx"
                    end in
  let? key := derive_key w in
  Ok (mkFileKeychain config_dir key).

Definition file_path (k : FileKeychain) (key : string) : string := path_join (fk_config_dir k) (cat [sanitize_key key; ".enc"]).
Definition ensure_dir (k : FileKeychain) : M () :=
  io_map_err (λ _, "failed to create keychain config directory") (kf_create_dir (fk_config_dir k) 448).

Definition file_get (k : FileKeychain) (key : string) : M (option Bytes) :=
  let path := file_path k key in
  exists_ ← observe (kf_exists path);
  if exists_ : bool then
    read ← observe (kf_read path);
    encoded ← io_map_err (λ _, cat ["failed to read keychain file: "; path]) (of_result read);
    plaintext ← of_result (file_decrypt (from_bytes (trim (as_bytes encoded))) (fk_key k));
    mret (Some (as_bytes plaintext))
  else mret None.
Definition file_set (k : FileKeychain) (key : string) (value : Bytes) : M () :=
  ensure_dir k ;;
  match from_utf8 value with
  | None => raise "file keychain value must be valid UTF-8"
  | Some plaintext =>
      encoded ← file_encrypt (as_bytes plaintext) (fk_key k);
      let path := file_path k key in
      io_map_err (λ _, cat ["failed to write keychain file: "; path]) (kf_write path encoded) ;;
      io_map_err (λ _, "failed to set file permissions to 0o600") (kf_set_mode path 384)
  end.
Definition file_delete (k : FileKeychain) (key : string) : M () :=
  let path := file_path k key in
  exists_ ← observe (kf_exists path);
  if exists_ : bool then io_map_err (λ _, cat ["failed to delete keychain file: "; path]) (kf_remove path) else mret ().

Definition file_keychain (k : FileKeychain) : KeychainBackend W := mkKeychain (file_get k) (file_set k) (file_delete k).
End file.

Section os.
Context {W : Type} `{Keyring W}.
Local Notation M := (Io W string).

Definition OS_SERVICE : string := "mxdx".
Definition os_entry (key : string) : M () :=
  entry ← observe (kr_entry OS_SERVICE key);
  match entry with Ok _ => mret () | Err _ => raise "failed to create keyring entry" end.
Definition os_get (key : string) : M (option Bytes) :=
  os_entry key ;;
  found ← catch (kr_get_password OS_SERVICE key);
  match found with
  | Ok password => mret (Some (as_bytes password))
  | Err NoEntry => mret None
  | Err e => raise (cat ["keyring get failed: "; KeyringError_fmt e])
  end.
Definition os_set (key : string) (value : Bytes) : M () :=
  os_entry key ;;
  match from_utf8 value with
  | None => raise "keychain value must be valid UTF-8"
  | Some value_str => io_map_err (λ _, "keyring set failed") (kr_set_password OS_SERVICE key value_str)
  end.
Definition os_delete (key : string) : M () :=
  os_entry key ;;
  done_ ← catch (kr_delete_credential OS_SERVICE key);
  match done_ with
  | Ok _ | Err NoEntry => mret ()
  | Err e => raise (cat ["keyring delete failed: "; KeyringError_fmt e])
  end.
Definition os_keychain : KeychainBackend W := mkKeychain os_get os_set os_delete.
End os.

(** [ChainedKeychain::default_chain]. *)
Definition default_chain `{KeyFiles W} `{Base64} `{Aead} `{Sha256} `{Keyring W} (w : W) : result (KeychainBackend W) string :=
  let? file := file_keychain_new w in
  match kf_env "MXDX_KEYCHAIN_DIR" w with
  | Some _ =>
      let? file2 := file_keychain_new w in
      Ok (chained (file_keychain file) (file_keychain file2))
  | None => Ok (chained os_keychain (file_keychain file))
  end.

(** ** What a key store promises *)
(** It holds one value for each sanitized name: what is set is read under every
    key with that name until it is replaced or deleted, other keys do not
    notice, and reading changes nothing. *)
Class Stores {W : Type} (k : KeychainBackend W) (ok : W → Prop) : Prop := {
  stores_reads key : reads (kc_get k key);
  stores_set key value w : ok w → valid_utf8 value = true → (Z.of_nat (length value) ≤ 2 ^ 36)%Z →
    ∃ w', kc_set k key value w = (Returns (), w') ∧ ok w' ∧
      ∀ key', kc_get k key' w' = (if decide (sanitize_key key' = sanitize_key key) then Returns (Some value) else (kc_get k key' w).1, w');
  stores_delete key w : ok w →
    ∃ w', kc_delete k key w = (Returns (), w') ∧ ok w' ∧
      ∀ key', kc_get k key' w' = (if decide (sanitize_key key' = sanitize_key key) then Returns None else (kc_get k key' w).1, w');
}.

(** A key store that is not there: it fails and changes nothing. *)
Class Unavailable {W : Type} (k : KeychainBackend W) : Prop := {
  unavailable_get key w : ∃ e, kc_get k key w = (Raises e, w);
  unavailable_set key value w : ∃ e, kc_set k key value w = (Raises e, w);
  unavailable_delete key w : ∃ e, kc_delete k key w = (Raises e, w);
}.

(** The documentation of the crates: AES-GCM adds a tag of 16 bytes to what it
    encrypts, up to 2^36 bytes; base64 is printable. *)
Class AeadSeals `{Aead} : Prop := aead_seals k n p :
  length n = IV_LEN → (Z.of_nat (length p) ≤ 2 ^ 36)%Z → ∃ c, aead_encrypt k n p = Some c ∧ TAG_LEN ≤ length c.
Class Base64Printable `{Base64} : Prop := b64_printable b c : c ∈ as_bytes (b64_encode b) → is_graphic c = true.

(** *** The file keychain *)
Section file_stores.
Context {W : Type} `{KF : KeyFiles W} `{B64 : Base64, BL : !Base64Laws, BP : !Base64Printable} `{AE : Aead, AL : !AeadLaws, SL : !AeadSeals} `{SH : Sha256}.

Lemma file_decrypt_encrypt (key plaintext : Bytes) n ct :
  length n = IV_LEN → TAG_LEN ≤ length ct → aead_encrypt key n plaintext = Some ct → valid_utf8 plaintext = true →
  file_decrypt (from_bytes (trim (as_bytes (b64_encode (seal_wire n ct))))) key = Ok (from_bytes plaintext).
Proof using BL BP AL.
  intros Hn Hct Hseal Hutf. rewrite trim_graphic by apply b64_printable. rewrite from_bytes_as_bytes.
  unfold file_decrypt. rewrite b64_decode_encode. cbn [result_map_err result_bind mbind]. unfold seal_wire. set (t := length ct - TAG_LEN).
  assert (Ht : length (drop t ct) = TAG_LEN) by (rewrite length_drop; unfold t; lia).
  rewrite decide_False by (rewrite !length_app; lia).
  rewrite <-drop_drop, (drop_app_length' n _ IV_LEN) by done. rewrite (take_app_length' n _ IV_LEN) by done.
  rewrite (take_app_length' (drop t ct) _ TAG_LEN), (drop_app_length' (drop t ct) _ TAG_LEN) by done.
  rewrite take_drop, (aead_decrypt_encrypt _ _ _ _ Hseal). unfold from_utf8. by rewrite Hutf.
Qed.

Lemma file_path_inj k key key' : file_path k key = file_path k key' ↔ sanitize_key key = sanitize_key key'.
Proof.
  unfold file_path. split; [|by intros ->]. intros Hp%(inj (path_join _))%(f_equal as_bytes). apply (inj as_bytes).
  rewrite !cat_cons in Hp. by apply (inj (λ l, l ++ _)) in Hp.
Qed.

(** A file system that does what it is asked, around the files of [k]. *)
Definition same_entry (k : FileKeychain) (key : string) (w w' : W) : Prop :=
  kf_exists (file_path k key) w' = kf_exists (file_path k key) w ∧ kf_read (file_path k key) w' = kf_read (file_path k key) w.
Record HealthyFiles (k : FileKeychain) (ok : W → Prop) : Prop := {
  hf_create w : ok w → ∃ w', kf_create_dir (fk_config_dir k) 448 w = (Returns (), w') ∧ ok w' ∧ ∀ key, same_entry k key w w';
  hf_nonce w : ok w → ∃ n w', kf_nonce w = (Returns n, w') ∧ length n = IV_LEN ∧ ok w' ∧ ∀ key, same_entry k key w w';
  hf_mode p w : ok w → ∃ w', kf_set_mode p 384 w = (Returns (), w') ∧ ok w' ∧ ∀ key, same_entry k key w w';
  hf_write key text w : ok w → ∃ w', kf_write (file_path k key) text w = (Returns (), w') ∧ ok w' ∧
    kf_exists (file_path k key) w' = true ∧ kf_read (file_path k key) w' = Ok text ∧
    ∀ key', file_path k key' ≠ file_path k key → same_entry k key' w w';
  hf_remove key w : ok w → kf_exists (file_path k key) w = true → ∃ w', kf_remove (file_path k key) w = (Returns (), w') ∧ ok w' ∧
    kf_exists (file_path k key) w' = false ∧ ∀ key', file_path k key' ≠ file_path k key → same_entry k key' w w' }.

(** The outcome of a reading, of what is under the name. *)
Definition entry_outcome (k : FileKeychain) (path : string) (there : bool) (content : result string string) : outcome (option Bytes) string :=
  if there then
    match content with
    | Ok t => match file_decrypt (from_bytes (trim (as_bytes t))) (fk_key k) with Ok p => Returns (Some (as_bytes p)) | Err e => Raises e end
    | Err _ => Raises (cat ["failed to read keychain file: "; path])
    end
  else Returns None.
Lemma file_get_eq k key w :
  file_get k key w = (entry_outcome k (file_path k key) (kf_exists (file_path k key) w) (kf_read (file_path k key) w), w).
Proof.
  unfold file_get, entry_outcome. rewrite io_bind_observe. destruct (kf_exists _ w); [|done]. rewrite io_bind_observe.
  destruct (kf_read _ w) as [t|e]; [|done]. rewrite (io_bind_step _ _ w t w) by done.
  by destruct (file_decrypt (from_bytes (trim (as_bytes t))) (fk_key k)).
Qed.
Lemma file_get_same k key w w' : same_entry k key w w' → file_get k key w' = ((file_get k key w).1, w').
Proof. intros [He Hr]. by rewrite !file_get_eq, He, Hr. Qed.

#[export] Instance same_entry_trans k key : Transitive (same_entry k key).
Proof. intros w1 w2 w3 [? ?] [? ?]. split; congruence. Qed.

Lemma file_stores k ok : HealthyFiles k ok → Stores (file_keychain k) ok.
Proof using BL BP AL SL.
  intros Hh. split; simpl.
  - intros key w. by rewrite file_get_eq.
  - intros key value w Hok Hutf Hlen.
    destruct (hf_create _ _ Hh w Hok) as (w1 & Hc & Hok1 & Hs1). destruct (hf_nonce _ _ Hh w1 Hok1) as (n & w2 & Hn & Hl & Hok2 & Hs2).
    destruct (aead_seals (fk_key k) n value Hl Hlen) as (ct & Hseal & Htag).
    destruct (hf_write _ _ Hh key (b64_encode (seal_wire n ct)) w2 Hok2) as (w3 & Hw & Hok3 & Hex & Hrd & Hs3).
    destruct (hf_mode _ _ Hh (file_path k key) w3 Hok3) as (w4 & Hm & Hok4 & Hs4).
    exists w4. split; [|split; [done|]].
    + unfold file_set, ensure_dir, from_utf8. rewrite Hutf. unfold file_encrypt. rewrite as_bytes_from_bytes.
      unfold mbind, Io_bind, io_map_err. rewrite Hc, Hn, Hseal, decide_False by lia. cbn. by rewrite Hw, Hm.
    + intros key'. case_decide as Hk.
      * assert (Hp : file_path k key' = file_path k key) by by apply file_path_inj.
        destruct (Hs4 key) as [He Hr]. rewrite file_get_eq, Hp, He, Hex, Hr, Hrd. unfold entry_outcome.
        by rewrite (file_decrypt_encrypt _ _ _ _ Hl Htag Hseal Hutf), as_bytes_from_bytes.
      * rewrite (file_get_same k key' w w4); [done|]. etrans; [apply Hs1|]. etrans; [apply Hs2|]. etrans; [|apply Hs4].
        apply Hs3. by rewrite file_path_inj.
  - intros key w Hok. unfold file_delete. rewrite io_bind_observe. destruct (kf_exists (file_path k key) w) eqn:Hex.
    + destruct (hf_remove _ _ Hh key w Hok Hex) as (w' & Hr & Hok' & Hno & Hs). exists w'. unfold io_map_err. rewrite Hr.
      split_and!; [done..|]. intros key'. case_decide as Hk.
      * apply (file_path_inj k) in Hk. by rewrite file_get_eq, Hk, Hno.
      * apply file_get_same, Hs. by rewrite file_path_inj.
    + exists w. split_and!; [done..|]. intros key'. case_decide as Hk; [|by rewrite !file_get_eq].
      apply (file_path_inj k) in Hk. by rewrite file_get_eq, Hk, Hex.
Qed.
End file_stores.

(** ** Properties *)
Section chain.
Context {W : Type}.
Implicit Types p f : KeychainBackend W.

Lemma chained_unavailable p f ok : Unavailable p → Stores f ok → Stores (chained p f) ok.
Proof.
  intros Hp Hf. assert (Hg : ∀ key w, kc_get (chained p f) key w = kc_get f key w).
  { intros key w. simpl. unfold chained_get, attempt, mbind, Io_bind. by destruct (unavailable_get (k := p) key w) as [e ->]. }
  split.
  - intros key w. rewrite Hg. apply (stores_reads (k := f)).
  - intros key value w Hok Hutf Hlen. destruct (stores_set (k := f) key value w Hok Hutf Hlen) as (w' & Hs & Hok' & Hr).
    exists w'. split; [|split; [done|]].
    + simpl. unfold chained_set, attempt, mbind, Io_bind. by destruct (unavailable_set (k := p) key value w) as [e ->].
    + intros key'. rewrite !Hg. apply Hr.
  - intros key w Hok. destruct (stores_delete (k := f) key w Hok) as (w' & Hs & Hok' & Hr).
    exists w'. split; [|split; [done|]].
    + simpl. unfold chained_delete, attempt, mbind, Io_bind. destruct (unavailable_delete (k := p) key w) as [e ->]. by rewrite Hs.
    + intros key'. rewrite !Hg. apply Hr.
Qed.

Lemma chained_same f ok : Stores f ok → Stores (chained f f) ok.
Proof.
  intros Hf. assert (Hg : ∀ key w, kc_get (chained f f) key w = kc_get f key w).
  { intros key w. simpl. unfold chained_get, attempt, mbind, Io_bind. pose proof (stores_reads (k := f) key w) as Hr.
    destruct (kc_get f key w) as [[[v|]|e|] w'] eqn:E; simpl in Hr; subst; [done|exact E|exact E|done]. }
  split.
  - intros key w. rewrite Hg. apply (stores_reads (k := f)).
  - intros key value w Hok Hutf Hlen. destruct (stores_set (k := f) key value w Hok Hutf Hlen) as (w1 & Hs1 & Hok1 & Hr1).
    destruct (stores_set (k := f) key value w1 Hok1 Hutf Hlen) as (w2 & Hs2 & Hok2 & Hr2). exists w2. split; [|split; [done|]].
    + simpl. unfold chained_set, attempt, mbind, Io_bind. by rewrite Hs1.
    + intros key'. rewrite !Hg, Hr2. by destruct (decide _) as [|Hk]; [|rewrite Hr1; destruct (decide _)].
  - intros key w Hok. destruct (stores_delete (k := f) key w Hok) as (w1 & Hs1 & Hok1 & Hr1).
    destruct (stores_delete (k := f) key w1 Hok1) as (w2 & Hs2 & Hok2 & Hr2). exists w2. split; [|split; [done|]].
    + simpl. unfold chained_delete, attempt, mbind, Io_bind. by rewrite Hs1, Hs2.
    + intros key'. rewrite !Hg, Hr2. by destruct (decide _) as [|Hk]; [|rewrite Hr1; destruct (decide _)].
Qed.

(** Keys whose names differ in replaced characters only are one entry. *)
Theorem aliased_keys f ok key key' value w :
  Stores f ok → sanitize_key key' = sanitize_key key → ok w → valid_utf8 value = true → (Z.of_nat (length value) ≤ 2 ^ 36)%Z →
  ∃ w', kc_set f key value w = (Returns (), w') ∧ kc_get f key' w' = (Returns (Some value), w').
Proof.
  intros Hf Hk Hok Hutf Hlen. destruct (stores_set (k := f) key value w Hok Hutf Hlen) as (w' & Hs & _ & Hr).
  exists w'. split; [done|]. by rewrite Hr, decide_True.
Qed.
End chain.

(** Two users of a homeserver, both with names that Matrix allows. *)
Lemma user_names_collide : sanitize_key (trust_store_key "@a=b:x") = sanitize_key (trust_store_key "@a/b:x").
Proof. reflexivity. Qed.

Section default.
Context {W : Type} `{KF : KeyFiles W} `{B64 : Base64, BL : !Base64Laws, BP : !Base64Printable} `{AE : Aead, AL : !AeadLaws, SL : !AeadSeals}
  `{SH : Sha256} `{KR : Keyring W}.

(** The default key store keeps what it is given. Where the key store of
    the system is not available, or a directory is given that replaces it, the
    default chain holds one UTF-8 value for each sanitized name as long as the
    file system does what it is asked: what is set is what is read, until it is
    replaced or deleted, through the encryption, its wire format and the trimming
    of the file; other names are not touched, and reading changes nothing. *)
Theorem default_chain_stores w0 fk k (ok : W → Prop) :
  file_keychain_new w0 = Ok fk → default_chain w0 = Ok k → HealthyFiles fk ok →
  is_Some (kf_env "MXDX_KEYCHAIN_DIR" w0) ∨ Unavailable (os_keychain (W := W)) → Stores k ok.
Proof using BL BP AL SL.
  intros Hfk Hk Hh Hor. pose proof (file_stores fk ok Hh) as Hf. unfold default_chain in Hk. rewrite Hfk in Hk. simpl in Hk.
  destruct (kf_env _ w0); injection Hk as <-.
  - by apply chained_same.
  - destruct Hor as [[? ?]|Hu]; [done|]. by apply chained_unavailable.
Qed.
End default.

(** ** Witness: files in a map, no key store of the system *)
Definition toy_nibble (n : N) : byte := default Byte.x61 (Byte.of_N (97 + n)).
Definition toy_hex (b : byte) : Bytes := [toy_nibble (Byte.to_N b / 16); toy_nibble (Byte.to_N b mod 16)].
Fixpoint toy_unhex (l : Bytes) : Bytes :=
  match l with
  | a :: b :: l => default Byte.x00 (Byte.of_N ((Byte.to_N a - 97) * 16 + (Byte.to_N b - 97))) :: toy_unhex l
  | _ => []
  end.
#[local] Instance hex_base64 : Base64 := {| b64_encode b := from_bytes (b ≫= toy_hex); b64_decode s := Ok (toy_unhex (as_bytes s)) |}.
#[local] Instance hex_laws : Base64Laws.
Proof.
  intros b. simpl. f_equal. rewrite as_bytes_from_bytes. induction b as [|a b IH]; [done|].
  change (toy_unhex (toy_hex a ++ (b ≫= toy_hex)) = a :: b). simpl. rewrite IH. f_equal. by destruct a.
Qed.
#[local] Instance hex_printable : Base64Printable.
Proof.
  intros b c Hc. simpl in Hc. rewrite as_bytes_from_bytes in Hc. apply list_elem_of_bind in Hc as (a & Hc & _).
  apply elem_of_cons in Hc as [->|Hc]; [by destruct a|]. apply list_elem_of_singleton in Hc as ->. by destruct a.
Qed.
#[local] Instance tagged_aead : Aead := {|
  aead_encrypt _ _ p := Some (p ++ replicate TAG_LEN Byte.x00);
  aead_decrypt _ _ c := Some (take (length c - TAG_LEN) c) |}.
#[local] Instance tagged_laws : AeadLaws.
Proof. intros k n p c Hc. apply (inj Some) in Hc. subst c. unfold aead_decrypt, tagged_aead. f_equal. rewrite length_app, length_replicate. apply take_app_length'. unfold TAG_LEN. lia. Qed.
#[local] Instance tagged_seals : AeadSeals.
Proof. intros k n p _ _. eexists. split; [done|]. rewrite length_app, length_replicate. lia. Qed.
#[local] Instance no_hash : Sha256 := λ b, b.
#[local] Instance map_files : KeyFiles (gmap string string) := {|
  kf_exists p w := bool_decide (is_Some (w !! p)); kf_read p w := match w !! p with Some t => Ok t | None => Err "not found" end;
  kf_create_dir _ _ := mret (); kf_write p t := λ w, (Returns (), <[p := t]> w); kf_set_mode _ _ := mret ();
  kf_remove p := λ w, (Returns (), delete p w); kf_nonce := mret (replicate IV_LEN Byte.x00); kf_env _ _ := None;
  kf_config_dir _ := Some "/c"; kf_hostname _ := Ok "h"; kf_uid _ := 1%Z |}.
#[local] Instance no_keyring : Keyring (gmap string string) := {|
  kr_entry _ _ _ := Err (KeyringFailure "no service"); kr_get_password _ _ := raise NoEntry;
  kr_set_password _ _ _ := raise NoEntry; kr_delete_credential _ _ := raise NoEntry |}.

Lemma map_healthy (k : FileKeychain) : HealthyFiles k (λ _ : gmap string string, True).
Proof.
  split; intros; simpl.
  - by eexists.
  - by eexists _, _.
  - by eexists.
  - eexists. split; [done|]. unfold same_entry. simpl. rewrite lookup_insert_eq. split_and!; try done.
    intros key' Hk. by rewrite lookup_insert_ne.
  - eexists. split; [done|]. unfold same_entry. simpl. rewrite lookup_delete_eq. split_and!; try done.
    intros key' Hk. by rewrite lookup_delete_ne.
Qed.
