(* ===== verification/Secrets.v ===== *)
(** * Secrets: the store of secrets and who is given one
    ([mxdx-secrets/store.rs], [coordinator.rs], [mxdx-types/events/secret.rs])

    The store keeps each value encrypted to its own key; a request for a scope
    that is authorised is answered with the value encrypted to a key that the
    requester made for it. The [age] crate and [serde_json] are interfaces; the
    random bytes of an encryption are an argument. *)
From S2P Require Import Prelude Text Json P2PCrypto MatrixTypes Effects Rest MatrixClient MatrixDelivery Toys.
From stdpp Require Import options.

(** ** The [age] crate: keys, an encryptor and its writer, a decryptor and its
    reader; errors as they are printed. *)
Class Age (Identity Recipient : Type) := {
  AgeEncryptor : Type; AgeWriter : Type; AgeDecryptor : Type; AgeReader : Type;
  to_public : Identity → Recipient;
  parse_recipient : string → result Recipient string;
  with_recipients : Recipient → result AgeEncryptor string;
  wrap_output : AgeEncryptor → Bytes → result AgeWriter string;
  write_and_finish : AgeWriter → Bytes → result Bytes string;
  decryptor_new : Bytes → result AgeDecryptor string;
  decryptor_decrypt : AgeDecryptor → Identity → result AgeReader string;
  read_to_end : AgeReader → result Bytes string;
}.

(** ** Events *)
Record SecretRequestEvent := mkSecretRequest {
  sq_request_id : string; sq_scope : string; sq_ttl_seconds : Z; sq_reason : string; sq_ephemeral_public_key : string }.
Record SecretResponseEvent := mkSecretResponse {
  sr_request_id : string; sr_granted : bool; sr_encrypted_value : option string; sr_error : option string }.

Section secrets.
Context {I R : Type} `{Age I R} `{Base64}.

(** ** Encryption; the store and the coordinator have the same functions *)
Definition encrypt_to_recipient (recipient : R) (plaintext seed : Bytes) : result Bytes string :=
  let? encryptor := result_map_err (λ e, cat ["encryption setup failed: "; e]) (with_recipients recipient) in
  let? writer := result_map_err (λ _, "failed to create encryption writer") (wrap_output encryptor seed) in
  write_and_finish writer plaintext.
Definition decrypt_with_identity (identity : I) (ciphertext : Bytes) : result Bytes string :=
  let? decryptor := result_map_err (λ e, cat ["decryption setup failed: "; e]) (decryptor_new ciphertext) in
  let? reader := result_map_err (λ e, cat ["decryption failed: "; e]) (decryptor_decrypt decryptor identity) in
  read_to_end reader.

(** ** The store *)
Record SecretStore := mkSecretStore { ss_identity : I; ss_recipient : R; ss_entries : gmap string Bytes }.
Definition secret_store_new (identity : I) : SecretStore := mkSecretStore identity (to_public identity) ∅.

Definition secret_add (s : SecretStore) (key value : string) (seed : Bytes) : result SecretStore string :=
  let? encrypted := result_map_err (λ _, "failed to encrypt secret") (encrypt_to_recipient (ss_recipient s) (as_bytes value) seed) in
  Ok (mkSecretStore (ss_identity s) (ss_recipient s) (<[key := encrypted]> (ss_entries s))).
Definition secret_get (s : SecretStore) (key : string) : result (option string) string :=
  match ss_entries s !! key with
  | None => Ok None
  | Some encrypted =>
      let? decrypted := result_map_err (λ _, "failed to decrypt secret") (decrypt_with_identity (ss_identity s) encrypted) in
      match from_utf8 decrypted with
      | Some plaintext => Ok (Some plaintext)
      | None => Err "decrypted value is not valid UTF-8"
      end
  end.

(** *** As bytes: a list of pairs. The order of the map's iteration, and
    [serde_json] to and from bytes, are given. *)
Section serde.
Context {V : Type} `{JsonValue V} `{JsonU64 V} `{JsonBuild V} `{JsonContainers V} `{JsonNumbers V}.
Variable iteration : gmap string Bytes → list (string * Bytes).
Variables (to_vec : V → result Bytes string) (from_slice : Bytes → result V string).

Definition entry_to_value (e : string * Bytes) : V :=
  json_array [json_string e.1; json_array ((λ b, json_number (Z.of_N (Byte.to_N b))) <$> e.2)].
Definition store_serialize (s : SecretStore) : result Bytes string :=
  result_map_err (λ _, "failed to serialize store") (to_vec (json_array (entry_to_value <$> iteration (ss_entries s)))).

(** What [Deserialize] of [(String, Vec<u8>)] takes. *)
Definition value_to_byte (v : V) : option byte := n ← Json.as_u64 v; if decide (n < 256)%Z then Byte.of_N (Z.to_N n) else None.
Definition value_to_entry (v : V) : option (string * Bytes) :=
  fields ← as_array v;
  match fields with
  | [k; data] => key ← as_str k; l ← as_array data; bytes ← mapM value_to_byte l; Some (key, bytes)
  | _ => None
  end.
Definition store_deserialize (data : Bytes) (identity : I) : result SecretStore string :=
  let fail := Err "failed to deserialize store" in
  match from_slice data with
  | Err _ => fail
  | Ok v =>
      match as_array v ≫= mapM value_to_entry with
      | None => fail
      | Some entries =>
          (* [collect]: what comes later replaces *)
          Ok (mkSecretStore identity (to_public identity) (foldl (λ m e, <[e.1 := e.2]> m) ∅ entries))
      end
  end.
End serde.

(** ** The coordinator *)
Record SecretCoordinator := mkSecretCoordinator { sc_store : SecretStore; sc_authorized_scopes : gset string }.

Definition refusal (request : SecretRequestEvent) (error : string) : SecretResponseEvent :=
  mkSecretResponse (sq_request_id request) false None (Some error).
Definition handle_secret_request (c : SecretCoordinator) (request : SecretRequestEvent) (seed : Bytes) : SecretResponseEvent :=
  if negb (bool_decide (sq_scope request ∈ sc_authorized_scopes c))
  then refusal request (cat ["unauthorized scope: "; sq_scope request]) else
  match secret_get (sc_store c) (sq_scope request) with
  | Err e => refusal request (cat ["store error: "; e])
  | Ok None => refusal request (cat ["secret not found: "; sq_scope request])
  | Ok (Some plaintext) =>
      match parse_recipient (sq_ephemeral_public_key request) with
      | Err e => refusal request (cat ["invalid ephemeral public key: "; e])
      | Ok recipient =>
          match encrypt_to_recipient recipient (as_bytes plaintext) seed with
          | Ok ciphertext => mkSecretResponse (sq_request_id request) true (Some (b64_encode ciphertext)) None
          | Err e => refusal request (cat ["encryption failed: "; e])
          end
      end
  end.
End secrets.
Arguments SecretStore : clear implicits.
Arguments SecretCoordinator : clear implicits.

(** The documentation of [age]: what is encrypted to the public key of an
    identity is decrypted with it, and with no other. *)
Class AgeLaws (I R : Type) `{Age I R} : Prop := age_encrypted i e w seed p c :
  with_recipients (to_public i) = Ok e → wrap_output e seed = Ok w → write_and_finish w p = Ok c →
  ∃ d r, decryptor_new c = Ok d ∧ decryptor_decrypt d i = Ok r ∧ read_to_end r = Ok p ∧
    ∀ i', to_public i' ≠ to_public i → ∃ e, decryptor_decrypt d i' = Err e.

(** ** Properties *)
Section theorems.
Context {I R : Type} `{AG : Age I R, LW : !AgeLaws I R} `{B64 : Base64, BL : !Base64Laws}.
Implicit Types (s : SecretStore I R) (c : SecretCoordinator I R) (i : I) (hist : list (string * string * Bytes)).

Lemma encrypted_for i p seed ct :
  encrypt_to_recipient (to_public i) p seed = Ok ct →
  decrypt_with_identity i ct = Ok p ∧ ∀ i', to_public i' ≠ to_public i → ∃ e, decrypt_with_identity i' ct = Err e.
Proof using LW.
  unfold encrypt_to_recipient, decrypt_with_identity. destruct (with_recipients _) as [e|] eqn:He; [|done]. simpl.
  destruct (wrap_output e seed) as [w|] eqn:Hw; [|done]. simpl. intros Hc.
  destruct (age_encrypted i e w seed p ct He Hw Hc) as (d & r & -> & Hr & Hp & Ho). simpl. rewrite Hr. simpl.
  split; [done|]. intros i' Hi. destruct (Ho i' Hi) as [err ->]. by eexists.
Qed.

(** *** What a store holds *)
Definition holds s (m : gmap string string) : Prop :=
  ss_recipient s = to_public (ss_identity s) ∧ ∀ key, secret_get s key = Ok (m !! key).
Fixpoint add_all s hist : result (SecretStore I R) string :=
  match hist with
  | [] => Ok s
  | (key, value, seed) :: hist => let? s := secret_add s key value seed in add_all s hist
  end.
Definition added (m : gmap string string) hist : gmap string string := foldl (λ m e, <[e.1.1 := e.1.2]> m) m hist.

Lemma holds_new i : holds (secret_store_new i) ∅.
Proof. split; [done|]. intros key. unfold secret_get. simpl. by rewrite !lookup_empty. Qed.
Lemma holds_add s m key value seed s' :
  holds s m → valid_utf8 (as_bytes value) = true → secret_add s key value seed = Ok s' → holds s' (<[key := value]> m).
Proof using LW.
  intros [Hr Hg] Hv. unfold secret_add. destruct (encrypt_to_recipient _ _ _) as [ct|] eqn:He; [|done]. intros [= <-].
  split; [done|]. intros key'. unfold secret_get. simpl. destruct (decide (key = key')) as [<-|Hk].
  - rewrite !lookup_insert_eq. rewrite Hr in He. rewrite (proj1 (encrypted_for _ _ _ _ He)). simpl.
    unfold from_utf8. by rewrite Hv, from_bytes_as_bytes.
  - rewrite !lookup_insert_ne by done. apply Hg.
Qed.
Lemma holds_all hist : ∀ s m s', holds s m → Forall (λ e, valid_utf8 (as_bytes e.1.2) = true) hist →
  add_all s hist = Ok s' → holds s' (added m hist).
Proof using LW.
  induction hist as [|[[key value] seed] hist IH]; intros s m s' Hs Hf; simpl; [by intros [= <-]|].
  apply Forall_cons in Hf as [Hv Hf]. destruct (secret_add s key value seed) as [s1|] eqn:Ha; [|done]. simpl.
  intros Hall. by eapply IH; [eapply holds_add|..].
Qed.

(** C29: a secret goes to those that may have it, and only they can read it. A
    store to which secrets were added answers a request, whose key is the public
    key of [i], by the scopes and by what was added last under the scope: with
    a value, the answer is encrypted so that [i] reads this value and no other
    identity reads anything; without, it is a refusal that says why and carries no
    value. A request for a scope that is not authorised gets the same answer
    from every store. *)
Theorem secret_given_to_requester i0 hist s scopes request i seed :
  add_all (secret_store_new i0) hist = Ok s → Forall (λ e, valid_utf8 (as_bytes e.1.2) = true) hist →
  parse_recipient (sq_ephemeral_public_key request) = Ok (to_public i) →
  (∀ p, ∃ ct, encrypt_to_recipient (to_public i) p seed = Ok ct) →
  let response := handle_secret_request (mkSecretCoordinator s scopes) request seed in
  let scope := sq_scope request in
  sr_request_id response = sq_request_id request ∧
  match (if bool_decide (scope ∈ scopes) then added ∅ hist !! scope else None) with
  | Some value =>
      sr_granted response = true ∧ sr_error response = None ∧
      ∃ text ct, sr_encrypted_value response = Some text ∧ b64_decode text = Ok ct ∧
        decrypt_with_identity i ct = Ok (as_bytes value) ∧
        ∀ i', to_public i' ≠ to_public i → ∃ e, decrypt_with_identity i' ct = Err e
  | None =>
      sr_granted response = false ∧ sr_encrypted_value response = None ∧
      sr_error response = Some (cat [if bool_decide (scope ∈ scopes) then "secret not found: " else "unauthorized scope: "; scope])
  end ∧
  (scope ∉ scopes → ∀ s', response = handle_secret_request (mkSecretCoordinator s' scopes) request seed).
Proof using LW BL.
  intros Hadd Hutf Hparse Hseal response scope. destruct (holds_all hist _ _ _ (holds_new i0) Hutf Hadd) as [_ Hget].
  subst response. unfold handle_secret_request. cbn [sc_store sc_authorized_scopes]. fold scope.
  split; [repeat case_match; done|]. split.
  - case_bool_decide as Hin; [|done]. cbn [negb]. rewrite Hget. destruct (added ∅ hist !! scope) as [value|]; [|done].
    rewrite Hparse. destruct (Hseal (as_bytes value)) as [ct Hct]. rewrite Hct. simpl. split_and!; [done..|].
    exists (b64_encode ct), ct. split; [done|]. split; [apply b64_decode_encode|]. by eapply encrypted_for.
  - intros Hout s'. by rewrite (bool_decide_eq_false_2 _ Hout).
Qed.

(** *** Serialisation *)
Section serde.
Context {V : Type} `{JL : JsonLaws V}.
Context (iteration : gmap string Bytes → list (string * Bytes)) (to_vec : V → result Bytes string) (from_slice : Bytes → result V string).
Hypothesis iterates : ∀ m, iteration m ≡ₚ map_to_list m.
Hypothesis reads_back : ∀ v b, to_vec v = Ok b → from_slice b = Ok v.

Lemma value_to_entry_to_value e : value_to_entry (entry_to_value (V := V) e) = Some e.
Proof using JL.
  destruct e as [k data]. unfold value_to_entry, entry_to_value. rewrite as_array_array. simpl. rewrite as_str_string. simpl.
  rewrite as_array_array. simpl.
  assert (Hl : mapM value_to_byte ((λ b, json_number (V := V) (Z.of_N (Byte.to_N b))) <$> data) = Some data); [|by rewrite Hl].
  apply mapM_Some, Forall2_fmap_l, Forall_Forall2_diag, Forall_true. intros b. simpl.
  unfold value_to_byte. assert (Hb : (Byte.to_N b < 256)%N) by (pose proof (Byte.to_N_bounded b); lia).
  rewrite as_u64_number by lia. simpl. rewrite decide_True by lia. by rewrite N2Z.id, Byte.of_to_N.
Qed.

Lemma inserted_all (l : list (string * Bytes)) : NoDup l.*1 → ∀ m : gmap string Bytes, foldl (λ m e, <[e.1 := e.2]> m) m l = list_to_map l ∪ m.
Proof.
  induction l as [|[k v] l IH]; intros Hnd m; simpl; [by rewrite (left_id_L ∅ (∪))|].
  apply NoDup_cons in Hnd as [Hk Hnd]. rewrite IH by done. rewrite <-insert_union_l, <-insert_union_r; [done|].
  by apply not_elem_of_list_to_map_1.
Qed.

(** A store survives being written. What a store serialises to, in whatever
    order its entries are visited, is read back under the same identity as the
    same store. *)
Theorem store_round_trip s data :
  ss_recipient s = to_public (ss_identity s) → store_serialize iteration to_vec s = Ok data →
  store_deserialize from_slice data (ss_identity s) = Ok s.
Proof using JL iterates reads_back.
  intros Hr. unfold store_serialize. destruct (to_vec _) as [b|] eqn:Hb; [|done]. intros [= ->].
  unfold store_deserialize. rewrite (reads_back _ _ Hb), as_array_array. simpl.
  assert (Hm : mapM value_to_entry (entry_to_value (V := V) <$> iteration (ss_entries s)) = Some (iteration (ss_entries s))).
  { apply mapM_Some, Forall2_fmap_l, Forall_Forall2_diag, Forall_true. apply value_to_entry_to_value. }
  assert (Hnd : NoDup (iteration (ss_entries s)).*1) by (rewrite iterates; apply NoDup_fst_map_to_list).
  rewrite Hm, (inserted_all _ Hnd). destruct s as [id r m]; simpl in *. rewrite (right_id_L ∅ (∪)), Hr. do 2 f_equal.
  rewrite (list_to_map_proper _ (map_to_list m) Hnd (iterates m)). apply list_to_map_to_list.
Qed.
End serde.
End theorems.

(** ** Witness: an encryption that is labelled with its recipient *)
#[local] Existing Instances toy_base64 toy_base64_laws toy_json toy_u64 toy_containers toy_build toy_numbers toy_json_laws.
#[local] Instance labels : Age byte byte := {|
  AgeEncryptor := byte; AgeWriter := byte; AgeDecryptor := Bytes; AgeReader := Bytes; to_public i := i;
  parse_recipient t := match as_bytes t with [b] => Ok b | _ => Err "invalid Bech32 encoding" end; with_recipients := Ok;
  wrap_output e _ := Ok e; write_and_finish w p := Ok (w :: p); decryptor_new := Ok;
  decryptor_decrypt d i := match d with b :: p => if decide (b = i) then Ok p else Err "No matching keys found" | [] => Err "Header is invalid" end;
  read_to_end := Ok |}.
#[local] Instance labels_laws : AgeLaws byte byte.
Proof.
  intros i e w seed p c [= <-] [= <-] [= <-]. exists (i :: p), p. simpl. rewrite decide_True by done. split_and!; try done.
  intros i' Hi. simpl in Hi. rewrite decide_False by done. by eexists.
Qed.
Definition toy_request : SecretRequestEvent := mkSecretRequest "req" "github" 60 "deploy" "k".
Definition toy_hist : list (string * string * Bytes) := [("github", "old", []); ("aws", "key", []); ("github", "new", [])].

Lemma secret_given_to_requester_witness : ∃ s text ct, add_all (secret_store_new Byte.x00) toy_hist = Ok s ∧
  sr_encrypted_value (handle_secret_request (mkSecretCoordinator s {["github"]}) toy_request []) = Some text ∧
  b64_decode text = Ok ct ∧ decrypt_with_identity Byte.x6b ct = Ok (as_bytes "new").
Proof.
  destruct (add_all (secret_store_new Byte.x00) toy_hist) as [s|] eqn:Hs; [|discriminate].
  destruct (secret_given_to_requester Byte.x00 toy_hist s {["github"]} toy_request Byte.x6b [] Hs) as (_ & Hv & _).
  - by repeat constructor.
  - reflexivity.
  - intros p. by eexists.
  - simpl in Hv. rewrite bool_decide_eq_true_2 in Hv by (apply elem_of_singleton; reflexivity).
    rewrite lookup_insert_eq in Hv.
    destruct Hv as (_ & _ & text & ct & Ht & Hc & Hd & _). by exists s, text, ct.
Defined.
