(* ===== verification/WorkerHost.v ===== *)
(** * WorkerHost: the worker's sessions on its host
    ([mxdx-worker/tmux.rs], [bin/mxdx_exec.rs], [session_persist.rs], [compat.rs])

    A command runs in a tmux session of its own socket, inside the wrapper
    [mxdx-exec], which sends the exit code to a socket of the worker; a task of
    the worker writes it to a file, where the main loop looks for it. Beside it the
    file of the sessions that run, and tasks in their old format. *)
From S2P Require Import Prelude Text Instants Json Fabric SessionEvents WorkerSession WorkerLoop Effects FabricProcess.
From stdpp Require Import options.

(** Commands (success, standard output and error), files, the Unix socket. *)
Class WorkerFiles (W : Type) := {
  wk_run : list string → Io W string (bool * Bytes * Bytes);
  wk_current_exe : W → option string;
  wk_exists : string → W → bool;
  wk_read : string → W → result string string;
  wk_write : string → string → Io W string ();
  wk_remove : string → Io W string ();
  wk_create_dir : string → Io W string ();
  wk_set_mode : string → Z → Io W string ();
  wk_bind : string → Io W string ();
  wk_temp_dir : W → string;
  wk_home_dir : W → option string;
}.

(** [str::parse::<i32>]. *)
Definition parse_i32 (l : Bytes) : option Z :=
  n ← parse_i64 l; if decide (-2 ^ 31 ≤ n < 2 ^ 31)%Z then Some n else None.

(** [PathBuf::pop] of an absolute path without empty or dot components. *)
Definition path_pop (path : string) : string :=
  let parts := split_byte SLASH (as_bytes path) in
  from_bytes (if decide (length parts ≤ 2) then [SLASH] else tail (removelast parts ≫= λ part, SLASH :: part)).

(** ** [mxdx-exec] *)
(** How a process ended: with a code, or by a signal. *)
Inductive ExitStatus : Type := Exited (code : Z) | Signalled (signal : option Z).
Definition exit_code_of (status : result ExitStatus string) : Z :=
  match status with
  | Ok (Exited code) => code
  | Ok (Signalled signal) => (128 + default 0 signal)%Z
  | Err _ => 1%Z
  end.

(** The loop over the arguments behind [argv[0]]: the last [--notify] before the
    first [--], and what follows it. *)
Fixpoint scan_args (notify : option string) (args : list string) : result (option string * option (list string)) string :=
  match args with
  | [] => Ok (notify, None)
  | a :: args =>
      if str_eqb a "--notify" then
        match args with
        | [] => Err "--notify requires a socket path"
        | path :: args => scan_args (Some path) args
        end
      else if str_eqb a "--" then Ok (notify, Some args)
      else scan_args notify args
  end.
Definition parse_args (args : list string) : result (string * list string) string :=
  let? found := scan_args None (tail args) in
  match found.1 with
  | None => Err "--notify <socket_path> is required"
  | Some notify =>
      match found.2 with
      | None => Err "-- separator before command is required"
      | Some [] => Err "no command specified after --"
      | Some cmd_args => Ok (notify, cmd_args)
      end
  end.
(** The line that [notify_exit] sends. *)
Definition exit_line (exit_code : Z) : Bytes := as_bytes (show exit_code) ++ [Byte.x0a].
(** What is sent where, and the exit code of the wrapper. [spawn] runs a command
    to its end, when it can be started. *)
Definition exec_main (spawn : list string → result (result ExitStatus string) string) (args : list string)
    : option (string * Bytes) * Z :=
  match parse_args args with
  | Err _ => (None, 126%Z)
  | Ok (notify_path, cmd_args) =>
      let exit_code := match spawn cmd_args with Ok status => exit_code_of status | Err _ => 127%Z end in
      (Some (notify_path, exit_line exit_code), exit_code)
  end.

Section host.
Context {W : Type} `{WorkerFiles W}.
Local Notation M := (Io W string).

(** ** [TmuxSession] *)
(** [let _ = ..] of an operation. *)
Definition best_effort (m : M ()) : M () := attempt m ;; mret ().

Definition socket_dir : M string :=
  tmp ← observe wk_temp_dir;
  let dir := path_join tmp "mxdx-tmux" in
  best_effort (wk_create_dir dir) ;; mret dir.
Definition session_socket (dir name : string) : string := path_join dir (cat ["mxdx-"; name]).
Definition notify_file (dir name : string) : string := path_join dir (cat ["mxdx-"; name; ".notify"]).
Definition exit_file (dir name : string) : string := path_join dir (cat ["mxdx-"; name; ".exit"]).

Definition mxdx_exec_path (w : W) : string :=
  match wk_current_exe w with
  | Some exe =>
      let beside := path_join (path_pop exe) "mxdx-exec" in
      let above := path_join (path_pop (path_pop exe)) "mxdx-exec" in
      if wk_exists beside w then beside else if wk_exists above w then above else "mxdx-exec"
  | None => "mxdx-exec"
  end.

(** What tmux is given to start. *)
Definition exec_args (exec_path notify_path bin : string) (args : list string) : list string :=
  [exec_path; "--notify"; notify_path; "--"; bin] ++ args.
Definition new_session_args (socket name : string) (env : list (string * string)) (cwd : option string) (command : list string) : list string :=
  ["tmux"; "-S"; socket; "new-session"; "-d"; "-s"; name]
  ++ (env ≫= λ kv, ["-e"; cat [kv.1; "="; kv.2]])
  ++ match cwd with Some cwd => ["-c"; cwd] | None => [] end ++ command.

(** [env]: the variables, in the order of the map. *)
Definition create (name bin : string) (args : list string) (cwd : option string) (env : list (string * string)) : M TmuxSession :=
  dir ← socket_dir; _ ← socket_dir;
  let socket := session_socket dir name in
  let notify := notify_file dir name in
  best_effort (wk_remove notify) ;;
  wk_bind notify ;;
  exec_path ← observe mxdx_exec_path;
  found ← observe (wk_exists exec_path);
  if negb found then
    raise (cat ["mxdx-exec not found at "; exec_path; ". Build with: cargo build -p mxdx-worker --bin mxdx-exec"])
  else
    out ← wk_run (new_session_args socket name env cwd (exec_args exec_path notify bin args));
    if negb out.1.1 then
      best_effort (wk_remove notify) ;; raise (cat ["tmux new-session failed: "; from_utf8_lossy out.2])
    else
      _ ← socket_dir; mret (mkTmux name socket notify).

(** The task that [create] leaves behind. [accepted] is the connection that it
    took, with the first line that came over it, if any. *)
Definition await_exit (dir name : string) (accepted : option (option Bytes)) : M () :=
  (match accepted with
   | Some (Some line) => best_effort (wk_write (exit_file dir name) (from_bytes (trim line)))
   | _ => mret ()
   end) ;;
  best_effort (wk_remove (notify_file dir name)).

Definition create_interactive (name shell : string) : M TmuxSession :=
  dir ← socket_dir; _ ← socket_dir;
  let socket := session_socket dir name in
  out ← wk_run ["tmux"; "-S"; socket; "new-session"; "-d"; "-s"; name; shell];
  if negb out.1.1 then raise (cat ["tmux new-session failed: "; from_utf8_lossy out.2])
  else mret (mkTmux name socket (notify_file dir name)).

Definition read_exit_code (s : TmuxSession) : M (option Z) :=
  dir ← socket_dir;
  content ← observe (wk_read (exit_file dir (session_name s)));
  mret (match content with Ok t => parse_i32 (trim (as_bytes t)) | Err _ => None end).

Definition on_socket (s : TmuxSession) (args : list string) : list string := ["tmux"; "-S"; socket_path s] ++ args.
Definition tmux_send_keys (s : TmuxSession) (data : Bytes) : M () :=
  out ← wk_run (on_socket s ["send-keys"; "-t"; session_name s; "-l"; from_utf8_lossy data]);
  if negb out.1.1 then raise (cat ["tmux send-keys failed: "; from_utf8_lossy out.2]) else mret ().
Definition resize_window (s : TmuxSession) (cols rows : Z) : M () :=
  out ← wk_run (on_socket s ["resize-window"; "-t"; session_name s; "-x"; show cols; "-y"; show rows]);
  if negb out.1.1 then raise (cat ["tmux resize failed: "; from_utf8_lossy out.2]) else mret ().
Definition scrollback (s : TmuxSession) : M string :=
  out ← wk_run (on_socket s ["capture-pane"; "-t"; session_name s; "-p"]);
  if negb out.1.1 then raise "tmux capture-pane failed" else mret (from_utf8_lossy out.1.2).
Definition list_sessions (socket : string) : M (list string) :=
  out ← wk_run ["tmux"; "-S"; socket; "list-sessions"; "-F"; "#{session_name}"];
  mret (if negb out.1.1 then [] else from_bytes <$> lines (as_bytes (from_utf8_lossy out.1.2))).
Definition kill (s : TmuxSession) : M () :=
  attempt (wk_run (on_socket s ["kill-session"; "-t"; session_name s])) ;;
  best_effort (wk_remove (socket_path s)) ;;
  best_effort (wk_remove (exit_notify_path s)) ;;
  dir ← socket_dir;
  best_effort (wk_remove (exit_file dir (session_name s))).
Definition session_alive (s : TmuxSession) : M bool :=
  out ← wk_run (on_socket s ["has-session"; "-t"; session_name s]);
  mret out.1.1.

(** ** The file of the sessions. The derived serialisers are given. *)
Variable sessions_to_string : list PersistedSession → result string string.
Variable sessions_from_str : string → result (list PersistedSession) string.

Definition sessions_path (base_path : option string) (w : W) : option string :=
  match base_path with
  | Some base => Some (path_join base "sessions.json")
  | None => h ← wk_home_dir w; Some (path_join (path_join h ".mxdx") "sessions.json")
  end.
Definition need_path (base_path : option string) : M string :=
  path ← observe (sessions_path base_path);
  match path with Some p => mret p | None => raise "no home directory" end.

Definition save_sessions (sessions : list PersistedSession) (base_path : option string) : M () :=
  path ← need_path base_path;
  wk_create_dir (path_pop path) ;;
  json ← of_result (sessions_to_string sessions);
  wk_write path json ;;
  wk_set_mode path 384.
Definition load_sessions (base_path : option string) : M (list PersistedSession) :=
  path ← need_path base_path;
  there ← observe (wk_exists path);
  if negb there then mret [] else
  json ← observe (wk_read path);
  json ← of_result json;
  of_result (sessions_from_str json).
Definition clear_sessions (base_path : option string) : M () :=
  path ← need_path base_path;
  there ← observe (wk_exists path);
  if there : bool then wk_remove path else mret ().

Definition is_tmux_session_alive (name : string) : M bool :=
  out ← attempt (wk_run ["tmux"; "has-session"; "-t"; name]);
  mret (match out with Ok out => out.1.1 | Err _ => false end).
Fixpoint keep_alive (sessions : list PersistedSession) : M (list PersistedSession) :=
  match sessions with
  | [] => mret []
  | s :: sessions =>
      alive ← is_tmux_session_alive (ps_tmux s);
      rest ← keep_alive sessions;
      mret (if alive : bool then s :: rest else rest)
  end.
Definition recover_sessions (base_path : option string) : M (list PersistedSession) :=
  sessions ← load_sessions base_path;
  alive ← keep_alive sessions;
  save_sessions alive base_path ;;
  mret alive.
End host.

(** ** Tasks in their old format *)
Section compat.
Context {V : Type} `{JsonValue V}.
Definition extract_bin_args (payload : V) : string * list string :=
  match get_str payload "cmd" with
  | Some cmd =>
      let parts := from_bytes <$> words (S (length (as_bytes cmd))) (as_bytes cmd) in
      (default "" (head parts), tail parts)
  | None => ("", [])
  end.
Definition translate_legacy_task (t : TaskEvent V) : SessionTask :=
  let '(bin, args) := extract_bin_args (payload t) in
  mkSessionTask (uuid t) (sender_id t) bin args None None (p2p_stream t) false
    (Some (timeout_seconds t)) (heartbeat_interval_seconds t) (plan t) (required_capabilities t)
    (Some (routing_mode t)) (Some (on_timeout t)) (Some (on_heartbeat_miss t)).
End compat.

(** ** Properties *)

(** Whatever the command and its arguments are, the wrapper runs them. *)
Lemma parse_exec_args exec_path notify bin args :
  parse_args (exec_args exec_path notify bin args) = Ok (notify, bin :: args).
Proof. reflexivity. Qed.

Lemma parse_i32_show c : (- 2 ^ 31 ≤ c < 2 ^ 31)%Z → parse_i32 (as_bytes (show c)) = Some c.
Proof. intros Hc. unfold parse_i32. rewrite parse_i64_show by lia. simpl. by rewrite decide_True. Qed.
Lemma show_graphic c b : b ∈ as_bytes (show c) → is_graphic b = true ∧ b ≠ Byte.x0a ∧ b ≠ Byte.x0d.
Proof.
  intros [Hd| ->]%show_printable; [|by split_and!].
  split_and!; [|by intros ->..]. unfold is_ascii_digit in Hd. unfold is_graphic, byte_range in *.
  apply andb_true_iff in Hd as [H1%N.leb_le H2%N.leb_le]. apply andb_true_iff. split; apply N.leb_le; lia.
Qed.
Lemma lines_one l : Byte.x0a ∉ l → Byte.x0d ∉ l → l ≠ [] → lines (l ++ [Byte.x0a]) = [l].
Proof.
  intros Hn Hr Hne. assert (Hf : ∀ cur, Byte.x0a ∉ l → lines_from cur (l ++ [Byte.x0a]) = [strip_cr (cur ++ l)]).
  { clear. induction l as [|b l IH]; intros cur Hn; simpl; [by rewrite app_nil_r|].
    apply not_elem_of_cons in Hn as [Hb Hn]. rewrite IH, <-app_assoc by done. by destruct b. }
  unfold lines. rewrite Hf by done. f_equal. simpl. unfold strip_cr.
  destruct (reverse l) as [|b r] eqn:Er; [by destruct l|]. assert (Hb : b ∈ l) by (apply elem_of_reverse; rewrite Er; apply list_elem_of_here).
  by destruct b.
Qed.
Lemma exit_line_first c : head (lines (exit_line c)) = Some (as_bytes (show c)).
Proof.
  unfold exit_line. rewrite lines_one; [done|by intros (_ & ? & _)%show_graphic|by intros (_ & _ & ?)%show_graphic|].
  destruct c as [|p|p]; [done|apply (pretty_N_digits (N.pos p))|].
  change (show (Z.neg p)) with (String.append "-" (pretty (N.pos p))). by rewrite as_bytes_append.
Qed.

Section theorems.
Context {W : Type} `{WF : WorkerFiles W}.

(** Files that are written are there; directories are made, and files are
    removed, one at a time. [tmp] is the directory for temporary files. *)
Record PlainFiles (tmp : string) (ok : W → Prop) : Prop := {
  pf_tmp w : ok w → wk_temp_dir w = tmp;
  pf_create_dir p w : ok w → (wk_create_dir p w).1 ≠ Panics ∧ ok (wk_create_dir p w).2 ∧ ∀ q, wk_read q (wk_create_dir p w).2 = wk_read q w;
  pf_remove p w : ok w → (wk_remove p w).1 ≠ Panics ∧ ok (wk_remove p w).2 ∧ ∀ q, q ≠ p → wk_read q (wk_remove p w).2 = wk_read q w;
  pf_write p t w : ok w → ∃ w', wk_write p t w = (Returns (), w') ∧ ok w' ∧ wk_read p w' = Ok t }.
Context (tmp : string) (ok : W → Prop).
Hypothesis plain : PlainFiles tmp ok.
Let dir := path_join tmp "mxdx-tmux".

Lemma best_effort_run (m : Io W string ()) w : (m w).1 ≠ Panics → best_effort m w = (Returns (), (m w).2).
Proof. unfold best_effort, attempt, mbind, Io_bind. by destruct (m w) as [[x|e|] w']. Qed.
Lemma socket_dir_run w : ok w → ∃ w', socket_dir w = (Returns dir, w') ∧ ok w' ∧ ∀ q, wk_read q w' = wk_read q w.
Proof using plain.
  intros Hw. unfold socket_dir. rewrite io_bind_observe, (pf_tmp _ _ plain w Hw).
  destruct (pf_create_dir _ _ plain dir w Hw) as (Hp & Hok & Hr). eexists. split; [|by split].
  by rewrite (io_bind_step _ _ w () _ (best_effort_run _ _ Hp)).
Qed.
Lemma exit_not_notify name : exit_file dir name ≠ notify_file dir name.
Proof.
  intros Hn%(inj (path_join _))%(f_equal as_bytes). rewrite !cat_cons in Hn. by do 2 apply (inj (app _)) in Hn.
Qed.

(** C8: the exit code of a command reaches the worker. Whatever the command and
    its arguments are, the wrapper that tmux is told to start runs exactly them
    and sends one line to the socket of the session; when the task behind the
    socket has taken that line, the worker reads the code with which the command
    ended, 128 and the signal when a signal ended it, or 127 when it could not be
    started, and goes on reading it. *)
Theorem exit_code_delivered spawn exec_path name bin args socket (w : W) :
  let notify := notify_file dir name in
  let s := mkTmux name socket notify in
  let code := match spawn (bin :: args) with Ok status => exit_code_of status | Err _ => 127%Z end in
  exec_main spawn (exec_args exec_path notify bin args) = (Some (notify, exit_line code), code) ∧
  (ok w → (- 2 ^ 31 ≤ code < 2 ^ 31)%Z →
   ∃ w1, await_exit dir name (Some (head (lines (exit_line code)))) w = (Returns (), w1) ∧ ok w1 ∧
     ∃ w2, read_exit_code s w1 = (Returns (Some code), w2)).
Proof using plain.
  intros notify s code. split; [unfold exec_main; by rewrite parse_exec_args|]. intros Hw Hc.
  unfold await_exit. rewrite exit_line_first, trim_graphic by by intros b [? _]%show_graphic. rewrite from_bytes_as_bytes.
  destruct (pf_write _ _ plain (exit_file dir name) (show code) w Hw) as (w1 & Hwr & Hok1 & Hr1).
  destruct (pf_remove _ _ plain notify w1 Hok1) as (Hp & Hok2 & Hr2).
  exists (wk_remove notify w1).2. split.
  { assert (Hb : best_effort (wk_write (exit_file dir name) (show code)) w = (Returns (), w1)).
    { rewrite best_effort_run; by rewrite Hwr. }
    rewrite (io_bind_step _ _ w () w1 Hb). by apply best_effort_run. }
  split; [done|]. destruct (socket_dir_run _ Hok2) as (w2 & Hd & _ & Hrd). exists w2.
  unfold read_exit_code. rewrite (io_bind_step _ _ _ _ _ Hd), io_bind_observe. cbn [session_name s].
  rewrite Hrd, Hr2, Hr1 by apply exit_not_notify.
  by rewrite trim_graphic, parse_i32_show by first [done | by intros b [? _]%show_graphic].
Qed.

(** A session that is created finds the exit code of the session that had its
    name before, as long as nothing removed it: the worker takes the new command
    for ended. *)
Theorem stale_exit_code name bin args cwd env s (w w1 : W) code :
  ok w → wk_read (exit_file dir name) w = Ok (show code) → (- 2 ^ 31 ≤ code < 2 ^ 31)%Z →
  (∀ cmd w, ok w → ok (wk_run cmd w).2 ∧ wk_read (exit_file dir name) (wk_run cmd w).2 = wk_read (exit_file dir name) w) →
  (∀ p w, ok w → ok (wk_bind p w).2 ∧ wk_read (exit_file dir name) (wk_bind p w).2 = wk_read (exit_file dir name) w) →
  create name bin args cwd env w = (Returns s, w1) → ∃ w2, read_exit_code s w1 = (Returns (Some code), w2).
Proof using plain.
  intros Hw Hread Hcode Hrun Hbind Hcreate. unfold create in Hcreate.
  assert (Hinv : ∀ w, ok w ∧ wk_read (exit_file dir name) w = Ok (show code) →
    ∃ w2, read_exit_code (mkTmux name (session_socket dir name) (notify_file dir name)) w = (Returns (Some code), w2)).
  { intros v [Hv Hrv]. destruct (socket_dir_run v Hv) as (v2 & Hd & _ & Hr). exists v2. unfold read_exit_code.
    rewrite (io_bind_step _ _ _ _ _ Hd), io_bind_observe. cbn [session_name]. rewrite Hr, Hrv.
    by rewrite trim_graphic, parse_i32_show by first [done | by intros b [? _]%show_graphic]. }
  destruct (socket_dir_run w Hw) as (v1 & Hd1 & Hv1 & Hr1). rewrite (io_bind_step _ _ _ _ _ Hd1) in Hcreate.
  destruct (socket_dir_run v1 Hv1) as (v2 & Hd2 & Hv2 & Hr2). rewrite (io_bind_step _ _ _ _ _ Hd2) in Hcreate.
  destruct (pf_remove _ _ plain (notify_file dir name) v2 Hv2) as (Hp & Hv3 & Hr3).
  rewrite (io_bind_step _ _ _ _ _ (best_effort_run _ _ Hp)) in Hcreate.
  apply io_bind_inv in Hcreate as [(u & v4 & Hb & Hcreate)|[(e & ? & _)|[? _]]]; [|done..].
  destruct (Hbind (notify_file dir name) _ Hv3) as [Hv4 Hr4]. rewrite Hb in Hv4, Hr4. simpl in Hv4, Hr4.
  rewrite !io_bind_observe in Hcreate. destruct (wk_exists _ v4); [|done]. cbn [negb] in Hcreate.
  apply io_bind_inv in Hcreate as [(out & v5 & Ho & Hcreate)|[(e & ? & _)|[? _]]]; [|done..].
  match type of Ho with wk_run ?cmd _ = _ => destruct (Hrun cmd _ Hv4) as [Hv5 Hr5]; rewrite Ho in Hv5, Hr5; simpl in Hv5, Hr5 end.
  destruct (out.1.1); cbn [negb] in Hcreate.
  - destruct (socket_dir_run v5 Hv5) as (v6 & Hd6 & Hv6 & Hr6). rewrite (io_bind_step _ _ _ _ _ Hd6) in Hcreate.
    injection Hcreate as <- <-. apply Hinv. split; [done|]. by rewrite Hr6, Hr5, Hr4, (Hr3 _ (exit_not_notify name)), Hr2, Hr1.
  - apply io_bind_inv in Hcreate as [(x & v6 & _ & ?)|[(e & ? & _)|[? _]]]; done.
Qed.
End theorems.

(** *** The file of the sessions *)
Section sessions_file.
Context {W : Type} `{WF : WorkerFiles W}.
Context (sessions_to_string : list PersistedSession → result string string) (sessions_from_str : string → result (list PersistedSession) string).
Hypothesis reads_back : ∀ l t, sessions_to_string l = Ok t → sessions_from_str t = Ok l.
Context (base : option string) (path : string) (ok : W → Prop) (alive : string → bool).
(** The file is kept; tmux answers for a session of its default socket. *)
Record SessionsHost : Prop := {
  sh_path w : ok w → sessions_path base w = Some path;
  sh_create_dir p w : ok w → ∃ w', wk_create_dir p w = (Returns (), w') ∧ ok w';
  sh_write t w : ok w → ∃ w', wk_write path t w = (Returns (), w') ∧ ok w' ∧ wk_exists path w' = true ∧ wk_read path w' = Ok t;
  sh_mode m w : ok w → ∃ w', wk_set_mode path m w = (Returns (), w') ∧ ok w' ∧ wk_exists path w' = wk_exists path w ∧ wk_read path w' = wk_read path w;
  sh_tmux name w : ok w → ∃ out err w', wk_run ["tmux"; "has-session"; "-t"; name] w = (Returns (alive name, out, err), w') ∧ ok w' }.
Hypothesis host : SessionsHost.

Lemma need_path_run w : ok w → need_path base w = (Returns path, w).
Proof using host. intros Hw. unfold need_path. by rewrite io_bind_observe, (sh_path host w Hw). Qed.

Lemma save_sessions_run l t w : ok w → sessions_to_string l = Ok t →
  ∃ w', save_sessions sessions_to_string l base w = (Returns (), w') ∧ ok w' ∧ wk_exists path w' = true ∧ wk_read path w' = Ok t.
Proof using host.
  intros Hw Ht. unfold save_sessions. rewrite (io_bind_step _ _ _ _ _ (need_path_run w Hw)).
  destruct (sh_create_dir host (path_pop path) w Hw) as (w1 & Hc & Hw1). rewrite (io_bind_step _ _ _ _ _ Hc), Ht.
  destruct (sh_write host t w1 Hw1) as (w2 & Hwr & Hw2 & He & Hr). destruct (sh_mode host 384 w2 Hw2) as (w3 & Hm & Hw3 & He3 & Hr3).
  exists w3. split; [|by rewrite He3, Hr3]. cbn [of_result]. rewrite (io_bind_mret t), (io_bind_step _ _ _ _ _ Hwr). exact Hm.
Qed.
Lemma load_sessions_run l t w : ok w → wk_exists path w = true → wk_read path w = Ok t → sessions_from_str t = Ok l →
  load_sessions sessions_from_str base w = (Returns l, w).
Proof using host.
  intros Hw He Hr Hl. unfold load_sessions. rewrite (io_bind_step _ _ _ _ _ (need_path_run w Hw)), io_bind_observe, He. cbn [negb].
  rewrite io_bind_observe, Hr. cbn [of_result]. by rewrite (io_bind_mret t), Hl.
Qed.
Lemma keep_alive_run l : ∀ w, ok w → ∃ w', keep_alive l w = (Returns (filter (λ s, alive (ps_tmux s) = true) l), w') ∧ ok w'.
Proof using host.
  induction l as [|s l IH]; intros w Hw; [by exists w|]. cbn [keep_alive].
  destruct (sh_tmux host (ps_tmux s) w Hw) as (out & err & w1 & Hr & Hw1). destruct (IH w1 Hw1) as (w2 & Hk & Hw2). exists w2.
  assert (Ha : is_tmux_session_alive (ps_tmux s) w = (Returns (alive (ps_tmux s)), w1)).
  { unfold is_tmux_session_alive, attempt, mbind, Io_bind. by rewrite Hr. }
  rewrite (io_bind_step _ _ _ _ _ Ha), (io_bind_step _ _ _ _ _ Hk). split; [|done].
  by destruct (alive (ps_tmux s)) eqn:E; [rewrite filter_cons_True|rewrite filter_cons_False by congruence].
Qed.

(** What is saved is loaded; recovery keeps, in the file too, what tmux has
    under the name. It asks the default socket of tmux, on which no session of
    [create] is: nothing is kept then. *)
Theorem sessions_recovered l t w :
  ok w → sessions_to_string l = Ok t → (∀ k, ∃ t, sessions_to_string k = Ok t) →
  ∃ w1, save_sessions sessions_to_string l base w = (Returns (), w1) ∧ load_sessions sessions_from_str base w1 = (Returns l, w1) ∧
  ∃ w2, recover_sessions sessions_to_string sessions_from_str base w1 = (Returns (filter (λ s, alive (ps_tmux s) = true) l), w2) ∧
    load_sessions sessions_from_str base w2 = (Returns (filter (λ s, alive (ps_tmux s) = true) l), w2).
Proof using host reads_back.
  intros Hw Ht Hall. destruct (save_sessions_run l t w Hw Ht) as (w1 & Hs & Hw1 & He & Hr). exists w1. split; [done|].
  assert (Hl : load_sessions sessions_from_str base w1 = (Returns l, w1)) by (apply (load_sessions_run l t); auto).
  split; [done|]. destruct (keep_alive_run l w1 Hw1) as (w2 & Hk & Hw2). set (k := filter _ l) in *. destruct (Hall k) as [tk Htk].
  destruct (save_sessions_run k tk w2 Hw2 Htk) as (w3 & Hs3 & Hw3 & He3 & Hr3). exists w3. split.
  - unfold recover_sessions. rewrite (io_bind_step _ _ _ _ _ Hl), (io_bind_step _ _ _ _ _ Hk), (io_bind_step _ _ _ _ _ Hs3). done.
  - apply (load_sessions_run k tk); auto.
Qed.
End sessions_file.

(** ** Witness: files in a map *)
#[local] Instance map_host : WorkerFiles (gmap string string) := {|
  wk_run _ := mret (true, [], []); wk_current_exe _ := Some "/b/mxdx-worker"; wk_exists p w := true;
  wk_read p w := match w !! p with Some t => Ok t | None => Err "not found" end;
  wk_write p t := λ w, (Returns (), <[p := t]> w); wk_remove p := λ w, (Returns (), delete p w);
  wk_create_dir _ := mret (); wk_set_mode _ _ := mret (); wk_bind _ := mret (); wk_temp_dir _ := "/tmp"; wk_home_dir _ := Some "/h" |}.
Lemma map_host_plain : PlainFiles "/tmp" (λ _ : gmap string string, True).
Proof.
  split; intros; simpl.
  - done.
  - by split_and!.
  - split_and!; [done..|]. intros q Hq. by rewrite lookup_delete_ne.
  - eexists. split_and!; [done..|]. by rewrite lookup_insert_eq.
Qed.

Lemma exit_code_delivered_witness :
  let spawn (_ : list string) := Ok (Ok (Signalled (Some 9%Z))) in
  exec_main spawn (exec_args "/b/mxdx-exec" (notify_file "/tmp/mxdx-tmux" "s") "sleep" ["--"; "--notify"])
    = (Some (notify_file "/tmp/mxdx-tmux" "s", exit_line 137), 137%Z) ∧
  ∃ w1 : gmap string string, await_exit "/tmp/mxdx-tmux" "s" (Some (head (lines (exit_line 137)))) ∅ = (Returns (), w1) ∧
    ∃ w2, read_exit_code (mkTmux "s" "" (notify_file "/tmp/mxdx-tmux" "s")) w1 = (Returns (Some 137%Z), w2).
Proof.
  intros spawn. destruct (exit_code_delivered "/tmp" (λ _ : gmap string string, True) map_host_plain spawn "/b/mxdx-exec" "s" "sleep"
    ["--"; "--notify"] "" ∅) as [Hx Hr].
  split; [exact Hx|]. destruct Hr as (w1 & Ha & _ & w2 & Hread); [done|done|]. exists w1. split; [exact Ha|]. exists w2. exact Hread.
Defined.
