(* ===== verification/FabricCli.v ===== *)
(** * FabricCli: the command line of the fabric ([mxdx-fabric-cli/main.rs])

    Posting a task and waiting for its result, following a task, its logs, the
    tasks of the past and the capabilities of the workers, over HTTP alone. The
    commands that run the coordinator and a worker are those of [FabricMain],
    loops around [Fabric] and [FabricProcess]. Dates are formatted and parsed
    by the [chrono] crate, whose functions are arguments. *)
From S2P Require Import Prelude Text Instants Json Fabric Coordinator P2PCrypto MatrixTypes Effects Rest MatrixClient MatrixDelivery SessionJson Liveness ClientCli ClientDirect FabricProcess Toys.
From stdpp Require Import options.

(** ** Configuration *)
Record FabricConfig := mkFabricConfig { fg_homeserver : option string; fg_token : option string; fg_coordinator_room : option string }.
(** The options before the command. *)
Abbreviation FabricOptions := FabricConfig (only parsing).

Definition or_option {A} (a b : option A) : option A := match a with Some _ => a | None => b end.
Definition no_config : FabricConfig := mkFabricConfig None None None.
(** [file]: what [config.toml] holds; [parse]: TOML. *)
Definition load_fabric_config (parse : string → result FabricConfig string) (file : result string string) : FabricConfig :=
  match file with
  | Ok contents => match parse contents with Ok c => c | Err _ => no_config end
  | Err _ => no_config
  end.
Definition resolve_option (cli_val config_val : option string) (name : string) : result string string :=
  match or_option cli_val config_val with
  | Some v => Ok v
  | None => Err (cat ["--"; name; " is required (or set in config.toml)"])
  end.
(** The room of a command that may name one. *)
Definition command_room (room : option string) (cli config : FabricConfig) : result string string :=
  match resolve_option room (fg_coordinator_room cli) "room" with
  | Ok r => Ok r
  | Err _ => resolve_option None (fg_coordinator_room config) "room"
  end.
(** [csv.split(',').map(trim)]. *)
Definition csv_names (csv : string) : list string := (λ s, from_bytes (trim s)) <$> split_byte Byte.x2c (as_bytes csv).

(** ** History: lines, filters *)
Record HistoryTask := mkHistory {
  ht_timestamp_ms : Z; ht_uuid : string; ht_capabilities : list string; ht_prompt : string; ht_status : string;
  ht_duration : option Z }.

Definition DQ : string := from_bytes [Byte.x22].
(** [format_ms]: [DateTime::from_timestamp_millis] and its format; [None] where a
    slice is inside a character. *)
Definition format_history_line (format_ms : Z → option string) (t : HistoryTask) : option string :=
  short_uuid ← (if decide (7 ≤ length (as_bytes (ht_uuid t))) then slice_to 7 (as_bytes (ht_uuid t)) else Some (as_bytes (ht_uuid t)));
  let caps := match ht_capabilities t with [] => "-" | l => String.concat "," l end in
  prompt_display ← (if decide (60 < length (as_bytes (ht_prompt t)))
                    then front ← slice_to 57 (as_bytes (ht_prompt t)); Some (cat [DQ; from_bytes front; "..."; DQ])
                    else Some (cat [DQ; ht_prompt t; DQ]));
  Some (cat [default "unknown" (format_ms (ht_timestamp_ms t)); "  "; ht_status t; "  "; from_bytes short_uuid; "  "; caps; "  ";
             prompt_display; match ht_duration t with Some d => cat ["  ("; show d; "s)"] | None => "" end]).

(** The largest number of milliseconds that a [chrono::Duration] holds. *)
Definition MAX_DELTA_MS : Z := 2 ^ 63 - 1.
(** Milliseconds; [None] is a panic: a cut inside a character, or a number of
    hours, days or weeks that a duration does not hold. *)
Definition delta (num unit_ms : Z) : option (result Z string) :=
  if decide (Z.abs (num * unit_ms) ≤ MAX_DELTA_MS)%Z then Some (Ok (num * unit_ms)%Z) else None.
Definition HOUR_MS : Z := 3600000.
Definition DAY_MS : Z := 86400000.
Definition parse_since_period (period : string) : option (result Z string) :=
  let period := trim (as_bytes period) in
  if decide (length period < 2)
  then Some (Err (cat ["Invalid --since value: "; from_bytes period; ". Use format like 1h, 1d, 1w, 1m"])) else
  num_str ← slice_to (length period - 1) period;
  let unit := from_bytes (drop (length period - 1) period) in
  match parse_i64 num_str with
  | None => Some (Err (cat ["Invalid number in --since: "; from_bytes num_str]))
  | Some num =>
      if str_eqb unit "h" then delta num HOUR_MS
      else if str_eqb unit "d" then delta num DAY_MS
      else if str_eqb unit "w" then delta num (7 * DAY_MS)
      else if str_eqb unit "m" then
        (* [num * 30] on an [i64] *)
        if decide (- 2 ^ 63 ≤ num * 30 < 2 ^ 63)%Z then delta (num * 30) DAY_MS else None
      else Some (Err (cat ["Invalid --since unit: "; unit; ". Use h, d, w, or m"]))
  end.

(** [parse_date]: [NaiveDate::parse_from_str], in days since the epoch. [now_ms]
    is [Utc::now()]; dates that [chrono] does not hold panic in the difference. *)
Definition day_start (days : Z) : Z := days * DAY_MS.
Definition day_end (days : Z) : Z := days * DAY_MS + 86399000 + 999.
Definition MIN_DATE_MS : Z := -8334601228800000.
Definition MAX_DATE_MS : Z := 8210266876799999.
Definition date_option (parse_date : string → option Z) (name : string) (value : option string) : result (option Z) string :=
  match value with
  | None => Ok None
  | Some text =>
      match parse_date text with
      | Some d => Ok (Some d)
      | None => Err (cat ["Invalid --"; name; ": "; text; ". Use YYYY-MM-DD"])
      end
  end.
Definition compute_time_window (parse_date : string → option Z) (now_ms : Z) (date since from_date to_date : option string)
    : option (result (option Z * option Z) string) :=
  match date, since with
  | Some _, _ => Some (let? d := date_option parse_date "date" date in Ok (day_start <$> d, day_end <$> d))
  | None, Some period =>
      duration ← parse_since_period period;
      match duration with
      | Err e => Some (Err e)
      | Ok d => if decide (MIN_DATE_MS ≤ now_ms - d ≤ MAX_DATE_MS)%Z then Some (Ok (Some (now_ms - d)%Z, None)) else None
      end
  | None, None =>
      Some (let? start := date_option parse_date "from-date" from_date in
            let? end_ := date_option parse_date "to-date" to_date in
            Ok (day_start <$> start, day_end <$> end_))
  end.

Definition status_matches_filter (task_status filter : string) : bool :=
  if str_eqb filter "any" then true
  else if str_eqb filter "done" then existsb (str_eqb task_status) ["success"; "failed"; "timeout"; "cancelled"]
  else str_eqb task_status filter.

(** [sort_by], which is stable: later things first. *)
Fixpoint insert_newest (t : HistoryTask) (l : list HistoryTask) : list HistoryTask :=
  match l with
  | [] => [t]
  | x :: l' => if decide (ht_timestamp_ms x ≤ ht_timestamp_ms t)%Z then t :: l else x :: insert_newest t l'
  end.
Definition newest_first (l : list HistoryTask) : list HistoryTask := foldr insert_newest [] l.

Section cli.
Context {W V : Type} `{JsonValue V} `{JsonU64 V} `{JsonI64 V} `{JsonBuild V} `{JsonContainers V} `{JsonNumbers V}
  `{HttpServer W V} `{RestExternals}.

(** ** Events *)
Definition event_kind (event : V) : string := default "" (get_str event "type").
(** [event.get("content").and_then(get(key)).and_then(as_str)]. *)
Definition content_str (event : V) (key : string) : option string := c ← get event "content"; get_str c key.
(** The first event that is a result of the task. *)
Definition find_result_events (events : list V) (task_uuid : string) : option V :=
  head (omap (λ event,
    if str_eqb (event_kind event) EVENT_RESULT then
      content ← get event "content";
      if bool_decide (get_str content "task_uuid" = Some task_uuid) then Some content else None
    else None) events).
Definition find_heartbeat_events (events : list V) (task_uuid : string) : list V :=
  filter (λ event, event_kind event = EVENT_HEARTBEAT ∧ content_str event "task_uuid" = Some task_uuid) events.
Definition find_task_status (events : list V) (task_uuid : string) : option string :=
  match find_result_events events task_uuid with
  | Some result => get_str result "status"
  | None =>
      head (omap (λ event,
        if str_eqb (event_kind event) EVENT_CLAIM && bool_decide (content_str event "task_uuid" = Some task_uuid) then Some "claimed"
        else if str_eqb (event_kind event) "org.mxdx.fabric.task" && bool_decide (content_str event "uuid" = Some task_uuid) then Some "posted"
        else None) events)
  end.
Definition extract_prompt (content : V) : string :=
  let from_payload := default "(no prompt)" (p ← get content "payload"; get_str p "prompt") in
  match get_str content "plan" with
  | Some plan => if str_eqb plan "" then from_payload else plan
  | None => from_payload
  end.

(** ** The payload of a task: what the flags say wins *)
Definition merge_payload (base : V) (extra_json : option string) : result V string :=
  match extra_json with
  | None => Ok base
  | Some s =>
      match from_str s with
      | Err _ => Err "--payload-json is not valid JSON"
      | Ok parsed =>
          match as_object parsed with
          | None => Err "--payload-json must be a JSON object"
          | Some extra =>
              let merged := match as_object base with
                            | Some fields => fields
                            | None => if is_null base then [] else [("_base", base)]
                            end in
              Ok (json_object (merged ++ filter (λ kv, kv.1 ∉ merged.*1) extra))
          end
      end
  end.

(** ** Requests *)
Local Notation R := (Io W string).
(** [send().await.context(..)], and a failure with the body of the response. *)
Definition room_request (r : Request V) (context failed : string) : R Response :=
  resp ← io_map_err (λ _, context) (http r);
  if is_success resp then mret resp else raise (cat [failed; text resp]).

Definition matrix_get_room_state (hs token room_id : string) : R (list V) :=
  resp ← room_request (mkRequest GET (cat [hs; "/_matrix/client/v3/rooms/"; url_encode room_id; "/state"]) token None)
           "failed to GET room state" "Matrix GET room state failed: ";
  match from_str (text resp) with
  | Ok v => match as_array v with Some events => mret events | None => raise "failed to parse room state" end
  | Err _ => raise "failed to parse room state"
  end.
Definition matrix_send_event (hs token room_id event_type txn_id : string) (content : V) : R string :=
  resp ← room_request (mkRequest PUT (cat [hs; "/_matrix/client/v3/rooms/"; url_encode room_id; "/send/"; url_encode event_type; "/"; url_encode txn_id])
             token (Some content)) "failed to send Matrix event" "Matrix PUT failed: ";
  match from_str (text resp) with
  | Ok body => mret (default "" (get_str body "event_id"))
  | Err _ => raise "failed to parse send response"
  end.
Definition messages_url (hs room_id : string) (limit : Z) (from : option string) : string :=
  cat [hs; "/_matrix/client/v3/rooms/"; url_encode room_id; "/messages?dir=b&limit="; show limit;
       match from with Some t => cat ["&from="; url_encode t] | None => "" end].
Definition matrix_get_messages (hs token room_id : string) (limit : Z) (from : option string) : R (list V * option string) :=
  resp ← room_request (mkRequest GET (messages_url hs room_id limit from) token None) "failed to GET messages" "Matrix GET messages failed: ";
  body ← json_body resp;
  mret (default [] (get body "chunk" ≫= as_array), get_str body "end").
Definition matrix_sync (hs token : string) (since : option string) (timeout_ms : Z) : R (V * option string) :=
  resp ← room_request (mkRequest GET (cat [hs; "/_matrix/client/v3/sync?timeout="; show timeout_ms;
             match since with Some t => cat ["&since="; url_encode t] | None => "" end]) token None) "failed to sync" "Matrix sync failed: ";
  body ← json_body resp;
  mret (body, get_str body "next_batch").

(** The pages of a timeline, newest first, until there are 500 events or no
    more; each page that is not the last has an event, so that 500 rounds are
    enough. *)
Definition MAX_EVENTS : nat := Z.to_nat 500.
Fixpoint read_pages (fuel : nat) (hs token room_id : string) (from : option string) (seen : list V) : R (option (list V)) :=
  match fuel with
  | 0 => mret None
  | S fuel =>
      page ← matrix_get_messages hs token room_id 100 from;
      if bool_decide (page.1 = []) then mret (Some seen) else
      let seen := seen ++ page.1 in
      if decide (MAX_EVENTS ≤ length seen) then mret (Some seen) else
      match page.2 with
      | Some t => read_pages fuel hs token room_id (Some t) seen
      | None => mret (Some seen)
      end
  end.
Definition read_timeline (hs token room_id : string) : R (option (list V)) := read_pages MAX_EVENTS hs token room_id None [].

(** ** History *)
Definition event_ts `{JsonI64 V} (event : V) : Z := default 0%Z (get event "origin_server_ts" ≫= as_i64).
(** The first result of each task: [entry().or_insert_with]. *)
Definition results_of (events : list V) : gmap string V :=
  foldl (λ m event,
    if str_eqb (event_kind event) EVENT_RESULT then
      match content_str event "task_uuid" with
      | Some u => match m !! u with Some _ => m | None => <[u := event]> m end
      | None => m
      end
    else m) ∅ events.
Definition in_window (window : option Z * option Z) (ts : Z) : bool :=
  match window.1 with Some start => bool_decide (start ≤ ts)%Z | None => true end
  && match window.2 with Some end_ => bool_decide (ts ≤ end_)%Z | None => true end.
(** [u64] of the seconds between a task and its result. *)
Definition result_duration (result : V) (content : V) (task_ts : Z) : option Z :=
  or_option (get content "duration_seconds" ≫= Json.as_u64)
    (let result_ts := event_ts result in
     if decide (task_ts < result_ts)%Z then Some (Z.quot (result_ts - task_ts) 1000) else None).
Definition history_entry (results : gmap string V) (window : option Z * option Z) (status_filter : string) (event : V) : option HistoryTask :=
  content ← get event "content";
  let uuid := default "" (get_str content "uuid") in
  let ts := event_ts event in
  if str_eqb uuid "" || negb (in_window window ts) then None else
  let capabilities := omap as_str (default [] (get content "required_capabilities" ≫= as_array)) in
  let '(status, duration) :=
    match results !! uuid with
    | Some result =>
        let result_content := default content (get result "content") in
        (default "unknown" (get_str result_content "status"), result_duration result result_content ts)
    | None => ("pending", None)
    end in
  if status_matches_filter status status_filter then Some (mkHistory ts uuid capabilities (extract_prompt content) status duration) else None.
Definition history_of (events : list V) (limit : nat) (window : option Z * option Z) (status_filter : string) : list HistoryTask :=
  take limit (newest_first (omap (history_entry (results_of events) window status_filter)
    (filter (λ event, event_kind event = "org.mxdx.fabric.task") events))).

(** ** Commands *)
Class FabricHost (W' : Type) := {
  fc_uuid : Io W' string string;
  fc_instant : W' → Instant;
  fc_now_ms : W' → Z;
}.
Context `{FabricHost W}.
(** [chrono]; [serde_json] for people and for programs; the derived
    [Deserialize] of an advertisement; how many characters a text has. *)
Variables (format_ms : Z → option string) (parse_date : string → option Z) (pretty_json line_json : V → string).
Variable advertisement_of : V → option CapabilityAdvertisement.
Variable char_count : string → nat.
Local Notation M := (Io (Terminal W) CliEnd).

Definition format_post_output (task_uuid event_id : string) : string := cat ["task_uuid: "; task_uuid; NL; "event_id: "; event_id].
Definition posted_task (task_uuid prompt capabilities : string) (timeout : Z) (p2p_stream : bool) (payload : V) : TaskEvent V :=
  mkTask task_uuid "fabric-cli" (csv_names capabilities) None timeout 60 Escalate Escalate Auto p2p_stream payload (Some prompt).

(** The loop until the deadline; [None] after [fuel] rounds. *)
Fixpoint await_result (fuel : nat) (hs token room task_uuid : string) (since : option string) (timeout : Z) (deadline : Instant) : M (option V) :=
  match fuel with
  | 0 => mret None
  | S fuel =>
      now ← observe (λ t, fc_instant (tm_world t));
      if decide (now < deadline)%Z then
        synced ← try_world (matrix_sync hs token since 5000);
        page ← try_world (matrix_get_messages hs token room 50 None);
        match find_result_events page.1 task_uuid with
        | Some result => mret (Some result)
        | None => await_result fuel hs token room task_uuid synced.2 timeout deadline
        end
      else
        eprintln (cat ["Timed out waiting for result after "; show timeout; "s"]) ;; exit 1
  end.
Definition cmd_post (fuel : nat) (hs token room capabilities prompt : string) (timeout : Z) (p2p_stream : bool)
    (task_uuid_override payload_json : option string) : M () :=
  task_uuid ← match task_uuid_override with Some u => mret u | None => try_world fc_uuid end;
  payload ← match merge_payload (json_object [("prompt", json_string prompt)]) payload_json with
            | Ok p => mret p
            | Err e => raise (CliFails e)
            end;
  eprintln (cat ["Posting task "; task_uuid; " to "; room]) ;;
  txn_id ← try_world fc_uuid;
  event_id ← try_world (matrix_send_event hs token room "org.mxdx.fabric.task" txn_id
               (fabric_task_value (posted_task task_uuid prompt capabilities timeout p2p_stream payload)));
  println (format_post_output task_uuid event_id) ;;
  eprintln (cat ["Task posted, waiting for result (timeout: "; show timeout; "s)..."]) ;;
  synced ← try_world (matrix_sync hs token None 1000);
  start ← observe (λ t, fc_instant (tm_world t));
  result ← await_result fuel hs token room task_uuid synced.2 timeout (start + from_secs timeout)%Z;
  match result with
  | None => mret ()
  | Some result =>
      println (pretty_json result) ;;
      exit (if bool_decide (get_str result "status" = Some "success") then 0 else 1)
  end.

Definition cmd_status (hs token room task_uuid : string) : M () :=
  page ← try_world (matrix_get_messages hs token room 100 None);
  println (line_json (json_object [("task_uuid", json_string task_uuid);
    ("status", json_string (default "not_found" (find_task_status page.1 task_uuid)))])).

Definition heartbeat_key (hb : V) : string :=
  cat [show (default 0%Z (c ← get hb "content"; t ← get c "timestamp"; Json.as_u64 t)); ":"; default "" (content_str hb "progress")].
(** Those whose key is new are shown. *)
Fixpoint show_heartbeats (seen : gset string) (heartbeats : list V) : M (gset string) :=
  match heartbeats with
  | [] => mret seen
  | hb :: heartbeats =>
      (if bool_decide (heartbeat_key hb ∈ seen) then mret ()
       else eprintln (cat ["HEARTBEAT: "; default "(no progress)" (content_str hb "progress")])) ;;
      show_heartbeats ({[heartbeat_key hb]} ∪ seen) heartbeats
  end.
Fixpoint watch_loop (fuel : nat) (hs token room task_uuid : string) (since : option string) (seen : gset string) : M (option ()) :=
  match fuel with
  | 0 => mret None
  | S fuel =>
      synced ← try_world (matrix_sync hs token since 10000);
      page ← try_world (matrix_get_messages hs token room 50 None);
      match find_result_events page.1 task_uuid with
      | Some result => println (cat ["RESULT: "; pretty_json result]) ;; mret (Some ())
      | None =>
          seen ← show_heartbeats seen (find_heartbeat_events page.1 task_uuid);
          watch_loop fuel hs token room task_uuid synced.2 seen
      end
  end.
Definition cmd_watch (fuel : nat) (hs token room task_uuid : string) : M (option ()) :=
  synced ← try_world (matrix_sync hs token None 1000);
  watch_loop fuel hs token room task_uuid synced.2 ∅.

(** [sort_by_key] on the time: oldest first. *)
Fixpoint insert_oldest (hb : V) (l : list V) : list V :=
  match l with
  | [] => [hb]
  | x :: l' => if decide (event_ts hb ≤ event_ts x)%Z then hb :: l else x :: insert_oldest hb l'
  end.
Fixpoint println_all (lines : list string) : M () :=
  match lines with [] => mret () | l :: lines => println l ;; println_all lines end.
Definition text_or_json (v : V) : string := match as_str v with Some s => s | None => pretty_json v end.
Definition cmd_logs (hs token room task_uuid : string) : M () :=
  pages ← try_world (read_timeline hs token room);
  match pages with
  | None => mret ()
  | Some events =>
      let heartbeats := foldr insert_oldest [] (find_heartbeat_events events task_uuid) in
      (if bool_decide (heartbeats = []) then mret () else
         println "=== Heartbeats ===" ;;
         println_all ((λ hb, cat ["["; default "unknown" (format_ms (event_ts hb)); "] ";
                                  default "(no progress)" (content_str hb "progress")]) <$> heartbeats) ;;
         println "") ;;
      match find_result_events events task_uuid with
      | Some content =>
          println "=== Result ===" ;;
          println (match get content "output", get content "result" with
                   | Some output, _ => text_or_json output
                   | None, Some result_val => text_or_json result_val
                   | None, None => pretty_json content
                   end)
      | None => println "Task still running or no result found."
      end
  end.

Fixpoint print_history (tasks : list HistoryTask) : M () :=
  match tasks with
  | [] => mret ()
  | t :: tasks =>
      match format_history_line format_ms t with
      | Some line => println line ;; print_history tasks
      | None => panic
      end
  end.
Definition cmd_history (hs token room : string) (limit : nat) (status_filter : string) (date since from_date to_date : option string) : M () :=
  now_ms ← observe (λ t, fc_now_ms (tm_world t));
  match compute_time_window parse_date now_ms date since from_date to_date with
  | None => panic
  | Some (Err e) => raise (CliFails e)
  | Some (Ok window) =>
      pages ← try_world (read_timeline hs token room);
      match pages with
      | None => mret ()
      | Some events =>
          match history_of events limit window status_filter with
          | [] => println "No tasks found."
          | tasks => print_history tasks
          end
      end
  end.

(** Padded on the left. *)
Definition pad_left (n : nat) (s : string) : string := cat (replicate (n - char_count s) " " ++ [s]).
(** [properties[name]]: the names are those of the map. *)
Definition property_line (schema : InputSchema) (name : string) (prop : SchemaProperty) : string :=
  cat ["    "; pad_to char_count 16 name; " "; pad_to char_count 8 (sp_type prop); " ";
       pad_left 10 (if bool_decide (name ∈ Coordinator.required schema) then "(required)" else ""); "  "; sp_description prop].
Definition tool_lines (t : WorkerTool) : list string :=
  let schema := input_schema t in
  cat ["  Tool: "; tool_name t; " v"; default "unknown" (version t); " ["; if healthy t then "healthy" else "unhealthy"; "]"]
  :: omap (λ name, property_line schema name <$> Coordinator.properties schema !! name)
       (merge_sort String.le (map_to_list (Coordinator.properties schema)).*1).
Definition format_capabilities (advertisements : list (string * CapabilityAdvertisement)) : list string :=
  advertisements ≫= λ sa,
    cat ["Worker: "; ad_worker sa.2; " (host: "; ad_host sa.2; ")"]
    :: (if str_eqb sa.1 (ad_worker sa.2) then [] else [cat ["  state_key: "; sa.1]]) ++ (ad_tools sa.2 ≫= tool_lines).
Fixpoint insert_by_key (a : string * CapabilityAdvertisement) (l : list (string * CapabilityAdvertisement)) : list (string * CapabilityAdvertisement) :=
  match l with
  | [] => [a]
  | x :: l' => if bool_decide (String.le a.1 x.1) then a :: l else x :: insert_by_key a l'
  end.
(** What a state event advertises, and the warning about one that does not parse. *)
Definition advertised (filter_ : option string) (event : V) : option (string * option CapabilityAdvertisement) :=
  if str_eqb (event_kind event) EVENT_CAPABILITY then
    let state_key := default "" (get_str event "state_key") in
    if match filter_ with Some f => str_eqb state_key f | None => true end
    then content ← get event "content"; Some (state_key, advertisement_of content)
    else None
  else None.
Fixpoint warn_all (found : list (string * option CapabilityAdvertisement)) : M (list (string * CapabilityAdvertisement)) :=
  match found with
  | [] => mret []
  | (key, Some ad) :: found => rest ← warn_all found; mret ((key, ad) :: rest)
  | (key, None) :: found => eprintln (cat ["Warning: could not parse capability for state_key="; key]) ;; warn_all found
  end.
Definition cmd_capabilities (hs token room : string) (worker_id_filter : option string) : M () :=
  all_state ← try_world (matrix_get_room_state hs token room);
  advertisements ← warn_all (omap (advertised worker_id_filter) all_state);
  if bool_decide (length advertisements = 0) then
    eprintln (match worker_id_filter with
              | Some f => cat ["No capability advertisement found for worker: "; f]
              | None => cat ["No capability advertisements found in room "; room]
              end) ;; exit 1
  else println_all (format_capabilities (foldr insert_by_key [] advertisements)).
End cli.

(** ** Properties *)
(** A date is the day of its timestamps. *)
Theorem date_window_exact d ts : in_window (Some (day_start d), Some (day_end d)) ts = true ↔ (ts / DAY_MS = d)%Z.
Proof.
  unfold in_window, day_start, day_end, DAY_MS. cbn [fst snd]. rewrite andb_true_iff, !bool_decide_eq_true. split.
  - intros [Hs He]. symmetry. apply (Z.div_unique_pos _ _ _ (ts - d * 86400000)); lia.
  - intros <-. pose proof (Z.div_mod ts 86400000 ltac:(lia)). pose proof (Z.mod_pos_bound ts 86400000 ltac:(lia)). lia.
Qed.

(** A prompt whose 57th byte is inside a character ends the listing. *)
Lemma history_line_panics format_ms u ts :
  format_history_line format_ms (mkHistory ts "task" [] (from_bytes (concat (replicate 31 [Byte.xc3; Byte.xa9]))) u None) = None.
Proof. reflexivity. Qed.

Lemma insert_newest_perm t l : insert_newest t l ≡ₚ t :: l.
Proof. induction l as [|x r IH]; [done|]. simpl. case_decide; [done|]. rewrite IH. apply Permutation_swap. Qed.
Lemma newest_first_perm l : newest_first l ≡ₚ l.
Proof. induction l as [|t l IH]; [done|]. simpl. by rewrite insert_newest_perm, IH. Qed.
Lemma newest_first_sorted l : StronglySorted (λ a b, ht_timestamp_ms b ≤ ht_timestamp_ms a)%Z (newest_first l).
Proof.
  induction l as [|t l IH]; [constructor|]. simpl. induction IH as [|x r Hr IHr Hx]; [repeat constructor|]. simpl. case_decide as Ht.
  - constructor; [by constructor|]. constructor; [done|]. eapply Forall_impl; [exact Hx|]. simpl. lia.
  - constructor; [done|]. apply Forall_forall. intros y Hy.
    rewrite insert_newest_perm in Hy. apply elem_of_cons in Hy as [->|Hy]; [lia|]. by apply (proj1 (Forall_forall _ _) Hx).
Qed.

Section theorems.
Context {W V : Type} `{JL : JsonValue V} `{JU : JsonU64 V} `{JI : JsonI64 V} `{JB : JsonBuild V} `{JC : JsonContainers V} `{JN : JsonNumbers V}
  `{HS : HttpServer W V} `{RE : RestExternals} `{FH : FabricHost W}.

(** *** Paging ends *)
Lemma read_pages_ends hs token room fuel : ∀ from seen (w : W),
  length seen < MAX_EVENTS → MAX_EVENTS ≤ fuel + length seen → (read_pages fuel hs token room from seen w).1 ≠ Returns None.
Proof.
  induction fuel as [|fuel IH]; intros from seen w Hs Hf; [simpl in Hf; lia|]. cbn [read_pages].
  unfold mbind, Io_bind. destruct (matrix_get_messages _ _ _ _ _ w) as [[[events next]|e|] w1]; [|done..]. cbn [fst snd].
  case_bool_decide as He; [done|]. case_decide as Hmax; [done|]. destruct next as [t|]; [|done].
  apply IH; [lia|]. rewrite length_app in *. assert (length events ≠ 0) by (by intros ?%nil_length_inv). lia.
Qed.
(** Whatever the server answers, at most 500 requests are made: the timeline is
    read, or a request fails. *)
Theorem timeline_read hs token room (w : W) : (read_timeline hs token room w).1 ≠ Returns None.
Proof. apply read_pages_ends; [by vm_compute; lia|rewrite Nat.add_0_r; reflexivity]. Qed.

(** *** The history and the status agree *)
Lemma head_omap_cons {A B} (f : A → option B) x l : head (omap f (x :: l)) = match f x with Some y => Some y | None => head (omap f l) end.
Proof. simpl. by destruct (f x). Qed.
Lemma results_of_lookup (events : list V) u :
  (results_of events !! u) ≫= (λ e, get e "content") = find_result_events events u.
Proof.
  unfold results_of. enough (Hgen : ∀ m : gmap string V, (∀ e, m !! u = Some e → is_Some (get e "content")) →
    (foldl (λ m event, if str_eqb (event_kind event) EVENT_RESULT then
        match content_str event "task_uuid" with Some u => match m !! u with Some _ => m | None => <[u := event]> m end | None => m end
      else m) m events !! u) ≫= (λ e, get e "content")
    = match m !! u with Some e => get e "content" | None => find_result_events events u end).
  { rewrite Hgen; [by rewrite lookup_empty|by intros e; rewrite lookup_empty]. }
  induction events as [|event events IH]; intros m Hm; [simpl; by destruct (m !! u)|].
  cbn [foldl]. unfold find_result_events. rewrite head_omap_cons. fold (find_result_events events u).
  destruct (str_eqb (event_kind event) EVENT_RESULT); [|by apply IH].
  unfold content_str. destruct (get event "content") as [c|] eqn:Ec; simpl; [|by apply IH].
  destruct (get_str c "task_uuid") as [v|] eqn:Ev; [|by rewrite IH].
  destruct (decide (v = u)) as [->|Hv].
  - rewrite (bool_decide_eq_true_2 (Some u = Some u)) by done. destruct (m !! u) as [e|] eqn:Em.
    + by rewrite IH; rewrite Em.
    + rewrite IH; rewrite lookup_insert_eq; [done|]. intros e [= <-]. by rewrite Ec.
  - rewrite (bool_decide_eq_false_2 (Some v = Some u)) by congruence.
    destruct (m !! v); [by apply IH|]. rewrite IH; rewrite lookup_insert_ne by done; done.
Qed.

Lemma results_of_content (events : list V) u r : results_of events !! u = Some r → is_Some (get r "content").
Proof.
  unfold results_of. enough (Hgen : ∀ m : gmap string V, (∀ u e, m !! u = Some e → is_Some (get e "content")) → ∀ u e,
    foldl (λ m event, if str_eqb (event_kind event) EVENT_RESULT then
        match content_str event "task_uuid" with Some u => match m !! u with Some _ => m | None => <[u := event]> m end | None => m end
      else m) m events !! u = Some e → is_Some (get e "content")).
  { apply Hgen. intros ? ?. by rewrite lookup_empty. }
  clear u r. induction events as [|event events IH]; intros m Hm; [done|]. cbn [foldl]. apply IH.
  destruct (str_eqb _ _); [|done]. unfold content_str. destruct (get event "content") as [c|] eqn:Ec; simpl; [|done].
  destruct (get_str c "task_uuid") as [v|]; [|done]. destruct (m !! v); [done|]. intros u e.
  destruct (decide (v = u)) as [->|Hv]; [rewrite lookup_insert_eq; intros [= <-]; by rewrite Ec|rewrite lookup_insert_ne by done; apply Hm].
Qed.

(** What the history lists are tasks of the timeline in the window, newest first
    and at most as many as asked for; the status of each is that of the first
    result that [status] would find, or pending; and a task that is not listed
    is not newer than any that is, in a full list. *)
Theorem history_lists (events : list V) limit window f :
  let shown := history_of events limit window f in
  length shown ≤ limit ∧ StronglySorted (λ a b, ht_timestamp_ms b ≤ ht_timestamp_ms a)%Z shown ∧
  (∀ t, t ∈ shown → in_window window (ht_timestamp_ms t) = true ∧ status_matches_filter (ht_status t) f = true ∧
    ∃ event, event ∈ events ∧ event_kind event = "org.mxdx.fabric.task" ∧ content_str event "uuid" = Some (ht_uuid t) ∧
      event_ts event = ht_timestamp_ms t ∧
      ht_status t = match find_result_events events (ht_uuid t) with Some r => default "unknown" (get_str r "status") | None => "pending" end) ∧
  (∀ event t, event ∈ events → event_kind event = "org.mxdx.fabric.task" → history_entry (results_of events) window f event = Some t →
    t ∈ shown ∨ length shown = limit ∧ ∀ s, s ∈ shown → (ht_timestamp_ms t ≤ ht_timestamp_ms s)%Z).
Proof.
  set (entries := omap (history_entry (results_of events) window f) (filter (λ event, event_kind event = "org.mxdx.fabric.task") events)).
  intros shown. assert (Hshown : shown = take limit (newest_first entries)) by done. clearbody shown. subst shown.
  pose proof (newest_first_sorted entries) as Hsorted. rewrite <-(take_drop limit (newest_first entries)) in Hsorted.
  apply StronglySorted_app in Hsorted as (Hcross & Hsorted & _). split_and!.
  - rewrite length_take. lia.
  - done.
  - intros t Ht. assert (Hin : t ∈ entries).
    { rewrite <-(newest_first_perm entries), <-(take_drop limit (newest_first entries)). apply elem_of_app. by left. }
    apply list_elem_of_omap in Hin as (event & Hev & He). apply list_elem_of_filter in Hev as [Hk Hev].
    unfold history_entry in He. destruct (get event "content") as [c|] eqn:Ec; [|done]. simpl in He.
    destruct (str_eqb _ "") eqn:Eu; [done|]. destruct (in_window window (event_ts event)) eqn:Ew; [|done]. simpl in He.
    pose proof (results_of_lookup events (default "" (get_str c "uuid"))) as Hres.
    destruct (get_str c "uuid") as [u|] eqn:Eg; [|done]. simpl in He, Hres.
    assert (Hcs : content_str event "uuid" = Some u) by (unfold content_str; rewrite Ec; exact Eg).
    destruct (results_of events !! u) as [r|] eqn:Er; simpl in He, Hres.
    + destruct (results_of_content _ _ _ Er) as [rc Hrc]. rewrite Hrc in Hres, He. simpl in He. destruct (status_matches_filter _ f) eqn:Es; [|done].
      injection He as <-. simpl. rewrite <-Hres. split_and!; try done. by exists event.
    + destruct (status_matches_filter _ f) eqn:Es; [|done]. injection He as <-. simpl. rewrite <-Hres. split_and!; try done. by exists event.
  - intros event t Hev Hk He. assert (Hin : t ∈ entries).
    { apply list_elem_of_omap. exists event. split; [by apply list_elem_of_filter|done]. }
    rewrite <-(newest_first_perm entries), <-(take_drop limit (newest_first entries)) in Hin. apply elem_of_app in Hin as [Hin|Hin]; [by left|].
    right. split.
    + rewrite length_take. assert (length (drop limit (newest_first entries)) ≠ 0) as Hd by (by intros Hn%nil_length_inv; rewrite Hn in Hin; apply elem_of_nil in Hin).
      rewrite length_drop in Hd. lia.
    + intros s Hs. by apply (Hcross s t).
Qed.

(** *** Posting *)
(** What was posted to the room, as the server has it: requests that only ask,
    and drawing an identifier, leave it. *)
Context {X : Type} (posted : W → X).
Hypothesis gets_quiet : ∀ r w, method r = GET → posted (http_send r w).2 = posted w.
Hypothesis uuid_quiet : undisturbed posted (fc_uuid (W' := W)).
Context (pretty_json : V → string).
Local Abbreviation post := (cmd_post pretty_json).
Local Abbreviation on_server := (λ t : Terminal W, posted (tm_world t)).

Lemma asks_quietly (r : Request V) context failed : method r = GET → undisturbed posted (room_request r context failed).
Proof using gets_quiet.
  intros Hr. unfold room_request. apply undisturbed_bind; [|intros resp; case_match; auto with mxdx].
  apply undisturbed_map_err. intros w. unfold http. specialize (gets_quiet r w Hr). by destruct (http_send r w) as [[resp|e] w'].
Qed.
Lemma json_body_quiet resp : undisturbed posted (json_body (V := V) resp).
Proof. unfold json_body. by destruct (from_str (text resp)). Qed.
Lemma messages_quiet hs token room limit from : undisturbed posted (matrix_get_messages hs token room limit from).
Proof using gets_quiet.
  unfold matrix_get_messages. apply undisturbed_bind; [by apply asks_quietly|]. intros resp.
  apply undisturbed_bind; [apply json_body_quiet|auto with mxdx].
Qed.
Lemma sync_quiet hs token since timeout : undisturbed posted (matrix_sync hs token since timeout).
Proof using gets_quiet.
  unfold matrix_sync. apply undisturbed_bind; [by apply asks_quietly|]. intros resp.
  apply undisturbed_bind; [apply json_body_quiet|auto with mxdx].
Qed.
Lemma try_quiet {A} (m : Io W string A) : undisturbed posted m → undisturbed on_server (try_world m).
Proof. intros Hm t. unfold try_world. specialize (Hm (tm_world t)). by destruct (m (tm_world t)) as [[x|e|] w]. Qed.

(** The waiting asks, and what it returns is a result of a page. *)
Lemma await_result_spec hs token room u timeout deadline fuel : ∀ since,
  undisturbed on_server (await_result fuel hs token room u since timeout deadline) ∧
  ∀ t o t', await_result fuel hs token room u since timeout deadline t = (o, t') →
    o ≠ Raises (CliExits 0) ∧
    ∀ result, o = Returns (Some result) → ∃ w w' page, matrix_get_messages hs token room 50 None w = (Returns page, w') ∧
      find_result_events page.1 u = Some result.
Proof using gets_quiet.
  induction fuel as [|fuel IH]; intros since; cbn [await_result]; [split; [auto with mxdx|by intros t o t' [= <- <-]]|]. split.
  - apply undisturbed_bind; [auto with mxdx|]. intros now. case_decide; [|by intros t].
    apply undisturbed_bind; [apply try_quiet, sync_quiet|]. intros synced. apply undisturbed_bind; [apply try_quiet, messages_quiet|]. intros page.
    case_match; [auto with mxdx|apply IH].
  - intros t o t'. rewrite io_bind_observe. case_decide; [|by intros [= <- <-]].
    intros [(synced & t1 & _ & Hk)|[(e & -> & He)|[-> _]]]%io_bind_inv; [|split; [intros [= ->]|done]|done].
    2:{ unfold try_world in He. by destruct (matrix_sync _ _ _ _ _) as [[]]. }
    apply io_bind_inv in Hk as [(page & t2 & Hpage & Hk)|[(e & -> & He)|[-> _]]]; [|split; [intros [= ->]|done]|done].
    2:{ unfold try_world in He. by destruct (matrix_get_messages _ _ _ _ _ _) as [[]]. }
    destruct (find_result_events page.1 u) as [r|] eqn:Ef; [|by eapply (IH synced.2)].
    injection Hk as <- <-. split; [done|]. intros result [= <-]. unfold try_world in Hpage.
    destruct (matrix_get_messages hs token room 50 None (tm_world t1)) as [[pg|e|] w'] eqn:Em; [|done..].
    injection Hpage as -> <-. by exists (tm_world t1), w', page.
Qed.

(** At most one request that changes anything, of those in [Q]. *)
Definition posts (Q : Request V → Prop) {A} (m : Io (Terminal W) CliEnd A) : Prop := ∀ t,
  on_server (m t).2 = on_server t ∨ ∃ r w, Q r ∧ posted w = on_server t ∧ on_server (m t).2 = posted (http_send r w).2.
Lemma posts_quiet Q {A} (m : Io (Terminal W) CliEnd A) : undisturbed on_server m → posts Q m.
Proof. intros Hm t. left. apply Hm. Qed.
Lemma posts_bind Q {A B} (m : Io (Terminal W) CliEnd A) (k : A → Io (Terminal W) CliEnd B) :
  undisturbed on_server m → (∀ x, posts Q (k x)) → posts Q (x ← m; k x).
Proof.
  intros Hm Hk t. specialize (Hm t). unfold mbind, Io_bind. destruct (m t) as [[x|e|] t1]; simpl in *; [|by left..].
  rewrite <-Hm. apply Hk.
Qed.
Lemma posts_then Q {A B} (m : Io (Terminal W) CliEnd A) (k : A → Io (Terminal W) CliEnd B) :
  posts Q m → (∀ x, undisturbed on_server (k x)) → posts Q (x ← m; k x).
Proof.
  intros Hm Hk t. specialize (Hm t). unfold mbind, Io_bind. destruct (m t) as [[x|e|] t1]; simpl in *; [|done..].
  by rewrite (Hk x t1).
Qed.
Lemma send_posts hs token room ty txn content :
  posts (λ r, r = mkRequest PUT (cat [hs; "/_matrix/client/v3/rooms/"; url_encode room; "/send/"; url_encode ty; "/"; url_encode txn]) token (Some content))
    (try_world (matrix_send_event hs token room ty txn content)).
Proof.
  intros t. right. eexists _, (tm_world t). split; [done|]. split; [done|]. unfold try_world, matrix_send_event, room_request, mbind, Io_bind, io_map_err, http.
  destruct (http_send _ _) as [[resp|e] w']; [|done]. destruct (is_success resp); [|done]. simpl. by destruct (from_str (text resp)).
Qed.

(** What follows the posting. *)
Definition wait_and_exit (fuel : nat) (hs token room u : string) (timeout : Z) : Io (Terminal W) CliEnd () :=
  synced ← try_world (matrix_sync hs token None 1000);
  start ← observe (λ t, fc_instant (tm_world t));
  result ← await_result fuel hs token room u synced.2 timeout (start + from_secs timeout)%Z;
  match result with
  | None => mret ()
  | Some result => println (pretty_json result) ;; exit (if bool_decide (get_str result "status" = Some "success") then 0 else 1)
  end.
Lemma wait_quiet fuel hs token room u timeout : undisturbed on_server (wait_and_exit fuel hs token room u timeout).
Proof using gets_quiet.
  unfold wait_and_exit. apply undisturbed_bind; [apply try_quiet, sync_quiet|]. intros synced.
  apply undisturbed_bind; [auto with mxdx|]. intros start. apply undisturbed_bind; [apply await_result_spec|]. intros r. by case_match.
Qed.
Lemma wait_success fuel hs token room u timeout t t' :
  wait_and_exit fuel hs token room u timeout t = (Raises (CliExits 0), t') →
  ∃ w w' page result, matrix_get_messages hs token room 50 None w = (Returns page, w') ∧
    find_result_events page.1 u = Some result ∧ get_str result "status" = Some "success".
Proof using gets_quiet.
  intros [(synced & t1 & _ & Hk)|[(e & [= <-] & He)|[? _]]]%io_bind_inv; [|unfold try_world in He; by destruct (matrix_sync _ _ _ _ _) as [[]]|done].
  rewrite io_bind_observe in Hk.
  apply io_bind_inv in Hk as [(r & t2 & Hr & Hk)|[(e & [= <-] & He)|[? _]]]; [|by apply await_result_spec in He as [? _]|done].
  destruct r as [r|]; [|done]. apply await_result_spec in Hr as [_ Hr]. destruct (Hr r eq_refl) as (w & w' & page & Hp & Hf).
  exists w, w', page, r. split_and!; [done..|]. unfold println, print, shows, exit, raise, mbind, Io_bind in Hk. case_bool_decide; by injection Hk.
Qed.

(** Of a command whose task has its identifier. *)
Definition post_as (fuel : nat) (hs token room capabilities prompt : string) (timeout : Z) (p2p : bool) (payload_json : option string)
    (u : string) : Io (Terminal W) CliEnd () :=
  payload ← match merge_payload (json_object [("prompt", json_string prompt)]) payload_json with
            | Ok p => mret p
            | Err e => raise (CliFails e)
            end;
  eprintln (cat ["Posting task "; u; " to "; room]) ;;
  txn_id ← try_world fc_uuid;
  event_id ← try_world (matrix_send_event hs token room "org.mxdx.fabric.task" txn_id
               (fabric_task_value (posted_task u prompt capabilities timeout p2p payload)));
  println (format_post_output u event_id) ;;
  eprintln (cat ["Task posted, waiting for result (timeout: "; show timeout; "s)..."]) ;;
  wait_and_exit fuel hs token room u timeout.
Lemma shows_quiet s : undisturbed on_server (shows (W := W) s).
Proof. done. Qed.
Lemma post_as_posts fuel hs token room capabilities prompt timeout p2p payload_json u :
  posts (λ r, ∃ payload txn, merge_payload (json_object [("prompt", json_string prompt)]) payload_json = Ok payload ∧
      r = mkRequest PUT (cat [hs; "/_matrix/client/v3/rooms/"; url_encode room; "/send/"; url_encode "org.mxdx.fabric.task"; "/"; url_encode txn])
            token (Some (fabric_task_value (posted_task u prompt capabilities timeout p2p payload))))
    (post_as fuel hs token room capabilities prompt timeout p2p payload_json u).
Proof using gets_quiet uuid_quiet.
  unfold post_as. destruct (merge_payload _ payload_json) as [payload|e] eqn:Hm; [|by apply posts_quiet].
  intros t. rewrite io_bind_mret. revert t. apply posts_bind; [apply shows_quiet|]. intros _.
  apply posts_bind; [by apply try_quiet|]. intros txn. apply posts_then.
  - intros t. destruct (send_posts hs token room "org.mxdx.fabric.task" txn
      (fabric_task_value (posted_task u prompt capabilities timeout p2p payload)) t) as [Hs|(r & w & -> & Hw & Hs)]; [by left|].
    right. eexists _, w. split; [by exists payload, txn|done].
  - intros event_id. apply undisturbed_bind; [apply shows_quiet|]. intros _. apply undisturbed_bind; [apply shows_quiet|]. intros _. apply wait_quiet.
Qed.
Lemma try_never_exits {A} (m : Io W string A) t e t' : try_world m t ≠ (Raises (CliExits e), t').
Proof. unfold try_world. by destruct (m (tm_world t)) as [[]]. Qed.
Lemma post_as_success fuel hs token room capabilities prompt timeout p2p payload_json u t t' :
  post_as fuel hs token room capabilities prompt timeout p2p payload_json u t = (Raises (CliExits 0), t') →
  ∃ w w' page result, matrix_get_messages hs token room 50 None w = (Returns page, w') ∧
    find_result_events page.1 u = Some result ∧ get_str result "status" = Some "success".
Proof using gets_quiet.
  unfold post_as. destruct (merge_payload _ payload_json) as [payload|e]; [|done]. rewrite io_bind_mret.
  intros [(? & t1 & _ & Hk)|[(e & [= <-] & He)|[? _]]]%io_bind_inv; [|done..].
  apply io_bind_inv in Hk as [(txn & t2 & _ & Hk)|[(e & [= <-] & He)|[? _]]]; [|by apply try_never_exits in He|done].
  apply io_bind_inv in Hk as [(id & t3 & _ & Hk)|[(e & [= <-] & He)|[? _]]]; [|by apply try_never_exits in He|done].
  apply io_bind_inv in Hk as [(? & t4 & _ & Hk)|[(e & [= <-] & He)|[? _]]]; [|done..].
  apply io_bind_inv in Hk as [(? & t5 & _ & Hk)|[(e & [= <-] & He)|[? _]]]; [|done..]. by eapply wait_success.
Qed.

(** C33: [fabric post] posts one task and reports how it ended. Whatever the
    server answers, the command puts at most one event in the room, a task with the
    payload that was merged of its flags, and nothing else; and it exits with 0
    only when a page of the room held a result of that task whose status is
    success. *)
Theorem post_once fuel hs token room capabilities prompt timeout p2p override payload_json (t : Terminal W) o t' :
  post fuel hs token room capabilities prompt timeout p2p override payload_json t = (o, t') →
  ∃ u, (∀ v, override = Some v → u = v) ∧
    (on_server t' = on_server t ∨
     ∃ payload txn w, merge_payload (json_object [("prompt", json_string prompt)]) payload_json = Ok payload ∧ posted w = on_server t ∧
       on_server t' = posted (http_send (mkRequest PUT (cat [hs; "/_matrix/client/v3/rooms/"; url_encode room; "/send/";
           url_encode "org.mxdx.fabric.task"; "/"; url_encode txn]) token
         (Some (fabric_task_value (posted_task u prompt capabilities timeout p2p payload)))) w).2) ∧
    (o = Raises (CliExits 0) → ∃ w w' page result, matrix_get_messages hs token room 50 None w = (Returns page, w') ∧
       find_result_events page.1 u = Some result ∧ get_str result "status" = Some "success").
Proof using gets_quiet uuid_quiet.
  intros Hrun. assert (Hname : undisturbed on_server (match override with Some u => mret u | None => try_world fc_uuid end : Io (Terminal W) CliEnd string)).
  { destruct override; [auto with mxdx|by apply try_quiet]. }
  change (post fuel hs token room capabilities prompt timeout p2p override payload_json) with
    (u ← (match override with Some u => mret u | None => try_world fc_uuid end : Io (Terminal W) CliEnd string);
     post_as fuel hs token room capabilities prompt timeout p2p payload_json u) in Hrun.
  specialize (Hname t). apply io_bind_inv in Hrun as [(u & t1 & Hu & Hrun)|[(e & -> & He)|[-> He]]].
  - exists u. split; [by intros v ->; injection Hu|]. rewrite Hu in Hname. simpl in Hname. split.
    + pose proof (post_as_posts fuel hs token room capabilities prompt timeout p2p payload_json u t1) as Hp. rewrite Hrun in Hp.
      rewrite <-Hname. destruct Hp as [Hp|(r & w & (payload & txn & Hm & ->) & Hw & Hp)]; [by left|]. right. by exists payload, txn, w.
    + intros ->. by eapply post_as_success.
  - exists (default "" override). rewrite He in Hname. split; [by intros v ->|]. split; [by left|]. intros [= ->].
    destruct override; [done|]. by apply try_never_exits in He.
  - exists (default "" override). rewrite He in Hname. split; [by intros v ->|]. by split; [left|].
Qed.
End theorems.

(** ** Witness: a server whose room holds a result *)
#[local] Existing Instances toy_json toy_u64 toy_containers toy_build toy_numbers toy_externals.
Definition toy_result : TJson := TObj [("type", TStr EVENT_RESULT);
  ("content", TObj [("task_uuid", TStr "task"); ("status", TStr "success")])].
#[local] Instance result_server : HttpServer nat TJson := λ r w,
  (Ok (mkResponse 200 (t_print (TObj [("chunk", TArr [toy_result]); ("event_id", TStr "$e")]))), match method r with GET => w | _ => S w end).
#[local] Instance still_host : FabricHost nat := {| fc_uuid := mret "txn"; fc_instant _ := 0%Z; fc_now_ms _ := 0%Z |}.
Definition toy_post : outcome () CliEnd * Terminal nat :=
  cmd_post (λ _, "result") 1 "h" "t" "!r" "rust, linux" "build" 60 false (Some "task") None (mkTerminal 0 []).

Lemma post_once_witness : ∃ t', toy_post = (Raises (CliExits 0), t') ∧ tm_world t' = 1 ∧
  ∃ w w' page result, matrix_get_messages "h" "t" "!r" 50 None (w : nat) = (Returns page, w') ∧
    find_result_events page.1 "task" = Some result ∧ get_str result "status" = Some "success".
Proof.
  destruct toy_post as [o t'] eqn:Hrun. assert (Hsnd : toy_post = (Raises (CliExits 0), toy_post.2) ∧ tm_world toy_post.2 = 1) by (split; vm_compute; reflexivity).
  destruct Hsnd as [Ho Hw]. rewrite Hrun in Ho, Hw. simpl in Ho, Hw. exists t'. split; [exact Ho|]. split; [exact Hw|]. injection Ho as ->. unfold toy_post in Hrun.
  destruct (post_once (λ w : nat, w) ltac:(intros [m u b j] w Hm; simpl in Hm; subst m; reflexivity) ltac:(done) _ _ _ _ _ _ _ _ _ _ _ _ _ _ Hrun)
    as (u & Hu & _ & Hok).
  rewrite (Hu "task" eq_refl) in Hok. exact (Hok eq_refl).
Defined.
