(* ===== verification/ChannelBackends.v ===== *)
(** * ChannelBackends: the data channels behind the driver
    ([channel/native.rs], [channel/wasm.rs])

    libdatachannel and the browser's [RTCPeerConnection] are interfaces. What is
    modelled is what the crate puts around them: the bounded queue that their
    callbacks fill, the one local description that is waited for, remote
    candidates that wait for the remote description, closing.

    Callbacks fire on threads of the library. They only touch the queue, the
    stored data channel and the description, so that it is enough to let them
    fire after each call into the library and between the operations. *)
From S2P Require Import Prelude Text Instants Channel Effects.
From stdpp Require Import options.

Definition DATA_CHANNEL_LABEL : string := "mxdx-terminal".

(** ** The queue of events: a tokio [mpsc] whose receiver is kept *)
(** [let _ = tx.try_send(e)]: what does not fit is dropped. *)
Definition queue_send (e : ChannelEvent) (q : list ChannelEvent) : list ChannelEvent :=
  if decide (length q < EVENT_QUEUE_DEPTH) then q ++ [e] else q.
Definition queue_all (es : list ChannelEvent) (q : list ChannelEvent) : list ChannelEvent := foldl (flip queue_send) q es.

(** What both backends make of an inbound frame. *)
Definition inbound (frame : Bytes) : ChannelEvent :=
  if decide (MAX_INBOUND_FRAME_SIZE < length frame) then
    Failure (cat ["inbound frame exceeds "; show (Z.of_nat MAX_INBOUND_FRAME_SIZE); "-byte cap ("; show (Z.of_nat (length frame)); " bytes)"])
  else Message frame.

Definition remote_closed : ChannelEvent := Closed "remote closed data channel".
Definition channel_error (err : string) : ChannelEvent := Failure (cat ["data channel error: "; err]).

(** An operation fails, or is never over: a description that does not come. *)
Inductive ChannelStop : Type := StopErr (e : ChannelError) | StopWaits.
Definition SdpKind_debug (k : SdpKind) : string := match k with Offer => "Offer" | Answer => "Answer" end.
Definition expected (want : string) (got : SdpKind) : ChannelError :=
  InvalidSdp (cat ["expected "; want; ", got "; SdpKind_debug got]).

Section stop.
Context {S : Type}.
Local Notation M := (Io S ChannelStop).
Definition chan_fail {A} (e : ChannelError) : M A := raise (StopErr e).
Definition or_fail {A} (e : string → ChannelError) (r : result A string) : M A :=
  match r with Ok x => mret x | Err m => chan_fail (e m) end.
Definition or_err {A} (r : result A ChannelError) : M A := match r with Ok x => mret x | Err e => chan_fail e end.
Definition need_kind (k : SdpKind) (got : SdpKind) : M () :=
  if decide (got = k) then mret () else chan_fail (expected (match k with Offer => "offer" | Answer => "answer" end) got).
(** A step that only changes the state. *)
Definition chan_modify (f : S → S) : M () := λ s, (Returns (), f s).
End stop.

(** ** Specification of the remote candidates
    They are handed to the library in the order in which they come, the first
    of them once the library has a remote description; what comes before waits.
    [bf_described]: the peer connection has one. Each candidate that is handed
    over is recorded with what that was at the time. *)
Section buffer.
Context {R : Type} (raw : IceCandidate → R).

Record Buffer := mkBuffer {
  bf_pending : list IceCandidate; bf_ready : bool; bf_pc : bool; bf_described : bool; bf_closed : bool;
  bf_handed : list (R * bool) }.
Definition handed_with (d : bool) (l : list IceCandidate) : list (R * bool) := (λ c, (raw c, d)) <$> l.

Inductive buffer_step : list IceCandidate → Buffer → Buffer → Prop :=
| step_new p r d c h : buffer_step [] (mkBuffer p r false d c h) (mkBuffer p r true false c h)
| step_described p r d c h : buffer_step [] (mkBuffer p r true d c h) (mkBuffer p r true true c h)
| step_ready p r h : buffer_step [] (mkBuffer p r true true false h) (mkBuffer [] true true true false (h ++ handed_with true p))
| step_wait x p r pc d h : r && pc = false →
    buffer_step [x] (mkBuffer p r pc d false h) (mkBuffer (p ++ [x]) r pc d false h)
| step_hand x p d h : buffer_step [x] (mkBuffer p true true d false h) (mkBuffer p true true d false (h ++ handed_with d [x]))
| step_close p r pc d d' h : buffer_step [] (mkBuffer p r pc d false h) (mkBuffer p r false d' true h).

Inductive buffer_steps : list IceCandidate → Buffer → Buffer → Prop :=
| steps_nil b : buffer_steps [] b b
| steps_cons xs ys b b' b'' : buffer_step xs b b' → buffer_steps ys b' b'' → buffer_steps (xs ++ ys) b b''.

Lemma steps_one xs b b' : buffer_step xs b b' → buffer_steps xs b b'.
Proof. intros. rewrite <-(app_nil_r xs). by eapply steps_cons; [|apply steps_nil]. Qed.
Lemma steps_app xs ys b b' b'' : buffer_steps xs b b' → buffer_steps ys b' b'' → buffer_steps (xs ++ ys) b b''.
Proof. induction 1; intros; [done|]. rewrite <-(assoc_L app). eapply steps_cons; eauto. Qed.
Lemma steps_trans b b' b'' : buffer_steps [] b b' → buffer_steps [] b' b'' → buffer_steps [] b b''.
Proof. apply (steps_app []). Qed.

(** What was handed over is the first part of all, each with a description in
    place; the rest waits, and none does once the channel knows of one. *)
Definition buffer_inv (all : list IceCandidate) (b : Buffer) : Prop :=
  ∃ given, all = given ++ bf_pending b ∧ bf_handed b = handed_with true given ∧
    (bf_ready b = false → given = []) ∧
    (bf_closed b = false → bf_ready b = true → bf_pc b = true ∧ bf_described b = true ∧ bf_pending b = []).

Lemma buffer_step_inv all xs b b' : buffer_step xs b b' → buffer_inv all b → buffer_inv (all ++ xs) b'.
Proof.
  unfold buffer_inv. destruct 1 as [p r d c h|p r d c h|p r h|x p r pc d h Hr|x p d h|p r pc d d' h];
    simpl; intros (given & -> & -> & Hf & Hr'); rewrite ?app_nil_r.
  - exists given. split_and!; [done..|]. intros Hc Hr2. by destruct (Hr' Hc Hr2).
  - exists given. split_and!; [done..|]. intros Hc Hr2. by destruct (Hr' Hc Hr2) as (_ & _ & ?).
  - exists (given ++ p). rewrite app_nil_r. split_and!; [done| |done|done]. unfold handed_with. by rewrite fmap_app.
  - exists given. rewrite <-(assoc_L app). split_and!; [done..|]. intros _ ->. by destruct (Hr' eq_refl eq_refl) as [-> _].
  - destruct (Hr' eq_refl eq_refl) as (_ & -> & ->). exists (given ++ [x]). rewrite !app_nil_r. split_and!; [done| |done|done].
    unfold handed_with. by rewrite fmap_app.
  - by exists given.
Qed.
Lemma buffer_steps_inv all xs b b' : buffer_steps xs b b' → buffer_inv all b → buffer_inv (all ++ xs) b'.
Proof.
  intros Hs. revert all. induction Hs as [|xs ys b b1 b2 H1 _ IH]; intros all Hi.
  - by rewrite app_nil_r.
  - rewrite (assoc_L app). apply IH. by eapply buffer_step_inv.
Qed.
End buffer.

(** Moving through the specification without a new candidate; a computation
    that returns does so in a state where [Q] holds. *)
Section quietly.
Context {S R : Type} (raw : IceCandidate → R) (view : S → Buffer (R := R)).
Local Notation M := (Io S ChannelStop).

Definition quietly {A} (pre : S → Prop) (m : M A) (Q : A → S → Prop) : Prop :=
  ∀ s, pre s → buffer_steps raw [] (view s) (view (m s).2) ∧
       match (m s).1 with Returns x => Q x (m s).2 | _ => True end.

Lemma quietly_same {A} (pre : S → Prop) (m : M A) (Q : A → S → Prop) :
  (∀ s, view (m s).2 = view s) → (∀ s, pre s → match (m s).1 with Returns x => Q x (m s).2 | _ => True end) →
  quietly pre m Q.
Proof. intros Hv HQ s Hs. rewrite Hv. split; [apply steps_nil|]. by apply HQ. Qed.
Lemma quietly_bind {A B} (pre : S → Prop) (m : M A) (k : A → M B) Q (Q' : B → S → Prop) :
  quietly pre m Q → (∀ x, quietly (Q x) (k x) Q') → quietly pre (x ← m; k x) Q'.
Proof.
  intros Hm Hk s Hs. destruct (Hm s Hs) as [H1 H2]. unfold mbind, Io_bind.
  destruct (m s) as [[x|e|] s1]; simpl in *; [|done..].
  destruct (Hk x s1 H2) as [H3 H4]. split; [|done]. by eapply steps_trans.
Qed.
Lemma quietly_weaken {A} (pre pre' : S → Prop) (m : M A) (Q Q' : A → S → Prop) :
  quietly pre m Q → (∀ s, pre' s → pre s) → (∀ x s, Q x s → Q' x s) → quietly pre' m Q'.
Proof.
  intros Hm Hpre HQ s Hs. destruct (Hm s (Hpre s Hs)) as [H1 H2]. split; [done|].
  destruct (m s) as [[x|e|] s1]; simpl in *; auto.
Qed.
Lemma quietly_observe_eq {A} (pre : S → Prop) (f : S → A) :
  quietly pre (observe f) (λ x s, pre s ∧ x = f s).
Proof. by apply quietly_same. Qed.
Lemma quietly_stop {A} (pre : S → Prop) (e : ChannelStop) (Q : A → S → Prop) : quietly pre (raise e) Q.
Proof. by apply quietly_same. Qed.

Section views.
Variable C : Buffer (R := R) → Prop.
Local Abbreviation at_view := (λ s, C (view s)).
Lemma quietly_ret {A} (x : A) : quietly at_view (mret x) (λ _, at_view).
Proof. by apply quietly_same. Qed.
Lemma quietly_or_fail {A} e (r : result A string) : quietly at_view (or_fail e r) (λ _, at_view).
Proof. destruct r; [apply quietly_ret|apply quietly_stop]. Qed.
Lemma quietly_or_err {A} (r : result A ChannelError) : quietly at_view (or_err r) (λ _, at_view).
Proof. destruct r; [apply quietly_ret|apply quietly_stop]. Qed.
Lemma quietly_kind k got : quietly at_view (need_kind k got) (λ _, at_view).
Proof. unfold need_kind. destruct (decide _); [apply quietly_ret|apply quietly_stop]. Qed.
Lemma quietly_observe {A} (f : S → A) : quietly at_view (observe f) (λ _, at_view).
Proof. by apply quietly_same. Qed.
Lemma quietly_state (f : S → S) : (∀ s, view (f s) = view s) → quietly at_view (chan_modify f) (λ _, at_view).
Proof. intros Hf. apply quietly_same; [done|]. simpl. intros s. by rewrite Hf. Qed.
Lemma quietly_answers {A} (m : M A) :
  (∀ s, view (m s).2 = view s) → quietly at_view m (λ _, at_view).
Proof. intros Hm. apply quietly_same; [done|]. intros s Hs. rewrite Hm. by destruct (m s).1. Qed.
End views.
End quietly.

Definition buf_opened {R} (b : Buffer (R := R)) : Prop := bf_closed b = false.
Definition buf_connected {R} (b : Buffer (R := R)) : Prop := bf_closed b = false ∧ bf_pc b = true.
Definition buf_described {R} (b : Buffer (R := R)) : Prop := buf_connected b ∧ bf_described b = true.

(** ** The queue *)
Lemma queue_all_take es q : length q ≤ EVENT_QUEUE_DEPTH →
  queue_all es q = q ++ take (EVENT_QUEUE_DEPTH - length q) es.
Proof.
  revert q. induction es as [|e es IH]; intros q Hq; [by rewrite take_nil, app_nil_r|].
  change (queue_all (e :: es) q) with (queue_all es (queue_send e q)). unfold queue_send. destruct (decide _) as [Hl|Hl].
  - rewrite IH by (rewrite length_app; simpl; lia). rewrite length_app, <-(assoc_L app). simpl.
    destruct (EVENT_QUEUE_DEPTH - length q) as [|k] eqn:Ek; [lia|]. simpl. f_equal. f_equal. f_equal. lia.
  - rewrite IH by done. by replace (EVENT_QUEUE_DEPTH - length q) with 0 by lia.
Qed.
Lemma queue_send_bound e q : length q ≤ EVENT_QUEUE_DEPTH → length (queue_send e q) ≤ EVENT_QUEUE_DEPTH.
Proof. unfold queue_send. destruct (decide _); [rewrite length_app; simpl|]; lia. Qed.
Lemma inbound_capped frame b : inbound frame = Message b → b = frame ∧ length b ≤ MAX_INBOUND_FRAME_SIZE.
Proof. unfold inbound. destruct (decide _); intros [= <-]. split; [done|lia]. Qed.

Module Native.
(** ** libdatachannel *)
Inductive SdpType : Type := TOffer | TAnswer | TPranswer | TRollback.
Inductive ConnectionState : Type := ConnNew | ConnConnecting | ConnConnected | ConnDisconnected | ConnFailed | ConnClosed.
Record SessionDescription (P : Type) := mkDescription { sd_sdp : P; sd_type : SdpType }.
Arguments mkDescription {P}.
Arguments sd_sdp {P} s.
Arguments sd_type {P} s.

Inductive Callback (P : Type) : Type :=
| on_description (sd : SessionDescription P)
| on_candidate (candidate mid : string)
| on_connection_state_change (s : ConnectionState)
| on_ice_state_change (failed : bool)
| on_data_channel (dc : nat)
| on_open
| on_closed
| on_error (err : string)
| on_message (msg : Bytes).
Arguments on_description {P}.
Arguments on_candidate {P}.
Arguments on_connection_state_change {P}.
Arguments on_ice_state_change {P}.
Arguments on_data_channel {P}.
Arguments on_open {P}.
Arguments on_closed {P}.
Arguments on_error {P}.
Arguments on_message {P}.

(** The one peer connection of a channel; data channels have numbers.
    [lib_fired]: the callbacks that have fired since it was asked. *)
Class LibDataChannel (W P : Type) := {
  lib_new_pc : list string → W → result () string * W;
  lib_create_data_channel : string → W → result nat string * W;
  lib_set_remote : SessionDescription P → W → result () string * W;
  lib_add_candidate : string → string → W → result () string * W;
  lib_send : nat → Bytes → W → result () string * W;
  lib_drop_channel : nat → W → W;
  lib_drop_pc : W → W;
  lib_fired : W → list (Callback P) * W;
  parse_sdp : string → result P string;
  sdp_to_string : P → string;
}.

(** ** The configuration: servers as URLs with the credentials in them *)
Definition has_scheme (s : string) (u : string) : bool := starts_with (as_bytes s) (as_bytes u).
Definition AT : byte := Byte.x40.
Definition server_url (s : IceServer) (u : string) : option string :=
  if negb (has_scheme "stun:" u) && negb (has_scheme "turn:" u) && negb (has_scheme "turns:" u) then None else
  if has_scheme "stun:" u then Some u else
  match username s, credential s with
  | Some user, Some pass =>
      if bool_decide (AT ∈ as_bytes u) then Some u else
      match split_once CHAR_COLON (as_bytes u) with
      | Some (scheme, rest) => Some (cat [from_bytes scheme; ":"; user; ":"; pass; "@"; from_bytes rest])
      | None => Some u
      end
  | _, _ => Some u
  end.
Definition build_config (servers : list IceServer) : list string :=
  servers ≫= λ s, omap (server_url s) (urls s).

(** ** The channel *)
Record NativeWebRtcChannel (P : Type) := mkNative {
  nc_pc : bool;                                       (* [pc.is_some()] *)
  nc_queue : list ChannelEvent;                       (* [rx] *)
  nc_dc : option nat;                                 (* [shared.dc] *)
  nc_desc_tx : bool;                                  (* [shared.local_desc_tx] *)
  nc_desc : option (SessionDescription P);            (* what is in the oneshot *)
  nc_desc_rx : bool;                                  (* [local_desc_rx] *)
  nc_pending : list IceCandidate;
  nc_remote_set : bool;
  nc_closed : bool }.
Arguments mkNative {P}.
Arguments nc_pc {P} n.
Arguments nc_queue {P} n.
Arguments nc_dc {P} n.
Arguments nc_desc_tx {P} n.
Arguments nc_desc {P} n.
Arguments nc_desc_rx {P} n.
Arguments nc_pending {P} n.
Arguments nc_remote_set {P} n.
Arguments nc_closed {P} n.

(** The channel and the library. *)
Record NState (P W : Type) := mkN { chan : NativeWebRtcChannel P; lib : W }.
Arguments mkN {P W}.
Arguments chan {P W} n.
Arguments lib {P W} n.

Section native.
Context {W P : Type} `{LibDataChannel W P}.
Local Abbreviation Chan := (NativeWebRtcChannel P).
Local Abbreviation N := (NState P W).
Local Notation M := (Io N ChannelStop).

Definition native_new : Chan := mkNative false [] None true None true [] false false.

(** *** Setters *)
Definition set_pc (b : bool) (n : Chan) : Chan :=
  mkNative b (nc_queue n) (nc_dc n) (nc_desc_tx n) (nc_desc n) (nc_desc_rx n) (nc_pending n) (nc_remote_set n) (nc_closed n).
Definition set_queue (q : list ChannelEvent) (n : Chan) : Chan :=
  mkNative (nc_pc n) q (nc_dc n) (nc_desc_tx n) (nc_desc n) (nc_desc_rx n) (nc_pending n) (nc_remote_set n) (nc_closed n).
Definition set_dc (d : option nat) (n : Chan) : Chan :=
  mkNative (nc_pc n) (nc_queue n) d (nc_desc_tx n) (nc_desc n) (nc_desc_rx n) (nc_pending n) (nc_remote_set n) (nc_closed n).
Definition set_desc (tx : bool) (d : option (SessionDescription P)) (rx : bool) (n : Chan) : Chan :=
  mkNative (nc_pc n) (nc_queue n) (nc_dc n) tx d rx (nc_pending n) (nc_remote_set n) (nc_closed n).
Definition set_candidates (p : list IceCandidate) (r : bool) (n : Chan) : Chan :=
  mkNative (nc_pc n) (nc_queue n) (nc_dc n) (nc_desc_tx n) (nc_desc n) (nc_desc_rx n) p r (nc_closed n).
Definition set_closed (n : Chan) : Chan :=
  mkNative (nc_pc n) (nc_queue n) (nc_dc n) (nc_desc_tx n) (nc_desc n) (nc_desc_rx n) (nc_pending n) (nc_remote_set n) true.

(** *** Callbacks *)
(** The event that a callback pushes. *)
Definition callback_event (cb : Callback P) : option ChannelEvent :=
  match cb with
  | on_candidate c mid => Some (LocalIce (mkIceCandidate c (Some mid) None))
  | on_connection_state_change ConnFailed => Some (Failure "connection state: Failed")
  | on_connection_state_change ConnClosed => Some (Closed "connection state: Closed")
  | on_connection_state_change ConnDisconnected => Some (Closed "connection state: Disconnected")
  | on_connection_state_change _ => None
  | on_ice_state_change failed => if failed then Some (Failure "ICE state: Failed") else None
  | on_open => Some Open
  | on_closed => Some remote_closed
  | on_error err => Some (channel_error err)
  | on_message msg => Some (inbound msg)
  | on_description _ | on_data_channel _ => None
  end.

(** [*guard = Some(dc)]: what was stored is dropped, which closes it. *)
Definition store_data_channel (dc : nat) (s : N) : N :=
  mkN (set_dc (Some dc) (chan s)) (match nc_dc (chan s) with Some old => lib_drop_channel old (lib s) | None => lib s end).

Definition callback (s : N) (cb : Callback P) : N :=
  match cb with
  | on_description sd =>
      if nc_desc_tx (chan s) then mkN (set_desc false (Some sd) (nc_desc_rx (chan s)) (chan s)) (lib s) else s
  | on_data_channel dc => store_data_channel dc s
  | _ => match callback_event cb with
         | Some e => mkN (set_queue (queue_send e (nc_queue (chan s))) (chan s)) (lib s)
         | None => s
         end
  end.
Definition fire (s : N) : N :=
  let '(cbs, w) := lib_fired (lib s) in foldl callback (mkN (chan s) w) cbs.

(** *** Calls into the library *)
Definition call {A} (f : W → result A string * W) : M (result A string) := λ s,
  let '(r, w) := f (lib s) in (Returns r, fire (mkN (chan s) w)).
Definition update (f : Chan → Chan) : M () := chan_modify (λ s, mkN (f (chan s)) (lib s)).
Definition look {A} (f : Chan → A) : M A := observe (λ s, f (chan s)).
Definition need_open : M () := closed ← look nc_closed; if closed : bool then chan_fail ClosedError else mret ().

Definition ensure_pc (servers : list IceServer) : M () :=
  pc ← look nc_pc;
  if pc : bool then mret () else
  r ← call (lib_new_pc (build_config servers));
  or_fail IceInitFailed r ;; update (set_pc true).

Definition mid_of (c : IceCandidate) : string := default "" (sdp_mid c).
(** A candidate that the library refuses is logged and skipped. *)
Definition drain_pending_candidates : M () :=
  pending ← look nc_pending;
  update (λ n, set_candidates [] (nc_remote_set n) n) ;;
  pc ← look nc_pc;
  if pc : bool then for_each (λ c, call (lib_add_candidate (candidate c) (mid_of c)) ;; mret ()) pending else mret ().

Definition to_session_description (s : Sdp) : result (SessionDescription P) ChannelError :=
  let? parsed := result_map_err InvalidSdp (parse_sdp (sdp_sdp s)) in
  Ok (mkDescription parsed (match sdp_kind s with Offer => TOffer | Answer => TAnswer end)).
Definition from_session_description (sd : SessionDescription P) : result Sdp ChannelError :=
  match sd_type sd with
  | TOffer => Ok (mkSdp Offer (sdp_to_string (sd_sdp sd)))
  | TAnswer => Ok (mkSdp Answer (sdp_to_string (sd_sdp sd)))
  | TPranswer => Err (InvalidSdp "unsupported sdp type: Pranswer")
  | TRollback => Err (InvalidSdp "unsupported sdp type: Rollback")
  end.
(** [self.local_desc_rx.take()] and [rx.await]. The sender of the oneshot lives
    as long as the channel: the description comes, or the await does not end. *)
Definition local_description (caller : string) : M (SessionDescription P) :=
  rx ← look nc_desc_rx;
  if rx : bool then
    update (λ n, set_desc (nc_desc_tx n) (nc_desc n) false n) ;;
    chan_modify fire ;;
    d ← look nc_desc;
    match d with Some sd => mret sd | None => raise StopWaits end
  else chan_fail (Backend (cat [caller; " called twice"])).

Definition create_offer (ice_servers : list IceServer) : M Sdp :=
  need_open ;;
  ensure_pc ice_servers ;;
  r ← call (lib_create_data_channel DATA_CHANNEL_LABEL);
  dc ← or_fail (λ e, IceInitFailed (cat ["create_data_channel: "; e])) r;
  chan_modify (store_data_channel dc) ;;
  sd ← local_description "create_offer";
  sdp ← or_err (from_session_description sd);
  need_kind Offer (sdp_kind sdp) ;;
  mret sdp.

(** [set_remote_description], then the candidates that waited for it. *)
Definition install_remote (sd : SessionDescription P) : M () :=
  r ← call (lib_set_remote sd);
  or_fail (λ e, InvalidSdp (cat ["set_remote_description: "; e])) r ;;
  update (λ n, set_candidates (nc_pending n) true n) ;;
  drain_pending_candidates.

Definition accept_offer (ice_servers : list IceServer) (remote : Sdp) : M Sdp :=
  need_open ;;
  need_kind Offer (sdp_kind remote) ;;
  ensure_pc ice_servers ;;
  sd ← or_err (to_session_description remote);
  install_remote sd ;;
  answer ← local_description "accept_offer";
  sdp ← or_err (from_session_description answer);
  need_kind Answer (sdp_kind sdp) ;;
  mret sdp.

Definition accept_answer (remote : Sdp) : M () :=
  need_open ;;
  need_kind Answer (sdp_kind remote) ;;
  pc ← look nc_pc;
  if negb pc then chan_fail (Backend "accept_answer before create_offer") else
  sd ← or_err (to_session_description remote);
  install_remote sd.

Definition add_ice_candidate (c : IceCandidate) : M () :=
  need_open ;;
  ready ← look (λ n, nc_remote_set n && nc_pc n);
  if ready : bool then
    r ← call (lib_add_candidate (candidate c) (mid_of c));
    or_fail InvalidCandidate r
  else update (λ n, set_candidates (nc_pending n ++ [c]) (nc_remote_set n) n).

Definition restart_ice (_ : list IceServer) : M Sdp := chan_fail RestartIceUnsupported.

Definition native_send (frame : Bytes) : M () :=
  need_open ;;
  dc ← look nc_dc;
  match dc with
  | None => chan_fail (Backend "data channel not yet open")
  | Some dc => r ← call (lib_send dc frame); or_fail (λ e, Backend (cat ["send: "; e])) r
  end.

Definition close (reason : string) : M () :=
  closed ← look nc_closed;
  if closed : bool then mret () else
  update set_closed ;;
  chan_modify (λ s, mkN (set_dc None (chan s)) (match nc_dc (chan s) with Some dc => lib_drop_channel dc (lib s) | None => lib s end)) ;;
  chan_modify (λ s, fire (mkN (set_pc false (chan s)) (if nc_pc (chan s) then lib_drop_pc (lib s) else lib s))) ;;
  update (λ n, set_queue (queue_send (Closed reason) (nc_queue n)) n).

(** [Drop]: the data channel goes before the peer connection. *)
Definition native_drop (s : N) : W :=
  let w := match nc_dc (chan s) with Some dc => lib_drop_channel dc (lib s) | None => lib s end in
  if nc_pc (chan s) then lib_drop_pc w else w.

(** [events().try_recv()]. *)
Definition recv : M (option ChannelEvent) :=
  q ← look nc_queue;
  match q with
  | [] => mret None
  | e :: q => update (set_queue q) ;; mret (Some e)
  end.

(** *** The life of a channel *)
Inductive NativeOp : Type :=
| OpOffer (servers : list IceServer)
| OpAcceptOffer (servers : list IceServer) (remote : Sdp)
| OpAcceptAnswer (remote : Sdp)
| OpCandidate (c : IceCandidate)
| OpRestart (servers : list IceServer)
| OpSend (frame : Bytes)
| OpRecv
| OpClose (reason : string)
| OpFire.
Definition native_op (op : NativeOp) (s : N) : N :=
  match op with
  | OpOffer servers => (create_offer servers s).2
  | OpAcceptOffer servers remote => (accept_offer servers remote s).2
  | OpAcceptAnswer remote => (accept_answer remote s).2
  | OpCandidate c => (add_ice_candidate c s).2
  | OpRestart servers => (restart_ice servers s).2
  | OpSend frame => (native_send frame s).2
  | OpRecv => (recv s).2
  | OpClose reason => (close reason s).2
  | OpFire => fire s
  end.
(** The candidates that a channel takes: all until it is closed. *)
Definition native_taken (op : NativeOp) (s : N) : list IceCandidate :=
  match op with OpCandidate c => if nc_closed (chan s) then [] else [c] | _ => [] end.
Fixpoint native_run (ops : list NativeOp) (s : N) : N :=
  match ops with [] => s | op :: ops => native_run ops (native_op op s) end.
Fixpoint taken_run (ops : list NativeOp) (s : N) : list IceCandidate :=
  match ops with [] => [] | op :: ops => native_taken op s ++ taken_run ops (native_op op s) end.
End native.

(** ** Remote candidates *)
Section candidates.
Context {W P : Type} `{LibDataChannel W P} (described : W → bool) (handed : W → list ((string * string) * bool)).
Local Abbreviation N := (NState P W).
Local Notation M := (Io N ChannelStop).

(** A call leaves both as they are. *)
Definition untouched (w w' : W) : Prop := handed w' = handed w ∧ described w' = described w.
(** What the library was handed, each with whether its peer connection had a
    remote description at that moment, and by which calls only. A description
    comes by a [set_remote_description] that succeeds. *)
Class Hands : Prop := {
  handed_candidate c mid w :
    let w' := (lib_add_candidate c mid w).2 in
    handed w' = handed w ++ [((c, mid), described w)] ∧ described w' = described w;
  handed_new_pc l w :
    let '(r, w') := lib_new_pc l w in
    handed w' = handed w ∧ described w' = match r with Ok _ => false | Err _ => described w end;
  handed_remote d w :
    let '(r, w') := lib_set_remote d w in
    handed w' = handed w ∧ described w' = match r with Ok _ => true | Err _ => described w end;
  handed_create l w : untouched w (lib_create_data_channel l w).2;
  handed_send d f w : untouched w (lib_send d f w).2;
  handed_drop_channel d w : untouched w (lib_drop_channel d w);
  handed_drop_pc w : handed (lib_drop_pc w) = handed w;
  handed_fired w : untouched w (lib_fired w).2;
}.
Context `{!Hands}.

Definition raw (c : IceCandidate) : string * string := (candidate c, mid_of c).
Definition view (s : N) : Buffer :=
  mkBuffer (nc_pending (chan s)) (nc_remote_set (chan s)) (nc_pc (chan s)) (described (lib s)) (nc_closed (chan s)) (handed (lib s)).

Lemma view_lib n w w' : untouched w w' → view (mkN n w') = view (mkN n w).
Proof using Type. intros [Hh Hd]. unfold view. simpl. by rewrite Hh, Hd. Qed.
Lemma view_store dc s : view (store_data_channel dc s) = view s.
Proof using All.
  unfold store_data_channel. destruct (nc_dc (chan s)); [|done].
  transitivity (view (mkN (set_dc (Some dc) (chan s)) (lib s))); [|done]. apply view_lib, handed_drop_channel.
Qed.
Lemma view_callback cb s : view (callback s cb) = view s.
Proof using All.
  destruct cb; unfold callback; simpl; try apply view_store; try (by destruct (nc_desc_tx (chan s)));
    try (by destruct s0); try (by destruct failed); done.
Qed.
Lemma view_fire s : view (fire s) = view s.
Proof using All.
  unfold fire. pose proof (handed_fired (lib s)) as Hf. destruct (lib_fired (lib s)) as [cbs w]; simpl in Hf.
  assert (view (mkN (chan s) w) = view s) as <- by (by apply (view_lib _ (lib s))).
  generalize (mkN (chan s) w). clear Hf. induction cbs as [|cb cbs IH]; intros s'; [done|]. simpl. by rewrite IH, view_callback.
Qed.
Lemma view_call {A} (f : W → result A string * W) s :
  untouched (lib s) (f (lib s)).2 → view (call f s).2 = view s.
Proof using All. unfold call. destruct (f (lib s)) as [r w]; simpl. intros Hf. rewrite view_fire. by apply (view_lib _ (lib s)). Qed.

Local Abbreviation quietly := (quietly raw view).
Section views.
Variable C : Buffer (R := string * string) → Prop.
Local Abbreviation at_view := (λ s : N, C (view s)).
Lemma quietly_call {A} (f : W → result A string * W) :
  (∀ w, untouched w (f w).2) → quietly at_view (call f) (λ _, at_view).
Proof using All. intros Hf. apply quietly_answers. intros s. by apply view_call. Qed.
Lemma quietly_description caller : quietly at_view (local_description caller) (λ _, at_view).
Proof using All.
  eapply quietly_bind; [apply quietly_observe|]. intros [|]; [|apply quietly_stop].
  eapply quietly_bind; [by apply quietly_state|intros ?].
  eapply quietly_bind; [apply quietly_state, view_fire|intros ?].
  eapply quietly_bind; [apply quietly_observe|]. intros [sd|]; [apply quietly_ret|apply quietly_stop].
Qed.
End views.

Lemma quietly_need_open (Q : N → Prop) : quietly Q need_open (λ _ s, buf_opened (view s)).
Proof using Type.
  apply quietly_same; intros s; unfold need_open, look; rewrite io_bind_observe;
    destruct (nc_closed (chan s)) eqn:E; done.
Qed.
Definition with_pc (b : Buffer (R := string * string)) : Buffer (R := string * string) :=
  mkBuffer (bf_pending b) (bf_ready b) true (bf_described b) (bf_closed b) (bf_handed b).
Lemma quietly_ensure_pc servers : quietly (λ s, buf_opened (view s)) (ensure_pc servers) (λ _ s, buf_connected (view s)).
Proof using All.
  eapply quietly_bind; [apply quietly_observe_eq|]. intros [|].
  { apply quietly_same; [done|]. by intros s [? ?]. }
  intros s [Ho Hn]. unfold call, mbind, Io_bind. pose proof (handed_new_pc (build_config servers) (lib s)) as Hnew.
  destruct (lib_new_pc _ (lib s)) as [[[]|e] w]; destruct Hnew as [Hh Hd].
  - assert (view (fire (mkN (chan s) w)) = mkBuffer (nc_pending (chan s)) (nc_remote_set (chan s)) false false (nc_closed (chan s)) (handed (lib s))) as Hv.
    { rewrite view_fire. unfold view. simpl. by rewrite Hh, Hd, <-Hn. }
    simpl. set (s1 := fire _) in *.
    change (view (mkN (set_pc true (chan s1)) (lib s1))) with (with_pc (view s1)). rewrite Hv. split; [|by split].
    apply steps_one. unfold view. rewrite <-Hn. apply step_new.
  - split; [|done]. simpl. rewrite view_fire. rewrite (view_lib _ (lib s)) by done. apply steps_nil.
Qed.

Definition and_handed (l : list IceCandidate) (b : Buffer (R := string * string)) : Buffer (R := string * string) :=
  mkBuffer (bf_pending b) (bf_ready b) (bf_pc b) (bf_described b) (bf_closed b) (bf_handed b ++ handed_with raw (bf_described b) l).
Lemma hand_call c s :
  let '(o, s') := call (lib_add_candidate (candidate c) (mid_of c)) s in (∃ r, o = Returns r) ∧ view s' = and_handed [c] (view s).
Proof using All.
  unfold call. pose proof (handed_candidate (candidate c) (mid_of c) (lib s)) as Hh.
  destruct (lib_add_candidate _ _ _) as [r w]. split; [by eexists|]. rewrite view_fire. destruct Hh as [Hh Hd].
  unfold view, and_handed. simpl in *. by rewrite Hh, Hd.
Qed.
Lemma drain_all l s :
  let '(o, s') := for_each (λ c, call (lib_add_candidate (candidate c) (mid_of c)) ;; mret ()) l s in
  o = Returns () ∧ view s' = and_handed l (view s).
Proof using All.
  revert s. induction l as [|c l IH]; intros s; [by unfold and_handed; simpl; rewrite app_nil_r|].
  cbn [for_each]. pose proof (hand_call c s) as Hc. destruct (call _ s) as [o1 s1] eqn:E1. destruct Hc as [[r ->] Hv].
  rewrite (io_bind_step _ _ _ _ _ (io_bind_step _ (λ _, mret ()) _ _ _ E1)).
  specialize (IH s1). destruct (for_each _ l s1) as [o s']. destruct IH as [-> ->]. split; [done|].
  rewrite Hv. unfold and_handed. simpl. by rewrite <-(assoc_L app).
Qed.
Lemma quietly_remote sd :
  quietly (λ s, buf_connected (view s)) (r ← call (lib_set_remote sd); or_fail (λ e, InvalidSdp (cat ["set_remote_description: "; e])) r)
    (λ _ s, buf_described (view s)).
Proof using All.
  intros s [Hc Hp]. unfold call, mbind, Io_bind. pose proof (handed_remote sd (lib s)) as Hnew.
  destruct (lib_set_remote sd (lib s)) as [[[]|e] w]; destruct Hnew as [Hh Hd]; simpl; rewrite view_fire; unfold view, buf_described, buf_connected in *;
    simpl in *; rewrite Hh, Hd, Hp.
  - split; [|by split]. apply steps_one, step_described.
  - split; [apply steps_nil|done].
Qed.
Lemma quietly_waiting : quietly (λ s, buf_described (view s)) (update (λ n, set_candidates (nc_pending n) true n) ;; drain_pending_candidates) (λ _ _, True).
Proof using All.
  intros s [[Hc Hp] Hd]. split; [|by destruct (_ s).1].
  unfold drain_pending_candidates. set (hand := λ c, _ ;; mret ()).
  destruct (for_each hand (nc_pending (chan s)) (mkN (set_candidates [] true (chan s)) (lib s))) as [o s'] eqn:E.
  pose proof (drain_all (nc_pending (chan s)) (mkN (set_candidates [] true (chan s)) (lib s))) as Ha.
  fold hand in Ha. rewrite E in Ha. destruct Ha as [-> Ha].
  erewrite io_bind_step by reflexivity. erewrite io_bind_step by reflexivity. erewrite io_bind_step by reflexivity.
  erewrite io_bind_step by reflexivity. unfold view in Hp. simpl in Hp. cbn [set_candidates chan nc_pc] in *. simpl.
  change (set_candidates [] true (set_candidates ?p true ?n)) with (set_candidates [] true n).
  rewrite Hp, E. simpl. rewrite Ha.
  unfold view, and_handed in *. simpl in *. rewrite Hc, Hp, Hd. apply steps_one, step_ready.
Qed.
Lemma quietly_install sd : quietly (λ s, buf_connected (view s)) (install_remote sd) (λ _ _, True).
Proof using All.
  pose proof (quietly_bind _ _ _ _ (λ _ : (), update (λ n, set_candidates (nc_pending n) true n) ;; drain_pending_candidates) _ _
                (quietly_remote sd) (λ _, quietly_waiting)) as Hq.
  intros s Hs. specialize (Hq s Hs). revert Hq. unfold install_remote, mbind, Io_bind.
  by destruct (call _ s) as [[[[]|e]|e|] s1].
Qed.

Lemma quietly_finish k (answer : SessionDescription P) (Q : N → Prop) :
  quietly Q (sdp ← or_err (from_session_description answer); need_kind k (sdp_kind sdp) ;; mret sdp) (λ _ _, True).
Proof using Type.
  apply quietly_same; intros s; unfold or_err, need_kind; destruct (from_session_description answer) as [sdp|]; try done;
    erewrite io_bind_step by reflexivity; by destruct (decide _).
Qed.
Lemma native_op_steps op s : buffer_steps raw (native_taken op s) (view s) (view (native_op op s)).
Proof using All.
  destruct op as [servers|servers remote|remote|c|servers|frame| |reason|]; simpl; [..|rewrite view_fire; apply steps_nil].
  - refine (proj1 ((_ : quietly (λ _, True) (create_offer servers) (λ _ _, True)) s I)).
    eapply quietly_bind; [apply quietly_need_open|intros ?].
    eapply quietly_bind; [apply quietly_ensure_pc|intros ?].
    eapply quietly_bind; [apply quietly_call; intros; apply handed_create|intros r].
    eapply quietly_bind; [apply quietly_or_fail|intros dc].
    eapply quietly_bind; [apply quietly_state, view_store|intros ?].
    eapply quietly_bind; [apply quietly_description|intros sd]. apply quietly_finish.
  - refine (proj1 ((_ : quietly (λ _, True) (accept_offer servers remote) (λ _ _, True)) s I)).
    eapply quietly_bind; [apply quietly_need_open|intros ?].
    eapply quietly_bind; [apply quietly_kind|intros ?].
    eapply quietly_bind; [apply quietly_ensure_pc|intros ?].
    eapply quietly_bind; [apply quietly_or_err|intros sd].
    eapply quietly_bind; [apply quietly_install|intros ?].
    eapply quietly_bind; [apply (quietly_description (λ _, True))|intros answer]. apply quietly_finish.
  - refine (proj1 ((_ : quietly (λ _, True) (accept_answer remote) (λ _ _, True)) s I)).
    eapply quietly_bind; [apply quietly_need_open|intros ?].
    eapply quietly_bind; [apply quietly_kind|intros ?].
    eapply quietly_bind; [apply quietly_observe_eq|]. intros [|]; [|apply quietly_same; done]. simpl.
    eapply quietly_weaken with (pre := λ s, buf_connected (view s)); [|intros s' [Ho Hpc]; by split|by intros ? s' Hq; exact Hq].
    eapply quietly_bind; [apply quietly_or_err|intros sd]. apply quietly_install.
  - unfold add_ice_candidate, need_open, look, mbind at 1, Io_bind at 1. rewrite io_bind_observe.
    destruct (nc_closed (chan s)) eqn:Hc; [apply steps_nil|]. simpl. rewrite io_bind_observe.
    destruct (nc_remote_set (chan s) && nc_pc (chan s)) eqn:Hr.
    + apply andb_true_iff in Hr as [Hr Hp]. pose proof (hand_call c s) as Hv. unfold mbind, Io_bind.
      destruct (call _ s) as [o s1]. destruct Hv as [[r ->] Hv].
      assert (buffer_steps raw [c] (view s) (view s1)) as Hs.
      { rewrite Hv. unfold view, and_handed. simpl. rewrite Hc, Hr, Hp. apply steps_one, (step_hand raw c). }
      by destruct r.
    + apply steps_one. unfold view. simpl. rewrite Hc. by apply (step_wait raw c).
  - apply steps_nil.
  - refine (proj1 ((_ : quietly (λ _, True) (native_send frame) (λ _ _, True)) s I)).
    eapply quietly_bind; [apply quietly_need_open|intros ?].
    eapply quietly_bind; [apply quietly_observe|]. intros [dc|]; [|apply quietly_stop].
    eapply quietly_bind; [apply quietly_call; intros; apply handed_send|intros r].
    eapply quietly_weaken; [apply quietly_or_fail|by intros s' Hs'; exact Hs'|done].
  - unfold recv, look. rewrite io_bind_observe. destruct (nc_queue (chan s)); apply steps_nil.
  - unfold close, look. rewrite io_bind_observe. destruct (nc_closed (chan s)) eqn:Hc; [apply steps_nil|].
    erewrite io_bind_step by reflexivity. erewrite io_bind_step by reflexivity. erewrite io_bind_step by reflexivity. simpl.
    match goal with |- buffer_steps _ _ _ (view (mkN _ (lib ?s1))) => change (buffer_steps raw [] (view s) (view s1)) end.
    rewrite view_fire. apply steps_one. unfold view. simpl. rewrite Hc.
    match goal with |- buffer_step _ _ _ (mkBuffer _ _ _ _ _ (handed ?w)) => assert (handed w = handed (lib s)) as -> end; [|apply step_close].
    assert (∀ dc w, handed (lib_drop_channel dc w) = handed w) as Hdc by (intros dc w; apply (handed_drop_channel dc w)).
    destruct (nc_dc (chan s)), (nc_pc (chan s)); by rewrite ?handed_drop_pc, ?Hdc.
Qed.

Lemma native_run_steps ops s : buffer_steps raw (taken_run ops s) (view s) (view (native_run ops s)).
Proof using All.
  revert s. induction ops as [|op ops IH]; intros s; [apply steps_nil|]. simpl.
  eapply steps_app; [apply native_op_steps|apply IH].
Qed.

(** C34: The remote candidates of a call. Whatever is done with a channel and
    whatever the library calls back, it hands the library the candidates that
    it was given, each once and in their order, up to those that still wait.
    Each is handed over when the library has taken a remote description, so
    that none comes before the [set_remote_description] that installed it; none
    is while the channel knows of no such description, and once it does, the
    library has one and none waits, unless the channel was closed. *)
Theorem candidates_in_order ops w : handed w = [] →
  let s := native_run ops (mkN native_new w) in
  ∃ given, taken_run ops (mkN native_new w) = given ++ nc_pending (chan s) ∧
    handed (lib s) = (λ c, (raw c, true)) <$> given ∧
    (nc_remote_set (chan s) = false → given = []) ∧
    (nc_closed (chan s) = false → nc_remote_set (chan s) = true → described (lib s) = true ∧ nc_pending (chan s) = []).
Proof using All.
  intros Hw s.
  assert (buffer_inv raw [] (view (mkN native_new w))) as Hi by (exists []; simpl; by rewrite Hw).
  destruct (buffer_steps_inv raw _ _ _ _ (native_run_steps ops _) Hi) as (given & H1 & H2 & H3 & H4). exists given.
  split_and!; [exact H1|exact H2|exact H3|]. intros Hc Hr. by destruct (H4 Hc Hr) as (_ & ? & ?).
Qed.
End candidates.

(** ** Events and errors *)
Section events.
Context {W P : Type} `{LibDataChannel W P}.
Local Abbreviation N := (NState P W).

Lemma callbacks_queue cbs (s : N) :
  nc_queue (chan (foldl callback s cbs)) = queue_all (omap callback_event cbs) (nc_queue (chan s)).
Proof using Type.
  revert s. induction cbs as [|cb cbs IH]; intros s; [done|]. simpl. rewrite IH.
  destruct cb as [sd|c mid|st|failed|dc| | |err|msg]; simpl; try done; [by destruct (nc_desc_tx _)|by destruct st|by destruct failed].
Qed.

(** What a channel tells its reader. The events of the callbacks join the
    queue in their order as far as there is room; a frame above the limit
    becomes a failure, every other frame arrives as it is; what finds the queue
    full is gone, a failure or the end of the channel included. *)
Theorem fired_events cbs (s : N) : length (nc_queue (chan s)) ≤ EVENT_QUEUE_DEPTH →
  let q := nc_queue (chan s) in
  let s' := foldl callback s cbs in
  nc_queue (chan s') = q ++ take (EVENT_QUEUE_DEPTH - length q) (omap callback_event cbs) ∧
  length (nc_queue (chan s')) ≤ EVENT_QUEUE_DEPTH ∧
  (∀ (cb : Callback P) b, callback_event cb = Some (Message b) ↔ cb = on_message b ∧ length b ≤ MAX_INBOUND_FRAME_SIZE) ∧
  (length q = EVENT_QUEUE_DEPTH → nc_queue (chan s') = q).
Proof using Type.
  intros Hq q s'. assert (nc_queue (chan s') = q ++ take (EVENT_QUEUE_DEPTH - length q) (omap callback_event cbs)) as ->.
  { unfold s'. by rewrite callbacks_queue, queue_all_take. }
  split; [done|]. split; [rewrite length_app, length_take; subst q; lia|]. split.
  - intros cb b. split.
    + destruct cb as [| |[]|[]| | | | |msg]; try done. simpl. intros [= Hm].
      apply inbound_capped in Hm as [-> ?]. done.
    + intros [-> Hl]. simpl. unfold inbound. by rewrite decide_False by lia.
  - intros ->. by rewrite Nat.sub_diag, app_nil_r.
Qed.

(** A closed channel stays closed: nothing reaches the library any more. *)
Theorem closed_is_final (s : N) op : nc_closed (chan s) = true → op ≠ OpRecv → op ≠ OpFire → native_op op s = s.
Proof using Type.
  intros Hc H1 H2. destruct op; simpl; try done; unfold create_offer, accept_offer, accept_answer, add_ice_candidate, native_send, close,
    need_open, look; [..|rewrite io_bind_observe; by rewrite Hc];
    unfold mbind at 1, Io_bind at 1; rewrite io_bind_observe; by rewrite Hc.
Qed.

(** An offer that is asked for again. It fails, but only after it made a new
    data channel and put it in the place of the one in use. *)
Theorem second_offer_breaks servers (s : N) old new w :
  nc_closed (chan s) = false → nc_pc (chan s) = true → nc_dc (chan s) = Some old → nc_desc_rx (chan s) = false →
  lib_create_data_channel DATA_CHANNEL_LABEL (lib s) = (Ok new, w) → (∀ w, lib_fired w = ([], w)) →
  create_offer servers s
  = (Raises (StopErr (Backend "create_offer called twice")), mkN (set_dc (Some new) (chan s)) (lib_drop_channel old w)).
Proof using Type.
  intros Hc Hp Hd Hr Hn Hf. unfold create_offer.
  assert (need_open s = (Returns (), s)) as E by (unfold need_open, look; rewrite io_bind_observe; by rewrite Hc).
  rewrite (io_bind_step _ _ _ _ _ E).
  assert (ensure_pc servers s = (Returns (), s)) as E' by (unfold ensure_pc, look; rewrite io_bind_observe; by rewrite Hp).
  rewrite (io_bind_step _ _ _ _ _ E').
  assert (call (lib_create_data_channel DATA_CHANNEL_LABEL) s = (Returns (Ok new), mkN (chan s) w)) as E2.
  { unfold call. rewrite Hn. unfold fire. simpl. by rewrite Hf. }
  rewrite (io_bind_step _ _ _ _ _ E2). erewrite io_bind_step by reflexivity. erewrite io_bind_step by reflexivity.
  unfold store_data_channel. simpl. rewrite Hd. unfold local_description, look, mbind at 1, Io_bind at 1.
  rewrite io_bind_observe. simpl. by rewrite Hr.
Qed.

(** Credentials are put into the URL as they are: another user of another
    password gives the same URL, and a user name with an at sign ends early. *)
Theorem turn_url_ambiguous :
  let server user pass := mkIceServer ["turn:t:1"] (Some user) (Some pass) in
  build_config [server "1700:@a:hs" "p"] = build_config [server "1700" "@a:hs:p"] ∧
  build_config [server "1700:@a:hs" "p"] = ["turn:1700:@a:hs:p@t:1"].
Proof using Type. by vm_compute. Qed.
End events.

(** ** A library that takes everything; what it calls back is scripted *)
Record ToyLib := mkToyLib {
  tl_handed : list ((string * string) * bool); tl_described : bool; tl_script : list (list (Callback string)) }.
Definition toy_lib : LibDataChannel ToyLib string := {|
  lib_new_pc _ w := (Ok (), mkToyLib (tl_handed w) false (tl_script w)); lib_create_data_channel _ w := (Ok 7, w);
  lib_set_remote _ w := (Ok (), mkToyLib (tl_handed w) true (tl_script w));
  lib_add_candidate c mid w := (Ok (), mkToyLib (tl_handed w ++ [((c, mid), tl_described w)]) (tl_described w) (tl_script w));
  lib_send _ _ w := (Ok (), w); lib_drop_channel _ w := w; lib_drop_pc w := w;
  lib_fired w := match tl_script w with [] => ([], w) | cbs :: l => (cbs, mkToyLib (tl_handed w) (tl_described w) l) end;
  parse_sdp := Ok; sdp_to_string s := s |}.
Lemma toy_lib_hands : Hands (H := toy_lib) tl_described tl_handed.
Proof. split; try done. by intros [h d [|cbs l]]. Qed.

(** One candidate before the offer, one after. *)
Lemma candidates_in_order_witness :
  let a := mkIceCandidate "a" (Some "0") None in
  let b := mkIceCandidate "b" None (Some 1%Z) in
  let w := mkToyLib [] false [[]; [on_open; on_description (mkDescription "v=0" TAnswer)]] in
  let ops := [OpCandidate a; OpAcceptOffer [] (mkSdp Offer "v=0"); OpCandidate b] in
  let s := native_run (H := toy_lib) ops (mkN native_new w) in
  (nc_closed (chan s) = false ∧ nc_remote_set (chan s) = true ∧ nc_queue (chan s) = [Open]) ∧
  tl_handed (lib s) = [(("a", "0"), true); (("b", ""), true)] ∧ tl_described (lib s) = true.
Proof.
  intros a b w ops s. assert (nc_closed (chan s) = false ∧ nc_remote_set (chan s) = true ∧ nc_queue (chan s) = [Open]) as Hs
    by (split_and!; vm_compute; reflexivity).
  split; [done|]. destruct Hs as (Hc & Hr & _).
  destruct (candidates_in_order (H := toy_lib) tl_described tl_handed (H0 := toy_lib_hands) ops w eq_refl)
    as (given & Hgiven & Hall & _ & Hd). destruct (Hd Hc Hr) as [Hdesc Hp]. fold s in Hgiven, Hall. split; [|exact Hdesc].
  rewrite Hall. fold s in Hp. rewrite Hp, app_nil_r in Hgiven. rewrite <-Hgiven. vm_compute. reflexivity.
Defined.
End Native.
