(* ===== verification/WasmChannel.v ===== *)
(** * WasmChannel: the data channel of a browser ([channel/wasm.rs])

    [web_sys]'s [RTCPeerConnection] is an interface. Scripts run on one thread:
    callbacks fire only while something is awaited and between the operations.
    The queue, the discipline of the remote candidates and its proof are those
    of [ChannelBackends]. *)
From S2P Require Import Prelude Text Channel Effects ChannelBackends.
From stdpp Require Import options.

(** [RtcIceCandidateInit]: candidate, [sdpMid], [sdpMLineIndex] as 16 bits. *)
Definition CandidateInit : Type := string * option string * option Z.
Definition candidate_init (c : IceCandidate) : CandidateInit := (candidate c, sdp_mid c, as_u16 <$> sdp_mline_index c).

(** The data of a message event. *)
Inductive MessageData : Type := Binary (b : Bytes) | TextData (s : string) | OtherData.
Inductive RtcIceState : Type := IceFailed | IceClosed | IceDisconnected | IceOther.

Inductive RtcCallback : Type :=
| onicecandidate (c : option CandidateInit)
| oniceconnectionstatechange (s : RtcIceState)
| ondatachannel (dc : nat)
| onopen
| onclose
| onerror (text : option string) (debug : string)
| onmessage (d : MessageData).

(** [rtc_create_offer] and [rtc_create_answer]: the [sdp] of the description,
    if it is a string. [rtc_candidate]: the constructor [RtcIceCandidate::new].
    [rtc_fired]: the callbacks since it was asked. *)
Class Rtc (W : Type) := {
  rtc_new : list IceServer → W → result () string * W;
  rtc_create_data_channel : string → W → nat * W;
  rtc_create_offer : W → result (option string) string * W;
  rtc_create_answer : W → result (option string) string * W;
  rtc_set_local : W → result () string * W;
  rtc_set_remote : Sdp → W → result () string * W;
  rtc_candidate : CandidateInit → W → result () string * W;
  rtc_add_candidate : CandidateInit → W → result () string * W;
  rtc_send : nat → Bytes → W → result () string * W;
  rtc_close_dc : nat → W → W;
  rtc_close_pc : W → W;
  rtc_fired : W → list RtcCallback * W;
}.

(** The closures of the peer connection live until the channel is closed; those
    of a data channel are never released. *)
Record WasmWebRtcChannel := mkWasm {
  wc_pc : bool;
  wc_dc : option nat;
  wc_queue : list ChannelEvent;
  wc_pending : list IceCandidate;
  wc_remote_set : bool;
  wc_closed : bool;
  wc_closures : bool }.
Record WState (W : Type) := mkW { wchan : WasmWebRtcChannel; browser : W }.
Arguments mkW {W}.
Arguments wchan {W} w.
Arguments browser {W} w.

Section wasm.
Context {W : Type} `{Rtc W}.
Local Abbreviation N := (WState W).
Local Notation M := (Io N ChannelStop).

Definition wasm_new : WasmWebRtcChannel := mkWasm false None [] [] false false false.
Definition set_wpc (n : WasmWebRtcChannel) : WasmWebRtcChannel :=
  mkWasm true (wc_dc n) (wc_queue n) (wc_pending n) (wc_remote_set n) (wc_closed n) true.
Definition set_wdc (dc : nat) (n : WasmWebRtcChannel) : WasmWebRtcChannel :=
  mkWasm (wc_pc n) (Some dc) (wc_queue n) (wc_pending n) (wc_remote_set n) (wc_closed n) (wc_closures n).
Definition set_wqueue (q : list ChannelEvent) (n : WasmWebRtcChannel) : WasmWebRtcChannel :=
  mkWasm (wc_pc n) (wc_dc n) q (wc_pending n) (wc_remote_set n) (wc_closed n) (wc_closures n).
Definition set_wcandidates (p : list IceCandidate) (r : bool) (n : WasmWebRtcChannel) : WasmWebRtcChannel :=
  mkWasm (wc_pc n) (wc_dc n) (wc_queue n) p r (wc_closed n) (wc_closures n).

(** ** Callbacks *)
Definition pc_event (cb : RtcCallback) : option ChannelEvent :=
  match cb with
  | onicecandidate (Some (c, mid, idx)) => Some (LocalIce (mkIceCandidate c mid idx))
  | oniceconnectionstatechange IceFailed => Some (Failure "ICE connection state: failed")
  | oniceconnectionstatechange IceClosed => Some (Closed "ICE connection state: Closed")
  | oniceconnectionstatechange IceDisconnected => Some (Closed "ICE connection state: Disconnected")
  | _ => None
  end.
Definition dc_event (cb : RtcCallback) : option ChannelEvent :=
  match cb with
  | onopen => Some Open
  | onclose => Some remote_closed
  | onerror text debug => Some (channel_error (default debug text))
  | onmessage (Binary b) => Some (inbound b)
  | onmessage (TextData s) => Some (inbound (as_bytes s))
  | _ => None
  end.
(** A data channel of the peer gets its handlers; it is not kept. *)
Definition rtc_callback (s : N) (cb : RtcCallback) : N :=
  let e := match dc_event cb with
           | Some e => Some e
           | None => if wc_closures (wchan s) then pc_event cb else None
           end in
  match e with
  | Some e => mkW (set_wqueue (queue_send e (wc_queue (wchan s))) (wchan s)) (browser s)
  | None => s
  end.
Definition wfire (s : N) : N := let '(cbs, w) := rtc_fired (browser s) in foldl rtc_callback (mkW (wchan s) w) cbs.

(** ** Calls: at once, or awaited *)
Definition script {A} (f : W → A * W) : M A := λ s, let '(x, w) := f (browser s) in (Returns x, mkW (wchan s) w).
Definition await {A} (f : W → A * W) : M A := x ← script f; chan_modify wfire ;; mret x.
Definition wlook {A} (f : WasmWebRtcChannel → A) : M A := observe (λ s, f (wchan s)).
Definition wupdate (f : WasmWebRtcChannel → WasmWebRtcChannel) : M () := chan_modify (λ s, mkW (f (wchan s)) (browser s)).
Definition wneed_open : M () := closed ← wlook wc_closed; if closed : bool then chan_fail ClosedError else mret ().

Definition wasm_ensure_pc (servers : list IceServer) : M () :=
  pc ← wlook wc_pc;
  if pc : bool then mret () else
  r ← script (rtc_new servers);
  or_fail IceInitFailed r ;; wupdate set_wpc.

(** Candidates that the constructor refuses are skipped; the promise is not
    awaited. *)
Definition hand_over (c : IceCandidate) : M () :=
  r ← script (rtc_candidate (candidate_init c));
  match r with Ok _ => script (rtc_add_candidate (candidate_init c)) ;; mret () | Err _ => mret () end.
Definition wasm_drain : M () :=
  pending ← wlook wc_pending;
  wupdate (λ n, set_wcandidates [] (wc_remote_set n) n) ;;
  pc ← wlook wc_pc;
  if pc : bool then for_each hand_over pending else mret ().

Definition described (what : string) (k : SdpKind) (js : result (option string) string) : M Sdp :=
  d ← or_fail (λ e, IceInitFailed (cat [what; ": "; e])) js;
  match d with
  | Some sdp => mret (mkSdp k sdp)
  | None => chan_fail (InvalidSdp (cat [SdpKind_fmt k; " has no sdp field"]))
  end.
Definition install_local : M () :=
  r ← await rtc_set_local; or_fail (λ e, IceInitFailed (cat ["setLocalDescription: "; e])) r.
Definition wasm_install_remote (remote : Sdp) : M () :=
  r ← await (rtc_set_remote remote);
  or_fail (λ e, InvalidSdp (cat ["setRemoteDescription: "; e])) r ;;
  wupdate (λ n, set_wcandidates (wc_pending n) true n) ;;
  wasm_drain.

(** ** Operations *)
Definition wasm_create_offer (ice_servers : list IceServer) : M Sdp :=
  wneed_open ;;
  wasm_ensure_pc ice_servers ;;
  dc ← script (rtc_create_data_channel DATA_CHANNEL_LABEL);
  wupdate (set_wdc dc) ;;
  js ← await rtc_create_offer;
  sdp ← described "createOffer" Offer js;
  install_local ;;
  mret sdp.

Definition wasm_accept_offer (ice_servers : list IceServer) (remote : Sdp) : M Sdp :=
  wneed_open ;;
  need_kind Offer (sdp_kind remote) ;;
  wasm_ensure_pc ice_servers ;;
  wasm_install_remote remote ;;
  js ← await rtc_create_answer;
  sdp ← described "createAnswer" Answer js;
  install_local ;;
  mret sdp.

Definition wasm_accept_answer (remote : Sdp) : M () :=
  wneed_open ;;
  need_kind Answer (sdp_kind remote) ;;
  pc ← wlook wc_pc;
  if negb pc then chan_fail (Backend "accept_answer before create_offer") else
  wasm_install_remote remote.

Definition wasm_add_ice_candidate (c : IceCandidate) : M () :=
  wneed_open ;;
  ready ← wlook (λ n, wc_remote_set n && wc_pc n);
  if ready : bool then
    r ← script (rtc_candidate (candidate_init c));
    or_fail InvalidCandidate r ;;
    r ← await (rtc_add_candidate (candidate_init c));
    or_fail InvalidCandidate r
  else wupdate (λ n, set_wcandidates (wc_pending n ++ [c]) (wc_remote_set n) n).

Definition wasm_restart_ice (_ : list IceServer) : M Sdp := chan_fail RestartIceUnsupported.

Definition wasm_send (frame : Bytes) : M () :=
  wneed_open ;;
  dc ← wlook wc_dc;
  match dc with
  | None => chan_fail (Backend "data channel not yet open")
  | Some dc => r ← script (rtc_send dc frame); or_fail (λ e, Backend (cat ["send: "; e])) r
  end.

(** The handles are closed, the data channel first. *)
Definition close_handles (s : N) : W :=
  let w := match wc_dc (wchan s) with Some dc => rtc_close_dc dc (browser s) | None => browser s end in
  if wc_pc (wchan s) then rtc_close_pc w else w.
Definition wasm_close (reason : string) : M () :=
  closed ← wlook wc_closed;
  if closed : bool then mret () else
  chan_modify (λ s, mkW (mkWasm false None (queue_send (Closed reason) (wc_queue (wchan s))) (wc_pending (wchan s))
                      (wc_remote_set (wchan s)) true false) (close_handles s)).
(** [Drop]. *)
Definition wasm_drop (s : N) : W := close_handles s.

Definition wasm_recv : M (option ChannelEvent) :=
  q ← wlook wc_queue;
  match q with
  | [] => mret None
  | e :: q => wupdate (set_wqueue q) ;; mret (Some e)
  end.

(** ** The life of a channel *)
Inductive WasmOp : Type :=
| WOffer (servers : list IceServer)
| WAcceptOffer (servers : list IceServer) (remote : Sdp)
| WAcceptAnswer (remote : Sdp)
| WCandidate (c : IceCandidate)
| WRestart (servers : list IceServer)
| WSend (frame : Bytes)
| WRecv
| WClose (reason : string)
| WFire.
Definition wasm_op (op : WasmOp) (s : N) : N :=
  match op with
  | WOffer servers => (wasm_create_offer servers s).2
  | WAcceptOffer servers remote => (wasm_accept_offer servers remote s).2
  | WAcceptAnswer remote => (wasm_accept_answer remote s).2
  | WCandidate c => (wasm_add_ice_candidate c s).2
  | WRestart servers => (wasm_restart_ice servers s).2
  | WSend frame => (wasm_send frame s).2
  | WRecv => (wasm_recv s).2
  | WClose reason => (wasm_close reason s).2
  | WFire => wfire s
  end.
Definition wtaken (op : WasmOp) (s : N) : list IceCandidate :=
  match op with WCandidate c => if wc_closed (wchan s) then [] else [c] | _ => [] end.
Fixpoint wasm_run (ops : list WasmOp) (s : N) : N :=
  match ops with [] => s | op :: ops => wasm_run ops (wasm_op op s) end.
Fixpoint wtaken_run (ops : list WasmOp) (s : N) : list IceCandidate :=
  match ops with [] => [] | op :: ops => wtaken op s ++ wtaken_run ops (wasm_op op s) end.
End wasm.

(** ** Remote candidates *)
Section candidates.
Context {W : Type} `{Rtc W} (wdescribed : W → bool) (whanded : W → list (CandidateInit * bool)).
Local Abbreviation N := (WState W).
Local Notation M := (Io N ChannelStop).

Definition wuntouched (w w' : W) : Prop := whanded w' = whanded w ∧ wdescribed w' = wdescribed w.
(** What the browser was handed, each with whether its connection had a remote
    description at that moment, and by which calls only. *)
Class RtcHands : Prop := {
  rtc_handed_candidate c w :
    let w' := (rtc_candidate c w).2 in whanded w' = whanded w ++ [(c, wdescribed w)] ∧ wdescribed w' = wdescribed w;
  rtc_handed_new l w :
    let '(r, w') := rtc_new l w in
    whanded w' = whanded w ∧ wdescribed w' = match r with Ok _ => false | Err _ => wdescribed w end;
  rtc_handed_remote d w :
    let '(r, w') := rtc_set_remote d w in
    whanded w' = whanded w ∧ wdescribed w' = match r with Ok _ => true | Err _ => wdescribed w end;
  rtc_handed_create l w : wuntouched w (rtc_create_data_channel l w).2;
  rtc_handed_offer w : wuntouched w (rtc_create_offer w).2;
  rtc_handed_answer w : wuntouched w (rtc_create_answer w).2;
  rtc_handed_local w : wuntouched w (rtc_set_local w).2;
  rtc_handed_add c w : wuntouched w (rtc_add_candidate c w).2;
  rtc_handed_send d f w : wuntouched w (rtc_send d f w).2;
  rtc_handed_close_dc d w : wuntouched w (rtc_close_dc d w);
  rtc_handed_close_pc w : whanded (rtc_close_pc w) = whanded w;
  rtc_handed_fired w : wuntouched w (rtc_fired w).2;
}.
Context `{!RtcHands}.

Definition wview (s : N) : Buffer :=
  mkBuffer (wc_pending (wchan s)) (wc_remote_set (wchan s)) (wc_pc (wchan s)) (wdescribed (browser s)) (wc_closed (wchan s)) (whanded (browser s)).
Lemma wview_browser n w w' : wuntouched w w' → wview (mkW n w') = wview (mkW n w).
Proof using Type. intros [Hh Hd]. unfold wview. simpl. by rewrite Hh, Hd. Qed.

Lemma wview_callback cb s : wview (rtc_callback s cb) = wview s.
Proof using Type. unfold rtc_callback. destruct (dc_event cb), (wc_closures (wchan s)), (pc_event cb); done. Qed.
Lemma wview_fire s : wview (wfire s) = wview s.
Proof using All.
  unfold wfire. pose proof (rtc_handed_fired (browser s)) as Hf. destruct (rtc_fired (browser s)) as [cbs w]; simpl in Hf.
  assert (wview (mkW (wchan s) w) = wview s) as <- by (by apply (wview_browser _ (browser s))).
  generalize (mkW (wchan s) w). clear Hf. induction cbs as [|cb cbs IH]; intros s'; [done|]. simpl. by rewrite IH, wview_callback.
Qed.
Lemma wview_script {A} (f : W → A * W) s : (∀ w, wuntouched w (f w).2) → wview (script f s).2 = wview s.
Proof using Type.
  intros Hf. unfold script. specialize (Hf (browser s)). destruct (f (browser s)) as [x w]. by apply (wview_browser _ (browser s)).
Qed.
Lemma await_run {A} (f : W → A * W) s :
  await f s = (Returns (f (browser s)).1, wfire (mkW (wchan s) (f (browser s)).2)).
Proof using Type. unfold await, script, mbind, Io_bind. by destruct (f (browser s)) as [x w]. Qed.
Lemma wview_await {A} (f : W → A * W) s : (∀ w, wuntouched w (f w).2) → wview (await f s).2 = wview s.
Proof using All. intros Hf. rewrite await_run. simpl. rewrite wview_fire. by apply (wview_browser _ (browser s)). Qed.

Local Abbreviation quietly := (quietly candidate_init wview).
Section views.
Variable C : Buffer (R := CandidateInit) → Prop.
Local Abbreviation at_view := (λ s : N, C (wview s)).
Lemma quietly_script {A} (f : W → A * W) :
  (∀ w, wuntouched w (f w).2) → quietly at_view (script f) (λ _, at_view).
Proof using Type. intros Hf. apply quietly_answers. intros s. by apply wview_script. Qed.
Lemma quietly_await {A} (f : W → A * W) :
  (∀ w, wuntouched w (f w).2) → quietly at_view (await f) (λ _, at_view).
Proof using All. intros Hf. apply quietly_answers. intros s. by apply wview_await. Qed.
Lemma quietly_described what k js : quietly at_view (described what k js) (λ _, at_view).
Proof using Type.
  eapply quietly_bind; [apply quietly_or_fail|]. intros [sdp|]; [apply quietly_ret|apply quietly_stop].
Qed.
Lemma quietly_install_local : quietly at_view install_local (λ _, at_view).
Proof using All.
  eapply quietly_bind; [apply quietly_await, rtc_handed_local|]. intros r. apply (quietly_or_fail candidate_init wview C).
Qed.
Lemma quietly_described_local what k js :
  quietly at_view (sdp ← described what k js; install_local ;; mret sdp) (λ _, at_view).
Proof using All.
  eapply quietly_bind; [apply quietly_described|intros sdp].
  eapply quietly_bind; [apply quietly_install_local|intros ?]. apply (quietly_ret candidate_init wview C).
Qed.
End views.

Lemma quietly_wneed_open (Q : N → Prop) : quietly Q wneed_open (λ _ s, buf_opened (wview s)).
Proof using Type.
  apply quietly_same; intros s; unfold wneed_open, wlook; rewrite io_bind_observe;
    destruct (wc_closed (wchan s)) eqn:E; done.
Qed.
Lemma quietly_wensure_pc servers : quietly (λ s, buf_opened (wview s)) (wasm_ensure_pc servers) (λ _ s, buf_connected (wview s)).
Proof using All.
  eapply quietly_bind; [apply quietly_observe_eq|]. intros [|].
  { apply quietly_same; [done|]. by intros s [? ?]. }
  intros s [Ho Hn]. unfold script, mbind, Io_bind. pose proof (rtc_handed_new servers (browser s)) as Hnew.
  destruct (rtc_new servers (browser s)) as [[[]|e] w]; destruct Hnew as [Hh Hd]; simpl.
  - unfold buf_opened, wview in *. simpl in *. rewrite Hh, Hd, <-Hn. split; [|by split]. apply steps_one, step_new.
  - rewrite (wview_browser _ (browser s)) by done. split; [apply steps_nil|done].
Qed.

Definition wand_handed (l : list IceCandidate) (b : Buffer (R := CandidateInit)) : Buffer (R := CandidateInit) :=
  mkBuffer (bf_pending b) (bf_ready b) (bf_pc b) (bf_described b) (bf_closed b)
    (bf_handed b ++ handed_with candidate_init (bf_described b) l).
Lemma wview_candidate c s :
  wview (mkW (wchan s) (rtc_candidate (candidate_init c) (browser s)).2) = wand_handed [c] (wview s).
Proof using All.
  destruct (rtc_handed_candidate (candidate_init c) (browser s)) as [Hh Hd]. unfold wview, wand_handed. simpl in *. by rewrite Hh, Hd.
Qed.
Lemma wasm_drain_all l s :
  let '(o, s') := for_each hand_over l s in o = Returns () ∧ wview s' = wand_handed l (wview s).
Proof using All.
  revert s. induction l as [|c l IH]; intros s; [by unfold wand_handed; simpl; rewrite app_nil_r|].
  cbn [for_each].
  assert (∃ s1, hand_over c s = (Returns (), s1) ∧ wview s1 = wand_handed [c] (wview s)) as (s1 & E1 & Hv).
  { unfold hand_over, script, mbind, Io_bind. pose proof (wview_candidate c s) as Hv.
    destruct (rtc_candidate _ _) as [[[]|e] w]; simpl in *; [|by eexists].
    pose proof (rtc_handed_add (candidate_init c) w) as Ha. destruct (rtc_add_candidate _ _) as [r w'].
    eexists; split; [done|]. rewrite <-Hv. by apply (wview_browser _ w). }
  rewrite (io_bind_step _ _ _ _ _ E1). specialize (IH s1). destruct (for_each _ l s1) as [o s']. destruct IH as [-> ->].
  split; [done|]. rewrite Hv. unfold wand_handed. simpl. by rewrite <-(assoc_L app).
Qed.
Lemma quietly_wremote remote :
  quietly (λ s, buf_connected (wview s))
    (r ← await (rtc_set_remote remote); or_fail (λ e, InvalidSdp (cat ["setRemoteDescription: "; e])) r)
    (λ _ s, buf_described (wview s)).
Proof using All.
  intros s [Hc Hp]. rewrite (io_bind_step _ _ _ _ _ (await_run _ _)). pose proof (rtc_handed_remote remote (browser s)) as Hnew.
  destruct (rtc_set_remote remote (browser s)) as [[[]|e] w]; destruct Hnew as [Hh Hd]; simpl; rewrite wview_fire;
    unfold wview, buf_described, buf_connected in *; simpl in *; rewrite Hh, Hd, Hp.
  - split; [|by split]. apply steps_one, step_described.
  - split; [apply steps_nil|done].
Qed.
Lemma quietly_wwaiting :
  quietly (λ s, buf_described (wview s)) (wupdate (λ n, set_wcandidates (wc_pending n) true n) ;; wasm_drain) (λ _ _, True).
Proof using All.
  intros s [[Hc Hp] Hd]. split; [|by destruct (_ s).1].
  unfold wasm_drain.
  destruct (for_each hand_over (wc_pending (wchan s)) (mkW (set_wcandidates [] true (wchan s)) (browser s))) as [o s'] eqn:E.
  pose proof (wasm_drain_all (wc_pending (wchan s)) (mkW (set_wcandidates [] true (wchan s)) (browser s))) as Ha.
  rewrite E in Ha. destruct Ha as [-> Ha].
  do 4 erewrite io_bind_step by reflexivity. unfold wview in Hp. simpl in Hp. cbn [set_wcandidates wchan wc_pc] in *. simpl.
  change (set_wcandidates [] true (set_wcandidates ?p true ?n)) with (set_wcandidates [] true n).
  rewrite Hp, E. simpl. rewrite Ha.
  unfold wview, wand_handed in *. simpl in *. rewrite Hc, Hp, Hd. apply steps_one, step_ready.
Qed.
Lemma quietly_winstall remote : quietly (λ s, buf_connected (wview s)) (wasm_install_remote remote) (λ _ _, True).
Proof using All.
  pose proof (quietly_bind _ _ _ _ (λ _ : (), wupdate (λ n, set_wcandidates (wc_pending n) true n) ;; wasm_drain) _ _
                (quietly_wremote remote) (λ _, quietly_wwaiting)) as Hq.
  intros s Hs. specialize (Hq s Hs). revert Hq. unfold wasm_install_remote, mbind, Io_bind.
  by destruct (await _ s) as [[[[]|e]|e|] s1].
Qed.

Lemma wasm_op_steps op s : buffer_steps candidate_init (wtaken op s) (wview s) (wview (wasm_op op s)).
Proof using All.
  destruct op as [servers|servers remote|remote|c|servers|frame| |reason|]; simpl; [..|rewrite wview_fire; apply steps_nil].
  - refine (proj1 ((_ : quietly (λ _, True) (wasm_create_offer servers) (λ _ _, True)) s I)).
    eapply quietly_bind; [apply quietly_wneed_open|intros ?].
    eapply quietly_bind; [apply quietly_wensure_pc|intros ?].
    eapply quietly_bind; [apply quietly_script; intros; apply rtc_handed_create|intros dc].
    eapply quietly_bind; [by apply quietly_state|intros ?].
    eapply quietly_bind; [apply quietly_await, rtc_handed_offer|intros js].
    eapply quietly_weaken; [apply quietly_described_local|by intros s' Hs'; exact Hs'|done].
  - refine (proj1 ((_ : quietly (λ _, True) (wasm_accept_offer servers remote) (λ _ _, True)) s I)).
    eapply quietly_bind; [apply quietly_wneed_open|intros ?].
    eapply quietly_bind; [apply quietly_kind|intros ?].
    eapply quietly_bind; [apply quietly_wensure_pc|intros ?].
    eapply quietly_bind; [apply quietly_winstall|intros ?].
    eapply quietly_bind; [apply (quietly_await (λ _, True)), rtc_handed_answer|intros js].
    apply (quietly_described_local (λ _, True)).
  - refine (proj1 ((_ : quietly (λ _, True) (wasm_accept_answer remote) (λ _ _, True)) s I)).
    eapply quietly_bind; [apply quietly_wneed_open|intros ?].
    eapply quietly_bind; [apply quietly_kind|intros ?].
    eapply quietly_bind; [apply quietly_observe_eq|]. intros [|]; [|apply quietly_same; done]. simpl.
    eapply quietly_weaken; [apply quietly_winstall|intros s' [Ho Hpc]; by split|done].
  - unfold wasm_add_ice_candidate, wneed_open, wlook, mbind at 1, Io_bind at 1. rewrite io_bind_observe.
    destruct (wc_closed (wchan s)) eqn:Hc; [apply steps_nil|]. simpl. rewrite io_bind_observe.
    destruct (wc_remote_set (wchan s) && wc_pc (wchan s)) eqn:Hr.
    + apply andb_true_iff in Hr as [Hr Hp]. unfold script at 1.
      pose proof (wview_candidate c s) as Hv.
      unfold mbind at 1, Io_bind at 1. destruct (rtc_candidate _ _) as [r w]. simpl in Hv.
      assert (buffer_steps candidate_init [c] (wview s) (wview (mkW (wchan s) w))) as Hs.
      { rewrite Hv. unfold wview, wand_handed. simpl. rewrite Hc, Hr, Hp. apply steps_one, (step_hand candidate_init c). }
      destruct r as [|e]; [|done]. erewrite io_bind_step by reflexivity.
      rewrite (io_bind_step _ _ _ _ _ (await_run _ _)).
      match goal with |- buffer_steps _ _ _ (wview (or_fail _ ?r ?s2).2) => assert (wview (or_fail InvalidCandidate r s2).2 = wview s2) as -> by (by destruct r) end.
      rewrite wview_fire. by rewrite (wview_browser _ w) by apply rtc_handed_add.
    + apply steps_one. unfold wview. simpl. rewrite Hc. by apply (step_wait candidate_init c).
  - apply steps_nil.
  - refine (proj1 ((_ : quietly (λ _, True) (wasm_send frame) (λ _ _, True)) s I)).
    eapply quietly_bind; [apply quietly_wneed_open|intros ?].
    eapply quietly_bind; [apply quietly_observe|]. intros [dc|]; [|apply quietly_stop].
    eapply quietly_bind; [apply quietly_script; intros; apply rtc_handed_send|intros r].
    eapply quietly_weaken; [apply quietly_or_fail|by intros s' Hs'; exact Hs'|done].
  - unfold wasm_recv, wlook. rewrite io_bind_observe. destruct (wc_queue (wchan s)); apply steps_nil.
  - unfold wasm_close, wlook. rewrite io_bind_observe. destruct (wc_closed (wchan s)) eqn:Hc; [apply steps_nil|].
    apply steps_one. unfold wview, chan_modify, close_handles. simpl. rewrite Hc.
    match goal with |- buffer_step _ _ _ (mkBuffer _ _ _ _ _ (whanded ?w)) => assert (whanded w = whanded (browser s)) as -> end; [|apply step_close].
    assert (∀ dc w, whanded (rtc_close_dc dc w) = whanded w) as Hdc by (intros dc w; apply (rtc_handed_close_dc dc w)).
    destruct (wc_dc (wchan s)), (wc_pc (wchan s)); by rewrite ?rtc_handed_close_pc, ?Hdc.
Qed.

(** The remote candidates of a browser's channel, as for the native one. *)
Theorem wasm_candidates_in_order ops w : whanded w = [] →
  let s := wasm_run ops (mkW wasm_new w) in
  ∃ given, wtaken_run ops (mkW wasm_new w) = given ++ wc_pending (wchan s) ∧
    whanded (browser s) = (λ c, (candidate_init c, true)) <$> given ∧
    (wc_remote_set (wchan s) = false → given = []) ∧
    (wc_closed (wchan s) = false → wc_remote_set (wchan s) = true → wdescribed (browser s) = true ∧ wc_pending (wchan s) = []).
Proof using All.
  intros Hw s.
  assert (∀ ops s, buffer_steps candidate_init (wtaken_run ops s) (wview s) (wview (wasm_run ops s))) as Hrun.
  { intros l. induction l as [|op l IH]; intros s'; [apply steps_nil|].
    eapply steps_app; [apply wasm_op_steps|apply IH]. }
  assert (buffer_inv candidate_init [] (wview (mkW wasm_new w))) as Hi by (exists []; simpl; by rewrite Hw).
  destruct (buffer_steps_inv candidate_init _ _ _ _ (Hrun ops _) Hi) as (given & H1 & H2 & H3 & H4). exists given.
  split_and!; [exact H1|exact H2|exact H3|]. intros Hc Hr. by destruct (H4 Hc Hr) as (_ & ? & ?).
Qed.
End candidates.

(** ** The end that answers *)
Section answerer.
Context {W : Type} `{Rtc W}.
Local Abbreviation N := (WState W).
Local Notation M := (Io N ChannelStop).

(** [keeps m]: [m] leaves the stored data channel alone. *)
Local Abbreviation keeps := (undisturbed (S := N) (λ s, wc_dc (wchan s))).
Lemma keeps_fire (s : N) : wc_dc (wchan (wfire s)) = wc_dc (wchan s).
Proof using Type.
  unfold wfire. destruct (rtc_fired (browser s)) as [cbs w]. change (wc_dc (wchan s)) with (wc_dc (wchan (mkW (wchan s) w))).
  generalize (mkW (wchan s) w). induction cbs as [|cb cbs IH]; intros s'; [done|]. simpl. rewrite IH.
  unfold rtc_callback. by destruct (dc_event cb), (wc_closures (wchan s')), (pc_event cb).
Qed.
Lemma keeps_script {A} (f : W → A * W) : keeps (script f).
Proof using Type. intros s. unfold script. by destruct (f (browser s)). Qed.
Lemma keeps_await {A} (f : W → A * W) : keeps (await f).
Proof using Type.
  apply undisturbed_bind; [apply keeps_script|]. intros x. apply undisturbed_bind; [|done]. intros s. apply keeps_fire.
Qed.
Lemma keeps_or_fail {A} e (r : result A string) : keeps (or_fail e r).
Proof using Type. by destruct r. Qed.
Lemma keeps_wneed_open : keeps wneed_open.
Proof using Type. apply undisturbed_bind; [done|]. by intros []. Qed.
Lemma keeps_kind k got : keeps (need_kind k got).
Proof using Type. unfold need_kind. by destruct (decide _). Qed.
Lemma rtc_keeps_for_each {A} (f : A → M ()) l : (∀ x, keeps (f x)) → keeps (for_each f l).
Proof using Type. intros Hf. induction l as [|x l IH]; [done|]. by apply undisturbed_bind. Qed.
Hint Resolve keeps_script keeps_await keeps_or_fail keeps_wneed_open keeps_kind : mxdx.

Ltac keep :=
  repeat first [done | solve [auto with mxdx] | apply rtc_keeps_for_each; intros ?
               | apply undisturbed_bind; [|intros ?] | case_match ].
Lemma keeps_hand_over c : keeps (hand_over c).
Proof using Type. unfold hand_over. keep. Qed.
Hint Resolve keeps_hand_over : mxdx.
Lemma keeps_install remote : keeps (wasm_install_remote remote).
Proof using Type. unfold wasm_install_remote, wasm_drain. keep. Qed.
Lemma keeps_ensure_pc servers : keeps (wasm_ensure_pc servers).
Proof using Type. unfold wasm_ensure_pc. keep. Qed.
Hint Resolve keeps_install keeps_ensure_pc : mxdx.
Lemma keeps_accept_offer servers remote : keeps (wasm_accept_offer servers remote).
Proof using Type. unfold wasm_accept_offer, described, install_local. keep. Qed.
Lemma keeps_accept_answer remote : keeps (wasm_accept_answer remote).
Proof using Type. unfold wasm_accept_answer. keep. Qed.
Lemma keeps_candidate c : keeps (wasm_add_ice_candidate c).
Proof using Type. unfold wasm_add_ice_candidate. keep. Qed.
Lemma keeps_send frame : keeps (wasm_send frame).
Proof using Type. unfold wasm_send. keep. Qed.
Lemma keeps_recv : keeps wasm_recv.
Proof using Type. unfold wasm_recv. keep. Qed.

Definition is_offer (op : WasmOp) : bool := match op with WOffer _ => true | _ => false end.
Lemma no_channel op (s : N) : is_offer op = false → wc_dc (wchan s) = None → wc_dc (wchan (wasm_op op s)) = None.
Proof using Type.
  intros Ho Hs. rewrite <-Hs. destruct op as [|servers remote|remote|c|servers|frame| |reason|]; try done; simpl.
  - apply keeps_accept_offer.
  - apply keeps_accept_answer.
  - apply keeps_candidate.
  - apply keeps_send.
  - apply keeps_recv.
  - unfold wasm_close, wlook. rewrite io_bind_observe. by destruct (wc_closed (wchan s)).
  - apply keeps_fire.
Qed.

(** The end of a call that answers from a browser cannot send. The data
    channel of the peer gets its handlers but is stored nowhere: whatever has
    happened to a channel that made no offer, though it was opened and frames
    arrive, each frame that is sent fails as if there were no channel. *)
Theorem answerer_cannot_send ops w frame : Forall (λ op, is_offer op = false) ops →
  let s := wasm_run ops (mkW wasm_new w) in
  wasm_send frame s
  = (Raises (StopErr (if wc_closed (wchan s) then ClosedError else Backend "data channel not yet open")), s).
Proof using Type.
  intros Hops s.
  assert (wc_dc (wchan s) = None) as Hdc.
  { unfold s. assert (wc_dc (wchan (mkW wasm_new w)) = None) as Hn by done. revert Hn. generalize (mkW wasm_new w).
    clear s. induction Hops as [|op ops Ho _ IH]; intros s Hs; [done|]. by apply IH, no_channel. }
  unfold wasm_send, wneed_open, wlook, mbind at 1, Io_bind at 1. rewrite io_bind_observe.
  destruct (wc_closed (wchan s)); [done|]. simpl. rewrite io_bind_observe. by rewrite Hdc.
Qed.
End answerer.

(** ** A browser that takes everything; what it calls back is scripted *)
Definition toy_rtc : Rtc (list (list RtcCallback)) := {|
  rtc_new _ w := (Ok (), w); rtc_create_data_channel _ w := (1, w); rtc_create_offer w := (Ok (Some "v=0"), w);
  rtc_create_answer w := (Ok (Some "v=0"), w); rtc_set_local w := (Ok (), w); rtc_set_remote _ w := (Ok (), w);
  rtc_candidate _ w := (Ok (), w); rtc_add_candidate _ w := (Ok (), w); rtc_send _ _ w := (Ok (), w);
  rtc_close_dc _ w := w; rtc_close_pc w := w; rtc_fired w := match w with [] => ([], w) | cbs :: l => (cbs, l) end |}.
