(* ===== verification/WasmClient.v ===== *)
(** * WasmClient: the Matrix client of the browser ([mxdx-core-wasm/lib.rs])

    Logging in, sessions as JSON, cross-signing, launcher spaces, the events and
    the state of rooms. The Matrix SDK, IndexedDB and [fetch] are interfaces; a
    [JsValue] that is thrown is the message it holds. The free functions of the
    file are in [WasmApi]. *)
From stdpp Require Import strings.
From S2P Require Import Prelude Text Json Effects Rest MatrixClient MatrixDelivery MatrixRooms MatrixSession StateRoom SessionEvents SessionJson ClientCli Toys.
From stdpp Require Import options.

(** ** Interfaces *)
Record Fetch (V : Type) := mkFetch { ft_method : HttpMethod; ft_url : string; ft_bearer : option string; ft_json : option V }.
Arguments mkFetch {V}.
Arguments ft_method {V} f.
Arguments ft_url {V} f.
Arguments ft_bearer {V} f.
Arguments ft_json {V} f.
(** A response; reading its body can fail. *)
Record FetchReply := mkFetchReply { fr_status : Z; fr_text : result string string }.
Definition fetched_ok (r : FetchReply) : bool := bool_decide (200 ≤ fr_status r < 300)%Z.

(** [with_recommended_defaults], with or without [with_encrypted_state]. *)
Inductive WasmInitial : Type := WEncryption (encrypted_state : bool) | WHistoryJoined | WTopic (topic : string).
Inductive RoomPreset : Type := TrustedPrivateChat | PrivateChat | PublicChat.
Record WasmRoom (V : Type) := mkWasmRoom {
  wr_name : option string; wr_alias : option string; wr_invite : list string; wr_is_direct : bool;
  wr_initial_state : list WasmInitial; wr_creation_content : option V; wr_preset : option RoomPreset }.
Arguments mkWasmRoom {V}.
Arguments wr_name {V} w.
Arguments wr_alias {V} w.
Arguments wr_invite {V} w.
Arguments wr_is_direct {V} w.
Arguments wr_initial_state {V} w.
Arguments wr_creation_content {V} w.
Arguments wr_preset {V} w.

Record RoomConfig := mkRoomConfig {
  rc_invite : list string; rc_topic : option string; rc_preset : option string; rc_is_direct : bool }.

(** [br_delete_database] fails where the request is refused; one that is
    accepted ends one way or the other. *)
Class Browser (W C V : Type) := {
  br_fetch : Fetch V → Io W string FetchReply;
  br_indexed_db : W → bool;
  br_delete_database : string → Io W string ();
  br_session : C → W → option MatrixAuthSession;
  br_homeserver : C → W → string;
  br_invited_rooms : W → list string;
  br_create_event : string → Io W string (option RawState);
  br_create_room : WasmRoom V → Io W string string;
  br_now : W → Z;
  encode_uri_component : string → string;
  room_config_from_str : string → result RoomConfig string;
}.

Record WasmMatrixClient (C : Type) := mkWasmClient { wm_client : C; wm_store_name : string }.
Arguments mkWasmClient {C}.
Arguments wm_client {C} w.
Arguments wm_store_name {C} w.

(** [replace([':', '/', '.'], "_")]. *)
Definition sanitize (b : byte) : byte :=
  if bool_decide (b = Byte.x3a) || bool_decide (b = Byte.x2f) || bool_decide (b = Byte.x2e) then Byte.x5f else b.
Definition store_name_of (user server : string) : string :=
  cat ["mxdx_"; user; "_"; from_bytes (sanitize <$> as_bytes server)].

Section wasm.
Context {W C V : Type} `{MatrixSdk W V} `{JsonValue V} `{JsonU64 V} `{JsonBuild V} `{JsonContainers V}
  `{JsonNumbers V} `{RestExternals} `{MatrixAuth W C} `{Browser W C V} (to_string : V → string).
Local Notation M := (Io W string).

(** ** Connecting *)
Definition INDEXEDDB_SUFFIXES : list string := [""; "::matrix-sdk-crypto"; "::matrix-sdk-state"].
Definition delete_indexeddb_store (name : string) : M () :=
  idb ← observe br_indexed_db;
  if idb : bool then
    for_each (λ suffix, attempt (br_delete_database (cat [name; suffix])) ;; mret ()) INDEXEDDB_SUFFIXES
  else mret ().

Definition browser_builder (address : ServerAddress) (store_name : string) : ClientBuilder :=
  mkBuilder address store_name None true.
Definition login_and_sync (client : C) (username password : string) : M () :=
  auth_login_username client username password "mxdx" ;;
  auth_sync_once client (mkSync (from_secs 5) false).

Definition wasm_register (homeserver_url username password registration_token : string) : M (WasmMatrixClient C) :=
  let store_name := store_name_of username homeserver_url in
  client ← auth_build (browser_builder (HomeserverUrl homeserver_url) store_name);
  let body := json_object [("username", json_string username); ("password", json_string password);
    ("auth", json_object [("type", json_string "m.login.registration_token"); ("token", json_string registration_token)])] in
  resp ← io_map_err (λ e, cat ["Registration request failed: "; e])
           (br_fetch (mkFetch POST (cat [homeserver_url; "/_matrix/client/v3/register"]) None (Some body)));
  if negb (fetched_ok resp) then
    raise (cat ["Registration failed: "; match fr_text resp with Ok t => t | Err _ => "unknown error" end])
  else
  login_and_sync client username password ;;
  mret (mkWasmClient client store_name).

Definition wasm_login (server_name username password : string) : M (WasmMatrixClient C) :=
  let store_name := store_name_of username server_name in
  delete_indexeddb_store store_name ;;
  client ← auth_build (browser_builder (server_address server_name) store_name);
  login_and_sync client username password ;;
  mret (mkWasmClient client store_name).

Definition wasm_is_logged_in (c : WasmMatrixClient C) : M bool := observe (λ w, bool_decide (is_Some (auth_user_id (wm_client c) w))).
Definition wasm_user_id (c : WasmMatrixClient C) : M (option string) := observe (auth_user_id (wm_client c)).
Definition wasm_device_id (c : WasmMatrixClient C) : M (option string) := observe (auth_device_id (wm_client c)).

(** ** Sessions as JSON *)
Definition session_json (s : MatrixAuthSession) (homeserver store_name : string) : V :=
  json_object [("user_id", json_string (as_user_id s)); ("device_id", json_string (as_device_id s));
    ("access_token", json_string (as_access_token s)); ("homeserver_url", json_string homeserver);
    ("store_name", json_string store_name)].
Definition wasm_export_session (c : WasmMatrixClient C) : M string :=
  session ← observe (br_session (wm_client c));
  match session with
  | None => raise "No active session to export"
  | Some s =>
      homeserver ← observe (br_homeserver (wm_client c));
      mret (to_string (session_json s homeserver (wm_store_name c)))
  end.

Definition session_field (parsed : V) (key : string) : M string :=
  match get_str parsed key with Some s => mret s | None => raise (cat ["Missing "; key; " in session data"]) end.
Definition wasm_restore_session (session_json : string) : M (WasmMatrixClient C) :=
  parsed ← of_result (from_str session_json);
  homeserver_url ← session_field parsed "homeserver_url";
  user_id ← session_field parsed "user_id";
  device_id ← session_field parsed "device_id";
  access_token ← session_field parsed "access_token";
  let store_name := default (store_name_of user_id homeserver_url) (get_str parsed "store_name") in
  client ← auth_build (browser_builder (HomeserverUrl homeserver_url) store_name);
  user ← of_result (parse_user_id user_id);
  auth_restore_session client (mkAuthSession user device_id access_token) ;;
  auth_sync_once client (mkSync (from_secs 5) false) ;;
  mret (mkWasmClient client store_name).

(** ** Cross-signing *)
Definition wasm_bootstrap_cross_signing (c : WasmMatrixClient C) (password : string) : M () :=
  first ← catch (auth_bootstrap (wm_client c) None);
  match first with
  | Ok _ => mret ()
  | Err e =>
      match be_uiaa e with
      | None => raise (cat ["Cross-signing bootstrap failed (not UIA): "; be_message e])
      | Some session =>
          user ← observe (auth_user_id (wm_client c));
          match user with
          | None => raise "Not logged in"
          | Some user =>
              io_map_err (λ e, cat ["Cross-signing UIA auth failed: "; be_message e])
                (auth_bootstrap (wm_client c) (Some (mkPasswordAuth (localpart_of user) password session)))
          end
      end
  end.
Definition wasm_bootstrap_cross_signing_if_needed (c : WasmMatrixClient C) (password : string) : M () :=
  first ← catch (auth_bootstrap_if_needed (wm_client c));
  match first with
  | Ok _ => mret ()
  | Err _ => wasm_bootstrap_cross_signing c password
  end.

Definition user_of (s : string) : M string :=
  match parse_user_id s with Ok u => mret u | Err e => raise (cat ["Invalid user ID '"; s; "': "; e]) end.
Definition wasm_verify_user (user_id_str : string) : M () :=
  user ← user_of user_id_str;
  identity ← io_map_err (λ e, cat ["Failed to get user identity: "; e]) (sdk_user_identity user);
  match identity with
  | None => raise (cat ["No identity found for "; user_id_str; " — they may not have bootstrapped cross-signing"])
  | Some _ => io_map_err (λ e, cat ["Failed to verify "; user_id_str; ": "; e]) (sdk_verify_identity user)
  end.
Definition wasm_verify_own_identity : M () :=
  user ← observe sdk_user_id;
  match user with
  | None => raise "Not logged in"
  | Some user =>
      identity ← io_map_err (λ e, cat ["Failed to get own identity: "; e]) (sdk_user_identity user);
      match identity with
      | None => raise "No identity found — bootstrap cross-signing first"
      | Some _ => io_map_err (λ e, cat ["Failed to verify own identity: "; e]) (sdk_verify_identity user)
      end
  end.
Definition wasm_is_user_verified (user_id_str : string) : M bool :=
  user ← user_of user_id_str;
  identity ← io_map_err (λ e, cat ["Failed to get user identity: "; e]) (sdk_user_identity user);
  mret (default false identity).

(** ** Rooms *)
Definition wasm_sync_once : M () := sdk_sync_once (mkSync (from_secs 1) false) ;; mret ().
Definition room_of (room_id : string) : M string := of_result (parse_room_id room_id).
(** [RoomId::try_from] and [get_room]. *)
Definition wasm_need_room (room_id : string) : M string :=
  rid ← room_of room_id;
  known ← observe (sdk_get_room rid);
  if known : bool then mret rid else raise (cat ["Room not found: "; room_id]).

Definition wasm_invite_user (room_id user_id : string) : M () :=
  rid ← room_of room_id;
  uid ← of_result (parse_user_id user_id);
  wasm_need_room room_id ;;
  sdk_invite_user_by_id rid uid.
Definition wasm_join_room (room_id : string) : M () := rid ← room_of room_id; sdk_join_room_by_id rid.
Definition wasm_invited_room_ids : M (list string) := observe br_invited_rooms.

Definition mxdx_creation_content_raw (launcher_id role : string) (is_space : bool) : V :=
  json_object ((if is_space then [("type", json_string "m.space")] else [])
    ++ [("org.mxdx.launcher_id", json_string launcher_id); ("org.mxdx.role", json_string role)]).
Definition wasm_named_encrypted_room (name topic : string) : M string :=
  br_create_room (mkWasmRoom (Some name) None [] false [WEncryption true; WTopic topic] None None).
Definition wasm_named_encrypted_mxdx_room (name topic launcher_id role : string) : M string :=
  br_create_room (mkWasmRoom (Some name) None [] false [WEncryption true; WTopic topic]
    (Some (mxdx_creation_content_raw launcher_id role false)) None).

Definition wasm_create_launcher_space (launcher_id : string) : M LauncherTopology :=
  user ← observe sdk_user_id;
  match user with
  | None => raise "Not logged in"
  | Some _ =>
      server_name ← observe sdk_server_name;
      space_id ← br_create_room (mkWasmRoom (Some (cat ["mxdx: "; launcher_id])) None [] false
        [WTopic (cat ["org.mxdx.launcher.space:"; launcher_id])]
        (Some (mxdx_creation_content_raw launcher_id "space" true)) None);
      exec_room_id ← wasm_named_encrypted_mxdx_room (cat ["mxdx: "; launcher_id; " — exec"])
        (cat ["org.mxdx.launcher.exec:"; launcher_id]) launcher_id "exec";
      logs_room_id ← wasm_named_encrypted_mxdx_room (cat ["mxdx: "; launcher_id; " — logs"])
        (cat ["org.mxdx.launcher.logs:"; launcher_id]) launcher_id "logs";
      let via := json_object [("via", json_array [json_string server_name])] in
      for_each (λ child_id,
        known ← observe (sdk_get_room space_id);
        if known : bool then sdk_send_state_event_raw space_id "m.space.child" child_id via
        else raise "Space room not found") [exec_room_id; logs_room_id] ;;
      mret (mkTopology space_id exec_room_id logs_room_id)
  end.

(** The content of a room's [m.room.create]. *)
Definition create_content (room : string) : M (option V) :=
  raw ← attempt (br_create_event room);
  mret (match raw with
        | Ok (Some raw) =>
            match from_str (raw_json raw) with
            | Ok value => Some (default value (get value "content"))
            | Err _ => None
            end
        | _ => None
        end).
Fixpoint create_contents (rooms : list string) : M (list (string * V)) :=
  match rooms with
  | [] => mret []
  | room :: rooms =>
      content ← create_content room;
      rest ← create_contents rooms;
      mret (match content with Some v => (room, v) :: rest | None => rest end)
  end.

(** [find_launcher_space]: the first room of each role. *)
Definition find_role (launcher_id : string) (f : Found) (room : string * V) : Found :=
  if bool_decide (get_str room.2 "org.mxdx.launcher_id" = Some launcher_id) then
    match get_str room.2 "org.mxdx.role" with
    | Some role =>
        if str_eqb role "space" then mkFound (or_first (f_space f) room.1) (f_exec f) (f_logs f)
        else if str_eqb role "exec" then mkFound (f_space f) (or_first (f_exec f) room.1) (f_logs f)
        else if str_eqb role "logs" then mkFound (f_space f) (f_exec f) (or_first (f_logs f) room.1)
        else f
    | None => f
    end
  else f.
Definition wasm_topology (f : Found) : option LauncherTopology :=
  match f_exec f with
  | Some e => Some (mkTopology (default e (f_space f)) e (default e (f_logs f)))
  | None => None
  end.
(** The pure part of the search, over the rooms that have a create event. *)
Definition find_in (launcher_id : string) (rooms : list (string * V)) : option LauncherTopology :=
  wasm_topology (foldl (find_role launcher_id) (mkFound None None None) rooms).
Definition wasm_find_launcher_space (launcher_id : string) : M (option LauncherTopology) :=
  wasm_sync_once ;;
  joined ← observe sdk_joined_rooms;
  rooms ← create_contents joined.*1;
  mret (find_in launcher_id rooms).
Definition wasm_get_or_create_launcher_space (launcher_id : string) : M (option LauncherTopology) :=
  existing ← wasm_find_launcher_space launcher_id;
  match existing with
  | Some t => mret (Some t)
  | None => t ← wasm_create_launcher_space launcher_id; mret (Some t)
  end.

(** [list_launcher_spaces]: spaces in order, the last exec and logs room of
    each launcher. *)
Record Listed := mkListed { ls_spaces : list (string * string); ls_exec : gmap string string; ls_logs : gmap string string }.
Definition list_role (l : Listed) (room : string * V) : Listed :=
  match get_str room.2 "org.mxdx.launcher_id", get_str room.2 "org.mxdx.role" with
  | Some launcher_id, Some role =>
      if str_eqb role "space" then mkListed (ls_spaces l ++ [(launcher_id, room.1)]) (ls_exec l) (ls_logs l)
      else if str_eqb role "exec" then mkListed (ls_spaces l) (<[launcher_id := room.1]> (ls_exec l)) (ls_logs l)
      else if str_eqb role "logs" then mkListed (ls_spaces l) (ls_exec l) (<[launcher_id := room.1]> (ls_logs l))
      else l
  | _, _ => l
  end.
Definition list_in (rooms : list (string * V)) : list (string * LauncherTopology) :=
  let l := foldl list_role (mkListed [] ∅ ∅) rooms in
  omap (λ s, match ls_exec l !! s.1, ls_logs l !! s.1 with
             | Some e, Some g => Some (s.1, mkTopology s.2 e g)
             | _, _ => None
             end) (ls_spaces l).
Definition listing_entry (e : string * LauncherTopology) : V :=
  json_object [("launcher_id", json_string e.1); ("space_id", json_string (space_id e.2));
    ("exec_room_id", json_string (exec_room_id e.2)); ("logs_room_id", json_string (logs_room_id e.2))].
Definition wasm_list_launcher_spaces : M string :=
  joined ← observe sdk_joined_rooms;
  rooms ← create_contents joined.*1;
  mret (to_string (json_array (listing_entry <$> list_in rooms))).

Definition wasm_create_dm_room (user_id : string) : M string :=
  uid ← user_of user_id;
  br_create_room (mkWasmRoom None None [uid] true [WEncryption false; WHistoryJoined] None None).
Definition preset_of (preset : string) : option RoomPreset :=
  if str_eqb preset "trusted_private_chat" then Some TrustedPrivateChat
  else if str_eqb preset "private_chat" then Some PrivateChat
  else if str_eqb preset "public_chat" then Some PublicChat
  else None.
Definition wasm_create_room (config_json : string) : M string :=
  config ← of_result (result_map_err (λ e, cat ["Invalid room config: "; e]) (room_config_from_str config_json));
  br_create_room (mkWasmRoom None None
    (omap (λ u, match parse_user_id u with Ok uid => Some uid | Err _ => None end) (rc_invite config)) (rc_is_direct config)
    ([WEncryption false; WHistoryJoined] ++ match rc_topic config with Some t => [WTopic t] | None => [] end)
    None (rc_preset config ≫= preset_of)).
Definition wasm_create_interactive_session_room (client_user_id : string) : M string := wasm_create_dm_room client_user_id.

(** ** Sending *)
Definition wasm_send_event (room_id event_type content_json : string) : M () :=
  rid ← wasm_need_room room_id;
  content ← of_result (from_str content_json);
  sdk_send_raw rid event_type content ;; mret ().
Definition wasm_send_state_event (room_id event_type state_key content_json : string) : M () :=
  rid ← wasm_need_room room_id;
  content ← of_result (from_str content_json);
  sdk_send_state_event_raw rid event_type state_key content.

Definition wasm_send_terminal_input (dm_room_id session_id data : string) : M () :=
  wasm_send_event dm_room_id "org.mxdx.session.input"
    (to_string (json_object [("session_uuid", json_string session_id); ("data", json_string data)])).
Definition wasm_send_terminal_resize (dm_room_id session_id : string) (cols rows : Z) : M () :=
  wasm_send_event dm_room_id "org.mxdx.session.resize"
    (to_string (json_object [("session_uuid", json_string session_id); ("cols", json_number cols); ("rows", json_number rows)])).
Definition wasm_post_terminal_output (dm_room_id session_id data : string) (seq : Z) : M () :=
  wasm_send_event dm_room_id "org.mxdx.session.output"
    (to_string (json_object [("session_uuid", json_string session_id); ("data", json_string data); ("seq", json_number seq)])).

(** ** Reading *)
Definition parsed_events (chunk : list string) : list V :=
  omap (λ raw, match from_str raw with Ok json => Some json | Err _ => None end) chunk.
Definition type_is (t : string) (json : V) : bool := bool_decide (get_str json "type" = Some t).
Definition readable (json : V) : bool :=
  negb (type_is "m.room.encrypted" json) && negb (type_is "m.room.encryption" json) && negb (type_is "m.room.member" json).
Definition collect (chunk : list string) : list V := List.filter readable (parsed_events chunk).
Definition print_events (l : list V) : string := to_string (json_array l).

Definition wasm_read_room_events (room_id : string) : M string :=
  rid ← room_of room_id;
  known ← observe (sdk_get_room rid);
  if known : bool then
    chunk ← sdk_messages rid; mret (print_events (collect chunk))
  else mret "[]".

(** The loops below stop at a deadline; [None] after [fuel] rounds. The warning
    about events that cannot be decrypted goes to the console. *)
Fixpoint collect_until (fuel : nat) (rid : string) (deadline : Z) : M (option string) :=
  match fuel with
  | 0 => mret None
  | Datatypes.S fuel =>
      now ← observe br_now;
      if decide (now < deadline)%Z then
        wasm_sync_once ;;
        known ← observe (sdk_get_room rid);
        if known : bool then
          chunk ← sdk_messages rid;
          match collect chunk with
          | [] => collect_until fuel rid deadline
          | l => mret (Some (print_events l))
          end
        else collect_until fuel rid deadline
      else mret (Some "[]")
  end.
Definition wasm_collect_room_events (fuel : nat) (room_id : string) (timeout_secs : Z) : M (option string) :=
  rid ← room_of room_id;
  start ← observe br_now;
  collect_until fuel rid (start + from_secs timeout_secs)%Z.

(** The first [limit] of the type, at least one if there is one. *)
Definition wasm_find_room_events (room_id event_type : string) (limit : nat) : M string :=
  wasm_sync_once ;;
  rid ← room_of room_id;
  known ← observe (sdk_get_room rid);
  if known : bool then
    chunk ← sdk_messages rid;
    mret (print_events (take (limit `max` 1) (List.filter (type_is event_type) (parsed_events chunk))))
  else mret "[]".

Definition event_id_of (json : V) : string := default "" (get_str json "event_id").
Definition wanted (event_type : string) (seen : gset string) (json : V) : bool :=
  type_is event_type json && negb (bool_decide (event_id_of json ∈ seen)).
Definition seen_ids_of (chunk : list string) : gset string :=
  list_to_set (omap (λ json, get_str json "event_id") (parsed_events chunk)).
Fixpoint wait_for_event (fuel : nat) (rid event_type : string) (seen : gset string) (deadline : Z) : M (option string) :=
  match fuel with
  | 0 => mret None
  | Datatypes.S fuel =>
      now ← observe br_now;
      if decide (now < deadline)%Z then
        wasm_sync_once ;;
        known ← observe (sdk_get_room rid);
        if known : bool then
          chunk ← sdk_messages rid;
          match List.find (wanted event_type seen) (parsed_events chunk) with
          | Some json => mret (Some (to_string json))
          | None => wait_for_event fuel rid event_type seen deadline
          end
        else wait_for_event fuel rid event_type seen deadline
      else mret (Some "null")
  end.
Definition seen_at_start (rid : string) : M (gset string) :=
  known ← observe (sdk_get_room rid);
  if known : bool then
    chunk ← attempt (sdk_messages rid);
    mret (match chunk with Ok chunk => seen_ids_of chunk | Err _ => ∅ end)
  else mret ∅.
Definition wasm_on_room_event (fuel : nat) (room_id event_type : string) (timeout_secs : Z) : M (option string) :=
  rid ← room_of room_id;
  start ← observe br_now;
  seen ← seen_at_start rid;
  wait_for_event fuel rid event_type seen (start + from_secs timeout_secs)%Z.

(** ** State rooms *)
Definition no_slash (url : string) : string := from_bytes (trim_end_matches SLASH (as_bytes url)).
(** [resp.json()] of a response whose body could be read. *)
Definition reply_json (r : FetchReply) : result V string := let? t := fr_text r in from_str t.

(** What the directory says about an alias; a request that fails says nothing. *)
Definition alias_target (alias : string) : M (option string) :=
  homeserver ← observe sdk_homeserver;
  resp ← attempt (br_fetch (mkFetch GET
    (cat [no_slash homeserver; "/_matrix/client/v3/directory/room/"; encode_uri_component (W := W) (C := C) (V := V) alias]) None None));
  mret (match resp with
        | Ok r => if fetched_ok r then match reply_json r with Ok body => get_str body "room_id" | Err _ => None end else None
        | Err _ => None
        end).
Definition wasm_create_state_room (hostname os_user localpart : string) : M string :=
  br_create_room (mkWasmRoom (Some (cat ["mxdx: state — "; hostname; "."; os_user; "."; localpart]))
    (Some (cat ["mxdx-state-"; hostname; "."; os_user; "."; localpart])) [] false
    [WEncryption false; WHistoryJoined; WTopic (cat ["org.mxdx.worker.state:"; hostname; "."; os_user; "."; localpart])] None None).
Definition wasm_get_or_create_state_room (hostname os_user localpart : string) : M string :=
  user ← observe sdk_user_id;
  match user with
  | None => raise "Not logged in"
  | Some _ =>
      server_name ← observe sdk_server_name;
      target ← alias_target (cat ["#"; "mxdx-state-"; hostname; "."; os_user; "."; localpart; ":"; server_name]);
      match target with
      | Some room_id =>
          rid ← room_of room_id;
          attempt (sdk_join_room_by_id rid) ;;
          mret room_id
      | None =>
          wasm_sync_once ;;
          rooms ← observe sdk_joined_rooms;
          match List.find (λ r, str_eqb (default "" r.2) (cat ["org.mxdx.worker.state:"; hostname; "."; os_user; "."; localpart])) rooms with
          | Some (room_id, _) => mret room_id
          | None => wasm_create_state_room hostname os_user localpart
          end
      end
  end.

Definition session_token : M string :=
  token ← observe sdk_access_token; match token with Some t => mret t | None => raise "No active session" end.
Definition state_path (homeserver room_id : string) : list string :=
  [no_slash homeserver; "/_matrix/client/v3/rooms/"; encode_uri_component (W := W) (C := C) (V := V) room_id; "/state"].
Definition state_get (path : string → list string) (failed : string) : M FetchReply :=
  homeserver ← observe sdk_homeserver;
  token ← session_token;
  io_map_err (λ e, cat [failed; e]) (br_fetch (mkFetch GET (cat (path homeserver)) (Some token) None)).

(** [None]: [JsValue::NULL]. *)
Definition single_state_of (body : string) : option string :=
  match from_str body with
  | Ok val =>
      if bool_decide (is_Some (get val "errcode")) then None else
      match as_object val with Some [] => None | _ => Some body end
  | Err _ => Some body
  end.
Definition read_single_state_event (room_id event_type state_key : string) : M (option string) :=
  resp ← state_get (λ homeserver, state_path homeserver room_id ++
           ["/"; encode_uri_component (W := W) (C := C) (V := V) event_type; "/";
            encode_uri_component (W := W) (C := C) (V := V) state_key]) "State event fetch failed: ";
  if negb (fetched_ok resp) then mret None else
  body ← of_result (fr_text resp);
  mret (single_state_of body).

Definition state_content (event_type : string) (event : V) : option V :=
  if str_eqb (default "" (get_str event "type")) event_type then
    content ← get event "content"; if is_empty_content content then None else Some content
  else None.
Definition read_all_state_events_of_type (room_id event_type : string) : M string :=
  resp ← state_get (λ homeserver, state_path homeserver room_id) "State fetch failed: ";
  if negb (fetched_ok resp) then mret "[]" else
  body ← of_result (reply_json resp);
  match as_array body with
  | Some events => mret (print_events (omap (state_content event_type) events))
  | None => raise serde_type_error
  end.

Definition wasm_write_state_room_config (room_id config_json : string) : M () :=
  wasm_send_state_event room_id WORKER_STATE_CONFIG "" config_json.
Definition wasm_read_state_room_config (room_id : string) : M (option string) :=
  read_single_state_event room_id WORKER_STATE_CONFIG "".
Definition wasm_write_session (room_id device_id uuid session_json : string) : M () :=
  wasm_send_state_event room_id WORKER_STATE_SESSION (cat [device_id; "/"; uuid]) session_json.
Definition wasm_remove_session (room_id device_id uuid : string) : M () :=
  wasm_send_state_event room_id WORKER_STATE_SESSION (cat [device_id; "/"; uuid]) "{}".
Definition wasm_read_sessions (room_id : string) : M string := read_all_state_events_of_type room_id WORKER_STATE_SESSION.
Definition wasm_write_room (room_id room_id_key entry_json : string) : M () :=
  wasm_send_state_event room_id WORKER_STATE_ROOM room_id_key entry_json.
Definition wasm_read_rooms (room_id : string) : M string := read_all_state_events_of_type room_id WORKER_STATE_ROOM.
Definition entity_event_type (entity_type : string) : M string :=
  if str_eqb entity_type "client" then mret WORKER_STATE_TRUSTED_CLIENT
  else if str_eqb entity_type "coordinator" then mret WORKER_STATE_TRUSTED_COORDINATOR
  else raise (cat ["Unknown entity type: "; entity_type]).
Definition wasm_write_trusted_entity (room_id entity_type user_id entity_json : string) : M () :=
  event_type ← entity_event_type entity_type; wasm_send_state_event room_id event_type user_id entity_json.
Definition wasm_read_trusted_entities (room_id entity_type : string) : M string :=
  event_type ← entity_event_type entity_type; read_all_state_events_of_type room_id event_type.
Definition wasm_write_topology (room_id topology_json : string) : M () :=
  wasm_send_state_event room_id WORKER_STATE_TOPOLOGY "" topology_json.
Definition wasm_read_topology (room_id : string) : M (option string) :=
  read_single_state_event room_id WORKER_STATE_TOPOLOGY "".
Definition wasm_state_room_event_types : string :=
  to_string (json_object [("WORKER_STATE_CONFIG", json_string WORKER_STATE_CONFIG);
    ("WORKER_STATE_IDENTITY", json_string WORKER_STATE_IDENTITY); ("WORKER_STATE_ROOM", json_string WORKER_STATE_ROOM);
    ("WORKER_STATE_SESSION", json_string WORKER_STATE_SESSION); ("WORKER_STATE_TOPOLOGY", json_string WORKER_STATE_TOPOLOGY);
    ("WORKER_STATE_ROOM_POINTER", json_string WORKER_STATE_ROOM_POINTER);
    ("WORKER_STATE_TRUSTED_CLIENT", json_string WORKER_STATE_TRUSTED_CLIENT);
    ("WORKER_STATE_TRUSTED_COORDINATOR", json_string WORKER_STATE_TRUSTED_COORDINATOR)]).
End wasm.

(** ** Sessions *)
Section sessions.
Context {W C V : Type} `{JL : JsonLaws V} `{JsonI64 V} (to_string : V → string) `{CJ : !CliJsonLaws V to_string}
  `{MatrixAuth W C} `{Browser W C V}.

Lemma session_fields s h n : NoDup (fst <$> [("user_id", as_user_id s); ("device_id", as_device_id s);
  ("access_token", as_access_token s); ("homeserver_url", h); ("store_name", n)]).
Proof using Type. apply (bool_decide_unpack _). reflexivity. Qed.

(** C30: A session survives its export. Restoring what was exported connects to
    the same homeserver with the same database, as the same user and device and
    with the same token, and syncs; it logs in nowhere and no field is lost. *)
Theorem exported_session_restores (c : WasmMatrixClient C) s text w w' :
  br_session (wm_client c) w = Some s → parse_user_id (as_user_id s) = Ok (as_user_id s) →
  wasm_export_session to_string c w = (Returns text, w') →
  w' = w ∧ ∀ w2,
    wasm_restore_session text w2 =
    (client ← auth_build (browser_builder (HomeserverUrl (br_homeserver (wm_client c) w)) (wm_store_name c));
     auth_restore_session client s ;;
     auth_sync_once client (mkSync (from_secs 5) false) ;;
     mret (mkWasmClient client (wm_store_name c))) w2.
Proof using All.
  intros Hs Hu. unfold wasm_export_session. rewrite io_bind_observe, Hs, io_bind_observe. intros [= <- <-].
  split; [done|]. intros w2. set (h := br_homeserver (wm_client c) w). set (n := wm_store_name c).
  assert (∀ k x, (k, x) ∈ [("user_id", as_user_id s); ("device_id", as_device_id s);
    ("access_token", as_access_token s); ("homeserver_url", h); ("store_name", n)] →
    get_str (session_json s h n) k = Some x) as Hget.
  { intros k x Hin. apply get_str_object; [apply (session_fields s h n)|].
    apply (list_elem_of_fmap_2 (λ kv : string * string, (kv.1, json_string kv.2)) _ (k, x)) in Hin. exact Hin. }
  unfold wasm_restore_session. rewrite printed_reads_back. erewrite io_bind_step by reflexivity.
  unfold session_field.
  rewrite (Hget "homeserver_url" h), (Hget "user_id" (as_user_id s)), (Hget "device_id" (as_device_id s)),
    (Hget "access_token" (as_access_token s)), (Hget "store_name" n) by (rewrite list_elem_of_In; simpl; tauto).
  do 4 erewrite io_bind_step by reflexivity. rewrite Hu. unfold mbind, Io_bind. simpl.
  destruct (auth_build _ w2) as [[client|e|] w3]; [|done..]. by destruct s.
Qed.
End sessions.

(** The name of the database does not tell users and servers apart. *)
Lemma store_name_ambiguous :
  store_name_of "a_b" "c" = store_name_of "a" "b.c" ∧ store_name_of "u" "https://h" = store_name_of "u" "https_//h".
Proof. by vm_compute. Qed.

(** ** Discovery *)
Section discovery.
Context {V : Type} `{JsonValue V} `{JsonBuild V}.

(** The rooms of one role of a launcher, in order. *)
Definition role_rooms (launcher_id role : string) (rooms : list (string * V)) : list string :=
  omap (λ r, if bool_decide (get_str r.2 "org.mxdx.launcher_id" = Some launcher_id) && bool_decide (get_str r.2 "org.mxdx.role" = Some role)
             then Some r.1 else None) rooms.

Lemma or_first_head x o (l : list string) : or_first (match o with Some y => Some y | None => head l end) x
  = match o with Some y => Some y | None => head (l ++ [x]) end.
Proof using Type. destruct o, l; done. Qed.
Lemma head_snoc (l : list string) x : head (l ++ [x]) = or_first (head l) x.
Proof using Type. by destruct l. Qed.

Lemma find_in_rooms lid rooms :
  foldl (find_role lid) (mkFound None None None) rooms =
  mkFound (head (role_rooms lid "space" rooms)) (head (role_rooms lid "exec" rooms)) (head (role_rooms lid "logs" rooms)).
Proof using Type.
  induction rooms as [|r rooms IH] using rev_ind; [done|].
  rewrite foldl_app, IH. unfold role_rooms. rewrite !omap_app. simpl. unfold find_role.
  destruct (bool_decide (get_str r.2 "org.mxdx.launcher_id" = Some lid)); simpl; [|by rewrite !app_nil_r].
  destruct (get_str r.2 "org.mxdx.role") as [role|]; simpl; [|by rewrite !app_nil_r].
  destruct (str_eqb role "space") eqn:E1; [apply str_eqb_true in E1 as ->; simpl; by rewrite !app_nil_r, head_snoc|].
  destruct (str_eqb role "exec") eqn:E2; [apply str_eqb_true in E2 as ->; simpl; by rewrite !app_nil_r, head_snoc|].
  destruct (str_eqb role "logs") eqn:E3; [apply str_eqb_true in E3 as ->; simpl; by rewrite !app_nil_r, head_snoc|].
  apply str_eqb_false in E1, E2, E3.
  rewrite !bool_decide_eq_false_2 by congruence. simpl. by rewrite !app_nil_r.
Qed.

Lemma list_in_rooms lid rooms :
  let l := foldl list_role (mkListed [] ∅ ∅) rooms in
  (∀ s, (lid, s) ∈ ls_spaces l ↔ s ∈ role_rooms lid "space" rooms) ∧
  ls_exec l !! lid = last (role_rooms lid "exec" rooms) ∧ ls_logs l !! lid = last (role_rooms lid "logs" rooms).
Proof using Type.
  induction rooms as [|r rooms IH] using rev_ind; simpl.
  { split; [|done]. intros s. by rewrite !elem_of_nil. }
  rewrite foldl_app. simpl. destruct (foldl list_role _ rooms) as [sp ex lo]. simpl in IH. destruct IH as (IHs & IHe & IHl).
  unfold role_rooms in *. rewrite !omap_app. simpl. unfold list_role. simpl.
  destruct (get_str r.2 "org.mxdx.launcher_id") as [lid'|]; [|rewrite !app_nil_r; by split_and!].
  destruct (get_str r.2 "org.mxdx.role") as [role|]; [|rewrite !andb_false_r; simpl; rewrite !app_nil_r; by split_and!].
  destruct (decide (lid' = lid)) as [->|Hne].
  - rewrite (bool_decide_eq_true_2 (Some lid = Some lid)) by done. simpl.
    destruct (str_eqb role "space") eqn:E1; [apply str_eqb_true in E1 as ->; simpl; rewrite !app_nil_r; split_and!; [|done..]|].
    { intros s. rewrite !elem_of_app, IHs, !list_elem_of_singleton. split; (intros [?|Heq]; [by left|right]); congruence. }
    destruct (str_eqb role "exec") eqn:E2; [apply str_eqb_true in E2 as ->; simpl; rewrite !app_nil_r; split_and!; [done| |done]|].
    { by rewrite lookup_insert_eq, last_snoc. }
    destruct (str_eqb role "logs") eqn:E3; [apply str_eqb_true in E3 as ->; simpl; rewrite !app_nil_r; split_and!; [done..|]|].
    { by rewrite lookup_insert_eq, last_snoc. }
    apply str_eqb_false in E1, E2, E3. rewrite !bool_decide_eq_false_2 by congruence. simpl. rewrite !app_nil_r. by split_and!.
  - rewrite (bool_decide_eq_false_2 (Some lid' = Some lid)) by congruence. simpl. rewrite !app_nil_r.
    destruct (str_eqb role "space"); simpl.
    { split_and!; [|done..]. intros s. rewrite elem_of_app, IHs, list_elem_of_singleton. split; [intros [?|Heq]; [done|congruence]|by left]. }
    destruct (str_eqb role "exec"); simpl; [rewrite lookup_insert_ne by done; by split_and!|].
    destruct (str_eqb role "logs"); simpl; [rewrite lookup_insert_ne by done; by split_and!|by split_and!].
Qed.

(** Which rooms the browser takes for those of a launcher. A search takes the
    first room of each role, the exec room standing in for the others; a
    listing has an entry for each space of a launcher that has both other rooms,
    with the last of each. Where no role is taken twice they agree. *)
Theorem browser_discovery lid (rooms : list (string * V)) t :
  (find_in lid rooms = Some t ↔
     head (role_rooms lid "exec" rooms) = Some (exec_room_id t) ∧
     space_id t = default (exec_room_id t) (head (role_rooms lid "space" rooms)) ∧
     logs_room_id t = default (exec_room_id t) (head (role_rooms lid "logs" rooms))) ∧
  ((lid, t) ∈ list_in rooms ↔
     space_id t ∈ role_rooms lid "space" rooms ∧
     last (role_rooms lid "exec" rooms) = Some (exec_room_id t) ∧
     last (role_rooms lid "logs" rooms) = Some (logs_room_id t)) ∧
  ((∀ role, length (role_rooms lid role rooms) ≤ 1) → (lid, t) ∈ list_in rooms → find_in lid rooms = Some t).
Proof using Type.
  assert (find_in lid rooms = Some t ↔
     head (role_rooms lid "exec" rooms) = Some (exec_room_id t) ∧
     space_id t = default (exec_room_id t) (head (role_rooms lid "space" rooms)) ∧
     logs_room_id t = default (exec_room_id t) (head (role_rooms lid "logs" rooms))) as Hf.
  { unfold find_in. rewrite find_in_rooms. unfold wasm_topology. simpl.
    destruct (head (role_rooms lid "exec" rooms)) as [e|]; [|split; [done|by intros [? _]]].
    destruct t as [sp ex lo]. simpl. split; [by intros [= <- <- <-]|]. by intros ([= <-] & -> & ->). }
  assert ((lid, t) ∈ list_in rooms ↔
     space_id t ∈ role_rooms lid "space" rooms ∧
     last (role_rooms lid "exec" rooms) = Some (exec_room_id t) ∧
     last (role_rooms lid "logs" rooms) = Some (logs_room_id t)) as Hl.
  { unfold list_in. destruct (list_in_rooms lid rooms) as (Hs & He & Hg). rewrite list_elem_of_omap. split.
    - intros ([l s] & Hin & Heq). simpl in Heq. repeat case_match; try done. simplify_eq. simpl. by rewrite <-Hs, <-He, <-Hg.
    - intros (Hin & Hex & Hlo). exists (lid, space_id t). rewrite Hs. split; [done|]. simpl. rewrite He, Hg, Hex, Hlo. by destruct t. }
  split; [done|]. split; [done|]. intros Huniq Hin. apply Hl in Hin as (Hs & He & Hg). apply Hf.
  pose proof (Huniq "space") as U1. pose proof (Huniq "exec") as U2. pose proof (Huniq "logs") as U3.
  destruct (role_rooms lid "space" rooms) as [|s [|]]; simpl in *; [by apply elem_of_nil in Hs| |lia].
  apply list_elem_of_singleton in Hs.
  destruct (role_rooms lid "exec" rooms) as [|e [|]]; simpl in *; [done| |lia].
  destruct (role_rooms lid "logs" rooms) as [|g [|]]; simpl in *; [done| |lia]. simplify_eq. done.
Qed.

(** Browser and worker mark the rooms of a launcher alike. *)
Lemma creation_content_agrees lid role is_space :
  mxdx_creation_content_raw lid role is_space = mxdx_creation_content (V := V) lid role is_space.
Proof using Type. done. Qed.
End discovery.

(** ** What the browser reads *)
Section reading.
Context {W C V : Type} `{MatrixSdk W V} `{JsonValue V} `{JsonU64 V} `{JsonBuild V} `{JsonContainers V}
  `{JsonNumbers V} `{RestExternals} `{MatrixAuth W C} `{Browser W C V} (to_string : V → string).

(** The state of a room whose state is encrypted. The browser asks the server
    for the events as they are stored: nothing that a worker wrote to such a
    room is seen, and the answer is the same as for an empty room. *)
Theorem encrypted_state_invisible room event_type resp body events w w1 :
  state_get (λ homeserver, state_path (C := C) homeserver room) "State fetch failed: " w = (Returns resp, w1) →
  fetched_ok resp = true → reply_json resp = Ok body → as_array body = Some events →
  Forall (λ e, get_str e "type" = Some "m.room.encrypted") events → event_type ≠ "m.room.encrypted" →
  read_all_state_events_of_type (C := C) to_string room event_type w = (Returns (print_events to_string []), w1).
Proof using Type.
  intros Hr Hok Hb Ha Hall Hne. unfold read_all_state_events_of_type.
  rewrite (io_bind_step _ _ _ _ _ Hr), Hok. simpl. rewrite Hb. erewrite io_bind_step by reflexivity. rewrite Ha.
  replace (omap (state_content event_type) events) with (@nil V); [done|].
  clear Ha. induction Hall as [|e l He _ IH]; [done|]. simpl. unfold state_content at 1. rewrite He. simpl.
  destruct (str_eqb "m.room.encrypted" event_type) eqn:E; [apply str_eqb_true in E; congruence|done].
Qed.

(** Whose room it is is not asked: what the directory names for the alias is
    the state room, even if it cannot be joined. *)
Theorem alias_not_checked hostname os_user localpart user room w w1 :
  sdk_user_id w = Some user →
  alias_target (C := C) (cat ["#"; "mxdx-state-"; hostname; "."; os_user; "."; localpart; ":"; sdk_server_name w]) w = (Returns (Some room), w1) →
  parse_room_id room = Ok room → (sdk_join_room_by_id room w1).1 ≠ Panics →
  (wasm_get_or_create_state_room (C := C) hostname os_user localpart w).1 = Returns room.
Proof using Type.
  intros Hu Ha Hp Hj. unfold wasm_get_or_create_state_room. rewrite io_bind_observe, Hu, io_bind_observe.
  rewrite (io_bind_step _ _ _ _ _ Ha). unfold room_of. rewrite Hp. erewrite io_bind_step by reflexivity.
  unfold mbind, Io_bind, attempt. by destruct (sdk_join_room_by_id room w1) as [[[]| |] ?].
Qed.

(** *** Waiting for an event *)
(** Each sync takes at least [tick] of the browser's clock, which is not turned
    back. *)
Class WaitLaws (tick : Z) : Prop := {
  tick_positive : (0 < tick)%Z;
  sync_ticks st w : (br_now w + tick ≤ br_now (sdk_sync_once st w).2)%Z;
  messages_forward r w : (br_now w ≤ br_now (sdk_messages r w).2)%Z;
}.

(** A state in which the room held the events [chunk]. *)
Definition held (rid : string) (chunk : list string) : Prop := ∃ w w', sdk_messages rid w = (Returns chunk, w').

Lemma wait_until_result fuel rid ty seen deadline w text w' :
  wait_for_event to_string fuel rid ty seen deadline w = (Returns (Some text), w') →
  text = "null" ∧ (deadline ≤ br_now w')%Z ∨
  ∃ chunk json, held rid chunk ∧ json ∈ parsed_events chunk ∧ text = to_string json ∧
    get_str json "type" = Some ty ∧ event_id_of json ∉ seen.
Proof using Type.
  revert w. induction fuel as [|fuel IH]; intros w; [done|]. cbn [wait_for_event]. rewrite io_bind_observe.
  destruct (decide (br_now w < deadline)%Z) as [Hlt|Hge]; [|intros [= <- <-]; left; split; [done|lia]].
  intros (u & w1 & Hs & Hk)%io_bind_returns. rewrite io_bind_observe in Hk.
  destruct (sdk_get_room rid w1); [|by apply IH in Hk].
  apply io_bind_returns in Hk as (chunk & w2 & Hm & Hk).
  destruct (List.find _ (parsed_events chunk)) as [json|] eqn:Hf; [|by apply IH in Hk].
  injection Hk as <- <-. right. apply find_some in Hf as [Hin Hw].
  apply andb_true_iff in Hw as [Ht Hn]. exists chunk, json.
  split; [by eexists _, _|]. split; [by apply list_elem_of_In|]. split; [done|].
  split; [by apply bool_decide_eq_true in Ht|]. apply negb_true_iff in Hn. by apply bool_decide_eq_false in Hn.
Qed.

Lemma wait_until_ends tick `{HW : !WaitLaws tick} fuel rid ty seen deadline w :
  (deadline - br_now w ≤ Z.of_nat fuel * tick)%Z →
  (wait_for_event to_string (S fuel) rid ty seen deadline w).1 ≠ Returns None.
Proof using Type.
  pose proof tick_positive as Hp. revert w. induction fuel as [|fuel IH]; intros w Hf; cbn [wait_for_event]; rewrite io_bind_observe.
  - by rewrite decide_False by lia.
  - destruct (decide (br_now w < deadline)%Z) as [Hlt|Hge]; [|done].
    assert (match wasm_sync_once w with (Returns _, w1) => (br_now w + tick ≤ br_now w1)%Z | _ => True end) as Ht.
    { unfold wasm_sync_once, mbind, Io_bind. pose proof (sync_ticks (mkSync (from_secs 1) false) w) as Ht.
      by destruct (sdk_sync_once _ w) as [[l|e|] w1]. }
    unfold mbind at 1, Io_bind at 1. destruct (wasm_sync_once w) as [[u|e|] w1]; [|done..]. rewrite io_bind_observe.
    destruct (sdk_get_room rid w1); [|apply IH; lia].
    unfold mbind at 1, Io_bind at 1. pose proof (messages_forward rid w1) as Hm.
    destruct (sdk_messages rid w1) as [[chunk|e|] w2]; simpl in Hm |- *; [|done..].
    destruct (List.find _ _); [done|]. apply IH. lia.
Qed.

Lemma seen_at_start_spec tick `{HW : !WaitLaws tick} rid w :
  match seen_at_start rid w with
  | (Returns seen, w1) =>
      (br_now w ≤ br_now w1)%Z ∧
      ∀ old w', sdk_get_room rid w = true → sdk_messages rid w = (Returns old, w') →
        ∀ e id, e ∈ parsed_events old → get_str e "event_id" = Some id → id ∈ seen
  | (Raises _, _) => False
  | (Panics, _) => True
  end.
Proof using Type.
  unfold seen_at_start. rewrite io_bind_observe. destruct (sdk_get_room rid w); [|by simpl; split].
  unfold attempt, mbind, Io_bind. pose proof (messages_forward rid w) as Hm.
  destruct (sdk_messages rid w) as [[old|e|] w1]; simpl in *; [|by split|done].
  split; [done|]. intros old' w' _ [= <- <-] e id He Hid.
  apply elem_of_list_to_set, list_elem_of_omap. by exists e.
Qed.

(** C35: Waiting for an event of a type. The wait is over: with a round per tick
    of the timeout it does not run out of rounds. What it gives is the whole
    text of an event of that type that the room holds, not of its content
    alone; or [null], and that only once the time is up. An event that has an
    id was not among those that could be read when the wait began. One without
    an id may well have been: such an event is taken whenever it is read. *)
Theorem waits_for_new_event tick `{HW : !WaitLaws tick} fuel room ty timeout_secs w rid :
  parse_room_id room = Ok rid → (from_secs timeout_secs ≤ Z.of_nat fuel * tick)%Z →
  (wasm_on_room_event to_string (S fuel) room ty timeout_secs w).1 ≠ Returns None ∧
  ∀ text w', wasm_on_room_event to_string (S fuel) room ty timeout_secs w = (Returns (Some text), w') →
    text = "null" ∧ (br_now w + from_secs timeout_secs ≤ br_now w')%Z ∨
    ∃ chunk json, held rid chunk ∧ json ∈ parsed_events chunk ∧ text = to_string json ∧ get_str json "type" = Some ty ∧
      match get_str json "event_id" with
      | Some id => ∀ old w1, sdk_get_room rid w = true → sdk_messages rid w = (Returns old, w1) →
          ∀ e, e ∈ parsed_events old → get_str e "event_id" ≠ Some id
      | None => True
      end.
Proof using Type.
  intros Hp Hf. unfold wasm_on_room_event, room_of. rewrite Hp.
  erewrite io_bind_step by reflexivity. rewrite io_bind_observe. set (deadline := (br_now w + _)%Z).
  pose proof (seen_at_start_spec tick rid w) as Hseen. unfold mbind, Io_bind.
  destruct (seen_at_start rid w) as [[seen|e|] w1]; [|done|done]. destruct Hseen as [Hnow Hseen].
  split; [apply (wait_until_ends tick); subst deadline; lia|].
  intros text w' [?|(chunk & json & ? & ? & ? & ? & Hn)]%wait_until_result; [by left|right].
  exists chunk, json. do 4 (split; [done|]). unfold event_id_of in Hn.
  destruct (get_str json "event_id") as [id|]; [|done]. intros old w2 Hk Ho e He Hid. by eapply Hn, Hseen.
Qed.

(** The first round takes an event without an id, also when it was there before
    the wait began. *)
Theorem event_without_id_taken fuel rid ty seen deadline (w w1 w2 : W) chunk json rest :
  (br_now w < deadline)%Z → wasm_sync_once w = (Returns (), w1) → sdk_get_room rid w1 = true →
  sdk_messages rid w1 = (Returns chunk, w2) → parsed_events chunk = json :: rest →
  get_str json "type" = Some ty → get_str json "event_id" = None → "" ∉ seen →
  wait_for_event to_string (S fuel) rid ty seen deadline w = (Returns (Some (to_string json)), w2).
Proof using Type.
  intros Hlt Hs Hk Hm Hc Ht Hid Hn. cbn [wait_for_event]. rewrite io_bind_observe, decide_True by done.
  rewrite (io_bind_step _ _ _ _ _ Hs), io_bind_observe, Hk, (io_bind_step _ _ _ _ _ Hm), Hc. cbn [List.find].
  unfold wanted at 1, type_is, event_id_of. rewrite Ht, Hid. by rewrite !bool_decide_true, bool_decide_false by done.
Qed.
End reading.

(** ** A browser that is nothing but a clock *)
Definition toy_browser_auth : MatrixAuth Z () := {|
  auth_build _ := mret (); auth_login_username _ _ _ _ := mret (); auth_restore_session _ _ := mret ();
  auth_sync_once _ _ := mret (); auth_user_id _ _ := Some "@bob:x"; auth_device_id _ _ := Some "DEV";
  auth_session _ _ := Some (Some "token"); auth_bootstrap _ _ := mret (); auth_bootstrap_if_needed _ := mret ();
  backups_wait _ := mret (); backups_are_enabled _ := mret true; backups_exists_on_server _ := mret false;
  backups_disable_and_delete _ := mret (); backups_create _ := mret (); backups_download_room_keys _ _ := mret ();
  auth_joined_rooms _ _ := []; parse_user_id := Ok; localpart_of s := s |}.
Definition toy_browser : Browser Z () TJson := {|
  br_fetch _ := raise "offline"; br_indexed_db _ := true; br_delete_database _ := mret ();
  br_session _ _ := Some (mkAuthSession "@bob:x" "DEV" "token"); br_homeserver _ _ := "h/"; br_invited_rooms _ := [];
  br_create_event _ := mret None; br_create_room _ := mret "!new"; br_now := id; encode_uri_component s := s;
  room_config_from_str _ := Err "not a config" |}.
#[local] Existing Instances toy_json toy_u64 toy_containers toy_build toy_numbers toy_externals toy_json_laws
  toy_i64 toy_cli_laws toy_browser_auth toy_browser.

Lemma exported_session_restores_witness :
  let c := mkWasmClient () "mxdx_bob_x" in
  let text := t_print (session_json (mkAuthSession "@bob:x" "DEV" "token") "h/" "mxdx_bob_x") in
  wasm_export_session t_print c 5%Z = (Returns text, 5%Z) ∧ wasm_restore_session text 9%Z = (Returns c, 9%Z).
Proof.
  intros c text. assert (wasm_export_session t_print c 5%Z = (Returns text, 5%Z)) as He by reflexivity.
  split; [exact He|].
  destruct (exported_session_restores (C := ()) t_print c (mkAuthSession "@bob:x" "DEV" "token") text 5%Z 5%Z)
    as [_ Hr]; [reflexivity|reflexivity|exact He|].
  rewrite (Hr 9%Z). reflexivity.
Defined.

(** An event without an id counts as new each time it is read. *)
Definition toy_waiting : Feed Z :=
  mkFeed id (λ _ _ _ z, z) (λ z, (Returns [], (z + 1000000000)%Z)) [t_print (TObj [("type", TStr "m.call.answer")])] [] [].
Lemma toy_wait_laws : WaitLaws (C := ()) (H := toy_sdk_with toy_waiting) (from_secs 1).
Proof. split; intros; unfold from_secs; simpl; unfold id; lia. Qed.
Lemma waits_for_new_event_witness :
  let answer := TObj [("type", TStr "m.call.answer")] in
  let wait ty := wasm_on_room_event (C := ()) (H := toy_sdk_with toy_waiting) t_print 4 "!r" ty 3 0%Z in
  wait "m.call.answer" = (Returns (Some (t_print answer)), 1000000000%Z) ∧ (wait "m.call.hangup").1 = Returns (Some "null") ∧
  (wait "m.call.hangup").1 ≠ Returns None.
Proof.
  intros answer wait. split; [vm_compute; reflexivity|]. split; [vm_compute; reflexivity|].
  exact (proj1 (waits_for_new_event (C := ()) (H := toy_sdk_with toy_waiting) t_print (from_secs 1) (HW := toy_wait_laws) 3 "!r" "m.call.hangup"
    3 0%Z "!r" eq_refl ltac:(by vm_compute))).
Defined.
