(* ===== verification/WasmApi.v ===== *)
(** * WasmApi: the free functions for JavaScript ([mxdx-core-wasm/lib.rs])

    Building and checking the contents of session events, the session crypto of
    a peer-to-peer call as strings, and TURN credentials as the browser fetches
    them. *)
From S2P Require Import Prelude Text Json Float64 P2PCrypto Turn Signaling Effects Rest MatrixClient MatrixDelivery Fabric SessionEvents Coordinator SessionJson ClientCli MatrixSession WasmClient Toys.
From stdpp Require Import options.

(** ** Session events *)
(** What JavaScript passes for a number or nothing. *)
Inductive JsArg : Type := JsNull | JsUndefined | JsNumber (x : f64) | JsOther.

(** [x as u64]: truncated towards zero and kept in range; a NaN is zero. *)
Definition f64_as_u64 (x : f64) : Z :=
  match x with
  | S754_finite false m e => Z.min (2 ^ 64 - 1) (if decide (0 ≤ e)%Z then Z.pos m * 2 ^ e else Z.pos m / 2 ^ (- e))
  | S754_infinity false => 2 ^ 64 - 1
  | _ => 0
  end%Z.
Definition timeout_arg (x : JsArg) : result (option Z) string :=
  match x with
  | JsNull | JsUndefined => Ok None
  | JsNumber x => Ok (Some (f64_as_u64 x))
  | JsOther => Err "timeout_seconds must be a number or null"
  end.
(** [args]: what [serde_wasm_bindgen] makes of the array; [uuid]: a fresh one. *)
Definition new_session_task (uuid bin : string) (args : result (list string) string) (interactive no_room_output : bool)
    (timeout_seconds : JsArg) (heartbeat_interval_seconds : Z) (sender_id : string) : result SessionTask string :=
  let? args := args in
  let? timeout := timeout_arg timeout_seconds in
  Ok (mkSessionTask uuid sender_id bin args None None interactive no_room_output timeout heartbeat_interval_seconds
        None [] None None None).

(** [serde_json::from_str] and [to_string] of a type. *)
Class SerdeText (T : Type) := { de_text : string → result T string; ser_text : T → result string string }.
Class SerdeTextLaws (T : Type) `{SerdeText T} : Prop := de_ser_text x t : ser_text x = Ok t → de_text t = Ok x.
Section reprint.
Context {T : Type} `{SerdeText T}.
(** Parsed and printed again. *)
Definition reprint (json : string) : result string string := let? x := de_text json in ser_text x.
End reprint.
Definition parse_session_result `{SerdeText SessionResult} : string → result string string := reprint.
Definition parse_active_session `{SerdeText ActiveSessionState} : string → result string string := reprint.
Definition parse_completed_session `{SerdeText CompletedSessionState} : string → result string string := reprint.
Definition parse_worker_info `{SerdeText WorkerInfo} : string → result string string := reprint.

Definition WORKER_INFO : string := "org.mxdx.worker.info".

Section api.
Context {V : Type} `{JsonValue V} `{JsonU64 V} `{JsonBuild V} `{JsonContainers V} `{JsonNumbers V} (to_string : V → string).

Definition create_session_task (entries : gmap string string → list (string * string)) (uuid bin : string)
    (args : result (list string) string) (interactive no_room_output : bool) (timeout_seconds : JsArg)
    (heartbeat_interval_seconds : Z) (sender_id : string) : result string string :=
  let? t := new_session_task uuid bin args interactive no_room_output timeout_seconds heartbeat_interval_seconds sender_id in
  Ok (to_string (task_value entries t)).

Definition session_event_types : string :=
  to_string (json_object [("SESSION_TASK", json_string SESSION_TASK); ("SESSION_START", json_string SESSION_START);
    ("SESSION_OUTPUT", json_string SESSION_OUTPUT); ("SESSION_HEARTBEAT", json_string SESSION_HEARTBEAT);
    ("SESSION_RESULT", json_string SESSION_RESULT); ("SESSION_INPUT", json_string SESSION_INPUT);
    ("SESSION_SIGNAL", json_string SESSION_SIGNAL); ("SESSION_RESIZE", json_string SESSION_RESIZE);
    ("SESSION_CANCEL", json_string SESSION_CANCEL); ("WORKER_INFO", json_string WORKER_INFO)]).

(** ** The crypto of a call, as strings *)
Definition CryptoError_fmt (e : CryptoError) : string :=
  match e with
  | AeadFailure => "AES-GCM operation failed (tag mismatch or invalid key)"
  | InvalidBase64 field source => cat ["invalid base64 in EncryptedFrame field "; field; ": "; source]
  | InvalidIvLength got => cat ["invalid IV length: got "; show (Z.of_nat got); " bytes, expected 12"]
  | InvalidKeyLength got => cat ["invalid key length: got "; show (Z.of_nat got); " bytes, expected 32"]
  end.
Definition frame_value (f : EncryptedFrame) : V := json_object [("c", json_string (ciphertext f)); ("iv", json_string (iv f))].

Section crypto.
Context `{B64 : Base64} `{AE : Aead} (frame_from_str : string → result EncryptedFrame string).
Record P2PCryptoWithKey := mkWithKey { wk_crypto : P2PCrypto; wk_key : string }.
(** [raw]: 32 random bytes; [iv_bytes]: 12. *)
Definition p2p_generate (raw : Bytes) : P2PCryptoWithKey := let '(crypto, sealed) := generate raw in mkWithKey crypto (to_base64 sealed).
Definition p2p_from_key (base64_key : string) : result P2PCrypto string :=
  let? sealed := result_map_err (λ e, cat ["invalid session key: "; CryptoError_fmt e]) (from_base64 base64_key) in
  Ok (from_sealed sealed).
Definition p2p_encrypt (c : P2PCrypto) (iv_bytes : Bytes) (plaintext : string) : result string string :=
  let? frame := result_map_err (λ e, cat ["encrypt: "; CryptoError_fmt e]) (encrypt c iv_bytes (as_bytes plaintext)) in
  Ok (to_string (frame_value frame)).
Definition p2p_decrypt (utf8_error : Bytes → string) (c : P2PCrypto) (ciphertext_json : string) : result string string :=
  let? frame := result_map_err (λ e, cat ["parse frame: "; e]) (frame_from_str ciphertext_json) in
  let? plaintext := result_map_err (λ e, cat ["decrypt: "; CryptoError_fmt e]) (decrypt c frame) in
  match from_utf8 plaintext with
  | Some s => Ok s
  | None => Err (cat ["utf8: "; utf8_error plaintext])
  end.
Definition generate_session_key (raw : Bytes) : string := wk_key (p2p_generate raw).
Definition create_p2p_crypto (base64_key : string) : result P2PCrypto string := p2p_from_key base64_key.
End crypto.

(** ** TURN credentials *)
(** [uris] is an array and has elements. *)
Definition has_uris (val : V) : bool :=
  match get val "uris" ≫= as_array with Some (_ :: _) => true | _ => false end.
(** What is returned of the body of a response. *)
Definition turn_body (body : string) : string :=
  match from_str body with
  | Ok val => if has_uris val then body else "null"
  | Err _ => body
  end.
(** [val["k"]]. *)
Definition index (val : V) (k : string) : V := default json_null (get val k).
Definition turn_to_ice_servers (turn_response_json : string) : result string string :=
  let? val := result_map_err (λ e, cat ["parse TURN response: "; e]) (from_str turn_response_json) in
  if has_uris val then
    Ok (to_string (json_array [json_object [("urls", index val "uris"); ("username", index val "username");
                                            ("credential", index val "password")]]))
  else Ok "[]".

Section turn.
Context {W C U : Type} `{Browser W C V} `{UrlOps U} (url_parse : string → result U string).
Definition wasm_fetch_turn_credentials (homeserver_url access_token : string) : Io W string string :=
  parsed ← of_result (result_map_err (λ e, cat ["invalid homeserver URL: "; e]) (url_parse homeserver_url));
  if negb (is_safe_scheme parsed) then mret "null" else
  resp ← attempt (br_fetch (C := C) (mkFetch GET (cat [no_slash homeserver_url; "/_matrix/client/v3/voip/turnServer"]) (Some access_token) None));
  match resp with
  | Err _ => mret "null"
  | Ok r =>
      if negb (fetched_ok r) then mret "null" else
      match fr_text r with
      | Ok body => mret (turn_body body)
      | Err _ => mret "null"
      end
  end.
End turn.
End api.

(** ** Properties *)
(** A number that JavaScript passes as a timeout fits in 64 bits; a NaN or a
    negative number is a timeout of nothing, not the absence of one. *)
Theorem timeout_in_range x : (0 ≤ f64_as_u64 x < 2 ^ 64)%Z ∧
  (is_nan x = true ∨ flt x (S754_zero false) = true → timeout_arg (JsNumber x) = Ok (Some 0%Z)).
Proof.
  split.
  - destruct x as [s|[]| |[] m e]; simpl; try lia. case_decide.
    + assert (0 < 2 ^ e)%Z by (by apply Z.pow_pos_nonneg). lia.
    + assert (0 < 2 ^ (- e))%Z by (apply Z.pow_pos_nonneg; lia).
      assert (0 ≤ Z.pos m / 2 ^ (- e))%Z by (apply Z.div_pos; lia). lia.
  - destruct x as [s|[]| |[] m e]; unfold flt, SFltb; simpl; intros [H|H]; (reflexivity || discriminate H).
Qed.

(** What is printed again reads as the same value. *)
Lemma reprint_stable {T} `{SerdeTextLaws T} json out : reprint (T := T) json = Ok out → reprint (T := T) out = Ok out.
Proof.
  unfold reprint. intros (x & Hx & Hs)%result_bind_ok. by rewrite (de_ser_text x out Hs).
Qed.

Section strings.
Context {V : Type} `{JsonValue V} `{JsonU64 V} `{JsonBuild V} `{JsonContainers V} `{JsonNumbers V} (to_string : V → string).
Context `{B64 : Base64} `{BL : !Base64Laws} `{AE : Aead} `{AL : !AeadLaws} (frame_from_str : string → result EncryptedFrame string)
  (utf8_error : Bytes → string).
Hypothesis frame_reads_back : ∀ f, frame_from_str (to_string (frame_value f)) = Ok f.

(** The crypto of a call through JavaScript. A text that one side encrypts
    is what the other reads, when that side has the key as the first gave it
    out; and a key of another length is refused. *)
Theorem strings_round_trip raw iv_bytes text sent :
  length raw = 32 → length iv_bytes = 12 → valid_utf8 (as_bytes text) = true →
  p2p_encrypt to_string (wk_crypto (p2p_generate raw)) iv_bytes text = Ok sent →
  (∃ c, create_p2p_crypto (generate_session_key raw) = Ok c ∧ p2p_decrypt frame_from_str utf8_error c sent = Ok text) ∧
  ∀ key b, b64_decode key = Ok b → length b ≠ 32 →
    create_p2p_crypto key = Err (cat ["invalid session key: "; CryptoError_fmt (InvalidKeyLength (length b))]).
Proof using B64 BL AE AL frame_reads_back.
  intros Hraw Hiv Hutf He. split.
  - exists (from_sealed (random raw)). split.
    { unfold create_p2p_crypto, p2p_from_key, generate_session_key, p2p_generate, generate. simpl.
      by rewrite from_base64_to_base64. }
    unfold p2p_encrypt in He. apply result_bind_ok in He as (f & Hf & [= <-]).
    unfold p2p_decrypt. rewrite frame_reads_back. simpl.
    destruct (encrypt _ iv_bytes (as_bytes text)) as [f'|] eqn:Ee; [|done]. injection Hf as ->.
    assert (decrypt (from_sealed (random raw)) f = Ok (as_bytes text)) as ->
      by exact (decrypt_encrypt (generate raw).1 iv_bytes (as_bytes text) f Hiv Ee).
    simpl. unfold from_utf8. by rewrite Hutf, from_bytes_as_bytes.
  - intros key b Hb Hl. unfold create_p2p_crypto, p2p_from_key, from_base64. rewrite Hb. simpl. by rewrite decide_False by done.
Qed.
End strings.

(** A body that is not JSON passes for credentials, and the conversion to the
    servers of a peer connection then throws. *)
Theorem turn_body_not_json {V} `{JsonValue V} `{JsonContainers V} `{JsonBuild V} (to_string : V → string) body e :
  from_str (V := V) body = Err e →
  turn_body (V := V) body = body ∧ turn_to_ice_servers to_string body = Err (cat ["parse TURN response: "; e]).
Proof. intros He. unfold turn_body, turn_to_ice_servers. by rewrite He. Qed.

(** A round trip of a text with the toy cipher. *)
Lemma strings_round_trip_witness :
  let raw := replicate 32 Byte.x07 in
  let iv := replicate 12 Byte.x01 in
  let frames s := match t_parse s with
                  | Ok v => match t_get v "c", t_get v "iv" with
                            | Some (GenLeaf (inl c)), Some (GenLeaf (inl i)) => Ok (mkEncryptedFrame c i)
                            | _, _ => Err "missing field"
                            end
                  | Err e => Err e
                  end in
  ∃ sent c, p2p_encrypt (B64 := toy_base64) (AE := toy_aead) (H1 := toy_build) t_print
      (wk_crypto (p2p_generate (B64 := toy_base64) raw)) iv "ls" = Ok sent ∧
    p2p_decrypt (B64 := toy_base64) (AE := toy_aead) frames (λ _, "") c sent = Ok "ls".
Proof.
  intros raw iv frames.
  assert (∃ sent, p2p_encrypt (B64 := toy_base64) (AE := toy_aead) (H1 := toy_build) t_print
    (wk_crypto (p2p_generate (B64 := toy_base64) raw)) iv "ls" = Ok sent) as [sent Hsent] by (eexists; reflexivity).
  assert (∀ f, frames (t_print (frame_value (H1 := toy_build) f)) = Ok f) as Hframes.
  { intros [c i]. unfold frames. by rewrite t_parse_print. }
  destruct (proj1 (strings_round_trip (H1 := toy_build) (B64 := toy_base64) (AE := toy_aead)
    (BL := toy_base64_laws) (AL := toy_aead_laws) t_print frames (λ _, "") Hframes
    raw iv "ls" sent eq_refl eq_refl eq_refl Hsent)) as (c & _ & Hd).
  by exists sent, c.
Defined.
