(* ===== verification/Transports.v ===== *)
(** * Transports: the streams between the daemon and its clients
    ([mxdx-client/daemon/transport/unix.rs], [mcp.rs], [websocket.rs])

    What a client sends is handled one message at a time; what it gets comes
    from two tasks, the reader that answers and the forwarder of the
    notifications. The three transports differ in how these share the way out:
    a lock on the socket, nothing on the standard output, one queue for the
    websocket. Each is a step relation, so that a theorem about the states it
    reaches covers every interleaving of the tasks. *)
From S2P Require Import WorkerLoop.
From S2P Require Import Prelude Text Json Fabric SessionEvents Signaling P2PCrypto MatrixTypes Effects Rest MatrixClient MatrixRooms Liveness MatrixDelivery SessionJson ClientSessions ClientProtocol RoomEvents ClientDaemon Toys.
From stdpp Require Import relations options.

Definition NL : Byte.byte := Byte.x0a.

(** ** What comes in *)
Section incoming.
Context {K W V : Type} `{MatrixSdk W V} `{JsonValue V} `{JsonU64 V} `{JsonBuild V} `{JsonContainers V}
  `{JsonNumbers V} `{HttpServer W V} `{RestExternals} `{MultiOps W V} `{DaemonDeserialize V} `{DaemonOutside W}.
Variable session_keys : gmap string TrackedSession → list string.
Variable telemetry_list : gmap string V → list (string * V).
Variable env_entries : gmap string string → list (string * string).

(** The loop of [serve_stdio]: that of [handle_client], on the lines of the
    standard input. *)
Fixpoint serve_stdio (sink : K) (lines : list string) (h : Handler K W) : list (Reply V) * bool * Handler K W :=
  match lines with
  | [] => ([], true, h)
  | line :: lines =>
      let trimmed := from_bytes (trim (as_bytes line)) in
      if str_eqb trimmed "" then serve_stdio sink lines h else
      match parse_message (V := V) trimmed with
      | Ok (MsgRequest req) =>
          match handle_request session_keys telemetry_list env_entries req sink h with
          | (Some response, h) =>
              let '(replies, ended, h) := serve_stdio sink lines h in (response :: replies, ended, h)
          | (None, h) => ([], false, h)
          end
      | Ok (MsgNotification _) => serve_stdio sink lines h
      | Err e =>
          let '(replies, ended, h) := serve_stdio sink lines h in
          (RpcError (IdNumber 0) PARSE_ERROR (cat ["invalid JSON: "; e]) :: replies, ended, h)
      end
  end.

(** What the websocket gives; a text is parsed as it came. *)
Inductive WsFrame : Type := WsText (text : string) | WsOther.

Definition handle_frame (sink : K) (frame : WsFrame) (h : Handler K W) : option (list (Reply V)) * Handler K W :=
  match frame with
  | WsOther => (Some [], h)
  | WsText text =>
      match parse_message (V := V) text with
      | Ok (MsgRequest req) =>
          let '(reply, h) := handle_request session_keys telemetry_list env_entries req sink h in ((λ r, [r]) <$> reply, h)
      | Ok (MsgNotification _) => (Some [], h)
      | Err e => (Some [RpcError (IdNumber 0) PARSE_ERROR (cat ["invalid JSON: "; e])], h)
      end
  end.

(** How the reader ends; on an error of the stream it returns before the
    forwarder is aborted. *)
Inductive WsEnd : Type := WsClosed | WsFailed (e : string) | WsPanicked.

Fixpoint handle_ws_client (sink : K) (frames : list (result WsFrame string)) (h : Handler K W)
    : list (Reply V) * WsEnd * Handler K W :=
  match frames with
  | [] => ([], WsClosed, h)
  | Err e :: _ => ([], WsFailed e, h)
  | Ok frame :: frames =>
      match handle_frame sink frame h with
      | (None, h) => ([], WsPanicked, h)
      | (Some written, h) =>
          let '(replies, ended, h) := handle_ws_client sink frames h in (written ++ replies, ended, h)
      end
  end.
End incoming.

(** ** What goes out *)
(** The two tasks that write, and the line that each makes of a message: the
    forwarder of the socket spares the newline of one that has it. *)
Inductive Side : Type := Reader | Forwarder.
#[export] Instance side_eq_dec : EqDecision Side.
Proof. solve_decision. Defined.

Definition ends_with_nl (b : Bytes) : bool := bool_decide (last b = Some NL).
Definition line_of (m : Side * string) : Bytes :=
  let b := as_bytes m.2 in
  match m.1 with
  | Reader => b ++ [NL]
  | Forwarder => if ends_with_nl b then b else b ++ [NL]
  end.

(** *** The socket, with a lock *)
(** [un_held]: who holds the writer, with what it has still to write;
    [un_reply], [un_note]: a message in the hand of a task that waits for the
    lock; [un_replies], [un_notes]: all that was answered and notified. A
    write that failed breaks the socket for good: who takes the lock then
    fails at once. *)
Record UnixOut := mkUnixOut {
  un_written : Bytes; un_held : option (Side * Bytes); un_reply : option string; un_note : option string;
  un_queue : list string; un_reader : bool; un_forwarder : bool; un_broken : bool;
  un_replies : list string; un_notes : list string }.
Definition unix_start : UnixOut := mkUnixOut [] None None None [] true true false [] [].

Inductive unix_step : UnixOut → UnixOut → Prop :=
| unix_answers r w h n q f br rs ns :
    ¬ (∃ b, h = Some (Reader, b)) →
    unix_step (mkUnixOut w h None n q true f br rs ns) (mkUnixOut w h (Some r) n q true f br (rs ++ [r]) ns)
| unix_notifies m w h r n q rd f br rs ns :
    unix_step (mkUnixOut w h r n q rd f br rs ns)
      (mkUnixOut w h r n (if f then q ++ [m] else q) rd f br rs (ns ++ [m]))
| unix_takes m w h r q rd br rs ns :
    ¬ (∃ b, h = Some (Forwarder, b)) →
    unix_step (mkUnixOut w h r None (m :: q) rd true br rs ns) (mkUnixOut w h r (Some m) q rd true br rs ns)
| unix_locks_reply r w n q rd f rs ns :
    unix_step (mkUnixOut w None (Some r) n q rd f false rs ns)
      (mkUnixOut w (Some (Reader, line_of (Reader, r))) None n q rd f false rs ns)
| unix_locks_note m w r q rd f rs ns :
    unix_step (mkUnixOut w None r (Some m) q rd f false rs ns)
      (mkUnixOut w (Some (Forwarder, line_of (Forwarder, m))) r None q rd f false rs ns)
| unix_writes s b1 b2 w r n q rd f rs ns :
    unix_step (mkUnixOut w (Some (s, b1 ++ b2)) r n q rd f false rs ns)
      (mkUnixOut (w ++ b1) (Some (s, b2)) r n q rd f false rs ns)
| unix_unlocks s w r n q rd f br rs ns :
    unix_step (mkUnixOut w (Some (s, [])) r n q rd f br rs ns) (mkUnixOut w None r n q rd f br rs ns)
| unix_reply_fails b w r n q rd f br rs ns :
    unix_step (mkUnixOut w (Some (Reader, b)) r n q rd f br rs ns) (mkUnixOut w None None n q false f true rs ns)
| unix_note_fails b w r n q rd f br rs ns :
    unix_step (mkUnixOut w (Some (Forwarder, b)) r n q rd f br rs ns) (mkUnixOut w None r None [] rd false true rs ns)
| unix_reply_refused r w n q rd f rs ns :
    unix_step (mkUnixOut w None (Some r) n q rd f true rs ns) (mkUnixOut w None None n q false f true rs ns)
| unix_note_refused m w r q rd f rs ns :
    unix_step (mkUnixOut w None r (Some m) q rd f true rs ns) (mkUnixOut w None r None [] rd false true rs ns)
| unix_ends w h n q f br rs ns :
    ¬ (∃ b, h = Some (Reader, b)) →
    unix_step (mkUnixOut w h None n q true f br rs ns) (mkUnixOut w None None None [] false false br rs ns).

(** *** The standard output, without *)
(** The parts that each task has still to write; each write is whole. *)
Record McpOut := mkMcpOut {
  mc_written : Bytes; mc_reply : list Bytes; mc_note : list Bytes; mc_queue : list string;
  mc_replies : list string; mc_notes : list string }.
Definition mcp_start : McpOut := mkMcpOut [] [] [] [] [] [].

Inductive mcp_step : McpOut → McpOut → Prop :=
| mcp_answers r w n q rs ns :
    mcp_step (mkMcpOut w [] n q rs ns) (mkMcpOut w [as_bytes r; [NL]] n q (rs ++ [r]) ns)
| mcp_notifies m w r n q rs ns :
    mcp_step (mkMcpOut w r n q rs ns) (mkMcpOut w r n (q ++ [m]) rs (ns ++ [m]))
| mcp_takes m w r q rs ns :
    mcp_step (mkMcpOut w r [] (m :: q) rs ns) (mkMcpOut w r [as_bytes m; [NL]] q rs ns)
| mcp_writes_reply b w r n q rs ns :
    mcp_step (mkMcpOut w (b :: r) n q rs ns) (mkMcpOut (w ++ b) r n q rs ns)
| mcp_writes_note b w r n q rs ns :
    mcp_step (mkMcpOut w r (b :: n) q rs ns) (mkMcpOut (w ++ b) r n q rs ns).

(** *** The websocket, one queue for all *)
Record WsOut := mkWsOut { ws_pushed : list string; ws_queue : list string; ws_sent : list string; ws_sink : bool }.
Definition ws_start : WsOut := mkWsOut [] [] [] true.

(** The sink ends when a message cannot be sent, or is aborted. *)
Inductive ws_step : WsOut → WsOut → Prop :=
| ws_pushes m p q s k : ws_step (mkWsOut p q s k) (mkWsOut (p ++ [m]) (if k then q ++ [m] else q) s k)
| ws_sends m p q s : ws_step (mkWsOut p (m :: q) s true) (mkWsOut p q (s ++ [m]) true)
| ws_breaks m p q s : ws_step (mkWsOut p (m :: q) s true) (mkWsOut p [] s false)
| ws_aborts p q s k : ws_step (mkWsOut p q s k) (mkWsOut p [] s false).

(** ** Lemmas *)
(** The messages of one side, in their order. *)
Definition sent_by (s : Side) (l : list (Side * string)) : list string :=
  omap (λ m, if decide (m.1 = s) then Some m.2 else None) l.
Lemma sent_by_app s l k : sent_by s (l ++ k) = sent_by s l ++ sent_by s k.
Proof. apply omap_app. Qed.
Lemma sent_by_own s m : sent_by s [(s, m)] = [m].
Proof. unfold sent_by. simpl. by rewrite decide_True. Qed.
Lemma sent_by_other s s' m : s' ≠ s → sent_by s [(s', m)] = [].
Proof. intros. unfold sent_by. simpl. by rewrite decide_False. Qed.

(** *** The socket *)
(** The lines that were written whole, the one that is being written or was
    cut, and how much of it is there. *)
Record UnixInv (c : UnixOut) (whole : list (Side * string)) (next : option (Side * string)) (cut : Bytes) : Prop := {
  inv_written : un_written c = concat (line_of <$> whole) ++ cut;
  inv_next : match next with None => cut = [] | Some m => cut `prefix_of` line_of m end;
  inv_held : match un_held c with
             | Some (s, b) => ∃ m, next = Some (s, m) ∧ line_of (s, m) = cut ++ b
             | None => next = None ∨ un_broken c = true ∨ (un_reader c = false ∧ un_forwarder c = false)
             end;
  inv_replies : if un_reader c
                then sent_by Reader (whole ++ option_list next) ++ option_list (un_reply c) = un_replies c
                else un_reply c = None ∧ sent_by Reader (whole ++ option_list next) `prefix_of` un_replies c;
  inv_notes : if un_forwarder c
              then sent_by Forwarder (whole ++ option_list next) ++ option_list (un_note c) ++ un_queue c = un_notes c
              else un_note c = None ∧ sent_by Forwarder (whole ++ option_list next) `prefix_of` un_notes c }.

Definition unix_lines (c : UnixOut) : Prop := ∃ whole next cut, UnixInv c whole next cut.

Lemma unix_start_lines : unix_lines unix_start.
Proof. exists [], None, []. by split; simpl; auto. Qed.

Lemma unlocked_next c whole next cut :
  UnixInv c whole next cut → un_held c = None → un_broken c = false →
  is_Some (un_reply c) ∨ is_Some (un_note c) → next = None ∧ cut = [].
Proof.
  intros [_ Hn Hh Hr Hf] E1 E2 Hw. rewrite E1, E2 in Hh.
  destruct Hh as [->|[?|[E3 E4]]]; [done|done|]. rewrite E3 in Hr. rewrite E4 in Hf.
  destruct Hr as [Hr _], Hf as [Hf _]. rewrite Hr, Hf in Hw. by destruct Hw as [[]|[]].
Qed.

Lemma sent_by_snoc s l m : sent_by s (l ++ [m]) = sent_by s l ++ (if decide (m.1 = s) then [m.2] else []).
Proof. rewrite sent_by_app. f_equal. unfold sent_by. simpl. by case_decide. Qed.

(** A task that has the lock begins its line; once the line is out the lock is
    given back. *)
Lemma unix_line_begins s m c c' whole :
  UnixInv c whole None [] → un_held c = None →
  un_written c' = un_written c → un_held c' = Some (s, line_of (s, m)) →
  un_reader c' = un_reader c → un_forwarder c' = un_forwarder c →
  un_replies c' = un_replies c → un_notes c' = un_notes c →
  (if decide (s = Reader)
   then un_reply c = Some m ∧ un_reply c' = None ∧ un_note c' = un_note c ∧ un_queue c' = un_queue c
   else un_note c = Some m ∧ un_note c' = None ∧ un_reply c' = un_reply c ∧ un_queue c' = un_queue c) →
  unix_lines c'.
Proof.
  intros [Hw _ _ Hr Hf] E Ew Eh Er Ef Ers Ens Hs. exists whole, (Some (s, m)), [].
  split; simpl in *; rewrite ?Ew, ?Eh, ?Er, ?Ef, ?Ers, ?Ens; [done|apply prefix_nil|by exists m| |].
  - rewrite sent_by_snoc; simpl. rewrite app_nil_r in Hr.
    destruct (un_reader c); case_decide as D; simplify_eq/=; destruct Hs as (E1 & E2 & E3 & E4); rewrite ?E1, ?E2, ?E3 in *;
      rewrite ?app_nil_r in *; try done; by destruct Hr.
  - rewrite sent_by_snoc; simpl. rewrite app_nil_r in Hf.
    destruct s; simplify_eq/=; rewrite ?decide_True, ?decide_False in * by done; destruct Hs as (E1 & E2 & E3 & E4); rewrite ?E1, ?E2, ?E3, ?E4 in *;
      rewrite ?app_nil_r; [done|]. destruct (un_forwarder c); [by rewrite <-Hf, <-app_assoc|by destruct Hf].
Qed.

Lemma unix_step_lines c c' : unix_step c c' → unix_lines c → unix_lines c'.
Proof.
  intros Hs (whole & next & cut & Hi).
  destruct Hs; pose proof Hi as [Hw Hn Hh Hr Hf]; simpl in *.
  - exists whole, next, cut. split; simpl; try done. rewrite app_nil_r in Hr. by rewrite Hr.
  - exists whole, next, cut. split; simpl; try done. destruct f; [by rewrite <-Hf, !app_assoc|].
    destruct Hf. split; [done|by apply prefix_app_r].
  - exists whole, next, cut. by split.
  - destruct (unlocked_next _ _ _ _ Hi eq_refl eq_refl (or_introl (ex_intro _ r eq_refl))) as [-> ->].
    by eapply (unix_line_begins Reader r).
  - destruct (unlocked_next _ _ _ _ Hi eq_refl eq_refl (or_intror (ex_intro _ m eq_refl))) as [-> ->].
    by eapply (unix_line_begins Forwarder m).
  - destruct Hh as (m & -> & Hm). exists whole, (Some (s, m)), (cut ++ b1).
    split; simpl; try done; [by rewrite Hw, app_assoc|exists b2; by rewrite Hm, app_assoc|].
    exists m. by rewrite Hm, app_assoc.
  - destruct Hh as (m & -> & Hm). rewrite app_nil_r in Hm. exists (whole ++ [(s, m)]), None, [].
    split; simpl; auto; rewrite ?app_nil_r; [|done..].
    by rewrite Hw, fmap_app, concat_app, <-Hm; simpl; rewrite app_nil_r.
  - exists whole, next, cut. split; simpl; auto. split; [done|]. destruct rd; [rewrite <-Hr; by eexists|by destruct Hr].
  - exists whole, next, cut. split; simpl; auto. split; [done|]. destruct f; [rewrite <-Hf; by eexists|by destruct Hf].
  - exists whole, next, cut. split; simpl; auto. split; [done|]. destruct rd; [rewrite <-Hr; by eexists|by destruct Hr].
  - exists whole, next, cut. split; simpl; auto. split; [done|]. destruct f; [rewrite <-Hf; by eexists|by destruct Hf].
  - exists whole, next, cut. split; simpl; auto.
    + split; [done|]. rewrite <-Hr. by eexists.
    + split; [done|]. destruct f; [rewrite <-Hf; by eexists|by destruct Hf].
Qed.

(** *** The websocket *)
Definition ws_inv (c : WsOut) : Prop :=
  if ws_sink c then ws_sent c ++ ws_queue c = ws_pushed c else ws_queue c = [] ∧ ws_sent c `prefix_of` ws_pushed c.
Lemma ws_step_inv c c' : ws_step c c' → ws_inv c → ws_inv c'.
Proof.
  unfold ws_inv. intros [m p q s k|m p q s|m p q s|p q s k]; simpl.
  - destruct k; [by rewrite app_assoc; intros ->|intros [? ?]; split; [done|by apply prefix_app_r]].
  - by rewrite <-app_assoc.
  - intros <-. split; [done|by eexists].
  - destruct k; [intros <-; split; [done|by eexists]|by intros [? ?]].
Qed.
Lemma ws_dead_stays c c' : ws_step c c' → ws_sink c = false → ws_sink c' = false ∧ ws_sent c' = ws_sent c.
Proof. by intros []. Qed.
Lemma ws_dead_forever c c' : ws_sink c = false → rtc ws_step c c' → ws_sent c' = ws_sent c.
Proof.
  intros E H. revert E. induction H as [|c c1 c' Hs _ IH]; [done|]. intros E.
  destruct (ws_dead_stays _ _ Hs E) as [E' <-]. by apply IH.
Qed.

(** *** Lines *)
Lemma line_of_plain s m : NL ∉ as_bytes m → line_of (s, m) = as_bytes m ++ [NL].
Proof.
  intros Hm. destruct s; [done|]. unfold line_of, ends_with_nl. simpl. rewrite bool_decide_false; [done|].
  intros Hl. apply Hm. rewrite last_lookup in Hl. by eapply list_elem_of_lookup_2.
Qed.

(** Whoever splits what was written at the newlines reads the messages back. *)
Lemma split_lines l k : (∀ m, m ∈ l → NL ∉ as_bytes m.2) →
  split_byte NL (concat (line_of <$> l) ++ k) = (as_bytes ∘ snd <$> l) ++ split_byte NL k.
Proof.
  induction l as [|[s m] l IH]; intros Hl; [done|]. rewrite !fmap_cons. simpl concat.
  rewrite line_of_plain by (apply (Hl (s, m)); left). rewrite <-!app_assoc. simpl.
  rewrite split_byte_app by (apply (Hl (s, m)); left). f_equal. apply IH. intros p Hp. apply Hl. by right.
Qed.
Lemma sent_in s m l : (s, m) ∈ l → m ∈ sent_by s l.
Proof. intros Hm. apply list_elem_of_omap. exists (s, m). split; [done|]. simpl. by rewrite decide_True. Qed.

Lemma sent_one s l m : sent_by s l = [m] → (∀ p, p ∈ l → p.1 = s) → l = [(s, m)].
Proof.
  intros Hl Ha. destruct l as [|[s1 m1] [|[s2 m2] l]]; [done| |].
  - pose proof (Ha _ (list_elem_of_here _ _)). simpl in *. subst. unfold sent_by in Hl. simpl in Hl.
    rewrite decide_True in Hl by done. by simplify_eq.
  - pose proof (Ha (s1, m1) ltac:(left)). pose proof (Ha (s2, m2) ltac:(right; left)). simpl in *. subst.
    unfold sent_by in Hl. simpl in Hl. rewrite !decide_True in Hl by done. done.
Qed.

Lemma sent_none s l : sent_by s l = [] → ∀ p, p ∈ l → p.1 ≠ s.
Proof.
  intros Hl [s' m] Hp Hs. simpl in Hs. subst s'. apply sent_in in Hp. rewrite Hl in Hp. by apply not_elem_of_nil in Hp.
Qed.

(** One reply and one notification, in either order. *)
Lemma two_orders order r n :
  sent_by Reader order = [r] → sent_by Forwarder order = [n] →
  order = [(Reader, r); (Forwarder, n)] ∨ order = [(Forwarder, n); (Reader, r)].
Proof.
  destruct order as [|[[] m] l]; unfold sent_by; simpl; [done|..]; intros [= -> Hr] Hn || intros Hr [= -> Hn].
  - left. f_equal. apply sent_one; [done|]. intros [[] x] Hp; [|done]. by destruct (sent_none Reader l Hr _ Hp).
  - right. f_equal. apply sent_one; [done|]. intros [[] x] Hp; [done|]. by destruct (sent_none Forwarder l Hn _ Hp).
Qed.

(** ** Theorems *)
(** Nothing is in flight and both tasks are there. *)
Definition settled (c : UnixOut) : Prop :=
  un_held c = None ∧ un_reply c = None ∧ un_note c = None ∧ un_queue c = [] ∧
  un_reader c = true ∧ un_forwarder c = true ∧ un_broken c = false.

(** C22: Lines on the socket are whole. However the reader and the forwarder
    take turns, whatever part of a line a write gets out, and wherever one of
    them fails or is aborted: what the client has received is a sequence of
    whole lines and at most one that is cut at the end; the replies among them
    are the first of the replies in their order, the notifications the first
    of the notifications. When nothing is in flight, all of both are there.
    If no message has a newline, as the texts of JSON values have none, a
    client that splits at the newlines reads exactly these messages. *)
Theorem unix_lines_whole c :
  rtc unix_step unix_start c →
  ∃ whole next cut,
    un_written c = concat (line_of <$> whole) ++ cut ∧
    match next with None => cut = [] | Some m => cut `prefix_of` line_of m end ∧
    sent_by Reader (whole ++ option_list next) `prefix_of` un_replies c ∧
    sent_by Forwarder (whole ++ option_list next) `prefix_of` un_notes c ∧
    (settled c → next = None ∧ sent_by Reader whole = un_replies c ∧ sent_by Forwarder whole = un_notes c) ∧
    (Forall (λ m, NL ∉ as_bytes m) (un_replies c ++ un_notes c) →
      split_byte NL (un_written c) = (as_bytes ∘ snd <$> whole) ++ split_byte NL cut).
Proof.
  intros Hc. assert (Hl : unix_lines c).
  { revert Hc. apply (rtc_ind_r unix_lines); [apply unix_start_lines|eauto using unix_step_lines]. }
  destruct Hl as (whole & next & cut & [Hw Hn Hh Hr Hf]). exists whole, next, cut.
  assert (Hrs : sent_by Reader (whole ++ option_list next) `prefix_of` un_replies c)
    by (destruct (un_reader c); [rewrite <-Hr; by eexists|by destruct Hr]).
  assert (Hns : sent_by Forwarder (whole ++ option_list next) `prefix_of` un_notes c)
    by (destruct (un_forwarder c); [rewrite <-Hf; by eexists|by destruct Hf]).
  split_and!; [done..| |].
  - intros (E1 & E2 & E3 & E4 & E5 & E6 & E7). rewrite ?E1, ?E2, ?E3, ?E4, ?E5, ?E6, ?E7 in *.
    destruct Hh as [->|[?|[? ?]]]; [|done..]. by rewrite !app_nil_r in *.
  - rewrite Forall_forall. intros Hp. rewrite Hw. apply split_lines. intros [s m] Hm. apply Hp, elem_of_app.
    assert (Hs : m ∈ sent_by s (whole ++ option_list next)) by (apply sent_in, elem_of_app; by left).
    destruct s; [left|right]; by eapply elem_of_prefix.
Qed.

(** Lines on the standard output may mix. For every reply and notification
    without newlines, as the texts of JSON values are, the two tasks can write
    so that all is written and yet what comes out is no sequence of the two
    lines. *)
Theorem mcp_lines_mix r n :
  NL ∉ as_bytes r → NL ∉ as_bytes n → as_bytes r ≠ [] → as_bytes n ≠ [] →
  ∃ c, rtc mcp_step mcp_start c ∧ mc_replies c = [r] ∧ mc_notes c = [n] ∧
    mc_reply c = [] ∧ mc_note c = [] ∧ mc_queue c = [] ∧
    ∀ order, sent_by Reader order = [r] → sent_by Forwarder order = [n] →
      mc_written c ≠ concat (line_of <$> order).
Proof.
  intros Hr Hn Hr0 Hn0. exists (mkMcpOut (as_bytes r ++ as_bytes n ++ [NL; NL]) [] [] [] [r] [n]). split.
  { unfold mcp_start. eapply rtc_l; [apply (mcp_answers r)|]. eapply rtc_l; [apply (mcp_notifies n)|].
    eapply rtc_l; [apply mcp_takes|]. eapply rtc_l; [apply mcp_writes_reply|]. eapply rtc_l; [apply mcp_writes_note|].
    eapply rtc_l; [apply mcp_writes_reply|]. eapply rtc_l; [apply mcp_writes_note|]. simpl.
    rewrite <-!app_assoc. apply rtc_refl. }
  do 5 (split; [done|]). intros order H1 H2 E. simpl in E.
  assert (Hrn : NL ∉ as_bytes r ++ as_bytes n) by (rewrite elem_of_app; by intros [?|?]).
  apply (f_equal (split_byte NL)) in E. rewrite <-(app_nil_r (concat _)), split_lines, app_assoc in E.
  2: { intros p Hp. destruct (two_orders _ _ _ H1 H2) as [->| ->]; set_solver. }
  rewrite (split_byte_app NL _ [NL]) in E by done.
  destruct (two_orders _ _ _ H1 H2) as [->| ->]; injection E as E _.
  - apply Hn0. by apply (app_inv_head (as_bytes r)); rewrite app_nil_r.
  - apply Hr0. by apply (app_inv_tail (as_bytes n)).
Qed.

(** The websocket delivers in order. A client gets a first part of all that
    was answered and notified, in the order in which it was; while the sink
    is there, what it has not got is queued; once the sink is gone, it gets
    nothing more. *)
Theorem websocket_in_order c :
  rtc ws_step ws_start c →
  ws_sent c `prefix_of` ws_pushed c ∧ (ws_sink c = true → ws_sent c ++ ws_queue c = ws_pushed c) ∧
  (ws_sink c = false → ∀ c', rtc ws_step c c' → ws_sent c' = ws_sent c).
Proof.
  intros Hc. assert (Hi : ws_inv c).
  { revert Hc. apply (rtc_ind_r ws_inv); [done|eauto using ws_step_inv]. }
  unfold ws_inv in Hi. split_and!.
  - destruct (ws_sink c); [rewrite <-Hi; by eexists|by destruct Hi].
  - by intros E; rewrite E in Hi.
  - eauto using ws_dead_forever.
Qed.

(** *** What the three transports answer *)
Section answers.
Context {K W V : Type} `{MatrixSdk W V} `{JsonValue V} `{JsonU64 V} `{JsonBuild V} `{JsonContainers V}
  `{JsonNumbers V} `{HttpServer W V} `{RestExternals} `{MultiOps W V} `{DaemonDeserialize V} `{DaemonOutside W}.
Variable session_keys : gmap string TrackedSession → list string.
Variable telemetry_list : gmap string V → list (string * V).
Variable env_entries : gmap string string → list (string * string).
Local Notation stdio := (serve_stdio session_keys telemetry_list env_entries).
Local Notation socket := (handle_client session_keys telemetry_list env_entries).
Local Notation websocket := (handle_ws_client session_keys telemetry_list env_entries).

(** The standard input is served as the socket is: the same replies and the
    same state for the same lines. *)
Theorem stdio_serves_like_socket (sink : K) (lines : list string) (h : Handler K W) :
  stdio sink lines h = socket sink lines h.
Proof using Type.
  revert h. induction lines as [|line lines IH]; intros h; [done|]. simpl. unfold handle_line.
  destruct (str_eqb _ ""); [rewrite IH; by destruct (socket sink lines h) as [[??]?]|].
  destruct (parse_message _) as [[req|note]|e].
  - destruct (handle_request _ _ _ req sink h) as [[r|] h1]; simpl; [|done]. by rewrite IH.
  - rewrite IH. by destruct (socket sink lines h) as [[??]?].
  - by rewrite IH.
Qed.

(** So is a websocket, for messages without white space around them; blank
    ones and errors of the stream apart. *)
Definition tidy (text : string) : Prop := text ≠ "" ∧ trim (as_bytes text) = as_bytes text.
Theorem websocket_serves_like_socket (sink : K) (texts : list string) (h : Handler K W) :
  Forall tidy texts →
  let '(replies, ended, h') := websocket sink (Ok ∘ WsText <$> texts) h in
  socket sink texts h = (replies, match ended with WsClosed => true | _ => false end, h').
Proof using Type.
  intros Ht. revert h. induction Ht as [|text texts [Hne Htr] _ IH]; intros h; [done|].
  rewrite fmap_cons. simpl handle_ws_client. simpl handle_client. unfold handle_line.
  rewrite Htr, from_bytes_as_bytes. assert (str_eqb text "" = false) as -> by (destruct text; done).
  destruct (parse_message text) as [[req|note]|e].
  - destruct (handle_request _ _ _ req sink h) as [[r|] h1]; simpl; [|done]. specialize (IH h1).
    destruct (websocket sink _ h1) as [[replies ended] h2]. by rewrite IH.
  - specialize (IH h). destruct (websocket sink _ h) as [[replies ended] h2]. by rewrite IH.
  - specialize (IH h). destruct (websocket sink _ h) as [[replies ended] h2]. by rewrite IH.
Qed.

(** A blank message is answered by the websocket, as one that is not JSON, and
    passed over by the socket. *)
Lemma blank_frame (sink : K) (h : Handler K W) e :
  parse_message (V := V) "" = Err e →
  handle_frame session_keys telemetry_list env_entries sink (WsText "") h
    = (Some [RpcError (IdNumber 0) PARSE_ERROR (cat ["invalid JSON: "; e])], h) ∧
  handle_line session_keys telemetry_list env_entries sink "" h = (Some [], h).
Proof using Type. intros E. unfold handle_frame. by rewrite E. Qed.
End answers.

(** ** Witnesses *)
(** A notification that is cut by the end of the connection, after a reply. *)
Definition toy_unix : UnixOut :=
  mkUnixOut (as_bytes "r" ++ [NL] ++ as_bytes "no") None None None [] false false false ["r"] ["note"].

Lemma unix_lines_whole_witness :
  rtc unix_step unix_start toy_unix ∧
  ∃ whole next cut,
    un_written toy_unix = concat (line_of <$> whole) ++ cut ∧
    match next with None => cut = [] | Some m => cut `prefix_of` line_of m end ∧
    sent_by Reader (whole ++ option_list next) `prefix_of` ["r"] ∧
    sent_by Forwarder (whole ++ option_list next) `prefix_of` ["note"] ∧
    split_byte NL (un_written toy_unix) = (as_bytes ∘ snd <$> whole) ++ split_byte NL cut.
Proof.
  assert (Hc : rtc unix_step unix_start toy_unix).
  { unfold unix_start, toy_unix. eapply rtc_l; [apply (unix_answers "r"); by intros []|].
    eapply rtc_l; [apply (unix_notifies "note")|]. eapply rtc_l; [apply unix_locks_reply|].
    eapply rtc_l; [apply (unix_writes Reader (line_of (Reader, "r")) [])|].
    eapply rtc_l; [apply unix_unlocks|]. eapply rtc_l; [apply unix_takes; by intros []|].
    eapply rtc_l; [apply unix_locks_note|].
    eapply rtc_l; [apply (unix_writes Forwarder (as_bytes "no") (as_bytes "te" ++ [NL]))|].
    apply rtc_once. apply (unix_ends _ (Some (Forwarder, as_bytes "te" ++ [NL]))). by intros []. }
  split; [exact Hc|]. destruct (unix_lines_whole toy_unix Hc) as (w & n & c & H1 & H2 & H3 & H4 & _ & H5).
  exists w, n, c. refine (conj H1 (conj H2 (conj H3 (conj H4 (H5 _))))).
  apply (bool_decide_unpack _). vm_compute. exact I.
Defined.
