(* ===== verification/Attach.v ===== *)
(** * Attach: attaching to a session ([mxdx-client/attach.rs])

    How a client follows a session: over a data channel, over its direct room
    or by its thread; and how that changes when the channel comes and goes. *)
From S2P Require Import Prelude Json Effects MatrixDelivery Toys.
From stdpp Require Import options.

Record AttachTarget := mkTarget {
  at_session_uuid : string; at_room_id : string; at_thread_root : string; at_interactive : bool;
  at_worker_id : string; at_dm_room_id : option string }.

Inductive AttachMode : Type := TailThread | InteractiveDm | Interactive.
Inductive WebRtcState : Type := Disabled | Negotiating | Connected | Disconnected.
#[export] Instance attach_mode_eq_dec : EqDecision AttachMode.
Proof. solve_decision. Defined.
#[export] Instance web_rtc_state_eq_dec : EqDecision WebRtcState.
Proof. solve_decision. Defined.

Definition determine_attach_mode (interactive webrtc_available has_dm_room : bool) : AttachMode :=
  if interactive && webrtc_available then Interactive
  else if interactive && has_dm_room then InteractiveDm
  else TailThread.

Record AttachContext := mkAttach { at_target : AttachTarget; at_mode : AttachMode; at_webrtc : WebRtcState }.

Definition is_some {A} (x : option A) : bool := match x with Some _ => true | None => false end.

Definition attach_new (target : AttachTarget) (force_interactive webrtc_available : bool) : AttachContext :=
  let mode := determine_attach_mode (force_interactive && at_interactive target) webrtc_available
                (is_some (at_dm_room_id target)) in
  mkAttach target mode (match mode with Interactive => Negotiating | InteractiveDm | TailThread => Disabled end).

Definition handle_disconnect (c : AttachContext) : AttachContext :=
  mkAttach (at_target c) (if is_some (at_dm_room_id (at_target c)) then InteractiveDm else TailThread) Disconnected.
Definition handle_reconnect (c : AttachContext) : AttachContext := mkAttach (at_target c) Interactive Connected.

(** What the channel does to a context. *)
Inductive ChannelChange : Type := ChannelLost | ChannelBack.
Definition attach_change (c : AttachContext) (e : ChannelChange) : AttachContext :=
  match e with ChannelLost => handle_disconnect c | ChannelBack => handle_reconnect c end.

Section events.
Context {V : Type} `{JsonValue V}.

Definition event_content (event : V) : V := default event (get event "content").
Fixpoint find_dm_room_from_start_event (events : list V) (session_uuid : string) : option string :=
  match events with
  | [] => None
  | event :: events =>
      if decide (get_str event "type" = Some "org.mxdx.session.start") then
        if decide (get_str (event_content event) "session_uuid" = Some session_uuid)
        then get_str (event_content event) "dm_room_id"
        else find_dm_room_from_start_event events session_uuid
      else find_dm_room_from_start_event events session_uuid
  end.

(** The start of a session. *)
Definition starts (session_uuid : string) (event : V) : Prop :=
  get_str event "type" = Some "org.mxdx.session.start" ∧
  get_str (event_content event) "session_uuid" = Some session_uuid.
#[export] Instance starts_dec session_uuid event : Decision (starts session_uuid event).
Proof. unfold starts. apply _. Defined.

(** The first event that starts the session decides, whether it names a room
    or not. *)
Theorem dm_room_of_first_start events session_uuid :
  find_dm_room_from_start_event events session_uuid
  = (e ← head (filter (starts session_uuid) events); get_str (event_content e) "dm_room_id").
Proof using Type.
  induction events as [|e events IH]; [done|]. simpl find_dm_room_from_start_event. rewrite filter_cons.
  destruct (decide (starts session_uuid e)) as [[Ht Hs]|Hn].
  - by rewrite !decide_True.
  - rewrite IH. destruct (decide (get_str e "type" = _)); [|done]. rewrite decide_False; [done|]. intros ?. by apply Hn.
Qed.
End events.

(** ** The modes *)
(** A mode fits its channel and its target. *)
Definition attach_fits (c : AttachContext) : Prop :=
  match at_mode c with
  | Interactive => at_webrtc c = Negotiating ∨ at_webrtc c = Connected
  | InteractiveDm => is_Some (at_dm_room_id (at_target c)) ∧ (at_webrtc c = Disabled ∨ at_webrtc c = Disconnected)
  | TailThread => at_webrtc c = Disabled ∨ at_webrtc c = Disconnected
  end.

Lemma attach_change_fits c e : attach_fits c → attach_fits (attach_change c e).
Proof.
  intros _. destruct e; unfold attach_fits; simpl; [|by right].
  destruct (at_dm_room_id (at_target c)) eqn:E; simpl; rewrite ?E; [split; [done|]|]; by right.
Qed.

(** Whatever the channel does, a session is followed over the channel exactly
    while it is negotiated or connected, over a direct room only if the session
    has one, and after a loss over the direct room if it has one. *)
Theorem attach_follows_channel target force available changes :
  let c := foldl attach_change (attach_new target force available) changes in
  attach_fits c ∧ at_target c = target ∧
  (at_mode c = Interactive ↔ at_webrtc c = Negotiating ∨ at_webrtc c = Connected) ∧
  (at_webrtc c = Disconnected → (at_mode c = InteractiveDm ↔ is_Some (at_dm_room_id target))).
Proof.
  intros c. assert (Hc : attach_fits c ∧ at_target c = target ∧
    (at_webrtc c = Disconnected → at_mode c = if is_some (at_dm_room_id target) then InteractiveDm else TailThread)).
  { subst c. induction changes as [|e changes IH] using rev_ind.
    - unfold attach_fits, attach_new, determine_attach_mode. simpl.
      destruct force, (at_interactive target), available, (at_dm_room_id target) eqn:E; simpl; rewrite ?E; naive_solver.
    - rewrite foldl_snoc. destruct IH as (Hf & Ht & _). split; [by apply attach_change_fits|].
      destruct e; simpl; rewrite Ht; [by split|done]. }
  clearbody c. destruct Hc as (Hf & Ht & Hd). split; [done|]. split; [done|]. split.
  - unfold attach_fits in Hf. clear Hd; destruct (at_mode c), (at_webrtc c); intuition (congruence || auto).
  - intros E. rewrite (Hd E). unfold is_Some. destruct (at_dm_room_id target); simpl; split; [by eexists|done|done|by intros []].
Qed.

(** A reconnection makes a session interactive that is not. *)
Lemma reconnect_makes_interactive target force available :
  at_interactive target = false →
  at_mode (attach_new target force available) = TailThread ∧
  at_mode (handle_reconnect (attach_new target force available)) = Interactive.
Proof. intros E. unfold attach_new, determine_attach_mode. by rewrite E, andb_false_r. Qed.
