(* ===== verification/TurnTask.v ===== *)
(** * TurnTask: the task that refreshes TURN credentials
    ([mxdx-p2p/turn.rs], [TurnRefreshTask])

    [Turn] models the refresh loop as a function of what each of its turns is
    given. Here the loop is a task beside its owner: it waits in its select,
    in a fetch, or for room in the channel of outcomes, while the owner
    triggers it, receives from it, shuts it down or drops it. *)
From S2P Require Import Prelude Turn.
From stdpp Require Import relations options.

(** [mpsc::channel(8)]. *)
Definition OUTCOME_CAPACITY : nat := 8.

(** ** The fetcher *)
Section fetcher.
Context {U : Type} `{UrlOps U}.
Record HttpFetcher := mkHttpFetcher { hf_homeserver : U; hf_access_token : string }.
Definition http_fetch (build : result unit string) (http : U → string → HttpReply) (now : Z) (f : HttpFetcher)
    : result (option TurnCredentials) TurnError * list (U * string) :=
  fetch_turn_credentials build http now (hf_homeserver f) (hf_access_token f).
(** What it may answer. *)
Definition http_fetches (f : HttpFetcher) (r : result (option TurnCredentials) TurnError) : Prop :=
  ∃ build http now, r = (http_fetch build http now f).1.
End fetcher.
Arguments HttpFetcher U : clear implicits.

(** ** The task *)
(** Where the loop is. What the outside gives to a turn is fixed when the turn
    begins; in [Sending], what is sent and the loop afterwards, [None] when it
    returns. *)
Inductive Phase : Type :=
| Selecting (l : RefreshLoop)
| Fetching (l : RefreshLoop) (t : Turn)
| Sending (l : RefreshLoop) (t : Turn) (o : TurnRefreshOutcome) (next : option RefreshLoop)
| Finished
| Died
| Aborted.

(** [tk_shutdown]: whether the signal was sent, or its sender dropped;
    [tk_triggers]: the triggers that wait; [tk_outcomes]: the channel,
    [tk_received]: what was taken from it. *)
Record Task := mkTask {
  tk_phase : Phase; tk_shutdown : bool; tk_triggers : nat; tk_outcomes : list TurnRefreshOutcome;
  tk_receiver : bool; tk_received : list TurnRefreshOutcome }.

(** [spawn_with_fetcher]; [None] when the loop panics before its first turn. *)
Definition spawn_with_fetcher (initial : TurnCredentials) (now_tokio seed_now_wall : Z) : Task :=
  mkTask (match refresh_start initial now_tokio seed_now_wall with Some l => Selecting l | None => Died end)
    false 0 [] true [].

(** The loop ended: its receivers are gone. *)
Definition ended (p : Phase) : bool := match p with Finished | Died | Aborted => true | _ => false end.

Definition trigger_refresh_now (c : Task) : result unit unit * Task :=
  if ended (tk_phase c) then (Err (), c)
  else (Ok (), mkTask (tk_phase c) (tk_shutdown c) (S (tk_triggers c)) (tk_outcomes c) (tk_receiver c) (tk_received c)).
(** [shutdown] up to the [await]; it returns once the loop has ended. *)
Definition request_shutdown (c : Task) : Task :=
  mkTask (tk_phase c) true (tk_triggers c) (tk_outcomes c) (tk_receiver c) (tk_received c).
Definition task_drop (c : Task) : Task :=
  mkTask (if ended (tk_phase c) then tk_phase c else Aborted) true (tk_triggers c) (tk_outcomes c) (tk_receiver c)
    (tk_received c).

Section loop.
Variable fetches : result (option TurnCredentials) TurnError → Prop.

(** A turn that the select begins. *)
Definition wakes (l : RefreshLoop) (triggers : nat) (t : Turn) : Prop :=
  t_shutdown t = false ∧ t_trigger t = bool_decide (0 < triggers) ∧ is_Some (refresh_select l t).

Inductive loop_step : Task → Task → Prop :=
| loop_shuts_down l n o r g :
    loop_step (mkTask (Selecting l) true n o r g) (mkTask Finished true n o r g)
| loop_wakes l t n o r g :
    wakes l n t → (t_now t < hard_expiry l)%Z → fetches (t_fetch t) →
    loop_step (mkTask (Selecting l) false n o r g) (mkTask (Fetching l t) false (pred n) o r g)
| loop_expires l t n o r g :
    wakes l n t → (hard_expiry l ≤ t_now t)%Z →
    loop_step (mkTask (Selecting l) false n o r g) (mkTask (Sending l t Expired None) false (pred n) o r g)
| loop_fetched l t l' x d n o r g :
    fetch_outcome l t = Some (x, l') →
    loop_step (mkTask (Fetching l t) d n o r g) (mkTask (Sending l t x (Some l')) d n o r g)
| loop_panics l t d n o r g :
    fetch_outcome l t = None →
    loop_step (mkTask (Fetching l t) d n o r g) (mkTask Died d n o r g)
| loop_sends l t x next d n o g :
    length o < OUTCOME_CAPACITY →
    loop_step (mkTask (Sending l t x next) d n o true g)
      (mkTask (match next with Some l' => Selecting l' | None => Finished end) d n (o ++ [x]) true g)
| loop_unheard l t x next d n o g :
    loop_step (mkTask (Sending l t x next) d n o false g) (mkTask Finished d n o false g).

(** The owner of the task, and of the receiver: what it does but trigger. *)
Inductive owner_acts : Task → Task → Prop :=
| owner_shuts_down c : owner_acts c (request_shutdown c)
| owner_drops c : owner_acts c (task_drop c)
| owner_receives x p d n o r g : owner_acts (mkTask p d n (x :: o) r g) (mkTask p d n o r (g ++ [x]))
| owner_hangs_up p d n o r g : owner_acts (mkTask p d n o r g) (mkTask p d n o false g).
Inductive owner_step : Task → Task → Prop :=
| owner_triggers c : owner_step c (trigger_refresh_now c).2
| owner_other c c' : owner_acts c c' → owner_step c c'.

Definition task_step (c c' : Task) : Prop := loop_step c c' ∨ owner_step c c'.
End loop.
#[export] Hint Constructors loop_step owner_acts owner_step : turn_task.

(** ** Lemmas *)
(** All outcomes, in the order in which they were sent. *)
Definition all_outcomes (c : Task) : list TurnRefreshOutcome := tk_received c ++ tk_outcomes c.

(** ** What the task is to do: an account of its turns *)
(** What happened in a run: the triggers that were accepted, and the turns that
    the select began. *)
Inductive TurnTaskEvent : Type := Triggered | Began (t : Turn).
Definition turn_event (c c' : Task) : list TurnTaskEvent :=
  match tk_phase c, tk_phase c' with
  | Selecting _, Fetching _ t | Selecting _, Sending _ t _ _ => [Began t]
  | _, _ => []
  end.
(** The steps with what happens in them: a call of [trigger_refresh_now], whose
    trigger counts when the call answers [Ok], the steps of the loop, and what
    else the owner does. *)
Inductive task_does (fetches : result (option TurnCredentials) TurnError → Prop) : Task → list TurnTaskEvent → Task → Prop :=
| does_trigger c r c' : trigger_refresh_now c = (r, c') → task_does fetches c (match r with Ok _ => [Triggered] | Err _ => [] end) c'
| does_loop c c' : loop_step fetches c c' → task_does fetches c (turn_event c c') c'
| does_owner c c' : owner_acts c c' → task_does fetches c [] c'.
Definition accepted (es : list TurnTaskEvent) : nat := length (omap (λ e, match e with Triggered => Some () | Began _ => None end) es).
Definition began (e : TurnTaskEvent) : option Turn := match e with Began t => Some t | Triggered => None end.
Definition turns (es : list TurnTaskEvent) : list Turn := omap began es.
Definition triggered_turns (ts : list Turn) : nat := length (filter (λ t, t_trigger t = true) ts).

Inductive history (fetches : result (option TurnCredentials) TurnError → Prop) (c0 : Task) : list TurnTaskEvent → Task → Prop :=
| history_start : history fetches c0 [] c0
| history_step es e c c' : history fetches c0 es c → task_does fetches c e c' → history fetches c0 (es ++ e) c'.

(** Every run has a history. *)
Lemma run_history fetches c0 c : rtc (task_step fetches) c0 c → ∃ es, history fetches c0 es c.
Proof.
  assert (Hdoes : ∀ c c', task_step fetches c c' → ∃ e, task_does fetches c e c').
  { intros c1 c2 [Hs|[c3|c3 c4 Hs]]; eexists; [by apply does_loop|eapply does_trigger, surjective_pairing|by apply does_owner]. }
  revert c. apply rtc_ind_r; [by exists []; constructor|]. intros c c' _ [e Hs]%Hdoes [es IH].
  eexists. by eapply history_step.
Qed.

Section account.
Variable l0 : RefreshLoop.

Definition failed (t : Turn) : bool := match t_fetch t with Ok (Some _) => false | _ => true end.
(** The fetches that failed since the last that did not. *)
Definition failures (ts : list Turn) : nat := foldl (λ n t, if failed t then S n else 0) 0 ts.
(** The outcome of a turn. *)
Definition outcome_of (t : Turn) : TurnRefreshOutcome :=
  if decide (hard_expiry l0 ≤ t_now t)%Z then Expired else
  match t_fetch t with Ok (Some creds) => Refreshed creds | _ => RetryPending end.
(** When the loop is to wake after these turns: at half the life of the last
    credentials, or after 5, 10, 20, 40, 60, 60, ... seconds since the last
    failure, and then not later than the expiry. *)
Definition wake_time (ts : list Turn) : Z :=
  match last ts with
  | None => next_wake l0
  | Some t =>
      match t_fetch t with
      | Ok (Some creds) => t_done t + duration_since_or_zero (default 0 (refresh_at creds)) (t_wall t)
      | _ => Z.min (hard_expiry l0) (t_done t + from_secs (nth (Nat.min (failures ts - 1) 4) REFRESH_BACKOFF_SECS 0))
      end
  end%Z.
Definition loop_after (ts : list Turn) : RefreshLoop :=
  mkLoop (hard_expiry l0) (wake_time ts) (Nat.min (failures ts) 4).
Definition in_life (t : Turn) : Prop := (t_now t < hard_expiry l0)%Z.

(** A turn was asked for, or due. *)
Definition due (ts : list Turn) (t : Turn) : Prop := t_trigger t = true ∨ (wake_time ts ≤ t_now t)%Z.
Definition all_due (ts : list Turn) : Prop := ∀ ts1 t ts2, ts = ts1 ++ t :: ts2 → due ts1 t.

(** Where the task is after the turns [ts]. *)
Definition accounted (ts : list Turn) (c : Task) : Prop :=
  match tk_phase c with
  | Selecting l => all_outcomes c = outcome_of <$> ts ∧ l = loop_after ts ∧ Forall in_life ts
  | Fetching l t => ∃ ts0, ts = ts0 ++ [t] ∧ all_outcomes c = outcome_of <$> ts0 ∧ l = loop_after ts0 ∧ Forall in_life ts
  | Sending l t x next =>
      ∃ ts0, ts = ts0 ++ [t] ∧ all_outcomes c = outcome_of <$> ts0 ∧ x = outcome_of t ∧
        match next with Some l' => l' = loop_after ts ∧ Forall in_life ts | None => True end
  | _ => ∃ ts0 ts1, ts = ts0 ++ ts1 ∧ length ts1 ≤ 1 ∧ all_outcomes c = outcome_of <$> ts0
  end.

Lemma failures_snoc ts t : failures (ts ++ [t]) = if failed t then S (failures ts) else 0.
Proof. unfold failures. by rewrite foldl_app. Qed.

(** A fetch in its life does as the account says. *)
Lemma fetch_accounted ts t x l' :
  in_life t → fetch_outcome (loop_after ts) t = Some (x, l') → x = outcome_of t ∧ l' = loop_after (ts ++ [t]).
Proof.
  intros Hin Hf. unfold outcome_of. rewrite decide_False by (unfold in_life in Hin; lia).
  unfold fetch_outcome, add_duration in Hf. unfold loop_after, wake_time. rewrite last_snoc, failures_snoc.
  unfold failed. destruct (t_fetch t) as [[creds|]|e]; simpl in Hf.
  { destruct (refresh_at creds) as [r|]; [|done]. simpl in Hf. case_decide; [|done]. simpl in Hf. by injection Hf as <- <-. }
  all: assert (Hi : Nat.min (failures ts) 4 < 5) by lia; destruct (lookup_lt_is_Some_2 REFRESH_BACKOFF_SECS _ Hi) as [secs Hs].
  all: rewrite Hs in Hf; simpl in Hf; case_decide; [|done]; simpl in Hf; injection Hf as <- <-; split; [done|].
  all: replace (S (failures ts) - 1) with (failures ts) by lia; apply nth_lookup_Some with (d := 0%Z) in Hs; rewrite Hs.
  all: f_equal; [case_decide; lia|lia].
Qed.

Lemma wakes_due ts n t : wakes (loop_after ts) n t → due ts t.
Proof.
  intros (Hs & _ & arm & Ha). unfold refresh_select in Ha. rewrite Hs in Ha. unfold due.
  destruct (t_trigger t); [by left|right]. case_decide as Hd; [|done]. simpl in Hd. unfold duration_since_or_zero in Hd. lia.
Qed.

Lemma all_due_snoc ts t : all_due ts → due ts t → all_due (ts ++ [t]).
Proof.
  intros Hall Ht ts1 t1 ts2 E. destruct ts2 as [|t2 ts2 _] using rev_ind.
  - apply app_inj_tail in E as [-> ->]. done.
  - rewrite app_comm_cons, app_assoc in E. apply app_inj_tail in E as [-> _]. by eapply Hall.
Qed.
End account.

Section task.
Variable fetches : result (option TurnCredentials) TurnError → Prop.
Local Notation lstep := (loop_step fetches).

(** The account of a run so far. *)
Definition books (l0 : RefreshLoop) (es : list TurnTaskEvent) (c : Task) : Prop :=
  accepted es = tk_triggers c + triggered_turns (turns es) ∧ accounted l0 (turns es) c ∧ all_due l0 (turns es).

Lemma books_silent l0 es c c' :
  books l0 es c → tk_triggers c' = tk_triggers c → accounted l0 (turns es) c' → books l0 (es ++ []) c'.
Proof using Type. intros (Ht & _ & Hd) Hn Ha. rewrite app_nil_r. split; [congruence|done]. Qed.

Lemma books_began l0 es l n t d o r g c' :
  books l0 es (mkTask (Selecting l) d n o r g) → wakes l n t → tk_triggers c' = pred n →
  accounted l0 (turns es ++ [t]) c' → books l0 (es ++ [Began t]) c'.
Proof using Type.
  intros (Ht & (_ & -> & _) & Hd) Hw Hn Ha. unfold books, accepted, turns, triggered_turns in *.
  rewrite !omap_app. cbn [omap list_omap began]. rewrite app_nil_r.
  simpl in Ht. split; [|split; [done|by apply all_due_snoc; [|eapply wakes_due]]].
  rewrite filter_app, length_app, Hn, Ht. rewrite filter_cons, filter_nil. destruct Hw as (_ & Htr & _). rewrite Htr.
  case_bool_decide; case_decide; simpl; try lia; congruence.
Qed.

Lemma loop_step_books l0 es c c' : lstep c c' → books l0 es c → books l0 (es ++ turn_event c c') c'.
Proof using Type.
  intros Hs Hb. pose proof Hb as (_ & Ha & _). unfold accounted in Ha.
  destruct Hs as [l n o r g|l t n o r g Hw Hlt Hf|l t n o r g Hw Hle|l t l' x d n o r g Ho|l t d n o r g Ho|l t x next d n o g Hl|l t x next d n o g];
    simpl in Ha.
  - apply (books_silent _ _ _ _ Hb); [done|]. destruct Ha as (Ha & _).
    exists (turns es), []. rewrite app_nil_r. split_and!; [done|simpl; lia|done].
  - destruct Ha as (Ha & -> & Hin). eapply books_began; [exact Hb|done..|]. exists (turns es). split_and!; [done..|].
    apply Forall_app. split; [done|]. by apply Forall_singleton.
  - destruct Ha as (Ha & -> & Hin). eapply books_began; [exact Hb|done..|]. exists (turns es). split_and!; [done..| |done].
    unfold outcome_of. by rewrite decide_True.
  - destruct Ha as (ts0 & Hts & Ha & -> & Hin). apply (books_silent _ _ _ _ Hb); [done|].
    assert (Ht : in_life l0 t).
    { rewrite Hts in Hin. apply Forall_app in Hin as [_ Hin]. by rewrite Forall_singleton in Hin. }
    destruct (fetch_accounted _ _ _ _ _ Ht Ho) as [-> ->]. exists ts0. rewrite <-Hts. by split_and!.
  - destruct Ha as (ts0 & Hts & Ha & _). apply (books_silent _ _ _ _ Hb); [done|]. exists ts0, [t]. by split_and!.
  - destruct Ha as (ts0 & Hts & Ha & -> & Hnext).
    assert (Hall : g ++ o ++ [outcome_of l0 t] = outcome_of l0 <$> turns es).
    { rewrite Hts, fmap_app, <-Ha. unfold all_outcomes. simpl. by rewrite app_assoc. }
    assert (turn_event (mkTask (Sending l t (outcome_of l0 t) next) d n o true g)
      (mkTask (match next with Some l' => Selecting l' | None => Finished end) d n (o ++ [outcome_of l0 t]) true g) = []) as -> by by destruct next.
    apply (books_silent _ _ _ _ Hb); [done|].
    destruct next as [l'|]; [destruct Hnext as [-> Hin]; by split_and!|].
    exists (turns es), []. rewrite app_nil_r. split_and!; [done|simpl; lia|done].
  - destruct Ha as (ts0 & Hts & Ha & _). apply (books_silent _ _ _ _ Hb); [done|]. exists ts0, [t]. by split_and!.
Qed.

Lemma accounted_abort l0 ts c s n o r g :
  accounted l0 ts c → all_outcomes c = all_outcomes (mkTask Aborted s n o r g) → accounted l0 ts (mkTask Aborted s n o r g).
Proof using Type.
  unfold accounted. intros Ha <-. simpl. destruct (tk_phase c); try done.
  - destruct Ha as (Ha & _). exists ts, []. rewrite app_nil_r. split_and!; [done|simpl; lia|done].
  - destruct Ha as (ts0 & Hts & Ha & _). exists ts0, [t]. by split_and!.
  - destruct Ha as (ts0 & Hts & Ha & _). exists ts0, [t]. by split_and!.
Qed.

Lemma trigger_books l0 es c r c' :
  trigger_refresh_now c = (r, c') → books l0 es c → books l0 (es ++ match r with Ok _ => [Triggered] | Err _ => [] end) c'.
Proof using Type.
  intros Ht Hb. unfold trigger_refresh_now in Ht. destruct (ended (tk_phase c)); injection Ht as <- <-.
  { apply (books_silent _ _ _ _ Hb); [done|apply Hb]. }
  destruct Hb as (Ht & Ha & Hd). unfold books, accepted, turns, triggered_turns in *.
  rewrite !omap_app. cbn [omap list_omap began]. rewrite app_nil_r. split; [rewrite length_app; simpl; lia|]. by split.
Qed.

Lemma owner_step_books l0 es c c' : owner_acts c c' → books l0 es c → books l0 (es ++ []) c'.
Proof using Type.
  intros Hs Hb. destruct Hs as [c|c|x p d n o r g|p d n o r g].
  - apply (books_silent _ _ _ _ Hb); [done|apply Hb].
  - apply (books_silent _ _ _ _ Hb); [done|].
    destruct Hb as (_ & Ha & _). unfold task_drop. destruct (ended (tk_phase c)) eqn:E; [exact Ha|]. by eapply accounted_abort.
  - assert (Hall : all_outcomes (mkTask p d n o r (g ++ [x])) = all_outcomes (mkTask p d n (x :: o) r g)).
    { unfold all_outcomes. simpl. by rewrite <-app_assoc. }
    apply (books_silent _ _ _ _ Hb); [done|]. destruct Hb as (_ & Ha & _). unfold accounted in *. simpl in *. by rewrite Hall.
  - apply (books_silent _ _ _ _ Hb); [done|apply Hb].
Qed.

(** C23: no trigger and no fetch is lost, and the schedule is kept. Over every
    run of the task beside its owner: the triggers that were accepted are those
    that began a turn and those that still wait, and a turn that no trigger
    began came no earlier than it was due. The outcomes that were sent are those
    of the turns begun, in order and one for each: the credentials that were
    fetched, [RetryPending] for a fetch that failed, [Expired] once the expiry of
    the first credentials is reached. At most the last turn has no outcome yet,
    or has none because the task was dropped, its receiver gone, or the clock
    overflowed. While the loop waits, it is due at half the life of the
    credentials fetched last, and after [n] failures in a row 5, 10, 20, 40 or
    60 seconds after the last one, at the expiry at the latest. *)
Theorem task_accounts seed now_tokio seed_now_wall l0 es c :
  refresh_start seed now_tokio seed_now_wall = Some l0 →
  history fetches (spawn_with_fetcher seed now_tokio seed_now_wall) es c →
  accepted es = tk_triggers c + triggered_turns (turns es) ∧ all_due l0 (turns es) ∧
  (∃ done_ open_, turns es = done_ ++ open_ ∧ length open_ ≤ 1 ∧ all_outcomes c = outcome_of l0 <$> done_) ∧
  ∀ l, tk_phase c = Selecting l →
    l = loop_after l0 (turns es) ∧ all_outcomes c = outcome_of l0 <$> turns es ∧ Forall (in_life l0) (turns es).
Proof using Type.
  intros Hl Hrun. assert (Hb : books l0 es c).
  { induction Hrun as [|es e c c' _ IH Hdoes].
    2: { destruct Hdoes as [c r c' Hs|c c' Hs|c c' Hs];
           [by eapply trigger_books|by apply loop_step_books|by eapply owner_step_books]. }
    unfold spawn_with_fetcher. rewrite Hl. split; [done|]. split.
    - split_and!; [done| |constructor]. unfold loop_after, wake_time, failures. simpl.
      rewrite <-(refresh_start_loop _ _ _ _ Hl). by destruct l0.
    - intros ts1 t ts2 E. by destruct ts1. }
  destruct Hb as (Ht & Ha & Hd). split; [done|]. split; [done|]. split.
  - unfold accounted in Ha. destruct (tk_phase c) as [l|l t|l t x next| | |]; [|destruct Ha as (ts0 & Hts & Ha & _); exists ts0, [t]; by split_and!..| | |];
      [|done..]. exists (turns es), []. rewrite app_nil_r. split_and!; [done|simpl; lia|apply Ha].
  - intros l Hp. unfold accounted in Ha. rewrite Hp in Ha. destruct Ha as (? & ? & ?). by split_and!.
Qed.

(** *** Shutting down *)
(** The steps that a task has left once the signal was sent. *)
Definition steps_left (p : Phase) : nat :=
  match p with Fetching _ _ => 3 | Sending _ _ _ _ => 2 | Selecting _ => 1 | _ => 0 end.
(** Its outcome, if it has one still to send, can be sent. *)
Definition can_send (c : Task) : Prop :=
  match tk_phase c with
  | Fetching _ _ | Sending _ _ _ _ => tk_receiver c = true → length (tk_outcomes c) < OUTCOME_CAPACITY
  | _ => True
  end.

Lemma shutdown_step c c' :
  lstep c c' → tk_shutdown c = true → can_send c →
  tk_shutdown c' = true ∧ can_send c' ∧ steps_left (tk_phase c') < steps_left (tk_phase c).
Proof using Type.
  intros Hs. destruct Hs; simpl; intros Hd Hc; simplify_eq; unfold can_send in *; simpl in *;
    split_and!; auto; try (by destruct next); try lia. destruct next; simpl; lia.
Qed.

Lemma shutdown_bounded n c c' :
  nsteps lstep n c c' → tk_shutdown c = true → can_send c → n + steps_left (tk_phase c') ≤ steps_left (tk_phase c).
Proof using Type.
  induction 1 as [c|n c c1 c2 Hs _ IH]; intros Hd Hc; [lia|].
  destruct (shutdown_step _ _ Hs Hd Hc) as (Hd1 & Hc1 & Hl). specialize (IH Hd1 Hc1). lia.
Qed.

(** A shutdown ends. Once the signal was sent, and if the channel has room or
    nobody holds the receiver, the loop takes at most three more steps, and
    while it has not ended it has one to take: the fetch in flight is awaited,
    not dropped. *)
Theorem shutdown_ends c :
  tk_shutdown c = true → can_send c →
  (∀ n c', nsteps lstep n c c' → n ≤ 3) ∧ (ended (tk_phase c) = false → ∃ c', lstep c c').
Proof using Type.
  intros Hd Hc. split.
  - intros n c' Hn. pose proof (shutdown_bounded _ _ _ Hn Hd Hc). unfold steps_left in *.
    destruct (tk_phase c); simpl in *; lia.
  - destruct c as [p d n o r g]. simpl in *. subst d. destruct p as [l|l t|l t x next| | |]; try done; intros _.
    + eauto with turn_task.
    + destruct (fetch_outcome l t) as [[x l']|] eqn:E; eauto with turn_task.
    + unfold can_send in Hc. simpl in Hc. destruct r; eauto with turn_task.
Qed.

(** A shutdown may not end. With eight outcomes that nobody has received, a
    task that has one more to send takes no step, whatever its signal says,
    until one is received or the receiver is dropped. *)
Theorem shutdown_waits_for_receiver l t x next d n o g :
  length o = OUTCOME_CAPACITY → ∀ c', ¬ lstep (mkTask (Sending l t x next) d n o true g) c'.
Proof using Type. intros Hl c' Hs. inversion Hs; subst; lia. Qed.
End task.

(** *** Such a state is reached *)
(** A fetch that fails at the start of time, on a trigger. *)
Definition failing_turn : Turn := mkTurn 0 false true 0 (Ok None) 0 0 true.

Lemma failing_fetch l : backoff_idx l < 5 →
  ∃ l', fetch_outcome l failing_turn = Some (RetryPending, l') ∧ hard_expiry l' = hard_expiry l ∧ backoff_idx l' < 5.
Proof.
  intros Hi. destruct (lookup_lt_is_Some_2 REFRESH_BACKOFF_SECS (backoff_idx l) Hi) as [secs Hs].
  pose proof (backoff_secs_le _ _ Hs) as Hle. unfold fetch_outcome. simpl. rewrite Hs. simpl.
  unfold add_duration. rewrite decide_True by (unfold from_secs; lia). simpl.
  eexists. split; [done|]. simpl. split; [done|lia].
Qed.

Section reached.
Variable fetches : result (option TurnCredentials) TurnError → Prop.
Hypothesis may_fail : fetches (Ok None).
Local Notation step := (task_step fetches).

(** A trigger and the failing fetch that it causes. *)
Lemma failing_round l o : (0 < hard_expiry l)%Z → backoff_idx l < 5 →
  ∃ l', hard_expiry l' = hard_expiry l ∧ backoff_idx l' < 5 ∧
    rtc step (mkTask (Selecting l) false 0 o true [])
      (mkTask (Sending l failing_turn RetryPending (Some l')) false 0 o true []).
Proof using may_fail.
  intros Hh Hi. destruct (failing_fetch l Hi) as (l' & Hf & Hh' & Hi'). exists l'. split; [done|]. split; [done|].
  eapply rtc_l; [right; apply owner_triggers|]. simpl.
  eapply rtc_l; [left; apply (loop_wakes fetches l failing_turn 1); [by split_and!|done|done]|].
  eapply rtc_l; [left; by apply loop_fetched|]. apply rtc_refl.
Qed.

Lemma failing_rounds k l : (0 < hard_expiry l)%Z → backoff_idx l < 5 → k ≤ OUTCOME_CAPACITY →
  ∃ l', hard_expiry l' = hard_expiry l ∧ backoff_idx l' < 5 ∧
    rtc step (mkTask (Selecting l) false 0 [] true []) (mkTask (Selecting l') false 0 (replicate k RetryPending) true []).
Proof using may_fail.
  intros Hh Hi. induction k as [|k IH]; intros Hk; [by exists l|].
  destruct IH as (l1 & H1 & H2 & H3); [lia|].
  destruct (failing_round l1 (replicate k RetryPending)) as (l2 & H4 & H5 & H6); [lia|done|].
  exists l2. split; [congruence|]. split; [done|]. etrans; [exact H3|]. etrans; [exact H6|].
  apply rtc_once. left. rewrite replicate_S_end. apply (loop_sends fetches l1 failing_turn RetryPending (Some l2)).
  by rewrite length_replicate.
Qed.

(** A shutdown can hang. From every seed that has not expired at the start
    of time there is a run, nine triggers whose fetches fail and a receiver
    that is kept and not read, after which the signal to shut down was sent
    and the loop can take no step at all, so that [shutdown] waits; for ever,
    if the one who waits there is the one who would read. *)
Theorem shutdown_can_hang seed wall l0 :
  refresh_start seed 0 wall = Some l0 → (0 < hard_expiry l0)%Z →
  ∃ c, rtc step (spawn_with_fetcher seed 0 wall) c ∧ tk_shutdown c = true ∧ ended (tk_phase c) = false ∧
    ∀ c', ¬ loop_step fetches c c'.
Proof using may_fail.
  intros Hl Hh. assert (Hi : backoff_idx l0 = 0) by (by eapply refresh_start_loop).
  destruct (failing_rounds OUTCOME_CAPACITY l0) as (l1 & H1 & H2 & H3); [done|lia|done|].
  destruct (failing_round l1 (replicate OUTCOME_CAPACITY RetryPending)) as (l2 & H4 & H5 & H6); [lia|done|].
  exists (request_shutdown (mkTask (Sending l1 failing_turn RetryPending (Some l2)) false 0
            (replicate OUTCOME_CAPACITY RetryPending) true [])). split_and!; [|done|done|].
  - unfold spawn_with_fetcher. rewrite Hl. etrans; [exact H3|]. etrans; [exact H6|]. apply rtc_once. right. apply owner_other. constructor.
  - by apply shutdown_waits_for_receiver.
Qed.
End reached.

(** The outcome after a trigger need not be that of a fetch that the trigger
    caused: with a fetch in flight, the next outcome is of that fetch, and the
    trigger waits. *)
Lemma trigger_waits_for_flight fetches l t x l' g :
  fetch_outcome l t = Some (x, l') →
  ∃ c, (trigger_refresh_now (mkTask (Fetching l t) false 0 [] true g)).1 = Ok () ∧
    rtc (loop_step fetches) (trigger_refresh_now (mkTask (Fetching l t) false 0 [] true g)).2 c ∧
    tk_outcomes c = [x] ∧ tk_triggers c = 1.
Proof.
  intros Hf. exists (mkTask (Selecting l') false 1 [x] true g). split; [done|]. split; [|done]. simpl.
  eapply rtc_l; [by apply loop_fetched|]. eapply rtc_l; [apply loop_sends; unfold OUTCOME_CAPACITY; simpl; lia|apply rtc_refl].
Qed.

(** A request to the homeserver may fail, whatever it is. *)
Lemma http_may_fail `{UrlOps U} (f : HttpFetcher U) : http_fetches f (Ok None).
Proof.
  exists (Ok ()), (λ _ _, SendFailed), 0%Z. unfold http_fetch, fetch_turn_credentials. by case_match.
Qed.

(** ** Witnesses *)
#[local] Existing Instance toy_url_ops.
Definition toy_fetcher : HttpFetcher toy_url := mkHttpFetcher (mkUrl "https" (Some "h") "/") "t".

Lemma history_triggers fetches c0 es c c' :
  history fetches c0 es c → trigger_refresh_now c = (Ok (), c') → history fetches c0 (es ++ [Triggered]) c'.
Proof. intros Hc Ht. apply (history_step _ _ es [Triggered] c c' Hc). exact (does_trigger fetches c (Ok ()) c' Ht). Qed.
Lemma history_loops fetches c0 es c c' es' :
  history fetches c0 es c → loop_step fetches c c' → es ++ turn_event c c' = es' → history fetches c0 es' c'.
Proof. intros Hc Hs <-. apply (history_step _ _ es _ c c' Hc). by apply does_loop. Qed.

(** A trigger, the fetch that it causes, which fails, and another trigger. *)
Lemma task_accounts_witness :
  let es := [Triggered; Began failing_turn; Triggered] in
  ∃ c, history (http_fetches toy_fetcher) (spawn_with_fetcher (toy_creds 0) 0 0) es c ∧
    tk_triggers c = 1 ∧ all_outcomes c = [RetryPending] ∧ tk_phase c = Selecting (mkLoop (from_secs 100) (from_secs 5) 1) ∧
    loop_after toy_loop (turns es) = mkLoop (from_secs 100) (from_secs 5) 1.
Proof.
  intros es. set (l1 := mkLoop (from_secs 100) (from_secs 5) 1). set (c := mkTask (Selecting l1) false 1 [RetryPending] true []).
  assert (Hrun : history (http_fetches toy_fetcher) (spawn_with_fetcher (toy_creds 0) 0 0) es c).
  { apply (history_triggers _ _ [Triggered; Began failing_turn] (mkTask (Selecting l1) false 0 [RetryPending] true [])); [|done].
    apply (history_loops _ _ [Triggered; Began failing_turn] (mkTask (Sending toy_loop failing_turn RetryPending (Some l1)) false 0 [] true []));
      [|apply (loop_sends _ _ _ RetryPending (Some l1)); simpl; unfold OUTCOME_CAPACITY; lia|reflexivity].
    apply (history_loops _ _ [Triggered; Began failing_turn] (mkTask (Fetching toy_loop failing_turn) false 0 [] true []));
      [|by apply loop_fetched|reflexivity].
    apply (history_loops _ _ [Triggered] (mkTask (Selecting toy_loop) false 1 [] true []));
      [|apply (loop_wakes _ toy_loop failing_turn 1); [by split_and!|done|apply http_may_fail]|reflexivity].
    by apply (history_triggers _ _ [] (spawn_with_fetcher (toy_creds 0) 0 0)); [apply history_start|]. }
  destruct (task_accounts (http_fetches toy_fetcher) (toy_creds 0) 0 0 toy_loop es c eq_refl Hrun) as (_ & _ & _ & Hsel).
  exists c. split; [exact Hrun|]. split; [reflexivity|]. split; [reflexivity|]. split; [reflexivity|].
  symmetry. exact (proj1 (Hsel l1 eq_refl)).
Defined.
