(* ===== verification/FabricMain.v ===== *)
(** * FabricMain: the program of the fabric ([mxdx-fabric-cli/main.rs])

    From the options and the configuration to a command with all that it needs,
    and the two commands that do not end: the coordinator, restarted when its
    loop fails, and the worker, which claims one task after the other. The
    other commands are those of [FabricCli]. *)
From S2P Require Import Coordinator.
From S2P Require Import Prelude Text Instants Json Fabric FabricClaim Signaling P2PCrypto MatrixTypes Effects Rest MatrixClient MatrixRooms MatrixDelivery SessionJson Liveness Keychain MatrixSession ClientCli ClientDirect FabricProcess FabricCli Toys.
From stdpp Require Import options.

(** ** Options *)
Inductive FabricCommand : Type :=
| FcPost (capabilities prompt : string) (timeout : Z) (p2p_stream : bool) (task_uuid payload_json : option string)
| FcStatus (task_uuid : string) (room : option string)
| FcWatch (task_uuid : string) (room : option string)
| FcLogs (task_uuid : string) (room : option string)
| FcCoordinator (coordinator_user_id coordinator_device_id : option string)
| FcCapabilities (worker_id : option string)
| FcHistory (limit : nat) (status : string) (date since from_date to_date : option string)
| FcWorker (capabilities available_bins : string) (worker_user_id worker_device_id : option string).

(** A command with what it was resolved to: homeserver, token and room first. *)
Inductive Invocation : Type :=
| InvPost (hs token room capabilities prompt : string) (timeout : Z) (p2p_stream : bool) (task_uuid payload_json : option string)
| InvStatus (hs token room task_uuid : string)
| InvWatch (hs token room task_uuid : string)
| InvLogs (hs token room task_uuid : string)
| InvCoordinator (hs token room user_id device_id : string)
| InvCapabilities (hs token room : string) (worker_id : option string)
| InvHistory (hs token room : string) (limit : nat) (status : string) (date since from_date to_date : option string)
| InvWorker (hs token room capabilities : string) (bins : list string) (user_id device_id : string).

Definition DEFAULT_COORDINATOR : string * string := ("@bel-coordinator:ca1-beta.mxdx.dev", "scfvjFQUVO").
Definition DEFAULT_WORKER : string * string := ("@bel-worker:ca1-beta.mxdx.dev", "vDLnPCG2CQ").

Definition fabric_dispatch (cli config : FabricConfig) (command : FabricCommand) : result Invocation string :=
  let? hs := resolve_option (fg_homeserver cli) (fg_homeserver config) "homeserver" in
  let? token := resolve_option (fg_token cli) (fg_token config) "token" in
  let coordinator_room := resolve_option (fg_coordinator_room cli) (fg_coordinator_room config) "coordinator-room" in
  match command with
  | FcPost capabilities prompt timeout p2p_stream task_uuid payload_json =>
      let? room := coordinator_room in
      Ok (InvPost hs token room capabilities prompt timeout p2p_stream task_uuid payload_json)
  | FcStatus task_uuid room => let? room_id := command_room room cli config in Ok (InvStatus hs token room_id task_uuid)
  | FcWatch task_uuid room => let? room_id := command_room room cli config in Ok (InvWatch hs token room_id task_uuid)
  | FcLogs task_uuid room => let? room_id := command_room room cli config in Ok (InvLogs hs token room_id task_uuid)
  | FcCoordinator user device =>
      let? room := coordinator_room in
      Ok (InvCoordinator hs token room (default DEFAULT_COORDINATOR.1 user) (default DEFAULT_COORDINATOR.2 device))
  | FcCapabilities worker_id => let? room := coordinator_room in Ok (InvCapabilities hs token room worker_id)
  | FcHistory limit status date since from_date to_date =>
      let? room := coordinator_room in Ok (InvHistory hs token room limit status date since from_date to_date)
  | FcWorker capabilities available_bins user device =>
      let? room := coordinator_room in
      Ok (InvWorker hs token room capabilities (csv_names available_bins)
            (default DEFAULT_WORKER.1 user) (default DEFAULT_WORKER.2 device))
  end.

(** ** The coordinator *)
(** A call of [bot.run()]: the turns that its syncs brought, and the error of
    the sync that ended it, unless it was a turn that did or it runs still. *)
Record BotRun (V : Type) := mkBotRun { br_turns : list (Net V * LoopTurn V); br_sync : option string }.
Arguments mkBotRun {V} br_turns br_sync.
Arguments br_turns {V} b.
Arguments br_sync {V} b.

Class FabricSleep (W : Type) := fm_sleep : Duration → W → W.

Section main.
Context {W C V : Type} `{MatrixSdk W V} `{JsonValue V} `{JsonU64 V} `{JsonI64 V} `{JsonBuild V} `{JsonContainers V}
  `{JsonNumbers V} `{HttpServer W V} `{RestExternals} `{Base64} `{ProcessHost W} `{FabricHost W} `{FabricSleep W}
  `{MatrixAuth W C} `{Host W} `{!FabricDeserialize (V := V)} `{!Payload V}.
Variables (format_ms : Z → option string) (parse_date : string → option Z) (pretty_json line_json : V → string).
Variable advertisement_of : V → option CapabilityAdvertisement.
Variable char_count : string → nat.
Variable entries : gmap string SchemaProperty → list (string * SchemaProperty).
(** How the errors of the Matrix client are printed, and a list of strings. *)
Variables (show_mx : MxError → string) (show_strings : list string → string).
Local Notation M := (Io (Terminal W) CliEnd).

(** [tokio::time::sleep]. *)
Definition sleeping (d : Duration) : M () := λ t, (Returns (), mkTerminal (fm_sleep d (tm_world t)) (tm_shown t)).
(** A failure is a value, shown and passed over. *)
Definition or_shown {A} (prefix : string) (m : Io W string A) : M (option A) :=
  r ← attempt (try_world m);
  match r with
  | Ok x => mret (Some x)
  | Err (CliFails e) => eprintln (cat [prefix; e]) ;; mret None
  | Err _ => mret None
  end.

(** What both daemons begin with. *)
Definition joined (hs token room user_id device_id : string) : M string :=
  try_world (io_map_err show_mx (connect_with_token (C := C) hs token user_id device_id)) ;;
  try_world (of_result (parse_room_id room)).

(** The loop around [bot.run()]: the same bot, five seconds after an error. *)
Fixpoint coordinator_loop (runs : list (BotRun V)) (b : CoordinatorBot V) : M (CoordinatorBot V * list (FabricEffect V)) :=
  match runs with
  | [] => mret (b, [])
  | run :: runs =>
      let '(r, b, fx) := bot_run (br_turns run) b in
      let failed := match r with Err e => Some e | Ok _ => br_sync run end in
      match failed with
      | None => mret (b, fx)
      | Some e =>
          eprintln (cat ["Coordinator error (restarting in 5s): "; e]) ;;
          sleeping (from_secs 5) ;;
          r ← coordinator_loop runs b;
          mret (r.1, fx ++ r.2)
      end
  end.
Definition cmd_coordinator (runs : list (BotRun V)) (hs token room user_id device_id : string)
    : M (CoordinatorBot V * list (FabricEffect V)) :=
  println (cat ["Coordinator running on "; hs; ", room "; room]) ;;
  room_id ← joined hs token room user_id device_id;
  now ← observe (λ t, fc_instant (tm_world t));
  coordinator_loop runs (bot_new room_id now).

(** ** The worker *)
(** [watch_and_claim]: the first event of the batch that is a task this worker
    can do and whose claim it wins. *)
Definition task_of_event (event : V) : option (TaskEvent V * string) :=
  if negb (str_eqb (default "" (get_str event "type")) EVENT_TASK) then None else
  content ← get event "content";
  t ← de_task content;
  Some (t, default "" (get_str event "event_id")).
Fixpoint watch_batch (worker_id : string) (my_caps : list string) (room_id : string) (events : list V)
    : Io W string (option (TaskEvent V * string)) :=
  match events with
  | [] => mret None
  | event :: events =>
      match task_of_event event with
      | None => watch_batch worker_id my_caps room_id events
      | Some (t, event_id) =>
          if negb (has_caps my_caps t) then watch_batch worker_id my_caps room_id events
          else
            won ← claim_task_event worker_id t room_id;
            if won : bool then mret (Some (t, event_id)) else watch_batch worker_id my_caps room_id events
      end
  end.
Definition watch_room (worker_id : string) (my_caps : list string) (room_id : string)
    : Io W string (option (TaskEvent V * string)) :=
  mx MatrixClient.sync_once ;;
  events ← mx (MatrixClient.sync_and_collect_events room_id (from_secs 1));
  watch_batch worker_id my_caps room_id events.

(** The loop; [None] after [fuel] rounds, or lines of one process. *)
Fixpoint serve_tasks (fuel : nat) (worker_id : string) (my_caps : list string) (room_id : string) : M (option ()) :=
  match fuel with
  | 0 => mret None
  | S fuel' =>
      claimed ← attempt (try_world (watch_room worker_id my_caps room_id));
      match claimed with
      | Ok (Some (t, event_id)) =>
          println (cat ["Claimed task "; uuid t]) ;;
          ran ← or_shown "Task error: " (run_task worker_id fuel t room_id event_id);
          match ran with
          | Some None => mret None
          | _ => serve_tasks fuel' worker_id my_caps room_id
          end
      | Ok None => sleeping (from_secs 2) ;; serve_tasks fuel' worker_id my_caps room_id
      | Err (CliFails e) =>
          eprintln (cat ["Worker watch error (retrying in 5s): "; e]) ;;
          sleeping (from_secs 5) ;; serve_tasks fuel' worker_id my_caps room_id
      | Err _ => serve_tasks fuel' worker_id my_caps room_id
      end
  end.
(** A turn of the task that refreshes the advertisement beside it. *)
Definition refresh_advertisement (worker_id : string) (bins : list string) (room_id : string) : M () :=
  sleeping (from_secs 60) ;;
  or_shown "Warning: periodic capability refresh failed: " (publish_capability_advertisement entries worker_id bins room_id) ;;
  mret ().

Definition cmd_worker (fuel : nat) (hs token room capabilities_csv : string) (bins : list string) (user_id device_id : string)
    : M (option ()) :=
  let caps := csv_names capabilities_csv in
  println (cat ["Worker running on "; hs; ", room "; room; ", capabilities: "; show_strings caps; ", bins: "; show_strings bins]) ;;
  room_id ← joined hs token room user_id device_id;
  try_world (advertise_capabilities user_id caps room_id) ;;
  or_shown "Warning: failed to publish capability advertisement: " (publish_capability_advertisement entries user_id bins room_id) ;;
  serve_tasks fuel user_id caps room_id.

(** ** The program *)
Definition invoke (fuel : nat) (runs : list (BotRun V)) (i : Invocation) : M () :=
  match i with
  | InvPost hs token room capabilities prompt timeout p2p_stream task_uuid payload_json =>
      cmd_post pretty_json fuel hs token room capabilities prompt timeout p2p_stream task_uuid payload_json
  | InvStatus hs token room task_uuid => cmd_status line_json hs token room task_uuid
  | InvWatch hs token room task_uuid => cmd_watch pretty_json fuel hs token room task_uuid ;; mret ()
  | InvLogs hs token room task_uuid => cmd_logs format_ms pretty_json hs token room task_uuid
  | InvCoordinator hs token room user_id device_id => cmd_coordinator runs hs token room user_id device_id ;; mret ()
  | InvCapabilities hs token room worker_id => cmd_capabilities advertisement_of char_count hs token room worker_id
  | InvHistory hs token room limit status date since from_date to_date =>
      cmd_history format_ms parse_date hs token room limit status date since from_date to_date
  | InvWorker hs token room capabilities bins user_id device_id =>
      cmd_worker fuel hs token room capabilities bins user_id device_id ;; mret ()
  end.
(** [config.toml] below the directory for configurations, or here. *)
Definition fabric_config_path (config_dir : option string) : string :=
  cat [default "." config_dir; "/mxdx-fabric/config.toml"].
Definition fabric_main (fuel : nat) (runs : list (BotRun V)) (parse : string → result FabricConfig string)
    (read_file : string → result string string) (config_dir : option string) (cli : FabricConfig) (command : FabricCommand) : M () :=
  i ← of_result (result_map_err CliFails
        (fabric_dispatch cli (load_fabric_config parse (read_file (fabric_config_path config_dir))) command));
  invoke fuel runs i.
End main.

(** ** Theorems *)
(** *** What a command is given *)
Definition inv_target (i : Invocation) : string * string * string :=
  match i with
  | InvPost hs token room _ _ _ _ _ _ | InvStatus hs token room _ | InvWatch hs token room _ | InvLogs hs token room _
  | InvCoordinator hs token room _ _ | InvCapabilities hs token room _ | InvHistory hs token room _ _ _ _ _ _
  | InvWorker hs token room _ _ _ _ => (hs, token, room)
  end.
(** The room that a command itself names. *)
Definition named_room (c : FabricCommand) : option string :=
  match c with FcStatus _ room | FcWatch _ room | FcLogs _ room => room | _ => None end.

Lemma resolve_option_ok a b name v : resolve_option a b name = Ok v ↔ or_option a b = Some v.
Proof. unfold resolve_option. destruct (or_option a b); naive_solver. Qed.
Lemma command_room_ok room cli config v :
  command_room room cli config = Ok v ↔
  or_option room (or_option (fg_coordinator_room cli) (fg_coordinator_room config)) = Some v.
Proof. unfold command_room, resolve_option, or_option. destruct room, (fg_coordinator_room cli), (fg_coordinator_room config); naive_solver. Qed.

(** A command runs exactly when there are a homeserver, a token and a room for
    it; an option on the command line wins over the file, the room that the
    command names over both. *)
Theorem dispatch_resolves cli config c hs token room :
  (∃ i, fabric_dispatch cli config c = Ok i ∧ inv_target i = (hs, token, room)) ↔
  or_option (fg_homeserver cli) (fg_homeserver config) = Some hs ∧
  or_option (fg_token cli) (fg_token config) = Some token ∧
  or_option (named_room c) (or_option (fg_coordinator_room cli) (fg_coordinator_room config)) = Some room.
Proof.
  unfold fabric_dispatch, resolve_option at 1 2.
  destruct (or_option (fg_homeserver cli) _) as [hs'|]; simpl; [|naive_solver].
  destruct (or_option (fg_token cli) _) as [token'|]; simpl; [|naive_solver].
  destruct c; simpl; unfold resolve_option;
    try (match goal with |- context [command_room ?r ?a ?b] => pose proof (command_room_ok r a b) as Hr; destruct (command_room r a b) as [room'|e] end; simpl;
         [specialize (proj1 (Hr room') eq_refl) as Hv; rewrite Hv; naive_solver|
          split; [naive_solver|intros (_ & _ & Hv%Hr); naive_solver]]);
    destruct (or_option (fg_coordinator_room cli) _) as [room'|]; simpl; naive_solver.
Qed.

(** Workers started without their options are one user on one device. *)
Lemma default_worker_shared cli config caps caps' bins bins' i i' :
  fabric_dispatch cli config (FcWorker caps bins None None) = Ok i →
  fabric_dispatch cli config (FcWorker caps' bins' None None) = Ok i' →
  ∃ u d, (∃ hs token room caps bins, i = InvWorker hs token room caps bins u d) ∧
    (∃ hs token room caps bins, i' = InvWorker hs token room caps bins u d).
Proof.
  unfold fabric_dispatch. destruct (resolve_option (fg_homeserver cli) _ _); simpl; [|done].
  destruct (resolve_option (fg_token cli) _ _); simpl; [|done].
  destruct (resolve_option (fg_coordinator_room cli) _ _); simpl; [|done]. intros [= <-] [= <-].
  exists DEFAULT_WORKER.1, DEFAULT_WORKER.2. split; repeat eexists.
Qed.

Section theorems.
Context {W C V : Type} `{MatrixSdk W V} `{JsonValue V} `{JsonU64 V} `{JsonI64 V} `{JsonBuild V} `{JsonContainers V}
  `{JsonNumbers V} `{HttpServer W V} `{RestExternals} `{Base64} `{ProcessHost W} `{FabricHost W} `{FabricSleep W}
  `{MatrixAuth W C} `{Host W} `{!FabricDeserialize (V := V)} `{PL : PayloadLaws V}.
Variable entries : gmap string SchemaProperty → list (string * SchemaProperty).
Variables (show_mx : MxError → string) (show_strings : list string → string).

(** *** The coordinator *)
Lemma coordinator_loop_fresh runs (b : CoordinatorBot V) (t : Terminal W) :
  bot_ok b → ∃ r t', coordinator_loop runs b t = (Returns r, t') ∧ posts_fresh b r.
Proof using PL.
  revert b t. induction runs as [|run runs IH]; intros b t Hb; simpl.
  { exists (b, []), t. split; [done|by apply posts_fresh_nil]. }
  pose proof (bot_run_fresh (br_turns run) b Hb) as Hr. destruct (bot_run (br_turns run) b) as [[r b1] fx1]. simpl in Hr.
  assert (Hagain : ∀ e, ∃ r' t', (eprintln (cat ["Coordinator error (restarting in 5s): "; e]) ;;
      sleeping (from_secs 5) ;; (r ← coordinator_loop runs b1; mret (r.1, fx1 ++ r.2))) t = (Returns r', t') ∧ posts_fresh b r').
  { intros e. do 2 (erewrite io_bind_step by reflexivity). set (t1 := mkTerminal _ _).
    destruct (IH b1 t1 (proj1 Hr)) as ([b2 fx2] & t2 & E & Hf). erewrite io_bind_step by exact E.
    eexists _, _. split; [done|]. by eapply posts_fresh_app. }
  destruct r as [u|e]; [destruct (br_sync run)|]; [apply Hagain| |apply Hagain].
  exists (b1, fx1), t. by split.
Qed.

(** C11: The coordinator posts a task once, restarts included. Whatever the
    room holds, whatever the network answers and however often its loop fails
    and is started again, by a task that could not be routed or by a sync: the
    coordinator posts each task uuid at most once, and what it has posted it
    has seen. *)
Theorem coordinator_posts_once runs hs token room user_id device_id (t : Terminal W) :
  match cmd_coordinator (C := C) show_mx runs hs token room user_id device_id t with
  | (Returns (b, fx), _) => NoDup (posted fx) ∧ bot_ok b ∧ ∀ u, u ∈ posted fx → u ∈ seen_task_uuids b
  | _ => True
  end.
Proof using PL.
  destruct (cmd_coordinator _ _ _ _ _ _ _ t) as [[[b fx]|e|] t'] eqn:E; [|done..].
  unfold cmd_coordinator in E. erewrite io_bind_step in E by reflexivity.
  apply io_bind_returns in E as (room_id & t1 & _ & E). rewrite io_bind_observe in E.
  destruct (coordinator_loop_fresh runs (bot_new room_id (fc_instant (tm_world t1))) t1) as (r & t2 & E2 & Hb & _ & Hn & Hp).
  { intros u e. simpl. by rewrite lookup_empty. }
  rewrite E2 in E. injection E as -> <-. simpl in *. split_and!; [done|done|]. intros u Hu. by apply Hp.
Qed.

(** *** The worker *)
(** What the worker claims: an event of the batch that is a task, that asks
    for nothing it cannot do, and of which the claim was won last. *)
Theorem watched_task_claimed worker_id caps room events (w : W) t event_id w' :
  watch_batch worker_id caps room events w = (Returns (Some (t, event_id)), w') →
  ∃ event, event ∈ events ∧ task_of_event event = Some (t, event_id) ∧
    (∀ cap, cap ∈ required_capabilities t → cap ∈ caps) ∧
    ∃ w1, claim_task_event worker_id t room w1 = (Returns true, w').
Proof using Type.
  revert w. induction events as [|event events IH]; intros w; [done|]. simpl.
  assert (Hlater : ∀ w, watch_batch worker_id caps room events w = (Returns (Some (t, event_id)), w') → ∃ e, e ∈ event :: events ∧
    task_of_event e = Some (t, event_id) ∧ (∀ cap, cap ∈ required_capabilities t → cap ∈ caps) ∧
    ∃ w1, claim_task_event worker_id t room w1 = (Returns true, w')).
  { intros w0 (e & He & Hr)%IH. exists e. split; [by right|done]. }
  destruct (task_of_event event) as [[t1 eid]|] eqn:Et; [|apply Hlater].
  destruct (has_caps caps t1) eqn:Ec; simpl; [|apply Hlater].
  intros (won & w1 & Hc & Hw)%io_bind_returns. destruct won; [|by eapply Hlater].
  injection Hw as <- <- <-. exists event. split; [left|]. split; [done|]. split; [|by exists w].
  intros cap Hin. unfold has_caps in Ec. rewrite forallb_forall in Ec.
  apply list_elem_of_In, Ec in Hin. by apply bool_decide_eq_true in Hin.
Qed.

(** What follows the claimed task in its batch is not looked at, and a sync
    delivers it once. *)
Theorem rest_of_batch_unseen worker_id caps room events later (w : W) claimed w' :
  watch_batch worker_id caps room events w = (Returns (Some claimed), w') →
  watch_batch worker_id caps room (events ++ later) w = (Returns (Some claimed), w').
Proof using Type.
  revert w. induction events as [|event events IH]; intros w; [done|]. simpl.
  destruct (task_of_event event) as [[t1 eid]|]; [|apply IH]. destruct (has_caps caps t1); simpl; [|apply IH].
  intros (won & w1 & Hc & Hw)%io_bind_returns. erewrite io_bind_step by exact Hc. destruct won; [done|by apply IH].
Qed.

(** A worker that serves goes on for ever: no failure of a sync, of a claim or
    of a task ends it. *)
Theorem worker_keeps_serving fuel worker_id caps room (t : Terminal W) :
  match (serve_tasks fuel worker_id caps room t).1 with Returns None | Panics => True | _ => False end.
Proof using Type.
  revert t. induction fuel as [|fuel IH]; intros t; [done|]. simpl serve_tasks.
  unfold attempt, try_world at 1. unfold mbind at 1, Io_bind at 1.
  destruct (watch_room worker_id caps room (tm_world t)) as [[[[t1 eid]|]|e|] w]; [|apply IH..|done].
  unfold or_shown, attempt, try_world. erewrite io_bind_step by reflexivity. simpl tm_world.
  unfold mbind, Io_bind. simpl. destruct (run_task _ _ _ _ _ _) as [[[[]|]|e|] w1]; simpl; [apply IH|done|apply IH|done].
Qed.
End theorems.

(** ** Witness: a coordinator whose first sync fails *)
#[local] Existing Instances toy_externals toy_payload_ops toy_payload_laws.
#[local] Instance calm_auth : MatrixAuth nat () := {|
  auth_build _ := mret (); auth_login_username _ _ _ _ := mret (); auth_restore_session _ _ := mret (); auth_sync_once _ _ := mret ();
  auth_user_id _ _ := Some "@u:x"; auth_device_id _ _ := Some "D"; auth_session _ _ := None; auth_bootstrap _ _ := mret ();
  auth_bootstrap_if_needed _ := mret (); backups_wait _ := mret (); backups_are_enabled _ := mret false;
  backups_exists_on_server _ := mret false; backups_disable_and_delete _ := mret (); backups_create _ := mret ();
  backups_download_room_keys _ _ := mret (); auth_joined_rooms _ _ := ["!r"]; parse_user_id := Ok; localpart_of := id |}.
#[local] Instance calm_host : Host nat := {|
  fs_create_dir_all _ := mret (); fs_set_permissions _ _ := mret (); fs_exists _ _ := false; fs_remove_dir_all _ := mret ();
  fs_temp_dir := mret "/tmp"; sys_nanos _ := 0%Z; sys_hostname _ := "h"; sys_pid _ := 1%Z |}.
#[local] Instance calm_clock : FabricHost nat := {| fc_uuid := mret "txn"; fc_instant _ := 0%Z; fc_now_ms _ := 0%Z |}.
#[local] Instance calm_sleep : FabricSleep nat := λ _ w, S w.

(** The task comes again after the restart. *)
Definition toy_runs : list (BotRun toy_payload) :=
  let t := mkTask "t" "@s:x" ["rust"] None 60 5 Abandon Abandon Auto false PNull None in
  let turn := (toy_net, mkLoopTurn [EvTask t] 0 map_to_list (λ _, 0%Z)) in
  [mkBotRun [turn] (Some "sync failed"); mkBotRun [turn] None].
Definition toy_coordinator : outcome (CoordinatorBot toy_payload * list (FabricEffect toy_payload)) CliEnd * Terminal nat :=
  cmd_coordinator (C := ()) (λ _, "down") toy_runs "h" "t" "!r" "@c:x" "D" (mkTerminal 0 []).

Lemma coordinator_posts_once_witness :
  match toy_coordinator with
  | (Returns (b, fx), t) => (posted fx = ["t"] ∧ tm_world t = 1) ∧ NoDup (posted fx)
  | _ => False
  end.
Proof.
  pose proof (coordinator_posts_once (λ _, "down") toy_runs "h" "t" "!r" "@c:x" "D" (mkTerminal 0 [])) as H.
  change (cmd_coordinator _ _ _ _ _ _ _ _) with toy_coordinator in H. revert H.
  generalize (eq_refl toy_coordinator). pattern toy_coordinator at 1 3 4.
  destruct toy_coordinator as [[[b fx]|e|] t]; intros E H; [|vm_compute in E..]; [|done..].
  split; [|exact (proj1 H)]. vm_compute in E. by simplify_eq.
Defined.
