(* ===== verification/LauncherRun.v ===== *)
(** * LauncherRun: the rest of the launcher
    ([mxdx-launcher/config.rs], [executor.rs], [telemetry/system.rs],
    [multi_hs.rs], [main.rs], and the registration of
    [mxdx-matrix/client.rs])

    Its configuration and what is left out of it, a validated command as a
    process, the telemetry of its host, the registration with several servers
    at once, and its [main]. What [toml] finds in a file, what a process
    writes, the numbers of [sysinfo] and the order in which tasks end are
    arguments. *)
From S2P Require Import Prelude Text Instants Json Fabric P2PCrypto MatrixTypes Effects Rest MatrixClient Keychain MatrixSession LauncherExec LauncherTerminal Toys.
From stdpp Require Import options.

(** ** Configuration ([config.rs]) *)
Record GlobalConfig := mkGlobal { gc_launcher_id : string; gc_data_dir : string }.
Record HomeserverConfig := mkHomeserver { hc_url : string; hc_username : string; hc_password : string }.
Inductive TelemetryDetail : Type := DetailFull | DetailSummary.
Record TelemetryConfig := mkTelemetryConfig { tc_detail_level : TelemetryDetail; tc_poll_interval_seconds : Z }.
Record LauncherConfig := mkLauncherConfig {
  lc_global : GlobalConfig; lc_homeservers : list HomeserverConfig; lc_capabilities : CapabilitiesConfig;
  lc_telemetry : TelemetryConfig }.

Definition default_max_sessions : Z := 5.
Definition default_poll_interval : Z := 60.
(** [Default::default()]: that of [CapabilitiesConfig] is derived. *)
Definition capabilities_default : CapabilitiesConfig := mkCapabilities Allowlist [] [] 0.
Definition telemetry_default : TelemetryConfig := mkTelemetryConfig DetailFull default_poll_interval.

(** The tables of a file with the keys that they have; a value of another type
    is an error before. *)
Record GlobalTable := mkGlobalTable { gt_launcher_id : option string; gt_data_dir : option string }.
Record CapabilitiesTable := mkCapabilitiesTable {
  ct_mode : option CapabilityMode; ct_allowed_commands : option (list string);
  ct_allowed_cwd_prefixes : option (list string); ct_max_sessions : option Z }.
Record TelemetryTable := mkTelemetryTable { tt_detail_level : option TelemetryDetail; tt_poll_interval_seconds : option Z }.
Record LauncherFile := mkLauncherFile {
  lf_global : option GlobalTable; lf_homeservers : option (list HomeserverConfig);
  lf_capabilities : option CapabilitiesTable; lf_telemetry : option TelemetryTable }.

Definition required {A} (name : string) (x : option A) : result A string :=
  match x with Some x => Ok x | None => Err (cat ["missing field `"; name; "`"]) end.
Definition deserialize_non_empty_string (s : string) : result string string :=
  if str_eqb s "" then Err "value must not be empty" else Ok s.

Definition global_config (t : GlobalTable) : result GlobalConfig string :=
  let? id := required "launcher_id" (gt_launcher_id t) in
  let? id := deserialize_non_empty_string id in
  Ok (mkGlobal id (default "" (gt_data_dir t))).
Definition capabilities_config (t : CapabilitiesTable) : CapabilitiesConfig :=
  mkCapabilities (default Allowlist (ct_mode t)) (default [] (ct_allowed_commands t))
    (default [] (ct_allowed_cwd_prefixes t)) (default default_max_sessions (ct_max_sessions t)).
Definition telemetry_config (t : TelemetryTable) : TelemetryConfig :=
  mkTelemetryConfig (default DetailFull (tt_detail_level t)) (default default_poll_interval (tt_poll_interval_seconds t)).
(** The derived [Deserialize] with its defaults. *)
Definition launcher_config (f : LauncherFile) : result LauncherConfig string :=
  let? g := required "global" (lf_global f) in
  let? g := global_config g in
  Ok (mkLauncherConfig g (default [] (lf_homeservers f))
        (match lf_capabilities f with Some t => capabilities_config t | None => capabilities_default end)
        (match lf_telemetry f with Some t => telemetry_config t | None => telemetry_default end)).

(** Whether a warning is logged; [metadata]: the mode of the file. *)
Definition validate_config_permissions (metadata : result Z string) : result bool string :=
  let? mode := metadata in Ok (negb (bool_decide (Z.land mode 63 = 0%Z))).

(** ** Telemetry ([telemetry/system.rs]) *)
(** [FL]: [f64]. [u64] sums and differences wrap. *)
Record HostTelemetry (FL : Type) := mkHostTelemetry {
  tl_hostname : string; tl_os : string; tl_arch : string; tl_uptime : Z; tl_load_avg : FL * FL * FL;
  tl_cores : Z; tl_cpu_usage : FL; tl_memory_total : Z; tl_memory_used : Z; tl_disk_total : Z; tl_disk_used : Z;
  tl_network : option (Z * Z) }.
Arguments mkHostTelemetry {FL}.
(** What [sysinfo] says; each disk with its total and its available space. *)
Record SysInfo (FL : Type) := mkSysInfo {
  sy_host_name : option string; sy_os_version : option string; sy_arch : string; sy_uptime : Z; sy_load : FL * FL * FL;
  sy_cpus : nat; sy_cpu_usage : FL; sy_memory : Z * Z; sy_disks : list (Z * Z); sy_networks : list (Z * Z) }.
Arguments mkSysInfo {FL}.
Arguments sy_disks {FL} s.

Definition disk_totals (disks : list (Z * Z)) : Z * Z :=
  foldl (λ acc d, (wrap 64 (acc.1 + d.1), wrap 64 (acc.2 + wrap 64 (d.1 - d.2)))%Z) (0, 0)%Z disks.
Definition network_totals (networks : list (Z * Z)) : Z * Z :=
  foldl (λ acc d, (wrap 64 (acc.1 + d.1), wrap 64 (acc.2 + d.2))%Z) (0, 0)%Z networks.
Definition collect_telemetry {FL} (detail_level : TelemetryDetail) (s : SysInfo FL) : HostTelemetry FL :=
  let base := mkHostTelemetry (default "" (sy_host_name _ s)) (default "" (sy_os_version _ s)) (sy_arch _ s) (sy_uptime _ s)
                (sy_load _ s) (wrap 32 (Z.of_nat (sy_cpus _ s))) (sy_cpu_usage _ s) (sy_memory _ s).1 (sy_memory _ s).2 in
  match detail_level with
  | DetailSummary => base 0%Z 0%Z None
  | DetailFull => base (disk_totals (sy_disks s)).1 (disk_totals (sy_disks s)).2 (Some (network_totals (sy_networks _ s)))
  end.

(** ** A command as a process ([executor.rs]) *)
Record CommandResult := mkCommandResult {
  cr_exit_code : option Z; cr_stdout_lines : list string; cr_stderr_lines : list string; cr_total_seq : Z }.
(** What a process writes: the lines of a stream, or where it cannot be read. *)
Abbreviation Lines := (list (result string string)) (only parsing).
Inductive Stream : Type := Stdout | Stderr.
(** The lines taken so far, and their number. *)
Record Taken := mkTaken { tk_out : list string; tk_err : list string; tk_seq : Z }.

Definition take_one (s : Stream) (l : string) (t : Taken) : Taken :=
  match s with
  | Stdout => mkTaken (tk_out t ++ [l]) (tk_err t) (tk_seq t + 1)
  | Stderr => mkTaken (tk_out t) (tk_err t ++ [l]) (tk_seq t + 1)
  end.
(** [while let Ok(Some(l)) = next_line()]: up to the end or an error. *)
Fixpoint drain_stream (s : Stream) (lines : Lines) (t : Taken) : Taken :=
  match lines with
  | Ok l :: lines => drain_stream s lines (take_one s l t)
  | _ => t
  end.
(** The loop: [schedule] says which arm of the [select!] each turn takes;
    [None] when it is used up. *)
Fixpoint execute_loop (schedule : list Stream) (out err : Lines) (t : Taken) : option (result Taken string) :=
  match schedule with
  | [] => None
  | Stdout :: schedule =>
      match out with
      | Ok l :: out => execute_loop schedule out err (take_one Stdout l t)
      | [] => Some (Ok (drain_stream Stderr err t))
      | Err e :: _ => Some (Err (cat ["stdout read error: "; e]))
      end
  | Stderr :: schedule =>
      match err with
      | Ok l :: err => execute_loop schedule out err (take_one Stderr l t)
      | [] => Some (Ok (drain_stream Stdout out t))
      | Err e :: _ => Some (Err (cat ["stderr read error: "; e]))
      end
  end.
(** [spawned]: the streams of the process, or why it did not start. *)
Definition execute_command (spawned : ValidatedCommand → result (Lines * Lines) string) (schedule : list Stream)
    (waited : result (option Z) string) (validated : ValidatedCommand) : option (result CommandResult string) :=
  match spawned validated with
  | Err e => Some (Err (cat ["spawn failed: "; e]))
  | Ok (out, err) =>
      r ← execute_loop schedule out err (mkTaken [] [] 0);
      Some (let? t := r in
            let? code := result_map_err (λ e, cat ["wait failed: "; e]) waited in
            Ok (mkCommandResult code (tk_out t) (tk_err t) (tk_seq t)))
  end.

(** ** Registration ([client.rs]) *)
Section register.
Context {W C V : Type} `{MatrixAuth W C} `{Host W} `{HttpServer W V} `{JsonBuild V}.
Local Notation M := (Io W MxError).

Definition registration_body (username password registration_token : string) : V :=
  json_object [("username", json_string username); ("password", json_string password);
    ("auth", json_object [("type", json_string "m.login.registration_token"); ("token", json_string registration_token)])].
Definition register_and_connect (homeserver_url username password registration_token : string) : M (Connected C) :=
  resp ← io_map_err (λ e, Registration e) (http (mkRequest POST (cat [homeserver_url; "/_matrix/client/v3/register"]) ""
           (Some (registration_body username password registration_token))));
  (if is_success resp then mret () else raise (Registration (cat ["Registration failed: "; text resp]))) ;;
  tmp ← io_map_err Other fs_temp_dir;
  login_with (TempStore tmp) (HomeserverUrl homeserver_url) username password "mxdx-test" false None.
End register.

(** ** Several servers at once ([multi_hs.rs]) *)
Section start.
Context {C : Type}.

(** The tasks in the order in which they end: the first failure is that of
    all; [None] is a task that panicked. *)
Fixpoint join_all (completions : list (nat * option (result C string))) : result (list (nat * C)) string :=
  match completions with
  | [] => Ok []
  | (_, None) :: _ => Err "Task panicked"
  | (_, Some (Err e)) :: _ => Err e
  | (i, Some (Ok c)) :: completions => let? l := join_all completions in Ok ((i, c) :: l)
  end.
Definition index_le (a b : nat * C) : Prop := a.1 ≤ b.1.
#[export] Instance index_le_dec : RelDecision index_le := λ a b, decide (a.1 ≤ b.1).

(** [probe]: how long the sync of each client took. *)
Definition multi_hs_start (homeserver_urls : list string) (completions : list (nat * option (result C string)))
    (probe : nat → option Duration) : result (list C * MultiHsLauncher) string :=
  if bool_decide (homeserver_urls = []) then Err "At least one homeserver URL is required" else
  let? indexed := join_all completions in
  let clients := (merge_sort index_le indexed).*2 in
  let latencies := (λ i, (i, default MAX_LATENCY (probe i))) <$> List.seq 0 (length clients) in
  Ok (clients, mkLauncher (length clients) (default 0 (fst <$> min_latency latencies)) Active 0).

Definition hs_primary (clients : list C) (l : MultiHsLauncher) : option C := clients !! primary_index l.
End start.

(** [rsplit(':').next()], without the slashes at its end, as a [u16]; [None] is
    the panic. *)
Definition after_last_colon (url : Bytes) : Bytes := default [] (last (split_byte Byte.x3a url)).
Definition primary_port (homeserver_urls : list string) (l : MultiHsLauncher) : option Z :=
  url ← homeserver_urls !! primary_index l;
  n ← parse_u64 (trim_end_matches SLASH (after_last_colon (as_bytes url)));
  if decide (n < 2 ^ 16)%Z then Some n else None.

(** ** [main] *)
Inductive MainEnd : Type := MainReturns | MainExits (code : Z).
Definition launcher_main (native : bool) (version : string) (args : list string) : list string * list string * MainEnd :=
  if native then (["mxdx-launcher starting..."], [], MainReturns)
  else if existsb (λ a, str_eqb a "--help" || str_eqb a "-h") args then
    (["mxdx-launcher - Matrix-native fleet management launcher"; "Usage: mxdx-launcher [OPTIONS]";
      "  --help     Print this help"; "  --version  Print version"; "";
      "Note: WASI build has limited functionality."; "Full features require native build."], [], MainReturns)
  else if existsb (λ a, str_eqb a "--version" || str_eqb a "-V") args then ([cat ["mxdx-launcher "; version]], [], MainReturns)
  else ([], ["mxdx-launcher WASI build: Use --help for available options.";
             "Matrix networking not available in this distribution.";
             "Use the native binary for production use."], MainExits 1).

(** ** Lemmas *)
Lemma drain_stream_ok s (l : list string) t :
  drain_stream s (Ok <$> l) t = match s with
    | Stdout => mkTaken (tk_out t ++ l) (tk_err t) (tk_seq t + Z.of_nat (length l))
    | Stderr => mkTaken (tk_out t) (tk_err t ++ l) (tk_seq t + Z.of_nat (length l))
    end.
Proof.
  revert t. induction l as [|x l IH]; intros [o e n]; simpl.
  - destruct s; by rewrite app_nil_r, Z.add_0_r.
  - rewrite IH. destruct s; simpl; rewrite <-app_assoc; f_equal; lia.
Qed.

Lemma execute_loop_ok schedule (out err : list string) t :
  length out + length err < length schedule →
  execute_loop schedule (Ok <$> out) (Ok <$> err) t
  = Some (Ok (mkTaken (tk_out t ++ out) (tk_err t ++ err) (tk_seq t + Z.of_nat (length out + length err)))).
Proof.
  revert out err t. induction schedule as [|[] schedule IH]; intros out err t; simpl; [lia|..]; intros Hl.
  - destruct out as [|l out]; simpl.
    + rewrite drain_stream_ok, app_nil_r. done.
    + rewrite IH by (simpl in *; lia). simpl. do 3 f_equal; [by rewrite <-app_assoc|lia].
  - destruct err as [|l err]; simpl.
    + rewrite drain_stream_ok, app_nil_r, Nat.add_0_r. done.
    + rewrite IH by (simpl in *; lia). simpl. do 3 f_equal; [by rewrite <-app_assoc|lia].
Qed.

Lemma join_all_ok {C} (l : list (nat * C)) : join_all ((λ ic, (ic.1, Some (Ok ic.2))) <$> l) = Ok l.
Proof. induction l as [|[i c] l IH]; [done|]. rewrite fmap_cons. cbn [join_all fst snd]. by rewrite IH. Qed.

#[local] Instance index_le_trans {C} : Transitive (index_le (C := C)).
Proof. intros ???. unfold index_le. lia. Qed.
#[local] Instance index_le_total {C} : Total (index_le (C := C)).
Proof. intros ??. unfold index_le. lia. Qed.

(** Sorting by index undoes the order in which the tasks ended. *)
Lemma sort_by_index {C} (clients : list C) (l : list (nat * C)) :
  l ≡ₚ imap pair clients → (merge_sort index_le l).*2 = clients.
Proof.
  intros Hp. assert (Hs : merge_sort index_le l = imap pair clients).
  { apply (StronglySorted_unique_strong index_le).
    - intros [i x] [j y] Hx Hy Hij Hji. unfold index_le in *. simpl in *. assert (i = j) as -> by lia.
      rewrite merge_sort_Permutation, Hp in Hx.
      apply elem_of_lookup_imap in Hx as (? & ? & [= <- <-] & H1).
      apply elem_of_lookup_imap in Hy as (? & ? & [= <- <-] & H2). congruence.
    - apply (StronglySorted_merge_sort index_le).
    - clear. unfold index_le. change (imap pair clients) with (imap (λ i, pair (0 + i)) clients). generalize 0.
      induction clients as [|c cs IH]; intros n; [constructor|]. rewrite imap_cons. constructor.
      + rewrite (imap_ext _ (λ i, pair (S n + i))); [apply (IH (S n))|]. intros i c' _. simpl. by rewrite Nat.add_succ_r.
      + apply Forall_forall. intros [j y] (k & z & E & _)%elem_of_lookup_imap. simpl in *. simplify_eq. lia.
    - by rewrite merge_sort_Permutation. }
  rewrite Hs. rewrite fmap_imap. apply list_eq. intros i. rewrite list_lookup_imap. by destruct (clients !! i).
Qed.

(** ** Theorems *)
(** *** A command *)
(** Whatever the process writes, the loop ends: with a turn for every line
    and one more. *)
Theorem execute_ends schedule (out err : list (result string string)) t :
  length out + length err < length schedule → is_Some (execute_loop schedule out err t).
Proof.
  revert out err t. induction schedule as [|[] schedule IH]; intros out err t; simpl; [lia|..]; intros Hl.
  - destruct out as [|[l|e] out]; [done| |done]. apply IH. simpl in *. lia.
  - destruct err as [|[l|e] err]; [done| |done]. apply IH. simpl in *. lia.
Qed.

(** All that a command writes is collected. In whatever order the two streams
    are read: if every line can be read, the result has all lines of both, each
    stream in its order, as many as the count says, and the exit code. *)
Theorem execute_collects_all spawned schedule v (out err : list string) code :
  spawned v = Ok (Ok <$> out, Ok <$> err) → length out + length err < length schedule →
  execute_command spawned schedule (Ok code) v
  = Some (Ok (mkCommandResult code out err (Z.of_nat (length out + length err)))).
Proof. intros Hs Hl. unfold execute_command. rewrite Hs, execute_loop_ok by done. done. Qed.

(** Whether a line that cannot be read is reported depends on the order: an
    error, or the lines before it as if they were all. *)
Theorem read_error_depends_on_order spawned v (out err rest : list string) e code :
  spawned v = Ok (Ok <$> out, (Ok <$> err) ++ Err e :: (Ok <$> rest)) →
  (∃ schedule, execute_command spawned schedule (Ok code) v = Some (Err (cat ["stderr read error: "; e]))) ∧
  (∃ schedule, execute_command spawned schedule (Ok code) v
     = Some (Ok (mkCommandResult code out err (Z.of_nat (length out + length err))))).
Proof.
  intros Hs. unfold execute_command. rewrite Hs. split.
  - exists (replicate (S (length err)) Stderr). generalize (mkTaken [] [] 0). clear Hs.
    induction err as [|l err IH]; intros t; [done|]. apply (IH (take_one Stderr l t)).
  - exists (replicate (S (length out)) Stdout).
    assert (Hd : ∀ t, drain_stream Stderr ((Ok <$> err) ++ Err e :: (Ok <$> rest)) t
      = mkTaken (tk_out t) (tk_err t ++ err) (tk_seq t + Z.of_nat (length err))).
    { clear. induction err as [|l err IH]; intros [o r n]; simpl; [by rewrite app_nil_r, Z.add_0_r|].
      rewrite IH. simpl. f_equal; [by rewrite <-app_assoc|lia]. }
    assert (Hl : ∀ t, execute_loop (replicate (S (length out)) Stdout) (Ok <$> out) ((Ok <$> err) ++ Err e :: (Ok <$> rest)) t
      = Some (Ok (mkTaken (tk_out t ++ out) (tk_err t ++ err) (tk_seq t + Z.of_nat (length out + length err))))).
    { clear Hs. induction out as [|l out IH]; intros t; [simpl; by rewrite Hd, app_nil_r|].
      change (replicate (S (length (l :: out))) Stdout) with (Stdout :: replicate (S (length out)) Stdout).
      rewrite fmap_cons. cbn [execute_loop]. rewrite IH. simpl. do 3 f_equal; [by rewrite <-app_assoc|lia]. }
    by rewrite Hl.
Qed.

(** *** The configuration *)
(** A file is a configuration exactly if it has a launcher id that is not
    empty. *)
Theorem config_needs_id f :
  is_ok (launcher_config f) = true ↔ ∃ id, lf_global f ≫= gt_launcher_id = Some id ∧ id ≠ "".
Proof.
  unfold launcher_config, global_config, required. destruct (lf_global f) as [[[id|] dir]|]; simpl; [|by split; [|intros (? & ? & ?)]..].
  unfold deserialize_non_empty_string, str_eqb. case_bool_decide as Hid; simpl.
  - split; [done|intros (? & [= <-] & ?); done].
  - split; [intros _; by exists id|done].
Qed.

(** No sessions without a section, five with an empty one. *)
Lemma max_sessions_by_section g hs t f f' :
  launcher_config (mkLauncherFile (Some g) hs None t) = Ok f →
  launcher_config (mkLauncherFile (Some g) hs (Some (mkCapabilitiesTable None None None None)) t) = Ok f' →
  max_sessions (lc_capabilities f) = 0%Z ∧ max_sessions (lc_capabilities f') = 5%Z.
Proof. unfold launcher_config. simpl. destruct (global_config g); simpl; [|done]. by intros [= <-] [= <-]. Qed.

(** *** Telemetry *)
Lemma wrap_add_l w a b : wrap w (wrap w a + b) = wrap w (a + b).
Proof. unfold wrap. apply Zplus_mod_idemp_l. Qed.
Lemma wrap_add_r w a b : wrap w (a + wrap w b) = wrap w (a + b).
Proof. unfold wrap. apply Zplus_mod_idemp_r. Qed.
Definition sum (l : list Z) : Z := foldr Z.add 0%Z l.
Lemma disk_totals_sum (disks : list (Z * Z)) :
  disk_totals disks = (wrap 64 (sum disks.*1), wrap 64 (sum disks.*1 - sum disks.*2))%Z.
Proof.
  unfold disk_totals. assert (H : ∀ a b, foldl (λ acc d, (wrap 64 (acc.1 + d.1), wrap 64 (acc.2 + wrap 64 (d.1 - d.2)))%Z)
    (wrap 64 a, wrap 64 b) disks = (wrap 64 (a + sum disks.*1), wrap 64 (b + (sum disks.*1 - sum disks.*2)))%Z).
  { induction disks as [|[x y] disks IH]; intros a b; csimpl; [by rewrite !Z.add_0_r|].
    rewrite !wrap_add_l, wrap_add_r, IH. f_equal; f_equal; lia. }
  exact (H 0%Z 0%Z).
Qed.

(** The disk space in use is the sum of what is not available, if no disk has
    more available than it has; one that does can make it almost 2^64. *)
Theorem disk_used_exact (disks : list (Z * Z)) :
  Forall (λ d, 0 ≤ d.2 ≤ d.1)%Z disks → (sum disks.*1 < 2 ^ 64)%Z →
  disk_totals disks = (sum disks.*1, sum disks.*1 - sum disks.*2)%Z.
Proof.
  intros Hd Hs. rewrite disk_totals_sum.
  assert (Hb : (0 ≤ sum disks.*2 ≤ sum disks.*1)%Z).
  { clear Hs. induction Hd as [|[x y] disks Hxy _ IH]; csimpl in *; lia. }
  unfold wrap. rewrite !Z.mod_small by lia. done.
Qed.
Lemma disk_used_wraps total available :
  (0 ≤ total < available)%Z → (available < 2 ^ 64)%Z →
  (disk_totals [(total, available)]).2 = (2 ^ 64 - (available - total))%Z.
Proof.
  intros H1 H2. rewrite disk_totals_sum. simpl. unfold wrap. symmetry.
  apply (Z.mod_unique_pos _ _ (-1)); lia.
Qed.

(** *** Several servers *)
(** A launcher starts with the clients of all servers, or not at all. When
    every registration succeeds, the order in which they end makes no
    difference: the clients are in the order of the servers, and the primary is
    the fastest; when one fails or panics, there is no launcher. *)
Theorem start_all_or_nothing {C} urls (clients : list C) completions probe :
  urls ≠ [] → length clients = length urls →
  (completions ≡ₚ imap (λ i c, (i, Some (Ok c))) clients →
   ∃ l, launcher_start (length urls) probe = Ok l ∧ multi_hs_start urls completions probe = Ok (clients, l)) ∧
  ((∃ i e, (i, Some (Err e)) ∈ completions ∨ (i, None) ∈ completions) →
   ∃ e, multi_hs_start urls completions probe = Err e).
Proof.
  intros Hu Hlen. unfold multi_hs_start, launcher_start. rewrite bool_decide_false by done. split.
  - intros Hp. rewrite decide_False by (destruct urls; done).
    assert (Hc : ∃ l, completions = (λ ic, (ic.1, Some (Ok ic.2))) <$> l ∧ l ≡ₚ imap pair clients).
    { assert (Hi : imap (λ i c, (i, Some (Ok (E := string) c))) clients = (λ ic, (ic.1, Some (Ok ic.2))) <$> imap pair clients).
      { rewrite fmap_imap. done. }
      rewrite Hi in Hp. apply Permutation_map_inv in Hp as (l & E & Hl). exists l. split; [exact E|by symmetry]. }
    destruct Hc as (l & -> & Hl). rewrite join_all_ok. simpl. rewrite (sort_by_index clients) by done. rewrite Hlen.
    eexists. by split.
  - intros (i & e & Hin). assert (Hj : ∃ e', join_all completions = Err e').
    { induction completions as [|[j [[c|e']|]] completions IH]; simpl; [destruct Hin as [H|H]; by apply not_elem_of_nil in H| |by eexists..].
      destruct IH as [e' ->]; [|by eexists]. rewrite !elem_of_cons in Hin. destruct Hin as [[?|?]|[?|?]]; naive_solver. }
    destruct Hj as [e' ->]. by eexists.
Qed.

(** The port of a server whose URL has none cannot be asked for. *)
Lemma port_panics l : primary_index l = 0 → primary_port ["https://hs1.example.com"] l = None.
Proof. intros E. unfold primary_port. rewrite E. vm_compute. reflexivity. Qed.

(** The native program does nothing. *)
Lemma launcher_does_nothing version args :
  launcher_main true version args = (["mxdx-launcher starting..."], [], MainReturns).
Proof. done. Qed.
