(* ===== verification/Programs.v ===== *)
(** * Programs: the programs around the coordinator and the worker
    ([mxdx-coordinator/main.rs], [config.rs], [lib.rs]; [mxdx-worker/main.rs];
    [mxdx-client/identity.rs])

    From the options of a command line and the files to what is run. *)
From S2P Require Import Prelude Text Json Fabric SessionEvents MatrixTypes Effects Keychain Coordinator.
From S2P Require Import Config Diagnose WorkerStart.
From stdpp Require Import options.

(** ** The coordinator *)
Record CoordinatorArgs := mkCoordinatorArgs {
  ca_room : option string; ca_capability_room_prefix : option string; ca_default_on_timeout : option string;
  ca_default_on_heartbeat_miss : option string }.
Record CoordinatorRuntimeConfig := mkCoordinatorRuntime { cr_defaults : DefaultsConfig; cr_coordinator : CoordinatorConfig }.

Definition coordinator_from_parts (d : DefaultsConfig) (c : CoordinatorConfig) : CoordinatorRuntimeConfig :=
  mkCoordinatorRuntime d c.
Definition coordinator_overrides (args : CoordinatorArgs) (cfg : CoordinatorRuntimeConfig) : CoordinatorRuntimeConfig :=
  let c := cr_coordinator cfg in
  mkCoordinatorRuntime (cr_defaults cfg)
    (mkCoordinatorConfig (match ca_room args with Some r => Some r | None => co_room c end)
       (match ca_capability_room_prefix args with Some p => Some p | None => capability_room_prefix c end)
       (default (default_on_timeout c) (ca_default_on_timeout args))
       (default (default_on_heartbeat_miss c) (ca_default_on_heartbeat_miss args))).

Section coordinator.
Context {W : Type} `{ConfigFiles W} `{TomlText}.
(** The derived [Deserialize] of both files. *)
Variables (de_defaults : Toml → result DefaultsConfig string) (de_coordinator : Toml → result CoordinatorConfig string).

Definition coordinator_load : Io W string CoordinatorRuntimeConfig :=
  c ← load_merged_config de_defaults defaults_default de_coordinator coordinator_default "defaults.toml" "coordinator.toml";
  mret (mkCoordinatorRuntime c.1 c.2).

(** The four components are made and dropped. *)
Definition run_coordinator (cfg : CoordinatorRuntimeConfig) : Io W string () :=
  let _router := router_new in
  let _index := index_new in
  mret ().
Definition coordinator_main (args : CoordinatorArgs) : Io W string () :=
  cfg ← coordinator_load;
  run_coordinator (coordinator_overrides args cfg).

(** The coordinator ends as soon as its configuration is read: it asks nothing
    of the outside but its two files, and routes nothing. *)
Theorem coordinator_ends_at_once args (w : W) :
  match coordinator_main args w with
  | (Returns _, w') => ∃ cfg, coordinator_load w = (Returns cfg, w')
  | (Raises e, w') => coordinator_load w = (Raises e, w')
  | (Panics, w') => coordinator_load w = (Panics, w')
  end.
Proof using Type.
  unfold coordinator_main, mbind, Io_bind. destruct (coordinator_load w) as [[cfg|e|] w1]; simpl; [by exists cfg|done..].
Qed.
End coordinator.

(** An option on the command line wins over the file, and only it changes
    anything. *)
Theorem coordinator_options_win args cfg :
  let c := cr_coordinator cfg in
  let c' := cr_coordinator (coordinator_overrides args cfg) in
  cr_defaults (coordinator_overrides args cfg) = cr_defaults cfg ∧
  (∀ r, co_room c' = Some r ↔ ca_room args = Some r ∨ ca_room args = None ∧ co_room c = Some r) ∧
  (∀ p, capability_room_prefix c' = Some p ↔
     ca_capability_room_prefix args = Some p ∨ ca_capability_room_prefix args = None ∧ capability_room_prefix c = Some p) ∧
  (∀ a, default_on_timeout c' = a ↔ ca_default_on_timeout args = Some a ∨ ca_default_on_timeout args = None ∧ default_on_timeout c = a) ∧
  (∀ a, default_on_heartbeat_miss c' = a ↔
     ca_default_on_heartbeat_miss args = Some a ∨ ca_default_on_heartbeat_miss args = None ∧ default_on_heartbeat_miss c = a).
Proof.
  destruct args as [[] [] [] []]; simpl; repeat split; naive_solver.
Qed.

(** ** The worker *)
Inductive WorkerCommand : Type :=
| WcStart (args : WorkerArgs)
| WcDiagnose (profile : string) (homeserver username password : option string) (pretty decrypt : bool).
(** What is run. *)
Inductive WorkerProgram : Type :=
| RunWorker (cfg : WorkerRuntimeConfig)
| RunDiagnose (binary : DiagnoseBinary) (input : DiagnoseInput).

Definition worker_program {W} (hostname : option string) (os_user : string) (load : Io W string WorkerRuntimeConfig)
    (command : WorkerCommand) : Io W string WorkerProgram :=
  match command with
  | WcStart args => cfg ← load; mret (RunWorker (worker_overrides hostname os_user args cfg))
  | WcDiagnose profile homeserver username password pretty decrypt =>
      mret (RunDiagnose Worker (mkDiagnose profile homeserver username password pretty decrypt))
  end.

(** A diagnosis reads no configuration of the worker and names the worker. *)
Lemma worker_diagnose_untouched {W} hostname os_user (load : Io W string WorkerRuntimeConfig) profile hs u p pretty decrypt (w : W) :
  worker_program hostname os_user load (WcDiagnose profile hs u p pretty decrypt) w
  = (Returns (RunDiagnose Worker (mkDiagnose profile hs u p pretty decrypt)), w).
Proof. done. Qed.

(** ** The client's identity *)
Section identity.
Context {W : Type} `{WorkerHost W}.

Definition client_identity_load_or_create (keychain : KeychainBackend W) (user_id host os_user : string) : Io W string DeviceIdentity :=
  data ← kc_get keychain (cat ["mxdx/"; user_id; "/device-id"]);
  match data with
  | Some data =>
      if valid_utf8 data then mret (mkIdentity (from_bytes data) user_id host os_user)
      else raise "invalid utf-8 sequence"
  | None =>
      device_id ← uuid_v4;
      kc_set keychain (cat ["mxdx/"; user_id; "/device-id"]) (as_bytes device_id) ;;
      mret (mkIdentity device_id user_id host os_user)
  end.

(** Client and worker of one user on one keychain are one device. *)
Theorem client_is_worker_device keychain user_id host os_user (w : W) :
  client_identity_load_or_create keychain user_id host os_user w = identity_load_or_create keychain user_id host os_user w.
Proof using Type. done. Qed.
End identity.
