(* ===== verification/WebApp.v ===== *)
(** * WebApp: the dashboard of the fleet ([mxdx-web])

    The launchers that the server knows ([state.rs]), the page and the stream
    of updates that show them ([routes/dashboard.rs], [routes/sse.rs]), and the
    routes ([routes/mod.rs], [routes/static_files.rs]). The HTTP server, the
    files that were built and the way [f64] numbers are printed are arguments;
    the broadcast channel of tokio is modelled by its documentation. *)
From S2P Require Import Prelude Text.
From stdpp Require Import options.

Inductive LauncherStatus : Type := Online | Offline | LauncherError.
Definition show_launcher_status (s : LauncherStatus) : string :=
  match s with Online => "online" | Offline => "offline" | LauncherError => "error" end.

(** [FL]: [f64]. *)
Record LauncherInfo (FL : Type) := mkLauncherInfo {
  li_id : string; li_status : LauncherStatus; li_cpu : FL; li_memory_used : Z; li_memory_total : Z; li_hostname : string }.
Arguments mkLauncherInfo {FL}.
Arguments li_id {FL} l.
Arguments li_status {FL} l.
Arguments li_cpu {FL} l.
Arguments li_memory_used {FL} l.
Arguments li_memory_total {FL} l.
Arguments li_hostname {FL} l.

(** [broadcast::channel(64)]. *)
Definition BROADCAST_CAPACITY : nat := 64.

Definition HTML_QUOTE : string := from_bytes [Byte.x22].
Definition LINE : string := from_bytes [Byte.x0a].
Definition quoted (s : string) : string := cat [HTML_QUOTE; s; HTML_QUOTE].

Section app.
Context {FL : Type}.
Local Abbreviation Info := (LauncherInfo FL).

(** ** The state ([state.rs]) *)
(** [as_sent]: all that was broadcast. *)
Record AppState := mkApp { as_launchers : list Info; as_sent : list Info }.
Definition app_new : AppState := mkApp [] [].

Fixpoint put_launcher (info : Info) (launchers : list Info) : list Info :=
  match launchers with
  | [] => [info]
  | l :: launchers => if str_eqb (li_id l) (li_id info) then info :: launchers else l :: put_launcher info launchers
  end.
Definition update_launcher (info : Info) (st : AppState) : AppState :=
  mkApp (put_launcher info (as_launchers st)) (as_sent st ++ [info]).

(** *** A receiver of the broadcast *)
(** It is at a place in what was sent; when more than the capacity follows,
    what is older is gone, and it is told so once. *)
Inductive BroadcastRecv : Type := BcValue (info : Info) | BcLagged (skipped : nat) | BcEmpty.
Definition broadcast_recv (sent : list Info) (at_ : nat) : BroadcastRecv * nat :=
  if decide (at_ + BROADCAST_CAPACITY < length sent)
  then (BcLagged (length sent - BROADCAST_CAPACITY - at_), length sent - BROADCAST_CAPACITY)
  else match sent !! at_ with Some info => (BcValue info, S at_) | None => (BcEmpty, at_) end.

(** *** The stream of updates ([routes/sse.rs]) *)
(** What happens to a client of the stream: the state is updated, or its task
    receives. *)
Inductive SseInput : Type := SseUpdate (info : Info) | SsePoll.
(** The state, the place of the receiver, and the events that were shown. *)
Definition sse_step (s : AppState * nat * list Info) (i : SseInput) : AppState * nat * list Info :=
  let '(st, at_, shown) := s in
  match i with
  | SseUpdate info => (update_launcher info st, at_, shown)
  | SsePoll =>
      match broadcast_recv (as_sent st) at_ with
      | (BcValue info, at_) => (st, at_, shown ++ [info])
      | (BcLagged _, at_) | (BcEmpty, at_) => (st, at_, shown)
      end
  end.
(** From its subscription on. *)
Definition sse_run (st : AppState) (inputs : list SseInput) : AppState * nat * list Info :=
  foldl sse_step (st, length (as_sent st), []) inputs.
End app.
Arguments AppState : clear implicits.

(** ** Rendering *)
Section render.
Context {FL : Type}.
Local Abbreviation Info := (LauncherInfo FL).
Local Abbreviation AppState := (AppState FL).
Variable show_f64 : FL → string.
(** [format!("{:.1}", used as f64 / total as f64 * 100.0)]. *)
Variable percent : Z → Z → string.
Definition memory_text (l : Info) : string :=
  if decide (0 < li_memory_total l)%Z then percent (li_memory_used l) (li_memory_total l) else "0.0".
Definition status_text (l : Info) : string := show_launcher_status (li_status l).

(** What both renderings have after the opening tag. *)
Definition launcher_lines (l : Info) : list string :=
  [LINE; "  <h2>"; li_id l; "</h2>"; LINE;
   "  <span class="; quoted (cat ["status status-"; status_text l]); ">"; status_text l; "</span>"; LINE;
   "  <p>Host: "; li_hostname l; "</p>"; LINE;
   "  <p>CPU: "; show_f64 (li_cpu l); "%</p>"; LINE;
   "  <p>Memory: "; memory_text l; "%</p>"; LINE; "</div>"].
Definition launcher_card (l : Info) : string :=
  cat (["<div class="; quoted "launcher-card"; " data-id="; quoted (li_id l); ">"] ++ launcher_lines l).
Definition render_launcher_cards (launchers : list Info) : string :=
  match launchers with
  | [] => "<p>No launchers connected.</p>"
  | _ => String.concat LINE (launcher_card <$> launchers)
  end.
Definition dashboard_page (st : AppState) : string :=
  cat ["<div id="; quoted "dashboard"; " hx-get="; quoted "/dashboard"; " hx-trigger="; quoted "every 5s"; " hx-swap=";
       quoted "outerHTML"; ">"; LINE; "  <h1>mxdx Dashboard</h1>"; LINE; "  <div class="; quoted "launcher-grid"; ">";
       render_launcher_cards (as_launchers st); "</div>"; LINE; "</div>"].

Definition render_launcher_oob_fragment (l : Info) : string :=
  cat (["<div id="; quoted (cat ["launcher-"; li_id l]); " class="; quoted "launcher-card"; " data-id="; quoted (li_id l);
        " hx-swap-oob="; quoted "true"; ">"] ++ launcher_lines l).

Definition sse_event (l : Info) : string * string := ("launcher-update", render_launcher_oob_fragment l).

(** ** Routes *)
Record WebResponse := mkWeb { wb_status : Z; wb_content_type : option string; wb_csp : option string; wb_body : string }.
Definition CSP : string :=
  "default-src 'self'; script-src 'self' 'wasm-unsafe-eval'; style-src 'self' 'unsafe-inline'; connect-src 'self' https: wss:; worker-src 'self'".
Definition dist_dir (env : option string) : string := default "packages/web-console/dist" env.

(** [read_file]; [serve_dir]: a file that was built; [sse]: the body of the
    stream. *)
Variables (read_file : string → result string string) (serve_dir : string → string → option WebResponse).
Variables (manifest service_worker : string) (sse_body : AppState → string).

Definition index_fallback (dist : string) : WebResponse :=
  match read_file (cat [dist; "/index.html"]) with
  | Ok html => mkWeb 200 (Some "text/html; charset=utf-8") None html
  | Err _ => mkWeb 404 (Some "text/plain; charset=utf-8") None
               "Web console not built. Run: cd packages/web-console && npx vite build"
  end.
(** [get(..)] of the path: another method is refused. *)
Definition get_route (is_get : bool) (r : WebResponse) : WebResponse := if is_get then r else mkWeb 405 None None "".
Definition respond (dist : string) (st : AppState) (is_get : bool) (path : string) : WebResponse :=
  if str_eqb path "/dashboard" then get_route is_get (mkWeb 200 (Some "text/html; charset=utf-8") None (dashboard_page st))
  else if str_eqb path "/sse/launchers" then get_route is_get (mkWeb 200 (Some "text/event-stream") None (sse_body st))
  else if str_eqb path "/manifest.webmanifest" then get_route is_get (mkWeb 200 (Some "application/manifest+json") None manifest)
  else if str_eqb path "/sw.js" then get_route is_get (mkWeb 200 (Some "application/javascript") None service_worker)
  else default (index_fallback dist) (serve_dir dist path).
(** The layer around all of it. *)
Definition build_router (dist : string) (st : AppState) (is_get : bool) (path : string) : WebResponse :=
  let r := respond dist st is_get path in
  mkWeb (wb_status r) (wb_content_type r) (Some CSP) (wb_body r).
(** The program serves one state, which nothing updates. *)
Definition web_main (dist : string) : bool → string → WebResponse := build_router dist app_new.
End render.

(** ** Lemmas *)
Section lemmas.
Context {FL : Type}.
Local Abbreviation Info := (LauncherInfo FL).
Local Abbreviation AppState := (AppState FL).
Local Abbreviation SseInput := (SseInput (FL := FL)).
Lemma put_launcher_ids (info : Info) (ls : list Info) : li_id <$> put_launcher info ls =
  if bool_decide (li_id info ∈ li_id <$> ls) then li_id <$> ls else (li_id <$> ls) ++ [li_id info].
Proof using Type.
  induction ls as [|l ls IH]; [done|]. simpl put_launcher. unfold str_eqb.
  destruct (bool_decide_reflect (li_id l = li_id info)) as [E|E].
  - rewrite !fmap_cons, E, bool_decide_true by left. done.
  - rewrite !fmap_cons, IH. case_bool_decide as H.
    + by rewrite bool_decide_true by (by right).
    + rewrite bool_decide_false; [done|]. rewrite elem_of_cons. naive_solver.
Qed.

Lemma put_launcher_elem (info : Info) (ls : list Info) (x : Info) :
  NoDup (li_id <$> ls) →
  x ∈ put_launcher info ls ↔ x = info ∨ (x ∈ ls ∧ li_id x ≠ li_id info).
Proof using Type.
  induction ls as [|l ls IH]; simpl put_launcher.
  { intros _. rewrite list_elem_of_singleton. split; [by left|]. by intros [?|[?%not_elem_of_nil ?]]. }
  rewrite fmap_cons, NoDup_cons. intros [Hl Hn]. unfold str_eqb.
  destruct (bool_decide_reflect (li_id l = li_id info)) as [E|E]; rewrite !elem_of_cons.
  - split; [|naive_solver]. intros [->|Hx]; [by left|]. right. split; [by right|]. intros E'. apply Hl.
    rewrite E, <-E'. by apply list_elem_of_fmap_2.
  - rewrite IH by done. naive_solver.
Qed.

Definition all_updates (updates : list Info) : AppState := foldl (λ st i, update_launcher i st) app_new updates.

(** *** The stream *)
Definition updates_of (inputs : list SseInput) : list Info :=
  omap (λ i, match i with SseUpdate info => Some info | SsePoll => None end) inputs.

Record SseInv (st0 : AppState) (updates : list Info) (s : AppState * nat * list Info) : Prop := {
  sse_sent : as_sent s.1.1 = as_sent st0 ++ updates;
  sse_place : length (as_sent st0) ≤ s.1.2 ≤ length (as_sent s.1.1);
  sse_order : s.2 `sublist_of` take (s.1.2 - length (as_sent st0)) updates;
  sse_caught_up : s.1.2 = length (as_sent s.1.1) → last s.2 = last updates;
  sse_all : length updates ≤ BROADCAST_CAPACITY → s.2 = take (s.1.2 - length (as_sent st0)) updates }.

Lemma sse_run_inv st0 inputs : SseInv st0 (updates_of inputs) (sse_run st0 inputs).
Proof using Type.
  induction inputs as [|i inputs IH] using rev_ind.
  { split; simpl; rewrite ?app_nil_r, ?Nat.sub_diag; auto. }
  unfold sse_run, updates_of in *. rewrite foldl_snoc, omap_app. fold (sse_run st0 inputs) in *. fold (updates_of inputs) in *.
  destruct (sse_run st0 inputs) as [[st at_] shown]. set (base := length (as_sent st0)) in *.
  set (us := updates_of inputs) in *. destruct IH as [Hs Hp Ho Hc Ha]. simpl in *. fold base in Hp, Ho, Ha.
  assert (Hlen : length (as_sent st) = base + length us) by (by rewrite Hs, length_app).
  destruct i as [info|]; simpl.
  - split; simpl; fold base; rewrite ?length_app; simpl; try lia.
    + by rewrite Hs, app_assoc.
    + rewrite take_app_le by lia. done.
    + intros Hle. rewrite take_app_le by lia. apply Ha. lia.
  - rewrite app_nil_r. unfold broadcast_recv. case_decide as Hlag.
    + split; simpl; fold base; try done; try (unfold BROADCAST_CAPACITY in *; lia).
      * etrans; [exact Ho|]. replace (take (at_ - base) us) with (take (at_ - base) (take (length (as_sent st) - BROADCAST_CAPACITY - base) us)).
        { apply sublist_take. }
        rewrite take_take. f_equal. lia.
    + destruct (as_sent st !! at_) as [info|] eqn:Hat; [|by split].
      pose proof (lookup_lt_Some _ _ _ Hat) as Hlt.
      assert (Hus : us !! (at_ - base) = Some info).
      { rewrite Hs in Hat. rewrite lookup_app_r in Hat by (subst base; lia). done. }
      assert (Htake : take (S at_ - base) us = take (at_ - base) us ++ [info]).
      { rewrite Nat.sub_succ_l by lia. by apply take_S_r. }
      split; simpl; fold base; try done; try lia.
      * rewrite Htake. by apply sublist_app.
      * intros E. rewrite last_snoc. rewrite last_lookup. rewrite <-Hus. f_equal. lia.
      * intros Hle. rewrite Htake. f_equal. by apply Ha.
Qed.

(** ** Theorems *)
(** The server shows each launcher once, as it was last reported: a launcher
    is listed exactly if it is the last report under its id. *)
Theorem launchers_latest (updates : list Info) :
  NoDup (li_id <$> as_launchers (all_updates updates)) ∧
  ∀ info : Info, info ∈ as_launchers (all_updates updates) ↔ last (filter (λ u, li_id u = li_id info) updates) = Some info.
Proof using Type.
  unfold all_updates. induction updates as [|u updates [IHn IH]] using rev_ind.
  { split; [constructor|]. intros info. simpl. split; [by intros ?%not_elem_of_nil|done]. }
  rewrite foldl_snoc. simpl. split.
  - rewrite put_launcher_ids. case_bool_decide as H; [done|]. apply NoDup_app. split; [done|]. split; [|apply NoDup_singleton].
    intros x Hx ->%list_elem_of_singleton. done.
  - intros info. rewrite put_launcher_elem, filter_app, filter_cons, filter_nil, IH by done.
    destruct (decide (li_id u = li_id info)) as [E|E].
    + rewrite last_snoc. split; [intros [->|[_ ?]]; [done|congruence]|]. intros [= ->]. by left.
    + rewrite app_nil_r. split; [intros [->|[? _]]; done|]. intros Hl. right. split; [done|congruence].
Qed.

(** The stream of updates. A client sees updates since its subscription, in
    their order, each at most once; it sees all that it had time for unless it
    falls more than 64 behind; and whenever it has received all there is, the
    last that it saw is the last there was. *)
Theorem sse_shows_updates st0 (inputs : list SseInput) :
  let '(st, at_, shown) := sse_run st0 inputs in
  shown `sublist_of` updates_of inputs ∧
  (length (updates_of inputs) ≤ BROADCAST_CAPACITY → shown `prefix_of` updates_of inputs) ∧
  (at_ = length (as_sent st) → last shown = last (updates_of inputs)).
Proof using Type.
  pose proof (sse_run_inv st0 inputs) as [Hs Hp Ho Hc Ha]. destruct (sse_run st0 inputs) as [[st at_] shown]. simpl in *.
  split_and!; [|intros Hl; rewrite (Ha Hl); apply prefix_take|done].
  etrans; [exact Ho|apply sublist_take].
Qed.
End lemmas.

Section pages.
Context {FL : Type}.
Local Abbreviation Info := (LauncherInfo FL).
Variables (show_f64 : FL → string) (percent : Z → Z → string).

Definition within (s t : string) : Prop := ∃ a b, t = cat [a; s; b].
Lemma cat_app l k : cat (l ++ k) = cat [cat l; cat k].
Proof.
  apply (inj as_bytes). rewrite !cat_cons. change (as_bytes (cat [])) with (@nil Byte.byte). rewrite app_nil_r.
  induction l as [|s l IH]; [done|]. change ((s :: l) ++ k) with (s :: (l ++ k)). by rewrite !cat_cons, <-app_assoc, IH.
Qed.
Lemma within_cat s l : s ∈ l → within s (cat l).
Proof.
  intros (l1 & l2 & ->)%list_elem_of_split. exists (cat l1), (cat l2). apply (inj as_bytes).
  rewrite cat_app, !cat_cons. simpl. by rewrite !app_nil_r.
Qed.
Lemma within_trans s t u : within s t → within t u → within s u.
Proof.
  intros (a & b & ->) (c & d & ->). exists (cat [c; a]), (cat [b; d]). apply (inj as_bytes).
  rewrite !cat_cons. simpl. by rewrite !app_nil_r, !app_assoc.
Qed.
Lemma within_concat sep s l : s ∈ l → within s (String.concat sep l).
Proof.
  induction l as [|x l IH]; [by intros ?%not_elem_of_nil|]. intros [->|Hs]%elem_of_cons.
  - destruct l as [|y l]; [exists "", ""|exists "", (String.append sep (String.concat sep (y :: l)))];
      apply (inj as_bytes); rewrite !cat_cons; simpl; rewrite ?as_bytes_append; simpl; by rewrite ?app_nil_r.
  - apply (within_trans _ _ _ (IH Hs)). destruct l as [|y l]; [by apply not_elem_of_nil in Hs|].
    exists (String.append x sep), "". apply (inj as_bytes). rewrite !cat_cons. simpl. rewrite !as_bytes_append. simpl.
    by rewrite !app_nil_r, app_assoc.
Qed.

(** What a launcher says of itself is put into the page as it is: whatever its
    host name, markup and scripts included, it is a part of the dashboard and
    of the update that is sent to every client. *)
Theorem hostname_not_escaped (info : Info) (st : AppState FL) :
  (info ∈ as_launchers st → within (li_hostname info) (dashboard_page show_f64 percent st)) ∧
  within (li_hostname info) (sse_event show_f64 percent info).2.
Proof using Type.
  assert (Hl : ∀ opening, within (li_hostname info) (cat (opening ++ launcher_lines show_f64 percent info))).
  { intros opening. apply within_cat. apply elem_of_app. right. unfold launcher_lines. set_solver. }
  split; [|apply Hl]. intros Hi. apply (within_trans _ (launcher_card show_f64 percent info)); [apply Hl|].
  eapply within_trans; [apply (within_concat LINE _ (launcher_card show_f64 percent <$> as_launchers st)), (list_elem_of_fmap_2 _ _ info), Hi|].
  apply within_cat. unfold render_launcher_cards. destruct (as_launchers st) as [|l ls]; [by apply not_elem_of_nil in Hi|].
  set_solver.
Qed.
End pages.

(** The update of a launcher is addressed to an element that the dashboard does
    not have: its cards carry no [id]. *)
Definition toy_launcher : LauncherInfo () := mkLauncherInfo "l1" Online () 1 2 "h".
Definition has_text (needle text : string) : bool :=
  existsb (λ n, starts_with (as_bytes needle) (drop n (as_bytes text))) (seq 0 (String.length text)).
Lemma update_has_no_target :
  has_text (cat [" id="; quoted "launcher-l1"]) (render_launcher_oob_fragment (λ _, "1") (λ _ _, "50.0") toy_launcher) = true ∧
  has_text (cat [" id="; HTML_QUOTE; "launcher-"])
    (dashboard_page (λ _, "1") (λ _ _, "50.0") (update_launcher toy_launcher app_new)) = false.
Proof. split; vm_compute; reflexivity. Qed.
