(* ===== verification/DaemonRun.v ===== *)
(** * DaemonRun: the life of daemons ([mxdx-client/daemon/mod.rs],
    [daemon/transport/unix.rs], the stale files of [cli/connect.rs])

    A daemon writes its pid, serves a socket from a task of its own and, when
    its loop ends, removes both files. Nothing keeps a second daemon of the
    same profile from starting, and clients remove the files of one that is
    gone: the processes of a profile share its directory. A state has the files
    and where each process is; a move is one call of one process that touches
    the files, so that runs are all the interleavings. *)
From S2P Require Import Prelude Text Instants Json Fabric SessionEvents Signaling P2PCrypto MatrixTypes Effects Rest MatrixClient MatrixRooms Liveness MatrixDelivery SessionJson ClientSessions ClientProtocol RoomEvents MatrixSession ClientDaemon LauncherExec WorkerHost.
From stdpp Require Import relations options.

(** ** Where the files are *)
(** [join]: an absolute path replaces what it is joined to. *)
Definition join_any (base p : string) : string := if is_absolute_path (as_bytes p) then p else path_join base p.
Definition daemon_dir (home : string) : string := path_join (path_join home ".mxdx") "daemon".
(** [None]: no home directory, the [expect] fails. *)
Definition socket_path (home : option string) (profile : string) : option string :=
  h ← home; Some (join_any (daemon_dir h) (cat [profile; ".sock"])).
Definition pid_path (home : option string) (profile : string) : option string :=
  h ← home; Some (join_any (daemon_dir h) (cat [profile; ".pid"])).

(** ** The files of a profile *)
(** [0o700] and [0o600]. *)
Definition DIR_MODE : Z := 448.
Definition SOCKET_MODE : Z := 384.

(** A socket stays as a file when the process that bound it is gone. *)
Record SocketFile := mkSocket { sock_owner : Z; sock_mode : Z }.
Record DaemonFiles := mkFiles { f_dir : option Z; f_sock : option SocketFile; f_pid : option Z }.
Definition set_dir (m : option Z) (f : DaemonFiles) : DaemonFiles := mkFiles m (f_sock f) (f_pid f).
Definition set_sock (s : option SocketFile) (f : DaemonFiles) : DaemonFiles := mkFiles (f_dir f) s (f_pid f).
Definition set_pid (p : option Z) (f : DaemonFiles) : DaemonFiles := mkFiles (f_dir f) (f_sock f) p.
(** [create_dir_all]: a directory that is there stays as it is. *)
Definition make_dir (mode : Z) (f : DaemonFiles) : DaemonFiles :=
  match f_dir f with None => set_dir (Some mode) f | Some _ => f end.

(** ** The task that serves the socket *)
Inductive Serve : Type := SvCheck | SvRemove | SvMakeDir | SvBind | SvChmod | SvListens | SvFailed.
#[export] Instance serve_eq_dec : EqDecision Serve.
Proof. solve_decision. Defined.

(** The next call of [unix::serve], in process [p]; [mode] is what a new file
    gets. [None]: it accepts connections, or has returned. *)
Definition serve_call (p mode : Z) (s : Serve) (f : DaemonFiles) : option (Serve * DaemonFiles) :=
  match s with
  | SvCheck => Some (match f_sock f with Some _ => SvRemove | None => SvMakeDir end, f)
  | SvRemove => Some (match f_sock f with Some _ => (SvMakeDir, set_sock None f) | None => (SvFailed, f) end)
  | SvMakeDir => Some (SvBind, make_dir mode f)
  | SvBind => Some (match f_sock f with Some _ => (SvFailed, f) | None => (SvChmod, set_sock (Some (mkSocket p mode)) f) end)
  | SvChmod =>
      Some (match f_sock f with
            | Some s => (SvListens, set_sock (Some (mkSocket (sock_owner s) SOCKET_MODE)) f)
            | None => (SvFailed, f)
            end)
  | SvListens | SvFailed => None
  end.
(** Whether the listener is there: connections wait from [bind] on. *)
Definition listening (s : Serve) : bool := match s with SvChmod | SvListens => true | _ => false end.

(** ** Processes *)
(** [run_daemon], and a client in [connect_or_spawn] that has seen the pid of
    a process that is gone. *)
Inductive Process : Type :=
| DmMakeDir | DmChmod | DmWritePid
| DmRuns (s : Serve) | DmUnlinkSocket (s : Serve) | DmUnlinkPid (s : Serve)
| ClUnlinkPid | ClUnlinkSocket.

Definition serve_of (d : Process) : option Serve :=
  match d with DmRuns s | DmUnlinkSocket s | DmUnlinkPid s => Some s | _ => None end.
Definition with_serve (s : Serve) (d : Process) : Process :=
  match d with
  | DmRuns _ => DmRuns s
  | DmUnlinkSocket _ => DmUnlinkSocket s
  | DmUnlinkPid _ => DmUnlinkPid s
  | d => d
  end.

(** The next call of the process itself; [None] when it ends, or with it the
    [?] of the code. The loop of [DmRuns] ends when a [daemon_tick] says so;
    the last removals ignore that there is nothing to remove. *)
Definition main_call (p mode : Z) (d : Process) (f : DaemonFiles) : option Process * DaemonFiles :=
  match d with
  | DmMakeDir => (Some DmChmod, make_dir mode f)
  | DmChmod => match f_dir f with Some _ => (Some DmWritePid, set_dir (Some DIR_MODE) f) | None => (None, f) end
  | DmWritePid => (Some (DmRuns SvCheck), set_pid (Some p) f)
  | DmRuns s => (Some (DmUnlinkSocket s), f)
  | DmUnlinkSocket s => (Some (DmUnlinkPid s), set_sock None f)
  | DmUnlinkPid _ => (None, set_pid None f)
  | ClUnlinkPid => (Some ClUnlinkSocket, set_pid None f)
  | ClUnlinkSocket => (None, set_sock None f)
  end.

(** ** Runs *)
Record DaemonHost := mkHost { dn_files : DaemonFiles; dn_procs : gmap Z Process }.

(** [Fails]: a call before the loop is refused by the system, and the process
    ends; [ServeFails]: one of the task, which logs it and returns. [Killed]:
    by a signal that is not the one of [ctrl_c]. *)
Inductive Move : Type :=
| Spawned (p : Z) | Main (p mode : Z) | Serves (p mode : Z) | Fails (p : Z) | ServeFails (p : Z) | Killed (p : Z)
| SeesStale (c : Z).

Definition put (p : Z) (d : option Process) (f : DaemonFiles) (h : DaemonHost) : DaemonHost :=
  mkHost f (match d with Some d => <[p := d]> (dn_procs h) | None => delete p (dn_procs h) end).

Definition move (m : Move) (h : DaemonHost) : option DaemonHost :=
  let f := dn_files h in
  match m with
  | Spawned p => match dn_procs h !! p with None => Some (put p (Some DmMakeDir) f h) | Some _ => None end
  | Main p mode => d ← dn_procs h !! p; let '(d', f') := main_call p mode d f in Some (put p d' f' h)
  | Serves p mode =>
      d ← dn_procs h !! p; s ← serve_of d; r ← serve_call p mode s f;
      Some (put p (Some (with_serve r.1 d)) r.2 h)
  | Fails p =>
      d ← dn_procs h !! p;
      match d with DmMakeDir | DmChmod | DmWritePid => Some (put p None f h) | _ => None end
  | ServeFails p =>
      d ← dn_procs h !! p; s ← serve_of d;
      match s with SvListens => None | _ => Some (put p (Some (with_serve SvFailed d)) f h) end
  | Killed p => _ ← dn_procs h !! p; Some (put p None f h)
  | SeesStale c =>
      q ← f_pid f;
      match dn_procs h !! q, dn_procs h !! c with
      | None, None => Some (put c (Some ClUnlinkPid) f h)
      | _, _ => None
      end
  end.
Definition daemon_step (h h' : DaemonHost) : Prop := ∃ m, move m h = Some h'.
Fixpoint moves (ms : list Move) (h : DaemonHost) : option DaemonHost :=
  match ms with [] => Some h | m :: ms => h ← move m h; moves ms h end.

(** The process that a client reaches which connects now. *)
Definition connects (h : DaemonHost) : option Z :=
  sock ← f_sock (dn_files h); d ← dn_procs h !! sock_owner sock; s ← serve_of d;
  if listening s then Some (sock_owner sock) else None.

(** ** Lemmas *)
(** What a move does to the files and to the processes: those of others stay
    as they are. *)
Lemma moves_run ms h h' : moves ms h = Some h' → rtc daemon_step h h'.
Proof.
  revert h. induction ms as [|m ms IH]; simpl; intros h; [by intros [= ->]|].
  intros (h1 & Hm & Hms)%bind_Some. eapply rtc_l; [by exists m|by apply IH].
Qed.

(** The cases of a move. *)
Inductive Acts (h : DaemonHost) : Z → option Process → option Process → DaemonFiles → Prop :=
| act_spawns p : dn_procs h !! p = None → Acts h p None (Some DmMakeDir) (dn_files h)
| act_main p mode d d' f : main_call p mode d (dn_files h) = (d', f) → Acts h p (Some d) d' f
| act_serves p mode d s s' f : serve_of d = Some s → serve_call p mode s (dn_files h) = Some (s', f) →
    Acts h p (Some d) (Some (with_serve s' d)) f
| act_serve_fails p d s : serve_of d = Some s → s ≠ SvListens → Acts h p (Some d) (Some (with_serve SvFailed d)) (dn_files h)
| act_gone p d : Acts h p (Some d) None (dn_files h)
| act_cleans c : Acts h c None (Some ClUnlinkPid) (dn_files h).

Lemma move_acts m h h' : move m h = Some h' →
  ∃ p d d' f, Acts h p d d' f ∧ dn_procs h !! p = d ∧ h' = put p d' f h.
Proof.
  destruct m as [p|p mode|p mode|p|p|p|c]; simpl.
  - destruct (_ !! p) eqn:E; [done|]. intros [= <-]. exists p, None, (Some DmMakeDir), (dn_files h). split; [by constructor|done].
  - intros (d & Hd & Hm)%bind_Some. destruct (main_call p mode d _) as [d' f] eqn:E. simplify_eq.
    exists p, (Some d), d', f. split; [by econstructor|done].
  - intros (d & Hd & (s & Hs & ([s' f] & Hc & [= <-])%bind_Some)%bind_Some)%bind_Some.
    exists p, (Some d), (Some (with_serve s' d)), f. split; [by eapply act_serves|done].
  - intros (d & Hd & Hm)%bind_Some. exists p, (Some d), None, (dn_files h). split; [constructor|].
    split; [done|]. by destruct d; simplify_eq.
  - intros (d & Hd & (s & Hs & Hc)%bind_Some)%bind_Some. exists p, (Some d), (Some (with_serve SvFailed d)), (dn_files h).
    split; [apply (act_serve_fails _ _ _ s); [done|by intros ->]|]. split; [done|]. by destruct s; simplify_eq.
  - intros (d & Hd & [= <-])%bind_Some. exists p, (Some d), None, (dn_files h). by split; [constructor|].
  - intros (q & Hq & Hm)%bind_Some. destruct (_ !! q); [done|]. destruct (_ !! c) eqn:E; [done|]. simplify_eq.
    exists c, None, (Some ClUnlinkPid), (dn_files h). by split; [constructor|].
Qed.

Lemma lookup_put p d f h q : dn_procs (put p d f h) !! q = if decide (p = q) then d else dn_procs h !! q.
Proof. destruct d; simpl; case_decide; subst; by simplify_map_eq. Qed.

Lemma serve_with s d : is_Some (serve_of d) → serve_of (with_serve s d) = Some s.
Proof. destruct d; simpl; intros [? [=]]; done. Qed.

(** *** The directory *)
Definition past_chmod (d : Process) : Prop := match d with DmMakeDir | DmChmod | ClUnlinkPid | ClUnlinkSocket => False | _ => True end.
Definition private (h : DaemonHost) : Prop :=
  (∀ p d, dn_procs h !! p = Some d → past_chmod d → f_dir (dn_files h) = Some DIR_MODE) ∧
  (∀ sock d, f_sock (dn_files h) = Some sock → dn_procs h !! sock_owner sock = Some d → serve_of d = Some SvListens →
     sock_mode sock = SOCKET_MODE).

(** The mode of the directory once it was set. *)
Lemma act_dir h p d d' f : Acts h p d d' f → f_dir (dn_files h) = Some DIR_MODE → f_dir f = Some DIR_MODE.
Proof.
  intros Ha Hd. destruct Ha as [p Hn|p mode d d' f Hm|p mode d s s' f Hs Hc| | |]; try done.
  - destruct d; simpl in Hm; unfold make_dir in *; rewrite ?Hd in Hm; by simplify_eq.
  - destruct s; simpl in Hc; unfold make_dir in *; rewrite ?Hd in Hc; try (by simplify_eq); destruct (f_sock _); by simplify_eq.
Qed.

(** The socket of a step: as it was, removed, just bound, or with its mode set. *)
Lemma act_sock h p d d' f : Acts h p d d' f →
  f_sock f = f_sock (dn_files h) ∨ f_sock f = None ∨
  (∃ mode d0, d = Some d0 ∧ serve_of d0 = Some SvBind ∧ d' = Some (with_serve SvChmod d0) ∧ f_sock f = Some (mkSocket p mode)) ∨
  (∃ s, f_sock (dn_files h) = Some s ∧ f_sock f = Some (mkSocket (sock_owner s) SOCKET_MODE)).
Proof.
  intros Ha. destruct Ha as [p Hn|p mode d d' f Hm|p mode d s s' f Hs Hc| | |]; auto.
  - destruct d; simpl in Hm; unfold make_dir in *; try destruct (f_dir _); simplify_eq/=; auto.
  - destruct s; simpl in Hc; unfold make_dir in *; try destruct (f_dir _); try destruct (f_sock (dn_files h)) eqn:E; simplify_eq/=; auto.
    + right; right; left. by exists mode, d.
    + right; right; right. by eexists.
Qed.

(** A socket that a process has as its own is the one that was there, unless it
    is about to set its mode. *)
Lemma act_private h p d d' f : Acts h p d d' f → dn_procs h !! p = d → private h → private (put p d' f h).
Proof.
  intros Ha Hp [Hdir Hmode]. split.
  - intros q e Hq Hpast. rewrite lookup_put in Hq. simpl. case_decide as E; [subst q|].
    2: { eapply act_dir; [exact Ha|]. by eapply Hdir. }
    destruct Ha as [p Hn|p mode d e' f Hm|p mode d s s' f Hs Hc|p d s Hs Hn|p d|c]; simplify_eq/=; try done.
    + destruct d; simpl in Hm; unfold make_dir in Hm; simplify_eq/=; try done; try (by eapply Hdir);
        destruct (f_dir (dn_files h)); by simplify_eq/=.
    + eapply act_dir; [by eapply act_serves|]. eapply Hdir; [done|]. by destruct d.
    + eapply Hdir; [done|]. by destruct d.
  - intros sock e Hs Hq Hl. simpl in Hs. rewrite lookup_put in Hq.
    destruct (act_sock _ _ _ _ _ Ha) as [E|[E|[(mode & d0 & -> & Hd0 & -> & E)|(s & E1 & E)]]]; rewrite E in Hs; [|done|injection Hs as <-..].
    + case_decide as Ep; [|by eapply Hmode].
      destruct Ha as [p Hn|p mode d e' f Hm|p mode d s s' f Hs' Hc|p d s Hs' Hn|p d|c]; simplify_eq/=.
      * eapply Hmode; [exact Hs|exact Hp|]. destruct d; simpl in Hm; try destruct (f_dir (dn_files h)); by simplify_eq/=.
      * rewrite serve_with in Hl by done. simplify_eq. destruct s; simpl in Hc; rewrite ?Hs in Hc; simplify_eq/=.
        rewrite Hs in E. injection E as E. by rewrite <-E.
      * by rewrite serve_with in Hl.
    + simpl in Hq. rewrite decide_True in Hq by done. injection Hq as <-. by rewrite serve_with in Hl.
    + done.
Qed.

(** *** A daemon that lost its socket *)
Definition settled_serve (s : Serve) : Prop := s = SvListens ∨ s = SvFailed.
Definition cut_off (p : Z) (h : DaemonHost) : Prop :=
  ∃ d s, dn_procs h !! p = Some d ∧ serve_of d = Some s ∧ settled_serve s ∧
    (s = SvListens → ∀ sock, f_sock (dn_files h) = Some sock → sock_owner sock ≠ p).

Lemma cut_off_unreachable p h : cut_off p h → connects h ≠ Some p.
Proof.
  intros (d & s & Hd & Hs & Hset & Hn). unfold connects. destruct (f_sock (dn_files h)) as [sock|] eqn:E; simpl; [|done].
  destruct (dn_procs h !! sock_owner sock) as [d'|] eqn:Ed; simpl; [|done].
  destruct (serve_of d') as [s'|] eqn:Es; simpl; [|done]. destruct (listening s') eqn:El; [|done]. intros [= Ep].
  subst p. simplify_eq. destruct Hset as [->| ->]; [by eapply Hn|done].
Qed.

(** The task of a process that keeps running changes only by its own calls. *)
Lemma act_settled h p d e f s : Acts h p (Some d) (Some e) f → serve_of d = Some s → settled_serve s → serve_of e = Some s.
Proof.
  intros Ha Hs Hset. remember (Some d) as od eqn:Ed. remember (Some e) as oe eqn:Ee.
  destruct Ha as [p Hn|p mode d0 e' f Hm|p mode d0 s0 s' f Hs' Hc|p d0 s0 Hs' Hn|p d0|c]; simplify_eq.
  - destruct d; simpl in *; by simplify_eq/=.
  - by destruct Hset as [->| ->].
  - rewrite serve_with by done. by destruct Hset as [->| ->].
Qed.

Lemma move_cut_off p m h h' : move m h = Some h' → is_Some (dn_procs h' !! p) → cut_off p h → cut_off p h'.
Proof.
  intros (q & d & d' & f & Ha & Hq & ->)%move_acts Hp (e & s & He & Hs & Hset & Hn).
  assert (Hsock : s = SvListens → ∀ sock, f_sock f = Some sock → sock_owner sock ≠ p).
  { intros El sock Ef. destruct (act_sock _ _ _ _ _ Ha) as [E|[E|[(mode & d0 & -> & Hd0 & -> & E)|(s0 & E1 & E)]]]; rewrite E in Ef.
    - by eapply Hn.
    - done.
    - injection Ef as <-. simpl. intros ->. by simplify_eq.
    - injection Ef as <-. simpl. by eapply Hn. }
  rewrite lookup_put in Hp. unfold cut_off. rewrite lookup_put. simpl. case_decide as E; [subst q|by exists e, s].
  destruct Hp as [e' ->]. rewrite He in Hq. subst d. exists e', s. split; [done|]. split; [|done]. by eapply act_settled.
Qed.

Definition step_keeping (p : Z) (h h' : DaemonHost) : Prop := daemon_step h h' ∧ is_Some (dn_procs h' !! p).
Lemma cut_off_stays p h h' : rtc (step_keeping p) h h' → cut_off p h → cut_off p h'.
Proof. induction 1 as [|h h1 h' [[m Hm] Hk] _ IH]; [done|]. intros Hc. by eapply IH, move_cut_off. Qed.

(** *** A daemon alone *)
(** Its moves when no call fails and its loop ends when it serves. *)
Definition calm_step (p : Z) (h h' : DaemonHost) : Prop :=
  ∃ mode, move (Serves p mode) h = Some h' ∨
    (move (Main p mode) h = Some h' ∧ ∀ s, dn_procs h !! p = Some (DmRuns s) → s = SvListens).

Definition serve_ok (p : Z) (s : Serve) (f : DaemonFiles) : Prop :=
  match s with
  | SvCheck => True
  | SvRemove => is_Some (f_sock f)
  | SvMakeDir | SvBind => f_sock f = None
  | SvChmod => ∃ mode, f_sock f = Some (mkSocket p mode)
  | SvListens => f_sock f = Some (mkSocket p SOCKET_MODE)
  | SvFailed => False
  end.
Definition alone_ok (p : Z) (d : option Process) (f : DaemonFiles) : Prop :=
  match d with
  | None => f_sock f = None ∧ f_pid f = None
  | Some DmMakeDir => True
  | Some DmChmod | Some DmWritePid => is_Some (f_dir f)
  | Some (DmRuns s) => is_Some (f_dir f) ∧ f_pid f = Some p ∧ serve_ok p s f
  | Some (DmUnlinkSocket s) => s = SvListens
  | Some (DmUnlinkPid s) => s = SvListens ∧ f_sock f = None
  | Some ClUnlinkPid | Some ClUnlinkSocket => False
  end.

(** The calls of a daemon that is alone, of its task and of itself. *)
Lemma serve_call_alone p mode s s' f f' :
  serve_call p mode s f = Some (s', f') → serve_ok p s f → is_Some (f_dir f) →
  serve_ok p s' f' ∧ is_Some (f_dir f') ∧ f_pid f' = f_pid f.
Proof.
  intros Hc Hs [m Hm]. destruct s; simpl in *; unfold make_dir in *; rewrite ?Hm in *; simplify_eq/=.
  - destruct (f_sock f') eqn:E; simpl; rewrite ?E; eauto.
  - destruct Hs as [x Hx]. rewrite Hx in Hc. simplify_eq/=. eauto.
  - rewrite Hm. eauto.
  - rewrite Hs in Hc. simplify_eq/=. rewrite Hm. eauto.
  - destruct Hs as [x Hx]. rewrite Hx in Hc. simplify_eq/=. rewrite Hm. eauto.
Qed.
Lemma main_call_alone p mode d d' f f' :
  main_call p mode d f = (d', f') → (∀ s, d = DmRuns s → s = SvListens) → alone_ok p (Some d) f → alone_ok p d' f'.
Proof.
  intros Hc Hd Ha. destruct d as [| | |s|s|s| |]; simpl in *; unfold make_dir in *; simplify_eq/=; try done.
  - destruct (f_dir f) eqn:E; simplify_eq/=; rewrite ?E; by eexists.
  - destruct Ha as [m Hm]. rewrite Hm in Hc. simplify_eq/=. by eexists.
  - by apply Hd.
  - by destruct Ha.
Qed.

Lemma calm_alone p h h' d :
  calm_step p h h' → dn_procs h !! p = Some d → alone_ok p (Some d) (dn_files h) →
  alone_ok p (dn_procs h' !! p) (dn_files h').
Proof.
  intros (mode & [Hm|[Hm Hstop]]) Hd Ha; simpl in Hm; rewrite Hd in Hm; simpl in Hm.
  - apply bind_Some in Hm as (s & Hs & ([s' f'] & Hc & [= <-])%bind_Some). rewrite lookup_put, decide_True by done. simpl in *.
    destruct d as [| | |s0|s0|s0| |]; simplify_eq/=.
    + destruct Ha as (Hdir & Hpid & Hok). destruct (serve_call_alone _ _ _ _ _ _ Hc Hok Hdir) as (? & ? & ->). by split_and!.
    + by destruct Ha as [-> _].
  - destruct (main_call p mode d (dn_files h)) as [d' f'] eqn:Hc. simplify_eq. rewrite lookup_put, decide_True by done. simpl.
    eapply main_call_alone; [done| |done]. intros s ->. by apply Hstop.
Qed.
Lemma calm_running p h h' : calm_step p h h' → ∃ d, dn_procs h !! p = Some d.
Proof. intros (mode & [Hm|[Hm _]]); simpl in Hm; apply bind_Some in Hm as (d & Hd & _); by exists d. Qed.

(** The calls that a daemon has left, at most. *)
Definition serve_left (s : Serve) : nat :=
  match s with SvCheck => 5 | SvRemove => 4 | SvMakeDir => 3 | SvBind => 2 | SvChmod => 1 | SvListens | SvFailed => 0 end.
Definition calls_left (d : option Process) : nat :=
  match d with
  | Some DmMakeDir => 11 | Some DmChmod => 10 | Some DmWritePid => 9
  | Some (DmRuns s) => 3 + serve_left s
  | Some (DmUnlinkSocket _) => 2 | Some (DmUnlinkPid _) => 1
  | _ => 0
  end.
Definition serves_now (p : Z) (h : DaemonHost) : Prop := dn_procs h !! p = Some (DmRuns SvListens).

Lemma serve_call_left p mode s s' f f' :
  serve_call p mode s f = Some (s', f') → serve_ok p s f → serve_left s' < serve_left s ∧ (s' = SvListens ∨ 0 < serve_left s').
Proof.
  intros Hc Hs. destruct s; simpl in *; simplify_eq.
  - destruct (f_sock f'); simpl; split; [lia|right; lia|lia|right; lia].
  - destruct Hs as [x Hx]. rewrite Hx in Hc. simplify_eq/=. split; [lia|right; lia].
  - simpl. split; [lia|right; lia].
  - rewrite Hs in Hc. simplify_eq/=. split; [lia|right; lia].
  - destruct Hs as [x Hx]. rewrite Hx in Hc. simplify_eq/=. split; [lia|by left].
Qed.

(** A calm step brings the end nearer, and passes by the serving only there. *)
Lemma calm_left p h h' :
  calm_step p h h' → alone_ok p (dn_procs h !! p) (dn_files h) →
  calls_left (dn_procs h' !! p) < calls_left (dn_procs h !! p) ∧
  (3 < calls_left (dn_procs h !! p) → serves_now p h' ∨ 3 < calls_left (dn_procs h' !! p)).
Proof.
  intros Hstep Ha. destruct (calm_running _ _ _ Hstep) as [d Hd]. unfold serves_now. rewrite Hd in Ha |- *.
  destruct Hstep as (mode & [Hm|[Hm Hstop]]); simpl in Hm; rewrite Hd in Hm; simpl in Hm.
  - apply bind_Some in Hm as (s & Hs & ([s' f'] & Hc & [= <-])%bind_Some). rewrite lookup_put, decide_True by done.
    destruct d as [| | |s0|s0|s0| |]; simplify_eq/=; [|by destruct Ha as [-> _]].
    destruct Ha as (_ & _ & Hok). destruct (serve_call_left _ _ _ _ _ _ Hc Hok) as [Hlt Hor].
    split; [lia|]. intros _. destruct Hor as [->|Hpos]; [by left|right; lia].
  - destruct (main_call p mode d (dn_files h)) as [d' f'] eqn:Hc. simplify_eq. rewrite lookup_put, decide_True by done.
    destruct d as [| | |s|s|s| |]; simpl in *; simplify_eq/=; try (split; [lia|intros; right; lia]); try done.
    + destruct Ha as [m Hdir]. rewrite Hdir in Hc. simplify_eq/=. split; [lia|intros; right; lia].
    + rewrite (Hstop s Hd). simpl. split; [lia|lia].
Qed.

Lemma alone_progress p h d :
  dn_procs h !! p = Some d → alone_ok p (Some d) (dn_files h) → ∃ h', calm_step p h h'.
Proof.
  intros Hd Ha. assert (Hmain : (∀ s, d = DmRuns s → s = SvListens) → ∃ h', calm_step p h h').
  { intros Hs. destruct (main_call p 0 d (dn_files h)) as [d' f'] eqn:E. exists (put p d' f' h), 0%Z. right. simpl.
    rewrite Hd. simpl. rewrite E. split; [done|]. intros s [= ->]. by apply Hs. }
  destruct d as [| | |s|s|s| |]; try (by apply Hmain). destruct (decide (s = SvListens)) as [->|Hn]; [apply Hmain; by intros ? [= <-]|].
  destruct (serve_call p 0 s (dn_files h)) as [[s' f']|] eqn:Hc.
  - exists (put p (Some (DmRuns s')) f' h), 0%Z. left. simpl. rewrite Hd. simpl. by rewrite Hc.
  - destruct Ha as (_ & _ & Hok). by destruct s.
Qed.

(** A run of a daemon alone: what it has done and has left, and where it was. *)
Lemma lone_run p f n h :
  let start := mkHost f {[p := DmMakeDir]} in
  nsteps (calm_step p) n start h →
  alone_ok p (dn_procs h !! p) (dn_files h) ∧ n + calls_left (dn_procs h !! p) ≤ 11 ∧
  ((∃ k h1, k ≤ n ∧ nsteps (calm_step p) k start h1 ∧ nsteps (calm_step p) (n - k) h1 h ∧ serves_now p h1) ∨
   3 < calls_left (dn_procs h !! p)).
Proof.
  intros start. revert h. induction n as [|n IH]; intros h Hr.
  { inversion Hr; subst. simpl. rewrite lookup_singleton_eq. split; [done|]. simpl. split; [lia|right; lia]. }
  apply nsteps_inv_r in Hr as (h0 & Hr0 & Hs). destruct (IH h0 Hr0) as (Ha & Hn & Hpast).
  destruct (calm_left p h0 h Hs Ha) as [Hlt Hgo]. split; [|split; [lia|]].
  - destruct (calm_running _ _ _ Hs) as [d Hd]. rewrite Hd in Ha. by eapply calm_alone.
  - destruct Hpast as [(k & h1 & Hk & Hr1 & Hr2 & Hl)|H3].
    + left. exists k, h1. split_and!; [lia|done| |done]. replace (S n - k) with (S (n - k)) by lia. by eapply nsteps_r.
    + destruct (Hgo H3) as [Hl|Hl]; [|by right]. left. exists (S n), h. split_and!; [done|by eapply nsteps_r| |done].
      replace (S n - S n) with 0 by lia. constructor.
Qed.

(** ** Theorems *)
(** C24: The socket is for its user alone. Whatever daemons and clients of a profile
    do, in whatever order, from whatever files they find: when a client can
    connect, the directory of the socket is closed to other users, also in the
    moment between the [bind] and the [chmod] of the socket, and a socket
    whose daemon accepts has its mode set. *)
Theorem socket_private h0 h p :
  dn_procs h0 = ∅ → rtc daemon_step h0 h → connects h = Some p →
  f_dir (dn_files h) = Some DIR_MODE ∧
  ∀ d sock, dn_procs h !! p = Some d → f_sock (dn_files h) = Some sock → serve_of d = Some SvListens → sock_mode sock = SOCKET_MODE.
Proof.
  intros H0 Hr Hc. assert (Hp : private h).
  { revert Hr. apply (rtc_ind_r private); [split; intros; by rewrite H0, ?lookup_empty in *|].
    intros h1 h2 _ [m Hm] Hp. apply move_acts in Hm as (q & d & d' & f & Ha & Hq & ->). by apply (act_private _ _ _ _ _ Ha). }
  destruct Hp as [Hdir Hmode]. unfold connects in Hc.
  apply bind_Some in Hc as (sock & Hs & (d & Hd & (s & Hsv & Hl)%bind_Some)%bind_Some).
  destruct (listening s) eqn:El; [|done]. injection Hl as Ep. rewrite Ep in Hd. split.
  - eapply Hdir; [exact Hd|]. by destruct d.
  - intros d' sock' Hd' Hs' Hl'. simplify_eq. by eapply Hmode.
Qed.

(** C25: A daemon that is alone comes to serve, and leaves nothing behind, when
    the system refuses none of its calls and its loop does not end before its
    task listens. From whatever files it finds, also those of one that was killed, it makes eleven
    calls at most, none of which fails on what it finds, and it has a next one
    until it has ended: no run goes on for ever, and none gets stuck. After
    eight calls at the latest its task has come to listen, and clients have
    reached it. In its loop its pid is in the file and, once its task has bound
    the socket, clients reach it; when it has ended, neither socket nor pid
    file is there. *)
Theorem lone_daemon p f n h :
  let start := mkHost f {[p := DmMakeDir]} in
  nsteps (calm_step p) n start h →
  n + calls_left (dn_procs h !! p) ≤ 11 ∧
  (8 ≤ n → ∃ k h1, k ≤ 8 ∧ nsteps (calm_step p) k start h1 ∧ nsteps (calm_step p) (n - k) h1 h ∧
     serves_now p h1 ∧ connects h1 = Some p) ∧
  match dn_procs h !! p with
  | None => f_sock (dn_files h) = None ∧ f_pid (dn_files h) = None
  | Some d =>
      (∃ h', calm_step p h h') ∧
      ∀ s, d = DmRuns s → f_pid (dn_files h) = Some p ∧ s ≠ SvFailed ∧ (listening s = true → connects h = Some p)
  end.
Proof.
  intros start Hr. destruct (lone_run p f n h Hr) as (Ha & Hn & Hpast). split; [done|]. split.
  - intros H8. destruct Hpast as [(k & h1 & Hk & Hr1 & Hr2 & Hl)|Hlt]; [|lia]. exists k, h1.
    destruct (lone_run p f k h1 Hr1) as (Ha1 & Hn1 & _). pose proof Hl as Hd. unfold serves_now in Hd. rewrite Hd in Ha1, Hn1. simpl in Hn1.
    split_and!; [lia|done|done|done|]. destruct Ha1 as (_ & _ & Hok). unfold connects. simpl in Hok. rewrite Hok. simpl. by rewrite Hd.
  - destruct (dn_procs h !! p) as [d|] eqn:Hd; [|done]. split; [by eapply alone_progress|].
    intros s ->. destruct Ha as (_ & Hpid & Hok). split_and!; [done|by intros ->|]. intros Hl. unfold connects.
    assert (∃ mode, f_sock (dn_files h) = Some (mkSocket p mode)) as [mode ->] by (destruct s; try done; by eexists).
    simpl. rewrite Hd. simpl. by rewrite Hl.
Qed.

(** A daemon that has lost its socket does not get it back: whatever happens
    while it runs, no client reaches it again. *)
Theorem lost_for_good p h h' : cut_off p h → rtc (step_keeping p) h h' → connects h' ≠ Some p.
Proof. intros Hc Hr. by eapply cut_off_unreachable, cut_off_stays. Qed.

(** The moves of a daemon up to its loop, when no socket is in its way, and
    when there is one. *)
Definition start_moves (p : Z) (in_the_way : bool) : list Move :=
  [Spawned p; Main p 493; Main p 0; Main p 0] ++ replicate (if in_the_way then 5 else 4) (Serves p 493).
Definition stop_moves (p : Z) : list Move := [Main p 0; Main p 0; Main p 0].
Definition no_files : DaemonHost := mkHost (mkFiles None None None) ∅.

(** Two daemons of one profile undo each other. There is a run in which a
    daemon starts and serves, a second one starts, takes the socket of the
    first away and serves, and the first then ends in good order, removing the
    socket and the pid file of the second: the second runs on, listens, and
    from then on, whatever happens while it runs, no client reaches it; nor
    does any find its pid. *)
Theorem second_daemon_lost :
  ∃ h1 h2 h3, rtc daemon_step no_files h1 ∧ connects h1 = Some 1%Z ∧ f_pid (dn_files h1) = Some 1%Z ∧
    rtc daemon_step h1 h2 ∧ connects h2 = Some 2%Z ∧ f_pid (dn_files h2) = Some 2%Z ∧
    (∀ h, rtc (step_keeping 1) h2 h → connects h ≠ Some 1%Z) ∧
    rtc daemon_step h2 h3 ∧ dn_procs h3 = {[2%Z := DmRuns SvListens]} ∧ f_pid (dn_files h3) = None ∧
    ∀ h, rtc (step_keeping 2) h3 h → connects h ≠ Some 2%Z.
Proof.
  pose (h1 := default no_files (moves (start_moves 1 false) no_files)).
  pose (h2 := default no_files (moves (start_moves 2 true) h1)).
  pose (h3 := default no_files (moves (stop_moves 1) h2)).
  exists h1, h2, h3. split_and!; try (vm_compute; reflexivity).
  - apply (moves_run (start_moves 1 false)). vm_compute. reflexivity.
  - apply (moves_run (start_moves 2 true)). vm_compute. reflexivity.
  - intros h. apply lost_for_good. exists (DmRuns SvListens), SvListens. split_and!; [vm_compute; reflexivity|done|by left|].
    intros _ sock. vm_compute. by intros [= <-].
  - apply (moves_run (stop_moves 1)). vm_compute. reflexivity.
  - intros h. apply lost_for_good. exists (DmRuns SvListens), SvListens. split_and!; [vm_compute; reflexivity|done|by left|].
    intros _ sock. vm_compute. discriminate.
Qed.

(** Two daemons that start together: both find no socket, one binds it, and
    the other has failed to, writes so to its log and runs on. *)
Theorem start_race_leaves_one_deaf :
  ∃ h, rtc daemon_step no_files h ∧ connects h = Some 1%Z ∧ dn_procs h !! 2%Z = Some (DmRuns SvFailed) ∧
    f_pid (dn_files h) = Some 2%Z ∧ ∀ h', rtc (step_keeping 2) h h' → connects h' ≠ Some 2%Z.
Proof.
  pose (before p := [Spawned p; Main p 493; Main p 0; Main p 0; Serves p 493; Serves p 493]).
  pose (ms := before 1%Z ++ before 2%Z ++ [Serves 1 493; Serves 2 493; Serves 1 493]).
  exists (default no_files (moves ms no_files)). split_and!; try (vm_compute; reflexivity).
  - apply (moves_run ms). vm_compute. reflexivity.
  - intros h'. apply lost_for_good. exists (DmRuns SvFailed), SvFailed.
    split; [vm_compute; reflexivity|]. split; [done|]. split; [right; reflexivity|intros E; discriminate E].
Qed.

(** A client that clears up after a killed daemon can take the socket of the
    one that was started in the meantime. *)
Theorem clean_up_hits_new_daemon :
  ∃ h, rtc daemon_step no_files h ∧ dn_procs h = {[2%Z := DmRuns SvListens]} ∧
    f_pid (dn_files h) = None ∧ ∀ h', rtc (step_keeping 2) h h' → connects h' ≠ Some 2%Z.
Proof.
  pose (ms := start_moves 1 false ++ [Killed 1; SeesStale 9] ++ start_moves 2 true ++ [Main 9 0; Main 9 0]).
  exists (default no_files (moves ms no_files)). split_and!; try (vm_compute; reflexivity).
  - apply (moves_run ms). vm_compute. reflexivity.
  - intros h'. apply lost_for_good. exists (DmRuns SvListens), SvListens. split_and!; [vm_compute; reflexivity|done|by left|].
    intros _ sock. vm_compute. discriminate.
Qed.

(** The directory that a daemon creates and closes to others is that of its
    pid file; the name of a profile is a part of the path, and can lead to
    another one. *)
Lemma profile_picks_directory :
  path_pop <$> pid_path (Some "/home/u") "default" = Some "/home/u/.mxdx/daemon" ∧
  normalize_path ∘ as_bytes ∘ path_pop <$> pid_path (Some "/home/u") "../../x" = Some (as_bytes "/home/u") ∧
  path_pop <$> pid_path (Some "/home/u") "/srv/x" = Some "/srv".
Proof. vm_compute. done. Qed.

(** ** Witnesses *)
Definition lone_moves : list Move := start_moves 1 false ++ stop_moves 1.

Lemma socket_private_witness :
  let h := default no_files (moves (start_moves 1 false) no_files) in
  connects h = Some 1%Z ∧ f_dir (dn_files h) = Some DIR_MODE.
Proof.
  intros h. split; [vm_compute; reflexivity|].
  apply (socket_private no_files h 1); [reflexivity| |vm_compute; reflexivity].
  apply (moves_run (start_moves 1 false)). vm_compute. reflexivity.
Defined.

(** The socket of a daemon that was killed is in its way: the whole life of the
    new one. *)
Definition life_moves : list Move := [Main 1 493; Main 1 0; Main 1 0] ++ replicate 5 (Serves 1 493) ++ [Main 1 0; Main 1 0; Main 1 0].
Fixpoint calm_moves (ms : list Move) (h : DaemonHost) : option DaemonHost :=
  match ms with
  | [] => Some h
  | m :: ms =>
      match m with
      | Serves 1 _ => h ← move m h; calm_moves ms h
      | Main 1 _ =>
          match dn_procs h !! 1%Z with
          | Some (DmRuns s) => if decide (s = SvListens) then h ← move m h; calm_moves ms h else None
          | _ => h ← move m h; calm_moves ms h
          end
      | _ => None
      end
  end.
Lemma calm_moves_steps ms h h' : calm_moves ms h = Some h' → nsteps (calm_step 1) (length ms) h h'.
Proof.
  revert h. induction ms as [|m ms IH]; intros h; cbn [calm_moves length]; [intros [= ->]; constructor|].
  destruct m as [p|p mode|p mode|p|p|p|c]; try done; destruct p as [|[| |]|]; try done.
  - intros Hrun. assert (Hs : (∀ s, dn_procs h !! 1%Z = Some (DmRuns s) → s = SvListens) ∧
      (h1 ← move (Main 1 mode) h; calm_moves ms h1) = Some h').
    { destruct (dn_procs h !! 1%Z) as [[| | |s|s|s| |]|]; try (split; [by intros ? [=]|exact Hrun]).
      destruct (decide (s = SvListens)) as [->|]; [|done]. split; [by intros ? [= <-]|exact Hrun]. }
    destruct Hs as [Hs (h1 & Hm & Hms)%bind_Some]. econstructor; [|by apply IH]. exists mode. right. by split.
  - intros (h1 & Hm & Hms)%bind_Some. econstructor; [|by apply IH]. exists mode. by left.
Qed.

Lemma lone_daemon_witness :
  let start := mkHost (mkFiles (Some 493%Z) (Some (mkSocket 7 493)) (Some 7%Z)) {[1%Z := DmMakeDir]} in
  ∃ h, nsteps (calm_step 1) 11 start h ∧ f_sock (dn_files h) = None ∧ f_pid (dn_files h) = None ∧
    ∃ k h1, k ≤ 8 ∧ nsteps (calm_step 1) k start h1 ∧ connects h1 = Some 1%Z.
Proof.
  intros start. assert (Hgone : (λ h, dn_procs h !! 1%Z) <$> calm_moves life_moves start = Some None) by (by vm_compute).
  destruct (calm_moves life_moves start) as [h|] eqn:E; [|discriminate Hgone]. injection Hgone as Hgone.
  apply calm_moves_steps in E. exists h. split; [exact E|].
  destruct (lone_daemon 1 _ 11 h E) as (_ & Hserved & Hend). rewrite Hgone in Hend. split; [apply Hend|]. split; [apply Hend|].
  destruct Hserved as (k & h1 & Hk & Hr1 & _ & _ & Hc); [lia|]. exists k, h1. split; [exact Hk|]. split; [exact Hr1|exact Hc].
Defined.
