(* ===== verification/ClientMain.v ===== *)
(** * ClientMain: the program of the client ([mxdx-client/main.rs],
    [cli/format.rs], the connecting part of [daemon/mod.rs])

    Which way a command goes: to a daemon that is started for it if need be, or
    straight to Matrix, or neither; the commands that manage the daemon; and
    how a daemon comes to its connection while it already serves. *)
From S2P Require Import Prelude Text Instants Json Fabric SessionEvents Signaling P2PCrypto MatrixTypes Effects Rest MatrixClient MatrixRooms Liveness MatrixDelivery SessionJson ClientSessions ClientProtocol RoomEvents Keychain MatrixSession ClientDaemon Config ClientCli ClientDirect Cleanup Diagnose.
From stdpp Require Import options.

(** ** The status of a daemon ([protocol/methods.rs], [cli/format.rs]) *)
Record TransportInfo := mkTransportInfo { ti_type : string; ti_address : string }.
Record DaemonStatusResult := mkStatusResult {
  ds_uptime_seconds : Z; ds_profile : string; ds_connected_clients : Z; ds_active_sessions : Z;
  ds_transports : list TransportInfo; ds_matrix_status : string; ds_accounts : list string }.

Definition titled (title : string) (rows : list string) : string :=
  if bool_decide (rows = []) then "" else cat ((cat [title; NL]) :: rows).
Definition format_status (s : DaemonStatusResult) : string :=
  cat [cat ["Profile: "; ds_profile s; NL]; cat ["Uptime: "; show (ds_uptime_seconds s); "s"; NL];
       cat ["Matrix: "; ds_matrix_status s; NL]; cat ["Active sessions: "; show (ds_active_sessions s); NL];
       cat ["Connected clients: "; show (ds_connected_clients s); NL];
       titled "Transports:" ((λ t, cat ["  "; ti_type t; " @ "; ti_address t; NL]) <$> ds_transports s);
       titled "Accounts:" ((λ a, cat ["  "; a; NL]) <$> ds_accounts s)].

(** ** Connecting in the background ([run_daemon]) *)
Section background.
Context {W V C : Type} `{MatrixAuth W C} `{JsonValue V} `{RestExternals} `{MultiOps W V}.
Variable connect_accounts : list MultiHs.ServerAccount → bool → Io W string (list bool).
Variable remove_passwords : Io W string ().
Variable keep_passwords : W → bool.
(** [handler.set_matrix], which starts the sync loop. *)
Variable set_matrix : string → W → W.

Definition store_matrix (room : string) : Io W string () := λ w, (Returns (), set_matrix room w).

(** The task ends with the connection, or without one for good. *)
Definition connect_in_background (client : C) (config : ClientRuntimeConfig) : Io W string () :=
  let accounts := client_accounts config in
  if bool_decide (accounts = []) then mret () else
  connected ← attempt (connect_multi connect_accounts remove_passwords keep_passwords accounts
    (default "default" (cf_default_worker_room (cc_client config))) None (cc_force_new_device config));
  match connected with
  | Ok room => _ ← daemon_backup client; store_matrix room
  | Err _ => mret ()
  end.

(** A daemon that cannot connect goes on without a connection, and does not try
    again. *)
Theorem failed_connection_is_final client config (w w1 : W) e :
  connect_multi connect_accounts remove_passwords keep_passwords (client_accounts config)
    (default "default" (cf_default_worker_room (cc_client config))) None (cc_force_new_device config) w = (Raises e, w1) →
  ∃ w2, connect_in_background client config w = (Returns (), w2) ∧ (w2 = w ∨ w2 = w1).
Proof using Type.
  intros Hc. unfold connect_in_background. case_bool_decide; [exists w; by split; [|left]|]. exists w1. split; [|by right].
  unfold mbind, Io_bind, attempt. by rewrite Hc.
Qed.

(** A connection is used however the backup of keys went. *)
Theorem connection_used client config (w w1 w2 : W) room backup :
  client_accounts config ≠ [] →
  connect_multi connect_accounts remove_passwords keep_passwords (client_accounts config)
    (default "default" (cf_default_worker_room (cc_client config))) None (cc_force_new_device config) w = (Returns room, w1) →
  daemon_backup client w1 = (Returns backup, w2) →
  connect_in_background client config w = (Returns (), set_matrix room w2).
Proof using Type.
  intros Ha Hc Hb. unfold connect_in_background. rewrite bool_decide_false by done.
  unfold mbind, Io_bind, attempt. by rewrite Hc, Hb.
Qed.
End background.

(** ** Commands *)
(** What the process goes on with when the command does not end by itself. *)
Inductive ClientGoesOn : Type :=
| AsDaemon (config : ClientRuntimeConfig) (profile : string)
| OnStdio (profile : string).

Class StatusDeserialize (V : Type) := { #[global] de_status :: Deserialize V DaemonStatusResult }.

Section main.
Context {W V C : Type} `{MatrixSdk W V} `{JsonValue V} `{JsonU64 V} `{JsonI64 V} `{JsonBuild V} `{JsonContainers V}
  `{JsonNumbers V} `{HttpServer W V} `{RestExternals} `{MultiOps W V} `{Base64} `{DaemonOutside W} `{MatrixAuth W C}
  `{Host W} `{SessionSerde} `{DiagnoseHost W} `{TempClient W C} `{DaemonSpawn W}
  `{DaemonDeserialize V} `{!Deserialize V ActiveSessionState} `{CliDeserialize V} `{StatusDeserialize V}.
Variable telemetry_list : gmap string V → list (string * V).
Variable env_entries : gmap string string → list (string * string).
Variable char_count : string → nat.
Variable load : Io W string ClientRuntimeConfig.
Variable connect_accounts : list MultiHs.ServerAccount → bool → Io W string (list bool).
Variable remove_passwords : Io W string ().
Variable keep_passwords : W → bool.
Variable de_devices : V → result (list DeviceInfo) string.
Variable de_joined_rooms : V → result (list string) string.
(** [to_string_pretty]; the report of [run_diagnose] takes what it prints with. *)
Variable pretty : V → result string string.
Variables (default_chain : W → result (KeychainBackend W) string) (load_client load_worker : Io W string DefaultsConfig).
Variables (json_line : V → result string string) (print_fallback : V → string).
Variable to_list : gmap string V → list (string * V).
Local Notation M := (Io (Terminal W) CliEnd).

(** [run_direct]; [None] when the fuel of a loop that follows is used up. *)
Definition run_direct (fuel : nat) (o : CliOptions) (cmd : Commands) : M (option ()) :=
  match cmd with
  | CmdRun r | CmdExec r => direct_run telemetry_list env_entries load connect_accounts remove_passwords keep_passwords fuel o r
  | CmdAttach uuid interactive =>
      direct_attach load connect_accounts remove_passwords keep_passwords o uuid interactive ;; mret (Some ())
  | CmdLs all worker_room =>
      direct_ls telemetry_list char_count load connect_accounts remove_passwords keep_passwords o all worker_room ;; mret (Some ())
  | CmdLogs uuid follow worker_room =>
      direct_logs load connect_accounts remove_passwords keep_passwords fuel o uuid follow worker_room
  | CmdCancel uuid signal worker_room =>
      direct_cancel load connect_accounts remove_passwords keep_passwords o uuid signal worker_room ;; mret (Some ())
  | CmdCleanup targets force delete_all =>
      direct_cleanup de_devices de_joined_rooms load o targets force delete_all ;; mret (Some ())
  | CmdTrust _ => mret (Some ())              (* it is logged *)
  | CmdDaemon _ | CmdInternalDaemon _ _ | CmdDiagnose _ _ => λ t, (Panics, t)
  end.

(** What came of a conversation with the daemon. *)
Fixpoint show_all (shown : list Shown) : M () :=
  match shown with [] => mret () | s :: shown => shows s ;; show_all shown end.
Definition ended_with (e : CliEnd) : M (option ()) := match e with CliReturns => mret (Some ()) | e => raise e end.

(** [run_via_daemon], with what the daemon will write. *)
Definition run_via_daemon (fuel : nat) (o : CliOptions) (cmd : Commands) (c : Connection V) : M (option ()) :=
  try_world connect_or_spawn ;;
  let '(shown, e, _) := via_daemon pretty cmd c in
  show_all shown ;;
  match e with
  | CliDirect => run_direct fuel o cmd
  | e => ended_with e
  end.

(** [daemon status] and [daemon stop]. *)
Definition show_status (c : Connection V) : M () :=
  try_world connect_or_spawn ;;
  match (let? v := (send_request "daemon.status" None 1 c).1 in de (T := DaemonStatusResult) v) with
  | Err e => raise (CliFails e)
  | Ok status => print (format_status status)
  end.
Definition stop_daemon (c : Connection V) : M () :=
  eprintln "Stop not yet fully implemented" ;;
  try_world connect_or_spawn ;;
  match (send_request "daemon.shutdown" None 1 c).1 with
  | Err e => raise (CliFails e)
  | Ok _ => eprintln "Shutdown signal sent"
  end.

Definition becomes_daemon (profile : string) : M (option ClientGoesOn) :=
  config ← try_world load; mret (Some (AsDaemon config profile)).

(** [main]. *)
Definition client_main (fuel : nat) (o : CliOptions) (cmd : Commands) (c : Connection V) : M (option (option ClientGoesOn)) :=
  match cmd with
  | CmdInternalDaemon profile _ => r ← becomes_daemon profile; mret (Some r)
  | CmdDaemon DaemonStatus => show_status c ;; mret (Some None)
  | CmdDaemon (DaemonStop _) => stop_daemon c ;; mret (Some None)
  | CmdDaemon (DaemonStart _ _ _) => r ← becomes_daemon (o_profile o); mret (Some r)
  | CmdDaemon DaemonMcp => mret (Some (Some (OnStdio (o_profile o))))
  | CmdDiagnose pretty_print decrypt =>
      text ← try_world (run_diagnose default_chain load_client load_worker pretty json_line to_list print_fallback Diagnose.Client
        (mkDiagnose (o_profile o) (o_homeserver o) (o_username o) (o_password o) pretty_print decrypt));
      println text ;; mret (Some None)
  | _ =>
      r ← (if o_no_daemon o then run_direct fuel o cmd else run_via_daemon fuel o cmd c);
      mret (const None <$> (r : option ()))
  end.
End main.

(** ** Theorems *)
Section stop.
Context {K W V : Type} `{MatrixSdk W V} `{JsonValue V} `{JsonU64 V} `{JsonBuild V} `{JsonContainers V}
  `{JsonNumbers V} `{HttpServer W V} `{RestExternals} `{MultiOps W V} `{DaemonDeserialize V} `{DaemonOutside W}.
Variable session_keys : gmap string TrackedSession → list string.
Variable telemetry_list : gmap string V → list (string * V).
Variable env_entries : gmap string string → list (string * string).

(** A daemon does not stop when it is told to. It answers that it is shutting
    down, and all that the request changes is that the daemon counts as in use:
    the next look at the clock does not end it, whatever its timeout. *)
Theorem stop_keeps_daemon (req : RpcRequest V) (sink : K) (h : Handler K W) timeout :
  req_method req = "daemon.shutdown" →
  handle_request session_keys telemetry_list env_entries req sink h
    = (Some (RpcResponse (req_id req) (json_object [("status", json_string "shutting_down")])), touch h) ∧
  daemon_tick timeout TenSeconds (touch h) = false.
Proof using Type.
  intros Hm. split.
  - unfold handle_request, dispatch_request. rewrite Hm. reflexivity.
  - unfold daemon_tick, idle_seconds, touch. simpl. unfold saturating_sub. rewrite Z.sub_diag.
    change (Z.max 0 0 / 1000)%Z with 0%Z.
    destruct (bool_decide_reflect (0 < timeout)%Z); [|done].
    rewrite (bool_decide_false (timeout < _)%Z); [apply andb_false_r|]. simpl. lia.
Qed.
End stop.

(** A command that goes straight to Matrix anyway still needs the daemon, which
    is started for it: if there is none to be had, the command fails. *)
Definition goes_straight (cmd : Commands) : bool :=
  match cmd with CmdAttach _ _ | CmdTrust _ | CmdCleanup _ _ _ => true | _ => false end.

Section ways.
Context {W V : Type} `{MatrixSdk W V} `{JsonValue V} `{JsonU64 V} `{JsonI64 V} `{JsonBuild V} `{JsonContainers V}
  `{JsonNumbers V} `{HttpServer W V} `{RestExternals} `{MultiOps W V} `{Base64} `{DaemonOutside W} `{DaemonSpawn W}
  `{DaemonDeserialize V} `{!Deserialize V ActiveSessionState} `{CliDeserialize V}.
Variable telemetry_list : gmap string V → list (string * V).
Variable env_entries : gmap string string → list (string * string).
Variable char_count : string → nat.
Variable load : Io W string ClientRuntimeConfig.
Variable connect_accounts : list MultiHs.ServerAccount → bool → Io W string (list bool).
Variable remove_passwords : Io W string ().
Variable keep_passwords : W → bool.
Variable de_devices : V → result (list DeviceInfo) string.
Variable de_joined_rooms : V → result (list string) string.
Variable pretty : V → result string string.
Local Notation direct := (run_direct telemetry_list env_entries char_count load connect_accounts remove_passwords keep_passwords
  de_devices de_joined_rooms).
Local Notation via := (run_via_daemon telemetry_list env_entries char_count load connect_accounts remove_passwords keep_passwords
  de_devices de_joined_rooms pretty).

Theorem straight_needs_daemon fuel o cmd c (t : Terminal W) :
  goes_straight cmd = true →
  match connect_or_spawn (tm_world t) with
  | (Returns _, w) => via fuel o cmd c t = direct fuel o cmd (mkTerminal w (tm_shown t))
  | (Raises e, w) => via fuel o cmd c t = (Raises (CliFails e), mkTerminal w (tm_shown t))
  | (Panics, w) => via fuel o cmd c t = (Panics, mkTerminal w (tm_shown t))
  end.
Proof using Type.
  intros Hc. unfold run_via_daemon. destruct (connect_or_spawn (tm_world t)) as [o1 w] eqn:E.
  assert (Ht : try_world connect_or_spawn t = match o1 with
                 | Returns x => (Returns x, mkTerminal w (tm_shown t))
                 | Raises e => (Raises (CliFails e), mkTerminal w (tm_shown t))
                 | Panics => (Panics, mkTerminal w (tm_shown t)) end) by (unfold try_world; by rewrite E).
  destruct o1 as [u|e|].
  - erewrite io_bind_step by exact Ht. by destruct cmd.
  - unfold mbind at 1, Io_bind at 1. by rewrite Ht.
  - unfold mbind at 1, Io_bind at 1. by rewrite Ht.
Qed.
End ways.
