(* ===== verification/Redaction.v ===== *)
(** * Redaction: what the logs can show of secrets (the [Debug] instances of
    [mxdx-p2p/turn.rs], [crypto.rs], [transport/driver.rs],
    [signaling/events.rs], [mxdx-matrix/session.rs], [crypto_envelope.rs])

    The records that hold keys, tokens and payloads print themselves by hand.
    Two that differ in their secrets only print the same; what they still show
    of them is the length of a frame and whether there is a key. *)
From S2P Require Import Prelude Text P2PCrypto Signaling Driver Turn MatrixTypes MatrixSession.
From stdpp Require Import options.

(** ** Sealed payloads ([crypto_envelope.rs]) *)
Inductive Megolm (T : Type) : Type := MkMegolm (sealed : T).
Arguments MkMegolm {T} sealed.
Definition into_ciphertext_bytes {T} (m : Megolm T) : T := let 'MkMegolm b := m in b.
Definition as_ciphertext_bytes {T} (m : Megolm T) : T := let 'MkMegolm b := m in b.

(** ** [Debug] *)
Section debug.
(** The [Debug] of [str], [Duration] and [SystemTime]. *)
Variable debug_str : string → string.
Variable debug_duration debug_time : Z → string.

Definition debug_struct (name : string) (fields : list (string * string)) : string :=
  cat [name; " { "; String.concat ", " ((λ f, cat [f.1; ": "; f.2]) <$> fields); " }"].
Definition debug_option (o : option string) : string :=
  match o with Some s => cat ["Some("; s; ")"] | None => "None" end.
Definition redacted : string := debug_str "<redacted>".

Definition TurnCredentials_debug (c : TurnCredentials) : string :=
  debug_struct "TurnCredentials"
    [("uri_count", show (Z.of_nat (length (uris c)))); ("username", redacted); ("password", redacted);
     ("ttl", debug_duration (ttl c)); ("fetched_at", debug_time (fetched_at c))].
Definition EncryptedFrame_debug (f : EncryptedFrame) : string :=
  debug_struct "EncryptedFrame"
    [("ciphertext_len_b64", show (Z.of_nat (length (as_bytes (ciphertext f)))));
     ("iv_len_b64", show (Z.of_nat (length (as_bytes (iv f)))))].
Definition SealedKey_debug (k : SealedKey) : string := debug_struct "SealedKey" [("key", redacted)].
Definition P2PCrypto_debug (c : P2PCrypto.P2PCrypto) : string := debug_struct "P2PCrypto" [("key", redacted)].
Definition OutboundRequest_debug (r : OutboundRequest) : string :=
  debug_struct "OutboundRequest" [("event_type", debug_str (out_event_type r)); ("payload", redacted)].
Definition CallSdpField_debug (f : CallSdpField) : string :=
  debug_struct "CallSdpField" [("kind", debug_str (kind f)); ("sdp", debug_str (sdp f))].
Definition CallInvite_debug (i : CallInvite) : string :=
  debug_struct "CallInvite"
    [("call_id", debug_str (inv_call_id i)); ("party_id", debug_str (inv_party_id i)); ("version", debug_str (inv_version i));
     ("lifetime", show (inv_lifetime i)); ("offer", CallSdpField_debug (inv_offer i));
     ("mxdx_session_key", debug_str (match inv_mxdx_session_key i with Some _ => "<redacted>" | None => "None" end));
     ("session_uuid", debug_option (debug_str <$> inv_session_uuid i))].
Definition SessionData_debug (s : SessionData) : string :=
  debug_struct "SessionData"
    [("user_id", debug_str (sd_user_id s)); ("device_id", debug_str (sd_device_id s));
     ("access_token", debug_str "[REDACTED]"); ("homeserver_url", debug_str (sd_homeserver_url s))].
Definition Megolm_debug {T} (m : Megolm T) : string := debug_struct "Megolm" [("payload", redacted)].

(** ** Theorems *)
(** No secret changes what is printed: not the servers, the name and the
    password of TURN credentials, not a key, not the text of a frame of the
    same length, not a payload, not the session key of an invite, not an
    access token, not a sealed payload. *)
Theorem secrets_not_printed :
  (∀ u u' n n' p p' t f, length u = length u' →
     TurnCredentials_debug (mkTurnCredentials u n p t f) = TurnCredentials_debug (mkTurnCredentials u' n' p' t f)) ∧
  (∀ c c' v v', length (as_bytes c) = length (as_bytes c') → length (as_bytes v) = length (as_bytes v') →
     EncryptedFrame_debug (mkEncryptedFrame c v) = EncryptedFrame_debug (mkEncryptedFrame c' v')) ∧
  (∀ k k', SealedKey_debug k = SealedKey_debug k') ∧ (∀ c c', P2PCrypto_debug c = P2PCrypto_debug c') ∧
  (∀ e p p', OutboundRequest_debug (mkOutbound e p) = OutboundRequest_debug (mkOutbound e p')) ∧
  (∀ c p v l o k k' s, CallInvite_debug (mkCallInvite c p v l o (Some k) s) = CallInvite_debug (mkCallInvite c p v l o (Some k') s)) ∧
  (∀ u d t t' h, SessionData_debug (mkSession u d t h) = SessionData_debug (mkSession u d t' h)) ∧
  (∀ T (m m' : Megolm T), Megolm_debug m = Megolm_debug m').
Proof using Type.
  split_and!; try done.
  - intros u u' n n' p p' t f E. unfold TurnCredentials_debug. simpl. by rewrite E.
  - intros c c' v v' E1 E2. unfold EncryptedFrame_debug. simpl. by rewrite E1, E2.
Qed.
End debug.
